(* ===== verification/_CoqProject ===== *)
-Q . S2P
Prelude.v
Locks.v
Ipi.v
ListHead.v
HList.v
Bitops.v
Tiling.v
Buddy.v
Allocator.v
Uaccess.v
Kmalloc.v
Radix.v
SlotTable.v
Capability.v
PageTable.v
VmRegion.v
Sched.v
PolicyRR.v
PolicyPBRR.v
Notific.v
Memory.v
Exception.v
Ipc.v
Recycle.v
Thread.v
ByteMem.v
Cpio.v
Elf.v
Root.v
Printk.v
URadix.v
TmpFile.v
Idman.v
TmpFid.v
