(* ===== verification/Prelude.v ===== *)
(** * A verification library for the ChCore microkernel (FlexIPC tree)

    ** The program

    The kernel under src/kernel is a microkernel for aarch64: page and heap
    allocators, page tables and address spaces, objects that are named by
    capabilities, threads with two scheduling policies, timers, notifications,
    inter-process communication, and the locks under all of them.  User-level
    servers, drivers and ported libraries make up the rest of the tree.  This
    library models the kernel functions one by one and proves what their callers
    rely on; of the user level it has the files of the memory file system and the
    part of the process manager that the kernel talks to.

    The parts and the files that model them, from the bottom up:

    - Locks.v: the ticket lock and the reader-writer lock
      (kernel/arch/aarch64/sync), as transition systems of several CPUs, one load
      or store per step.
    - Ipi.v: requests between CPUs (kernel/irq/ipi.c), as a transition system of
      all CPUs.
    - ListHead.v, HList.v: the intrusive lists and the hash lists of
      kernel/include/common/list.h on a heap of link fields.  All other files keep such a list as the Rocq list of its
      nodes, which the theorems of these two justify.
    - Bitops.v: bitmaps (kernel/include/common/bitops.h).
    - Tiling.v, Buddy.v: the buddy allocator (kernel/mm/buddy.c) and its
      specification by tilings of the managed pages with aligned blocks.
    - Kmalloc.v: slabs and kmalloc (kernel/mm/slab.c, kmalloc.c) on top of it, and
      the layout of memory at boot (kernel/mm/mm.c).
    - Allocator.v: the classes [Allocator] and [PageAllocator], what the rest of
      the kernel needs of the heap.  Kmalloc.v gives the instance; the files below
      are proved against the class.
    - Uaccess.v: copying from and to user memory.
    - Radix.v: the radix trees of memory objects (kernel/lib/radix.c).
    - SlotTable.v, Capability.v: slot tables, capability groups, objects with
      reference counts, and the system calls on capabilities
      (kernel/object/cap_group.c, capability.c).
    - PageTable.v: the four-level page tables
      (kernel/arch/aarch64/mm/page_table.c).
    - VmRegion.v: regions, address spaces, memory objects and the page fault
      handler (kernel/mm/vmregion.c, pgfault_handler.c), over PageTable.v and
      Radix.v.
    - Sched.v: threads, contexts, thread switching, lazy FPU saving
      (kernel/sched, kernel/arch/aarch64/sched); PolicyRR.v and PolicyPBRR.v: the
      two policies.  The class [Scheduler] at the end of Sched.v is what the rest
      of the kernel needs of a policy; both policies are instances.
    - Notific.v: sleeping, the timer interrupt, notifications and user-level
      interrupts (kernel/irq/timer.c, kernel/ipc/notification.c,
      kernel/object/irq.c), proved against [Scheduler].
    - Memory.v: the system calls on memory (kernel/object/memory.c): memory objects,
      brk, mmap, mprotect and shared memory, over Capability.v, VmRegion.v and
      Sched.v.
    - Exception.v: the dispatcher of exceptions and the page fault entry
      (kernel/arch/aarch64/irq/irq_entry.c, pgfault.c), over Memory.v.
    - Ipc.v: inter-process communication (kernel/ipc/connection.c): registration,
      calls, returns and capability transfer, over Memory.v.
    - Recycle.v: the exit of processes (kernel/object/recycle.c) and the thread of
      the process manager that is told of it (user/procmgr/recycle.c), with the
      ring buffer between them, over Notific.v and Memory.v.
    - Thread.v: creation, teardown, exit and affinity of threads
      (kernel/object/thread.c), over Recycle.v.
    - ByteMem.v: bytes in memory, strings and byte order (kernel/include/common);
      Cpio.v: the file archive in the kernel image (kernel/lib/cpio); Elf.v: the
      parser of program images (kernel/lib/elf.c); Root.v: the start of the first
      process (kernel/object/set_thread_env.c and the rest of thread.c), over these
      and Thread.v.
    - Printk.v: formatted output (kernel/lib/printk.c).
    - URadix.v, Idman.v: the radix tree and the identifiers that user-level servers
      use (user/musl-1.1.24/include/chcore), the tree over a class [Malloc];
      TmpFile.v: the contents of files in the memory file system (user/tmpfs/util.c,
      tmpfs.c), over URadix.v; TmpFid.v: its open descriptors and the requests on
      them (user/tmpfs/util.h, tmpfs.c), over TmpFile.v and Idman.v.

    ** How code is modelled

    A C function is a function of the monad [M S] below, with the C name, on the
    state [S] of its component; control flow follows the C code, early returns
    and error paths included.  An [outcome] says whether the function returned
    ([Done]), left for user mode and never returns ([Away]), stopped in a [BUG]
    ([Halt]), accessed memory it must not ([Fault]) or waits forever ([Spin]).
    The state is a record; structures in memory are maps from addresses to
    records, so that a bad pointer is a failing lookup, and [Fault].  A component
    that uses another has the state of the other as a field and runs its code with
    [zoom].  Machine integers are [Z] with the wrap-around written out ([u64],
    [u32], [s32], [s64]).

    The kernel heap is an abstract state with the laws of [Allocator]; a component
    that contains others keeps one heap state for each.  The board is a parameter:
    the number of CPUs, the addresses of idle threads, the tick counter as a
    sequence of values, the interrupt controller.  What is read from user memory
    is an argument.

    Locks that a function takes and releases itself are not part of the state,
    each such function being one atomic step; Locks.v shows what makes that
    right.  Locks that a function can return with (of the radix tree, of an
    address space, of an IPC handler) are fields, and taking a held one is [Spin]
    or, for a try-lock, its error.  Where the order
    of unlocking matters, the function is modelled in the pieces between
    ([take_waiter], [leave_current], [direct_switch] in Notific.v).

    Loops over lists recurse on the list.  The other loops have fuel, always
    enough: the number of orders in Buddy.v, of pages in PageTable.v, of regions in
    VmRegion.v and Memory.v, of messages in Recycle.v, of bits in Bitops.v and
    Kmalloc.v, of nodes in HList.v, of files in Cpio.v, of the pages of a range in TmpFile.v, of
    words in Idman.v.  Running out of fuel is [Spin]
    or a wrong result, so the theorems that a function returns show that it does
    not happen.

    ** What is proved

    - Memory: free and used blocks tile memory in every reachable state of the
      buddy allocator, allocation and freeing change exactly one block, live heap
      regions never overlap; the radix tree is a map from keys to values.
    - Capabilities: the start of the first group establishes the invariant that
      reference counts are the number of capabilities and of uses and that slots,
      tables and lists of copies agree; each operation keeps it and changes exactly
      the capability it is given, revoking leaves no capability for an object.  What
      an operation does without memory, and when the deinitialiser of an object does
      not return, is stated too; dropping the last reference to a group is excluded,
      since its table would be left behind.
    - Virtual memory: for ranges of whole pages, mapping, unmapping and changing protection change the
      translation of exactly the pages of the range; the regions of an address
      space stay disjoint; a page fault maps the right page, zeroed if new.
    - Scheduling: a thread is on the ready queue of its CPU (and priority) exactly
      when it is ready, FPU contents are never lost on the proved paths, the
      round-robin queue is fair, the priority policy picks the highest priority.
    - Timers and notifications: the sleep lists are sorted and the timer interrupt
      wakes exactly the threads that are due and charges the current thread one
      tick; notifications implement counting semaphores.
    - Memory system calls: mapping changes the address space and no reference
      count, reads and writes of data objects stay inside the object, mprotect
      returns and changes exactly the regions of the range.
    - IPC: accepting a client establishes a connection; a call that transfers no
      capabilities runs the handler of the server with the arguments, badge and
      scheduling context of the call, its return, whatever ran in between, resumes
      the client with nothing but the result changed, and until then every other
      call is refused without effect.
    - Exit of processes: until it wraps around, the ring buffer is a queue for every
      order of puts and takes; the recycle thread empties it and marks exactly the
      processes it is told of; what an exit sends, and what it does not.
    - Threads: a new thread has the group, address space and registers it should
      and keeps no reference, its teardown frees exactly its context, the last exit
      ends the process, an affinity that is set can be read back.
    - Locks: mutual exclusion under every interleaving, first come first served,
      no deadlock.
    - Requests between CPUs: under every interleaving a target acts on exactly the
      arguments of the sender that waits for it.
    - The first process: the search in the archive finds the right file and
      returns, the ELF parser gives back the headers of a 64-bit image of any byte
      order, a segment and the stack page have the right bytes and nothing
      else is written; a run of the whole start on a small image.
    - Exceptions: what the entry does with every class of exception; translation
      faults of the current thread are served.
    - Printing: the digits that are printed are those of the number.
    - Files: reading, writing, truncating, allocating and punching holes act on the
      list of the bytes of a file as they should, where the pages they need are not
      missing; descriptors are a partial map that opening and closing change at one
      place; what is written through a descriptor is read back; an identifier is
      found whenever one is free.

    Some theorems show that code does not do what it means to; they are marked in
    their comments.

    ** Not modelled

    Code that drives devices or is assembly (boot, the entry code of exceptions,
    UART, interrupt controllers, memcpy), the system call table and the kernel
    tests, and the x86_64 port but for its use of the requests between CPUs.  Of the
    user level: drivers, and musl, lwip, sqlite and the applications, which are
    ported code and demonstrations; of the process manager all but the recycle thread; the
    file system manager; of the memory file system directories, the walk along a
    path, mapping of files and the dispatch of requests. *)

From Stdlib Require Export ZArith Lia.
From stdpp Require Export base tactics numbers option sets list gmap.

#[global] Open Scope Z_scope.

(** ** Outcomes of kernel code

    A C function of the kernel either returns, or hands the CPU to user mode
    with [eret_to_thread] and never comes back, or stops the machine in the
    endless loop of [BUG_ON]/[BUG] (kernel/include/common/macro.h), or touches
    memory it must not touch, or spins forever on a lock that is never
    released. *)

Inductive outcome (S A : Type) : Type :=
| Done (a : A) (s : S)
| Away (s : S)
| Halt
| Fault
| Spin.
Arguments Done {S A} a s.
Arguments Away {S A} s.
Arguments Halt {S A}.
Arguments Fault {S A}.
Arguments Spin {S A}.

Definition M (S A : Type) : Type := S → outcome S A.

Definition ret {S A} (a : A) : M S A := λ s, Done a s.

Definition bind {S A B} (m : M S A) (k : A → M S B) : M S B := λ s,
  match m s with
  | Done a s' => k a s'
  | Away s' => Away s'
  | Halt => Halt
  | Fault => Fault
  | Spin => Spin
  end.

Declare Scope kernel_scope.
Delimit Scope kernel_scope with K.
Notation "x <- m ;; k" := (bind m (λ x, k))
  (at level 100, m at next level, right associativity) : kernel_scope.
Notation "m ;; k" := (bind m (λ _, k))
  (at level 100, right associativity) : kernel_scope.
#[global] Open Scope kernel_scope.

Definition get {S} : M S S := λ s, Done s s.
Definition gets {S A} (f : S → A) : M S A := λ s, Done (f s) s.
Definition put {S} (s : S) : M S unit := λ _, Done tt s.
Definition modify {S} (f : S → S) : M S unit := λ s, Done tt (f s).
Definition halt {S A} : M S A := λ _, Halt.
Definition fault {S A} : M S A := λ _, Fault.
Definition away {S A} : M S A := λ s, Away s.

(** [BUG_ON(expr)]: an endless loop when [expr] holds. *)
Definition BUG_ON {S} (b : bool) : M S unit := if b then halt else ret tt.

(** A pointer dereference: a lookup that must succeed. *)
Definition need {S A} (o : option A) : M S A :=
  match o with Some a => ret a | None => fault end.

(** Running code of a component on its part of a larger state. *)
Definition zoom {S T A} (prj : S → T) (upd : T → S → S) (m : M T A) : M S A := λ s,
  match m (prj s) with
  | Done a t => Done a (upd t s)
  | Away t => Away (upd t s)
  | Halt => Halt
  | Fault => Fault
  | Spin => Spin
  end.

Lemma bind_Done {S A B} (m : M S A) (k : A → M S B) s a s' :
  m s = Done a s' → bind m k s = k a s'.
Proof. intros H. unfold bind. by rewrite H. Qed.

Lemma bind_inv {S A B} (m : M S A) (k : A → M S B) s b s' :
  bind m k s = Done b s' → ∃ a s1, m s = Done a s1 ∧ k a s1 = Done b s'.
Proof. unfold bind. destruct (m s) as [a s1| | | |]; [|done..]. by exists a, s1. Qed.

Lemma bind_Halt {S A B} (m : M S A) (k : A → M S B) s : m s = Halt → bind m k s = Halt.
Proof. intros H. unfold bind. by rewrite H. Qed.

Lemma bind_Away {S A B} (m : M S A) (k : A → M S B) s s' : m s = Away s' → bind m k s = Away s'.
Proof. intros H. unfold bind. by rewrite H. Qed.

Lemma zoom_Done {S T A} (prj : S → T) upd (m : M T A) s a t :
  m (prj s) = Done a t → zoom prj upd m s = Done a (upd t s).
Proof. intros H. unfold zoom. by rewrite H. Qed.

Lemma zoom_Halt {S T A} (prj : S → T) upd (m : M T A) s :
  m (prj s) = Halt → zoom prj upd m s = Halt.
Proof. intros H. unfold zoom. by rewrite H. Qed.

(** ** Weakest preconditions

    [wp m Q E s]: running [m] from [s] neither halts, faults nor spins; if it
    returns, [Q] holds of the result, if it leaves for user mode, [E] does. *)
Definition wp {S A} (m : M S A) (Q : A → S → Prop) (E : S → Prop) (s : S) : Prop :=
  match m s with
  | Done a s' => Q a s'
  | Away s' => E s'
  | _ => False
  end.

Lemma wp_bind {S A B} (m : M S A) (k : A → M S B) Q E s :
  wp m (λ a, wp (k a) Q E) E s → wp (bind m k) Q E s.
Proof. unfold wp, bind. destruct (m s); auto. Qed.

Lemma wp_mono {S A} (m : M S A) (Q Q' : A → S → Prop) (E E' : S → Prop) s :
  wp m Q E s → (∀ a t, Q a t → Q' a t) → (∀ t, E t → E' t) → wp m Q' E' s.
Proof. unfold wp. destruct (m s); eauto. Qed.

Lemma wp_Done {S A} (m : M S A) Q s :
  wp m Q (λ _, False) s ↔ ∃ a s', m s = Done a s' ∧ Q a s'.
Proof.
  unfold wp. split.
  - destruct (m s) as [a t| | | |]; intros H; try contradiction. by exists a, t.
  - intros (a & t & -> & H). exact H.
Qed.

(** [wph m Q s]: running [m] from [s] returns with [Q], or stops the kernel
    with a [BUG]; it neither faults nor spins. *)
Definition wph {S A} (m : M S A) (Q : A → S → Prop) (s : S) : Prop :=
  match m s with
  | Done a s' => Q a s'
  | Halt => True
  | _ => False
  end.

Lemma wph_bind {S A B} (m : M S A) (k : A → M S B) Q s :
  wph m (λ a, wph (k a) Q) s → wph (bind m k) Q s.
Proof. unfold wph, bind. by destruct (m s). Qed.

Lemma wph_mono {S A} (m : M S A) (Q Q' : A → S → Prop) s :
  wph m Q s → (∀ a t, Q a t → Q' a t) → wph m Q' s.
Proof. unfold wph. destruct (m s); auto. Qed.

(** The same, knowing how the state was reached. *)
Lemma wph_mono_eq {S A} (m : M S A) (Q Q' : A → S → Prop) s :
  wph m Q s → (∀ a t, m s = Done a t → Q a t → Q' a t) → wph m Q' s.
Proof. unfold wph. destruct (m s); auto. Qed.

Lemma wph_Done {S A} (m : M S A) (Q : A → S → Prop) s a s' : m s = Done a s' → Q a s' → wph m Q s.
Proof. unfold wph. by intros ->. Qed.

Lemma wph_step {S A B} (m : M S A) (k : A → M S B) Q s a s' :
  m s = Done a s' → wph (k a) Q s' → wph (bind m k) Q s.
Proof. intros H HQ. apply wph_bind. by eapply wph_Done. Qed.

Lemma wph_or {S A} (m : M S A) (Q : A → S → Prop) s :
  wph m Q s ↔ m s = Halt ∨ ∃ a s', m s = Done a s' ∧ Q a s'.
Proof. unfold wph. destruct (m s); naive_solver. Qed.

Lemma elem_of_mid {A} (x : A) l1 l2 : x ∈ l1 ++ x :: l2.
Proof. apply elem_of_app. right. by left. Qed.

(** A fact about the entries of a concrete map, by evaluation. *)
Lemma map_check {K V} `{Countable K} (P : K → V → Prop) {D : ∀ k v, Decision (P k v)} (m : gmap K V) :
  bool_decide (map_Forall P m) = true → ∀ k v, m !! k = Some v → P k v.
Proof. intros HP. apply bool_decide_eq_true in HP. exact HP. Qed.

#[export] Hint Extern 2 (Decision (match ?o with Some _ => _ | None => _ end)) => destruct o : typeclass_instances.

Ltac check_map :=
  match goal with |- ∀ k v, ?m !! k = Some v → @?P k v => refine (map_check P (D := ltac:(intros k v; cbv beta; apply _)) m _); vm_compute; reflexivity end.

(** ** Machine integers *)

Definition u64 (z : Z) : Z := z mod 2 ^ 64.
Definition u32 (z : Z) : Z := z mod 2 ^ 32.
(** Conversion to [int]/[s32] (two's complement). *)
Definition s32 (z : Z) : Z := (z + 2 ^ 31) mod 2 ^ 32 - 2 ^ 31.
(** Conversion to [long]/[s64]. *)
Definition s64 (z : Z) : Z := (z + 2 ^ 63) mod 2 ^ 64 - 2 ^ 63.

Definition is_u64 (z : Z) : Prop := 0 ≤ z < 2 ^ 64.
Definition is_u32 (z : Z) : Prop := 0 ≤ z < 2 ^ 32.

Create HintDb machine.
Create HintDb buddy.

Lemma u64_range z : is_u64 (u64 z).
Proof. unfold is_u64, u64. apply Z.mod_pos_bound. lia. Qed.

Lemma u64_id z : is_u64 z → u64 z = z.
Proof. unfold is_u64, u64. apply Z.mod_small. Qed.

Lemma u32_id z : is_u32 z → u32 z = z.
Proof. unfold is_u32, u32. apply Z.mod_small. Qed.

Lemma s32_id z : - 2 ^ 31 ≤ z < 2 ^ 31 → s32 z = z.
Proof. intros H. unfold s32. rewrite Z.mod_small; lia. Qed.
Lemma s64_id z : - 2 ^ 63 ≤ z < 2 ^ 63 → s64 z = z.
Proof. intros H. unfold s64. rewrite Z.mod_small; lia. Qed.
Lemma u64_s64 z : 0 ≤ z < 2 ^ 64 → u64 (s64 z) = z.
Proof. intros H. unfold u64, s64. rewrite Zminus_mod_idemp_l, Z.mod_small; lia. Qed.

#[export] Hint Resolve u64_range u64_id u32_id s32_id s64_id : machine.
