(* ===== verification/Locks.v ===== *)
(** * Locks (kernel/arch/aarch64/sync/ticket.c and rwlock.c)

    The locks are short sequences of instructions that several CPUs run at the
    same time, so each is a transition system: a state holds the lock and, for
    each CPU, where it is in the code ([pc]) with its registers; a step is one
    load or store of one CPU.  An exclusive load ([ldaxr]) arms the monitor of
    its CPU, a store to the location by another CPU disarms it, and an exclusive
    store ([stxr]) succeeds only if the monitor is armed, and may fail also then.

    The code outside the lock functions may do anything; it calls [unlock] only
    when it holds the lock. *)

From S2P Require Import Prelude.

(** ** Ticket locks *)

Module Ticket.

(** Where a CPU is: outside; in [lock] before and after the exclusive load, and
    spinning with a ticket; in [try_lock] after the load of [next], and after the
    comparison with [owner]; in the critical section; in [unlock] with the value
    of [owner] loaded. *)
Inductive pc :=
| Out
| LockLoad
| LockStore (lockval : Z)
| LockSpin (lockval : Z)
| TryCompare (lockval : Z)
| TryStore (lockval : Z)
| Inside
| UnlockStore (owner : Z).

(** [armed]: the CPUs whose exclusive monitor is armed for [next]. *)
Record lock_impl := mk_lock { owner : Z; next : Z; armed : gset nat; at_ : gmap nat pc }.

Definition goto (i : nat) (p : pc) (s : lock_impl) : lock_impl := mk_lock (owner s) (next s) (armed s) (<[i := p]> (at_ s)).
Definition arm (i : nat) (s : lock_impl) : lock_impl := mk_lock (owner s) (next s) ({[i]} ∪ armed s) (at_ s).
Definition disarm (i : nat) (s : lock_impl) : lock_impl := mk_lock (owner s) (next s) (armed s ∖ {[i]}) (at_ s).
(** The exclusive store that succeeds. *)
Definition store_next (v : Z) (s : lock_impl) : lock_impl := mk_lock (owner s) v ∅ (at_ s).
Definition store_owner (v : Z) (s : lock_impl) : lock_impl := mk_lock v (next s) (armed s) (at_ s).

(** [lock_init] *)
Definition lock_init (cpus : gset nat) : lock_impl := mk_lock 0 0 ∅ (gset_to_gmap Out cpus).

(** What an instruction of [lock], [try_lock] or [unlock] can do. *)
Inductive step (s : lock_impl) : lock_impl → Prop :=
| lock_call i : at_ s !! i = Some Out → step s (goto i LockLoad s)
| lock_ldaxr i : at_ s !! i = Some LockLoad → step s (goto i (LockStore (next s)) (arm i s))
| lock_stxr i v : at_ s !! i = Some (LockStore v) → i ∈ armed s → step s (goto i (LockSpin v) (store_next (u32 (v + 1)) s))
| lock_stxr_fail i v : at_ s !! i = Some (LockStore v) → step s (goto i LockLoad (disarm i s))
| lock_ldar i v : at_ s !! i = Some (LockSpin v) → step s (if owner s =? v then goto i Inside s else s)
| try_ldaxr i : at_ s !! i = Some Out → step s (goto i (TryCompare (next s)) (arm i s))
| try_ldar i v : at_ s !! i = Some (TryCompare v) → step s (goto i (if owner s =? v then TryStore v else Out) s)
| try_stxr i v : at_ s !! i = Some (TryStore v) → i ∈ armed s → step s (goto i Inside (store_next (u32 (v + 1)) s))
| try_stxr_fail i v : at_ s !! i = Some (TryStore v) → step s (goto i Out (disarm i s))
| unlock_ld i : at_ s !! i = Some Inside → step s (goto i (UnlockStore (owner s)) s)
| unlock_st i o : at_ s !! i = Some (UnlockStore o) → step s (goto i Out (store_owner (u32 (o + 1)) s)).

Definition is_locked (s : lock_impl) : bool := owner s <? next s.

(** ** Specification *)

(** A CPU holds the lock until it has stored [owner]. *)
Definition holds_lock (s : lock_impl) (i : nat) : Prop := at_ s !! i = Some Inside ∨ ∃ o, at_ s !! i = Some (UnlockStore o).

(** The place in the line of a CPU at [p]: a ticket, or the lock. *)
Definition in_line (p : pc) : bool :=
  match p with LockSpin _ | Inside | UnlockStore _ => true | _ => false end.

(** What the registers of a CPU with an armed monitor say. *)
Definition fresh (s : lock_impl) (q : list nat) (p : pc) : Prop :=
  match p with
  | LockStore v | TryCompare v => v = next s
  | TryStore v => v = next s ∧ q = []
  | _ => True
  end.

(** A CPU at place [k] of the line has ticket [owner + k]; only the first has the lock. *)
Definition place (o : Z) (k : nat) (p : pc) : Prop :=
  match p with
  | LockSpin v => v = u32 (o + Z.of_nat k)
  | Inside => k = 0%nat
  | UnlockStore v => k = 0%nat ∧ v = o
  | _ => False
  end.

(** [q] is the line of the CPUs that hold a ticket, the holder of the lock first. *)
Record line_ok (s : lock_impl) (q : list nat) : Prop := {
  li_nodup : NoDup q;
  li_width : Z.of_nat (size (dom (at_ s))) < 2 ^ 32;
  li_owner : is_u32 (owner s);
  li_next : next s = u32 (owner s + Z.of_nat (length q));
  li_in : ∀ i p, at_ s !! i = Some p → in_line p = true → i ∈ q;
  li_place : ∀ k i, q !! k = Some i → ∃ p, at_ s !! i = Some p ∧ place (owner s) k p;
  li_fresh : ∀ i p, at_ s !! i = Some p → i ∈ armed s → fresh s q p
}.

(** The lock as its users see it: a line that CPUs join at the end and leave from
    the front. *)
Inductive fifo : list nat → list nat → Prop :=
| fifo_stay q : fifo q q
| fifo_join q i : i ∉ q → fifo q (q ++ [i])
| fifo_leave i q : fifo (i :: q) q.

(** ** Lemmas *)

Lemma u32_add a b : u32 (u32 a + b) = u32 (a + b).
Proof. unfold u32. apply Zplus_mod_idemp_l. Qed.

(** Two places of the line have different tickets. *)
Lemma ticket_inj o (k1 k2 : nat) :
  Z.of_nat k1 < 2 ^ 32 → Z.of_nat k2 < 2 ^ 32 → u32 (o + Z.of_nat k1) = u32 (o + Z.of_nat k2) → k1 = k2.
Proof.
  unfold u32. intros. pose proof (Z.div_mod (o + Z.of_nat k1) (2 ^ 32) ltac:(lia)).
  pose proof (Z.div_mod (o + Z.of_nat k2) (2 ^ 32) ltac:(lia)).
  assert ((o + Z.of_nat k1) / 2 ^ 32 = (o + Z.of_nat k2) / 2 ^ 32) by nia. lia.
Qed.

Lemma place_in_line o k p : place o k p → in_line p = true.
Proof. by destruct p. Qed.

Section line.
Context (s : lock_impl) (q : list nat) (HL : line_ok s q).

Lemma line_length : Z.of_nat (length q) < 2 ^ 32.
Proof.
  pose proof (li_width _ _ HL).
  assert (length q ≤ size (dom (at_ s)))%nat; [|lia].
  rewrite <- (size_list_to_set (C := gset nat)); [|apply HL].
  apply subseteq_size. intros i Hi%elem_of_list_to_set.
  apply list_elem_of_lookup in Hi as [k Hk]. destruct (li_place _ _ HL _ _ Hk) as (p & Hp & _).
  apply elem_of_dom. eauto.
Qed.

Lemma line_place i p : at_ s !! i = Some p → in_line p = true → ∃ k, q !! k = Some i ∧ place (owner s) k p.
Proof.
  intros Hp Hin. pose proof (li_in _ _ HL _ _ Hp Hin) as (k & Hk)%list_elem_of_lookup.
  exists k. split; [done|]. destruct (li_place _ _ HL _ _ Hk) as (p' & Hp' & ?). congruence.
Qed.

Lemma line_out i p : at_ s !! i = Some p → in_line p = false → i ∉ q.
Proof.
  intros Hp Hin (k & Hk)%list_elem_of_lookup. destruct (li_place _ _ HL _ _ Hk) as (p' & Hp' & ?%place_in_line).
  congruence.
Qed.

(** Only the first of the line is inside. *)
Lemma line_first i : holds_lock s i → ∃ q', q = i :: q'.
Proof.
  intros H. assert (∃ p, at_ s !! i = Some p ∧ in_line p = true ∧ ∀ v, p ≠ LockSpin v) as (p & Hp & Hin & Hv).
  { destruct H as [?|[o ?]]; eauto. }
  destruct (line_place _ _ Hp Hin) as (k & Hk & Hpl).
  assert (k = 0%nat) as -> by (destruct p; naive_solver). destruct q; naive_solver.
Qed.

(** A step outside the line. *)
Lemma line_goto i p0 p A :
  at_ s !! i = Some p0 → in_line p0 = false → in_line p = false → (∀ j, j ≠ i → j ∈ A → j ∈ armed s) →
  (i ∈ A → fresh s q p) → line_ok (mk_lock (owner s) (next s) A (<[i := p]> (at_ s))) q.
Proof.
  intros Hp0 H0 H1 HA Hf. pose proof (line_out _ _ Hp0 H0) as Hiq. destruct HL as [? ? ? ? Hin Hpl Hfr].
  split; simpl; try done.
  - rewrite dom_insert_lookup_L; eauto.
  - intros j p' [[-> <-]|[? ?]]%lookup_insert_Some; naive_solver.
  - intros k j Hj. assert (j ≠ i). { intros ->. apply Hiq, list_elem_of_lookup; eauto. }
    rewrite lookup_insert_ne by done. eauto.
  - intros j p' [[-> <-]|[? ?]]%lookup_insert_Some HjA; [exact (Hf HjA)|]. apply (Hfr j); auto.
Qed.

(** The exclusive store of [next]: the CPU joins the line. *)
Lemma line_join i p0 p :
  at_ s !! i = Some p0 → in_line p0 = false → place (owner s) (length q) p →
  line_ok (mk_lock (owner s) (u32 (next s + 1)) ∅ (<[i := p]> (at_ s))) (q ++ [i]).
Proof.
  intros Hp0 H0 Hp. pose proof (line_out _ _ Hp0 H0) as Hiq. destruct HL as [? ? ? Hn Hin Hpl Hfr].
  split; simpl; try done.
  - apply NoDup_app. repeat split; [done| |apply NoDup_singleton]. intros x Hx ->%list_elem_of_singleton. done.
  - rewrite dom_insert_lookup_L; eauto.
  - rewrite Hn, u32_add, length_app. simpl. f_equal. lia.
  - intros j p' [[-> <-]|[? ?]]%lookup_insert_Some Hj; rewrite elem_of_app; [right; set_solver|left; eauto].
  - intros k j [Hj|[? Hj]]%lookup_app_Some.
    + assert (j ≠ i). { intros ->. apply Hiq, list_elem_of_lookup; eauto. } rewrite lookup_insert_ne by done. eauto.
    + apply list_lookup_singleton_Some in Hj as [? <-]. rewrite lookup_insert_eq. exists p.
      split; [done|]. by replace k with (length q) by lia.
Qed.

(** The first of the line goes on. *)
Lemma line_hold i q' p :
  q = i :: q' → place (owner s) 0 p → line_ok (mk_lock (owner s) (next s) (armed s) (<[i := p]> (at_ s))) q.
Proof.
  intros Hq Hp. destruct HL as [Hnd ? ? ? Hin Hpl Hfr].
  assert (q !! 0%nat = Some i) as H0 by by rewrite Hq. destruct (Hpl _ _ H0) as (p0 & Hp0 & _).
  split; simpl; try done.
  - rewrite dom_insert_lookup_L; eauto.
  - intros j p' [[-> <-]|[? ?]]%lookup_insert_Some Hj; [|eauto]. rewrite Hq. set_solver.
  - intros k j Hj. destruct (decide (j = i)) as [->|].
    + rewrite lookup_insert_eq. exists p. split; [done|]. by rewrite (NoDup_lookup _ _ _ _ Hnd Hj H0).
    + rewrite lookup_insert_ne by done. eauto.
  - intros j p' [[-> <-]|[? ?]]%lookup_insert_Some Hj; [by destruct p|]. exact (Hfr _ _ H1 Hj).
Qed.

(** The store of [owner]: the first leaves the line. *)
Lemma line_leave i q' :
  q = i :: q' → line_ok (mk_lock (u32 (owner s + 1)) (next s) (armed s) (<[i := Out]> (at_ s))) q'.
Proof.
  intros Hq. destruct HL as [Hnd ? ? Hn Hin Hpl Hfr]. rewrite Hq in Hnd, Hn, Hpl, Hin.
  apply NoDup_cons in Hnd as [Hiq Hnd]. destruct (Hpl 0%nat i eq_refl) as (p0 & Hp0 & _).
  split; simpl; try done.
  - rewrite dom_insert_lookup_L; eauto.
  - unfold u32, is_u32. apply Z.mod_pos_bound. lia.
  - rewrite u32_add, Hn. simpl. f_equal. lia.
  - intros j p' [[-> <-]|[? Hj]]%lookup_insert_Some Hp'; [done|].
    specialize (Hin _ _ Hj Hp'). apply elem_of_cons in Hin as [->|?]; done.
  - intros k j Hj. assert (j ≠ i). { intros ->. apply Hiq, list_elem_of_lookup; eauto. }
    rewrite lookup_insert_ne by done. destruct (Hpl (S k) j Hj) as (p & Hp & Hplace). exists p. split; [done|].
    destruct p; simpl in *; try done; try lia. rewrite u32_add, Hplace. f_equal. lia.
  - intros j p' [[-> <-]|[? Hj]]%lookup_insert_Some Ha; [done|]. specialize (Hfr _ _ Hj Ha).
    destruct p'; simpl in *; try done. by destruct Hfr as [_ ?]; subst.
Qed.

(** The ticket that is served is the first of the line. *)
Lemma line_served i v : at_ s !! i = Some (LockSpin v) → owner s = v → ∃ q', q = i :: q'.
Proof.
  intros Hp <-. destruct (line_place _ _ Hp eq_refl) as (k & Hk & Hv). simpl in Hv.
  pose proof line_length. pose proof (lookup_lt_Some _ _ _ Hk).
  assert (0%nat = k) as <-; [|destruct q; naive_solver].
  apply (ticket_inj (owner s)); try lia. rewrite Z.add_0_r, u32_id; [done|apply HL].
Qed.

Lemma line_empty : owner s = next s → q = [].
Proof.
  intros Hn. pose proof line_length. rewrite (li_next _ _ HL) in Hn. destruct q as [|i q']; [done|].
  assert (0%nat = length (i :: q')); [|done]. apply (ticket_inj (owner s)); try lia.
  rewrite Z.add_0_r, u32_id; [done|apply HL].
Qed.

End line.

Lemma line_init cpus : Z.of_nat (size cpus) < 2 ^ 32 → line_ok (lock_init cpus) [].
Proof.
  intros. split; simpl; try done.
  - constructor.
  - by rewrite dom_gset_to_gmap.
  - intros i p [_ <-]%lookup_gset_to_gmap_Some. done.
Qed.

Lemma armed_only i (A : gset nat) j : j ≠ i → j ∈ {[i]} ∪ A → j ∈ A.
Proof. set_solver. Qed.
Lemma disarmed i (A : gset nat) j : j ≠ i → j ∈ A ∖ {[i]} → j ∈ A.
Proof. set_solver. Qed.

Lemma line_step s q s' : line_ok s q → step s s' → ∃ q', line_ok s' q' ∧ fifo q q'.
Proof.
  intros HL H. destruct H as [i Hp|i Hp|i v Hp Ha|i v Hp|i v Hp|i Hp|i v Hp|i v Hp Ha|i v Hp|i Hp|i o Hp].
  - exists q. split; [|constructor]. by eapply (line_goto s q HL).
  - exists q. split; [|constructor]. eapply (line_goto s q HL); eauto using armed_only. done.
  - pose proof (li_fresh _ _ HL _ _ Hp Ha) as Hv. simpl in Hv. subst v.
    exists (q ++ [i]). split; [|constructor; by eapply line_out]. eapply (line_join s q HL); eauto. apply HL.
  - exists q. split; [|constructor]. eapply (line_goto s q HL); eauto using disarmed. done.
  - exists q. split; [|constructor]. destruct (Z.eqb_spec (owner s) v) as [Hv|]; [|done].
    destruct (line_served _ _ HL _ _ Hp Hv). by eapply (line_hold s _ HL).
  - exists q. split; [|constructor]. eapply (line_goto s q HL); eauto using armed_only. done.
  - exists q. split; [|constructor]. eapply (line_goto s q HL); eauto; destruct (Z.eqb_spec (owner s) v) as [Hv|]; try done.
    intros Ha. pose proof (li_fresh _ _ HL _ _ Hp Ha) as Hn. simpl in *. split; [done|].
    apply (line_empty _ _ HL). congruence.
  - destruct (li_fresh _ _ HL _ _ Hp Ha) as [Hv Hq]. simpl in Hv, Hq. subst v q.
    exists ([] ++ [i]). split; [|constructor; set_solver]. by eapply (line_join s [] HL).
  - exists q. split; [|constructor]. eapply (line_goto s q HL); eauto using disarmed. done.
  - exists q. split; [|constructor]. destruct (line_first _ _ HL i) as [q' Hq]; [by left|]. by eapply (line_hold s _ HL).
  - destruct (line_first _ _ HL i) as [q' ->]; [right; eauto|]. exists q'. split; [|constructor].
    destruct (li_place _ _ HL 0%nat i eq_refl) as (p & Hp' & Hpl). replace p with (UnlockStore o) in Hpl by congruence.
    destruct Hpl as [_ ->]. by eapply (line_leave s _ HL).
Qed.

Lemma line_reach s q s' : line_ok s q → rtc step s s' → ∃ q', line_ok s' q' ∧ rtc fifo q q'.
Proof.
  intros HL H. revert q HL. induction H as [s|s s1 s' Hs _ IH]; intros q HL; [by exists q|].
  destruct (line_step _ _ _ HL Hs) as (q1 & HL1 & Hf). destruct (IH _ HL1) as (q' & ? & ?).
  exists q'. split; [done|]. by eapply rtc_l.
Qed.

(** The first of the line enters when it looks at [owner] again. *)
Lemma first_enters s i q : line_ok s (i :: q) → holds_lock s i ∨ at_ s !! i = Some (LockSpin (owner s)).
Proof.
  intros HL. destruct (li_place _ _ HL 0%nat i eq_refl) as (p & Hp & Hpl).
  destruct p; simpl in Hpl; try done; [right|left; by left|left; right; eauto].
  subst. rewrite Z.add_0_r, u32_id in Hp; [done|apply HL].
Qed.

Lemma first_leaves s i q : line_ok s (i :: q) → ∃ s', rtc step s s' ∧ line_ok s' q ∧ ∀ j, j ≠ i → at_ s' !! j = at_ s !! j.
Proof.
  intros HL. assert (∃ s1, rtc step s s1 ∧ line_ok s1 (i :: q) ∧ at_ s1 !! i = Some (UnlockStore (owner s1)) ∧
    ∀ j, j ≠ i → at_ s1 !! j = at_ s !! j) as (s1 & Hs1 & HL1 & Hp & Hfr).
  { destruct (first_enters _ _ _ HL) as [[Hp|[o Hp]]|Hp].
    - eexists. split; [apply rtc_once, unlock_ld, Hp|]. split; [by eapply (line_hold s _ HL)|]. simpl.
      rewrite lookup_insert_eq. split; [done|]. intros. by apply lookup_insert_ne.
    - exists s. split; [done|]. split; [done|]. split; [|done].
      destruct (li_place _ _ HL 0%nat i eq_refl) as (p & Hp' & Hpl). replace p with (UnlockStore o) in Hpl by congruence.
      by destruct Hpl as [_ ->].
    - pose proof (lock_ldar s i _ Hp) as Hs. rewrite Z.eqb_refl in Hs.
      assert (line_ok (goto i Inside s) (i :: q)) as HL1 by by eapply (line_hold s _ HL).
      exists (goto i (UnlockStore (owner s)) (goto i Inside s)).
      split; [eapply rtc_l; [exact Hs|]; apply rtc_once, (unlock_ld (goto i Inside s)); simpl; apply lookup_insert_eq|].
      split; [by eapply (line_hold (goto i Inside s) _ HL1)|]. simpl. rewrite lookup_insert_eq.
      split; [done|]. intros. by rewrite !lookup_insert_ne by done. }
  eexists. split; [eapply rtc_r; [exact Hs1|apply unlock_st, Hp]|]. split; [by eapply (line_leave s1 _ HL1)|].
  simpl. intros j Hj. rewrite lookup_insert_ne by done. auto.
Qed.

Lemma waiter_enters q0 : ∀ s i q v, line_ok s (q0 ++ i :: q) → at_ s !! i = Some (LockSpin v) →
  ∃ s', rtc step s s' ∧ at_ s' !! i = Some Inside.
Proof.
  induction q0 as [|j q0 IH]; simpl; intros s i q v HL Hp.
  - destruct (first_enters _ _ _ HL) as [[?|[? ?]]|Hp']; try congruence.
    pose proof (lock_ldar s i _ Hp') as Hs. rewrite Z.eqb_refl in Hs. eexists.
    split; [by apply rtc_once|]. simpl. apply lookup_insert_eq.
  - destruct (first_leaves _ _ _ HL) as (s1 & Hs1 & HL1 & Hfr).
    assert (i ≠ j). { intros ->. pose proof (li_nodup _ _ HL) as Hnd. inversion Hnd. set_solver. }
    destruct (IH s1 i q v HL1) as (s' & Hs' & ?); [by rewrite Hfr|]. exists s'. split; [|done]. by etrans.
Qed.

(** One CPU takes and releases the lock again and again. *)
Definition alone (o n : Z) (A : gset nat) (p : pc) : lock_impl := mk_lock o n A {[0%nat := p]}.

Ltac one_step H := eapply rtc_r; [|let X := fresh in pose proof H as X; simpl in X;
  unfold goto, arm, store_next, store_owner in X; simpl in X; rewrite insert_singleton_eq in X; exact X].

Lemma alone_takes o : rtc step (alone o o ∅ Out) (alone o (u32 (o + 1)) ∅ Inside).
Proof.
  eapply (rtc_r _ (alone o (u32 (o + 1)) ∅ (LockSpin o))).
  - one_step (lock_stxr (alone o o ({[0%nat]} ∪ ∅) (LockStore o)) 0%nat o (lookup_singleton_eq _ _) ltac:(set_solver)).
    one_step (lock_ldaxr (alone o o ∅ LockLoad) 0%nat (lookup_singleton_eq _ _)).
    one_step (lock_call (alone o o ∅ Out) 0%nat (lookup_singleton_eq _ _)). done.
  - pose proof (lock_ldar (alone o (u32 (o + 1)) ∅ (LockSpin o)) 0%nat o (lookup_singleton_eq _ _)) as H.
    simpl in H. rewrite Z.eqb_refl in H. unfold goto in H. simpl in H. by rewrite insert_singleton_eq in H.
Qed.

Lemma alone_cycle o : rtc step (alone o o ∅ Out) (alone (u32 (o + 1)) (u32 (o + 1)) ∅ Out).
Proof.
  one_step (unlock_st (alone o (u32 (o + 1)) ∅ (UnlockStore o)) 0%nat o (lookup_singleton_eq _ _)).
  one_step (unlock_ld (alone o (u32 (o + 1)) ∅ Inside) 0%nat (lookup_singleton_eq _ _)).
  apply alone_takes.
Qed.

Lemma alone_reaches (n : nat) : rtc step (lock_init {[0%nat]}) (alone (u32 (Z.of_nat n)) (u32 (Z.of_nat n)) ∅ Out).
Proof.
  induction n as [|n IH].
  - replace (lock_init {[0%nat]}) with (alone (u32 (Z.of_nat 0)) (u32 (Z.of_nat 0)) ∅ Out); [done|].
    unfold lock_init, alone. f_equal.
  - etrans; [exact IH|]. pose proof (alone_cycle (u32 (Z.of_nat n))) as H. rewrite u32_add in H.
    by replace (Z.of_nat (S n)) with (Z.of_nat n + 1) by lia.
Qed.

(** ** Properties *)

(** C31: Mutual exclusion of the ticket lock.  Whatever the interleaving of the
    instructions of [lock], [try_lock] and [unlock] on fewer than 2^32 CPUs, two
    CPUs never hold the lock at the same time, also after the 32-bit tickets wrap
    around. *)
Theorem ticket_mutex (cpus : gset nat) (s : lock_impl) (i j : nat)
    (Hc : Z.of_nat (size cpus) < 2 ^ 32) (Hr : rtc step (lock_init cpus) s)
    (Hi : holds_lock s i) (Hj : holds_lock s j) : i = j.
Proof.
  destruct (line_reach _ _ _ (line_init cpus Hc) Hr) as (q & HL & _).
  destruct (line_first _ _ HL _ Hi) as [? ->]. destruct (line_first _ _ HL _ Hj). congruence.
Qed.

(** C32: The ticket lock implements a line.  In a state whose tickets are the line
    [q], every step joins the line at its end, leaves it from its front or keeps
    it; a CPU that holds the lock is the first; and the first, if it does not hold
    the lock yet, spins on the ticket that is now served, so its next load of
    [owner] lets it in. *)
Theorem ticket_fifo (s : lock_impl) (q : list nat) (s' : lock_impl)
    (HL : line_ok s q) (Hs : step s s') :
  (∃ q', line_ok s' q' ∧ fifo q q') ∧
  (∀ i, holds_lock s i → head q = Some i) ∧
  (∀ i, head q = Some i → holds_lock s i ∨ at_ s !! i = Some (LockSpin (owner s))).
Proof.
  split; [by eapply line_step|]. split.
  - intros i Hi. by destruct (line_first _ _ HL _ Hi) as [? ->].
  - intros i Hi. destruct q as [|j q]; [done|]. injection Hi as ->. by eapply first_enters.
Qed.

(** No deadlock: from every state the lock can get into, each CPU that spins
    with a ticket can still enter. *)
Theorem ticket_enters (cpus : gset nat) (s : lock_impl) (i : nat) (v : Z)
    (Hc : Z.of_nat (size cpus) < 2 ^ 32) (Hr : rtc step (lock_init cpus) s)
    (Hi : at_ s !! i = Some (LockSpin v)) : ∃ s', rtc step s s' ∧ at_ s' !! i = Some Inside.
Proof.
  destruct (line_reach _ _ _ (line_init cpus Hc) Hr) as (q & HL & _).
  pose proof (li_in _ _ HL _ _ Hi eq_refl) as (q0 & q1 & ->)%list_elem_of_split. by eapply waiter_enters.
Qed.

(** [is_locked] compares the tickets as plain numbers.  As long as the tickets
    of the line do not wrap around it answers whether some CPU holds a ticket; when
    the 2^32nd ticket is taken, it answers that the lock is free while it is held. *)
Theorem is_locked_spec :
  (∀ s q, line_ok s q → owner s + Z.of_nat (length q) < 2 ^ 32 → is_locked s = bool_decide (q ≠ [])) ∧
  (∃ s, rtc step (lock_init {[0%nat]}) s ∧ holds_lock s 0 ∧ is_locked s = false).
Proof.
  split.
  - intros s q HL Hw. pose proof (li_owner _ _ HL) as Ho. unfold is_locked, is_u32 in *.
    rewrite (li_next _ _ HL), u32_id by (unfold is_u32; lia).
    destruct q as [|i q]; [apply Z.ltb_ge|apply Z.ltb_lt]; simpl; lia.
  - exists (alone (2 ^ 32 - 1) 0 ∅ Inside). split; [|split; [left; apply lookup_singleton_eq|done]].
    etrans; [apply (alone_reaches (Z.to_nat (2 ^ 32 - 1)))|]. rewrite Z2Nat.id by lia.
    exact (alone_takes (2 ^ 32 - 1)).
Qed.

(** *** Witnesses *)

Lemma ticket_mutex_witness :
  holds_lock (alone 0 1 ∅ Inside) 0 ∧ (∀ j, holds_lock (alone 0 1 ∅ Inside) j → 0%nat = j).
Proof.
  assert (holds_lock (alone 0 1 ∅ Inside) 0) by (left; reflexivity). split; [done|]. intros j Hj.
  apply (ticket_mutex {[0%nat]} (alone 0 1 ∅ Inside)); [done| |done|done].
  etrans; [exact (alone_reaches 0)|]. exact (alone_takes 0).
Defined.

(** CPU 0 holds the lock and CPU 1 spins. *)
Definition contended : lock_impl := mk_lock 0 2 ∅ {[0%nat := Inside; 1%nat := LockSpin 1]}.

Lemma contended_reached : rtc step (lock_init {[0%nat; 1%nat]}) contended.
Proof.
  eapply rtc_l; [eapply (lock_call _ 0); reflexivity|]. eapply rtc_l; [eapply (lock_ldaxr _ 0); reflexivity|].
  eapply rtc_l; [eapply (lock_stxr _ 0); [reflexivity|simpl; set_solver]|].
  eapply rtc_l; [eapply (lock_ldar _ 0); reflexivity|]. simpl.
  eapply rtc_l; [eapply (lock_call _ 1); reflexivity|]. eapply rtc_l; [eapply (lock_ldaxr _ 1); reflexivity|].
  eapply rtc_l; [eapply (lock_stxr _ 1); [reflexivity|simpl; set_solver]|].
  match goal with |- rtc step ?a ?b => replace a with b; [done|] end. vm_compute. reflexivity.
Qed.

Lemma contended_line : line_ok contended [0%nat; 1%nat].
Proof.
  split; try done.
  - apply (bool_decide_unpack _). done.
  - simpl. intros i p [[<- <-]|[_ [<- <-]%lookup_singleton_Some]]%lookup_insert_Some _; set_solver.
  - intros [|[|k]] i [=<-]; eexists; done.
Qed.

Lemma ticket_fifo_witness :
  head [0%nat; 1%nat] = Some 0%nat ∧
  ∃ s', step contended s' ∧ ∃ q', line_ok s' q' ∧ fifo [0%nat; 1%nat] q'.
Proof.
  split; [reflexivity|]. assert (step contended (goto 0 (UnlockStore 0) contended)) as Hs by (apply (unlock_ld contended); done).
  eexists. split; [exact Hs|]. exact (proj1 (ticket_fifo contended [0%nat; 1%nat] _ contended_line Hs)).
Defined.

Lemma ticket_enters_witness :
  at_ contended !! 1%nat = Some (LockSpin 1) ∧ ∃ s', rtc step contended s' ∧ at_ s' !! 1%nat = Some Inside.
Proof.
  split; [reflexivity|].
  apply (ticket_enters {[0%nat; 1%nat]} contended 1 1); [done|exact contended_reached|reflexivity].
Defined.

End Ticket.

(** ** Reader-writer locks *)

Module RwLock.

(** Where a CPU is, with the value it is about to store: [read_lock], then
    [read_try_lock], [read_unlock], [write_lock] and [write_try_lock].  [Reading]
    and [Writing] are the critical sections. *)
Inductive pc :=
| Out
| ReadLoad
| ReadStore (w0 : Z)
| ReadTryStore (w0 : Z)
| Reading
| ReadUnlockLoad
| ReadUnlockStore (w0 : Z)
| WriteLoad
| WriteStore
| WriteTryStore
| Writing.

(** [word] is the field [lock] of the C struct. *)
Record rwlock := mk_rw { word : Z; armed : gset nat; at_ : gmap nat pc }.

Definition WRITER : Z := 0x80000000.

Definition goto (i : nat) (p : pc) (s : rwlock) : rwlock := mk_rw (word s) (armed s) (<[i := p]> (at_ s)).
Definition arm (i : nat) (s : rwlock) : rwlock := mk_rw (word s) ({[i]} ∪ armed s) (at_ s).
Definition disarm (i : nat) (s : rwlock) : rwlock := mk_rw (word s) (armed s ∖ {[i]}) (at_ s).
Definition store (v : Z) (s : rwlock) : rwlock := mk_rw v ∅ (at_ s).

(** [tbnz w0, #31] *)
Definition bit31 (w : Z) : bool := Z.testbit w 31.

Definition rwlock_init (cpus : gset nat) : rwlock := mk_rw 0 ∅ (gset_to_gmap Out cpus).

Inductive read_step (i : nat) (s : rwlock) : rwlock → Prop :=
| read_call : at_ s !! i = Some Out → read_step i s (goto i ReadLoad s)
| read_ldaxr : at_ s !! i = Some ReadLoad →
    read_step i s (let w := u32 (word s + 1) in if bit31 w then arm i s else goto i (ReadStore w) (arm i s))
| read_stxr w : at_ s !! i = Some (ReadStore w) → i ∈ armed s → read_step i s (goto i Reading (store w s))
| read_stxr_fail w : at_ s !! i = Some (ReadStore w) → read_step i s (goto i ReadLoad (disarm i s)).

Inductive read_try_step (i : nat) (s : rwlock) : rwlock → Prop :=
| read_try_ldaxr : at_ s !! i = Some Out →
    read_try_step i s (let w := u32 (word s + 1) in if bit31 w then arm i s else goto i (ReadTryStore w) (arm i s))
| read_try_stxr w : at_ s !! i = Some (ReadTryStore w) → i ∈ armed s → read_try_step i s (goto i Reading (store w s))
| read_try_stxr_fail w : at_ s !! i = Some (ReadTryStore w) → read_try_step i s (goto i Out (disarm i s)).

Inductive read_unlock_step (i : nat) (s : rwlock) : rwlock → Prop :=
| read_unlock_call : at_ s !! i = Some Reading → read_unlock_step i s (goto i ReadUnlockLoad s)
| read_unlock_ldxr : at_ s !! i = Some ReadUnlockLoad →
    read_unlock_step i s (goto i (ReadUnlockStore (u32 (word s - 1))) (arm i s))
| read_unlock_stlxr w : at_ s !! i = Some (ReadUnlockStore w) → i ∈ armed s → read_unlock_step i s (goto i Out (store w s))
| read_unlock_stlxr_fail w : at_ s !! i = Some (ReadUnlockStore w) →
    read_unlock_step i s (goto i ReadUnlockLoad (disarm i s)).

Inductive write_step (i : nat) (s : rwlock) : rwlock → Prop :=
| write_call : at_ s !! i = Some Out → write_step i s (goto i WriteLoad s)
| write_ldaxr : at_ s !! i = Some WriteLoad →
    write_step i s (if word s =? 0 then goto i WriteStore (arm i s) else arm i s)
| write_stxr : at_ s !! i = Some WriteStore → i ∈ armed s → write_step i s (goto i Writing (store WRITER s))
| write_stxr_fail : at_ s !! i = Some WriteStore → write_step i s (goto i WriteLoad (disarm i s)).

Inductive write_try_step (i : nat) (s : rwlock) : rwlock → Prop :=
| write_try_ldaxr : at_ s !! i = Some Out →
    write_try_step i s (if word s =? 0 then goto i WriteTryStore (arm i s) else arm i s)
| write_try_stxr : at_ s !! i = Some WriteTryStore → i ∈ armed s → write_try_step i s (goto i Writing (store WRITER s))
| write_try_stxr_fail : at_ s !! i = Some WriteTryStore → write_try_step i s (goto i Out (disarm i s)).

Inductive write_unlock_step (i : nat) (s : rwlock) : rwlock → Prop :=
| write_unlock_stlr : at_ s !! i = Some Writing → write_unlock_step i s (goto i Out (store 0 s)).

Inductive step (s s' : rwlock) : Prop :=
| step_read i : read_step i s s' → step s s'
| step_read_try i : read_try_step i s s' → step s s'
| step_read_unlock i : read_unlock_step i s s' → step s s'
| step_write i : write_step i s s' → step s s'
| step_write_try i : write_try_step i s s' → step s s'
| step_write_unlock i : write_unlock_step i s s' → step s s'.

(** ** Specification *)

Definition reads (p : pc) : bool := match p with Reading | ReadUnlockLoad | ReadUnlockStore _ => true | _ => false end.
Definition writes (p : pc) : bool := match p with Writing => true | _ => false end.

(** What the lock grants: to a set of readers or to one writer. *)
Inductive grant := Readers (R : gset nat) | Writer (i : nat).

Definition grant_word (g : grant) : Z := match g with Readers R => Z.of_nat (size R) | Writer _ => WRITER end.
Definition grant_reads (g : grant) (i : nat) : bool := match g with Readers R => bool_decide (i ∈ R) | Writer _ => false end.
Definition grant_writes (g : grant) (i : nat) : bool := match g with Readers _ => false | Writer j => bool_decide (i = j) end.

Inductive grant_step : grant → grant → Prop :=
| grant_stay g : grant_step g g
| grant_read R i : i ∉ R → grant_step (Readers R) (Readers ({[i]} ∪ R))
| grant_unread R i : i ∈ R → grant_step (Readers R) (Readers (R ∖ {[i]}))
| grant_write i : grant_step (Readers ∅) (Writer i)
| grant_unwrite i : grant_step (Writer i) (Readers ∅).

(** What a CPU with an armed monitor is about to store. *)
Definition fresh (s : rwlock) (p : pc) : Prop :=
  match p with
  | ReadStore w | ReadTryStore w => w = word s + 1 ∧ w < WRITER
  | ReadUnlockStore w => w = u32 (word s - 1)
  | WriteStore | WriteTryStore => word s = 0
  | _ => True
  end.

Record rw_ok (s : rwlock) (g : grant) : Prop := {
  rw_word : word s = grant_word g;
  rw_readers : match g with Readers R => Z.of_nat (size R) < WRITER | Writer _ => True end;
  rw_at : ∀ i p, at_ s !! i = Some p → reads p = grant_reads g i ∧ writes p = grant_writes g i;
  rw_fresh : ∀ i p, at_ s !! i = Some p → i ∈ armed s → fresh s p
}.

(** ** Lemmas *)

Lemma bit31_add l : 0 ≤ l ≤ WRITER → bit31 (u32 (l + 1)) = false → u32 (l + 1) = l + 1 ∧ l + 1 < WRITER.
Proof.
  unfold WRITER, bit31. intros Hl Hb. assert (u32 (l + 1) = l + 1) as Hu by (apply u32_id; unfold is_u32; lia).
  split; [done|]. rewrite Hu in Hb. apply Z.testbit_false in Hb; [|lia].
  destruct (decide (l + 1 < 0x80000000)); [done|].
  assert (l + 1 = 2147483648 ∨ l + 1 = 2147483649) as [Hx|Hx] by lia; rewrite Hx in Hb; by vm_compute in Hb.
Qed.

Section rw.
Context (s : rwlock) (g : grant) (HL : rw_ok s g).

Lemma rw_range : 0 ≤ word s ≤ WRITER.
Proof. destruct HL as [-> Hr ? ?]. destruct g; simpl; unfold WRITER in *; lia. Qed.

(** A step that grants nothing. *)
Lemma rw_goto i p0 p A :
  at_ s !! i = Some p0 → reads p = reads p0 → writes p = writes p0 → (∀ j, j ≠ i → j ∈ A → j ∈ armed s) →
  (i ∈ A → fresh s p) → rw_ok (mk_rw (word s) A (<[i := p]> (at_ s))) g.
Proof.
  intros Hp0 Hr Hw HA Hf. destruct HL as [? ? Hat Hfr]. split; simpl; try done.
  - intros j p' [[-> <-]|[? ?]]%lookup_insert_Some; [|eauto]. rewrite Hr, Hw. eauto.
  - intros j p' [[-> <-]|[? ?]]%lookup_insert_Some HjA; [exact (Hf HjA)|]. apply (Hfr j); auto.
Qed.

Lemma rw_arm i p0 : at_ s !! i = Some p0 → (∀ s', fresh s' p0) → rw_ok (arm i s) g.
Proof.
  intros Hp0 Hf. destruct HL as [? ? Hat Hfr]. split; simpl; try done. intros j p' Hp' Hj.
  destruct (decide (j = i)) as [->|]; [replace p' with p0 by congruence; apply Hf|]. apply (Hfr j); set_solver.
Qed.

(** A store changes what is granted to its CPU. *)
Lemma rw_store i p w g' :
  w = grant_word g' → match g' with Readers R => Z.of_nat (size R) < WRITER | Writer _ => True end →
  (∀ j, j ≠ i → is_Some (at_ s !! j) → grant_reads g' j = grant_reads g j ∧ grant_writes g' j = grant_writes g j) →
  reads p = grant_reads g' i → writes p = grant_writes g' i →
  rw_ok (mk_rw w ∅ (<[i := p]> (at_ s))) g'.
Proof.
  intros ? ? Hj Hr Hw. destruct HL as [? ? Hat Hfr]. split; simpl; try done.
  intros j p' [[-> <-]|[? Hp']]%lookup_insert_Some; [done|].
  destruct (Hj j) as [-> ->]; eauto.
Qed.

End rw.

Lemma rw_enter_read s g i p0 w :
  rw_ok s g → at_ s !! i = Some p0 → reads p0 = false → w = word s + 1 → w < WRITER →
  ∃ g', rw_ok (mk_rw w ∅ (<[i := Reading]> (at_ s))) g' ∧ grant_step g g'.
Proof.
  intros HL Hp0 Hr -> Hw. destruct (rw_at _ _ HL _ _ Hp0) as [Hgr Hgw]. pose proof (rw_word _ _ HL) as Hword.
  destruct g as [R|j]; simpl in *; [|lia]. rewrite Hr in Hgr. symmetry in Hgr. apply bool_decide_eq_false in Hgr.
  assert (size ({[i]} ∪ R) = S (size R)) as Hs by (rewrite size_union, size_singleton by set_solver; done).
  exists (Readers ({[i]} ∪ R)). split; [|by constructor]. apply (rw_store _ _ HL); simpl; rewrite ?Hs; try lia; try done.
  - intros j Hj _. split; [|done]. apply bool_decide_ext. set_solver.
  - symmetry. apply bool_decide_eq_true. set_solver.
Qed.

Lemma rw_leave_read s g i p0 w :
  rw_ok s g → at_ s !! i = Some p0 → reads p0 = true → w = u32 (word s - 1) →
  ∃ g', rw_ok (mk_rw w ∅ (<[i := Out]> (at_ s))) g' ∧ grant_step g g'.
Proof.
  intros HL Hp0 Hr ->. destruct (rw_at _ _ HL _ _ Hp0) as [Hgr Hgw]. pose proof (rw_word _ _ HL) as Hword.
  pose proof (rw_readers _ _ HL) as Hn. destruct g as [R|j]; simpl in *; [|congruence].
  rewrite Hr in Hgr. symmetry in Hgr. apply bool_decide_eq_true in Hgr.
  assert (size R = S (size (R ∖ {[i]}))) as Hs.
  { rewrite size_difference, size_singleton by set_solver. assert (size R ≠ 0%nat); [|lia].
    intros ?%size_empty_inv. set_solver. }
  exists (Readers (R ∖ {[i]})). split; [|by constructor]. unfold WRITER in *. apply (rw_store _ _ HL); simpl; try done.
  - rewrite u32_id by (unfold is_u32; lia). lia.
  - unfold WRITER. lia.
  - intros j Hj _. split; [|done]. apply bool_decide_ext. set_solver.
  - symmetry. apply bool_decide_eq_false. set_solver.
Qed.

Lemma rw_enter_write s g i p0 :
  rw_ok s g → at_ s !! i = Some p0 → writes p0 = false → word s = 0 →
  ∃ g', rw_ok (mk_rw WRITER ∅ (<[i := Writing]> (at_ s))) g' ∧ grant_step g g'.
Proof.
  intros HL Hp0 Hr Hz. pose proof (rw_word _ _ HL) as Hword. destruct g as [R|j]; simpl in *; [|unfold WRITER in *; lia].
  assert (R = ∅) as -> by (apply leibniz_equiv, size_empty_inv; lia). exists (Writer i). split; [|by constructor].
  apply (rw_store _ _ HL); simpl; try done.
  - intros j Hj _. split; [symmetry; apply bool_decide_eq_false_2; set_solver|by apply bool_decide_eq_false_2].
  - by rewrite bool_decide_eq_true_2.
Qed.

Lemma rw_leave_write s g i :
  rw_ok s g → at_ s !! i = Some Writing → ∃ g', rw_ok (mk_rw 0 ∅ (<[i := Out]> (at_ s))) g' ∧ grant_step g g'.
Proof.
  intros HL Hp0. destruct (rw_at _ _ HL _ _ Hp0) as [Hgr Hgw].
  destruct g as [R|j]; simpl in *; [done|]. symmetry in Hgw. apply bool_decide_eq_true in Hgw as <-.
  exists (Readers ∅). split; [|by constructor]. apply (rw_store _ _ HL); simpl; try done.
  intros j Hj _. split; [apply bool_decide_eq_false_2; set_solver|by rewrite bool_decide_eq_false_2].
Qed.

Lemma rw_init cpus : rw_ok (rwlock_init cpus) (Readers ∅).
Proof.
  split; simpl; try done. intros i p [_ <-]%lookup_gset_to_gmap_Some. done.
Qed.

Lemma rw_stays g s' : rw_ok s' g → ∃ g', rw_ok s' g' ∧ grant_step g g'.
Proof. intros. exists g. split; [done|constructor]. Qed.

Lemma rw_load_read s g i p0 p :
  rw_ok s g → at_ s !! i = Some p0 → reads p0 = false → writes p0 = false → (∀ s', fresh s' p0) →
  p = ReadStore ∨ p = ReadTryStore →
  rw_ok (let w := u32 (word s + 1) in if bit31 w then arm i s else goto i (p w) (arm i s)) g.
Proof.
  intros HL Hp0 Hr Hw Hf Hp. simpl. destruct (bit31 _) eqn:Hb; [by eapply rw_arm|].
  apply bit31_add in Hb as [Hu Hlt]; [|by eapply rw_range]. rewrite Hu.
  eapply (rw_goto s g HL i _ _ _ Hp0); [..|apply Ticket.armed_only|]; destruct Hp as [-> | ->]; simpl; auto.
Qed.

Lemma rw_load_write s g i p0 p :
  rw_ok s g → at_ s !! i = Some p0 → reads p0 = false → writes p0 = false → (∀ s', fresh s' p0) →
  p = WriteStore ∨ p = WriteTryStore →
  rw_ok (if word s =? 0 then goto i p (arm i s) else arm i s) g.
Proof.
  intros HL Hp0 Hr Hw Hf Hp. destruct (Z.eqb_spec (word s) 0); [|by eapply rw_arm].
  eapply (rw_goto s g HL i _ _ _ Hp0); [..|apply Ticket.armed_only|]; destruct Hp as [-> | ->]; simpl; auto.
Qed.

(** A step that moves the CPU and may disarm its monitor. *)
Lemma rw_quiet s g i p0 p :
  rw_ok s g → at_ s !! i = Some p0 → reads p = reads p0 → writes p = writes p0 → (∀ s', fresh s' p) →
  rw_ok (goto i p s) g ∧ rw_ok (goto i p (disarm i s)) g.
Proof.
  intros HL ? ? ? Hf. split; eapply (rw_goto s g HL); eauto using Ticket.disarmed.
Qed.

Ltac quiet HL Hp := apply rw_stays; by apply (rw_quiet _ _ _ _ _ HL Hp).

Lemma rw_step s g s' : rw_ok s g → step s s' → ∃ g', rw_ok s' g' ∧ grant_step g g'.
Proof.
  intros HL [i H|i H|i H|i H|i H|i H].
  - destruct H as [Hp|Hp|w Hp Ha|w Hp]; [quiet HL Hp| | |quiet HL Hp].
    + apply rw_stays. eapply (rw_load_read s g i _ ReadStore HL Hp); auto. done.
    + destruct (rw_fresh _ _ HL _ _ Hp Ha). by apply (rw_enter_read s g i _ w HL Hp).
  - destruct H as [Hp|w Hp Ha|w Hp]; [| |quiet HL Hp].
    + apply rw_stays. eapply (rw_load_read s g i _ ReadTryStore HL Hp); auto. done.
    + destruct (rw_fresh _ _ HL _ _ Hp Ha). by apply (rw_enter_read s g i _ w HL Hp).
  - destruct H as [Hp|Hp|w Hp Ha|w Hp]; [quiet HL Hp| | |quiet HL Hp].
    + apply rw_stays. apply (rw_goto s g HL i _ _ _ Hp); try done. apply Ticket.armed_only.
    + by apply (rw_leave_read s g i _ w HL Hp), (rw_fresh _ _ HL _ _ Hp Ha).
  - destruct H as [Hp|Hp|Hp Ha|Hp]; [quiet HL Hp| | |quiet HL Hp].
    + apply rw_stays. apply (rw_load_write s g i _ WriteStore HL Hp); auto. done.
    + by apply (rw_enter_write s g i _ HL Hp), (rw_fresh _ _ HL _ _ Hp Ha).
  - destruct H as [Hp|Hp Ha|Hp]; [| |quiet HL Hp].
    + apply rw_stays. apply (rw_load_write s g i _ WriteTryStore HL Hp); auto. done.
    + by apply (rw_enter_write s g i _ HL Hp), (rw_fresh _ _ HL _ _ Hp Ha).
  - destruct H as [Hp]. apply (rw_leave_write s g i HL Hp).
Qed.

Lemma rw_reach s g s' : rw_ok s g → rtc step s s' → ∃ g', rw_ok s' g' ∧ rtc grant_step g g'.
Proof.
  intros HL H. revert g HL. induction H as [s|s s1 s' Hs _ IH]; intros g HL; [by exists g|].
  destruct (rw_step _ _ _ HL Hs) as (g1 & HL1 & Hf). destruct (IH _ HL1) as (g' & ? & ?).
  exists g'. split; [done|]. by eapply rtc_l.
Qed.

(** ** Properties *)

(** C33: The reader-writer lock, for every interleaving of the instructions of its
    six functions on any number of CPUs: while a CPU writes no other CPU reads or
    writes.  The lock goes only through the states of the specification (a set of
    readers, or one writer, that CPUs enter and leave), its word being the number of
    readers, which bit 31 stops before it could be taken for a writer, or
    0x80000000. *)
Theorem rwlock_exclusion (cpus : gset nat) (s : rwlock) (Hr : rtc step (rwlock_init cpus) s) :
  (∃ g, rtc grant_step (Readers ∅) g ∧ word s = grant_word g ∧
    ∀ i p, at_ s !! i = Some p → reads p = grant_reads g i ∧ writes p = grant_writes g i) ∧
  (∀ i j pi pj, at_ s !! i = Some pi → at_ s !! j = Some pj → writes pi = true →
    reads pj = false ∧ (writes pj = true → i = j)).
Proof.
  destruct (rw_reach _ _ _ (rw_init cpus) Hr) as (g & HL & Hg). split.
  - exists g. split; [done|]. split; [apply HL|]. apply (rw_at _ _ HL).
  - intros i j pi pj Hi Hj Hw. destruct (rw_at _ _ HL _ _ Hi) as [_ Hwi]. destruct (rw_at _ _ HL _ _ Hj) as [-> ->].
    rewrite Hw in Hwi. destruct g as [R|k]; [done|]. simpl in *. symmetry in Hwi. apply bool_decide_eq_true in Hwi as ->.
    split; [done|]. by intros ->%bool_decide_eq_true.
Qed.

Definition one_writer : rwlock := mk_rw WRITER ∅ {[0%nat := Writing; 1%nat := ReadLoad]}.

Lemma rwlock_exclusion_witness :
  rtc step (rwlock_init {[0%nat; 1%nat]}) one_writer ∧
  (∀ j pj, at_ one_writer !! j = Some pj → reads pj = false).
Proof.
  assert (rtc step (rwlock_init {[0%nat; 1%nat]}) one_writer) as Hr.
  { eapply rtc_l; [eapply (step_write _ _ 0), write_call; reflexivity|].
    eapply rtc_l; [eapply (step_write _ _ 0), write_ldaxr; reflexivity|]. simpl.
    eapply rtc_l; [eapply (step_write _ _ 0), write_stxr; [reflexivity|simpl; set_solver]|].
    eapply rtc_l; [eapply (step_read _ _ 1), read_call; reflexivity|].
    match goal with |- rtc step ?a ?b => replace a with b; [done|] end. vm_compute. reflexivity. }
  split; [exact Hr|]. intros j pj Hj.
  destruct (rwlock_exclusion {[0%nat; 1%nat]} one_writer Hr) as [_ H].
  exact (proj1 (H 0%nat j Writing pj eq_refl Hj eq_refl)).
Defined.

End RwLock.
