(* ===== verification/Ipi.v ===== *)
(** * Inter-processor interrupts (kernel/irq/ipi.c, kernel/arch/aarch64/irq/ipi.c)

    A CPU sends a request to another one through the [ipi_data] of the target: it
    takes its lock, stores the arguments, interrupts the target and waits until the
    target has marked the request as finished.  The user of this protocol is the
    TLB shootdown of the x86_64 port (arch/x86_64/mm/tlb.c, irq/irq_entry.c), with
    four arguments.

    The model is a transition system of all CPUs, one load or store per step.  The
    lock of an [ipi_data] is taken in one step when it is free, which Locks.v
    justifies.  Interrupts are off in the kernel, so that a CPU handles a request
    only from [Run].  [handled] and [completed] record, per target, the requests it
    has flushed for and the requests whose sender has stopped waiting.  The TLB and
    the CPU history of the address space, which the handler also updates, are not
    part of this state. *)

From stdpp Require Import relations.
From S2P Require Import Prelude.

Module Ipi.

Definition IPI_TLB_SHOOTDOWN : Z := 60.
Definition IPI_RESCHEDULE : Z := 61.
Definition IPI_DATA_ARG_NUM : nat := 7.
(** The arguments of a shootdown: address, pages, PCID and address space. *)
Definition TX_ARGS : nat := 4.

Record ipi_data := mk_ipi { locked_by : option nat; start : Z; finish : Z; args : list Z }.

Definition with_lock (o : option nat) (d : ipi_data) : ipi_data := mk_ipi o (start d) (finish d) (args d).
Definition with_start (v : Z) (d : ipi_data) : ipi_data := mk_ipi (locked_by d) v (finish d) (args d).
Definition with_finish (v : Z) (d : ipi_data) : ipi_data := mk_ipi (locked_by d) (start d) v (args d).
Definition set_ipi_tx_arg (i : nat) (v : Z) (d : ipi_data) : ipi_data := mk_ipi (locked_by d) (start d) (finish d) (<[i := v]> (args d)).
Definition get_ipi_tx_arg (i : nat) (d : ipi_data) : option Z := args d !! i.

(** Where a CPU is; [t] is the target and [q] the arguments of its request. *)
Inductive pc :=
| Run
| Prepare (t : nat) (q : list Z)
| SetArg (t : nat) (q : list Z) (k : nat)
| Start (t : nat) (q : list Z)
| Send (t : nat) (q : list Z)
| Wait (t : nat) (q : list Z)
| ResetStart (t : nat) (q : list Z)
| ResetFinish (t : nat) (q : list Z)
| Unlock (t : nat) (q : list Z)
| Read (l : list Z)
| MarkFinish (l : list Z).

Record state := mk_state {
  data : gmap nat ipi_data;
  pending : gset nat;
  at_ : gmap nat pc;
  handled : nat → list (list Z);
  completed : nat → list (list Z)
}.

(** [init_ipi_data], and no CPU in the protocol. *)
Definition init_ipi_data (cpus : gset nat) : state :=
  mk_state (gset_to_gmap (mk_ipi None 0 0 (replicate IPI_DATA_ARG_NUM 0)) cpus) ∅ (gset_to_gmap Run cpus) (λ _, []) (λ _, []).

Definition goto (c : nat) (p : pc) (s : state) : state := mk_state (data s) (pending s) (<[c := p]> (at_ s)) (handled s) (completed s).
Definition put (t : nat) (d : ipi_data) (s : state) : state := mk_state (<[t := d]> (data s)) (pending s) (at_ s) (handled s) (completed s).
Definition interrupt (t : nat) (s : state) : state := mk_state (data s) ({[t]} ∪ pending s) (at_ s) (handled s) (completed s).
Definition accept (t : nat) (s : state) : state := mk_state (data s) (pending s ∖ {[t]}) (at_ s) (handled s) (completed s).
Definition record (f : nat → list (list Z)) (t : nat) (q : list Z) : nat → list (list Z) := λ u, if decide (u = t) then f u ++ [q] else f u.
Definition log_handled (t : nat) (q : list Z) (s : state) : state :=
  mk_state (data s) (pending s) (at_ s) (record (handled s) t q) (completed s).
Definition log_completed (t : nat) (q : list Z) (s : state) : state :=
  mk_state (data s) (pending s) (at_ s) (handled s) (record (completed s) t q).

(** The sender: [flush_remote_tlb_with_ipi], with [prepare_ipi_tx],
    [set_ipi_tx_arg], [start_ipi_tx] and [wait_finish_ipi_tx]. *)
Inductive send_step (c : nat) (s : state) : state → Prop :=
| tx_call t q : at_ s !! c = Some Run → t ≠ c → length q = TX_ARGS → send_step c s (goto c (Prepare t q) s)
| tx_lock t q d : at_ s !! c = Some (Prepare t q) → data s !! t = Some d → locked_by d = None →
    send_step c s (goto c (SetArg t q 0) (put t (with_lock (Some c) d) s))
| tx_set_arg t q k v d : at_ s !! c = Some (SetArg t q k) → data s !! t = Some d → q !! k = Some v →
    send_step c s (goto c (SetArg t q (S k)) (put t (set_ipi_tx_arg k v d) s))
| tx_args_set t q k : at_ s !! c = Some (SetArg t q k) → k = length q → send_step c s (goto c (Start t q) s)
| tx_start t q d : at_ s !! c = Some (Start t q) → data s !! t = Some d → send_step c s (goto c (Send t q) (put t (with_start 1 d) s))
| tx_send t q : at_ s !! c = Some (Send t q) → send_step c s (goto c (Wait t q) (interrupt t s))
| tx_finished t q d : at_ s !! c = Some (Wait t q) → data s !! t = Some d → finish d = 1 →
    send_step c s (goto c (ResetStart t q) (log_completed t q s))
| tx_reset_start t q d : at_ s !! c = Some (ResetStart t q) → data s !! t = Some d →
    send_step c s (goto c (ResetFinish t q) (put t (with_start 0 d) s))
| tx_reset_finish t q d : at_ s !! c = Some (ResetFinish t q) → data s !! t = Some d →
    send_step c s (goto c (Unlock t q) (put t (with_finish 0 d) s))
| tx_unlock t q d : at_ s !! c = Some (Unlock t q) → data s !! t = Some d → send_step c s (goto c Run (put t (with_lock None d) s)).

(** The receiver: [handle_ipi_on_tlb_shootdown], with [get_ipi_tx_arg] and
    [mark_finish_ipi_tx]. *)
Inductive receive_step (c : nat) (s : state) : state → Prop :=
| rx_interrupt : at_ s !! c = Some Run → c ∈ pending s → receive_step c s (goto c (Read []) (accept c s))
| rx_get_arg l d v : at_ s !! c = Some (Read l) → (length l < TX_ARGS)%nat → data s !! c = Some d → get_ipi_tx_arg (length l) d = Some v →
    receive_step c s (goto c (Read (l ++ [v])) s)
| rx_flush l : at_ s !! c = Some (Read l) → length l = TX_ARGS → receive_step c s (goto c (MarkFinish l) (log_handled c l s))
| rx_mark l d : at_ s !! c = Some (MarkFinish l) → data s !! c = Some d → receive_step c s (goto c Run (put c (with_finish 1 d) s)).

Inductive step (s s' : state) : Prop :=
| step_send c : send_step c s s' → step s s'
| step_receive c : receive_step c s s' → step s s'.

(** [handle_ipi] of aarch64, which knows one interrupt. *)
Definition handle_ipi (ipi : Z) : Z := if ipi =? IPI_RESCHEDULE then 0 else -1.
(** [ipi_reschedule] on the raspi3 ([plat_send_ipi]): the vector must fit into a
    mailbox of 32 bits. *)
Definition plat_send_ipi {S} (PLAT_CPU_NUM cpu ipi : Z) (mbox_set : Z → Z → M S unit) : M S unit :=
  BUG_ON (PLAT_CPU_NUM <=? cpu) ;; BUG_ON (32 <=? ipi) ;; mbox_set cpu (Z.shiftl 1 ipi).
Definition ipi_reschedule {S} (PLAT_CPU_NUM cpu : Z) (mbox_set : Z → Z → M S unit) : M S unit :=
  plat_send_ipi PLAT_CPU_NUM cpu IPI_RESCHEDULE mbox_set.

(** [IPI_RESCHEDULE] does not fit: the sender stops. *)
Lemma ipi_reschedule_stops {S} n cpu (mbox_set : Z → Z → M S unit) s : ipi_reschedule n cpu mbox_set s = Halt.
Proof. unfold ipi_reschedule, plat_send_ipi, BUG_ON, bind. by destruct (n <=? cpu). Qed.

(** ** The invariant *)

(** The target whose lock a CPU holds, and what a receiver has read. *)
Definition target (p : pc) : option nat :=
  match p with
  | SetArg t _ _ | Start t _ | Send t _ | Wait t _ | ResetStart t _ | ResetFinish t _ | Unlock t _ => Some t
  | _ => None
  end.
Inductive progress := Reading (l : list Z) | Flushed (l : list Z).
Definition receiving (p : pc) : option progress :=
  match p with Read l => Some (Reading l) | MarkFinish l => Some (Flushed l) | _ => None end.

(** The four fields of a target that say whether a request is under way. *)
Definition link (s : state) (t : nat) : option progress := at_ s !! t ≫= receiving.
Definition quiet (s : state) (t : nat) (d : ipi_data) : Prop :=
  finish d = 0 ∧ (t ∉ pending s) ∧ link s t = None ∧ handled s t = completed s t.

(** How far the target is with the request [q] of a waiting sender. *)
Definition underway (s : state) (t : nat) (q : list Z) (d : ipi_data) : Prop :=
  (finish d = 0 ∧ t ∈ pending s ∧ link s t = None ∧ handled s t = completed s t) ∨
  (∃ l, finish d = 0 ∧ (t ∉ pending s) ∧ link s t = Some (Reading l) ∧ l = take (length l) q ∧ handled s t = completed s t) ∨
  (finish d = 0 ∧ (t ∉ pending s) ∧ link s t = Some (Flushed q) ∧ handled s t = completed s t ++ [q]) ∨
  (finish d = 1 ∧ (t ∉ pending s) ∧ link s t = None ∧ handled s t = completed s t ++ [q]).

(** What holds of the data [d] of [t] while the CPU with the lock is at [p]. *)
Definition phase (s : state) (t : nat) (d : ipi_data) (p : pc) : Prop :=
  match p with
  | SetArg _ q k => quiet s t d ∧ length q = TX_ARGS ∧ (k ≤ TX_ARGS)%nat ∧ take k (args d) = take k q
  | Start _ q | Send _ q => quiet s t d ∧ length q = TX_ARGS ∧ take TX_ARGS (args d) = q
  | Wait _ q => underway s t q d ∧ length q = TX_ARGS ∧ take TX_ARGS (args d) = q
  | ResetStart _ _ | ResetFinish _ _ => finish d = 1 ∧ (t ∉ pending s) ∧ link s t = None ∧ handled s t = completed s t
  | Unlock _ _ => quiet s t d
  | _ => False
  end.

Record target_ok (s : state) (t : nat) (d : ipi_data) : Prop := {
  ok_args : length (args d) = IPI_DATA_ARG_NUM;
  ok_owner : ∀ i p, at_ s !! i = Some p → target p = Some t → locked_by d = Some i;
  ok_phase : match locked_by d with
             | None => quiet s t d
             | Some i => ∃ p, at_ s !! i = Some p ∧ target p = Some t ∧ phase s t d p
             end
}.
Record ipi_ok (s : state) : Prop := {
  ok_calls : ∀ i t q, at_ s !! i = Some (Prepare t q) → length q = TX_ARGS;
  ok_targets : ∀ t d, data s !! t = Some d → target_ok s t d
}.

Implicit Types s : state.

(** A CPU moves from [p] to [p']; receivers stay where they are. *)
Lemma link_goto s s' c p p' t : at_ s !! c = Some p → at_ s' = <[c := p']> (at_ s) → receiving p = receiving p' → link s' t = link s t.
Proof.
  intros Hp E Hr. unfold link. rewrite E. destruct (decide (c = t)) as [<-|N]; [by rewrite lookup_insert_eq, Hp|by rewrite lookup_insert_ne].
Qed.

Lemma phase_same s s' t d p : link s' t = link s t → (t ∈ pending s' ↔ t ∈ pending s) → handled s' t = handled s t →
  completed s' t = completed s t → phase s t d p → phase s' t d p.
Proof. intros H1 H2 H3 H4. unfold phase, underway, quiet. rewrite H1, H3, H4. destruct p; try done; by setoid_rewrite H2. Qed.

(** A target the moving CPU has nothing to do with. *)
Lemma bystander s s' c p p' t d : target_ok s t d → at_ s !! c = Some p → at_ s' = <[c := p']> (at_ s) →
  target p ≠ Some t → target p' ≠ Some t → link s' t = link s t → (t ∈ pending s' ↔ t ∈ pending s) →
  handled s' t = handled s t → completed s' t = completed s t → target_ok s' t d.
Proof.
  intros [T1 T2 T3] Hp E N N' H1 H2 H3 H4. split; [done| |].
  - intros i q. rewrite E. intros [[<- <-]|[_ Hi]]%lookup_insert_Some Ht; [done|by apply (T2 i q)].
  - destruct (locked_by d) as [i|]; [|unfold quiet in *; by rewrite H1, H2, H3, H4]. destruct T3 as (q & Hi & Ht & Hq). exists q.
    rewrite E, lookup_insert_ne by (intros <-; congruence). split_and!; [done..|by apply (phase_same s)].
Qed.

(** The CPU that has the lock moves on. *)
Lemma holder_step s s' c p p' t d d' : target_ok s t d → at_ s !! c = Some p → target p = Some t → target p' = Some t →
  at_ s' = <[c := p']> (at_ s) → length (args d') = length (args d) → locked_by d' = locked_by d →
  (phase s t d p → phase s' t d' p') → target_ok s' t d'.
Proof.
  intros [T1 T2 T3] Hp Ht Ht' E El Eb Hph. pose proof (T2 c p Hp Ht) as Hc. split; [congruence| |].
  - intros i q. rewrite E, Eb. intros [[<- <-]|[_ Hi]]%lookup_insert_Some Hq; [done|by apply (T2 i q)].
  - rewrite Eb. rewrite Hc in *. destruct T3 as (q & Hq & _ & HP). rewrite Hp in Hq. injection Hq as <-. exists p'.
    rewrite E, lookup_insert_eq. auto.
Qed.

(** The target handles a request: its sender waits. *)
Lemma receiver_step s s' c p p' d d' : target_ok s c d → at_ s !! c = Some p → target p = None → target p' = None →
  at_ s' = <[c := p']> (at_ s) → args d' = args d → locked_by d' = locked_by d → c ∈ pending s ∨ link s c ≠ None →
  (∀ q, length q = TX_ARGS → take TX_ARGS (args d) = q → underway s c q d → underway s' c q d') → target_ok s' c d'.
Proof.
  intros [T1 T2 T3] Hp Ht Ht' E Ea Eb Hact Hu. split; [congruence| |].
  - intros i q. rewrite E, Eb. intros [[<- <-]|[_ Hi]]%lookup_insert_Some Hq; [congruence|by apply (T2 i q)].
  - rewrite Eb. destruct (locked_by d) as [i|]; [|unfold quiet in T3; naive_solver]. destruct T3 as (q & Hq & Htq & HP). exists q.
    rewrite E, lookup_insert_ne by (intros <-; congruence). split_and!; [done..|].
    destruct q; simpl in *; try done; unfold quiet in HP; try naive_solver. destruct HP as (HU & Hl & Hargs). rewrite Ea. auto.
Qed.

(** A move that changes nothing but the place of a CPU outside of every lock. *)
Lemma ok_others s s' c p p' t0 : ipi_ok s → at_ s !! c = Some p → at_ s' = <[c := p']> (at_ s) →
  (∀ t q, p' = Prepare t q → length q = TX_ARGS) → (∀ t, target p = Some t → t = t0) → (∀ t, target p' = Some t → t = t0) →
  (∀ t, t ≠ t0 → data s' !! t = data s !! t ∧ link s' t = link s t ∧ (t ∈ pending s' ↔ t ∈ pending s) ∧
    handled s' t = handled s t ∧ completed s' t = completed s t) →
  (∀ d', data s' !! t0 = Some d' → target_ok s' t0 d') → ipi_ok s'.
Proof.
  intros [O1 O2] Hp E HP Ht Ht' Ho H0. split.
  - intros i t q. rewrite E. intros [[<- H]|[_ Hi]]%lookup_insert_Some; [by eapply HP|by eapply O1].
  - intros t d Hd. destruct (decide (t = t0)) as [->|N]; [by apply H0|]. destruct (Ho t N) as (E1 & E2 & E3 & E4 & E5). rewrite E1 in Hd.
    apply (bystander s s' c p p'); auto.
Qed.

(** The fields that another target keeps when a sender moves. *)
Lemma record_other f t q u : u ≠ t → record f t q u = f u.
Proof. intros N. unfold record. by rewrite decide_False. Qed.
Lemma record_same f t q : record f t q t = f t ++ [q].
Proof. unfold record. by rewrite decide_True. Qed.

(** What is left of a sender's step: the phase of its target. *)
Lemma send_ok s s' c p p' t d d' : ipi_ok s → at_ s !! c = Some p → data s !! t = Some d → target p = Some t → target p' = Some t →
  receiving p = None → receiving p' = None → at_ s' = <[c := p']> (at_ s) → data s' = <[t := d']> (data s) →
  length (args d') = length (args d) → locked_by d' = locked_by d →
  (∀ u, u ≠ t → (u ∈ pending s' ↔ u ∈ pending s) ∧ handled s' u = handled s u ∧ completed s' u = completed s u) →
  (link s' t = link s t → phase s t d p → phase s' t d' p') → ipi_ok s'.
Proof.
  intros O Hp Hd Ht Ht' Hr Hr' E Ed El Eb Ho HP. assert (∀ u, link s' u = link s u) as HL by (intros u; eapply link_goto; [done..|congruence]).
  apply (ok_others s s' c p p' t O Hp E); [intros ? ? ->; done|congruence|congruence| |].
  - intros u Nu. rewrite Ed, lookup_insert_ne by done. destruct (Ho u Nu) as (? & ? & ?). auto.
  - intros d0. rewrite Ed, lookup_insert_eq. intros [= <-]. apply (holder_step s s' c p p' t d); auto. by apply (ok_targets s O).
Qed.

Lemma receive_ok s s' c p p' : ipi_ok s → at_ s !! c = Some p → target p = None → target p' = None →
  (∀ t q, p' ≠ Prepare t q) → at_ s' = <[c := p']> (at_ s) → (∀ u, u ≠ c → data s' !! u = data s !! u) →
  (∀ u, u ≠ c → (u ∈ pending s' ↔ u ∈ pending s) ∧ handled s' u = handled s u) → completed s' = completed s →
  c ∈ pending s ∨ link s c ≠ None →
  (∀ d', data s' !! c = Some d' → ∃ d, data s !! c = Some d ∧ args d' = args d ∧ locked_by d' = locked_by d ∧
    ∀ q, length q = TX_ARGS → take TX_ARGS (args d) = q → underway s c q d → underway s' c q d') → ipi_ok s'.
Proof.
  intros O Hp Ht Ht' NP E Ed Ho Ec Hact Hd. apply (ok_others s s' c p p' c O Hp E); [by intros t q H1%NP|congruence|congruence| |].
  - intros u Nu. destruct (Ho u Nu). split_and!; auto; [|by rewrite Ec]. unfold link. by rewrite E, lookup_insert_ne.
  - intros d0 Hd0. destruct (Hd d0 Hd0) as (d & Hds & Ea & Eb & Hq). apply (receiver_step s s' c p p' d); auto. by apply (ok_targets s O).
Qed.

(** A lock that is taken and one that is given back. *)
Lemma lock_ok s c t q d : ipi_ok s → at_ s !! c = Some (Prepare t q) → data s !! t = Some d → locked_by d = None →
  ipi_ok (goto c (SetArg t q 0) (put t (with_lock (Some c) d) s)).
Proof.
  intros O Hp Hd Hb. set (s' := goto _ _ _). assert (∀ u, link s' u = link s u) as HL by (intros u; by eapply link_goto).
  apply (ok_others s s' c (Prepare t q) (SetArg t q 0) t O Hp); [done|done|done|by intros ? [= ->]| |].
  - intros u Nu. simpl. rewrite lookup_insert_ne by done. auto.
  - simpl. intros d'. rewrite lookup_insert_eq. intros [= <-]. destruct (ok_targets s O t d Hd) as [T1 T2 T3]. rewrite Hb in T3. split; [done| |].
    + simpl. intros i p [[<- <-]|[_ Hi]]%lookup_insert_Some Ht; [done|]. specialize (T2 i p Hi Ht). congruence.
    + simpl. exists (SetArg t q 0). rewrite lookup_insert_eq. split; [done|]. split; [done|]. unfold phase.
      split_and!; [|by apply (ok_calls s O c t)|lia|done]. unfold quiet in *. rewrite HL. done.
Qed.
Lemma unlock_ok s c t q d : ipi_ok s → at_ s !! c = Some (Unlock t q) → data s !! t = Some d → ipi_ok (goto c Run (put t (with_lock None d) s)).
Proof.
  intros O Hp Hd. set (s' := goto _ _ _). assert (∀ u, link s' u = link s u) as HL by (intros u; by eapply link_goto).
  apply (ok_others s s' c (Unlock t q) Run t O Hp); [done|done|by intros ? [= ->]|done| |].
  - intros u Nu. simpl. rewrite lookup_insert_ne by done. auto.
  - simpl. intros d'. rewrite lookup_insert_eq. intros [= <-]. destruct (ok_targets s O t d Hd) as [T1 T2 T3].
    rewrite (T2 c _ Hp eq_refl) in T3. destruct T3 as (p & Hp' & _ & HP). rewrite Hp in Hp'. injection Hp' as <-. split; [done| |].
    + simpl. intros i p [[<- <-]|[Ni Hi]]%lookup_insert_Some Ht; [done|]. pose proof (T2 i p Hi Ht). pose proof (T2 c _ Hp eq_refl). congruence.
    + simpl in *. unfold quiet in *. by rewrite HL.
Qed.

Lemma take_insert_next {X} (l q : list X) k v : take k l = take k q → q !! k = Some v → (k < length l)%nat → take (S k) (<[k := v]> l) = take (S k) q.
Proof.
  intros E Hv Hk. rewrite (take_S_r q k v Hv), (take_S_r _ k v) by (by rewrite list_lookup_insert_eq). by rewrite take_insert_ge, E.
Qed.

Lemma holder_at s c p t d : ipi_ok s → at_ s !! c = Some p → data s !! t = Some d → target p = Some t → phase s t d p.
Proof.
  intros O Hp Hd Ht. destruct (ok_targets s O t d Hd) as [_ T2 T3]. rewrite (T2 c p Hp Ht) in T3. destruct T3 as (q & Hq & _ & HP). congruence.
Qed.

Lemma send_step_ok c s s' : ipi_ok s → send_step c s s' → ipi_ok s'.
Proof.
  intros O Hst. destruct Hst as [t q Hp Nt Hl|t q d Hp Hd Hb|t q k v d Hp Hd Hv|t q k Hp Hk|t q d Hp Hd|t q Hp|t q d Hp Hd Hf|t q d Hp Hd|t q d Hp Hd|t q d Hp Hd].
  - apply (ok_others s _ c Run (Prepare t q) c O Hp); [done|by intros ? ? [= <- <-]|done|done| |].
    + intros u Nu. simpl. split_and!; try done. by eapply link_goto.
    + intros d' Hd'. simpl in Hd'. apply (bystander s _ c Run (Prepare t q)); try done; [by apply (ok_targets s O)|]. by eapply link_goto.
  - by apply lock_ok.
  - apply (send_ok s _ c _ (SetArg t q (S k)) t d (set_ipi_tx_arg k v d) O Hp Hd); try done; [simpl; by rewrite length_insert|].
    intros HL (HQ & Hl & Hk & Ht). pose proof (lookup_lt_Some _ _ _ Hv). destruct (ok_targets s O t d Hd) as [T1 _ _]. unfold IPI_DATA_ARG_NUM, TX_ARGS in *.
    unfold phase, TX_ARGS. split_and!; [|done|lia|apply take_insert_next; [done|done|lia]]. unfold quiet in *. by rewrite HL.
  - destruct (data s !! t) as [d|] eqn:Hd.
    + apply (send_ok s _ c _ (Start t q) t d d O Hp Hd); try done; [by rewrite insert_id|]. intros HL (HQ & Hl & _ & Ht). subst k. rewrite Hl in Ht.
      unfold phase. split_and!; [|done|]; [unfold quiet in *; by rewrite HL|]. rewrite Ht. rewrite <- Hl. by rewrite firstn_all.
    + apply (ok_others s _ c _ (Start t q) t O Hp); [done|done|by intros ? [= ->]|by intros ? [= ->]| |simpl; congruence].
      intros u Nu. simpl. split_and!; try done. by eapply link_goto.
  - apply (send_ok s _ c _ (Send t q) t d (with_start 1 d) O Hp Hd); try done. intros HL (HQ & Hl & Ht). unfold phase. split_and!; [|done|done]. unfold quiet in *. by rewrite HL.
  - destruct (data s !! t) as [d|] eqn:Hd.
    + apply (send_ok s _ c _ (Wait t q) t d d O Hp Hd); try done; [by rewrite insert_id|intros u Nu; simpl; set_solver|].
      intros HL (HQ & Hl & Ht). unfold phase. split_and!; [|done|done]. left. unfold quiet in HQ. rewrite HL. simpl. set_solver.
    + apply (ok_others s _ c _ (Wait t q) t O Hp); [done|done|by intros ? [= ->]|by intros ? [= ->]| |simpl; congruence].
      intros u Nu. simpl. split_and!; try done; [by eapply link_goto|set_solver].
  - apply (send_ok s _ c _ (ResetStart t q) t d d O Hp Hd); try done; [by rewrite insert_id|intros u Nu; simpl; by rewrite record_other|].
    intros HL ([?|[?|[?|(_ & H1 & H2 & H3)]]] & Hl & Ht); [naive_solver lia..|]. simpl. rewrite HL, record_same. auto.
  - apply (send_ok s _ c _ (ResetFinish t q) t d (with_start 0 d) O Hp Hd); try done. intros HL HP. simpl in *. by rewrite HL.
  - apply (send_ok s _ c _ (Unlock t q) t d (with_finish 0 d) O Hp Hd); try done. intros HL (_ & HP). unfold phase, quiet. simpl in *. by rewrite HL.
  - by apply (unlock_ok s c t q).
Qed.

Lemma receive_step_ok c s s' : ipi_ok s → receive_step c s s' → ipi_ok s'.
Proof.
  intros O Hst. assert (∀ p, at_ s !! c = Some p → link s c = receiving p) as HL by (intros p Hp; unfold link; by rewrite Hp).
  destruct Hst as [Hp Hin|l d v Hp Hl Hd Hv|l Hp Hl|l d Hp Hd]; pose proof (HL _ Hp) as HLp; simpl in HLp.
  - apply (receive_ok s _ c Run (Read []) O Hp); try done; [intros u Nu; simpl; set_solver|by left|].
    intros d Hd. exists d. split_and!; try done. intros q _ _ [(H1 & H2 & H3 & H4)|HU]; [|naive_solver].
    right. left. exists []. unfold link. simpl. rewrite lookup_insert_eq. set_solver.
  - apply (receive_ok s _ c (Read l) (Read (l ++ [v])) O Hp); try done; [right; by rewrite HLp|]. intros d' Hd'. exists d'. split_and!; try done.
    simpl in Hd'. rewrite Hd in Hd'. injection Hd' as <-. intros q Hq Ha HU. unfold underway in HU. rewrite HLp in HU.
    destruct HU as [?|[(l' & H1 & H2 & [= <-] & H4 & H5)|[?|?]]]; [naive_solver| |naive_solver|naive_solver].
    right. left. exists (l ++ [v]). unfold link. simpl. rewrite lookup_insert_eq, length_app. split_and!; try done.
    rewrite Nat.add_1_r, (take_S_r q _ v), <- H4; [done|]. rewrite <- Ha. rewrite lookup_take_lt by done. exact Hv.
  - apply (receive_ok s _ c (Read l) (MarkFinish l) O Hp); try done; [intros u Nu; simpl; by rewrite record_other|right; by rewrite HLp|].
    intros d Hd. exists d. split_and!; try done. intros q Hq Ha HU. unfold underway in HU. rewrite HLp in HU.
    destruct HU as [?|[(l' & H1 & H2 & [= <-] & H4 & H5)|[?|?]]]; [naive_solver| |naive_solver|naive_solver].
    assert (l = q) as -> by (rewrite H4, Hl, <- Hq; apply firstn_all).
    right. right. left. unfold link. simpl. rewrite lookup_insert_eq, record_same, H5. done.
  - apply (receive_ok s _ c (MarkFinish l) Run O Hp); try done; [intros u Nu; simpl; by rewrite lookup_insert_ne|right; by rewrite HLp|].
    simpl. intros d'. rewrite lookup_insert_eq. intros [= <-]. exists d. split_and!; try done. intros q Hq Ha HU. unfold underway in HU. rewrite HLp in HU.
    destruct HU as [?|[(l' & _ & _ & [=] & _)|[(H1 & H2 & [= ->] & H4)|?]]]; [naive_solver| |naive_solver].
    right. right. right. unfold link. simpl. by rewrite lookup_insert_eq.
Qed.

Lemma init_ok cpus : ipi_ok (init_ipi_data cpus).
Proof.
  split; simpl.
  - intros i t q [_ H]%lookup_gset_to_gmap_Some. done.
  - intros t d [_ <-]%lookup_gset_to_gmap_Some. split; simpl; [done| |].
    + intros i p [_ <-]%lookup_gset_to_gmap_Some. done.
    + split_and!; [done|set_solver| |done]. unfold link. simpl. rewrite lookup_gset_to_gmap. by case_guard.
Qed.

Lemma reachable_ok cpus s : rtc step (init_ipi_data cpus) s → ipi_ok s.
Proof.
  pose proof (init_ok cpus) as O. intros Hr. revert O. generalize dependent (init_ipi_data cpus). intros s0 Hr O.
  induction Hr as [|s1 s2 s3 Hst _ IH]; [done|]. apply IH. destruct Hst as [c H|c H]; [by eapply send_step_ok|by eapply receive_step_ok].
Qed.

(** C39: In every state that any interleaving of the CPUs reaches, one sender at a
    time uses the data of a target; what the target flushes for are exactly the
    arguments of the sender that waits for it; and the requests that were completed
    are, in order, those the target has flushed for, all but at most the last. *)
Theorem ipi_tx_ok cpus s t d : rtc step (init_ipi_data cpus) s → data s !! t = Some d →
  (∀ i j p p', at_ s !! i = Some p → at_ s !! j = Some p' → target p = Some t → target p' = Some t → i = j) ∧
  (∀ l, at_ s !! t = Some (MarkFinish l) → ∃ i, at_ s !! i = Some (Wait t l)) ∧
  (handled s t = completed s t ∨ ∃ i q, at_ s !! i = Some (Wait t q) ∧ handled s t = completed s t ++ [q]).
Proof.
  intros O%reachable_ok Hd. destruct (ok_targets s O t d Hd) as [_ T2 T3]. split_and!.
  - intros i j p p' Hi Hj Hp Hp'. pose proof (T2 i p Hi Hp). pose proof (T2 j p' Hj Hp'). congruence.
  - intros l Hl. assert (link s t = Some (Flushed l)) as HL by (unfold link; by rewrite Hl).
    destruct (locked_by d) as [i|]; [|unfold quiet in T3; naive_solver]. destruct T3 as (p & Hi & Ht & HP). exists i.
    destruct p; simpl in *; unfold quiet, underway in HP; naive_solver.
  - destruct (locked_by d) as [i|]; [|left; apply T3]. destruct T3 as (p & Hi & Ht & HP).
    destruct p; simpl in *; unfold quiet, underway in HP; naive_solver.
Qed.

(** ** Two CPUs *)

Ltac by_lookup := first [discriminate | apply (bool_decide_unpack _); vm_compute; exact I | vm_compute; reflexivity].
Ltac send c r := eapply rtc_l; [apply (step_send _ _ c); eapply r; by_lookup|].
Ltac receive c r := eapply rtc_l; [apply (step_receive _ _ c); eapply r; by_lookup|].

Definition request : list Z := [7; 1; 2; 3].

(** CPU 0 calls for CPU 1, which has flushed for it. *)
Lemma tx_run : ∃ s d, rtc step (init_ipi_data {[0%nat; 1%nat]}) s ∧ data s !! 1%nat = Some d ∧ at_ s !! 1%nat = Some (MarkFinish request).
Proof.
  eexists _, _. split; [|split].
  - send 0%nat (λ c s, tx_call c s 1%nat request). send 0%nat tx_lock. do 4 send 0%nat tx_set_arg. send 0%nat tx_args_set. send 0%nat tx_start.
    send 0%nat tx_send. receive 1%nat rx_interrupt. do 4 receive 1%nat rx_get_arg. receive 1%nat rx_flush. apply rtc_refl.
  - vm_compute; reflexivity.
  - vm_compute; reflexivity.
Qed.

Lemma ipi_tx_ok_witness : ∃ s i, rtc step (init_ipi_data {[0%nat; 1%nat]}) s ∧ at_ s !! i = Some (Wait 1 request).
Proof.
  destruct tx_run as (s & d & Hr & Hd & Hl). destruct (ipi_tx_ok {[0%nat; 1%nat]} s 1 d Hr Hd) as (_ & H & _). destruct (H request Hl) as [i Hi].
  exists s, i. split; [exact Hr|exact Hi].
Defined.

(** Two CPUs that wait for each other stay: neither takes the interrupt. *)
Lemma both_wait s q q' d d' : dom (at_ s) = {[0%nat; 1%nat]} → at_ s !! 0%nat = Some (Wait 1 q) → at_ s !! 1%nat = Some (Wait 0 q') →
  data s !! 1%nat = Some d → data s !! 0%nat = Some d' → finish d = 0 → finish d' = 0 → ∀ s', ¬ step s s'.
Proof.
  intros HD H0 H1 D1 D0 F1 F0 s' Hst. assert (∀ c p, at_ s !! c = Some p → (c = 0%nat ∧ p = Wait 1 q) ∨ (c = 1%nat ∧ p = Wait 0 q')) as HC.
  { intros c p Hc. assert (c ∈ dom (at_ s)) as Hin by (apply elem_of_dom; eauto). rewrite HD in Hin.
    assert (c = 0 ∨ c = 1)%nat as [->| ->] by set_solver; [left|right]; split; congruence. }
  destruct Hst as [c H|c H]; inversion H; subst; match goal with A : at_ s !! c = Some _ |- _ => destruct (HC _ _ A) as [[-> E]|[-> E]] end;
    try discriminate E; injection E as -> ->; congruence.
Qed.

(** Two CPUs that call for each other before either waits end there. *)
Lemma ipi_deadlock : ∃ s, rtc step (init_ipi_data {[0%nat; 1%nat]}) s ∧ at_ s !! 0%nat = Some (Wait 1 request) ∧ ∀ s', ¬ step s s'.
Proof.
  eexists. split; [|split].
  - send 0%nat (λ c s, tx_call c s 1%nat request). send 1%nat (λ c s, tx_call c s 0%nat request). send 0%nat tx_lock. send 1%nat tx_lock.
    do 4 send 0%nat tx_set_arg. do 4 send 1%nat tx_set_arg. send 0%nat tx_args_set. send 1%nat tx_args_set. send 0%nat tx_start. send 1%nat tx_start.
    send 0%nat tx_send. send 1%nat tx_send. apply rtc_refl.
  - vm_compute; reflexivity.
  - eapply both_wait; vm_compute; reflexivity.
Qed.

End Ipi.
