(* ===== verification/ListHead.v ===== *)
(** * Intrusive lists (kernel/include/common/list.h)

    The pointer-level model of [struct list_head]: a
    heap maps the address of every list node to its two link fields, and each
    inline function of list.h is the sequence of loads and stores the C code
    performs, with a fault when it dereferences an address that is not a node.

    The other components of this library keep their intrusive lists (ready
    queues, free lists, sleepers, waiters, regions, capability copies) as Rocq
    lists of node identities.  The theorems of this file justify that: a heap
    in which the nodes of [l] are linked in a ring from [head] ([dll h head l])
    is taken by [list_add] to one for [new :: l], by [list_append] to one for
    [l ++ [new]], by [list_del] to one without the node, and no other node of
    the heap changes. *)

From S2P Require Import Prelude.

Module ListHead.

Abbreviation addr := positive.

Record list_head := mk_list_head { prev : addr; next : addr }.

Abbreviation heap := (gmap addr list_head).

Definition load (a : addr) : M heap list_head := h <- get ;; need (h !! a).

Definition set_next (a v : addr) : M heap unit :=
  n <- load a ;; modify (λ h, <[a := mk_list_head (prev n) v]> h).

Definition set_prev (a v : addr) : M heap unit :=
  n <- load a ;; modify (λ h, <[a := mk_list_head v (next n)]> h).

Definition init_list_head (list : addr) : M heap unit :=
  set_next list list ;; set_prev list list.

Definition list_add (new head : addr) : M heap unit :=
  hd <- load head ;;
  set_next new (next hd) ;;
  set_prev new head ;;
  hd' <- load head ;;
  set_prev (next hd') new ;;
  set_next head new.

Definition list_append (new head : addr) : M heap unit :=
  hd <- load head ;;
  list_add new (prev hd).

Definition list_del (node : addr) : M heap unit :=
  n <- load node ;;
  set_next (prev n) (next n) ;;
  n' <- load node ;;
  set_prev (next n') (prev n').

Definition list_empty (head : addr) : M heap bool :=
  hd <- load head ;; ret (bool_decide (next hd = head)).

(** [for_each_in_list]: the nodes in the order the macro visits them.  The
    bound [fuel] only cuts off rings longer than it. *)
Fixpoint visit (fuel : nat) (head elem : addr) : M heap (list addr) :=
  match fuel with
  | O => ret []
  | S k =>
      if bool_decide (elem = head) then ret []
      else n <- load elem ;; r <- visit k head (next n) ;; ret (elem :: r)
  end.

Definition for_each_in_list (fuel : nat) (head : addr) : M heap (list addr) :=
  hd <- load head ;; visit fuel head (next hd).

(** ** The abstract view of a ring *)

Definition nx (h : heap) (a : addr) : option addr := next <$> h !! a.
Definition pv (h : heap) (a : addr) : option addr := prev <$> h !! a.

(** [a]'s [next] is [b] and [b]'s [prev] is [a]. *)
Definition linked (h : heap) (a b : addr) : Prop := nx h a = Some b ∧ pv h b = Some a.

Fixpoint chain (h : heap) (a : addr) (l : list addr) (z : addr) : Prop :=
  match l with
  | [] => linked h a z
  | x :: l' => linked h a x ∧ chain h x l' z
  end.

Definition dll (h : heap) (head : addr) (l : list addr) : Prop :=
  NoDup (head :: l) ∧ chain h head l head.

Lemma nx_dom h a b : nx h a = Some b → a ∈ dom h.
Proof. unfold nx. rewrite elem_of_dom. destruct (h !! a); naive_solver. Qed.

Lemma pv_dom h a b : pv h a = Some b → a ∈ dom h.
Proof. unfold pv. rewrite elem_of_dom. destruct (h !! a); naive_solver. Qed.

Lemma load_ok a h n : h !! a = Some n → load a h = Done n h.
Proof. intros H. unfold load, bind, get, need. by rewrite H. Qed.

Lemma set_next_spec a v h : a ∈ dom h → ∃ h',
  set_next a v h = Done tt h' ∧ dom h' = dom h ∧
  (∀ i, nx h' i = if decide (i = a) then Some v else nx h i) ∧
  (∀ i, pv h' i = pv h i).
Proof.
  rewrite elem_of_dom. intros [n Hn]. eexists.
  unfold set_next, bind at 1. rewrite (load_ok _ _ n Hn). split; [done|].
  split; [|split]; [|intros i..].
  - rewrite dom_insert_L. apply subseteq_union_1_L, singleton_subseteq_l, elem_of_dom_2 with n, Hn.
  - unfold nx. case_decide; simplify_map_eq; done.
  - unfold pv. destruct (decide (i = a)); simplify_map_eq; done.
Qed.

Lemma set_prev_spec a v h : a ∈ dom h → ∃ h',
  set_prev a v h = Done tt h' ∧ dom h' = dom h ∧
  (∀ i, pv h' i = if decide (i = a) then Some v else pv h i) ∧
  (∀ i, nx h' i = nx h i).
Proof.
  rewrite elem_of_dom. intros [n Hn]. eexists.
  unfold set_prev, bind at 1. rewrite (load_ok _ _ n Hn). split; [done|].
  split; [|split]; [|intros i..].
  - rewrite dom_insert_L. apply subseteq_union_1_L, singleton_subseteq_l, elem_of_dom_2 with n, Hn.
  - unfold pv. case_decide; simplify_map_eq; done.
  - unfold nx. destruct (decide (i = a)); simplify_map_eq; done.
Qed.

Lemma load_nx a b h : nx h a = Some b → ∃ n, load a h = Done n h ∧ next n = b.
Proof.
  unfold nx. destruct (h !! a) as [n|] eqn:E; [|done]. intros [= <-].
  exists n. by rewrite (load_ok _ _ _ E).
Qed.

Lemma load_pv a b h : pv h a = Some b → ∃ n, load a h = Done n h ∧ prev n = b.
Proof.
  unfold pv. destruct (h !! a) as [n|] eqn:E; [|done]. intros [= <-].
  exists n. by rewrite (load_ok _ _ _ E).
Qed.

(** What [list_add] does to the link fields, node by node. *)
Lemma list_add_fields new head x h :
  nx h head = Some x → x ∈ dom h → new ∈ dom h → new ≠ head → new ≠ x → ∃ h',
  list_add new head h = Done tt h' ∧ dom h' = dom h ∧
  (∀ i, nx h' i = if decide (i = head) then Some new
                  else if decide (i = new) then Some x else nx h i) ∧
  (∀ i, pv h' i = if decide (i = x) then Some new
                  else if decide (i = new) then Some head else pv h i).
Proof.
  intros Hx Dx Dn N1 N2. pose proof (nx_dom _ _ _ Hx) as Dh.
  destruct (load_nx _ _ _ Hx) as (n & L & En).
  destruct (set_next_spec new x h Dn) as (h1 & E1 & D1 & X1 & P1).
  destruct (set_prev_spec new head h1) as (h2 & E2 & D2 & P2 & X2); [set_solver|].
  assert (nx h2 head = Some x) as Hx2.
  { rewrite X2, X1. by rewrite decide_False. }
  destruct (load_nx _ _ _ Hx2) as (n2 & L2 & En2).
  destruct (set_prev_spec x new h2) as (h3 & E3 & D3 & P3 & X3); [set_solver|].
  destruct (set_next_spec head new h3) as (h4 & E4 & D4 & X4 & P4); [set_solver|].
  exists h4. split; [|split; [congruence|split; intros i]].
  - unfold list_add, bind. by rewrite L, En, E1, E2, L2, En2, E3.
  - rewrite X4, X3, X2, X1. done.
  - rewrite P4, P3, P2, P1. done.
Qed.

(** What [list_del] does to the link fields of the neighbours. *)
Lemma list_del_fields node p x h :
  nx h node = Some x → pv h node = Some p → x ∈ dom h → p ∈ dom h → p ≠ node → ∃ h',
  list_del node h = Done tt h' ∧ dom h' = dom h ∧
  (∀ i, nx h' i = if decide (i = p) then Some x else nx h i) ∧
  (∀ i, pv h' i = if decide (i = x) then Some p else pv h i).
Proof.
  intros Hx Hp Dx Dp Np. pose proof (nx_dom _ _ _ Hx) as Dn.
  unfold list_del, bind.
  destruct (load_nx _ _ _ Hx) as (n & L & En).
  destruct (load_pv _ _ _ Hp) as (n' & L' & Ep).
  rewrite L in L'. injection L' as <-. rewrite L, En, Ep.
  destruct (set_next_spec p x h Dp) as (h1 & E1 & D1 & X1 & P1). rewrite E1.
  assert (nx h1 node = Some x) as Hx1. { rewrite X1. by rewrite decide_False. }
  assert (pv h1 node = Some p) as Hp1. { by rewrite P1. }
  destruct (load_nx _ _ _ Hx1) as (m & Lm & Em).
  destruct (load_pv _ _ _ Hp1) as (m' & Lm' & Epm).
  rewrite Lm in Lm'. injection Lm' as <-. rewrite Lm, Em, Epm.
  destruct (set_prev_spec x p h1) as (h2 & E2 & D2 & P2 & X2); [set_solver|].
  rewrite E2. exists h2. split; [done|]. split; [congruence|]. split; intros i.
  - by rewrite X2, X1.
  - by rewrite P2, P1.
Qed.

(** ** Chains *)

Lemma chain_app h a l1 x l2 z :
  chain h a (l1 ++ x :: l2) z ↔ chain h a l1 x ∧ chain h x l2 z.
Proof.
  revert a. induction l1 as [|y l1 IH]; intros a; simpl; [done|].
  rewrite IH. tauto.
Qed.

Lemma chain_frame h h' a l z :
  (∀ i, i ∈ a :: l → nx h' i = nx h i) →
  (∀ i, i ∈ l ++ [z] → pv h' i = pv h i) →
  chain h a l z → chain h' a l z.
Proof.
  revert a. induction l as [|y l IH]; intros a Hn Hp; simpl.
  - intros [H1 H2]. split; [rewrite Hn|rewrite Hp]; (done || set_solver).
  - intros [[H1 H2] H3]. split.
    + split; [rewrite Hn|rewrite Hp]; (done || set_solver).
    + apply IH; [intros; apply Hn; set_solver|intros; apply Hp; set_solver|done].
Qed.

Lemma chain_first h a l z : chain h a l z → nx h a = Some (hd z l).
Proof. destruct l; simpl; [intros [H _]|intros [[H _] _]]; exact H. Qed.

Lemma chain_last h a l z : chain h a l z → pv h z = Some (List.last l a).
Proof.
  revert a. induction l as [|x l IH]; intros a.
  - by intros [_ H].
  - intros [_ H]. apply IH in H. destruct l; [done|]. simpl in *.
    rewrite H. f_equal. clear. induction l in p |- *; [done|]. destruct l; simpl in *; auto.
Qed.

Lemma chain_dom h a l z i : chain h a l z → i ∈ a :: l ++ [z] → i ∈ dom h.
Proof.
  revert a. induction l as [|x l IH]; intros a; simpl.
  - intros [H1 H2] Hi. apply nx_dom in H1. apply pv_dom in H2. set_solver.
  - intros [[H1 H2] H3] Hi. apply nx_dom in H1.
    apply elem_of_cons in Hi as [->|Hi]; [done|]. by apply (IH x).
Qed.

Lemma dll_dom h head l i : dll h head l → i ∈ head :: l → i ∈ dom h.
Proof. intros [_ H] Hi. eapply chain_dom; [exact H|set_solver]. Qed.

Lemma fields_ext h h' i : nx h' i = nx h i → pv h' i = pv h i → h' !! i = h !! i.
Proof.
  unfold nx, pv. destruct (h' !! i) as [[]|], (h !! i) as [[]|]; simpl; congruence.
Qed.

Lemma last_in (l : list addr) a : List.last l a ∈ a :: l.
Proof.
  induction l as [|x l IH] in a |- *; [set_solver|].
  destruct l as [|y l]; [set_solver|]. change (List.last (x :: y :: l) a) with (List.last (y :: l) a).
  specialize (IH a). set_solver.
Qed.

Lemma last_cons (l : list addr) x a : List.last (x :: l) a = List.last l x.
Proof.
  revert x a. induction l as [|y l IH]; intros x a; [done|].
  change (List.last (x :: y :: l) a) with (List.last (y :: l) a). by rewrite !IH.
Qed.

Lemma hd_in (l : list addr) z : hd z l ∈ l ++ [z].
Proof. destruct l; set_solver. Qed.

(** Splicing a node into a chain between [List.last l1 a] and [hd z l2]. *)
Lemma chain_insert h h' a l1 new l2 z :
  NoDup (a :: l1 ++ l2) → z ∉ l1 ++ l2 → new ≠ a → new ≠ z → new ∉ l1 ++ l2 →
  (∀ i, nx h' i = if decide (i = List.last l1 a) then Some new
                  else if decide (i = new) then Some (hd z l2) else nx h i) →
  (∀ i, pv h' i = if decide (i = hd z l2) then Some new
                  else if decide (i = new) then Some (List.last l1 a) else pv h i) →
  chain h a (l1 ++ l2) z → chain h' a (l1 ++ new :: l2) z.
Proof.
  revert a. induction l1 as [|y l1 IH]; intros a ND Nz Na Nz' Nn Hx Hp C.
  - simpl in *. split.
    + split; [rewrite Hx, decide_True by done; done|].
      rewrite Hp, decide_False, decide_True; try done. pose proof (hd_in l2 z). set_solver.
    + destruct l2 as [|w l2]; simpl in *.
      * split; [by rewrite Hx, decide_False, decide_True|by rewrite Hp, decide_True].
      * destruct C as [[C1 C2] C3]. split.
        { split; [by rewrite Hx, decide_False, decide_True|by rewrite Hp, decide_True]. }
        apply NoDup_cons in ND as [NDa ND]. apply NoDup_cons in ND as [NDw _].
        apply (chain_frame h); [intros i Hi|intros i Hi|done].
        { rewrite Hx, decide_False, decide_False; set_solver. }
        { rewrite Hp, decide_False, decide_False; set_solver. }
  - cbn [app chain] in *. rewrite last_cons in Hx, Hp. destruct C as [[C1 C2] C3].
    apply NoDup_cons in ND as [NDa ND].
    pose proof (last_in l1 y) as HL. pose proof (hd_in l2 z) as HH.
    pose proof ND as ND'. apply NoDup_cons in ND' as [NDy _].
    split.
    + split; [rewrite Hx, decide_False, decide_False|rewrite Hp, decide_False, decide_False];
        (done || set_solver).
    + apply IH; (done || set_solver).
Qed.

Lemma chain_delete h h' a l1 n l2 z :
  NoDup (a :: l1 ++ n :: l2) → z ∉ l1 ++ n :: l2 →
  (∀ i, nx h' i = if decide (i = List.last l1 a) then Some (hd z l2) else nx h i) →
  (∀ i, pv h' i = if decide (i = hd z l2) then Some (List.last l1 a) else pv h i) →
  chain h a (l1 ++ n :: l2) z → chain h' a (l1 ++ l2) z.
Proof.
  revert a. induction l1 as [|y l1 IH]; intros a ND Nz Hx Hp C.
  - simpl in *. destruct C as [_ C]. apply NoDup_cons in ND as [NDa ND].
    apply NoDup_cons in ND as [NDn ND]. destruct l2 as [|w l2]; simpl in *.
    + split; [by rewrite Hx, decide_True|by rewrite Hp, decide_True].
    + destruct C as [_ C]. split.
      { split; [by rewrite Hx, decide_True|by rewrite Hp, decide_True]. }
      apply NoDup_cons in ND as [NDw _].
      apply (chain_frame h); [intros i Hi|intros i Hi|done].
      { rewrite Hx, decide_False; set_solver. }
      { rewrite Hp, decide_False; set_solver. }
  - cbn [app chain] in *. rewrite last_cons in Hx, Hp. destruct C as [[C1 C2] C3].
    apply NoDup_cons in ND as [NDa ND].
    pose proof (last_in l1 y) as HL. pose proof (hd_in l2 z) as HH.
    pose proof ND as ND'. apply NoDup_cons in ND' as [NDy _].
    split.
    + split; [rewrite Hx, decide_False|rewrite Hp, decide_False]; (done || set_solver).
    + apply IH; (done || set_solver).
Qed.

Lemma chain_nx_mid h a l1 n l2 z : chain h a (l1 ++ n :: l2) z → nx h n = Some (hd z l2).
Proof. rewrite chain_app. intros [_ C]. by apply chain_first in C. Qed.

Lemma chain_pv_mid h a l1 n l2 z : chain h a (l1 ++ n :: l2) z → pv h n = Some (List.last l1 a).
Proof. rewrite chain_app. intros [C _]. by apply chain_last in C. Qed.

Lemma chain_nx_last h a l1 l2 z : chain h a (l1 ++ l2) z → nx h (List.last l1 a) = Some (hd z l2).
Proof.
  revert a. induction l1 as [|y l1 IH]; intros a; [apply chain_first|].
  rewrite last_cons. intros [_ C]. by apply IH.
Qed.

(** Linking a node in right after a position of the ring. *)
Lemma list_add_splice h head l1 l2 new :
  dll h head (l1 ++ l2) → new ∉ head :: l1 ++ l2 → new ∈ dom h → ∃ h',
  list_add new (List.last l1 head) h = Done tt h' ∧ dom h' = dom h ∧
  dll h' head (l1 ++ new :: l2) ∧ (∀ i, i ∉ new :: head :: l1 ++ l2 → h' !! i = h !! i).
Proof.
  intros [ND C] Hn Dn. pose proof (last_in l1 head) as HL. pose proof (hd_in l2 head) as HH.
  destruct (list_add_fields new (List.last l1 head) (hd head l2) h) as (h' & E & D & X & P).
  - by apply chain_nx_last.
  - eapply chain_dom; [exact C|set_solver].
  - done.
  - set_solver.
  - set_solver.
  - exists h'. split; [done|]. split; [done|]. split; [split|].
    + apply NoDup_cons in ND as [NDh ND]. apply NoDup_cons. split; [set_solver|].
      apply NoDup_app in ND as (N1 & N2 & N3). apply NoDup_app. split; [done|].
      split; [set_solver|]. apply NoDup_cons. set_solver.
    + pose proof ND as [NDh _]%NoDup_cons.
      eapply chain_insert; eauto; set_solver.
    + intros i Hi. apply fields_ext.
      * rewrite X, decide_False, decide_False; set_solver.
      * rewrite P, decide_False, decide_False; set_solver.
Qed.

(** ** What list.h promises *)

Theorem init_list_head_refines h head :
  head ∈ dom h → ∃ h', init_list_head head h = Done tt h' ∧ dll h' head [] ∧
  (∀ i, i ≠ head → h' !! i = h !! i).
Proof.
  intros D. unfold init_list_head, bind.
  destruct (set_next_spec head head h D) as (h1 & E1 & D1 & X1 & P1). rewrite E1.
  destruct (set_prev_spec head head h1) as (h2 & E2 & D2 & P2 & X2); [set_solver|].
  rewrite E2. exists h2. split; [done|]. split; [split|].
  - apply NoDup_singleton.
  - split; [by rewrite X2, X1, decide_True|by rewrite P2, decide_True].
  - intros i Hi. apply fields_ext; [rewrite X2, X1|rewrite P2, P1]; by rewrite decide_False.
Qed.

Theorem list_add_refines h head l new :
  dll h head l → new ∉ head :: l → new ∈ dom h → ∃ h',
  list_add new head h = Done tt h' ∧ dll h' head (new :: l) ∧
  (∀ i, i ∉ new :: head :: l → h' !! i = h !! i).
Proof.
  intros H1 H2 H3. destruct (list_add_splice h head [] l new) as (h' & ? & _ & ? & ?); eauto.
Qed.

(** [list_append] before any node of the ring, or before the head itself. *)
Theorem list_append_refines h head l1 l2 new :
  dll h head (l1 ++ l2) → new ∉ head :: l1 ++ l2 → new ∈ dom h → ∃ h',
  list_append new (hd head l2) h = Done tt h' ∧ dll h' head (l1 ++ new :: l2) ∧
  (∀ i, i ∉ new :: head :: l1 ++ l2 → h' !! i = h !! i).
Proof.
  intros H1 H2 H3. destruct (list_add_splice h head l1 l2 new) as (h' & E & _ & ? & ?); eauto.
  exists h'. split; [|done]. unfold list_append, bind.
  assert (pv h (hd head l2) = Some (List.last l1 head)) as HP.
  { destruct H1 as [_ C]. destruct l2 as [|x l2]; simpl.
    - rewrite app_nil_r in C. by apply chain_last in C.
    - by apply chain_pv_mid in C. }
  destruct (load_pv _ _ _ HP) as (n & L & En). by rewrite L, En.
Qed.

Theorem list_del_refines h head l1 node l2 :
  dll h head (l1 ++ node :: l2) → ∃ h',
  list_del node h = Done tt h' ∧ dll h' head (l1 ++ l2) ∧
  h' !! node = h !! node ∧
  (∀ i, i ∉ head :: l1 ++ l2 → h' !! i = h !! i).
Proof.
  intros [ND C]. pose proof (last_in l1 head) as HL. pose proof (hd_in l2 head) as HH.
  pose proof ND as [NDh ND']%NoDup_cons. apply NoDup_app in ND' as (N1 & N2 & N3).
  apply NoDup_cons in N3 as [N3 N4].
  destruct (list_del_fields node (List.last l1 head) (hd head l2) h) as (h' & E & D & X & P).
  - by eapply chain_nx_mid.
  - by eapply chain_pv_mid.
  - eapply chain_dom; [exact C|set_solver].
  - eapply chain_dom; [exact C|set_solver].
  - set_solver.
  - exists h'. split; [done|]. split; [split|].
    + apply NoDup_cons. split; [set_solver|]. apply NoDup_app. set_solver.
    + eapply chain_delete; eauto; set_solver.
    + assert (∀ i, i ≠ List.last l1 head → i ≠ hd head l2 → h' !! i = h !! i) as F.
      { intros i H1 H2. apply fields_ext; [rewrite X|rewrite P]; by rewrite decide_False. }
      split; [apply F; set_solver|intros i Hi; apply F; set_solver].
Qed.

Theorem list_empty_refines h head l :
  dll h head l → list_empty head h = Done (bool_decide (l = [])) h.
Proof.
  intros [ND C]. unfold list_empty, bind.
  destruct (load_nx _ _ _ (chain_first _ _ _ _ C)) as (n & L & En). rewrite L, En.
  unfold ret. f_equal. apply bool_decide_ext. destruct l as [|x l]; simpl; [done|].
  apply NoDup_cons in ND as [ND _]. set_solver.
Qed.

Lemma visit_chain h head l fuel a :
  head ∉ l → chain h a l head → (length l < fuel)%nat → ∀ x, nx h a = Some x →
  visit fuel head x h = Done l h.
Proof.
  revert a fuel. induction l as [|y l IH]; intros a fuel Nh C Hf x Hx.
  - apply chain_first in C. simpl in C. rewrite C in Hx. injection Hx as <-.
    destruct fuel; [simpl in Hf; lia|]. simpl. by rewrite bool_decide_true.
  - destruct C as [[C1 C2] C3]. rewrite C1 in Hx. injection Hx as <-.
    destruct fuel as [|fuel]; [simpl in Hf; lia|]. simpl.
    rewrite bool_decide_false by set_solver.
    destruct (load_nx _ _ _ (chain_first _ _ _ _ C3)) as (n & L & En).
    unfold bind. rewrite L, En. rewrite (IH y fuel); [done|set_solver|done|simpl in Hf; lia|].
    by apply chain_first.
Qed.

(** [for_each_in_list] visits exactly the ring, in order, and terminates. *)
Theorem for_each_in_list_refines h head l fuel :
  dll h head l → (length l < fuel)%nat → for_each_in_list fuel head h = Done l h.
Proof.
  intros [ND C] Hf. unfold for_each_in_list, bind.
  destruct (load_nx _ _ _ (chain_first _ _ _ _ C)) as (n & L & En). rewrite L, En.
  apply NoDup_cons in ND as [ND _]. eapply visit_chain; eauto. by apply chain_first.
Qed.

End ListHead.
