(* ===== verification/HList.v ===== *)
(** * Hash lists (kernel/include/common/list.h)

    The pointer-level model of [struct hlist_head] and [struct hlist_node]: singly
    linked lists that end with NULL, in which every node also has the address of
    the field that points to it, [pprev].  [next] is the first field of both
    structures, so that [&x->next] is the address of [x].  A heap has the fields
    [next] and [pprev] by the address of their structure; a head has no [pprev].

    [hchain h p l]: from [p] on the nodes of [l] are linked in order, up to NULL. *)

From S2P Require Import Prelude.

Module HList.

Record hheap := mk_hheap { nexts : gmap Z Z; pprevs : gmap Z Z }.

Definition get_next (a : Z) : M hheap Z := h <- get ;; need (nexts h !! a).
Definition get_pprev (a : Z) : M hheap Z := h <- get ;; need (pprevs h !! a).
Definition set_next (a v : Z) : M hheap unit := get_next a ;; modify (λ h, mk_hheap (<[a := v]> (nexts h)) (pprevs h)).
Definition set_pprev (a v : Z) : M hheap unit := get_pprev a ;; modify (λ h, mk_hheap (nexts h) (<[a := v]> (pprevs h))).

Definition init_hlist_head (head : Z) : M hheap unit := set_next head 0.
Definition init_hlist_node (node : Z) : M hheap unit := set_next node 0 ;; set_pprev node 0.

Definition hlist_add (new head : Z) : M hheap unit :=
  n <- get_next head ;;
  set_next new n ;;
  set_pprev new head ;;
  n <- get_next head ;;
  (if negb (n =? 0) then set_pprev n new else ret tt) ;;
  set_next head new.

Definition hlist_del (node : Z) : M hheap unit :=
  n <- get_next node ;;
  (if negb (n =? 0) then p <- get_pprev node ;; set_pprev n p else ret tt) ;;
  p <- get_pprev node ;;
  n <- get_next node ;;
  set_next p n.

Definition hlist_empty (head : Z) : M hheap bool := n <- get_next head ;; ret (n =? 0).

(** [for_each_in_hlist]: the nodes in the order the macro visits them, from
    [elem] on.  The bound [fuel] only cuts off longer lists. *)
Fixpoint hvisit (fuel : nat) (elem : Z) : M hheap (list Z) :=
  match fuel with
  | O => λ _, Spin
  | S fuel' => if elem =? 0 then ret [] else n <- get_next elem ;; l <- hvisit fuel' n ;; ret (elem :: l)
  end.
Definition for_each_in_hlist (fuel : nat) (head : Z) : M hheap (list Z) := n <- get_next head ;; hvisit fuel n.

Implicit Types h : hheap.

Fixpoint hchain h (p : Z) (l : list Z) : Prop :=
  match l with
  | [] => nexts h !! p = Some 0
  | x :: l' => nexts h !! p = Some x ∧ x ≠ 0 ∧ pprevs h !! x = Some p ∧ hchain h x l'
  end.

(** ** Loads and stores *)

Lemma get_next_ok h a v : nexts h !! a = Some v → get_next a h = Done v h.
Proof. intros H. unfold get_next, bind, get. by rewrite H. Qed.
Lemma get_pprev_ok h a v : pprevs h !! a = Some v → get_pprev a h = Done v h.
Proof. intros H. unfold get_pprev, bind, get. by rewrite H. Qed.
Lemma set_next_ok h a v : is_Some (nexts h !! a) → set_next a v h = Done tt (mk_hheap (<[a := v]> (nexts h)) (pprevs h)).
Proof. intros [w H]. unfold set_next. by erewrite bind_Done by (by apply get_next_ok). Qed.
Lemma set_pprev_ok h a v : is_Some (pprevs h !! a) → set_pprev a v h = Done tt (mk_hheap (nexts h) (<[a := v]> (pprevs h))).
Proof. intros [w H]. unfold set_pprev. by erewrite bind_Done by (by apply get_pprev_ok). Qed.

(** ** Chains *)

Lemma hchain_next h p l : hchain h p l → nexts h !! p = Some (hd 0 l).
Proof. destruct l; [done|by intros [? _]]. Qed.

(** A chain depends on the fields of its own nodes only. *)
Lemma hchain_frame h h' l : ∀ p, hchain h p l → (∀ x, x ∈ p :: l → nexts h' !! x = nexts h !! x) →
  (∀ x, x ∈ l → pprevs h' !! x = pprevs h !! x) → hchain h' p l.
Proof.
  induction l as [|x l IH]; intros p; simpl.
  - intros Hp Hn _. rewrite Hn; [done|by left].
  - intros (H1 & H2 & H3 & H4) Hn Hp. split_and!; [|done| |].
    + rewrite Hn; [done|by left].
    + rewrite Hp; [done|by left].
    + apply IH; [done| |]; intros y Hy; [apply Hn|apply Hp]; by right.
Qed.

(** A chain with a node in the middle, cut there: up to its predecessor [q] and
    from the node on. *)
Inductive hseg h : Z → list Z → Z → Prop :=
| hseg_nil p : hseg h p [] p
| hseg_cons p x l q : nexts h !! p = Some x → x ≠ 0 → pprevs h !! x = Some p → hseg h x l q → hseg h p (x :: l) q.

Lemma hchain_split h l1 l2 : ∀ p, hchain h p (l1 ++ l2) ↔ ∃ q, hseg h p l1 q ∧ hchain h q l2.
Proof.
  induction l1 as [|x l1 IH]; intros p; simpl.
  - split; [intros Hc; exists p; split; [constructor|done]|]. intros (q & Hs & Hc). by inversion Hs; subst.
  - rewrite IH. split.
    + intros (H1 & H2 & H3 & q & Hs & Hc). exists q. split; [by constructor|done].
    + intros (q & Hs & Hc). inversion Hs; subst. split_and!; [done..|]. by exists q.
Qed.

Lemma hseg_last h p l q : hseg h p l q → q ∈ p :: l.
Proof. induction 1; [by left|]. by right. Qed.

(** Segments, like chains, depend on their own fields; the [next] of the last
    node is not one of them. *)
Lemma hseg_frame h h' p l q : hseg h p l q → NoDup (p :: l) → (∀ x, x ∈ p :: l → x ≠ q → nexts h' !! x = nexts h !! x) →
  (∀ x, x ∈ l → pprevs h' !! x = pprevs h !! x) → hseg h' p l q.
Proof.
  induction 1 as [|p x l q H1 H2 H3 Hs IH]; intros Nd Hn Hp; [constructor|]. apply NoDup_cons in Nd as [N1 N2].
  constructor; [|done| |].
  - rewrite Hn; [done|by left|]. intros ->. by apply N1, hseg_last with (1 := Hs).
  - rewrite Hp; [done|by left].
  - apply IH; [done| |]; intros y Hy; [apply Hn|apply Hp]; by right.
Qed.

(** The chain from [p] on, rewritten at its first link: [l] hangs from [q] now. *)
Lemma hchain_move h h' p q l : hchain h p l → p ∉ l → q ∉ l → NoDup l → nexts h' !! q = Some (hd 0 l) →
  (∀ x, x ∈ l → nexts h' !! x = nexts h !! x) →
  (∀ x, x ∈ l → pprevs h' !! x = if decide (x = hd 0 l) then Some q else pprevs h !! x) → hchain h' q l.
Proof.
  intros Hc Np Nq Nd Hq Hn Hp. destruct l as [|x l]; [done|]. destruct Hc as (_ & N0 & _ & Hc). simpl in *.
  apply NoDup_cons in Nd as [Nx Nd]. split_and!; [done|done| |].
  - rewrite Hp, decide_True; [done|done|by left].
  - apply (hchain_frame h); [done| |]; intros y Hy; [by apply Hn|]. rewrite Hp, decide_False; [done|by intros ->|by right].
Qed.

(** The nodes on the list after an operation, and what it leaves alone. *)
Definition untouched h h' (S : list Z) : Prop :=
  ∀ x, x ∉ S → nexts h' !! x = nexts h !! x ∧ pprevs h' !! x = pprevs h !! x.

Lemma hlist_add_spec h head l new : hchain h head l → NoDup (head :: l) → new ∉ head :: l → new ≠ 0 →
  is_Some (nexts h !! new) → is_Some (pprevs h !! new) →
  ∃ h', hlist_add new head h = Done tt h' ∧ hchain h' head (new :: l) ∧ untouched h h' (new :: head :: l).
Proof.
  intros Hc Nd Nn N0 Sn Sp. apply NoDup_cons in Nd as [Nh Nd]. apply not_elem_of_cons in Nn as [Nnh Nnl]. pose proof (hchain_next _ _ _ Hc) as Hh.
  unfold hlist_add. erewrite bind_Done by (by apply get_next_ok). erewrite bind_Done by (by apply set_next_ok).
  erewrite bind_Done by (by apply set_pprev_ok). erewrite bind_Done by (apply get_next_ok; simpl; by rewrite lookup_insert_ne).
  destruct l as [|x l]; simpl hd.
  - erewrite bind_Done by reflexivity. rewrite set_next_ok by (simpl; rewrite lookup_insert_ne by done; by eexists). simpl.
    eexists. split; [reflexivity|]. split.
    + split_and!; simpl; [by rewrite lookup_insert_eq|done|by rewrite lookup_insert_eq|by rewrite lookup_insert_ne, lookup_insert_eq].
    + intros y Hy. simpl. rewrite !not_elem_of_cons in Hy. by rewrite !lookup_insert_ne by naive_solver.
  - destruct Hc as (_ & Nx & Hx & Hc). rewrite (proj2 (Z.eqb_neq _ _) Nx). cbn [negb]. apply not_elem_of_cons in Nnl as [Nnx Nnl].
    erewrite bind_Done by (apply set_pprev_ok; simpl; rewrite lookup_insert_ne by done; by eexists). simpl.
    rewrite set_next_ok by (simpl; rewrite lookup_insert_ne by done; by eexists). eexists. split; [reflexivity|]. simpl.
    apply not_elem_of_cons in Nh as [Nhx Nhl]. split.
    + apply NoDup_cons in Nd as [Nxl Nd].
      split_and!; [by rewrite lookup_insert_eq|done|by rewrite lookup_insert_ne, lookup_insert_eq|by rewrite lookup_insert_ne, lookup_insert_eq|done|by rewrite lookup_insert_eq|].
      apply (hchain_frame h); [done| |]; simpl; intros y Hy; rewrite !lookup_insert_ne; set_solver.
    + intros y Hy. simpl. rewrite !not_elem_of_cons in Hy. by rewrite !lookup_insert_ne by naive_solver.
Qed.

Lemma hlist_del_spec h head l1 x l2 : hchain h head (l1 ++ x :: l2) → NoDup (head :: l1 ++ x :: l2) →
  ∃ h', hlist_del x h = Done tt h' ∧ hchain h' head (l1 ++ l2) ∧ untouched h h' (head :: l1 ++ l2).
Proof.
  intros (q & Hs & Hq & N0 & Hx & Hc)%hchain_split Nd. pose proof (hseg_last _ _ _ _ Hs) as Hin. pose proof (hchain_next _ _ _ Hc) as Hnx.
  rewrite app_comm_cons in Nd. apply NoDup_app in Nd as (Nd1 & Nd12 & Nd2). apply NoDup_cons in Nd2 as [Nx2 Nd2].
  assert (q ≠ x ∧ q ∉ l2) as [Nqx Nq2] by (specialize (Nd12 q Hin); set_solver).
  unfold hlist_del. erewrite bind_Done by (by apply get_next_ok).
  set (h1 := if decide (l2 = []) then h else mk_hheap (nexts h) (<[hd 0 l2 := q]> (pprevs h))).
  assert ((if negb (hd 0 l2 =? 0) then p <- get_pprev x ;; set_pprev (hd 0 l2) p else ret tt) h = Done tt h1 ∧
    nexts h1 = nexts h ∧ pprevs h1 !! x = Some q) as (E1 & En & Ep).
  { unfold h1. destruct l2 as [|y l2]; simpl; [done|]. destruct Hc as (_ & Ny & Hy & _). rewrite (proj2 (Z.eqb_neq _ _) Ny). simpl.
    erewrite bind_Done by (by apply get_pprev_ok). rewrite set_pprev_ok by (by eexists). rewrite lookup_insert_ne by set_solver. done. }
  erewrite bind_Done by exact E1. erewrite bind_Done by (apply get_pprev_ok; exact Ep).
  erewrite bind_Done by (apply get_next_ok; rewrite En; exact Hnx). rewrite set_next_ok by (rewrite En; by eexists).
  eexists. split; [reflexivity|]. assert (∀ y, y ∉ l2 → pprevs h1 !! y = pprevs h !! y) as Hp1.
  { intros y Hy. unfold h1. destruct l2 as [|z l2]; simpl; [done|]. rewrite lookup_insert_ne; set_solver. }
  rewrite En. split; [apply hchain_split; exists q; split|].
  - apply (hseg_frame h); [done|done| |]; simpl; intros y Hy; [intros Ny; by rewrite lookup_insert_ne|].
    apply Hp1. intros Hy2. apply (Nd12 y); set_solver.
  - apply (hchain_move h _ x); simpl; [done|done|done|done|by rewrite lookup_insert_eq| |].
    + intros y Hy. rewrite lookup_insert_ne; [done|by intros ->].
    + intros y Hy. unfold h1. destruct l2 as [|z l2]; [by apply not_elem_of_nil in Hy|]. simpl. case_decide as D; [subst y; apply lookup_insert_eq|by rewrite lookup_insert_ne].
  - intros y Hy. simpl. rewrite lookup_insert_ne by set_solver. split; [done|]. apply Hp1. set_solver.
Qed.

Lemma hvisit_spec h l : ∀ p fuel, hchain h p l → (length l < fuel)%nat → hvisit fuel (hd 0 l) h = Done l h.
Proof.
  induction l as [|x l IH]; intros p fuel Hc Hf; (destruct fuel as [|fuel]; [simpl in Hf; lia|]); [done|].
  destruct Hc as (_ & N0 & _ & Hc). simpl in *. rewrite (proj2 (Z.eqb_neq _ _) N0). erewrite bind_Done by (apply get_next_ok; by apply hchain_next).
  by rewrite (bind_Done _ _ h l h) by (apply (IH x); [done|lia]).
Qed.

(** A hash list is a list: [hlist_add] puts a node in front, [hlist_del] takes
    any node out, the iteration visits the nodes in order, [hlist_empty] tells if
    there is none, and no node outside the list changes. *)
Theorem hlist_ok h head l1 x l2 : hchain h head (l1 ++ l2) → NoDup (head :: l1 ++ l2) → x ∉ head :: l1 ++ l2 → x ≠ 0 →
  is_Some (nexts h !! x) → is_Some (pprevs h !! x) →
  (∃ h', hlist_add x head h = Done tt h' ∧ hchain h' head (x :: l1 ++ l2) ∧ untouched h h' (x :: head :: l1 ++ l2)) ∧
  (∀ y l2', l2 = y :: l2' → ∃ h', hlist_del y h = Done tt h' ∧ hchain h' head (l1 ++ l2') ∧ untouched h h' (head :: l1 ++ l2')) ∧
  (∀ fuel, (length (l1 ++ l2) < fuel)%nat → for_each_in_hlist fuel head h = Done (l1 ++ l2) h) ∧
  hlist_empty head h = Done (bool_decide (l1 ++ l2 = [])) h.
Proof.
  intros Hc Nd Nx N0 Sn Sp. pose proof (hchain_next _ _ _ Hc) as Hn. split_and!.
  - by apply hlist_add_spec.
  - intros y l2' ->. by apply hlist_del_spec.
  - intros fuel Hf. unfold for_each_in_hlist. erewrite bind_Done by (by apply get_next_ok). by eapply hvisit_spec.
  - unfold hlist_empty. erewrite bind_Done by (by apply get_next_ok). unfold ret. f_equal. destruct (l1 ++ l2) as [|y l]; [done|].
    destruct Hc as (_ & Ny & _). simpl. by rewrite (proj2 (Z.eqb_neq _ _) Ny).
Qed.

(** The list 20, 30 from the head 10, and a node 40 that is on no list. *)
Definition demo_heap : hheap := mk_hheap (list_to_map [(10, 20); (20, 30); (30, 0); (40, 7)]) (list_to_map [(20, 10); (30, 20); (40, 7)]).

Lemma hlist_ok_witness : ∃ h', hlist_add 40 10 demo_heap = Done tt h' ∧ hchain h' 10 [40; 20; 30].
Proof.
  destruct (hlist_ok demo_heap 10 [20] 40 [30]) as ((h' & E & Hc & _) & _).
  - by vm_compute.
  - apply (bool_decide_unpack (NoDup _)). exact I.
  - apply (bool_decide_unpack (40 ∉ _)). exact I.
  - done.
  - by eexists.
  - by eexists.
  - by exists h'.
Defined.

End HList.
