(* ===== verification/Bitops.v ===== *)
(** * Bitmaps (kernel/include/common/bitops.h)

    A bitmap is an array of 64-bit words, [list Z].  Every access is by index;
    an index past the end of the array is [None], the out-of-bounds access C
    does not check.  The theorems relate the word-level code to the bit
    function [bit p i]: setting, clearing and reading a bit, and the search
    [find_next_zero_bit] that the capability tables use to pick a slot. *)

From S2P Require Import Prelude.

Module Bitops.

Definition BITS_PER_BYTE : Z := 8.
Definition BITS_PER_LONG : Z := 8 * BITS_PER_BYTE.
Definition DIV_ROUND_UP (n d : Z) : Z := (n + d - 1) / d.
Definition BITS_TO_LONGS (nr : Z) : Z := DIV_ROUND_UP nr BITS_PER_LONG.
Definition ROUND_DOWN (x n : Z) : Z := Z.land x (Z.lnot (n - 1)).
(** [~0UL] *)
Definition all_ones : Z := 2 ^ 64 - 1.

Definition word_at (p : list Z) (i : Z) : option Z := p !! Z.to_nat i.

Definition set_bit (nr : Z) (p : list Z) : option (list Z) :=
  let nlongs := nr / BITS_PER_LONG in
  let ilongs := nr mod BITS_PER_LONG in
  w ← word_at p nlongs;
  Some (<[Z.to_nat nlongs := Z.lor w (Z.shiftl 1 ilongs)]> p).

Definition get_bit (nr : Z) (p : list Z) : option Z :=
  let nlongs := nr / BITS_PER_LONG in
  let ilongs := nr mod BITS_PER_LONG in
  w ← word_at p nlongs;
  Some (Z.land (Z.shiftr w ilongs) 1).

Definition clear_bit (nr : Z) (p : list Z) : option (list Z) :=
  let nlongs := nr / BITS_PER_LONG in
  let ilongs := nr mod BITS_PER_LONG in
  w ← word_at p nlongs;
  Some (<[Z.to_nat nlongs := Z.land w (u64 (Z.lnot (Z.shiftl 1 ilongs)))]> p).

(** [__builtin_ctzl]: the number of trailing zero bits. *)
Fixpoint ctz_pos (p : positive) : Z :=
  match p with
  | xO q => 1 + ctz_pos q
  | _ => 0
  end.

Definition builtin_ctzl (x : Z) : Z :=
  match x with Zpos p => ctz_pos p | _ => 0 end.

Definition ctzl (x : Z) : Z := if x =? 0 then 8 else builtin_ctzl x.

(** The [while (!tmp)] loop of [__find_next_bit] and its final return. *)
Fixpoint find_loop (fuel : nat) (p : list Z) (size start tmp invert : Z) : option Z :=
  if tmp =? 0 then
    match fuel with
    | O => None
    | S k =>
        let start := start + BITS_PER_LONG in
        if size <=? start then Some (s32 size)
        else
          w ← word_at p (start / BITS_PER_LONG);
          find_loop k p size start (Z.lxor w invert) invert
    end
  else Some (s32 (Z.min (start + ctzl tmp) size)).

Definition __find_next_bit (p : list Z) (size start invert : Z) : option Z :=
  if size <=? start then Some (s32 size)
  else
    w ← word_at p (start / BITS_PER_LONG);
    let tmp := Z.lxor w invert in
    let tmp := Z.land tmp (u64 (Z.lnot (Z.shiftl 1 (start mod BITS_PER_LONG) - 1))) in
    let start := ROUND_DOWN start BITS_PER_LONG in
    find_loop (length p) p size start tmp invert.

Definition find_next_zero_bit (p : list Z) (size start : Z) : option Z :=
  __find_next_bit p size start all_ones.

Definition find_next_bit (p : list Z) (size start : Z) : option Z :=
  __find_next_bit p size start 0.

(** ** The bit function of a bitmap *)

Definition bit (p : list Z) (i : Z) : bool :=
  match word_at p (i / 64) with
  | Some w => Z.testbit w (i mod 64)
  | None => false
  end.

Definition words (p : list Z) : Prop := Forall is_u64 p.

Definition in_range (p : list Z) (i : Z) : Prop := 0 ≤ i < 64 * Z.of_nat (length p).

Lemma word_at_some p i : in_range p i → ∃ w, word_at p (i / 64) = Some w.
Proof.
  intros [H1 H2]. unfold word_at. apply lookup_lt_is_Some_2.
  assert (i / 64 < Z.of_nat (length p)) by (apply Z.div_lt_upper_bound; lia).
  assert (0 ≤ i / 64) by (apply Z.div_pos; lia). lia.
Qed.

Lemma word_at_u64 p i w : words p → word_at p i = Some w → is_u64 w.
Proof. intros H E. unfold word_at in E. by eapply Forall_lookup_1 in H. Qed.

Lemma word_at_insert p i j w : 0 ≤ i → 0 ≤ j → (∃ v, word_at p i = Some v) →
  word_at (<[Z.to_nat i := w]> p) j = if decide (i = j) then Some w else word_at p j.
Proof.
  intros Hi Hj [v Hv]. unfold word_at in *. case_decide as E.
  - subst. apply list_lookup_insert_eq. by eapply lookup_lt_Some.
  - apply list_lookup_insert_ne. lia.
Qed.

Lemma testbit_u64_high w n : is_u64 w → 64 ≤ n → Z.testbit w n = false.
Proof.
  intros [H1 H2] Hn. destruct (Z.eq_dec w 0) as [->|Hw]; [apply Z.bits_0|].
  apply Z.bits_above_log2; [lia|].
  apply Z.lt_le_trans with 64; [|lia]. apply Z.log2_lt_pow2; lia.
Qed.

Lemma is_u64_bits w : 0 ≤ w → (∀ n, 64 ≤ n → Z.testbit w n = false) → is_u64 w.
Proof.
  intros H0 H. split; [done|]. destruct (Z.eq_dec w 0) as [->|Hw]; [lia|].
  apply Z.log2_lt_pow2; [lia|]. destruct (Z_lt_le_dec (Z.log2 w) 64) as [|Hl]; [done|].
  exfalso. specialize (H _ Hl). rewrite Z.bit_log2 in H by lia. done.
Qed.

Lemma u64_lnot_bit z n : 0 ≤ n < 64 → Z.testbit (u64 (Z.lnot z)) n = negb (Z.testbit z n).
Proof. intros Hn. unfold u64. rewrite Z.mod_pow2_bits_low by lia. by rewrite Z.lnot_spec by lia. Qed.

Lemma shiftl_1_bit k n : 0 ≤ k → 0 ≤ n → Z.testbit (Z.shiftl 1 k) n = bool_decide (n = k).
Proof.
  intros Hk Hn. rewrite Z.shiftl_spec by lia. case_bool_decide as E.
  - subst. by rewrite Z.sub_diag.
  - destruct (Z_lt_le_dec n k); [by rewrite Z.testbit_neg_r by lia|].
    change 1 with (2 ^ 0). rewrite Z.pow2_bits_false; [done|lia].
Qed.

Lemma div_mod_64_eq i j : i / 64 = j / 64 → i mod 64 = j mod 64 → i = j.
Proof. intros H1 H2. rewrite (Z.div_mod i 64), (Z.div_mod j 64); lia. Qed.

(** ** Theorems *)

Lemma set_bit_some p i : in_range p i → ∃ p', set_bit i p = Some p'.
Proof.
  intros H. destruct (word_at_some p i H) as [w Hw]. unfold set_bit.
  change BITS_PER_LONG with 64. rewrite Hw. eexists. reflexivity.
Qed.

Lemma set_bit_words p i p' : words p → set_bit i p = Some p' → words p' ∧ length p' = length p.
Proof.
  intros Hp. unfold set_bit. change BITS_PER_LONG with 64.
  destruct (word_at p (i / 64)) as [w|] eqn:Hw; simpl; [|done]. intros [= <-].
  split; [|apply length_insert]. apply Forall_insert; [done|].
  pose proof (word_at_u64 _ _ _ Hp Hw) as Hu.
  pose proof (Z.mod_pos_bound i 64 ltac:(lia)).
  apply is_u64_bits.
  - apply Z.lor_nonneg. split; [apply Hu|apply Z.shiftl_nonneg; lia].
  - intros n Hn. rewrite Z.lor_spec, (testbit_u64_high w n Hu Hn), shiftl_1_bit by lia.
    apply bool_decide_false. lia.
Qed.

Lemma clear_bit_words p i p' : words p → clear_bit i p = Some p' → words p' ∧ length p' = length p.
Proof.
  intros Hp. unfold clear_bit. change BITS_PER_LONG with 64.
  destruct (word_at p (i / 64)) as [w|] eqn:Hw; simpl; [|done]. intros [= <-].
  split; [|apply length_insert]. apply Forall_insert; [done|].
  pose proof (word_at_u64 _ _ _ Hp Hw) as Hu. apply is_u64_bits.
  - apply Z.land_nonneg. left. apply Hu.
  - intros n Hn. by rewrite Z.land_spec, (testbit_u64_high w n Hu Hn).
Qed.

Lemma set_bit_bit p i p' j : 0 ≤ i → 0 ≤ j → set_bit i p = Some p' →
  bit p' j = bool_decide (j = i) || bit p j.
Proof.
  intros Hi Hj. unfold set_bit, bit. change BITS_PER_LONG with 64.
  destruct (word_at p (i / 64)) as [w|] eqn:Hw; simpl; [|done]. intros [= <-].
  rewrite word_at_insert by eauto using Z.div_pos with lia.
  pose proof (Z.mod_pos_bound i 64 ltac:(lia)). pose proof (Z.mod_pos_bound j 64 ltac:(lia)).
  case_decide as E.
  - rewrite <- E, Hw, Z.lor_spec, shiftl_1_bit, orb_comm by lia. f_equal.
    apply bool_decide_ext. split; [intros; apply div_mod_64_eq; lia|by intros ->].
  - rewrite bool_decide_false; [done|]. intros ->. done.
Qed.

Lemma clear_bit_bit p i p' j : words p → 0 ≤ i → 0 ≤ j → clear_bit i p = Some p' →
  bit p' j = negb (bool_decide (j = i)) && bit p j.
Proof.
  intros Hp Hi Hj. unfold clear_bit, bit. change BITS_PER_LONG with 64.
  destruct (word_at p (i / 64)) as [w|] eqn:Hw; simpl; [|done]. intros [= <-].
  rewrite word_at_insert by eauto using Z.div_pos with lia.
  pose proof (Z.mod_pos_bound i 64 ltac:(lia)). pose proof (Z.mod_pos_bound j 64 ltac:(lia)).
  case_decide as E.
  - rewrite <- E, Hw, Z.land_spec, u64_lnot_bit, shiftl_1_bit, andb_comm by lia. f_equal. f_equal.
    apply bool_decide_ext. split; [intros; apply div_mod_64_eq; lia|by intros ->].
  - rewrite bool_decide_false; [done|]. intros ->. done.
Qed.

Lemma clear_bit_some p i : in_range p i → ∃ p', clear_bit i p = Some p'.
Proof.
  intros H. destruct (word_at_some p i H) as [w Hw]. unfold clear_bit.
  change BITS_PER_LONG with 64. rewrite Hw. eexists. reflexivity.
Qed.

Lemma get_bit_bit p i : in_range p i → get_bit i p = Some (if bit p i then 1 else 0).
Proof.
  intros H. destruct (word_at_some p i H) as [w Hw]. unfold get_bit, bit.
  change BITS_PER_LONG with 64. rewrite Hw. simpl. f_equal.
  pose proof (Z.mod_pos_bound i 64 ltac:(lia)).
  apply Z.bits_inj'. intros n Hn. rewrite Z.land_spec, Z.shiftr_spec by lia.
  destruct (Z.eq_dec n 0) as [->|Hn0].
  - rewrite Z.add_0_l. destruct (Z.testbit w (i mod 64)); done.
  - rewrite (Z.bits_above_log2 1 n) by (simpl; lia). rewrite andb_false_r.
    destruct (Z.testbit w (i mod 64)); [by rewrite (Z.bits_above_log2 1 n) by (simpl; lia)|by rewrite Z.bits_0].
Qed.

Lemma ctz_pos_nonneg q : 0 ≤ ctz_pos q.
Proof. induction q; simpl; lia. Qed.

Lemma ctz_pos_spec q :
  Z.testbit (Zpos q) (ctz_pos q) = true ∧ ∀ n, 0 ≤ n < ctz_pos q → Z.testbit (Zpos q) n = false.
Proof.
  induction q as [q IH|q IH|]; simpl ctz_pos.
  - split; [done|lia].
  - destruct IH as [IH1 IH2]. pose proof (ctz_pos_nonneg q). split.
    + replace (1 + ctz_pos q) with (Z.succ (ctz_pos q)) by lia.
      rewrite Pos2Z.inj_xO, Z.double_bits_succ. exact IH1.
    + intros n Hn. rewrite Pos2Z.inj_xO. destruct (Z.eq_dec n 0) as [->|]; [apply Z.testbit_even_0|].
      replace n with (Z.succ (n - 1)) by lia.
      rewrite Z.double_bits_succ. apply IH2. lia.
  - split; [done|lia].
Qed.

Lemma ctzl_spec x : is_u64 x → x ≠ 0 →
  0 ≤ ctzl x < 64 ∧ Z.testbit x (ctzl x) = true ∧ ∀ n, 0 ≤ n < ctzl x → Z.testbit x n = false.
Proof.
  intros Hu Hx. unfold ctzl. rewrite (proj2 (Z.eqb_neq x 0) Hx).
  destruct x as [|q|q]; [done| |destruct Hu; lia]. simpl.
  destruct (ctz_pos_spec q) as [H1 H2]. pose proof (ctz_pos_nonneg q).
  split; [split; [done|]|done]. destruct (Z_lt_le_dec (ctz_pos q) 64) as [|Hc]; [done|].
  rewrite testbit_u64_high in H1 by done. done.
Qed.

Definition inv_word (b : bool) : Z := if b then all_ones else 0.

Lemma lxor_inv_bit w b n : 0 ≤ n < 64 → Z.testbit (Z.lxor w (inv_word b)) n = xorb (Z.testbit w n) b.
Proof.
  intros Hn. rewrite Z.lxor_spec. f_equal. destruct b; simpl; [|by rewrite Z.bits_0].
  change all_ones with (Z.ones 64). by apply Z.ones_spec_low.
Qed.

Lemma lxor_inv_u64 w b : is_u64 w → is_u64 (Z.lxor w (inv_word b)).
Proof.
  intros Hw. assert (is_u64 (inv_word b)) as Hi by (destruct b; split; vm_compute; congruence).
  apply is_u64_bits; [apply Z.lxor_nonneg; split; intros; [apply Hi|apply Hw]|].
  intros n Hn. by rewrite Z.lxor_spec, !testbit_u64_high by done.
Qed.

Lemma bit_word p k w n : 0 ≤ k → 0 ≤ n < 64 → word_at p k = Some w → bit p (64 * k + n) = Z.testbit w n.
Proof.
  intros Hk Hn Hw. unfold bit.
  replace ((64 * k + n) / 64) with k by (rewrite Z.mul_comm, Z.div_add_l, Z.div_small; lia).
  rewrite Hw. f_equal. rewrite Z.mul_comm, Z.add_comm, Z.mod_add, Z.mod_small; lia.
Qed.

(** The search finds the first position at or after [lo] whose bit, inverted
    or not, is set; [hit] is that test. *)
Definition hit (p : list Z) (b : bool) (i : Z) : bool := xorb (bit p i) b.

Definition first_hit (p : list Z) (b : bool) (lo size r : Z) : Prop :=
  r ≤ size ∧ (∀ i, lo ≤ i < r → hit p b i = false) ∧ (r < size → lo ≤ r ∧ hit p b r = true).

Lemma find_loop_spec p b size lo fuel k tmp :
  words p → size ≤ 64 * Z.of_nat (length p) → size < 2 ^ 31 → 0 ≤ k → 64 * k < size →
  lo < 64 * (k + 1) → is_u64 tmp → Z.of_nat (length p) ≤ Z.of_nat fuel + k →
  (∀ n, 0 ≤ n < 64 → Z.testbit tmp n = bool_decide (lo ≤ 64 * k + n) && hit p b (64 * k + n)) →
  (∀ i, lo ≤ i < 64 * k → hit p b i = false) →
  ∃ r, find_loop fuel p size (64 * k) tmp (inv_word b) = Some r ∧ first_hit p b lo size r.
Proof.
  intros Hp Hs1 Hs2. revert k tmp. induction fuel as [|fuel IH]; intros k tmp Hk Hks Hlk Hu Hf Ht Hlo.
  { exfalso. lia. }
  simpl. destruct (Z.eqb_spec tmp 0) as [->|Hnz].
  - change BITS_PER_LONG with 64.
    assert (∀ i, lo ≤ i < 64 * (k + 1) → hit p b i = false) as Hlo'.
    { intros i Hi. destruct (Z_lt_le_dec i (64 * k)); [by apply Hlo; lia|].
      specialize (Ht (i - 64 * k) ltac:(lia)). rewrite Z.bits_0 in Ht.
      replace (64 * k + (i - 64 * k)) with i in Ht by lia.
      rewrite bool_decide_true in Ht by lia. done. }
    replace (64 * k + 64) with (64 * (k + 1)) by lia.
    destruct (Z.leb_spec size (64 * (k + 1))).
    + exists size. rewrite s32_id by lia. split; [done|].
      split; [lia|]. split; [intros; apply Hlo'; lia|lia].
    + destruct (word_at_some p (64 * (k + 1))) as [w Hw]; [unfold in_range; lia|].
      rewrite Hw. simpl. replace (64 * (k + 1) / 64) with (k + 1) in Hw
        by (rewrite Z.mul_comm, Z.div_mul; lia).
      pose proof (word_at_u64 _ _ _ Hp Hw).
      apply IH; [lia|lia|lia|by apply lxor_inv_u64|lia| |done].
      intros n Hn. rewrite lxor_inv_bit by done. unfold hit.
      rewrite (bit_word _ _ w) by (done || lia). by rewrite bool_decide_true by lia.
  - destruct (ctzl_spec tmp Hu Hnz) as (Hc1 & Hc2 & Hc3).
    rewrite Ht in Hc2 by lia. apply andb_true_iff in Hc2 as [Hc2%bool_decide_eq_true Hc4].
    assert (∀ i, lo ≤ i < 64 * k + ctzl tmp → hit p b i = false) as Hlo'.
    { intros i Hi. destruct (Z_lt_le_dec i (64 * k)); [by apply Hlo; lia|].
      specialize (Hc3 (i - 64 * k) ltac:(lia)). rewrite Ht in Hc3 by lia.
      replace (64 * k + (i - 64 * k)) with i in Hc3 by lia.
      by rewrite bool_decide_true in Hc3 by lia. }
    eexists. split; [reflexivity|]. rewrite s32_id by lia.
    split; [lia|]. split; [intros i Hi; apply Hlo'; lia|].
    intros Hlt. rewrite Z.min_l by lia. by split.
Qed.

Lemma round_down_64 z : 0 ≤ z → ROUND_DOWN z 64 = 64 * (z / 64).
Proof.
  intros Hz. unfold ROUND_DOWN. change (Z.lnot (64 - 1)) with (Z.lnot (Z.ones 6)).
  rewrite <- Z.ldiff_land, Z.ldiff_ones_r, Z.shiftr_div_pow2, Z.shiftl_mul_pow2 by lia.
  change (2 ^ 6) with 64. lia.
Qed.

Lemma mask_bit k n : 0 ≤ k < 64 → 0 ≤ n < 64 →
  Z.testbit (u64 (Z.lnot (Z.shiftl 1 k - 1))) n = bool_decide (k ≤ n).
Proof.
  intros Hk Hn. rewrite u64_lnot_bit by done.
  replace (Z.shiftl 1 k - 1) with (Z.ones k)
    by (rewrite Z.ones_equiv, Z.shiftl_mul_pow2 by lia; lia).
  case_bool_decide.
  - by rewrite Z.ones_spec_high by lia.
  - by rewrite Z.ones_spec_low by lia.
Qed.

Lemma __find_next_bit_spec p b size start :
  words p → 0 ≤ size ≤ 64 * Z.of_nat (length p) → size < 2 ^ 31 → 0 ≤ start →
  ∃ r, __find_next_bit p size start (inv_word b) = Some r ∧ first_hit p b start size r.
Proof.
  intros Hp Hs1 Hs2 Hst. unfold __find_next_bit. destruct (Z.leb_spec size start).
  { exists size. rewrite s32_id by lia. split; [done|]. split; [lia|]. split; lia. }
  change BITS_PER_LONG with 64.
  destruct (word_at_some p start) as [w Hw]; [unfold in_range; lia|]. rewrite Hw.
  simpl mbind. rewrite round_down_64 by lia.
  pose proof (word_at_u64 _ _ _ Hp Hw) as Hu. pose proof (Z.div_pos start 64 ltac:(lia) ltac:(lia)).
  pose proof (Z.div_mod start 64 ltac:(lia)). pose proof (Z.mod_pos_bound start 64 ltac:(lia)).
  apply find_loop_spec; try done; try lia.
  - apply is_u64_bits.
    + apply Z.land_nonneg. left. apply lxor_inv_u64, Hu.
    + intros n Hn. by rewrite Z.land_spec, (testbit_u64_high _ n (lxor_inv_u64 _ b Hu)) by done.
  - intros n Hn. rewrite Z.land_spec, lxor_inv_bit, mask_bit, andb_comm by done.
    unfold hit. rewrite (bit_word _ _ w) by done. f_equal. apply bool_decide_ext. lia.
Qed.

(** [find_next_zero_bit] returns the least clear bit of [[start, size)], or
    [size] when every bit of the range is set. *)
Lemma find_next_zero_bit_least p size start :
  words p → 0 ≤ size ≤ 64 * Z.of_nat (length p) → size < 2 ^ 31 → 0 ≤ start → ∃ r,
  find_next_zero_bit p size start = Some r ∧ r ≤ size ∧
  (∀ i, start ≤ i < r → bit p i = true) ∧ (r < size → start ≤ r ∧ bit p r = false).
Proof.
  intros Hp Hs1 Hs2 Hst.
  destruct (__find_next_bit_spec p true size start Hp Hs1 Hs2 Hst) as (r & E & H1 & H2 & H3).
  exists r. split; [exact E|]. split; [done|]. unfold hit in *. split.
  - intros i Hi. specialize (H2 i Hi). by destruct (bit p i).
  - intros Hr. destruct (H3 Hr). split; [done|]. by destruct (bit p r).
Qed.

Lemma find_next_bit_least p size start :
  words p → 0 ≤ size ≤ 64 * Z.of_nat (length p) → size < 2 ^ 31 → 0 ≤ start → ∃ r,
  find_next_bit p size start = Some r ∧ r ≤ size ∧
  (∀ i, start ≤ i < r → bit p i = false) ∧ (r < size → start ≤ r ∧ bit p r = true).
Proof.
  intros Hp Hs1 Hs2 Hst.
  destruct (__find_next_bit_spec p false size start Hp Hs1 Hs2 Hst) as (r & E & H1 & H2 & H3).
  exists r. split; [exact E|]. split; [done|]. unfold hit in *. split.
  - intros i Hi. specialize (H2 i Hi). by destruct (bit p i).
  - intros Hr. destruct (H3 Hr). split; [done|]. by destruct (bit p r).
Qed.

End Bitops.
