(* ===== verification/Tiling.v ===== *)
(** * Tilings by aligned power-of-two blocks

    The specification side of the buddy allocator: a block [(i, k)] is the
    [2 ^ k] pages from [i] on; a set of blocks tiles [n] pages when every block
    is aligned and in range, and every page lies in exactly one block.
    Splitting a block in halves and merging two buddies keep a tiling. *)

From S2P Require Import Prelude.

Module Tiling.

Definition block : Type := Z * Z.

Definition covers (b : block) (p : Z) : Prop := b.1 ≤ p < b.1 + 2 ^ b.2.

(** Orders below [mx], aligned, inside [0, n). *)
Definition block_ok (mx n : Z) (b : block) : Prop :=
  0 ≤ b.2 < mx ∧ 0 ≤ b.1 ∧ b.1 mod 2 ^ b.2 = 0 ∧ b.1 + 2 ^ b.2 ≤ n.

Record tiles (mx n : Z) (P : block → Prop) : Prop := {
  tiles_ok : ∀ b, P b → block_ok mx n b;
  tiles_cover : ∀ p, 0 ≤ p < n → ∃ b, P b ∧ covers b p;
  tiles_disjoint : ∀ b c p, P b → P c → covers b p → covers c p → b = c
}.

Lemma tiles_ext mx n P Q : (∀ b, P b ↔ Q b) → tiles mx n P → tiles mx n Q.
Proof.
  intros H [T1 T2 T3]. split.
  - intros b Hb. apply T1, H, Hb.
  - intros p Hp. destruct (T2 p Hp) as (b & Hb & Hc). exists b. by rewrite <- H.
  - intros b c p Hb Hc. apply T3; by apply H.
Qed.

Lemma pow2_pos k : 0 ≤ k → 0 < 2 ^ k.
Proof. intros. by apply Z.pow_pos_nonneg. Qed.

Lemma pow2_succ k : 0 ≤ k → 2 ^ (k + 1) = 2 * 2 ^ k.
Proof. intros. rewrite Z.add_1_r. by apply Z.pow_succ_r. Qed.

Lemma block_start mx n b : block_ok mx n b → covers b b.1.
Proof. intros (H & _). pose proof (pow2_pos b.2). unfold covers. lia. Qed.

(** Two blocks of a tiling with the same first page are the same block. *)
Lemma tiles_start mx n P i k j : tiles mx n P → P (i, k) → P (i, j) → k = j.
Proof.
  intros T H1 H2. pose proof (block_start _ _ _ (tiles_ok _ _ _ T _ H1)) as C1.
  pose proof (block_start _ _ _ (tiles_ok _ _ _ T _ H2)) as C2. simpl in *.
  by injection (tiles_disjoint _ _ _ T _ _ _ H1 H2 C1 C2).
Qed.

Definition split_blocks (P : block → Prop) (i k : Z) : block → Prop := λ b,
  (P b ∧ b ≠ (i, k + 1)) ∨ b = (i, k) ∨ b = (i + 2 ^ k, k).

Definition merge_blocks (P : block → Prop) (i k : Z) : block → Prop := λ b,
  (P b ∧ b ≠ (i, k) ∧ b ≠ (i + 2 ^ k, k)) ∨ b = (i, k + 1).

Lemma aligned_half i k : 0 ≤ k → i mod 2 ^ (k + 1) = 0 → i mod 2 ^ k = 0.
Proof.
  intros Hk H. pose proof (pow2_pos k Hk). apply Z.mod_divide; [lia|].
  apply Z.mod_divide in H; [|pose proof (pow2_pos (k + 1)); lia].
  destruct H as [q Hq]. exists (2 * q). rewrite pow2_succ in Hq by done. lia.
Qed.

Lemma aligned_shift i k : 0 ≤ k → i mod 2 ^ k = 0 → (i + 2 ^ k) mod 2 ^ k = 0.
Proof.
  intros Hk H. pose proof (pow2_pos k Hk).
  rewrite <- (Z.mul_1_l (2 ^ k)) at 1. by rewrite Z.mod_add by lia.
Qed.

Lemma covers_halves i k p : 0 ≤ k →
  covers (i, k + 1) p ↔ covers (i, k) p ∨ covers (i + 2 ^ k, k) p.
Proof. intros Hk. unfold covers. simpl. rewrite pow2_succ by done. lia. Qed.

Lemma covers_halves_disjoint i k p : covers (i, k) p → covers (i + 2 ^ k, k) p → False.
Proof. unfold covers. simpl. lia. Qed.

Lemma tiles_split mx n P i k : 0 ≤ k →
  tiles mx n P → P (i, k + 1) → tiles mx n (split_blocks P i k).
Proof.
  intros Hk T HP. destruct (tiles_ok _ _ _ T _ HP) as (O1 & O2 & O3 & O4). simpl in *.
  pose proof (pow2_pos k Hk). rewrite pow2_succ in O4 by done. split.
  - intros b [[Hb _]|[->| ->]]; [by apply (tiles_ok _ _ _ T)|..]; repeat split; simpl; try lia;
      auto using aligned_half, aligned_shift.
  - intros p Hp. destruct (tiles_cover _ _ _ T p Hp) as (b & Hb & Hc).
    destruct (decide (b = (i, k + 1))) as [->|Hne].
    + apply covers_halves in Hc as [Hc|Hc]; [..|done].
      * exists (i, k). unfold split_blocks. tauto.
      * exists (i + 2 ^ k, k). unfold split_blocks. tauto.
    + exists b. unfold split_blocks. tauto.
  - assert (∀ b p, P b → b ≠ (i, k + 1) → covers b p →
      covers (i, k) p ∨ covers (i + 2 ^ k, k) p → False) as X.
    { intros b p Hb Hne Hc Hh. apply Hne. apply (tiles_disjoint _ _ _ T) with p; auto.
      by apply covers_halves. }
    intros b c p [[Hb Nb]|[->| ->]] [[Hc Nc]|[->| ->]] Cb Cc; try done; try (exfalso;
      first [ apply (X b p Hb Nb Cb); tauto | apply (X c p Hc Nc Cc); tauto
            | exact (covers_halves_disjoint i k p Cb Cc)
            | exact (covers_halves_disjoint i k p Cc Cb) ]).
    by apply (tiles_disjoint _ _ _ T) with p.
Qed.

Lemma tiles_merge mx n P i k : 0 ≤ k → k + 1 < mx → i mod 2 ^ (k + 1) = 0 →
  tiles mx n P → P (i, k) → P (i + 2 ^ k, k) → tiles mx n (merge_blocks P i k).
Proof.
  intros Hk Hm Ha T H1 H2. destruct (tiles_ok _ _ _ T _ H1) as (O1 & O2 & O3 & O4).
  destruct (tiles_ok _ _ _ T _ H2) as (Q1 & Q2 & Q3 & Q4). simpl in *.
  pose proof (pow2_pos k Hk). split.
  - intros b [[Hb _]| ->]; [by apply (tiles_ok _ _ _ T)|]. repeat split; simpl; try lia; auto.
    rewrite pow2_succ by done. lia.
  - intros p Hp. destruct (tiles_cover _ _ _ T p Hp) as (b & Hb & Hc).
    destruct (decide (b = (i, k))) as [->|N1].
    { exists (i, k + 1). unfold merge_blocks. split; [tauto|]. apply covers_halves; tauto. }
    destruct (decide (b = (i + 2 ^ k, k))) as [->|N2].
    { exists (i, k + 1). unfold merge_blocks. split; [tauto|]. apply covers_halves; tauto. }
    exists b. unfold merge_blocks. tauto.
  - assert (∀ b p, P b → b ≠ (i, k) → b ≠ (i + 2 ^ k, k) → covers b p → covers (i, k + 1) p → False) as X.
    { intros b p Hb N1 N2 Hc Hh. apply covers_halves in Hh as [Hh|Hh]; [..|done].
      - apply N1. by apply (tiles_disjoint _ _ _ T) with p.
      - apply N2. by apply (tiles_disjoint _ _ _ T) with p. }
    intros b c p [(Hb & N1 & N2)| ->] [(Hc & N3 & N4)| ->] Cb Cc; try done; try (exfalso; eauto; fail).
    by apply (tiles_disjoint _ _ _ T) with p.
Qed.

(** ** Buddies in binary *)

Lemma lxor_bit_clear i k : 0 ≤ k → i mod 2 ^ (k + 1) = 0 → Z.lxor i (2 ^ k) = i + 2 ^ k.
Proof.
  intros Hk Ha. rewrite <- Z.add_nocarry_lxor; [done|].
  apply Z.bits_inj'. intros m Hm. rewrite Z.land_spec, Z.bits_0.
  destruct (Z.eq_dec m k) as [->|Hne]; [|by rewrite Z.pow2_bits_false, andb_false_r by lia].
  replace (Z.testbit i k) with false; [done|].
  rewrite <- (Z.mod_pow2_bits_low i (k + 1) k) by lia. by rewrite Ha, Z.bits_0.
Qed.

Lemma aligned_cases i k : 0 ≤ k → i mod 2 ^ k = 0 →
  i mod 2 ^ (k + 1) = 0 ∨ (i - 2 ^ k) mod 2 ^ (k + 1) = 0.
Proof.
  intros Hk H. pose proof (pow2_pos k Hk). apply Z.mod_divide in H as [q Hq]; [|lia].
  rewrite !pow2_succ by done. destruct (Z.Even_or_Odd q) as [[r Hr]|[r Hr]].
  - left. apply Z.mod_divide; [lia|]. exists r. lia.
  - right. apply Z.mod_divide; [lia|]. exists r. lia.
Qed.

(** The buddy of an aligned block and the start of the merged block, in the
    two cases: [i] is the lower or the upper half. *)
Lemma buddy_cases i k : 0 ≤ k → i mod 2 ^ k = 0 →
  (i mod 2 ^ (k + 1) = 0 ∧ Z.lxor i (2 ^ k) = i + 2 ^ k ∧ Z.land i (Z.lnot (2 ^ k)) = i) ∨
  ((i - 2 ^ k) mod 2 ^ (k + 1) = 0 ∧ Z.lxor i (2 ^ k) = i - 2 ^ k ∧
   Z.land i (Z.lnot (2 ^ k)) = i - 2 ^ k).
Proof.
  intros Hk Ha.
  assert (∀ j, j mod 2 ^ (k + 1) = 0 → Z.testbit j k = false) as L.
  { intros j Hj. rewrite <- (Z.mod_pow2_bits_low j (k + 1) k) by lia. by rewrite Hj, Z.bits_0. }
  assert (∀ j, j mod 2 ^ (k + 1) = 0 → Z.land j (Z.lnot (2 ^ k)) = j) as L1.
  { intros j Hj. apply Z.bits_inj'. intros m Hm. rewrite Z.land_spec, Z.lnot_spec by done.
    destruct (Z.eq_dec m k) as [->|Hne]; [by rewrite (L j Hj)|].
    by rewrite Z.pow2_bits_false, andb_true_r by lia. }
  destruct (aligned_cases i k Hk Ha) as [H|H]; [left|right]; (split; [done|]).
  - split; [by apply lxor_bit_clear|by apply L1].
  - assert (i = Z.lxor (i - 2 ^ k) (2 ^ k)) as E by (rewrite lxor_bit_clear by done; lia).
    split; rewrite E at 1.
    + by rewrite Z.lxor_assoc, Z.lxor_nilpotent, Z.lxor_0_r.
    + rewrite <- (L1 (i - 2 ^ k)) at 2 by done.
      apply Z.bits_inj'. intros m Hm. rewrite !Z.land_spec, Z.lxor_spec, Z.lnot_spec by done.
      destruct (Z.testbit (2 ^ k) m); [by rewrite !andb_false_r|by rewrite xorb_false_r].
Qed.

(** A block that reaches into a smaller aligned group of pages covers it. *)
Lemma aligned_covers c o g k j i : c mod 2 ^ o = 0 → g mod 2 ^ k = 0 → 0 ≤ k ≤ o →
  covers (c, o) j → g ≤ j < g + 2 ^ k → g ≤ i < g + 2 ^ k → covers (c, o) i.
Proof.
  intros Hc Hg Hk Cj Hj Hi. unfold covers in *. simpl in *.
  pose proof (pow2_pos k ltac:(lia)). pose proof (pow2_pos (o - k) ltac:(lia)).
  apply Z.mod_divide in Hg as [q1 Q1]; [|lia].
  apply Z.mod_divide in Hc as [q2 Q2]; [|pose proof (pow2_pos o); lia].
  assert (2 ^ o = 2 ^ k * 2 ^ (o - k)) as E by (rewrite <- Z.pow_add_r by lia; f_equal; lia).
  rewrite E in *. set (T := 2 ^ (o - k)) in *. set (D := 2 ^ k) in *.
  assert (q2 * T ≤ q1) by nia. assert (q1 < q2 * T + T) by nia. nia.
Qed.

End Tiling.
