(* ===== verification/Buddy.v ===== *)
(** * The buddy allocator (kernel/mm/buddy.c, kernel/mm/mm.c)

    The state is [struct global_mem] with its metadata array.  A
    [struct page *] is the page's index from [zone->first_page]; the intrusive
    [list_node]s are the lists of indices in [free_lists] (ListHead.v relates
    the two views).  [pages] also holds what lies behind the metadata array,
    because [buddy_free_pages] reads the metadata of a buddy without checking
    that the buddy exists.

    The specification is a tiling: the free blocks and the blocks outside the
    allocator (handed out, or being worked on) partition the managed pages. *)

From S2P Require Import Prelude Tiling.

Module Buddy.

Definition BUDDY_PAGE_SHIFT : Z := 12.
Definition BUDDY_PAGE_SIZE : Z := Z.shiftl 1 BUDDY_PAGE_SHIFT.
Definition BUDDY_MAX_ORDER : Z := 14.

(** [enum pageflags] *)
Definition PG_head : Z := 0.
Definition PG_buddy : Z := 1.

Record page := mk_page { flags : Z; order : Z; slab : Z }.

Record free_list := mk_free_list { list_head : list Z; nr_free : Z }.

Record global_mem := mk_global_mem {
  page_num : Z;
  page_size : Z;
  start_addr : Z;
  end_addr : Z;
  pages : gmap Z page;
  free_lists : list free_list
}.

Definition with_pages (f : gmap Z page → gmap Z page) (z : global_mem) : global_mem :=
  mk_global_mem (page_num z) (page_size z) (start_addr z) (end_addr z) (f (pages z)) (free_lists z).

Definition with_lists (f : list free_list → list free_list) (z : global_mem) : global_mem :=
  mk_global_mem (page_num z) (page_size z) (start_addr z) (end_addr z) (pages z) (f (free_lists z)).

Abbreviation MB := (M global_mem).

(** [page->...]: a read of the metadata of page [i], and a write to it. *)
Definition page_at (i : Z) : MB page := z <- get ;; need (pages z !! i).

Definition set_page (i : Z) (f : page → page) : MB unit :=
  p <- page_at i ;; modify (with_pages (<[i := f p]>)).

(** [zone->free_lists + o] *)
Definition list_at (o : Z) : MB free_list :=
  z <- get ;; need (if o <? 0 then None else free_lists z !! Z.to_nat o).

Definition set_list (o : Z) (f : free_list → free_list) : MB unit :=
  l <- list_at o ;; modify (with_lists (<[Z.to_nat o := f l]>)).

Definition list_add (i : Z) (l : free_list) : free_list := mk_free_list (i :: list_head l) (nr_free l).

(** [list_del(&page->list_node)]: unlinks the node from the ring it is in.  A
    node that is in no ring has stale links. *)
Definition unlink (i : Z) (l : free_list) : free_list :=
  mk_free_list (filter (λ j, j ≠ i) (list_head l)) (nr_free l).

Definition list_del (i : Z) : MB unit :=
  z <- get ;;
  if bool_decide (Exists (λ l, i ∈ list_head l) (free_lists z))
  then modify (with_lists (map (unlink i))) else fault.

Definition nr_free_inc (l : free_list) : free_list := mk_free_list (list_head l) (u64 (nr_free l + 1)).
Definition nr_free_dec (l : free_list) : free_list := mk_free_list (list_head l) (u64 (nr_free l - 1)).

Definition set_page_order_buddy (i o : Z) : MB unit :=
  set_page i (λ p, mk_page (Z.lor (flags p) (Z.shiftl 1 PG_buddy)) o (slab p)).

Definition clear_page_order_buddy (i : Z) : MB unit :=
  set_page i (λ p, mk_page (Z.ldiff (flags p) (Z.shiftl 1 PG_buddy)) 0 (slab p)).

Definition get_order (i : Z) : MB Z := p <- page_at i ;; ret (order p).

Definition get_buddy_page (page_idx o : Z) : Z := Z.lxor page_idx (Z.shiftl 1 o).

Definition get_merge_page (page_idx o : Z) : Z := Z.land page_idx (Z.lnot (Z.shiftl 1 o)).

(** [split]: the loop runs [high - low] times. *)
Fixpoint split (n : nat) (pg low high size : Z) : MB unit :=
  match n with
  | O => ret tt
  | S k =>
      if low <? high then
        let high := high - 1 in
        let size := Z.shiftr size 1 in
        page_at (pg + size) ;;
        set_list high (list_add (pg + size)) ;;
        set_list high nr_free_inc ;;
        set_page_order_buddy (pg + size) high ;;
        split k pg low high size
      else ret tt
  end.

(** [__alloc_page] from [current_order] on, which is at most [n] orders below
    [BUDDY_MAX_ORDER].  [None] is the null pointer. *)
Fixpoint alloc_from (n : nat) (ord current_order : Z) : MB (option Z) :=
  match n with
  | O => ret None
  | S k =>
      if current_order <? BUDDY_MAX_ORDER then
        l <- list_at current_order ;;
        match list_head l with
        | [] => alloc_from k ord (current_order + 1)
        | pg :: _ =>
            list_del pg ;;
            set_list current_order nr_free_dec ;;
            clear_page_order_buddy pg ;;
            split (Z.to_nat (current_order - ord)) pg ord current_order (Z.shiftl 1 current_order) ;;
            set_page pg (λ p, mk_page (Z.lor (flags p) (Z.shiftl 1 PG_head)) ord (slab p)) ;;
            ret (Some pg)
        end
      else ret None
  end.

Definition __alloc_page (ord : Z) : MB (option Z) :=
  alloc_from (Z.to_nat (BUDDY_MAX_ORDER - ord)) ord ord.

Definition is_buddy (p : page) : bool := negb (Z.land (flags p) (Z.shiftl 1 PG_buddy) =? 0).

Definition check_buddy (i o : Z) : MB bool :=
  p <- page_at i ;; ret (is_buddy p && (order p =? o)).

Definition buddy_get_pages (ord : Z) : MB (option Z) :=
  if BUDDY_MAX_ORDER <=? ord then halt else __alloc_page ord.

(** The merge loop of [buddy_free_pages]; the result is the merged page and
    its order. *)
Fixpoint merge_loop (n : nat) (pg ord : Z) : MB (Z * Z) :=
  match n with
  | O => ret (pg, ord)
  | S k =>
      if ord <? BUDDY_MAX_ORDER - 1 then
        let buddy := get_buddy_page pg ord in
        mergeable <- check_buddy buddy ord ;;
        if mergeable : bool then
          list_del buddy ;;
          set_list ord nr_free_dec ;;
          clear_page_order_buddy buddy ;;
          merge_loop k (get_merge_page pg ord) (ord + 1)
        else ret (pg, ord)
      else ret (pg, ord)
  end.

Definition buddy_free_pages (pg : Z) : MB unit :=
  ord <- get_order pg ;;
  set_page pg (λ p, mk_page (Z.ldiff (flags p) (Z.shiftl 1 PG_head)) (order p) (slab p)) ;;
  r <- merge_loop (Z.to_nat (BUDDY_MAX_ORDER - ord)) pg ord ;;
  set_page_order_buddy r.1 r.2 ;;
  set_list r.2 (list_add r.1) ;;
  set_list r.2 nr_free_inc.

(** [init_buddy]: the metadata of the managed pages is zeroed ([memset]), the
    free lists are emptied, then every page is freed in turn.  [past] is the
    memory behind the metadata array. *)
Definition zero_page : page := mk_page 0 0 0.

Fixpoint zeroed (n : nat) (i : Z) (past : gmap Z page) : gmap Z page :=
  match n with
  | O => past
  | S k => <[i := zero_page]> (zeroed k (i + 1) past)
  end.

Fixpoint free_all (n : nat) (i : Z) : MB unit :=
  match n with
  | O => ret tt
  | S k => buddy_free_pages i ;; free_all k (i + 1)
  end.

Definition init_buddy (first_page_vaddr npages : Z) (past : gmap Z page) : outcome global_mem unit :=
  free_all (Z.to_nat npages) 0
    (mk_global_mem npages BUDDY_PAGE_SIZE first_page_vaddr
       (u64 (first_page_vaddr + npages * BUDDY_PAGE_SIZE))
       (zeroed (Z.to_nat npages) 0 past)
       (replicate (Z.to_nat BUDDY_MAX_ORDER) (mk_free_list [] 0))).

Definition page_to_virt (z : global_mem) (pg : option Z) : Z :=
  match pg with
  | None => 0
  | Some page_idx => u64 (start_addr z + page_idx * BUDDY_PAGE_SIZE)
  end.

(** [virt_to_page]: an address outside the managed range halts. *)
Definition virt_to_page (address : Z) : MB Z :=
  z <- get ;;
  if (address <? start_addr z) || (end_addr z <? address) then halt
  else ret (Z.shiftr (u64 (address - start_addr z)) BUDDY_PAGE_SHIFT).

(** [mm_init]'s layout of the free physical memory: the metadata array, then
    the pages.  [sizeof(struct page)] is 40. *)
Definition SIZEOF_PAGE : Z := 40.
Definition ROUND_UP (x n : Z) : Z := Z.land (x + n - 1) (Z.lnot (n - 1)).

Definition mm_init_npages (free_mem_start free_mem_end : Z) : Z :=
  u64 (free_mem_end - free_mem_start) / (BUDDY_PAGE_SIZE + SIZEOF_PAGE).

Definition mm_init_start_vaddr (free_mem_start free_mem_end : Z) : Z :=
  u64 (ROUND_UP (free_mem_start + mm_init_npages free_mem_start free_mem_end * SIZEOF_PAGE)
                BUDDY_PAGE_SIZE).

(** ** Examples *)

Definition behind (n : Z) : gmap Z page :=
  list_to_map (map (λ i, (n + Z.of_nat i, zero_page)) (seq 0 16)).

Example init_12_pages :
  match init_buddy 4096 12 (behind 12) with
  | Done _ z => map list_head (take 4 (free_lists z)) = [[]; []; [8]; [0]]
  | _ => False
  end.
Proof. vm_compute. reflexivity. Qed.

(** ** Specification *)

Import Tiling.

Definition NORDERS : nat := Z.to_nat BUDDY_MAX_ORDER.

(** [(i, k)] is a block on the free list of order [k]. *)
Definition free_blk (z : global_mem) (b : block) : Prop :=
  0 ≤ b.2 ∧ ∃ l, free_lists z !! Z.to_nat b.2 = Some l ∧ b.1 ∈ list_head l.

Definition roundup_max (n : Z) : Z := 2 ^ 13 * ((n + 2 ^ 13 - 1) / 2 ^ 13).

(** The allocator invariant, with [B] the blocks that are not free. *)
Record wf (z : global_mem) (B : gset block) : Prop := {
  wf_len : length (free_lists z) = NORDERS;
  wf_lists : ∀ k l, free_lists z !! k = Some l →
    NoDup (list_head l) ∧ nr_free l = u64 (Z.of_nat (length (list_head l)));
  wf_flag : ∀ i k, free_blk z (i, k) →
    ∃ p, pages z !! i = Some p ∧ is_buddy p = true ∧ order p = k;
  wf_back : ∀ i p, pages z !! i = Some p → is_buddy p = true → free_blk z (i, order p);
  wf_tiles : tiles BUDDY_MAX_ORDER (page_num z) (λ b, free_blk z b ∨ b ∈ B);
  wf_sep : ∀ b, free_blk z b → b ∉ B;
  wf_coalesced : ∀ i k, free_blk z (i, k) → k < BUDDY_MAX_ORDER - 1 →
    ¬ free_blk z (Z.lxor i (2 ^ k), k);
  wf_meta : ∀ i, 0 ≤ i < roundup_max (page_num z) → is_Some (pages z !! i)
}.

(** The metadata of a handed-out block records its order. *)
Definition orders_ok (z : global_mem) (A : gset block) : Prop :=
  ∀ i k, (i, k) ∈ A → ∃ p, pages z !! i = Some p ∧ order p = k.

Definition zone_ok (z : global_mem) (A : gset block) : Prop := wf z A ∧ orders_ok z A.

(** ** The primitive steps as functions on the zone *)

Definition upd_list (k : Z) (f : free_list → free_list) : global_mem → global_mem :=
  with_lists (alter f (Z.to_nat k)).

Definition upd_page (i : Z) (f : page → page) : global_mem → global_mem := with_pages (alter f i).

Definition buddy_on (k : Z) (p : page) : page :=
  mk_page (Z.lor (flags p) (Z.shiftl 1 PG_buddy)) k (slab p).

Definition buddy_off (p : page) : page :=
  mk_page (Z.ldiff (flags p) (Z.shiftl 1 PG_buddy)) 0 (slab p).

Definition zadd (i k : Z) (z : global_mem) : global_mem :=
  upd_page i (buddy_on k) (upd_list k (nr_free_inc ∘ list_add i) z).

Definition zdel (i k : Z) (z : global_mem) : global_mem :=
  upd_page i buddy_off (upd_list k nr_free_dec (with_lists (map (unlink i)) z)).

Lemma set_page_ok i f z : is_Some (pages z !! i) → set_page i f z = Done tt (upd_page i f z).
Proof.
  intros [p Hp]. unfold set_page, page_at, bind, get, need. rewrite Hp. cbv beta iota.
  unfold modify, upd_page, with_pages, ret. do 2 f_equal. apply map_eq. intros j.
  rewrite lookup_insert, lookup_alter. repeat case_decide; subst; try done. by rewrite Hp.
Qed.

Lemma page_at_ok i z : is_Some (pages z !! i) → ∃ p, page_at i z = Done p z ∧ pages z !! i = Some p.
Proof.
  intros [p Hp]. exists p. unfold page_at, bind, get, need. by rewrite Hp.
Qed.

Lemma list_at_ok k z : 0 ≤ k < Z.of_nat (length (free_lists z)) →
  ∃ l, list_at k z = Done l z ∧ free_lists z !! Z.to_nat k = Some l.
Proof.
  intros Hk. destruct (lookup_lt_is_Some_2 (free_lists z) (Z.to_nat k)) as [l Hl]; [lia|].
  exists l. unfold list_at, bind, get, need. rewrite (proj2 (Z.ltb_ge k 0)) by lia. by rewrite Hl.
Qed.

Lemma set_list_ok k f z : 0 ≤ k < Z.of_nat (length (free_lists z)) →
  set_list k f z = Done tt (upd_list k f z).
Proof.
  intros Hk. destruct (list_at_ok k z Hk) as (l & E & Hl). unfold set_list, bind. rewrite E.
  unfold modify, upd_list, with_lists. do 2 f_equal. apply list_eq. intros j.
  rewrite list_lookup_insert, list_lookup_alter. apply lookup_lt_Some in Hl as Hlt.
  repeat case_decide; subst; try done; try tauto. by rewrite Hl.
Qed.

Lemma list_del_ok i k z : free_blk z (i, k) →
  list_del i z = Done tt (with_lists (map (unlink i)) z).
Proof.
  intros (_ & l & Hl & Hi). unfold list_del, bind, get. rewrite bool_decide_true; [done|].
  apply Exists_exists. exists l. split; [|done]. by apply list_elem_of_lookup_2 in Hl.
Qed.

Lemma length_upd_list k f z : length (free_lists (upd_list k f z)) = length (free_lists z).
Proof. unfold upd_list. simpl. apply length_alter. Qed.

Lemma upd_list_compose k f g z : upd_list k g (upd_list k f z) = upd_list k (g ∘ f) z.
Proof.
  unfold upd_list, with_lists. simpl. f_equal. apply list_eq. intros j.
  rewrite !list_lookup_alter. repeat case_decide; try done. by destruct (free_lists z !! _).
Qed.

Lemma is_buddy_bit p : is_buddy p = Z.testbit (flags p) 1.
Proof.
  unfold is_buddy. change (Z.shiftl 1 PG_buddy) with (2 ^ 1).
  destruct (Z.eqb_spec (Z.land (flags p) (2 ^ 1)) 0) as [E|E]; simpl.
  - assert (Z.testbit (Z.land (flags p) (2 ^ 1)) 1 = false) as T by (rewrite E; apply Z.bits_0).
    rewrite Z.land_spec, Z.pow2_bits_true, andb_true_r in T by lia. done.
  - destruct (Z.testbit (flags p) 1) eqn:T; [done|]. exfalso. apply E.
    apply Z.bits_inj'. intros m Hm. rewrite Z.land_spec, Z.bits_0.
    destruct (Z.eq_dec m 1) as [->|]; [by rewrite T|]. by rewrite Z.pow2_bits_false, andb_false_r by lia.
Qed.

Lemma is_buddy_on k p : is_buddy (buddy_on k p) = true.
Proof. rewrite is_buddy_bit. unfold buddy_on. cbn [flags]. by rewrite Z.lor_spec, orb_true_r. Qed.

Lemma is_buddy_off p : is_buddy (buddy_off p) = false.
Proof. rewrite is_buddy_bit. unfold buddy_off. cbn [flags]. by rewrite Z.ldiff_spec, andb_false_r. Qed.

Lemma lookup_upd_page i f z j :
  pages (upd_page i f z) !! j = if decide (i = j) then f <$> pages z !! i else pages z !! j.
Proof. unfold upd_page. simpl. apply lookup_alter. Qed.

Lemma upd_page_is_Some i f z j : is_Some (pages (upd_page i f z) !! j) ↔ is_Some (pages z !! j).
Proof. rewrite lookup_upd_page. case_decide; [subst; apply fmap_is_Some|done]. Qed.

(** ** Free blocks after each step *)

Lemma free_blk_zadd i k z b : 0 ≤ k < Z.of_nat (length (free_lists z)) →
  free_blk (zadd i k z) b ↔ free_blk z b ∨ b = (i, k).
Proof.
  intros Hk. unfold free_blk, zadd. simpl. rewrite list_lookup_alter.
  destruct b as [j o]. simpl. split.
  - intros (Ho & l & Hl & Hj). case_decide as E.
    + assert (k = o) by lia. subst o. destruct (free_lists z !! Z.to_nat k) as [l0|] eqn:E0; [|done].
      injection Hl as <-. simpl in Hj. apply elem_of_cons in Hj as [->|Hj]; [by right|].
      left. split; [done|]. eauto.
    + left. split; [done|]. eauto.
  - intros [(Ho & l & Hl & Hj)|[= -> ->]].
    + split; [done|]. case_decide as E; [|eauto]. rewrite E, Hl. simpl.
      eexists. split; [done|]. simpl. by right.
    + split; [lia|]. rewrite decide_True by done.
      destruct (lookup_lt_is_Some_2 (free_lists z) (Z.to_nat k)) as [l Hl]; [lia|].
      rewrite Hl. simpl. eexists. split; [done|]. by left.
Qed.

Lemma free_blk_zdel i k z b : free_blk (zdel i k z) b ↔ free_blk z b ∧ b.1 ≠ i.
Proof.
  unfold free_blk, zdel. simpl. rewrite list_lookup_alter, !list_lookup_fmap.
  destruct b as [j o]. simpl. split.
  - intros (Ho & l & Hl & Hj). case_decide as E.
    + rewrite E in Hl. destruct (free_lists z !! Z.to_nat o) as [l0|]; [|done].
      injection Hl as <-. simpl in Hj. apply list_elem_of_filter in Hj as [? ?]. split; eauto.
    + destruct (free_lists z !! Z.to_nat o) as [l0|]; [|done].
      injection Hl as <-. simpl in Hj. apply list_elem_of_filter in Hj as [? ?]. split; eauto.
  - intros ((Ho & l & Hl & Hj) & Hne). split; [done|].
    assert (j ∈ filter (λ x, x ≠ i) (list_head l)) as F by by apply list_elem_of_filter.
    case_decide as E; [rewrite E|]; rewrite Hl; simpl; eexists; (split; [done|]); exact F.
Qed.

Lemma free_blk_pages i f z b : free_blk (upd_page i f z) b ↔ free_blk z b.
Proof. done. Qed.

Lemma roundup_ge n : n ≤ roundup_max n.
Proof.
  unfold roundup_max. pose proof (Z.div_mod (n + 2 ^ 13 - 1) (2 ^ 13) ltac:(lia)).
  pose proof (Z.mod_pos_bound (n + 2 ^ 13 - 1) (2 ^ 13) ltac:(lia)). lia.
Qed.

(** ** The invariant under each step *)

Lemma wf_block z B b : wf z B → free_blk z b ∨ b ∈ B → block_ok BUDDY_MAX_ORDER (page_num z) b.
Proof. intros W H. by apply (tiles_ok _ _ _ (wf_tiles _ _ W)). Qed.

Lemma wf_page z B b : wf z B → free_blk z b ∨ b ∈ B → is_Some (pages z !! b.1).
Proof.
  intros W H. destruct (wf_block _ _ _ W H) as (H1 & H2 & H3 & H4).
  pose proof (pow2_pos b.2). pose proof (roundup_ge (page_num z)). apply (wf_meta _ _ W). lia.
Qed.

Lemma wf_same z B b c p : wf z B → free_blk z b ∨ b ∈ B → free_blk z c ∨ c ∈ B →
  covers b p → covers c p → b = c.
Proof. intros W. apply (tiles_disjoint _ _ _ (wf_tiles _ _ W)). Qed.

Lemma wf_start z B i k j : wf z B → free_blk z (i, k) ∨ (i, k) ∈ B →
  free_blk z (i, j) ∨ (i, j) ∈ B → k = j.
Proof. intros W. apply (tiles_start _ _ _ _ _ _ (wf_tiles _ _ W)). Qed.

Lemma u64_add_1 n : u64 (u64 n + 1) = u64 (n + 1).
Proof. unfold u64. by rewrite Zplus_mod_idemp_l. Qed.

Lemma u64_sub_1 n : u64 (u64 n - 1) = u64 (n - 1).
Proof. unfold u64. by rewrite Zminus_mod_idemp_l. Qed.

(** A block outside the free lists is put on its list. *)
Lemma wf_zadd z B i k : wf z ({[(i, k)]} ∪ B) → (i, k) ∉ B →
  (k < BUDDY_MAX_ORDER - 1 → ¬ free_blk z (Z.lxor i (2 ^ k), k)) → wf (zadd i k z) B.
Proof.
  intros W HB Hmax.
  destruct (wf_block _ _ (i, k) W) as (K1 & K2 & K3 & K4); [set_solver|]. simpl in *.
  assert (0 ≤ k < Z.of_nat (length (free_lists z))) as Hk 
    by (rewrite (wf_len _ _ W); unfold NORDERS, BUDDY_MAX_ORDER in *; lia).
  assert (is_Some (pages z !! i)) as [p0 Hp0] by (apply (wf_page _ _ (i, k) W); set_solver).
  assert (¬ free_blk z (i, k)) as Hnf.
  { intros Hf. apply (wf_sep _ _ W) in Hf. set_solver. }
  pose proof (λ b, free_blk_zadd i k z b Hk) as FB.
  split.
  - unfold zadd. simpl. rewrite length_alter. apply (wf_len _ _ W).
  - unfold zadd. simpl. intros o l Hl. rewrite list_lookup_alter in Hl. case_decide as E.
    + destruct (free_lists z !! Z.to_nat k) as [l0|] eqn:E0; [|done]. injection Hl as <-. simpl.
      destruct (wf_lists _ _ W _ _ E0) as [N1 N2]. split.
      * apply NoDup_cons. split; [|done]. intros Hi. apply Hnf. split; [simpl; lia|]. eauto.
      * rewrite N2, u64_add_1. f_equal. lia.
    + by apply (wf_lists _ _ W) in Hl.
  - intros j o Hf. apply FB in Hf as [Hf|[= -> ->]].
    + destruct (wf_flag _ _ W _ _ Hf) as (p & Hp & Hb & Ho). exists p.
      unfold zadd. rewrite lookup_upd_page. rewrite decide_False; [done|].
      intros <-. apply Hnf. rewrite (wf_start _ _ i k o W); [done|set_solver|by left].
    + unfold zadd. rewrite lookup_upd_page, decide_True by done. simpl. rewrite Hp0. simpl.
      eexists. split; [done|]. by rewrite is_buddy_on.
  - intros j p Hp Hb. apply FB. unfold zadd in Hp. rewrite lookup_upd_page in Hp. case_decide as E.
    + subst j. simpl in Hp. rewrite Hp0 in Hp. injection Hp as <-. by right.
    + left. by apply (wf_back _ _ W).
  - eapply tiles_ext; [|exact (wf_tiles _ _ W)]. intros b. simpl. rewrite FB. set_solver.
  - intros b Hf. apply FB in Hf as [Hf| ->]; [|done]. apply (wf_sep _ _ W) in Hf. set_solver.
  - intros j o Hf Ho Hf'. apply FB in Hf, Hf'. destruct Hf as [Hf|[= -> ->]].
    + destruct Hf' as [Hf'|[= E ->]]; [by apply (wf_coalesced _ _ W _ _ Hf Ho)|].
      apply Hmax; [done|]. rewrite <- E, Z.lxor_assoc, Z.lxor_nilpotent, Z.lxor_0_r. done.
    + destruct Hf' as [Hf'|[= E]]; [by apply Hmax|].
      assert (Z.testbit (Z.lxor i (2 ^ k)) k = Z.testbit i k) as T by by rewrite E.
      rewrite Z.lxor_spec, Z.pow2_bits_true in T by lia. by destruct (Z.testbit i k).
  - intros j Hj. unfold zadd. apply upd_page_is_Some. by apply (wf_meta _ _ W).
Qed.

Lemma filter_out_one i (l : list Z) : NoDup l → i ∈ l →
  S (length (filter (λ j, j ≠ i) l)) = length l.
Proof.
  intros ND Hi. apply list_elem_of_split in Hi as (l1 & l2 & ->).
  apply NoDup_app in ND as (N1 & N2 & N3). apply NoDup_cons in N3 as [N3 _].
  assert (∀ l0 : list Z, i ∉ l0 → filter (λ j, j ≠ i) l0 = l0) as F.
  { intros l0. induction l0 as [|x l0 IH]; [done|]. intros Hn.
    rewrite filter_cons_True by set_solver. f_equal. set_solver. }
  rewrite filter_app, filter_cons_False by tauto.
  rewrite !F by set_solver. rewrite !length_app. simpl. lia.
Qed.

(** A free block is taken off its list. *)
Lemma wf_zdel z B i k : wf z B → free_blk z (i, k) → wf (zdel i k z) ({[(i, k)]} ∪ B).
Proof.
  intros W Hf.
  assert (∀ b, free_blk (zdel i k z) b ↔ free_blk z b ∧ b ≠ (i, k)) as FB.
  { intros [j o]. rewrite free_blk_zdel. simpl. split; intros [H1 H2]; (split; [done|]).
    - intros [= -> ->]. done.
    - intros ->. apply H2. f_equal. eapply wf_start; eauto. }
  split.
  - unfold zdel. simpl. rewrite length_alter, length_map. apply (wf_len _ _ W).
  - unfold zdel. simpl. intros o l Hl. rewrite list_lookup_alter, !list_lookup_fmap in Hl.
    case_decide as E.
    + destruct (free_lists z !! Z.to_nat k) as [l0|] eqn:E0; [|done]. injection Hl as <-. simpl.
      destruct (wf_lists _ _ W _ _ E0) as [N1 N2]. split; [by apply NoDup_filter|].
      destruct Hf as (_ & l' & Hl' & Hi). simpl in *. rewrite E0 in Hl'. injection Hl' as <-.
      rewrite N2, u64_sub_1, <- (filter_out_one i (list_head l0)) by done. f_equal. lia.
    + destruct (free_lists z !! o) as [l0|] eqn:E0; [|done]. injection Hl as <-. simpl.
      destruct (wf_lists _ _ W _ _ E0) as [N1 N2]. split; [by apply NoDup_filter|].
      rewrite N2. do 3 f_equal.
      assert (i ∉ list_head l0) as Hni.
      { intros Hi. destruct Hf as [Hk Hf].
        assert (free_blk z (i, Z.of_nat o)) as Hf2 by (split; [simpl; lia|]; simpl; rewrite Nat2Z.id; eauto).
        assert (k = Z.of_nat o) by (eapply wf_start; eauto; left; by split). lia. }
      revert Hni. generalize (list_head l0). intros l. induction l as [|x l IH]; [done|].
      intros Hn. rewrite filter_cons_True by set_solver. f_equal. apply IH. set_solver.
  - intros j o Hf'. apply FB in Hf' as [Hf' Hne].
    destruct (wf_flag _ _ W _ _ Hf') as (p & Hp & Hb & Ho). exists p.
    unfold zdel. rewrite lookup_upd_page. rewrite decide_False; [done|].
    intros <-. apply Hne. f_equal. eapply wf_start; eauto.
  - intros j p Hp Hb. apply FB. unfold zdel in Hp. rewrite lookup_upd_page in Hp. case_decide as E.
    + subst j. simpl in Hp. destruct (pages z !! i) as [p0|]; [|done]. injection Hp as <-.
      by rewrite is_buddy_off in Hb.
    + split; [by apply (wf_back _ _ W)|]. congruence.
  - eapply tiles_ext; [|exact (wf_tiles _ _ W)]. intros b. simpl. rewrite FB.
    rewrite elem_of_union, elem_of_singleton. destruct (decide (b = (i, k))) as [->|]; tauto.
  - intros b Hb. apply FB in Hb as [Hb Hne]. apply (wf_sep _ _ W) in Hb. set_solver.
  - intros j o Ha Ho Hb. apply FB in Ha as [Ha _], Hb as [Hb _]. by apply (wf_coalesced _ _ W _ _ Ha Ho).
  - intros j Hj. unfold zdel. apply upd_page_is_Some. by apply (wf_meta _ _ W).
Qed.

(** Changing only which outside blocks there are. *)
Lemma wf_retile z B B' : wf z B → (∀ b, free_blk z b → b ∉ B') →
  tiles BUDDY_MAX_ORDER (page_num z) (λ b, free_blk z b ∨ b ∈ B') → wf z B'.
Proof. intros [] H1 H2. by split. Qed.

Lemma wf_split z B i k : 0 ≤ k → wf z ({[(i, k + 1)]} ∪ B) → (i, k + 1) ∉ B →
  wf z ({[(i + 2 ^ k, k)]} ∪ ({[(i, k)]} ∪ B)) ∧
  ((i, k) ∉ B) ∧ ((i + 2 ^ k, k) ∉ ({[(i, k)]} ∪ B : gset block)) ∧ ¬ free_blk z (i, k).
Proof.
  intros Hk W HB. pose proof (pow2_pos k Hk) as Hp.
  assert (∀ b, b ∈ B ∨ free_blk z b → b ≠ (i, k) ∧ b ≠ (i + 2 ^ k, k)) as X.
  { intros b Hb. assert (b ≠ (i, k + 1)) as Hn.
    { intros ->. destruct Hb as [|Hb]; [done|]. apply (wf_sep _ _ W) in Hb. set_solver. }
    split; intros ->; apply Hn.
    - eapply (wf_same z _ _ _ i W); [set_solver|set_solver|..]; unfold covers; simpl;
        rewrite ?pow2_succ; lia.
    - eapply (wf_same z _ _ _ (i + 2 ^ k) W); [set_solver|set_solver|..]; unfold covers; simpl;
        rewrite ?pow2_succ; lia. }
  split; [|split; [|split]].
  - apply (wf_retile z _ _ W).
    + intros b Hb. pose proof (X b (or_intror Hb)). apply (wf_sep _ _ W) in Hb. set_solver.
    + eapply tiles_ext; [|apply (tiles_split _ _ _ i k Hk (wf_tiles _ _ W)); set_solver].
      intros b. unfold split_blocks. rewrite !elem_of_union, !elem_of_singleton. split.
      * intros [[[H|[H|H]] Hn]|[H|H]]; tauto.
      * intros [H|[H|[H|H]]]; try tauto.
        { left. split; [tauto|]. intros ->. apply (wf_sep _ _ W) in H. set_solver. }
        { left. split; [tauto|]. intros ->. done. }
  - intros H. by destruct (X _ (or_introl H)).
  - intros H. apply elem_of_union in H as [H|H]; [|by destruct (X _ (or_introl H))].
    apply elem_of_singleton in H. injection H. lia.
  - intros H. by destruct (X _ (or_intror H)).
Qed.

Lemma wf_merge z B i k : 0 ≤ k < BUDDY_MAX_ORDER - 1 → i mod 2 ^ (k + 1) = 0 →
  wf z ({[(i + 2 ^ k, k)]} ∪ ({[(i, k)]} ∪ B)) → (i, k) ∉ B → (i + 2 ^ k, k) ∉ B →
  wf z ({[(i, k + 1)]} ∪ B) ∧ ((i, k + 1) ∉ B).
Proof.
  intros Hk Ha W H1 H2. pose proof (pow2_pos k ltac:(lia)) as Hp.
  assert (∀ b, b ∈ B ∨ free_blk z b → b ≠ (i, k + 1)) as X.
  { intros b Hb ->. assert ((i, k + 1) = (i, k)) as E.
    { eapply (wf_same z _ _ _ i W); [set_solver|set_solver|..]; unfold covers; simpl;
        rewrite ?pow2_succ; lia. }
    injection E. lia. }
  split; [|intros H; by apply (X _ (or_introl H))].
  apply (wf_retile z _ _ W).
  - intros b Hb. pose proof (X b (or_intror Hb)). apply (wf_sep _ _ W) in Hb. set_solver.
  - eapply tiles_ext; [|eapply (tiles_merge _ _ _ i k); [lia|lia|done|exact (wf_tiles _ _ W)|set_solver..]].
    intros b. unfold merge_blocks. rewrite !elem_of_union, !elem_of_singleton. split; [tauto|].
    intros [H|[H|H]]; [|tauto|].
    + left. split; [tauto|]. apply (wf_sep _ _ W) in H. set_solver.
    + left. split; [tauto|]. split; intros ->; done.
Qed.

(** ** What the steps leave alone *)

(** Everything of a zone that no buddy operation changes. *)
Definition same_zone (z z' : global_mem) : Prop :=
  page_num z' = page_num z ∧ start_addr z' = start_addr z ∧ end_addr z' = end_addr z ∧
  ∀ j, slab <$> pages z' !! j = slab <$> pages z !! j.

Lemma same_zone_refl z : same_zone z z.
Proof. done. Qed.

Lemma same_zone_trans z1 z2 z3 : same_zone z1 z2 → same_zone z2 z3 → same_zone z1 z3.
Proof. intros (A1 & A2 & A3 & A4) (B1 & B2 & B3 & B4). repeat split; try congruence. Qed.

Lemma same_zone_page i f z : (∀ p, slab (f p) = slab p) → same_zone z (upd_page i f z).
Proof.
  intros Hf. repeat split. intros j. rewrite lookup_upd_page. case_decide; [subst|done].
  destruct (pages z !! j); simpl; [by rewrite Hf|done].
Qed.

Lemma same_zone_zadd i k z : same_zone z (zadd i k z).
Proof. unfold zadd. apply (same_zone_trans _ (upd_list k (nr_free_inc ∘ list_add i) z)); [done|]. by apply same_zone_page. Qed.

Lemma same_zone_zdel i k z : same_zone z (zdel i k z).
Proof.
  unfold zdel. apply (same_zone_trans _ (upd_list k nr_free_dec (with_lists (map (unlink i)) z))); [done|].
  by apply same_zone_page.
Qed.

#[local] Hint Resolve same_zone_refl same_zone_trans same_zone_zadd same_zone_zdel : buddy.

(** The metadata of the outside blocks [B] is untouched. *)
Definition keeps (B : gset block) (z z' : global_mem) : Prop :=
  ∀ j o, (j, o) ∈ B → pages z' !! j = pages z !! j.

Lemma keeps_trans B z1 z2 z3 : keeps B z1 z2 → keeps B z2 z3 → keeps B z1 z3.
Proof. intros H1 H2 j o Hj. rewrite (H2 j o Hj). by apply (H1 j o). Qed.

Lemma keeps_mono B C z z' : B ⊆ C → keeps C z z' → keeps B z z'.
Proof. intros H K j o Hj. apply (K j o). set_solver. Qed.

Lemma keeps_page z B i k f : wf z ({[(i, k)]} ∪ B) → (i, k) ∉ B → keeps B z (upd_page i f z).
Proof.
  intros W H j o Hj. rewrite lookup_upd_page, decide_False; [done|]. intros ->. apply H.
  rewrite (wf_start _ _ j k o W); set_solver.
Qed.

Lemma keeps_zadd z B i k : wf z ({[(i, k)]} ∪ B) → (i, k) ∉ B → keeps B z (zadd i k z).
Proof. intros W H j o Hj. by apply (keeps_page z B i k (buddy_on k) W H j o). Qed.

Lemma keeps_zdel z B i k : wf z B → free_blk z (i, k) → keeps B z (zdel i k z).
Proof.
  intros W H j o Hj. unfold zdel. rewrite lookup_upd_page, decide_False; [done|]. intros ->.
  apply (wf_sep _ _ W) in H as H'. apply H'. rewrite (wf_start _ _ j k o W); eauto.
Qed.

Lemma orders_ok_keeps A z z' : keeps A z z' → orders_ok z A → orders_ok z' A.
Proof. intros K O i k Hi. rewrite (K i k Hi). by apply O. Qed.

(** Flag or order changes of an outside page that leave [PG_buddy] alone. *)
Lemma wf_upd_page z B i f :
  (∀ p, is_buddy (f p) = is_buddy p) → (∀ k, ¬ free_blk z (i, k)) → wf z B → wf (upd_page i f z) B.
Proof.
  intros Hb Hn W. split; try apply W.
  - intros j k Hf. destruct (wf_flag _ _ W _ _ Hf) as (p & Hp & ?). exists p.
    rewrite lookup_upd_page, decide_False; [done|]. intros <-. by apply (Hn k).
  - intros j p Hp Hbp. rewrite lookup_upd_page in Hp. case_decide as E; [|by apply (wf_back _ _ W)].
    subst j. destruct (pages z !! i) as [p0|] eqn:E0; [|done]. injection Hp as <-.
    rewrite Hb in Hbp. exfalso. apply (Hn (order p0)). by apply (wf_back _ _ W).
  - intros j Hj. apply upd_page_is_Some. by apply (wf_meta _ _ W).
Qed.

Lemma outside_not_free z B i k : wf z B → (i, k) ∈ B → ∀ o, ¬ free_blk z (i, o).
Proof.
  intros W H o Hf. apply (wf_sep _ _ W) in Hf as Hn. apply Hn.
  rewrite <- (wf_start _ _ i k o W); eauto.
Qed.

(** ** Splitting and merging *)

Lemma split_spec n z B pg low high :
  n = Z.to_nat (high - low) → 0 ≤ low ≤ high →
  wf z ({[(pg, high)]} ∪ B) → (pg, high) ∉ B → ∃ z',
  split n pg low high (2 ^ high) z = Done tt z' ∧ wf z' ({[(pg, low)]} ∪ B) ∧ ((pg, low) ∉ B) ∧
  same_zone z z' ∧ keeps B z z' ∧ pages z' !! pg = pages z !! pg.
Proof.
  revert z high. induction n as [|n IH]; intros z high Hn Hl W HB.
  { assert (high = low) as -> by lia. exists z. split_and!; done. }
  simpl. rewrite (proj2 (Z.ltb_lt low high)) by lia.
  set (k := high - 1). assert (high = k + 1) as Hk by lia. rewrite Hk in W, HB |- *.
  assert (Z.shiftr (2 ^ (k + 1)) 1 = 2 ^ k) as ->.
  { rewrite Z.shiftr_div_pow2, pow2_succ by lia. change (2 ^ 1) with 2.
    rewrite Z.mul_comm, Z.div_mul; lia. }
  destruct (wf_split z B pg k ltac:(lia) W HB) as (W1 & N1 & N2 & N3).
  destruct (wf_block z _ (pg, k + 1) W ltac:(set_solver)) as (K1 & K2 & K3 & K4). simpl in *.
  assert (is_Some (pages z !! (pg + 2 ^ k))) as HS
    by (apply (wf_page _ _ (pg + 2 ^ k, k) W1); set_solver).
  assert (0 ≤ k < Z.of_nat (length (free_lists z))) as Hlen
    by (rewrite (wf_len _ _ W); unfold NORDERS, BUDDY_MAX_ORDER in *; lia).
  assert (wf (zadd (pg + 2 ^ k) k z) ({[(pg, k)]} ∪ B)) as W2.
  { apply wf_zadd; [done|done|]. intros _ Hf. apply N3.
    replace (Z.lxor (pg + 2 ^ k) (2 ^ k)) with pg in Hf; [done|].
    rewrite <- lxor_bit_clear by (done || lia). by rewrite Z.lxor_assoc, Z.lxor_nilpotent, Z.lxor_0_r. }
  destruct (IH (zadd (pg + 2 ^ k) k z) k) as (z' & E & W' & N' & S' & K' & P'); [lia|lia|done|done|].
  pose proof (keeps_zadd z _ _ _ W1 N2) as KA.
  exists z'. split.
  { unfold bind. destruct (page_at_ok _ _ HS) as (p & -> & _).
    rewrite set_list_ok by done. rewrite set_list_ok by (rewrite length_upd_list; done).
    rewrite upd_list_compose. unfold set_page_order_buddy.
    rewrite set_page_ok by done. exact E. }
  split_and!; try done.
  - apply (same_zone_trans _ _ _ (same_zone_zadd (pg + 2 ^ k) k z) S').
  - eapply keeps_trans; [|exact K']. eapply keeps_mono; [|exact KA]. set_solver.
  - rewrite P'. apply (KA pg k). set_solver.
Qed.

Definition head_on (ord : Z) (p : page) : page :=
  mk_page (Z.lor (flags p) (Z.shiftl 1 PG_head)) ord (slab p).

Definition head_off (p : page) : page :=
  mk_page (Z.ldiff (flags p) (Z.shiftl 1 PG_head)) (order p) (slab p).

Lemma is_buddy_head_on o p : is_buddy (head_on o p) = is_buddy p.
Proof. rewrite !is_buddy_bit. unfold head_on. cbn [flags]. by rewrite Z.lor_spec, orb_false_r. Qed.

Lemma is_buddy_head_off p : is_buddy (head_off p) = is_buddy p.
Proof. rewrite !is_buddy_bit. unfold head_off. cbn [flags]. by rewrite Z.ldiff_spec, andb_true_r. Qed.

(** Taking the first block of list [k] and splitting it down to [ord]. *)
Lemma take_block z A ord k pg l rest :
  zone_ok z A → 0 ≤ ord ≤ k → k < BUDDY_MAX_ORDER →
  list_at k z = Done l z → free_lists z !! Z.to_nat k = Some l → list_head l = pg :: rest → ∃ z',
  (list_del pg ;; set_list k nr_free_dec ;; clear_page_order_buddy pg ;;
   split (Z.to_nat (k - ord)) pg ord k (Z.shiftl 1 k) ;;
   set_page pg (λ p, mk_page (Z.lor (flags p) (Z.shiftl 1 PG_head)) ord (slab p)) ;;
   ret (Some pg)) z = Done (Some pg) z' ∧
  zone_ok z' ({[(pg, ord)]} ∪ A) ∧ ((pg, ord) ∉ A) ∧ same_zone z z' ∧ keeps A z z' ∧
  free_blk z (pg, k).
Proof.
  intros [W O] Ho Hk _ Hl Hpg.
  assert (free_blk z (pg, k)) as Hf.
  { split; [simpl; lia|]. exists l. split; [done|]. rewrite Hpg. by left. }
  pose proof (wf_zdel z A pg k W Hf) as W1. pose proof (wf_sep _ _ W _ Hf) as N1.
  assert (0 ≤ k < Z.of_nat (length (free_lists z))) as Hlen
    by (rewrite (wf_len _ _ W); unfold NORDERS, BUDDY_MAX_ORDER in *; lia).
  destruct (split_spec (Z.to_nat (k - ord)) (zdel pg k z) A pg ord k)
    as (z2 & E2 & W2 & N2 & S2 & K2 & P2); [done|lia|done|done|].
  assert (is_Some (pages z2 !! pg)) as HS2 by (apply (wf_page _ _ (pg, ord) W2); set_solver).
  exists (upd_page pg (head_on ord) z2). split_and!; [|split|..].
  - unfold bind. rewrite (list_del_ok pg k) by done.
    rewrite set_list_ok by (simpl; rewrite length_map; done).
    unfold clear_page_order_buddy. rewrite set_page_ok by (apply (wf_page _ _ (pg, k) W); by left).
    rewrite Z.shiftl_1_l.
    match goal with |- context [split _ _ _ _ _ ?w] => change w with (zdel pg k z) end. rewrite E2.
    by rewrite set_page_ok by done.
  - apply wf_upd_page; [by apply is_buddy_head_on| |done].
    apply (outside_not_free z2 _ pg ord W2). set_solver.
  - intros i o Hi. apply elem_of_union in Hi as [Hi%elem_of_singleton|Hi].
    + injection Hi as -> ->. rewrite lookup_upd_page, decide_True by done.
      destruct HS2 as [p ->]. simpl. eexists. split; done.
    + rewrite (keeps_page z2 A pg ord (head_on ord) W2 N2 i o Hi), (K2 i o Hi).
      rewrite (keeps_zdel z A pg k W Hf i o Hi). by apply O.
  - done.
  - apply (same_zone_trans _ z2); [|by apply same_zone_page].
    apply (same_zone_trans _ (zdel pg k z)); [apply same_zone_zdel|done].
  - apply (keeps_trans _ _ z2); [|by apply (keeps_page z2 A pg ord)].
    apply (keeps_trans _ _ (zdel pg k z)); [by apply keeps_zdel|done].
  - done.
Qed.

Lemma alloc_from_spec n z A ord cur :
  zone_ok z A → 0 ≤ ord ≤ cur → n = Z.to_nat (BUDDY_MAX_ORDER - cur) →
  (∀ i k, ord ≤ k < cur → ¬ free_blk z (i, k)) → ∃ r z',
  alloc_from n ord cur z = Done r z' ∧ same_zone z z' ∧ keeps A z z' ∧
  match r with
  | None => z' = z ∧ ∀ i k, ord ≤ k → ¬ free_blk z (i, k)
  | Some pg => zone_ok z' ({[(pg, ord)]} ∪ A) ∧ ((pg, ord) ∉ A) ∧
      ∃ k, ord ≤ k ∧ free_blk z (pg, k)
  end.
Proof.
  intros ZO Ho. revert cur Ho. induction n as [|n IH]; intros cur Ho Hn Hnone.
  - exists None, z. split_and!; try done. intros i k Hk Hf. apply (Hnone i k); [|done].
    destruct (wf_block _ _ _ (proj1 ZO) (or_introl Hf)) as (? & _). simpl in *. lia.
  - simpl. rewrite (proj2 (Z.ltb_lt cur BUDDY_MAX_ORDER)) by lia.
    destruct (list_at_ok cur z) as (l & E & Hl).
    { rewrite (wf_len _ _ (proj1 ZO)). unfold NORDERS. lia. }
    destruct (list_head l) as [|pg rest] eqn:Hpg.
    + destruct (IH (cur + 1)) as (r & z' & E' & R); [lia|lia| |].
      { intros i k Hk Hf. destruct (decide (k = cur)) as [->|]; [|apply (Hnone i k); [lia|done]].
        destruct Hf as (_ & l' & Hl' & Hi). simpl in *. rewrite Hl in Hl'. injection Hl' as <-.
        rewrite Hpg in Hi. by apply not_elem_of_nil in Hi. }
      exists r, z'. split; [|done]. unfold bind. by rewrite E, Hpg.
    + destruct (take_block z A ord cur pg l rest ZO Ho ltac:(lia) E Hl Hpg)
        as (z' & E' & ? & ? & ? & ? & ?).
      exists (Some pg), z'. split_and!; try done; [|exists cur; split; [lia|done]].
      unfold bind at 1. rewrite E, Hpg. exact E'.
Qed.

(** Allocation.  It returns; a returned block is aligned, was free before and
    is owned by nobody else; a null pointer means that no block of the
    requested order or above is free. *)
Lemma buddy_get_pages_spec z A ord :
  zone_ok z A → 0 ≤ ord < BUDDY_MAX_ORDER → ∃ r z',
  buddy_get_pages ord z = Done r z' ∧ same_zone z z' ∧ keeps A z z' ∧
  match r with
  | None => z' = z ∧ ∀ i k, ord ≤ k → ¬ free_blk z (i, k)
  | Some pg => zone_ok z' ({[(pg, ord)]} ∪ A) ∧ ((pg, ord) ∉ A) ∧
      ∃ k, ord ≤ k ∧ free_blk z (pg, k)
  end.
Proof.
  intros ZO Ho. unfold buddy_get_pages. rewrite (proj2 (Z.leb_gt BUDDY_MAX_ORDER ord)) by lia.
  apply alloc_from_spec; [done|lia|done|lia].
Qed.

(** ** Freeing *)

Lemma buddy_in_meta z B i k : wf z B → (i, k) ∈ B → k < BUDDY_MAX_ORDER - 1 →
  is_Some (pages z !! get_buddy_page i k).
Proof.
  intros W Hi Hk. destruct (wf_block _ _ (i, k) W ltac:(by right)) as (K1 & K2 & K3 & K4). simpl in *.
  unfold BUDDY_MAX_ORDER in *. apply (wf_meta _ _ W). unfold get_buddy_page. rewrite Z.shiftl_1_l.
  pose proof (pow2_pos k ltac:(lia)). pose proof (roundup_ge (page_num z)).
  destruct (buddy_cases i k ltac:(lia) K3) as [(H1 & -> & _)|(H1 & -> & _)].
  - split; [lia|]. assert (2 ^ 13 = 2 ^ (k + 1) * 2 ^ (13 - (k + 1))) as E
      by (rewrite <- Z.pow_add_r; [f_equal; lia|lia|lia]).
    assert (roundup_max (page_num z) mod 2 ^ (k + 1) = 0) as HR.
    { unfold roundup_max. rewrite E, <- Z.mul_assoc, Z.mul_comm. apply Z.mod_mul. pose proof (pow2_pos (k + 1)). lia. }
    apply Z.mod_divide in H1 as [q Hq]; [|pose proof (pow2_pos (k + 1)); lia].
    apply Z.mod_divide in HR as [r Hr]; [|pose proof (pow2_pos (k + 1)); lia].
    rewrite pow2_succ in Hq, Hr by lia. rewrite Hr, Hq. assert (q < r) by nia. nia.
  - apply Z.mod_divide in H1 as [q Hq]; [|pose proof (pow2_pos (k + 1)); lia].
    rewrite pow2_succ in Hq by lia. assert (0 ≤ q) by nia. nia.
Qed.

(** One round of merging: the freed block and its free buddy become the block
    of the next order. *)
Lemma merge_step z A pg ord :
  wf z ({[(pg, ord)]} ∪ A) → (pg, ord) ∉ A → 0 ≤ ord < BUDDY_MAX_ORDER - 1 →
  free_blk z (get_buddy_page pg ord, ord) →
  let z' := zdel (get_buddy_page pg ord) ord z in
  wf z' ({[(get_merge_page pg ord, ord + 1)]} ∪ A) ∧
  ((get_merge_page pg ord, ord + 1) ∉ A) ∧ same_zone z z' ∧ keeps A z z'.
Proof.
  intros W N Ho Hf. cbv zeta. pose proof (wf_zdel z _ _ _ W Hf) as W1.
  destruct (wf_block _ _ (pg, ord) W ltac:(set_solver)) as (K1 & K2 & K3 & K4). simpl in *.
  assert ((get_buddy_page pg ord, ord) ∉ A) as N2 by (apply (wf_sep _ _ W) in Hf; set_solver).
  assert (keeps A z (zdel (get_buddy_page pg ord) ord z)) as K.
  { eapply keeps_mono; [|by apply keeps_zdel]. set_solver. }
  unfold get_buddy_page, get_merge_page in *. rewrite Z.shiftl_1_l in *.
  destruct (buddy_cases pg ord ltac:(lia) K3) as [(H1 & E1 & E2)|(H1 & E1 & E2)]; rewrite E2, E1 in *.
  - destruct (wf_merge _ A pg ord Ho H1 W1 N N2) as [? ?]. split_and!; auto with buddy.
  - assert (pg - 2 ^ ord + 2 ^ ord = pg) as E3 by lia.
    destruct (wf_merge (zdel (pg - 2 ^ ord) ord z) A (pg - 2 ^ ord) ord) as [? ?];
      rewrite ?E3; try done; [|split_and!; auto with buddy].
    by replace ({[(pg, ord)]} ∪ ({[(pg - 2 ^ ord, ord)]} ∪ A)) with
      ({[(pg - 2 ^ ord, ord)]} ∪ ({[(pg, ord)]} ∪ A)) by set_solver.
Qed.

Lemma merge_loop_spec n z A pg ord :
  wf z ({[(pg, ord)]} ∪ A) → (pg, ord) ∉ A → n = Z.to_nat (BUDDY_MAX_ORDER - ord) → ∃ pg' ord' z',
  merge_loop n pg ord z = Done (pg', ord') z' ∧ wf z' ({[(pg', ord')]} ∪ A) ∧ ((pg', ord') ∉ A) ∧
  same_zone z z' ∧ keeps A z z' ∧
  (ord' < BUDDY_MAX_ORDER - 1 → ¬ free_blk z' (Z.lxor pg' (2 ^ ord'), ord')).
Proof.
  revert z pg ord. induction n as [|n IH]; intros z pg ord W N Hn;
    destruct (wf_block _ _ (pg, ord) W ltac:(set_solver)) as (K1 & K2 & K3 & K4); simpl in *; [lia|].
  destruct (Z.ltb_spec ord (BUDDY_MAX_ORDER - 1)) as [Hlt|Hge];
    [|exists pg, ord, z; split_and!; try done; lia].
  destruct (buddy_in_meta z _ pg ord W ltac:(set_solver) Hlt) as [bp Hbp].
  assert (check_buddy (get_buddy_page pg ord) ord z = Done (is_buddy bp && (order bp =? ord)) z) as EC.
  { unfold check_buddy, bind, page_at, get, need. unfold bind. by rewrite Hbp. }
  destruct (is_buddy bp && (order bp =? ord)) eqn:EB.
  - apply andb_true_iff in EB as [EB Eo%Z.eqb_eq].
    pose proof (wf_back _ _ W _ _ Hbp EB) as Hf. rewrite Eo in Hf.
    destruct (merge_step z A pg ord W N ltac:(lia) Hf) as (W1 & N1 & S1 & KK1).
    destruct (IH _ _ _ W1 N1 ltac:(lia)) as (pg' & ord' & z' & E & W' & N' & S' & K' & Hmax).
    exists pg', ord', z'. split_and!; try done.
    + unfold bind. rewrite EC, (list_del_ok _ ord) by done.
      rewrite set_list_ok
        by (simpl; rewrite length_map, (wf_len _ _ W); unfold NORDERS, BUDDY_MAX_ORDER in *; lia).
      unfold clear_page_order_buddy. by rewrite set_page_ok by (simpl; by eexists).
    + eapply same_zone_trans; eauto.
    + eapply keeps_trans; eauto.
  - exists pg, ord, z. unfold bind. rewrite EC. split_and!; try done. intros _ Hf.
    destruct (wf_flag _ _ W _ _ Hf) as (p & Hp & Hb & Ho).
    unfold get_buddy_page in Hbp. rewrite Z.shiftl_1_l, Hp in Hbp. injection Hbp as <-.
    rewrite Hb, Ho, Z.eqb_refl in EB. done.
Qed.

Lemma get_order_ok i z p : pages z !! i = Some p → get_order i z = Done (order p) z.
Proof. intros H. unfold get_order, bind, page_at, get, need. unfold bind. by rewrite H. Qed.

(** Freeing a handed-out block returns and gives all its pages back. *)
Lemma buddy_free_pages_spec z A i k :
  zone_ok z ({[(i, k)]} ∪ A) → (i, k) ∉ A → ∃ z',
  buddy_free_pages i z = Done tt z' ∧ zone_ok z' A ∧ same_zone z z' ∧ keeps A z z'.
Proof.
  intros [W O] N. destruct (O i k ltac:(set_solver)) as (p & Hp & Ho).
  assert (wf (upd_page i head_off z) ({[(i, k)]} ∪ A)) as W1.
  { apply wf_upd_page; [apply is_buddy_head_off| |done].
    apply (outside_not_free z _ i k W). set_solver. }
  pose proof (keeps_page z A i k head_off W N) as K1.
  destruct (merge_loop_spec (Z.to_nat (BUDDY_MAX_ORDER - k)) _ A i k W1 N eq_refl)
    as (pg & ord & z2 & E & W2 & N2 & S2 & K2 & Hmax).
  destruct (wf_block _ _ (pg, ord) W2 ltac:(set_solver)) as (KK & _). simpl in *.
  pose proof (keeps_zadd z2 A pg ord W2 N2) as K3.
  assert (0 ≤ ord < Z.of_nat (length (free_lists z2))) as Hlen
    by (rewrite (wf_len _ _ W2); unfold NORDERS, BUDDY_MAX_ORDER in *; lia).
  exists (zadd pg ord z2). split_and!.
  - unfold buddy_free_pages, bind. rewrite (get_order_ok _ _ _ Hp), Ho, set_page_ok by by eexists.
    match goal with |- context [merge_loop _ _ _ ?w] => change w with (upd_page i head_off z) end.
    rewrite E. simpl. unfold set_page_order_buddy.
    rewrite set_page_ok by (apply (wf_page _ _ (pg, ord) W2); set_solver).
    rewrite set_list_ok by done. rewrite set_list_ok by (rewrite length_upd_list; done).
    by rewrite upd_list_compose.
  - split; [by apply wf_zadd|].
    eapply orders_ok_keeps; [exact K3|]. eapply orders_ok_keeps; [exact K2|].
    eapply orders_ok_keeps; [exact K1|]. intros j o Hj. apply O. set_solver.
  - eapply same_zone_trans; [|apply same_zone_zadd]. eapply same_zone_trans; [|exact S2].
    by apply same_zone_page.
  - eapply keeps_trans; [|exact K3]. by eapply keeps_trans.
Qed.

(** ** Boot *)

(** The blocks of order 0 from page [i] on. *)
Definition singles (i : Z) (m : nat) : gset block :=
  list_to_set (map (λ j, (i + Z.of_nat j, 0)) (seq 0 m)).

Lemma elem_of_singles i m a b : (a, b) ∈ singles i m ↔ b = 0 ∧ i ≤ a < i + Z.of_nat m.
Proof.
  unfold singles. rewrite elem_of_list_to_set, list_elem_of_fmap. split.
  - intros (j & [= -> ->] & Hj%elem_of_seq). lia.
  - intros [-> Ha]. exists (Z.to_nat (a - i)). split; [f_equal; lia|]. apply elem_of_seq. lia.
Qed.

Lemma singles_cons i m : singles i (S m) = {[(i, 0)]} ∪ singles (i + 1) m.
Proof.
  apply set_eq. intros [a b]. rewrite elem_of_union, elem_of_singleton, !elem_of_singles.
  split; [intros [-> H]; destruct (decide (a = i)) as [->|]; [by left|right; lia]|].
  intros [[= -> ->]|H]; lia.
Qed.

Lemma lookup_zeroed n i past j :
  zeroed n i past !! j = if decide (i ≤ j < i + Z.of_nat n) then Some zero_page else past !! j.
Proof.
  revert i. induction n as [|n IH]; intros i; simpl.
  - by rewrite decide_False by lia.
  - rewrite lookup_insert, IH. repeat case_decide; try done; lia.
Qed.

(** What lies behind the metadata array of [n] pages: nothing there has
    [PG_buddy] set, and it is readable up to the largest block boundary. *)
Definition behind_ok (n : Z) (past : gmap Z page) : Prop :=
  (∀ i, n ≤ i < roundup_max n → is_Some (past !! i)) ∧
  (∀ i p, past !! i = Some p → is_buddy p = false).

Lemma free_all_spec n i z : zone_ok z (singles i n) → ∃ z',
  free_all n i z = Done tt z' ∧ zone_ok z' ∅ ∧ same_zone z z'.
Proof.
  revert i z. induction n as [|n IH]; intros i z ZO.
  - exists z. split_and!; [done| |done]. by replace (∅ : gset block) with (singles i 0).
  - rewrite singles_cons in ZO. destruct (buddy_free_pages_spec z (singles (i + 1) n) i 0 ZO)
      as (z1 & E & ZO1 & S1 & _).
    { rewrite elem_of_singles. lia. }
    destruct (IH _ _ ZO1) as (z2 & E2 & ZO2 & S2). exists z2. simpl. unfold bind. rewrite E.
    split_and!; [done|done|]. by eapply same_zone_trans.
Qed.

Lemma init_zone_ok n past va ea : 0 ≤ n → behind_ok n past →
  zone_ok (mk_global_mem n BUDDY_PAGE_SIZE va ea (zeroed (Z.to_nat n) 0 past)
             (replicate NORDERS (mk_free_list [] 0))) (singles 0 (Z.to_nat n)).
Proof.
  intros Hn [H1 H2]. set (z0 := mk_global_mem _ _ _ _ _ _).
  assert (∀ b, ¬ free_blk z0 b) as NF.
  { intros b (_ & l & Hl & Hi). apply lookup_replicate in Hl as [-> _].
    by apply not_elem_of_nil in Hi. }
  assert (∀ i p, pages z0 !! i = Some p → is_buddy p = false) as NB.
  { intros i p. simpl. rewrite lookup_zeroed. case_decide; [intros [= <-]; done|apply H2]. }
  split; [split|].
  - apply length_replicate.
  - intros k l Hl. apply lookup_replicate in Hl as [-> _]. split; [constructor|done].
  - intros i k Hf. by apply NF in Hf.
  - intros i p Hp Hb. apply NB in Hp. congruence.
  - split.
    + intros [i k] [Hf|Hi]; [by apply NF in Hf|]. apply elem_of_singles in Hi as [-> Hi].
      repeat split; simpl; try lia. apply Z.mod_1_r.
    + simpl. intros p Hp. exists (p, 0). split; [right; apply elem_of_singles; lia|].
      unfold covers. simpl. lia.
    + intros [i k] [j o] p [Hf|Hi] [Hf'|Hj]; try (by apply NF in Hf); try (by apply NF in Hf').
      apply elem_of_singles in Hi as [-> Hi], Hj as [-> Hj]. unfold covers. simpl. intros. f_equal. lia.
  - intros b Hf. by apply NF in Hf.
  - intros i k Hf. by apply NF in Hf.
  - simpl. intros i Hi. rewrite lookup_zeroed. case_decide; [by eexists|]. apply H1. lia.
  - intros i k Hi. apply elem_of_singles in Hi as [-> Hi]. simpl. exists zero_page.
    rewrite lookup_zeroed, decide_True by lia. done.
Qed.

Lemma init_buddy_spec va n past : 0 ≤ n → behind_ok n past → ∃ z,
  init_buddy va n past = Done tt z ∧ zone_ok z ∅ ∧ page_num z = n ∧ start_addr z = va ∧
  end_addr z = u64 (va + n * BUDDY_PAGE_SIZE) ∧
  ∀ j, slab <$> pages z !! j = slab <$> zeroed (Z.to_nat n) 0 past !! j.
Proof.
  intros Hn HB. unfold init_buddy.
  destruct (free_all_spec (Z.to_nat n) 0 _ (init_zone_ok n past va (u64 (va + n * BUDDY_PAGE_SIZE)) Hn HB))
    as (z & E & ZO & (S1 & S2 & S3 & S4)). exists z. by split_and!.
Qed.

(** ** Runs of the allocator *)

(** The states the allocator goes through from boot, with the handed-out
    blocks: an allocation that succeeds, and the free of a handed-out block. *)
Inductive reach (va n : Z) (past : gmap Z page) : global_mem → gset block → Prop :=
| reach_init z : init_buddy va n past = Done tt z → reach va n past z ∅
| reach_alloc z A ord pg z' : reach va n past z A → 0 ≤ ord < BUDDY_MAX_ORDER →
    buddy_get_pages ord z = Done (Some pg) z' → reach va n past z' ({[(pg, ord)]} ∪ A)
| reach_free z A pg ord z' : reach va n past z A → (pg, ord) ∈ A →
    buddy_free_pages pg z = Done tt z' → reach va n past z' (A ∖ {[(pg, ord)]}).

Lemma reach_ok va n past z A : 0 ≤ n → behind_ok n past → reach va n past z A →
  zone_ok z A ∧ page_num z = n.
Proof.
  intros Hn HB. induction 1 as [z E|z A ord pg z' _ [IH1 IH2] Ho E|z A pg ord z' _ [IH1 IH2] Hi E].
  - destruct (init_buddy_spec va n past Hn HB) as (z' & E' & ? & ? & _).
    rewrite E in E'. by injection E' as <-.
  - destruct (buddy_get_pages_spec z A ord IH1 Ho) as (r & z2 & E2 & S & _ & R).
    rewrite E in E2. injection E2 as <- <-. destruct R as (? & _). split; [done|]. destruct S. lia.
  - destruct (buddy_free_pages_spec z (A ∖ {[(pg, ord)]}) pg ord) as (z2 & E2 & ? & S & _).
    + replace ({[(pg, ord)]} ∪ A ∖ {[(pg, ord)]}) with A; [done|].
      rewrite <- union_difference_L; [done|set_solver].
    + set_solver.
    + rewrite E in E2. injection E2 as <-. split; [done|]. destruct S. lia.
Qed.

(** With only blocks of order [m] and above handed out, and whole maximal
    blocks managed, every free block has order [m] at least. *)
Lemma coalesced_min z A m b : wf z A → (∀ c, c ∈ A → m ≤ c.2) → m < BUDDY_MAX_ORDER →
  page_num z mod 2 ^ 13 = 0 → free_blk z b → m ≤ b.2.
Proof.
  intros W HA Hmx Hn. destruct b as [i k]. simpl. revert i.
  induction (Z.lt_wf 0 k) as [k _ IH]. intros i Hf.
  destruct (wf_block _ _ _ W (or_introl Hf)) as (K1 & K2 & K3 & K4). simpl in *.
  destruct (Z.le_gt_cases m k) as [|Hne]; [done|]. exfalso. unfold BUDDY_MAX_ORDER in Hmx.
  pose proof (pow2_pos k ltac:(lia)) as Pk.
  assert (∃ g, g mod 2 ^ (k + 1) = 0 ∧ 0 ≤ g ∧ g + 2 ^ (k + 1) ≤ page_num z ∧
    (i = g ∧ Z.lxor i (2 ^ k) = g + 2 ^ k ∨ i = g + 2 ^ k ∧ Z.lxor i (2 ^ k) = g)) as (g & M1 & M2 & M3 & M4).
  { assert (2 ^ 13 = 2 ^ (k + 1) * 2 ^ (13 - (k + 1))) as E
      by (rewrite <- Z.pow_add_r; [f_equal; lia|lia|lia]).
    apply Z.mod_divide in Hn as [c Hc]; [|lia]. pose proof (pow2_pos (k + 1) ltac:(lia)).
    destruct (buddy_cases i k ltac:(lia) K3) as [(H1 & E1 & _)|(H1 & E1 & _)].
    - exists i. split_and!; [done|done| |left; done].
      apply Z.mod_divide in H1 as [q Hq]; [|lia]. rewrite E in Hc.
      rewrite Hc, Hq in *. rewrite pow2_succ in * by lia.
      assert (q < c * 2 ^ (13 - (k + 1))) by nia. nia.
    - exists (i - 2 ^ k). split_and!; [done| | |right; split; [lia|done]].
      + apply Z.mod_divide in H1 as [q Hq]; [|lia]. rewrite pow2_succ in Hq by lia.
        assert (0 ≤ q) by nia. nia.
      + rewrite pow2_succ by lia. lia. }
  set (j := Z.lxor i (2 ^ k)) in *. pose proof M3 as M3'. rewrite pow2_succ in M3' by lia.
  assert (g ≤ j < g + 2 ^ (k + 1) ∧ g ≤ i < g + 2 ^ (k + 1)) as [Rj Ri].
  { rewrite pow2_succ by lia. destruct M4 as [[-> ->]|[-> ->]]; lia. }
  destruct (tiles_cover _ _ _ (wf_tiles _ _ W) j ltac:(lia)) as ([c o] & Hc & Cj).
  destruct (wf_block _ _ _ W Hc) as (L1 & L2 & L3 & L4). simpl in L1, L3.
  destruct (Z.le_gt_cases (k + 1) o) as [Hgt|Hle].
  - (* a larger block covers both *)
    assert ((i, k) = (c, o)) as X; [|injection X; lia].
    apply (wf_same z A _ _ i W); [auto|done|unfold covers; simpl; lia|].
    apply (aligned_covers c o g (k + 1) j i); try done; lia.
  - destruct Hc as [Hc|Hc]; [|specialize (HA _ Hc); simpl in HA; lia].
    destruct (Z.eq_dec o k) as [->|]; [|specialize (IH o ltac:(lia) c Hc); lia].
    (* the buddy itself is free *)
    assert (c = j) as ->; [|by apply (wf_coalesced _ _ W i k Hf); [unfold BUDDY_MAX_ORDER; lia|]].
    assert (j mod 2 ^ k = 0) as J.
    { destruct M4 as [[_ ->]|[_ ->]]; [apply aligned_shift; [lia|]|]; apply aligned_half; done || lia. }
    unfold covers in Cj. simpl in Cj.
    apply Z.mod_divide in J as [q1 Q1]; [|lia]. apply Z.mod_divide in L3 as [q2 Q2]; [|lia].
    assert (q1 = q2) by nia. lia.
Qed.

Lemma coalesced_max z b : wf z ∅ → page_num z mod 2 ^ 13 = 0 → free_blk z b → b.2 = BUDDY_MAX_ORDER - 1.
Proof.
  intros W Hn Hf. destruct (wf_block _ _ _ W (or_introl Hf)) as (K & _).
  assert (BUDDY_MAX_ORDER - 1 ≤ b.2); [|lia].
  apply (coalesced_min z ∅); [done|set_solver|lia|done|done].
Qed.

(** ** Addresses *)

Lemma page_addr_spec z i : 0 ≤ start_addr z → 0 ≤ i < page_num z →
  end_addr z = start_addr z + page_num z * BUDDY_PAGE_SIZE → end_addr z < 2 ^ 64 →
  virt_to_page (page_to_virt z (Some i)) z = Done i z.
Proof.
  intros Hs Hi He Hm. unfold page_to_virt, virt_to_page, bind, get.
  change BUDDY_PAGE_SIZE with 4096 in *. rewrite (u64_id (_ + _)) by (unfold is_u64; lia).
  replace (_ || _) with false; [|symmetry; apply orb_false_iff; split; apply Z.ltb_ge; nia].
  rewrite u64_id by (unfold is_u64; lia). rewrite Z.shiftr_div_pow2 by done.
  unfold ret. f_equal. change (2 ^ BUDDY_PAGE_SHIFT) with 4096.
  replace (_ - _) with (i * 4096) by lia. by apply Z.div_mul.
Qed.

Lemma round_up_spec x : x ≤ ROUND_UP x BUDDY_PAGE_SIZE < x + BUDDY_PAGE_SIZE ∧
  ROUND_UP x BUDDY_PAGE_SIZE mod BUDDY_PAGE_SIZE = 0.
Proof.
  unfold ROUND_UP. change (BUDDY_PAGE_SIZE - 1) with (Z.ones 12). rewrite <- Z.ldiff_land.
  rewrite Z.ldiff_ones_r by lia. rewrite Z.shiftl_mul_pow2, Z.shiftr_div_pow2 by lia.
  change BUDDY_PAGE_SIZE with (2 ^ 12). split; [|by apply Z.mod_mul].
  pose proof (Z.div_mod (x + 2 ^ 12 - 1) (2 ^ 12) ltac:(lia)).
  pose proof (Z.mod_pos_bound (x + 2 ^ 12 - 1) (2 ^ 12) ltac:(lia)). lia.
Qed.

#[local] Opaque init_buddy.

(** A zone to run on: one maximal block. *)
Definition boot_zone : global_mem :=
  match init_buddy 4096 8192 ∅ with
  | Done _ z => z
  | _ => mk_global_mem 0 0 0 0 ∅ []
  end.

Lemma boot_behind : behind_ok 8192 ∅.
Proof. split; [intros i H; change (roundup_max 8192) with 8192 in H; lia|done]. Qed.

Lemma boot_zone_init : init_buddy 4096 8192 ∅ = Done tt boot_zone ∧ zone_ok boot_zone ∅ ∧
  page_num boot_zone = 8192 ∧ start_addr boot_zone = 4096 ∧ end_addr boot_zone = 33558528.
Proof.
  destruct (init_buddy_spec 4096 8192 ∅ ltac:(lia) boot_behind) as (z & E & H1 & H2 & H3 & H4 & _).
  unfold boot_zone. rewrite E. split; [reflexivity|]. split_and!; assumption.
Qed.

#[local] Opaque boot_zone buddy_get_pages buddy_free_pages.

Lemma boot_has_block : ∃ b, free_blk boot_zone b ∧ b.2 = BUDDY_MAX_ORDER - 1.
Proof.
  assert (∀ z, wf z ∅ → page_num z = 8192 → ∃ b, free_blk z b ∧ b.2 = BUDDY_MAX_ORDER - 1) as H.
  { intros z W P. destruct (tiles_cover _ _ _ (wf_tiles _ _ W) 0) as (b & [F|F] & _); [lia| |set_solver].
    exists b. split; [done|]. apply (coalesced_max z b W); [by rewrite P|done]. }
  apply H; apply boot_zone_init.
Qed.


(** ** The theorems *)

(** C11: In every state the allocator reaches from boot by allocations and
    frees, the free blocks and the handed-out blocks partition the managed
    pages into aligned blocks, the free lists are duplicate free and counted,
    no two free buddies are left unmerged, and the order recorded for each
    handed-out block is its order. *)
Theorem buddy_reachable_ok va n past z A :
  0 ≤ n → behind_ok n past → reach va n past z A → zone_ok z A.
Proof. intros Hn HB R. by eapply reach_ok. Qed.

Lemma buddy_reachable_ok_witness : zone_ok boot_zone ∅.
Proof.
  apply (buddy_reachable_ok 4096 8192 ∅); [lia|apply boot_behind|].
  apply reach_init, boot_zone_init.
Defined.

(** C12: [buddy_get_pages] returns for every order below the maximum.  A
    returned block was part of a free block, belongs to no other holder and
    leaves all other holders' metadata alone; NULL is returned only if no
    block of the order or above is free, and then nothing changed. *)
Theorem buddy_get_pages_ok z A ord :
  zone_ok z A → 0 ≤ ord < BUDDY_MAX_ORDER → ∃ r z',
  buddy_get_pages ord z = Done r z' ∧ same_zone z z' ∧ keeps A z z' ∧
  match r with
  | None => z' = z ∧ ∀ i k, ord ≤ k → ¬ free_blk z (i, k)
  | Some pg => zone_ok z' ({[(pg, ord)]} ∪ A) ∧ ((pg, ord) ∉ A) ∧
      ∃ k, ord ≤ k ∧ free_blk z (pg, k)
  end.
Proof. apply buddy_get_pages_spec. Qed.

Lemma buddy_get_pages_ok_witness : ∃ r z', buddy_get_pages 3 boot_zone = Done r z'.
Proof.
  destruct (buddy_get_pages_ok boot_zone ∅ 3 (proj1 (proj2 boot_zone_init))) as (r & z' & E & _).
  - by vm_compute.
  - exists r, z'. exact E.
Defined.

(** C13: [buddy_free_pages] on a handed-out block returns, and gives exactly
    that block's pages back: the remaining handed-out blocks still tile the
    zone together with the (coalesced) free blocks, and their metadata is
    untouched. *)
Theorem buddy_free_pages_ok z A i k :
  zone_ok z ({[(i, k)]} ∪ A) → (i, k) ∉ A → ∃ z',
  buddy_free_pages i z = Done tt z' ∧ zone_ok z' A ∧ same_zone z z' ∧ keeps A z z'.
Proof. apply buddy_free_pages_spec. Qed.

Lemma buddy_free_pages_ok_witness : ∃ pg z z',
  buddy_get_pages 3 boot_zone = Done (Some pg) z ∧ buddy_free_pages pg z = Done tt z' ∧ zone_ok z' ∅.
Proof.
  destruct (buddy_get_pages_spec boot_zone ∅ 3 (proj1 (proj2 boot_zone_init))) as (r & z & E & _ & _ & R).
  { by vm_compute. }
  destruct r as [pg|].
  - destruct R as (ZO & N & _).
    destruct (buddy_free_pages_ok z ∅ pg 3 ZO N) as (z' & E' & ZO' & _).
    exists pg, z, z'. split_and!; assumption.
  - exfalso. destruct boot_has_block as ([i k] & F & K). apply (proj2 R i k); [|exact F].
    simpl in K. rewrite K. by vm_compute.
Defined.

(** Booting the allocator on [n] pages succeeds with nothing handed out;
    if [n] is a whole number of maximal blocks, all memory ends up in maximal
    blocks. *)
Theorem init_buddy_ok va n past :
  0 ≤ n → behind_ok n past → ∃ z,
  init_buddy va n past = Done tt z ∧ zone_ok z ∅ ∧ page_num z = n ∧
  (n mod 2 ^ 13 = 0 → ∀ b, free_blk z b → b.2 = BUDDY_MAX_ORDER - 1).
Proof.
  intros Hn HB. destruct (init_buddy_spec va n past Hn HB) as (z & E & ZO & P & _).
  exists z. split_and!; try done. intros Hm b. apply coalesced_max; [apply ZO|by rewrite P].
Qed.

Lemma init_buddy_ok_witness : ∃ z, init_buddy 4096 8192 ∅ = Done tt z ∧ zone_ok z ∅.
Proof.
  destruct (init_buddy_ok 4096 8192 ∅ ltac:(lia) boot_behind) as (z & E & ZO & _).
  exists z. split; assumption.
Defined.

(** Fragmentation is bounded by what is handed out: while only blocks of
    order [m] and above are handed out, every free block has order [m] at
    least; with nothing handed out, every free block is maximal. *)
Theorem buddy_no_fragmentation va n past z A m b :
  0 ≤ n → behind_ok n past → n mod 2 ^ 13 = 0 → reach va n past z A →
  (∀ c, c ∈ A → m ≤ c.2) → m < BUDDY_MAX_ORDER → free_blk z b → m ≤ b.2.
Proof.
  intros Hn HB Hm R HA Hx. destruct (reach_ok _ _ _ _ _ Hn HB R) as [ZO P].
  apply (coalesced_min z A); [apply ZO|done|done|by rewrite P].
Qed.

Lemma buddy_no_fragmentation_witness : ∃ b, free_blk boot_zone b ∧ BUDDY_MAX_ORDER - 1 ≤ b.2.
Proof.
  destruct boot_has_block as (b & F & _). exists b. split; [exact F|].
  apply (buddy_no_fragmentation 4096 8192 ∅ boot_zone ∅ (BUDDY_MAX_ORDER - 1) b ltac:(lia) boot_behind eq_refl);
    [|set_solver|lia|exact F].
  apply reach_init, boot_zone_init.
Defined.

(** [virt_to_page] inverts [page_to_virt] on every managed page. *)
Theorem page_virt_roundtrip z i : 0 ≤ start_addr z → 0 ≤ i < page_num z →
  end_addr z = start_addr z + page_num z * BUDDY_PAGE_SIZE → end_addr z < 2 ^ 64 →
  virt_to_page (page_to_virt z (Some i)) z = Done i z.
Proof. apply page_addr_spec. Qed.

Lemma page_virt_roundtrip_witness : virt_to_page (page_to_virt boot_zone (Some 5)) boot_zone = Done 5 boot_zone.
Proof.
  destruct boot_zone_init as (_ & _ & P & S & E).
  apply page_virt_roundtrip; [rewrite S; lia|rewrite P; lia|rewrite E, S, P; reflexivity|rewrite E; lia].
Defined.

(** The address one past the last page is accepted, and gives the index of a
    page that does not exist. *)
Lemma virt_to_page_end_accepted z : 0 ≤ start_addr z → 0 ≤ page_num z →
  end_addr z = start_addr z + page_num z * BUDDY_PAGE_SIZE → end_addr z < 2 ^ 64 →
  virt_to_page (end_addr z) z = Done (page_num z) z.
Proof.
  intros Hs Hn He Hm. unfold virt_to_page, bind, get. change BUDDY_PAGE_SIZE with 4096 in *.
  replace (_ || _) with false; [|symmetry; apply orb_false_iff; split; apply Z.ltb_ge; nia].
  rewrite u64_id by (unfold is_u64; lia). rewrite Z.shiftr_div_pow2 by done.
  unfold ret. f_equal. change (2 ^ BUDDY_PAGE_SHIFT) with 4096.
  replace (_ - _) with (page_num z * 4096) by lia. by apply Z.div_mul.
Qed.

(** [mm_init]: the pages start page aligned behind their metadata, and end
    within the free memory if the metadata fills whole pages from an aligned
    start. *)
Lemma mm_init_layout s e : 0 ≤ s ≤ e → e + BUDDY_PAGE_SIZE ≤ 2 ^ 64 → s mod BUDDY_PAGE_SIZE = 0 →
  (mm_init_npages s e * SIZEOF_PAGE) mod BUDDY_PAGE_SIZE = 0 →
  s + mm_init_npages s e * SIZEOF_PAGE ≤ mm_init_start_vaddr s e ∧
  mm_init_start_vaddr s e mod BUDDY_PAGE_SIZE = 0 ∧
  mm_init_start_vaddr s e + mm_init_npages s e * BUDDY_PAGE_SIZE ≤ e.
Proof.
  intros Hs Hw Ha Hm. unfold mm_init_start_vaddr.
  pose proof (round_up_spec (s + mm_init_npages s e * SIZEOF_PAGE)) as [[R1 R2] R3].
  assert (0 ≤ mm_init_npages s e * 4136 ≤ e - s) as Hn.
  { unfold mm_init_npages. change BUDDY_PAGE_SIZE with 4096 in *. rewrite u64_id by (unfold is_u64; lia).
    change (4096 + SIZEOF_PAGE) with 4136. pose proof (Z.mul_div_le (e - s) 4136 ltac:(lia)).
    pose proof (Z.div_pos (e - s) 4136). lia. }
  assert ((s + mm_init_npages s e * SIZEOF_PAGE) mod BUDDY_PAGE_SIZE = 0) as H0
    by (by rewrite Z.add_mod, Ha, Hm).
  pose proof R3 as R4. apply Z.mod_divide in R4 as [a Ea], H0 as [b Eb]; try done.
  set (N := mm_init_npages s e) in *. set (R := ROUND_UP _ _) in *.
  change BUDDY_PAGE_SIZE with 4096 in *. unfold SIZEOF_PAGE in *. assert (a = b) as -> by lia.
  rewrite u64_id by (unfold is_u64; lia). split_and!; [lia|done|lia].
Qed.

(** In general the rounding can push the last page out of the free memory. *)
Example mm_init_overrun :
  mm_init_start_vaddr 0 8272 + mm_init_npages 0 8272 * BUDDY_PAGE_SIZE = 12288.
Proof. vm_compute. reflexivity. Qed.

(** With a page count that is not a multiple of the largest block, booting
    reads metadata behind the metadata array. *)
Example init_buddy_reads_behind : init_buddy 4096 12 ∅ = Fault.
Proof. vm_compute. reflexivity. Qed.

End Buddy.
