(* ===== verification/Allocator.v ===== *)
(** * The interface of the kernel heap

    What the kernel objects rely on when they call [kmalloc], [kzalloc] and
    [kfree]: the regions of [L] (address to size) are owned by the callers.
    Kmalloc.v provides the instance. *)

From S2P Require Import Prelude.

Module Allocator.

Class Allocator (S : Type) := {
  owns : S → gmap Z Z → Prop;
  (** the largest request that is served *)
  max_size : Z;
  al_alloc : Z → M S Z;
  al_zalloc : Z → M S Z;
  al_free : Z → M S unit;
  al_alloc_ok s L size : owns s L → 0 ≤ size ≤ max_size →
    al_alloc size s = Halt ∨ ∃ p s', al_alloc size s = Done p s' ∧
    ((p = 0 ∧ owns s' L) ∨ ∃ n, p ≠ 0 ∧ L !! p = None ∧ size ≤ n ∧ owns s' (<[p := n]> L));
  al_zalloc_ok s L size : owns s L → 0 ≤ size ≤ max_size →
    al_zalloc size s = Halt ∨ ∃ p s', al_zalloc size s = Done p s' ∧
    ((p = 0 ∧ owns s' L) ∨ ∃ n, p ≠ 0 ∧ L !! p = None ∧ size ≤ n ∧ owns s' (<[p := n]> L));
  al_free_ok s L p n : owns s L → L !! p = Some n →
    ∃ s', al_free p s = Done tt s' ∧ owns s' (delete p L);
  al_pos s L p n : owns s L → L !! p = Some n → 0 < p;
  (** the owned regions are disjoint *)
  al_apart s L p n q m x : owns s L → L !! p = Some n → L !! q = Some m →
    p ≤ x < p + n → q ≤ x < q + m → p = q
}.

(** The same, when only the addresses matter: [D] are the owned ones. *)
Definition holds {S} `{!Allocator S} (s : S) (D : gset Z) : Prop := ∃ L, owns s L ∧ dom L = D.

(** What [kmalloc] and [kzalloc] promise about the owned addresses. *)
Definition allocates {S} `{!Allocator S} (r : outcome S Z) (D : gset Z) : Prop :=
  r = Halt ∨ ∃ p s', r = Done p s' ∧ ((p = 0 ∧ holds s' D) ∨ (p ≠ 0 ∧ (p ∉ D) ∧ holds s' ({[p]} ∪ D))).

Lemma alloc_holds {S} `{!Allocator S} (s : S) D size : holds s D → 0 ≤ size ≤ max_size →
  allocates (al_alloc size s) D ∧ allocates (al_zalloc size s) D.
Proof.
  intros (L & HL & <-) Hs. split.
  - destruct (al_alloc_ok s L size HL Hs) as [E|(p & s' & E & [[-> H]|(n & Hp & Hn & _ & H)])]; [by left|right..].
    + exists 0, s'. split; [done|]. left. split; [done|]. by exists L.
    + exists p, s'. split; [done|]. right. split; [done|]. split; [by apply not_elem_of_dom|].
      exists (<[p := n]> L). split; [done|]. apply dom_insert_L.
  - destruct (al_zalloc_ok s L size HL Hs) as [E|(p & s' & E & [[-> H]|(n & Hp & Hn & _ & H)])]; [by left|right..].
    + exists 0, s'. split; [done|]. left. split; [done|]. by exists L.
    + exists p, s'. split; [done|]. right. split; [done|]. split; [by apply not_elem_of_dom|].
      exists (<[p := n]> L). split; [done|]. apply dom_insert_L.
Qed.

Lemma free_holds {S} `{!Allocator S} (s : S) D p : holds s D → p ∈ D →
  ∃ s', al_free p s = Done tt s' ∧ holds s' (D ∖ {[p]}).
Proof.
  intros (L & HL & <-) [n Hp]%elem_of_dom. destruct (al_free_ok s L p n HL Hp) as (s' & E & H).
  exists s'. split; [done|]. exists (delete p L). split; [done|]. apply dom_delete_L.
Qed.

Lemma holds_pos {S} `{!Allocator S} (s : S) D p : holds s D → p ∈ D → 0 < p.
Proof. intros (L & HL & <-) [n Hp]%elem_of_dom. by eapply al_pos. Qed.

(** ** Page frames

    The kernel sees physical memory at [KBASE] (include/arch/aarch64/arch/mmu.h). *)
Definition KBASE : Z := 0xFFFFFF0000000000.
Definition PAGE_SIZE : Z := 4096.
Definition phys_to_virt (x : Z) : Z := u64 (x + KBASE).
Definition virt_to_phys (x : Z) : Z := u64 (x - KBASE).

Definition direct_map (va : Z) : Prop := KBASE ≤ va ∧ va mod PAGE_SIZE = 0.

(** [get_pages(0)] returns the address of a page in the direct mapping. *)
Class PageAllocator (S : Type) `{!Allocator S} := {
  get_page : M S Z;
  get_page_ok s L : owns s L → ∃ p s', get_page s = Done p s' ∧
    ((p = 0 ∧ owns s' L) ∨
     (direct_map p ∧ p + PAGE_SIZE ≤ 2 ^ 64 ∧ L !! p = None ∧ owns s' (<[p := PAGE_SIZE]> L)))
}.

Lemma direct_map_pos va : direct_map va → 0 < va.
Proof. unfold direct_map, KBASE. lia. Qed.

Lemma page_holds {S} `{!Allocator S, !PageAllocator S} (s : S) D : holds s D →
  ∃ p s', get_page s = Done p s' ∧ ((p = 0 ∧ holds s' D) ∨
    (direct_map p ∧ p + PAGE_SIZE ≤ 2 ^ 64 ∧ (p ∉ D) ∧ holds s' ({[p]} ∪ D))).
Proof.
  intros (L & HL & <-). destruct (get_page_ok s L HL) as (p & s' & E & [[-> H]|(H1 & H2 & H3 & H4)]).
  - exists 0, s'. split; [done|]. left. split; [done|]. by exists L.
  - exists p, s'. split; [done|]. right. split_and!; [done..|by apply not_elem_of_dom|].
    exists (<[p := PAGE_SIZE]> L). split; [done|]. apply dom_insert_L.
Qed.

(** A bump allocator, to run the clients on: it never reuses memory. *)
Definition bump_owns (next : Z) (L : gmap Z Z) : Prop :=
  0 < next ∧ (∀ p n, L !! p = Some n → 0 < p ∧ 0 < n ∧ p + n ≤ next) ∧
  ∀ p n q m x, L !! p = Some n → L !! q = Some m → p ≤ x < p + n → q ≤ x < q + m → p = q.

Definition bump_zalloc (size : Z) : M Z Z := λ next, Done next (next + Z.max 1 size).
Definition bump_free (p : Z) : M Z unit := λ next, Done tt next.

Lemma bump_alloc_ok next L size : bump_owns next L → 0 ≤ size → ∃ p next',
  bump_zalloc size next = Done p next' ∧
  ((p = 0 ∧ bump_owns next' L) ∨ ∃ n, p ≠ 0 ∧ L !! p = None ∧ size ≤ n ∧ bump_owns next' (<[p := n]> L)).
Proof.
  intros (H1 & H2 & H3) Hs. exists next, (next + Z.max 1 size). split; [done|]. right.
  assert (L !! next = None) as LN by (destruct (L !! next) as [n|] eqn:E; [apply H2 in E; lia|done]).
  exists (Z.max 1 size). split_and!; [lia|done|lia|]. split; [lia|]. split.
  - intros p n [[<- <-]|[_ H]]%lookup_insert_Some; [lia|]. apply H2 in H. lia.
  - intros p n q m x [[<- <-]|[_ Hp]]%lookup_insert_Some [[<- <-]|[_ Hq]]%lookup_insert_Some Hx Hy; [done| | |].
    + apply H2 in Hq. lia.
    + apply H2 in Hp. lia.
    + by eapply H3.
Qed.

#[export] Instance bump_allocator : Allocator Z.
Proof.
  refine (Build_Allocator Z bump_owns (2 ^ 20) bump_zalloc bump_zalloc bump_free _ _ _ _ _).
  - intros s L size H Hs. right. apply bump_alloc_ok; [exact H|apply Hs].
  - intros s L size H Hs. right. apply bump_alloc_ok; [exact H|apply Hs].
  - intros s L p n (H1 & H2 & H3) Hp. exists s. split; [done|]. split; [done|]. split.
    + intros q m [_ H]%lookup_delete_Some. by apply H2.
    + intros q m r k x [_ Hq]%lookup_delete_Some [_ Hr]%lookup_delete_Some. by apply H3.
  - intros s L p n (_ & H & _) Hp. by apply H in Hp as (? & _).
  - intros s L p n q m x (_ & _ & H). apply H.
Defined.

(** Pages from the next page boundary on, in the direct mapping. *)
Definition bump_page : M Z Z := λ next,
  let p := Z.max KBASE ((next + PAGE_SIZE - 1) / PAGE_SIZE * PAGE_SIZE) in
  if p + PAGE_SIZE <=? 2 ^ 64 then Done p (p + PAGE_SIZE) else Done 0 next.

#[export] Instance bump_page_allocator : PageAllocator Z.
Proof.
  refine (Build_PageAllocator Z _ bump_page _).
  intros s L (H1 & H2 & H3). unfold bump_page. cbv zeta.
  set (a := (s + PAGE_SIZE - 1) / PAGE_SIZE). assert (s ≤ a * PAGE_SIZE) as Ha.
  { unfold a, PAGE_SIZE. pose proof (Z.div_mod (s + 4096 - 1) 4096). pose proof (Z.mod_pos_bound (s + 4096 - 1) 4096). lia. }
  set (p := Z.max KBASE (a * PAGE_SIZE)). assert (s ≤ p) as Hp by lia.
  destruct (Z.leb_spec (p + PAGE_SIZE) (2 ^ 64)) as [Hle|Hgt].
  2: { exists 0, s. split; [done|]. left. by split_and!. }
  assert (p mod PAGE_SIZE = 0) as Hm by (unfold p; destruct (Z.max_spec KBASE (a * PAGE_SIZE)) as [[_ ->]|[_ ->]];
    [apply Z.mod_mul; done|done]).
  exists p, (p + PAGE_SIZE). split; [done|]. right. split; [split; [lia|done]|]. split; [done|]. unfold PAGE_SIZE in *.
  split; [destruct (L !! p) as [n|] eqn:E; [apply H2 in E; lia|done]|]. split; [lia|]. split.
  - intros q n [[<- <-]|[_ H]]%lookup_insert_Some; [lia|]. apply H2 in H. lia.
  - intros q n q' m x [[<- <-]|[_ Hq]]%lookup_insert_Some [[<- <-]|[_ Hq']]%lookup_insert_Some Hx Hy; [done| | |].
    + apply H2 in Hq'. lia.
    + apply H2 in Hq. lia.
    + by eapply H3.
Defined.

Lemma bump_empty next : 0 < next → owns (S := Z) next ∅.
Proof. intros H. split; [done|]. split; intros *; by rewrite lookup_empty. Qed.

End Allocator.
