(* ===== verification/Uaccess.v ===== *)
(** * User memory (kernel/arch/aarch64/mm/uaccess.c)

    User memory can change at any time, so what [copy_from_user] reads is an
    argument of the function that calls it.  What [copy_to_user] writes is
    recorded by the caller, with [write].  Neither function fails: a pointer into
    the kernel's half stops the machine. *)

From S2P Require Import Prelude Allocator.

Module Uaccess.

Import Allocator.

Section uaccess.
Context {S : Type}.

Definition copy_from_user {V} (user_buf : Z) (v : V) : M S V := BUG_ON (KBASE <=? user_buf) ;; ret v.
Definition copy_to_user (user_buf : Z) (write : M S unit) : M S Z := BUG_ON (KBASE <=? user_buf) ;; write ;; ret 0.

Lemma copy_from_user_ok {V} user_buf (v : V) s : user_buf < KBASE → copy_from_user user_buf v s = Done v s.
Proof. intros H. unfold copy_from_user. by rewrite (proj2 (Z.leb_gt _ _)). Qed.

End uaccess.

End Uaccess.
