(* ===== verification/Kmalloc.v ===== *)
(** * Slab allocator and kmalloc (kernel/mm/slab.c, kernel/mm/kmalloc.c)

    The state is the buddy zone, the words of memory the slab allocator itself
    reads and writes (the [slab_header] at the start of each slab and the
    [next_free] word of each free slot), and the table [slabs].  The slab lists
    and the free lists are pointer chains through that memory.

    The theorems say that [kmalloc]/[kzalloc] hand out regions that overlap no
    other live region, that [kfree] gives back exactly the region it is called
    on, and that the loops end.  The class [Allocator] is what the kernel
    objects rely on; the last section shows that this code provides it. *)

From S2P Require Import Prelude Tiling Buddy Allocator.

Module Kmalloc.

Import Tiling Buddy Allocator.

Definition SLAB_INIT_SIZE : Z := 2 * 1024 * 1024.
Definition SLAB_MIN_ORDER : Z := 5.
Definition SLAB_MAX_ORDER : Z := 11.

(** kernel/include/common/debug.h *)
Definition DETECTING_DOUBLE_FREE_IN_SLAB : bool := false.

Record kmem := mk_kmem { zone : global_mem; mem : gmap Z Z; slabs : list Z }.

Abbreviation MK := (M kmem).

Definition in_zone {A} (m : MB A) : MK A :=
  zoom zone (λ z s, mk_kmem z (mem s) (slabs s)) m.

(** A word of memory. *)
Definition load (a : Z) : MK Z := s <- get ;; need (mem s !! a).
Definition store (a v : Z) : MK unit := modify (λ s, mk_kmem (zone s) (<[a := v]> (mem s)) (slabs s)).

(** The fields of [struct slab_header]; [next_free] of a slot is its first
    word. *)
Definition free_list_head (slab : Z) : Z := slab.
Definition next_slab (slab : Z) : Z := slab + 8.
Definition order_field (slab : Z) : Z := slab + 16.
Definition next_free (slot : Z) : Z := slot.

(** [slabs[order]] *)
Definition slabs_at (ord : Z) : MK Z := s <- get ;; need (slabs s !! Z.to_nat ord).
Definition set_slabs (ord h : Z) : MK unit :=
  modify (λ s, mk_kmem (zone s) (mem s) (<[Z.to_nat ord := h]> (slabs s))).

(** [while (tmp > 1) { tmp >>= 1; order += 1; }]: one round per bit. *)
Fixpoint order_loop (n : nat) (tmp ord : Z) : Z :=
  match n with
  | O => ord
  | S k => if 1 <? tmp then order_loop k (Z.shiftr tmp 1) (ord + 1) else ord
  end.

(** [1 << order] is an [int], converted for the comparison. *)
Definition int_one_shl (ord : Z) : Z := u64 (s32 (Z.shiftl 1 ord)).

Definition size_to_order (size : Z) : Z :=
  let ord := order_loop 32 (s32 size) 0 in
  if int_one_shl ord <? size then ord + 1 else ord.

Definition order_to_size (ord : Z) : Z := u64 (Z.shiftl 1 ord).

(** The loop of [alloc_slab_memory] over the pages of the new slab. *)
Fixpoint mark_slab_pages (n : nat) (i addr : Z) : MK unit :=
  match n with
  | O => ret tt
  | S k =>
      let page_addr := u64 (addr + i * BUDDY_PAGE_SIZE) in
      pg <- in_zone (virt_to_page page_addr) ;;
      in_zone (set_page pg (λ p, mk_page (flags p) (order p) addr)) ;;
      mark_slab_pages k (i + 1) addr
  end.

Definition alloc_slab_memory (size : Z) : MK Z :=
  let ord := size_to_order (size / BUDDY_PAGE_SIZE) in
  p_page <- in_zone (buddy_get_pages ord) ;;
  match p_page with
  | None => halt
  | Some _ =>
      s <- get ;;
      let addr := page_to_virt (zone s) p_page in
      mark_slab_pages (Z.to_nat (order_to_size ord)) 0 addr ;;
      ret addr
  end.

(** The loop of [init_slab_cache]: link each slot to the one after it. *)
Fixpoint link_slots (n : nat) (slot obj_size : Z) : MK Z :=
  match n with
  | O => ret slot
  | S k =>
      store (next_free slot) (u64 (slot + obj_size)) ;;
      link_slots k (u64 (slot + obj_size)) obj_size
  end.

Definition init_slab_cache (ord size : Z) : MK Z :=
  addr <- alloc_slab_memory size ;;
  let slab := addr in
  let obj_size := order_to_size ord in
  let cnt := size / obj_size - 1 in
  let slot := addr + obj_size in
  store (free_list_head slab) slot ;;
  store (next_slab slab) 0 ;;
  store (order_field slab) ord ;;
  last <- link_slots (Z.to_nat (cnt - 1)) slot obj_size ;;
  store (next_free last) 0 ;;
  ret slab.

(** The [while (next_slab != NULL)] loop of [_alloc_in_slab_nolock]; NULL if
    no slab of the list has a free slot.  Out of fuel, the list is cyclic. *)
Fixpoint scan_slabs (n : nat) (slab : Z) : MK Z :=
  match n with
  | O => λ _, Spin
  | S k =>
      if slab =? 0 then ret 0
      else
        first_slot <- load (free_list_head slab) ;;
        if negb (first_slot =? 0) then
          next_slot <- load (next_free first_slot) ;;
          store (free_list_head slab) next_slot ;;
          ret first_slot
        else
          next <- load (next_slab slab) ;;
          scan_slabs k next
  end.

(** [_alloc_in_slab_nolock]; [n] bounds the recursion. *)
Fixpoint _alloc_in_slab_nolock (n : nat) (slab_header ord : Z) : MK Z :=
  match n with
  | O => λ _, Spin
  | S k =>
      first_slot <- load (free_list_head slab_header) ;;
      if negb (first_slot =? 0) then
        next_slot <- load (next_free first_slot) ;;
        store (free_list_head slab_header) next_slot ;;
        ret first_slot
      else
        next <- load (next_slab slab_header) ;;
        fuel <- gets (λ s, S (size (mem s))) ;;
        found <- scan_slabs fuel next ;;
        if negb (found =? 0) then ret found
        else
          new_slab <- init_slab_cache ord SLAB_INIT_SIZE ;;
          store (next_slab new_slab) slab_header ;;
          set_slabs ord new_slab ;;
          _alloc_in_slab_nolock k new_slab ord
  end.

Definition _alloc_in_slab (slab_header ord : Z) : MK Z := _alloc_in_slab_nolock 2 slab_header ord.

Fixpoint init_slab_from (n : nat) (ord : Z) : MK unit :=
  match n with
  | O => ret tt
  | S k =>
      slab <- init_slab_cache ord SLAB_INIT_SIZE ;;
      set_slabs ord slab ;;
      init_slab_from k (ord + 1)
  end.

Definition init_slab : MK unit :=
  init_slab_from (Z.to_nat (SLAB_MAX_ORDER - SLAB_MIN_ORDER + 1)) SLAB_MIN_ORDER.

Definition alloc_in_slab (size : Z) : MK Z :=
  BUG_ON (order_to_size SLAB_MAX_ORDER <? size) ;;
  let ord := size_to_order size in
  let ord := if ord <? SLAB_MIN_ORDER then SLAB_MIN_ORDER else ord in
  slab <- slabs_at ord ;;
  _alloc_in_slab slab ord.

(** [check_slot_is_free]: is [slot] on the chain of free slots from [cur], or
    on that of a later slab? *)
Fixpoint slot_in_chain (n : nat) (cur slot : Z) : MK bool :=
  match n with
  | O => λ _, Spin
  | S k =>
      if cur =? 0 then ret false
      else if cur =? slot then ret true
      else next <- load (next_free cur) ;; slot_in_chain k next slot
  end.

Fixpoint slot_in_slabs (n : nat) (slab slot : Z) : MK bool :=
  match n with
  | O => λ _, Spin
  | S k =>
      if slab =? 0 then ret false
      else
        cur <- load (free_list_head slab) ;;
        fuel <- gets (λ s, S (size (mem s))) ;;
        found <- slot_in_chain fuel cur slot ;;
        if found : bool then ret true
        else next <- load (next_slab slab) ;; slot_in_slabs k next slot
  end.

Definition check_slot_is_free (slab_header slot : Z) : MK bool :=
  fuel <- gets (λ s, S (size (mem s))) ;;
  slot_in_slabs fuel slab_header slot.

Definition free_in_slab (detect : bool) (addr : Z) : MK unit :=
  let slot := addr in
  pg <- in_zone (virt_to_page addr) ;;
  p <- in_zone (page_at pg) ;;
  _ <- load (order_field (slab p)) ;;
  double <- (if detect then check_slot_is_free (slab p) slot else ret false) ;;
  BUG_ON double ;;
  head <- load (free_list_head (slab p)) ;;
  store (next_free slot) head ;;
  store (free_list_head (slab p)) slot.

(** ** kmalloc.c *)

Definition size_to_page_order (size : Z) : Z :=
  let pg_num := u64 (ROUND_UP size BUDDY_PAGE_SIZE) / BUDDY_PAGE_SIZE in
  let ord := order_loop 64 pg_num 0 in
  if int_one_shl ord <? pg_num then ord + 1 else ord.

Definition get_pages (ord : Z) : MK Z :=
  p_page <- in_zone (buddy_get_pages ord) ;;
  s <- get ;;
  ret (page_to_virt (zone s) p_page).

Definition kmalloc (size : Z) : MK Z :=
  if size <=? Z.shiftl 1 SLAB_MAX_ORDER then alloc_in_slab size
  else get_pages (if size <=? BUDDY_PAGE_SIZE then 0 else size_to_page_order size).

(** [memset(ptr, 0, size)] on the words of [mem] it reaches; the last word may
    be reached in part (little endian). *)
Definition clear_bytes (ptr size a v : Z) : Z :=
  if (a + 8 <=? ptr) || (ptr + size <=? a) then v
  else if ptr + size <? a + 8 then Z.ldiff v (Z.ones (8 * (ptr + size - a)))
  else 0.

Definition memset0 (ptr size : Z) : MK unit :=
  modify (λ s, mk_kmem (zone s) (map_imap (λ a v, Some (clear_bytes ptr size a v)) (mem s)) (slabs s)).

Definition kzalloc (size : Z) : MK Z :=
  ptr <- kmalloc size ;;
  if ptr =? 0 then ret 0 else memset0 ptr size ;; ret ptr.

Definition kfree (ptr : Z) : MK unit :=
  pg <- in_zone (virt_to_page ptr) ;;
  p <- in_zone (page_at pg) ;;
  if negb (slab p =? 0) then free_in_slab DETECTING_DOUBLE_FREE_IN_SLAB ptr
  else in_zone (buddy_free_pages pg).

Definition free_pages (addr : Z) : MK unit :=
  pg <- in_zone (virt_to_page addr) ;;
  in_zone (buddy_free_pages pg).

(** ** Specification *)

(** The pointer chain from [p] through the words at offset [off]. *)
Fixpoint chain (m : gmap Z Z) (off p : Z) (l : list Z) : Prop :=
  match l with
  | [] => p = 0
  | q :: l' => p = q ∧ q ≠ 0 ∧ ∃ r, m !! (q + off) = Some r ∧ chain m off r l'
  end.

Definition base (z : global_mem) (pg : Z) : Z := start_addr z + pg * BUDDY_PAGE_SIZE.

(** The slots of order [o] of the slab at [a]; slot 0 is the header. *)
Definition is_slot (a o x : Z) : Prop := ∃ j, 1 ≤ j < 2 ^ (21 - o) ∧ x = a + j * 2 ^ o.

(** Slab [a] of order [o]: its header, and its free list [fl], which holds the
    slots that are not live. *)
Record slab_ok (m : gmap Z Z) (L : gset Z) (a o : Z) (fl : list Z) : Prop := {
  so_order : SLAB_MIN_ORDER ≤ o ≤ SLAB_MAX_ORDER;
  so_field : m !! order_field a = Some o;
  so_list : ∃ h, m !! free_list_head a = Some h ∧ chain m 0 h fl;
  so_nodup : NoDup fl;
  so_slots : ∀ x, x ∈ fl ↔ is_slot a o x ∧ x ∉ L
}.

(** The slabs: first page ↦ (order, free slots). *)
Abbreviation slab_map := (gmap Z (Z * list Z)).

Definition slab_blocks (G : slab_map) : gset block := set_map (λ pg, (pg, 9)) (dom G).

(** The state of the allocators with the live slots [Ls] and the live page
    blocks [Lb]. *)
Record kmem_ok (s : kmem) (G : slab_map) (Ls : gset Z) (Lb : gset block) : Prop := {
  ko_zone : zone_ok (zone s) (slab_blocks G ∪ Lb);
  ko_sep : slab_blocks G ## Lb;
  ko_start : direct_map (start_addr (zone s)) ∧ 0 ≤ page_num (zone s);
  ko_end : end_addr (zone s) = start_addr (zone s) + page_num (zone s) * BUDDY_PAGE_SIZE;
  ko_top : end_addr (zone s) < 2 ^ 64;
  ko_marked : ∀ pg i, pg ∈ dom G → covers (pg, 9) i →
    slab <$> pages (zone s) !! i = Some (base (zone s) pg);
  ko_unmarked : ∀ i p, 0 ≤ i < page_num (zone s) → pages (zone s) !! i = Some p → slab p ≠ 0 →
    ∃ pg, pg ∈ dom G ∧ covers (pg, 9) i;
  ko_slab : ∀ pg o fl, G !! pg = Some (o, fl) → slab_ok (mem s) Ls (base (zone s) pg) o fl;
  ko_live : ∀ x, x ∈ Ls → ∃ pg o fl, G !! pg = Some (o, fl) ∧ is_slot (base (zone s) pg) o x;
  ko_table : length (slabs s) = Z.to_nat (SLAB_MAX_ORDER + 1) }.

Lemma ko_pos s G Ls Lb : kmem_ok s G Ls Lb → 0 < start_addr (zone s) ∧ 0 ≤ page_num (zone s).
Proof. intros K. destruct (ko_start _ _ _ _ K) as [H1%direct_map_pos H2]. done. Qed.

(** The slabs of order [o] are [l], linked from [h]. *)
Definition linked (s : kmem) (G : slab_map) (o : Z) (l : list Z) (h : Z) : Prop :=
  NoDup l ∧ (∀ pg, pg ∈ l ↔ ∃ fl, G !! pg = Some (o, fl)) ∧ chain (mem s) 8 h (base (zone s) <$> l).

(** [slabs[o]] is the list of all slabs of order [o]. *)
Definition listed (s : kmem) (G : slab_map) (o : Z) (l : list Z) : Prop :=
  l ≠ [] ∧ ∃ h, slabs s !! Z.to_nat o = Some h ∧ linked s G o l h.

(** The whole state is well formed. *)
Definition heap_ok (s : kmem) (G : slab_map) (Ls : gset Z) (Lb : gset block) : Prop :=
  kmem_ok s G Ls Lb ∧ ∀ o, SLAB_MIN_ORDER ≤ o ≤ SLAB_MAX_ORDER → ∃ l, listed s G o l.

(** ** Sizes and orders *)

Lemma order_loop_spec n tmp ord : 1 ≤ tmp → tmp < 2 ^ Z.of_nat n →
  order_loop n tmp ord = ord + Z.log2 tmp.
Proof.
  revert tmp ord. induction n as [|n IH]; intros tmp ord H1 H2; simpl.
  { change (2 ^ Z.of_nat 0) with 1 in H2. lia. }
  case (Z.ltb_spec 1 tmp); intros H; [|replace tmp with 1 by lia; simpl; lia].
  replace (Z.of_nat (S n)) with (Z.of_nat n + 1) in H2 by lia. rewrite pow2_succ in H2 by lia.
  rewrite Z.shiftr_div_pow2 by lia. change (2 ^ 1) with 2.
  pose proof (Z.div_mod tmp 2 ltac:(lia)). pose proof (Z.mod_pos_bound tmp 2 ltac:(lia)).
  rewrite IH by lia. rewrite <- Z.div2_div. 
  assert (Z.log2 tmp = Z.log2 (Z.div2 tmp) + 1); [|lia].
  rewrite Z.div2_spec, Z.log2_shiftr by lia.
  assert (1 ≤ Z.log2 tmp) by (apply Z.log2_le_pow2; simpl; lia). lia.
Qed.

Lemma int_one_shl_small o : 0 ≤ o < 31 → int_one_shl o = 2 ^ o.
Proof.
  intros H. unfold int_one_shl. rewrite Z.shiftl_mul_pow2, Z.mul_1_l by lia.
  assert (2 ^ o ≤ 2 ^ 30) by (apply Z.pow_le_mono_r; lia). pose proof (pow2_pos o ltac:(lia)).
  rewrite s32_id by lia. apply u64_id. unfold is_u64. lia.
Qed.

(** The order computed from a loop is the least one that is large enough. *)
Lemma round_order x : 1 ≤ x < 2 ^ 31 →
  let o := Z.log2 x in let r := if int_one_shl o <? x then o + 1 else o in
  0 ≤ r ∧ x ≤ 2 ^ r ∧ (0 < r → 2 ^ (r - 1) < x).
Proof.
  intros H. cbv zeta. pose proof (Z.log2_nonneg x).
  assert (Z.log2 x < 31) by (apply Z.log2_lt_pow2; lia).
  pose proof (Z.log2_spec x ltac:(lia)) as [L1 L2]. rewrite Z.pow_succ_r in L2 by done.
  rewrite int_one_shl_small by lia. case (Z.ltb_spec (2 ^ Z.log2 x) x); intros Hx.
  - rewrite pow2_succ by done. replace (Z.log2 x + 1 - 1) with (Z.log2 x) by lia. lia.
  - split_and!; [done|lia|]. intros Hp. replace (Z.log2 x) with (Z.log2 x - 1 + 1) in L1 at 1 by lia.
    rewrite pow2_succ in L1 by lia. pose proof (pow2_pos (Z.log2 x - 1) ltac:(lia)). lia.
Qed.

Lemma size_to_order_spec x : 1 ≤ x < 2 ^ 31 →
  0 ≤ size_to_order x ∧ x ≤ 2 ^ size_to_order x ∧ (0 < size_to_order x → 2 ^ (size_to_order x - 1) < x).
Proof.
  intros H. unfold size_to_order. rewrite s32_id by lia.
  rewrite order_loop_spec by (change (2 ^ Z.of_nat 32) with (2 ^ 32); lia). rewrite Z.add_0_l.
  by apply round_order.
Qed.

Lemma size_to_page_order_spec x : 1 ≤ x ≤ 2 ^ 42 → let n := (x + 4095) / 4096 in
  0 ≤ size_to_page_order x ∧ n ≤ 2 ^ size_to_page_order x ∧
  (0 < size_to_page_order x → 2 ^ (size_to_page_order x - 1) < n).
Proof.
  intros H. cbv zeta. unfold size_to_page_order.
  assert (u64 (ROUND_UP x BUDDY_PAGE_SIZE) / BUDDY_PAGE_SIZE = (x + 4095) / 4096) as ->.
  { pose proof (round_up_spec x) as [[R1 R2] R3]. change BUDDY_PAGE_SIZE with 4096 in *.
    rewrite u64_id by (unfold is_u64; lia). apply Z.mod_divide in R3 as [a Ea]; [|done].
    rewrite Ea, Z.div_mul by done. apply Z.div_unique with (x + 4095 - 4096 * a); lia. }
  assert (1 ≤ (x + 4095) / 4096 ≤ 2 ^ 30) as Hn.
  { pose proof (Z.div_mod (x + 4095) 4096 ltac:(lia)).
    pose proof (Z.mod_pos_bound (x + 4095) 4096 ltac:(lia)). lia. }
  rewrite order_loop_spec by (change (2 ^ Z.of_nat 64) with (2 ^ 64); lia). rewrite Z.add_0_l.
  apply round_order. lia.
Qed.

(** ** Chains *)

Lemma word_chain_frame m m' off p l :
  (∀ q, q ∈ l → m' !! (q + off) = m !! (q + off)) → chain m off p l → chain m' off p l.
Proof.
  revert p. induction l as [|q l IH]; intros p Hm; simpl; [done|].
  intros (-> & Hq & r & Hr & C). split_and!; [done|done|]. exists r.
  rewrite Hm by set_solver. split; [done|]. apply IH; [|done]. intros x Hx. apply Hm. set_solver.
Qed.

Lemma chain_head m off p l : chain m off p l → (p = 0 ↔ l = []).
Proof. destruct l; simpl; [done|]. intros (-> & H & _). split; done. Qed.

Lemma chain_cons m off p l : chain m off p l → p ≠ 0 →
  ∃ l' r, l = p :: l' ∧ m !! (p + off) = Some r ∧ chain m off r l'.
Proof. destruct l as [|q l]; simpl; [done|]. intros (-> & _ & r & Hr & C) _. by exists l, r. Qed.

(** The words of a slab lie in its 2 MiB. *)
Lemma slot_range a o x : SLAB_MIN_ORDER ≤ o ≤ SLAB_MAX_ORDER → is_slot a o x →
  a + 32 ≤ x ∧ x + 2 ^ o ≤ a + 2 ^ 21.
Proof.
  unfold SLAB_MIN_ORDER, SLAB_MAX_ORDER. intros Ho (j & Hj & ->).
  assert (2 ^ 21 = 2 ^ (21 - o) * 2 ^ o) as E by (rewrite <- Z.pow_add_r by lia; f_equal; lia).
  assert (2 ^ 5 ≤ 2 ^ o) by (apply Z.pow_le_mono_r; lia). change (2 ^ 5) with 32 in *.
  rewrite E. split; nia.
Qed.

Lemma slot_disjoint a o x y : 0 ≤ o → is_slot a o x → is_slot a o y → x ≠ y →
  x + 2 ^ o ≤ y ∨ y + 2 ^ o ≤ x.
Proof.
  intros Ho (i & Hi & ->) (j & Hj & ->) N. pose proof (pow2_pos o Ho).
  destruct (Z.lt_trichotomy i j) as [|[->|]]; [left; nia|done|right; nia].
Qed.

(** A slab only depends on memory and live slots inside it. *)
Lemma slab_ok_frame m m' L L' a o fl :
  (∀ x, a ≤ x < a + 2 ^ 21 → m' !! x = m !! x) → (∀ x, a ≤ x < a + 2 ^ 21 → x ∈ L' ↔ x ∈ L) →
  slab_ok m L a o fl → slab_ok m' L' a o fl.
Proof.
  intros Hm HL [S1 S2 (h & S3 & S4) S5 S6].
  assert (∀ x, is_slot a o x → a ≤ x < a + 2 ^ 21) as R.
  { intros x Hx. pose proof (slot_range _ _ _ S1 Hx). pose proof (pow2_pos o).
    unfold SLAB_MIN_ORDER in S1. lia. }
  split; try done.
  - unfold order_field in *. by rewrite Hm by lia.
  - exists h. unfold free_list_head in *. rewrite Hm by lia. split; [done|].
    eapply word_chain_frame; [|exact S4]. intros q [Hq _]%S6. rewrite Z.add_0_r. by apply Hm, R.
  - intros x. rewrite S6. split; intros [X1 X2]; split; try done; by rewrite HL in * by (by apply R).
Qed.

(** Taking the first free slot of a slab. *)
Lemma slab_ok_pop m L a o x fl r : slab_ok m L a o (x :: fl) → m !! x = Some r →
  slab_ok (<[free_list_head a := r]> m) ({[x]} ∪ L) a o fl ∧ is_slot a o x ∧ (x ∉ L).
Proof.
  intros [S1 S2 (h & S3 & S4) S5 S6] Hr. destruct (proj1 (S6 x) ltac:(set_solver)) as [Sx Lx].
  split; [|done]. apply NoDup_cons in S5 as [N1 N2]. simpl in S4. rewrite Z.add_0_r in S4.
  destruct S4 as (-> & H0 & r' & Hr' & C). rewrite Hr in Hr'. injection Hr' as <-.
  split; try done.
  - unfold order_field, free_list_head in *. rewrite lookup_insert_ne by lia. done.
  - exists r. unfold free_list_head. rewrite lookup_insert_eq. split; [done|].
    eapply word_chain_frame; [|exact C]. intros q Hq. destruct (proj1 (S6 q) ltac:(set_solver)) as [Q _].
    apply slot_range in Q; [|done]. rewrite lookup_insert_ne by lia. done.
  - intros y. rewrite not_elem_of_union, not_elem_of_singleton. specialize (S6 y).
    rewrite elem_of_cons in S6. destruct (decide (y = x)) as [->|]; [tauto|]. tauto.
Qed.

(** Putting a live slot back. *)
Lemma slab_ok_push m L a o x fl h : slab_ok m L a o fl → m !! free_list_head a = Some h →
  is_slot a o x → x ∈ L → x ≠ 0 →
  slab_ok (<[free_list_head a := x]> (<[next_free x := h]> m)) (L ∖ {[x]}) a o (x :: fl).
Proof.
  intros [S1 S2 (h' & S3 & S4) S5 S6] Hh Sx Lx X0. rewrite Hh in S3. injection S3 as <-.
  pose proof (slot_range _ _ _ S1 Sx) as [R1 R2]. unfold next_free, order_field, free_list_head in *.
  split; try done.
  - unfold order_field. rewrite !lookup_insert_ne by lia. done.
  - exists x. unfold free_list_head. rewrite lookup_insert_eq. split; [done|]. simpl. rewrite Z.add_0_r. split_and!; try done.
    exists h. rewrite lookup_insert_ne, lookup_insert_eq by lia. split; [done|].
    eapply word_chain_frame; [|exact S4]. intros q [Q1 Q2]%S6. rewrite Z.add_0_r.
    pose proof (slot_range _ _ _ S1 Q1). rewrite !lookup_insert_ne; [done| |lia]. intros <-. done.
  - apply NoDup_cons. split; [|done]. intros [_ ?]%S6. done.
  - intros y. rewrite elem_of_cons, S6, elem_of_difference, elem_of_singleton.
    destruct (decide (y = x)) as [->|]; tauto.
Qed.

(** ** Marking the pages of a new slab *)

Lemma zone_ok_mark z A pg i a : zone_ok z A → (pg, 9) ∈ A → covers (pg, 9) i →
  zone_ok (upd_page i (λ p, mk_page (flags p) (order p) a) z) A.
Proof.
  intros [W O] H C. split.
  - apply wf_upd_page; [done| |done]. intros k F.
    assert (covers (i, k) i) as C'.
    { unfold covers. simpl. destruct (wf_block _ _ _ W (or_introl F)) as (K & _). simpl in K.
      pose proof (pow2_pos k). lia. }
    pose proof (wf_same _ _ _ _ i W (or_introl F) (or_intror H) C' C) as E.
    rewrite <- E in H. by apply (wf_sep _ _ W _ F).
  - intros j k Hj. destruct (O j k Hj) as (p & Hp & Ho). rewrite lookup_upd_page.
    case_decide; [subst; rewrite Hp; by eexists|by exists p].
Qed.

(** The effect of the marking loop on the zone. *)
Definition marked (n : nat) (i a : Z) (z z' : global_mem) : Prop :=
  page_num z' = page_num z ∧ start_addr z' = start_addr z ∧ end_addr z' = end_addr z ∧
  free_lists z' = free_lists z ∧
  ∀ j, slab <$> pages z' !! j =
    if decide (i ≤ j < i + Z.of_nat n) then Some a else slab <$> pages z !! j.

Lemma mark_slab_pages_spec n s A pg i : zone_ok (zone s) A → (pg, 9) ∈ A →
  0 ≤ i → i + Z.of_nat n ≤ 512 → 0 < start_addr (zone s) →
  end_addr (zone s) = start_addr (zone s) + page_num (zone s) * BUDDY_PAGE_SIZE →
  end_addr (zone s) < 2 ^ 64 → ∃ z',
  mark_slab_pages n i (base (zone s) pg) s = Done tt (mk_kmem z' (mem s) (slabs s)) ∧
  zone_ok z' A ∧ marked n (pg + i) (base (zone s) pg) (zone s) z'.
Proof.
  revert s i. induction n as [|n IH]; intros s i ZO H Hi Hn HS HE HT.
  - exists (zone s). split_and!; [by destruct s|done|]. unfold marked. split_and!; try done.
    intros j. rewrite decide_False by lia. done.
  - destruct (wf_block _ _ _ (proj1 ZO) (or_intror H)) as (_ & P1 & _ & P2). simpl in P1, P2.
    change (2 ^ 9) with 512 in P2. assert (covers (pg, 9) (pg + i)) as C.
    { unfold covers. simpl. change (2 ^ 9) with 512. lia. }
    assert (u64 (base (zone s) pg + i * BUDDY_PAGE_SIZE) = page_to_virt (zone s) (Some (pg + i))) as EA
      by (unfold base, page_to_virt; f_equal; lia).
    cbn [mark_slab_pages]. rewrite EA.
    erewrite bind_Done by (apply zoom_Done, page_addr_spec; try done; lia).
    set (f := λ p, mk_page (flags p) (order p) (base (zone s) pg)).
    assert (is_Some (pages (zone s) !! (pg + i))) as Hs.
    { apply (wf_meta _ _ (proj1 ZO)). pose proof (roundup_ge (page_num (zone s))). lia. }
    erewrite bind_Done by (apply zoom_Done, set_page_ok; exact Hs).
    set (s1 := mk_kmem (upd_page (pg + i) f (zone s)) (mem s) (slabs s)).
    destruct (IH s1 (i + 1)) as (z' & E & ZO' & (M1 & M2 & M3 & M4 & M5)); simpl; try done; try lia.
    { by apply zone_ok_mark with pg. }
    exists z'. split_and!; [exact E|done|]. unfold marked. split_and!; try done. intros j. rewrite M5.
    simpl. rewrite lookup_alter. destruct Hs as [p Hp].
    repeat case_decide; try done; try lia. subst j. rewrite Hp. done.
Qed.

(** ** One slab changes *)

Lemma elem_of_slab_blocks G pg o : (pg, o) ∈ slab_blocks G ↔ o = 9 ∧ pg ∈ dom G.
Proof. unfold slab_blocks. rewrite elem_of_map. split; [intros (x & [= -> ->] & H); done|]. intros [-> H]. by exists pg. Qed.

Lemma slab_blocks_insert G pg v : slab_blocks (<[pg := v]> G) = {[(pg, 9)]} ∪ slab_blocks G.
Proof. unfold slab_blocks. by rewrite dom_insert_L, set_map_union_L, set_map_singleton_L. Qed.

Lemma dom_G (G : slab_map) pg v : G !! pg = Some v → pg ∈ dom G.
Proof. intros H. apply elem_of_dom. by eexists. Qed.

Section kmem.
Context (s : kmem) (G : slab_map) (Ls : gset Z) (Lb : gset block) (K : kmem_ok s G Ls Lb).

Lemma slab_block_ok pg : pg ∈ dom G →
  0 ≤ pg ∧ pg mod 512 = 0 ∧ pg + 512 ≤ page_num (zone s).
Proof.
  intros H. destruct (wf_block _ _ (pg, 9) (proj1 (ko_zone _ _ _ _ K))) as (_ & ? & ? & ?); [|done].
  right. apply elem_of_union_l, elem_of_slab_blocks. done.
Qed.

(** Two slabs do not overlap. *)
Lemma slab_apart pg pg' : pg ∈ dom G → pg' ∈ dom G → pg ≠ pg' →
  base (zone s) pg + 2 ^ 21 ≤ base (zone s) pg' ∨ base (zone s) pg' + 2 ^ 21 ≤ base (zone s) pg.
Proof.
  intros (_ & M1 & _)%slab_block_ok (_ & M2 & _)%slab_block_ok N.
  apply Z.mod_divide in M1 as [a ->], M2 as [b ->]; try done.
  unfold base. change BUDDY_PAGE_SIZE with 4096. assert (a ≠ b) by congruence. lia.
Qed.

Lemma base_pos pg : pg ∈ dom G → 0 < base (zone s) pg.
Proof.
  intros (H & _)%slab_block_ok. pose proof (ko_pos _ _ _ _ K). unfold base.
  change BUDDY_PAGE_SIZE with 4096. lia.
Qed.

(** An address in a slab gives the slab. *)
Lemma slab_unique pg pg' x : pg ∈ dom G → pg' ∈ dom G →
  base (zone s) pg ≤ x < base (zone s) pg + 2 ^ 21 →
  base (zone s) pg' ≤ x < base (zone s) pg' + 2 ^ 21 → pg = pg'.
Proof.
  intros H1 H2 R1 R2. destruct (Z.eq_dec pg pg') as [|N]; [done|].
  pose proof (slab_apart pg pg' H1 H2 N). lia.
Qed.

Lemma slot_in_slab pg o fl x : G !! pg = Some (o, fl) → is_slot (base (zone s) pg) o x →
  base (zone s) pg + 32 ≤ x ∧ x + 2 ^ o ≤ base (zone s) pg + 2 ^ 21 ∧ 32 ≤ 2 ^ o.
Proof.
  intros HG Hx. pose proof (so_order _ _ _ _ _ (ko_slab _ _ _ _ K _ _ _ HG)) as Ho.
  pose proof (slot_range _ _ _ Ho Hx). unfold SLAB_MIN_ORDER in Ho.
  assert (2 ^ 5 ≤ 2 ^ o) by (apply Z.pow_le_mono_r; lia). lia.
Qed.

Lemma kmem_upd pg o fl fl' m' Ls' : G !! pg = Some (o, fl) →
  (∀ x, ¬ (base (zone s) pg ≤ x < base (zone s) pg + 2 ^ 21) → m' !! x = mem s !! x) →
  (∀ x, ¬ (base (zone s) pg ≤ x < base (zone s) pg + 2 ^ 21) → x ∈ Ls' ↔ x ∈ Ls) →
  (∀ x, x ∈ Ls' → x ∈ Ls ∨ is_slot (base (zone s) pg) o x) →
  slab_ok m' Ls' (base (zone s) pg) o fl' →
  kmem_ok (mk_kmem (zone s) m' (slabs s)) (<[pg := (o, fl')]> G) Ls' Lb.
Proof.
  intros HG Hm HL HL' HS. pose proof (dom_G _ _ _ HG) as Dp.
  assert (dom (<[pg := (o, fl')]> G) = dom G) as ED by (rewrite dom_insert_L; set_solver).
  assert (slab_blocks (<[pg := (o, fl')]> G) = slab_blocks G) as EB by (unfold slab_blocks; by rewrite ED).
  destruct K as [K1 K2 K3 K4 K5 K6 K7 K8 K9 K10]. split; rewrite ?EB, ?ED; simpl; try done.
  - intros pg' o' fl1. rewrite lookup_insert_Some. intros [[-> [= <- <-]]|[N H]]; [done|].
    assert (∀ x, base (zone s) pg' ≤ x < base (zone s) pg' + 2 ^ 21 →
      ¬ (base (zone s) pg ≤ x < base (zone s) pg + 2 ^ 21)) as A.
    { intros x R1 R2. apply N. eapply slab_unique; eauto using dom_G. }
    eapply slab_ok_frame; [| |by apply K8]; intros x Hx; [apply Hm|apply HL]; auto.
  - intros x [H|H]%HL'.
    + destruct (K9 x H) as (pg' & o' & fl1 & H1 & H2). destruct (Z.eq_dec pg pg') as [<-|N].
      * rewrite HG in H1. injection H1 as <- <-. exists pg, o, fl'. by rewrite lookup_insert_eq.
      * exists pg', o', fl1. by rewrite lookup_insert_ne.
    + exists pg, o, fl'. by rewrite lookup_insert_eq.
Qed.

Lemma listed_upd pg o fl fl' m' o1 l : G !! pg = Some (o, fl) →
  (∀ pg', pg' ∈ dom G → m' !! next_slab (base (zone s) pg') = mem s !! next_slab (base (zone s) pg')) →
  listed s G o1 l → listed (mk_kmem (zone s) m' (slabs s)) (<[pg := (o, fl')]> G) o1 l.
Proof.
  intros HG Hm (L1 & h & Hh & L2 & L3 & C). split; [done|]. exists h. split; [done|]. split_and!; [done| |].
  - intros pg'. rewrite L3. split; intros [f Hf].
    + destruct (Z.eq_dec pg pg') as [<-|N].
      * rewrite HG in Hf. injection Hf as <- <-. exists fl'. by rewrite lookup_insert_eq.
      * exists f. by rewrite lookup_insert_ne.
    + apply lookup_insert_Some in Hf as [[<- [= <- <-]]|[N H]]; eauto.
  - eapply word_chain_frame; [|exact C].
    intros q (pg' & -> & [f Hf]%L3)%list_elem_of_fmap. apply (Hm pg'). eauto using dom_G.
Qed.

(** A write inside slab [pg] to a word other than its header fields leaves
    every [next_slab] alone. *)
Lemma next_slab_frame pg pg' x v (m : gmap Z Z) : pg ∈ dom G → pg' ∈ dom G →
  base (zone s) pg ≤ x < base (zone s) pg + 2 ^ 21 → x ≠ next_slab (base (zone s) pg) →
  <[x := v]> m !! next_slab (base (zone s) pg') = m !! next_slab (base (zone s) pg').
Proof.
  intros H1 H2 Hx N. apply lookup_insert_ne. unfold next_slab in *. intros ->.
  apply N. do 2 f_equal. symmetry. apply (slab_unique pg pg' (base (zone s) pg' + 8)); try done; lia.
Qed.

End kmem.

(** Popping a slot keeps the heap well formed. *)
Lemma heap_pop s G Ls Lb pg o x fl r : heap_ok s G Ls Lb → G !! pg = Some (o, x :: fl) →
  mem s !! x = Some r →
  heap_ok (mk_kmem (zone s) (<[free_list_head (base (zone s) pg) := r]> (mem s)) (slabs s))
          (<[pg := (o, fl)]> G) ({[x]} ∪ Ls) Lb ∧
  is_slot (base (zone s) pg) o x ∧ (x ∉ Ls).
Proof.
  intros [K HL] HG Hr. pose proof (ko_slab _ _ _ _ K _ _ _ HG) as SO.
  destruct (slab_ok_pop _ _ _ _ _ _ _ SO Hr) as (SO' & Sx & Nx). split; [|done].
  pose proof (slot_in_slab _ _ _ _ K _ _ _ _ HG Sx) as (R1 & R2 & R3).
  pose proof (dom_G _ _ _ HG) as Dp. split.
  - eapply kmem_upd; try done; intros y Hy.
    + apply lookup_insert_ne. unfold free_list_head. lia.
    + rewrite elem_of_union, elem_of_singleton. split; [intros [->|]; [lia|done]|auto].
    + apply elem_of_union in Hy as [->%elem_of_singleton|]; auto.
  - intros o1 Ho1. destruct (HL o1 Ho1) as [l Hl]. exists l. eapply listed_upd; try done.
    intros pg' D'. eapply (next_slab_frame _ _ _ _ K pg); try done; unfold free_list_head, next_slab; lia.
Qed.

(** Pushing a live slot keeps the heap well formed. *)
Lemma heap_push s G Ls Lb pg o x fl h : heap_ok s G Ls Lb → G !! pg = Some (o, fl) →
  is_slot (base (zone s) pg) o x → x ∈ Ls → mem s !! free_list_head (base (zone s) pg) = Some h →
  heap_ok (mk_kmem (zone s) (<[free_list_head (base (zone s) pg) := x]> (<[next_free x := h]> (mem s)))
            (slabs s)) (<[pg := (o, x :: fl)]> G) (Ls ∖ {[x]}) Lb.
Proof.
  intros [K HL] HG Sx Lx Hh. pose proof (ko_slab _ _ _ _ K _ _ _ HG) as SO.
  pose proof (slot_in_slab _ _ _ _ K _ _ _ _ HG Sx) as (R1 & R2 & R3).
  pose proof (dom_G _ _ _ HG) as Dp. pose proof (base_pos _ _ _ _ K _ Dp) as B0. split.
  - eapply kmem_upd; try done; try (intros y Hy).
    + unfold free_list_head, next_free. rewrite !lookup_insert_ne by lia. done.
    + rewrite elem_of_difference, elem_of_singleton. split; [tauto|]. intros ?. split; [done|lia].
    + set_solver.
    + apply slab_ok_push; try done. lia.
  - intros o1 Ho1. destruct (HL o1 Ho1) as [l Hl]. exists l. eapply listed_upd; try done.
    intros pg' D'. unfold free_list_head, next_free.
    rewrite (next_slab_frame _ _ _ _ K pg), (next_slab_frame _ _ _ _ K pg); try done; unfold next_slab; lia.
Qed.

(** ** A new slab *)

Lemma alloc_slab_memory_spec s G Ls Lb : kmem_ok s G Ls Lb →
  (alloc_slab_memory SLAB_INIT_SIZE s = Halt ∧ ∀ i k, 9 ≤ k → ¬ free_blk (zone s) (i, k)) ∨ ∃ pg z',
  alloc_slab_memory SLAB_INIT_SIZE s = Done (base (zone s) pg) (mk_kmem z' (mem s) (slabs s)) ∧
  zone_ok z' ({[(pg, 9)]} ∪ (slab_blocks G ∪ Lb)) ∧ ((pg, 9) ∉ slab_blocks G ∪ Lb) ∧
  page_num z' = page_num (zone s) ∧ start_addr z' = start_addr (zone s) ∧
  end_addr z' = end_addr (zone s) ∧
  ∀ j, slab <$> pages z' !! j =
    if decide (covers (pg, 9) j) then Some (base (zone s) pg) else slab <$> pages (zone s) !! j.
Proof.
  intros K. unfold alloc_slab_memory. change (size_to_order (SLAB_INIT_SIZE / BUDDY_PAGE_SIZE)) with 9.
  change (Z.to_nat (order_to_size 9)) with 512%nat.
  destruct (buddy_get_pages_spec (zone s) _ 9 (ko_zone _ _ _ _ K)) as (r & z1 & E & S1 & _ & R).
  { by vm_compute. }
  erewrite bind_Done by (apply zoom_Done; exact E). destruct r as [pg|]; [|left; by split; [|apply R]]. right.
  destruct R as (ZO & N & _). destruct S1 as (P1 & P2 & P3 & P4).
  set (s1 := mk_kmem z1 (mem s) (slabs s)). erewrite bind_Done by done.
  destruct (ko_pos _ _ _ _ K) as [K1 K2]. pose proof (ko_end _ _ _ _ K) as K3.
  pose proof (ko_top _ _ _ _ K) as K4.
  assert (base z1 pg = base (zone s) pg) as EB by (unfold base; by rewrite P2).
  change (zone s1) with z1. assert (page_to_virt z1 (Some pg) = base z1 pg) as ->.
  { destruct (wf_block _ _ (pg, 9) (proj1 ZO)) as (_ & ? & _ & Hp); [set_solver|]. simpl in Hp.
    change (2 ^ 9) with 512 in Hp. apply u64_id. unfold is_u64, base. rewrite P1 in Hp. rewrite P2.
    change BUDDY_PAGE_SIZE with 4096 in *. simpl in *. lia. }
  rewrite <- P1, <- P2, <- P3 in K3. rewrite <- P2 in K1. rewrite <- P3 in K4.
  destruct (mark_slab_pages_spec 512 s1 ({[(pg, 9)]} ∪ (slab_blocks G ∪ Lb)) pg 0 ZO
    ltac:(set_solver) ltac:(lia) ltac:(lia) K1 K3 K4) as (z' & E' & ZO' & (M1 & M2 & M3 & M4 & M5)).
  exists pg, z'. change (zone s1) with z1 in *. erewrite bind_Done by exact E'.
  rewrite <- EB. rewrite P1 in M1. rewrite P2 in M2. rewrite P3 in M3. split_and!; try done.
  intros j. rewrite M5, Z.add_0_r. unfold covers. simpl. change (2 ^ 9) with 512.
  rewrite (decide_ext (pg ≤ j < pg + Z.of_nat 512) (pg ≤ j < pg + 512)) by lia.
  case_decide; [done|apply P4].
Qed.

Lemma link_slots_spec n a T s j : 0 < T → 0 ≤ a → 0 ≤ j → a + (j + Z.of_nat n) * T < 2 ^ 64 → ∃ m',
  link_slots n (a + j * T) T s = Done (a + (j + Z.of_nat n) * T) (mk_kmem (zone s) m' (slabs s)) ∧
  (∀ i, j ≤ i < j + Z.of_nat n → m' !! (a + i * T) = Some (a + (i + 1) * T)) ∧
  (∀ x, (∀ i, j ≤ i < j + Z.of_nat n → x ≠ a + i * T) → m' !! x = mem s !! x).
Proof.
  intros HT Ha. revert s j. induction n as [|n IH]; intros s j Hj Hb.
  - exists (mem s). simpl. rewrite Z.add_0_r. split_and!; [by destruct s|lia|done].
  - cbn [link_slots]. unfold next_free.
    assert (u64 (a + j * T + T) = a + (j + 1) * T) as ->.
    { transitivity (a + j * T + T); [|lia]. apply u64_id. unfold is_u64. nia. }
    erewrite bind_Done by done.
    destruct (IH (mk_kmem (zone s) (<[a + j * T := a + (j + 1) * T]> (mem s)) (slabs s)) (j + 1))
      as (m' & E & H1 & H2); [lia|by replace (j + 1 + Z.of_nat n) with (j + Z.of_nat (S n)) by lia|].
    replace (j + 1 + Z.of_nat n) with (j + Z.of_nat (S n)) in * by lia.
    exists m'. split_and!; [exact E| |].
    + intros i Hi. destruct (Z.eq_dec i j) as [->|]; [|apply H1; lia].
      rewrite H2; simpl; [by rewrite lookup_insert_eq|]. intros i' Hi'. nia.
    + intros x Hx. rewrite H2 by (intros i Hi; apply Hx; lia). simpl.
      apply lookup_insert_ne. intros <-. by apply (Hx j); [lia|].
Qed.

(** The slots of a slab as a list. *)
Definition slots (a o : Z) : list Z := (λ i, a + i * 2 ^ o) <$> seqZ 1 (2 ^ (21 - o) - 1).

Lemma elem_of_slots a o x : x ∈ slots a o ↔ is_slot a o x.
Proof.
  unfold slots, is_slot. rewrite list_elem_of_fmap. split; intros (i & H).
  - destruct H as [-> H%elem_of_seqZ]. exists i. split; [lia|done].
  - exists i. split; [apply H|apply elem_of_seqZ; lia].
Qed.

Lemma chain_run (m : gmap Z Z) a T n j : 0 < T → 0 < a → 0 ≤ j →
  (∀ i, j ≤ i < j + Z.of_nat n → m !! (a + i * T) = Some (a + (i + 1) * T)) →
  m !! (a + (j + Z.of_nat n) * T) = Some 0 →
  chain m 0 (a + j * T) ((λ i, a + i * T) <$> seqZ j (Z.of_nat n + 1)).
Proof.
  intros HT Ha. revert j. induction n as [|n IH]; intros j Hj H1 H2;
    rewrite seqZ_cons by lia; simpl; rewrite !Z.add_0_r; (split_and!; [done|nia|]).
  - exists 0. rewrite <- H2. split; [f_equal; lia|done].
  - exists (a + (j + 1) * T). split; [apply H1; lia|].
    replace (Z.pred _) with (Z.of_nat n + 1) by lia. replace (Z.succ j) with (j + 1) by lia.
    apply IH; [lia|intros; apply H1; lia|by rewrite <- H2; do 3 f_equal; lia].
Qed.

(** The header and the linked slots [init_slab_cache] writes form a slab with
    every slot free. *)
Lemma fresh_slab_ok m L a o : SLAB_MIN_ORDER ≤ o ≤ SLAB_MAX_ORDER → 0 < a →
  (∀ x, a ≤ x < a + 2 ^ 21 → x ∉ L) →
  m !! free_list_head a = Some (a + 1 * 2 ^ o) → m !! order_field a = Some o →
  (∀ i, 1 ≤ i < 2 ^ (21 - o) - 1 → m !! (a + i * 2 ^ o) = Some (a + (i + 1) * 2 ^ o)) →
  m !! (a + (2 ^ (21 - o) - 1) * 2 ^ o) = Some 0 →
  slab_ok m L a o (slots a o).
Proof.
  intros Ho Ha HL H1 H2 H3 H4. unfold SLAB_MIN_ORDER, SLAB_MAX_ORDER in Ho.
  pose proof (pow2_pos o ltac:(lia)) as T0.
  assert (2 ^ 10 ≤ 2 ^ (21 - o)) as N0 by (apply Z.pow_le_mono_r; lia). change (2 ^ 10) with 1024 in N0.
  split; try done.
  - exists (a + 1 * 2 ^ o). split; [done|]. unfold slots.
    replace (2 ^ (21 - o) - 1) with (Z.of_nat (Z.to_nat (2 ^ (21 - o) - 2)) + 1) by lia.
    apply chain_run; try lia.
    + intros i Hi. apply H3. lia.
    + rewrite <- H4. do 3 f_equal. lia.
  - apply NoDup_fmap_2_strong; [|apply NoDup_seqZ]. intros x y _ _ E.
    apply (Z.mul_reg_r _ _ (2 ^ o)); lia.
  - intros x. rewrite elem_of_slots. split; [|by intros [? _]]. intros Hx. split; [done|].
    apply HL. pose proof (slot_range a o x Ho Hx). lia.
Qed.

(** What a new slab adds to the state. *)
Lemma kmem_new_slab s G Ls Lb z' m' pg o fl : kmem_ok s G Ls Lb →
  zone_ok z' ({[(pg, 9)]} ∪ (slab_blocks G ∪ Lb)) → ((pg, 9) ∉ slab_blocks G ∪ Lb) →
  page_num z' = page_num (zone s) → start_addr z' = start_addr (zone s) →
  end_addr z' = end_addr (zone s) →
  (∀ j, slab <$> pages z' !! j =
    if decide (covers (pg, 9) j) then Some (base (zone s) pg) else slab <$> pages (zone s) !! j) →
  (∀ x, ¬ (base (zone s) pg ≤ x < base (zone s) pg + 2 ^ 21) → m' !! x = mem s !! x) →
  slab_ok m' Ls (base (zone s) pg) o fl →
  kmem_ok (mk_kmem z' m' (slabs s)) (<[pg := (o, fl)]> G) Ls Lb.
Proof.
  intros K ZO N P1 P2 P3 P4 Hm HS.
  assert (∀ p, base z' p = base (zone s) p) as EB by (intros; unfold base; by rewrite P2).
  assert (∀ pg' i, pg' ∈ dom G → covers (pg', 9) i → ¬ covers (pg, 9) i) as Sep.
  { intros pg' i D C C'. apply N, elem_of_union_l, elem_of_slab_blocks. split; [done|].
    assert ((pg, 9) = (pg', 9)) as E; [|by injection E as ->].
    apply (wf_same z' _ _ _ i (proj1 ZO)); try done; right; [set_solver|].
    apply elem_of_union_r, elem_of_union_l, elem_of_slab_blocks. done. }
  destruct K as [K1 K2 K3 K4 K5 K6 K7 K8 K9 K10].
  split; simpl; rewrite ?slab_blocks_insert, ?P1, ?P2, ?P3; try done.
  - by rewrite <- (assoc_L (∪)).
  - set_solver.
  - intros pg' i. rewrite dom_insert_L, elem_of_union, elem_of_singleton, P4, EB. intros [->|D] C.
    + by rewrite decide_True.
    + rewrite decide_False by (by eapply Sep). by apply K6.
  - intros i p Hi Hp Hs. specialize (P4 i). rewrite Hp in P4. simpl in P4. case_decide as C.
    + exists pg. split; [set_solver|done].
    + destruct (pages (zone s) !! i) as [p0|] eqn:E; [|done]. injection P4 as E'.
      destruct (K7 i p0) as (pg' & D & C'); [done|done|congruence|]. exists pg'. split; [set_solver|done].
  - intros pg' o' fl1. rewrite lookup_insert_Some, EB. intros [[<- [= <- <-]]|[Ne H]]; [done|].
    eapply slab_ok_frame; [|done|by apply K8]. intros x Hx. apply Hm. intros Hy.
    apply (Sep pg' (pg' + (x - base (zone s) pg') / 4096)); [by eapply dom_G| |];
      unfold covers, base in *; simpl; change (2 ^ 9) with 512; change (2 ^ 21) with (512 * 4096) in *;
      change BUDDY_PAGE_SIZE with 4096 in *; [|];
      pose proof (Z.div_mod (x - (start_addr (zone s) + pg' * 4096)) 4096 ltac:(lia));
      pose proof (Z.mod_pos_bound (x - (start_addr (zone s) + pg' * 4096)) 4096 ltac:(lia)); lia.
  - intros x Hx. destruct (K9 x Hx) as (pg' & o' & fl1 & H1 & H2). exists pg', o', fl1.
    rewrite EB, lookup_insert_ne; [done|]. intros <-.
    apply N, elem_of_union_l, elem_of_slab_blocks. eauto using dom_G.
Qed.

Lemma order_to_size_small o : 0 ≤ o < 64 → order_to_size o = 2 ^ o.
Proof.
  intros H. unfold order_to_size. rewrite Z.shiftl_mul_pow2, Z.mul_1_l by lia. apply u64_id.
  unfold is_u64. pose proof (pow2_pos o ltac:(lia)). split; [lia|]. apply Z.pow_lt_mono_r; lia.
Qed.

(** No live slot lies in a block that is neither a slab nor live. *)
Lemma no_live_slot s G Ls Lb z' pg k x : kmem_ok s G Ls Lb →
  wf z' ({[(pg, k)]} ∪ (slab_blocks G ∪ Lb)) → ((pg, k) ∉ slab_blocks G ∪ Lb) →
  base (zone s) pg ≤ x < base (zone s) pg + 2 ^ k * 4096 → x ∉ Ls.
Proof.
  intros K W N Hx Hl. destruct (ko_live _ _ _ _ K x Hl) as (pg' & o & fl & HG & Sx).
  pose proof (slot_in_slab _ _ _ _ K _ _ _ _ HG Sx) as (R1 & R2 & R3). apply dom_G in HG as D.
  assert ((pg', 9) ∈ slab_blocks G) as B by (by apply elem_of_slab_blocks).
  apply N, elem_of_union_l. replace (pg, k) with (pg', 9); [done|].
  unfold base in *. change BUDDY_PAGE_SIZE with 4096 in *. change (2 ^ 21) with (512 * 4096) in *.
  set (i := (x - start_addr (zone s)) / 4096).
  pose proof (Z.div_mod (x - start_addr (zone s)) 4096 ltac:(lia)).
  pose proof (Z.mod_pos_bound (x - start_addr (zone s)) 4096 ltac:(lia)). fold i in H.
  apply (wf_same z' _ _ _ i W); [right; set_solver|right; set_solver| |]; unfold covers; simpl;
    change (2 ^ 9) with 512; [lia|]. nia.
Qed.

Lemma init_slab_cache_spec s G Ls Lb o : kmem_ok s G Ls Lb → SLAB_MIN_ORDER ≤ o ≤ SLAB_MAX_ORDER →
  (init_slab_cache o SLAB_INIT_SIZE s = Halt ∧ ∀ i k, 9 ≤ k → ¬ free_blk (zone s) (i, k)) ∨ ∃ pg z' m',
  let a := base (zone s) pg in let s' := mk_kmem z' m' (slabs s) in
  init_slab_cache o SLAB_INIT_SIZE s = Done a s' ∧
  kmem_ok s' (<[pg := (o, slots a o)]> G) Ls Lb ∧ (pg ∉ dom G) ∧ start_addr z' = start_addr (zone s) ∧
  (∀ x, ¬ (a ≤ x < a + 2 ^ 21) → m' !! x = mem s !! x) ∧ m' !! next_slab a = Some 0 ∧
  page_num z' = page_num (zone s).
Proof.
  intros K Ho. unfold init_slab_cache.
  destruct (alloc_slab_memory_spec _ _ _ _ K) as [[E F]|(pg & z' & E & ZO & N & P1 & P2 & P3 & P4)].
  { left. split; [by apply bind_Halt|exact F]. }
  right. erewrite bind_Done by exact E. cbv zeta. set (a := base (zone s) pg) in *.
  assert (0 ≤ pg ∧ pg + 512 ≤ page_num (zone s)) as [Hp1 Hp2].
  { destruct (wf_block _ _ (pg, 9) (proj1 ZO)) as (_ & H1 & _ & H2); [right; apply elem_of_union_l; by apply elem_of_singleton|].
    simpl in H1, H2. change (2 ^ 9) with 512 in H2. lia. }
  destruct (ko_pos _ _ _ _ K) as [K1 K2]. pose proof (ko_end _ _ _ _ K) as K3.
  pose proof (ko_top _ _ _ _ K) as K4.
  assert (0 < a ∧ a + 2 ^ 21 < 2 ^ 64) as [A1 A2].
  { unfold a, base. change BUDDY_PAGE_SIZE with 4096 in *. lia. }
  pose proof Ho as Ho'. unfold SLAB_MIN_ORDER, SLAB_MAX_ORDER in Ho'.
  rewrite order_to_size_small by lia. set (T := 2 ^ o).
  assert (SLAB_INIT_SIZE / T = 2 ^ (21 - o)) as -> by (unfold T; change SLAB_INIT_SIZE with (2 ^ 21); by rewrite <- Z.pow_sub_r by lia).
  assert (32 ≤ T) as T1 by (unfold T; change 32 with (2 ^ 5); apply Z.pow_le_mono_r; lia).
  assert (2 ^ (21 - o) * T = 2 ^ 21) as TN by (unfold T; rewrite <- Z.pow_add_r by lia; f_equal; lia).
  assert (1024 ≤ 2 ^ (21 - o)) as N1 by (change 1024 with (2 ^ 10); apply Z.pow_le_mono_r; lia).
  set (NS := 2 ^ (21 - o)) in *.
  do 3 (erewrite bind_Done by reflexivity).
  cbn [zone mem slabs].
  replace (a + T) with (a + 1 * T) by lia.
  set (m0 := <[order_field a := o]> (<[next_slab a := 0]> (<[free_list_head a := a + 1 * T]> (mem s)))).
  destruct (link_slots_spec (Z.to_nat (NS - 1 - 1)) a T (mk_kmem z' m0 (slabs s)) 1)
    as (m1 & E1 & L1 & L2); [lia|lia|lia|rewrite Z2Nat.id by lia; nia|].
  erewrite bind_Done by exact E1. replace (1 + Z.of_nat (Z.to_nat (NS - 1 - 1))) with (NS - 1) in * by lia.
  cbn [zone mem slabs] in *.
  set (m' := <[next_free (a + (NS - 1) * T) := 0]> m1).
  assert (∀ x, x < a + T ∨ a + 2 ^ 21 ≤ x → m' !! x = m0 !! x) as Hm.
  { intros x Hx. unfold m', next_free. rewrite lookup_insert_ne by nia. apply L2. intros i Hi. nia. }
  assert (m0 !! order_field a = Some o ∧ m0 !! next_slab a = Some 0 ∧
    m0 !! free_list_head a = Some (a + 1 * T)) as (F1 & F2 & F3).
  { unfold m0, order_field, next_slab, free_list_head. split_and!.
    - by rewrite lookup_insert_eq.
    - by rewrite lookup_insert_ne, lookup_insert_eq by lia.
    - by rewrite !lookup_insert_ne, lookup_insert_eq by lia. }
  assert (∀ x, ¬ (a ≤ x < a + 2 ^ 21) → m' !! x = mem s !! x) as Ho2.
  { intros x Hx. rewrite Hm by lia. unfold m0, order_field, next_slab, free_list_head.
    by rewrite !lookup_insert_ne by lia. }
  exists pg, z', m'. split; [reflexivity|]. clear E E1. split_and!; [ | |done|done| |done].
  - eapply kmem_new_slab; try done. apply fresh_slab_ok; try done; try (unfold order_field, free_list_head in *; rewrite Hm by lia; done).
    + intros x Hx. eapply (no_live_slot s G Ls Lb z' pg 9); [done|apply ZO|done|]. fold a. lia.
    + intros i Hi. unfold m', next_free. fold NS T in Hi |- *. rewrite lookup_insert_ne by nia. by apply L1.
    + unfold m', next_free. by rewrite lookup_insert_eq.
  - intros D. apply N, elem_of_union_l, elem_of_slab_blocks. done.
  - rewrite Hm by (unfold next_slab; lia). done.
Qed.

(** ** Allocation from a slab *)

Lemma word_load_ok a v s : mem s !! a = Some v → load a s = Done v s.
Proof. intros H. unfold load, bind, get. by rewrite H. Qed.

(** The state after the first free slot, whose next is [r], left slab [pg]. *)
Definition popped (s : kmem) (pg r : Z) : kmem :=
  mk_kmem (zone s) (<[free_list_head (base (zone s) pg) := r]> (mem s)) (slabs s).

(** The first word of a slab header tells whether the slab has a free slot. *)
Lemma slab_first s G Ls Lb pg o fl : kmem_ok s G Ls Lb → G !! pg = Some (o, fl) → ∃ h,
  load (free_list_head (base (zone s) pg)) s = Done h s ∧ (h = 0 ↔ fl = []) ∧
  (h ≠ 0 → ∃ fl' r, fl = h :: fl' ∧ mem s !! h = Some r).
Proof.
  intros K HG. destruct (so_list _ _ _ _ _ (ko_slab _ _ _ _ K _ _ _ HG)) as (h & Hh & C).
  exists h. split_and!; [by apply word_load_ok|by eapply chain_head|]. intros H0.
  destruct (chain_cons _ _ _ _ C H0) as (fl' & r & -> & Hr & _). rewrite Z.add_0_r in Hr. by exists fl', r.
Qed.

Lemma scan_slabs_spec s G Ls Lb o l p n : kmem_ok s G Ls Lb →
  chain (mem s) 8 p (base (zone s) <$> l) → (∀ pg, pg ∈ l → ∃ fl, G !! pg = Some (o, fl)) →
  (length l < n)%nat →
  (scan_slabs n p s = Done 0 s ∧ ∀ pg, pg ∈ l → G !! pg = Some (o, [])) ∨
  ∃ pg x fl r, scan_slabs n p s = Done x (popped s pg r) ∧ x ≠ 0 ∧
    G !! pg = Some (o, x :: fl) ∧ mem s !! x = Some r.
Proof.
  intros K. revert p n. induction l as [|pg l IH]; intros p n C Hl Hn; (destruct n as [|n]; [simpl in Hn; lia|]).
  - simpl in C. subst p. left. split; [done|]. intros pg H. by apply not_elem_of_nil in H.
  - simpl in C. destruct C as (-> & B0 & r & Hr & C). cbn [scan_slabs].
    rewrite (proj2 (Z.eqb_neq _ _) B0). destruct (Hl pg ltac:(set_solver)) as [fl HG].
    destruct (slab_first _ _ _ _ _ _ _ K HG) as (h & E & Hz & Hc). erewrite bind_Done by exact E.
    destruct (Z.eqb_spec h 0) as [->|N]; simpl.
    + erewrite bind_Done by (apply word_load_ok; exact Hr).
      destruct (IH r n C) as [[E' H]|H]; [intros; apply Hl; set_solver|simpl in Hn; lia| |by right].
      left. split; [done|]. intros pg' [->|H']%elem_of_cons; [|by apply H].
      rewrite HG. by rewrite (proj1 Hz eq_refl).
    + right. destruct (Hc N) as (fl' & r' & -> & Hr'). exists pg, h, fl', r'. split_and!; try done.
      erewrite bind_Done by (apply word_load_ok; exact Hr'). done.
Qed.

(** The slabs of a list are all in memory, which bounds the fuel of the scan. *)
Lemma listed_fuel (m : gmap Z Z) z p l : NoDup l → chain m 8 p (base z <$> l) → (length l < S (size m))%nat.
Proof.
  intros N C. assert (list_to_set ((λ pg, base z pg + 8) <$> l) ⊆ dom m) as S.
  { intros x Hx. apply elem_of_list_to_set, list_elem_of_fmap in Hx as (pg & -> & H).
    revert p C. induction l as [|q l IH]; intros p C; [by apply not_elem_of_nil in H|].
    simpl in C. destruct C as (_ & _ & r & Hr & C). apply NoDup_cons in N as [_ N].
    apply elem_of_cons in H as [->|H]; [apply elem_of_dom; by eexists|by eapply IH]. }
  apply subseteq_size in S. rewrite size_list_to_set, length_fmap, size_dom in S; [lia|].
  apply NoDup_fmap_2_strong; [|done]. intros x y _ _. unfold base. change BUDDY_PAGE_SIZE with 4096. lia.
Qed.

(** Slabs stay slabs of their order. *)
Definition slabs_kept (G G' : slab_map) : Prop :=
  ∀ pg o fl, G !! pg = Some (o, fl) → ∃ fl', G' !! pg = Some (o, fl').

Lemma slabs_kept_insert G pg o fl fl' : G !! pg = Some (o, fl) → slabs_kept G (<[pg := (o, fl')]> G).
Proof.
  intros HG pg' o' f Hf. destruct (Z.eq_dec pg pg') as [<-|N].
  - rewrite HG in Hf. injection Hf as <- <-. exists fl'. by rewrite lookup_insert_eq.
  - exists f. by rewrite lookup_insert_ne.
Qed.

(** What allocating a slot of order [o] promises. *)
Definition slot_post (s : kmem) (G : slab_map) (Ls : gset Z) (Lb : gset block) (o x : Z)
    (s' : kmem) : Prop :=
  ∃ G' pg fl, heap_ok s' G' ({[x]} ∪ Ls) Lb ∧ (x ∉ Ls) ∧ x ≠ 0 ∧ slabs_kept G G' ∧
    start_addr (zone s') = start_addr (zone s) ∧
    G' !! pg = Some (o, fl) ∧ is_slot (base (zone s') pg) o x.

Lemma pop_post s s0 G Ls Lb pg o x fl r : heap_ok s G Ls Lb → G !! pg = Some (o, x :: fl) →
  mem s !! x = Some r → x ≠ 0 → start_addr (zone s) = start_addr (zone s0) →
  slot_post s0 G Ls Lb o x (popped s pg r).
Proof.
  intros H HG Hr Hx Es. destruct (heap_pop _ _ _ _ _ _ _ _ _ H HG Hr) as (H' & S & N).
  exists (<[pg := (o, fl)]> G), pg, fl. split_and!; try done; [by eapply slabs_kept_insert|by rewrite lookup_insert_eq].
Qed.

Lemma fmap_base z z' (l : list Z) : start_addr z' = start_addr z → base z' <$> l = base z <$> l.
Proof. intros E. apply list_fmap_ext. intros. unfold base. by rewrite E. Qed.

(** The link of a slab and the table are no part of [kmem_ok]. *)
Lemma kmem_relink s G Ls Lb pg h sl : kmem_ok s G Ls Lb → pg ∈ dom G → length sl = length (slabs s) →
  kmem_ok (mk_kmem (zone s) (<[next_slab (base (zone s) pg) := h]> (mem s)) sl) G Ls Lb.
Proof.
  intros K D Hl. pose proof K as [K1 K2 K3 K4 K5 K6 K7 K8 K9 K10]. split; simpl; try done; [|congruence].
  intros pg' o fl HG. destruct (K8 pg' o fl HG) as [S1 S2 (h' & S3 & S4) S5 S6].
  assert (∀ x, base (zone s) pg' ≤ x < base (zone s) pg' + 2 ^ 21 → x ≠ next_slab (base (zone s) pg') →
    <[next_slab (base (zone s) pg) := h]> (mem s) !! x = mem s !! x) as Hx.
  { intros x Hx N. apply lookup_insert_ne. intros <-. apply N. unfold next_slab in *. do 2 f_equal.
    apply (slab_unique _ _ _ _ K pg pg' (base (zone s) pg + 8)); try done; [by eapply dom_G|lia]. }
  split; try done.
  - rewrite Hx; unfold next_slab, order_field; [done|lia|lia].
  - exists h'. rewrite Hx; unfold next_slab, free_list_head; [|lia|lia]. split; [done|].
    eapply word_chain_frame; [|exact S4]. intros q [Q _]%S6. pose proof (slot_range _ _ _ S1 Q).
    unfold SLAB_MIN_ORDER in S1. pose proof (pow2_pos o). rewrite Z.add_0_r. apply Hx; unfold next_slab; lia.
Qed.

(** A new slab at the front of its list; [P] are the other orders that have
    their slabs listed. *)
Lemma new_slab_listed s G Ls Lb o l z' m' pg h (P : Z → Prop) : 
  linked s G o l h → (∀ o1, P o1 → 0 ≤ o1 ∧ o1 ≠ o ∧ ∃ l, listed s G o1 l) →
  SLAB_MIN_ORDER ≤ o ≤ SLAB_MAX_ORDER →
  let a := base (zone s) pg in
  kmem_ok (mk_kmem z' m' (slabs s)) (<[pg := (o, slots a o)]> G) Ls Lb →
  pg ∉ dom G → start_addr z' = start_addr (zone s) →
  (∀ x, ¬ (a ≤ x < a + 2 ^ 21) → m' !! x = mem s !! x) →
  let s' := mk_kmem z' (<[next_slab a := h]> m') (<[Z.to_nat o := a]> (slabs s)) in
  let G' := <[pg := (o, slots a o)]> G in
  kmem_ok s' G' Ls Lb ∧ ∀ o1, P o1 ∨ o1 = o → ∃ l, listed s' G' o1 l.
Proof.
  intros (L2 & L3 & C) HP Ho a K' D Es Hm s' G'. fold G' in K'.
  assert (∀ p, base z' p = base (zone s) p) as EB by (intros; unfold base; by rewrite Es).
  assert (pg ∈ dom G') as D' by (apply elem_of_dom; unfold G'; rewrite lookup_insert_eq; by eexists).
  assert (∀ o fl pg', G !! pg' = Some (o, fl) → pg' ≠ pg) as Ne
    by (intros o1 fl pg' HG ->; apply D; by eapply dom_G).
  assert (∀ pg' o fl, G !! pg' = Some (o, fl) → mem s' !! (base (zone s) pg' + 8) = mem s !! (base (zone s) pg' + 8)) as Hn.
  { intros pg' o1 fl HG. destruct (slab_apart _ _ _ _ K' pg pg' D') as [A|A];
      [unfold G'; apply elem_of_dom; rewrite lookup_insert_ne by (by apply not_eq_sym; eapply Ne); by eexists
      |by apply not_eq_sym; eapply Ne| |]; cbn [zone] in A; rewrite !EB in A; fold a in A; simpl;
      rewrite lookup_insert_ne, Hm; unfold next_slab; try done; lia. }
  pose proof (ko_table _ _ _ _ K') as HT. simpl in HT. unfold SLAB_MIN_ORDER, SLAB_MAX_ORDER in Ho, HT.
  split.
  { unfold s', a. rewrite <- EB. eapply (kmem_relink _ _ _ _ pg h) in K'; [exact K'|done|]. by rewrite length_insert. }
  intros o1 [(Hp & No & l1 & M1 & h1 & Hh1 & M2 & M3 & C1)%HP| ->].
  - exists l1. split; [done|]. exists h1. split_and!; [|split_and!; [done| |]].
    + simpl. by rewrite list_lookup_insert_ne by lia.
    + intros pg'. rewrite M3. unfold G'. split; intros [fl HG].
      * exists fl. rewrite lookup_insert_ne; [done|]. by apply not_eq_sym; eapply Ne.
      * apply lookup_insert_Some in HG as [[<- [= E _]]|[_ HG]]; [lia|eauto].
    + rewrite (fmap_base (zone s)) by done.
      eapply word_chain_frame; [|exact C1]. intros q (pg' & -> & [fl HG]%M3)%list_elem_of_fmap. by eapply Hn.
  - exists (pg :: l). split; [done|]. exists a. split_and!; [|split_and!].
    + simpl. apply list_lookup_insert_eq. lia.
    + apply NoDup_cons. split; [|done]. intros [fl HG]%L3. by eapply Ne.
    + intros pg'. rewrite elem_of_cons, L3. unfold G'. split.
      * intros [->|[fl HG]]; [exists (slots a o); by rewrite lookup_insert_eq|].
        exists fl. rewrite lookup_insert_ne; [done|]. by apply not_eq_sym; eapply Ne.
      * intros [fl HG]. apply lookup_insert_Some in HG as [[<- _]|[_ HG]]; eauto.
    + simpl. rewrite EB. fold a. split_and!; [done| |].
      { pose proof (base_pos _ _ _ _ K' pg D') as B. cbn [zone] in B. rewrite EB in B. fold a in B. lia. }
      exists h. unfold next_slab at 1. rewrite lookup_insert_eq. split; [done|].
      rewrite (fmap_base (zone s)) by done.
      eapply word_chain_frame; [|exact C]. intros q (pg' & -> & [fl HG]%L3)%list_elem_of_fmap. by eapply Hn.
Qed.

Lemma slots_cons a o : SLAB_MIN_ORDER ≤ o ≤ SLAB_MAX_ORDER → ∃ x l, slots a o = x :: l.
Proof.
  unfold SLAB_MIN_ORDER, SLAB_MAX_ORDER. intros H. unfold slots.
  assert (2 ^ 10 ≤ 2 ^ (21 - o)) by (apply Z.pow_le_mono_r; lia). change (2 ^ 10) with 1024 in *.
  rewrite seqZ_cons by lia. simpl. eauto.
Qed.

(** A free slot in the first slab is taken at once. *)
Lemma alloc_head n s G Ls Lb o pg x fl : heap_ok s G Ls Lb → G !! pg = Some (o, x :: fl) →
  ∃ s', _alloc_in_slab_nolock (S n) (base (zone s) pg) o s = Done x s' ∧ slot_post s G Ls Lb o x s'.
Proof.
  intros H HG. pose proof H as [K HL]. destruct (slab_first _ _ _ _ _ _ _ K HG) as (h & E & Hz & Hc).
  cbn [_alloc_in_slab_nolock]. erewrite bind_Done by exact E.
  destruct (Z.eqb_spec h 0) as [->|N]; [by specialize (proj1 Hz eq_refl)|].
  destruct (Hc N) as (fl' & r & [= <- <-] & Hr). exists (popped s pg r). cbn [negb].
  erewrite bind_Done by (apply word_load_ok; exact Hr). split; [done|by eapply pop_post].
Qed.

(** [_alloc_in_slab] returns a fresh slot of its order, or stops the machine
    because no memory for a new slab is left. *)
Lemma _alloc_in_slab_spec s G Ls Lb o h : heap_ok s G Ls Lb →
  SLAB_MIN_ORDER ≤ o ≤ SLAB_MAX_ORDER → slabs s !! Z.to_nat o = Some h →
  _alloc_in_slab h o s = Halt ∨ ∃ x s', _alloc_in_slab h o s = Done x s' ∧ slot_post s G Ls Lb o x s'.
Proof.
  intros H Ho Hh. pose proof H as [K HL]. unfold _alloc_in_slab.
  destruct (HL o Ho) as (l & L1 & h0 & Hh0 & L2 & L3 & C0). rewrite Hh in Hh0. injection Hh0 as <-.
  destruct l as [|pg l]; [done|]. destruct (proj1 (L3 pg) ltac:(set_solver)) as [fl HG].
  pose proof C0 as (-> & B0 & r & Hr & C).
  destruct fl as [|x fl]; [|right; destruct (alloc_head 1 _ _ _ _ _ _ _ _ H HG) as (s' & P); by exists x, s'].
  destruct (slab_first _ _ _ _ _ _ _ K HG) as (x & E & Hz & _). cbn [_alloc_in_slab_nolock].
  erewrite bind_Done by exact E. rewrite (proj2 Hz eq_refl), Z.eqb_refl. cbn [negb].
  erewrite bind_Done by (apply word_load_ok; exact Hr). erewrite bind_Done by reflexivity.
  destruct (scan_slabs_spec s G Ls Lb o l r (S (size (mem s))) K C) as [[E' He]|(pg1 & y & fl1 & r1 & E' & N & HG1 & Hr1)].
  { intros pg' H'. apply L3. set_solver. }
  { apply NoDup_cons in L2 as [_ L2]. by eapply listed_fuel. }
  2: { right. exists y, (popped s pg1 r1). erewrite bind_Done by exact E'.
       rewrite (proj2 (Z.eqb_neq _ _) N). split; [reflexivity|by eapply pop_post]. }
  erewrite bind_Done by exact E'. rewrite Z.eqb_refl. cbn [negb]. clear E E'.
  destruct (init_slab_cache_spec s G Ls Lb o K Ho) as [[E1 _]|(pg1 & z1 & m1 & E1 & K1 & D1 & S1 & M1 & _)].
  { left. by apply bind_Halt. }
  erewrite bind_Done by exact E1. clear E1. do 2 (erewrite bind_Done by reflexivity). cbn [mem zone slabs].
  set (a := base (zone s) pg1) in *. destruct (slots_cons a o Ho) as (x1 & fl1 & Ex).
  destruct (new_slab_listed s G Ls Lb o (pg :: l) z1 m1 pg1 (base (zone s) pg)
    (λ o1, SLAB_MIN_ORDER ≤ o1 ≤ SLAB_MAX_ORDER ∧ o1 ≠ o)) as [K2 L4]; try done.
  { intros o1 [Ho1 No]. split_and!; [unfold SLAB_MIN_ORDER in Ho1; lia|done|by apply HL]. }
  fold a in K2, L4. set (s2 := mk_kmem z1 (<[next_slab a := _]> m1) (<[_ := a]> _)) in *. set (G2 := <[pg1 := _]> G) in *.
  right. destruct (alloc_head 0 s2 G2 Ls Lb o pg1 x1 fl1) as (s' & E' & P).
  { split; [done|]. intros o1 Ho1. apply L4. destruct (Z.eq_dec o1 o); auto. }
  { unfold G2. by rewrite lookup_insert_eq, Ex. }
  exists x1, s'. split.
  - replace (base (zone s2) pg1) with a in E' by (unfold a, base; simpl; by rewrite S1). exact E'.
  - destruct P as (G' & pg' & fl' & P1 & P2 & P3 & P7 & P4 & P5 & P6). exists G', pg', fl'.
    split_and!; try done; [|rewrite P4; exact S1]. intros pg2 o2 f2 H2. apply (P7 pg2 o2 f2).
    unfold G2. rewrite lookup_insert_ne; [done|]. intros <-. apply D1. by eapply dom_G.
Qed.

(** ** The live regions *)

(** The region at [p] has [n] bytes: a live slot, or a live block of pages. *)
Definition region (z : global_mem) (G : slab_map) (Ls : gset Z) (Lb : gset block) (p n : Z) : Prop :=
  (p ∈ Ls ∧ ∃ pg o fl, G !! pg = Some (o, fl) ∧ is_slot (base z pg) o p ∧ n = 2 ^ o) ∨
  (∃ pg k, (pg, k) ∈ Lb ∧ p = base z pg ∧ n = 2 ^ k * BUDDY_PAGE_SIZE).

(** The heap with the live regions [L] (address to size). *)
Definition heap (s : kmem) (L : gmap Z Z) : Prop :=
  ∃ G Ls Lb, heap_ok s G Ls Lb ∧ ∀ p n, L !! p = Some n ↔ region (zone s) G Ls Lb p n.

Section regions.
Context (s : kmem) (G : slab_map) (Ls : gset Z) (Lb : gset block) (K : kmem_ok s G Ls Lb).

(** The handed-out block of pages a region lies in. *)
Lemma region_block p n : region (zone s) G Ls Lb p n → ∃ pg k,
  ((pg, k) ∈ slab_blocks G ∪ Lb) ∧ 0 < n ∧ 0 ≤ k ∧ 0 ≤ pg ∧ pg + 2 ^ k ≤ page_num (zone s) ∧
  base (zone s) pg ≤ p ∧ p + n ≤ base (zone s) pg + 2 ^ k * 4096.
Proof.
  intros [[Hp (pg & o & fl & HG & Sp & ->)]|(pg & k & Hb & -> & ->)].
  - pose proof (slot_in_slab _ _ _ _ K _ _ _ _ HG Sp) as (R1 & R2 & R3). apply dom_G in HG.
    pose proof (slab_block_ok _ _ _ _ K _ HG). exists pg, 9. change (2 ^ 9) with 512.
    split; [apply elem_of_union_l, elem_of_slab_blocks; done|]. lia.
  - destruct (wf_block _ _ (pg, k) (proj1 (ko_zone _ _ _ _ K))) as (K1 & K2 & K3 & K4); [set_solver|].
    simpl in *. pose proof (pow2_pos k ltac:(lia)). exists pg, k. split; [set_solver|].
    change BUDDY_PAGE_SIZE with 4096. lia.
Qed.

Lemma blocks_meet pg k pg' k' x : (pg, k) ∈ slab_blocks G ∪ Lb → (pg', k') ∈ slab_blocks G ∪ Lb →
  base (zone s) pg ≤ x < base (zone s) pg + 2 ^ k * 4096 →
  base (zone s) pg' ≤ x < base (zone s) pg' + 2 ^ k' * 4096 → (pg, k) = (pg', k').
Proof.
  unfold base. change BUDDY_PAGE_SIZE with 4096. intros H1 H2 R1 R2.
  apply (wf_same _ _ _ _ ((x - start_addr (zone s)) / 4096) (proj1 (ko_zone _ _ _ _ K))); auto;
    unfold covers; simpl; pose proof (Z.div_mod (x - start_addr (zone s)) 4096 ltac:(lia));
    pose proof (Z.mod_pos_bound (x - start_addr (zone s)) 4096 ltac:(lia)); nia.
Qed.

(** Two regions with a common byte are the same. *)
Lemma region_meet p n q m x : region (zone s) G Ls Lb p n → region (zone s) G Ls Lb q m →
  p ≤ x < p + n → q ≤ x < q + m → p = q ∧ n = m.
Proof.
  intros Rp Rq Hx Hy. destruct (region_block _ _ Rp) as (pg & k & B1 & B2).
  destruct (region_block _ _ Rq) as (pg' & k' & B1' & B2').
  assert ((pg, k) = (pg', k')) as [= <- <-] by (apply (blocks_meet _ _ _ _ x); try done; lia).
  destruct Rp as [[Hp (a & o & fl & HG & Sp & ->)]|(a & j & Hb & -> & ->)],
    Rq as [[Hq (a' & o' & fl' & HG' & Sq & ->)]|(a' & j' & Hb' & -> & ->)].
  - pose proof (slot_in_slab _ _ _ _ K _ _ _ _ HG Sp). pose proof (slot_in_slab _ _ _ _ K _ _ _ _ HG' Sq).
    assert (a = a') as <- by (apply (slab_unique _ _ _ _ K _ _ x); [by eapply dom_G|by eapply dom_G|lia|lia]).
    rewrite HG in HG'. injection HG' as <- <-. split; [|done].
    destruct (Z.eq_dec p q) as [|N]; [done|].
    pose proof (so_order _ _ _ _ _ (ko_slab _ _ _ _ K _ _ _ HG)) as Ho. unfold SLAB_MIN_ORDER in Ho.
    pose proof (slot_disjoint (base (zone s) a) o p q ltac:(lia) Sp Sq N). lia.
  - exfalso. pose proof (slot_in_slab _ _ _ _ K _ _ _ _ HG Sp). apply dom_G in HG.
    assert ((a, 9) = (a', j')) as [= <- <-].
    { apply (blocks_meet _ _ _ _ x); [apply elem_of_union_l, elem_of_slab_blocks; done|set_solver| |].
      - change (2 ^ 9) with 512. lia.
      - change BUDDY_PAGE_SIZE with 4096 in *. lia. }
    apply (ko_sep _ _ _ _ K (a, 9)); [by apply elem_of_slab_blocks|done].
  - exfalso. pose proof (slot_in_slab _ _ _ _ K _ _ _ _ HG' Sq). apply dom_G in HG'.
    assert ((a', 9) = (a, j)) as [= <- <-].
    { apply (blocks_meet _ _ _ _ x); [apply elem_of_union_l, elem_of_slab_blocks; done|set_solver| |].
      - change (2 ^ 9) with 512. lia.
      - change BUDDY_PAGE_SIZE with 4096 in *. lia. }
    apply (ko_sep _ _ _ _ K (a', 9)); [by apply elem_of_slab_blocks|done].
  - change BUDDY_PAGE_SIZE with 4096 in *.
    assert ((a, j) = (a', j')) as [= <- <-] by (apply (blocks_meet _ _ _ _ x); set_solver || lia).
    done.
Qed.

End regions.

(** ** Boot *)

(** If no block of a slab's size is free and only slabs are handed out, the
    slabs use up all the memory. *)
Lemma slabs_fill z G : wf z (slab_blocks G) → page_num z mod 2 ^ 13 = 0 →
  (∀ i k, 9 ≤ k → ¬ free_blk z (i, k)) → page_num z ≤ 512 * Z.of_nat (size G).
Proof.
  intros W Hn HF.
  assert (∀ i, 0 ≤ i → 512 * i < page_num z → 512 * i ∈ dom G) as HD.
  { intros i Hi Hlt. destruct (tiles_cover _ _ _ (wf_tiles _ _ W) (512 * i) ltac:(lia)) as ([c o] & [Hc|Hc] & C).
    - exfalso. apply (HF c o); [|done].
      apply (coalesced_min z (slab_blocks G) 9 (c, o) W); [|done|done|done].
      intros [c' o'] [-> _]%elem_of_slab_blocks. done.
    - destruct (wf_block _ _ _ W (or_intror Hc)) as (_ & _ & Ha & _). apply elem_of_slab_blocks in Hc as [-> Hc].
      unfold covers in C. simpl in *. change (2 ^ 9) with 512 in *.
      apply Z.mod_divide in Ha as [q Hq]; [|done]. by replace (512 * i) with c by lia. }
  apply Z.mod_divide in Hn as [q Hq]; [|done].
  assert (0 ≤ q ∨ q < 0) as [Q|Q] by lia; [|lia].
  assert (list_to_set ((λ i, 512 * i) <$> seqZ 0 (q * 16)) ⊆ dom G) as S.
  { intros x Hx. apply elem_of_list_to_set, list_elem_of_fmap in Hx as (i & -> & Hi%elem_of_seqZ).
    apply HD; lia. }
  apply subseteq_size in S. rewrite size_list_to_set, length_fmap, length_seqZ, size_dom in S; [lia|].
  apply NoDup_fmap_2_strong; [|apply NoDup_seqZ]. intros; lia.
Qed.

Lemma init_slab_from_spec n ord s G : kmem_ok s G ∅ ∅ → SLAB_MIN_ORDER ≤ ord →
  ord + Z.of_nat n = SLAB_MAX_ORDER + 1 → (∀ o, SLAB_MIN_ORDER ≤ o < ord → ∃ l, listed s G o l) →
  (∀ pg o fl, G !! pg = Some (o, fl) → o < ord) →
  page_num (zone s) mod 2 ^ 13 = 0 → 512 * (Z.of_nat (size G) + Z.of_nat n) ≤ page_num (zone s) →
  ∃ s' G', init_slab_from n ord s = Done tt s' ∧ heap_ok s' G' ∅ ∅ ∧
    start_addr (zone s') = start_addr (zone s) ∧ page_num (zone s') = page_num (zone s).
Proof.
  revert ord s G. induction n as [|n IH]; intros ord s G K Hm Hn HL HG Hp Hr.
  { exists s, G. split_and!; [done| |done|done]. split; [done|]. intros o Ho. apply HL. lia. }
  cbn [init_slab_from]. assert (SLAB_MIN_ORDER ≤ ord ≤ SLAB_MAX_ORDER) as Ho by lia.
  destruct (init_slab_cache_spec s G ∅ ∅ ord K Ho) as [[_ F]|(pg & z' & m' & E & K' & D & S1 & M1 & M2 & M3)].
  { exfalso. assert (wf (zone s) (slab_blocks G)) as W
      by (destruct K as [[W _] _ _ _ _ _ _ _ _ _]; by rewrite (right_id_L ∅ (∪)) in W).
    pose proof (slabs_fill _ _ W Hp F). lia. }
  erewrite bind_Done by exact E. erewrite bind_Done by reflexivity. clear E. cbn [zone mem slabs].
  set (a := base (zone s) pg) in *.
  destruct (new_slab_listed s G ∅ ∅ ord [] z' m' pg 0 (λ o, SLAB_MIN_ORDER ≤ o < ord)) as [K2 L2]; try done.
  { split_and!; [constructor| |done]. intros pg'. split; [intros H; by apply not_elem_of_nil in H|].
    intros [fl H]. apply HG in H. lia. }
  { intros o Ho1. split_and!; [unfold SLAB_MIN_ORDER in Ho1; lia|lia|by apply HL]. }
  fold a in K2, L2. rewrite (insert_id m') in K2, L2 by exact M2.
  destruct (IH (ord + 1) _ _ K2) as (s' & G' & E & H & H1 & H2); cbn [zone] in *; try lia.
  { intros o Ho1. apply L2. lia. }
  { intros pg' o fl [[<- [= <- _]]|[_ H]]%lookup_insert_Some; [lia|apply HG in H; lia]. }
  { by rewrite M3. }
  { rewrite M3, map_size_insert_None by (by apply not_elem_of_dom). lia. }
  exists s', G'. split_and!; [exact E|done|congruence|congruence].
Qed.

(** [mm_init]'s calls of [init_buddy] and [init_slab]. *)
Definition mm_init (first_page_vaddr npages : Z) (past : gmap Z page) : outcome kmem unit :=
  match init_buddy first_page_vaddr npages past with
  | Done _ z => init_slab (mk_kmem z ∅ (replicate (Z.to_nat (SLAB_MAX_ORDER + 1)) 0))
  | Away z => Away (mk_kmem z ∅ [])
  | Halt => Halt
  | Fault => Fault
  | Spin => Spin
  end.

Lemma booted_ok z : zone_ok z ∅ → direct_map (start_addr z) → 0 ≤ page_num z →
  end_addr z = start_addr z + page_num z * BUDDY_PAGE_SIZE → end_addr z < 2 ^ 64 →
  (∀ i p, 0 ≤ i < page_num z → pages z !! i = Some p → slab p = 0) →
  kmem_ok (mk_kmem z ∅ (replicate (Z.to_nat (SLAB_MAX_ORDER + 1)) 0)) ∅ ∅ ∅.
Proof.
  intros ZO H1 H2 H3 H4 H5. split; simpl; try done; try set_solver.
Qed.

Lemma mm_init_spec va n past : 3584 ≤ n → n mod 2 ^ 13 = 0 → behind_ok n past →
  direct_map va → va + n * BUDDY_PAGE_SIZE < 2 ^ 64 →
  ∃ s G, mm_init va n past = Done tt s ∧ heap_ok s G ∅ ∅ ∧
    start_addr (zone s) = va ∧ page_num (zone s) = n.
Proof.
  intros Hn Hm HB Hva Htop. pose proof (direct_map_pos va Hva) as Hpos. unfold mm_init.
  destruct (init_buddy_spec va n past ltac:(lia) HB) as (z & -> & ZO & P1 & P2 & P3 & P4).
  change BUDDY_PAGE_SIZE with 4096 in *. rewrite u64_id in P3 by (unfold is_u64; lia).
  destruct (init_slab_from_spec 7 5 _ _ (booted_ok z ZO ltac:(by rewrite P2) ltac:(lia)
    ltac:(change BUDDY_PAGE_SIZE with 4096; congruence) ltac:(lia)
    ltac:(intros i p Hi Hp; specialize (P4 i); rewrite Hp, lookup_zeroed, decide_True in P4 by lia;
          by injection P4))) as (s & G & E & H & H1 & H2); try done.
  { intros o Ho. unfold SLAB_MIN_ORDER in Ho. lia. }
  { simpl. congruence. }
  { simpl. change (size ∅) with 0%nat. lia. }
  exists s, G. split_and!; [exact E|done|simpl in *; congruence|simpl in *; congruence].
Qed.

(** ** The exported functions *)

Lemma virt_to_page_in z a : 0 < start_addr z → end_addr z < 2 ^ 64 → start_addr z ≤ a < end_addr z →
  virt_to_page a z = Done ((a - start_addr z) / 4096) z.
Proof.
  intros H0 H1 Ha. unfold virt_to_page, bind, get.
  replace (_ || _) with false; [|symmetry; apply orb_false_iff; split; apply Z.ltb_ge; lia].
  rewrite u64_id by (unfold is_u64; lia). by rewrite Z.shiftr_div_pow2.
Qed.

Lemma slot_post_heap s G Ls Lb L o x s' : heap_ok s G Ls Lb →
  (∀ p n, L !! p = Some n ↔ region (zone s) G Ls Lb p n) → slot_post s G Ls Lb o x s' →
  x ≠ 0 ∧ L !! x = None ∧ heap s' (<[x := 2 ^ o]> L).
Proof.
  intros [K _] HL (G' & pg & fl & H' & Nx & X0 & Kp & Es & HG & Sx). pose proof H' as [K' _].
  assert (∀ p, base (zone s') p = base (zone s) p) as EB by (intros; unfold base; by rewrite Es).
  assert (region (zone s') G' ({[x]} ∪ Ls) Lb x (2 ^ o)) as Rx.
  { left. split; [set_solver|]. by exists pg, o, fl. }
  assert (∀ q n, region (zone s) G Ls Lb q n → region (zone s') G' ({[x]} ∪ Ls) Lb q n) as Mono.
  { intros q n [[Hq (a & o1 & f & H1 & H2 & ->)]|(a & k & H1 & -> & ->)].
    - left. split; [set_solver|]. destruct (Kp a o1 f H1) as [f' Hf']. exists a, o1, f'. by rewrite EB.
    - right. exists a, k. by rewrite EB. }
  assert (L !! x = None) as LN.
  { destruct (L !! x) as [n|] eqn:E; [|done]. exfalso. apply HL in E.
    destruct (region_block _ _ _ _ K' _ _ Rx) as (? & ? & _ & P1 & _).
    destruct (region_block _ _ _ _ K _ _ E) as (? & ? & _ & P2 & _).
    destruct (region_meet _ _ _ _ K' _ _ _ _ x Rx (Mono _ _ E)) as [_ En]; [lia|lia|].
    destruct E as [[? _]|(a & k & Hb & _ & ->)]; [done|].
    pose proof (so_order _ _ _ _ _ (ko_slab _ _ _ _ K' _ _ _ HG)) as Ho. unfold SLAB_MAX_ORDER in Ho.
    assert (2 ^ o ≤ 2 ^ 11) by (apply Z.pow_le_mono_r; lia).
    change BUDDY_PAGE_SIZE with 4096 in *. assert (0 < 2 ^ k) by lia. change (2 ^ 11) with 2048 in *. lia. }
  split_and!; [done|done|]. exists G', ({[x]} ∪ Ls), Lb. split; [done|]. intros q n.
  destruct (Z.eq_dec q x) as [->|Nq].
  - rewrite lookup_insert_eq. split; [by intros [= <-]|]. intros R. f_equal.
    destruct (region_block _ _ _ _ K' _ _ Rx) as (? & ? & _ & P1 & _).
    destruct (region_block _ _ _ _ K' _ _ R) as (? & ? & _ & P2 & _).
    by destruct (region_meet _ _ _ _ K' _ _ _ _ x Rx R) as [_ En]; [lia|lia|].
  - rewrite lookup_insert_ne by done. rewrite HL. split; [apply Mono|].
    intros [[Hq (a & o1 & f & H1 & H2 & ->)]|(a & k & H1 & -> & ->)].
    + assert (q ∈ Ls) as Hq' by set_solver. left. split; [done|].
      destruct (ko_live _ _ _ _ K q Hq') as (a0 & o0 & f0 & H3 & H4).
      destruct (Kp _ _ _ H3) as [f1 Hf1]. rewrite <- EB in H4.
      pose proof (slot_in_slab _ _ _ _ K' _ _ _ _ H1 H2). pose proof (slot_in_slab _ _ _ _ K' _ _ _ _ Hf1 H4).
      assert (a = a0) as <- by (apply (slab_unique _ _ _ _ K' _ _ q); [by eapply dom_G|by eapply dom_G|lia|lia]).
      rewrite H1 in Hf1. injection Hf1 as <- _. rewrite EB in H4. by exists a, o1, f0.
    + right. exists a, k. by rewrite EB.
Qed.

Lemma alloc_in_slab_spec size s L : heap s L → 0 ≤ size ≤ 2048 →
  alloc_in_slab size s = Halt ∨ ∃ p s' n, alloc_in_slab size s = Done p s' ∧
  p ≠ 0 ∧ L !! p = None ∧ size ≤ n ∧ heap s' (<[p := n]> L).
Proof.
  intros (G & Ls & Lb & H & HL) Hs. unfold alloc_in_slab.
  change (order_to_size SLAB_MAX_ORDER) with 2048. rewrite (proj2 (Z.ltb_ge 2048 size)) by lia.
  erewrite bind_Done by reflexivity. cbv zeta.
  set (o := if size_to_order size <? SLAB_MIN_ORDER then SLAB_MIN_ORDER else size_to_order size).
  assert (SLAB_MIN_ORDER ≤ o ≤ SLAB_MAX_ORDER ∧ size ≤ 2 ^ o) as [Ho Hb].
  { unfold o. destruct (Z.eq_dec size 0) as [->|N]; [by vm_compute|].
    destruct (size_to_order_spec size) as (S1 & S2 & S3); [lia|].
    unfold SLAB_MIN_ORDER, SLAB_MAX_ORDER. case (Z.ltb_spec (size_to_order size) 5); intros C.
    - split; [lia|]. transitivity (2 ^ size_to_order size); [done|]. apply Z.pow_le_mono_r; lia.
    - split; [|done]. split; [done|]. apply Z.le_ngt. intros C'.
      assert (2 ^ 11 ≤ 2 ^ (size_to_order size - 1)) by (apply Z.pow_le_mono_r; lia).
      specialize (S3 ltac:(lia)). change (2 ^ 11) with 2048 in *. lia. }
  destruct (proj2 H o Ho) as (l & _ & h & Hh & _).
  erewrite bind_Done by (unfold slabs_at, bind, get; rewrite Hh; reflexivity).
  destruct (_alloc_in_slab_spec s G Ls Lb o h H Ho Hh) as [E|(x & s' & E & P)]; [by left|right].
  destruct (slot_post_heap _ _ _ _ _ _ _ _ H HL P) as (P1 & P2 & P3).
  exists x, s', (2 ^ o). by split_and!.
Qed.

(** Only the page blocks change. *)
Lemma kmem_zone s G Ls Lb Lb' z' : heap_ok s G Ls Lb → zone_ok z' (slab_blocks G ∪ Lb') →
  slab_blocks G ## Lb' → same_zone (zone s) z' → heap_ok (mk_kmem z' (mem s) (slabs s)) G Ls Lb'.
Proof.
  intros [[K1 K2 K3 K4 K5 K6 K7 K8 K9 K10] HL] ZO S (Z1 & Z2 & Z3 & Z4).
  assert (∀ p, base z' p = base (zone s) p) as EB by (intros; unfold base; by rewrite Z2).
  split; [split; simpl; rewrite ?Z1, ?Z2, ?Z3; try done|].
  - intros pg i D C. rewrite Z4, EB. by apply K6.
  - intros i p Hi Hp Hs. specialize (Z4 i). rewrite Hp in Z4. destruct (pages (zone s) !! i) as [p0|] eqn:E; [|done].
    injection Z4 as E0. apply (K7 i p0); [done|done|congruence].
  - intros pg o fl HG. rewrite EB. by apply K8.
  - intros x Hx. destruct (K9 x Hx) as (pg & o & fl & ?). exists pg, o, fl. by rewrite EB.
  - intros o Ho. destruct (HL o Ho) as (l & L1 & h & Hh & L2 & L3 & C). exists l. split; [done|].
    exists h. split; [done|]. split_and!; [done|done|]. by rewrite (fmap_base (zone s)).
Qed.

Lemma get_pages_spec ord s L : heap s L → 0 ≤ ord < BUDDY_MAX_ORDER →
  ∃ p s', get_pages ord s = Done p s' ∧
  ((p = 0 ∧ s' = s) ∨ p ≠ 0 ∧ L !! p = None ∧ heap s' (<[p := 2 ^ ord * BUDDY_PAGE_SIZE]> L) ∧
   direct_map p ∧ p + BUDDY_PAGE_SIZE ≤ 2 ^ 64).
Proof.
  intros (G & Ls & Lb & H & HL) Ho. pose proof H as [K _]. unfold get_pages.
  destruct (buddy_get_pages_spec _ _ ord (ko_zone _ _ _ _ K) Ho) as (r & z' & E & S & _ & R).
  erewrite bind_Done by (apply zoom_Done; exact E). erewrite bind_Done by reflexivity. cbn [zone].
  destruct r as [pg|].
  2: { exists 0, s. split; [|by left]. destruct R as [-> _]. by destruct s. }
  destruct R as (ZO & N & _). clear E. exists (base (zone s) pg), (mk_kmem z' (mem s) (slabs s)).
  pose proof S as (Z1 & Z2 & Z3 & _).
  destruct (ko_pos _ _ _ _ K) as [K1 K2]. pose proof (ko_end _ _ _ _ K) as K3.
  pose proof (ko_top _ _ _ _ K) as K4.
  destruct (wf_block _ _ (pg, ord) (proj1 ZO)) as (_ & B1 & _ & B2).
  { right. apply elem_of_union_l. by apply elem_of_singleton. }
  simpl in B1, B2. rewrite Z1 in B2. pose proof (pow2_pos ord ltac:(lia)).
  assert (0 < base (zone s) pg < 2 ^ 64) as Hb by (unfold base; change BUDDY_PAGE_SIZE with 4096 in *; lia).
  split.
  { unfold ret, page_to_virt. f_equal. rewrite Z2. apply u64_id. unfold is_u64. fold (base (zone s) pg). lia. }
  assert (heap_ok (mk_kmem z' (mem s) (slabs s)) G Ls ({[(pg, ord)]} ∪ Lb)) as H'.
  { eapply kmem_zone; [done| | |done].
    - by replace (slab_blocks G ∪ ({[(pg, ord)]} ∪ Lb)) with ({[(pg, ord)]} ∪ (slab_blocks G ∪ Lb)) by set_solver.
    - pose proof (ko_sep _ _ _ _ K). set_solver. }
  assert (∀ p, base z' p = base (zone s) p) as EB by (intros; unfold base; by rewrite Z2).
  assert (∀ q n, region z' G Ls ({[(pg, ord)]} ∪ Lb) q n ↔
    region (zone s) G Ls Lb q n ∨ (q = base (zone s) pg ∧ n = 2 ^ ord * BUDDY_PAGE_SIZE)) as HR.
  { intros q n. unfold region. setoid_rewrite EB. setoid_rewrite elem_of_union. setoid_rewrite elem_of_singleton.
    split.
    - intros [?|(a & k & [[= -> ->]|?] & ?)]; [auto|auto|]. left. right. by exists a, k.
    - intros [[?|(a & k & ? & ?)]|[-> ->]]; [auto| |]; right; [exists a, k; auto|exists pg, ord; auto]. }
  right. assert (L !! base (zone s) pg = None) as LN.
  { destruct (L !! base (zone s) pg) as [n|] eqn:E; [|done]. exfalso. apply HL in E.
    destruct (region_block _ _ _ _ K _ _ E) as (a & k & D & P1 & P2 & P3 & P4 & P5 & P6).
    destruct (proj1 ZO) as [_ _ _ _ WT _ _ _].
    assert ((pg, ord) = (a, k)) as [= -> ->]; [|done].
    apply (tiles_disjoint _ _ _ WT _ _ pg); [right; set_solver|right; set_solver| |]; unfold covers; simpl; [lia|].
    unfold base in *. change BUDDY_PAGE_SIZE with 4096 in *. nia. }
  assert (direct_map (base (zone s) pg) ∧ base (zone s) pg + BUDDY_PAGE_SIZE ≤ 2 ^ 64) as HD.
  { destruct (proj1 (ko_start _ _ _ _ K)) as [D1 D2]. unfold direct_map, base in *. change BUDDY_PAGE_SIZE with 4096 in *.
    change PAGE_SIZE with 4096 in *. split; [split; [lia|]|nia]. by rewrite Z.mod_add. }
  split_and!; [lia|done| |apply HD|apply HD]. exists G, Ls, ({[(pg, ord)]} ∪ Lb). split; [done|]. intros q n. cbn [zone]. rewrite HR.
  destruct (Z.eq_dec q (base (zone s) pg)) as [->|Nq].
  - rewrite lookup_insert_eq. split; [intros [= <-]; by right|]. intros [R|[_ ->]]; [|done].
    apply HL in R. congruence.
  - rewrite lookup_insert_ne, HL by done. split; [auto|]. by intros [?|[-> _]].
Qed.

(** The largest size [kmalloc] can serve: a maximal block. *)
Definition KMALLOC_MAX : Z := 2 ^ (BUDDY_MAX_ORDER - 1) * BUDDY_PAGE_SIZE.

Lemma kmalloc_spec size s L : heap s L → 0 ≤ size ≤ KMALLOC_MAX →
  (kmalloc size s = Halt ∧ size ≤ 2048) ∨ ∃ p s', kmalloc size s = Done p s' ∧
  ((p = 0 ∧ s' = s ∧ 2048 < size) ∨
   ∃ n, p ≠ 0 ∧ L !! p = None ∧ size ≤ n ∧ heap s' (<[p := n]> L)).
Proof.
  intros H Hs. change KMALLOC_MAX with (2 ^ 25) in Hs. unfold kmalloc.
  change (Z.shiftl 1 SLAB_MAX_ORDER) with 2048. case (Z.leb_spec size 2048); intros C.
  - destruct (alloc_in_slab_spec size s L H ltac:(lia)) as [E|(p & s' & n & E & P)]; [left; by split|right].
    exists p, s'. split; [done|]. right. by exists n.
  - right. set (ord := if size <=? BUDDY_PAGE_SIZE then 0 else size_to_page_order size).
    assert (0 ≤ ord < BUDDY_MAX_ORDER ∧ size ≤ 2 ^ ord * BUDDY_PAGE_SIZE) as [Ho Hb].
    { unfold ord. change BUDDY_PAGE_SIZE with 4096. case (Z.leb_spec size 4096); intros C'; [by split|].
      destruct (size_to_page_order_spec size) as (S1 & S2 & S3); [lia|].
      pose proof (Z.div_mod (size + 4095) 4096 ltac:(lia)).
      pose proof (Z.mod_pos_bound (size + 4095) 4096 ltac:(lia)).
      set (n := (size + 4095) / 4096) in *. split; [|lia]. split; [done|]. apply Z.lt_nge. intros C2.
      assert (2 ^ 13 ≤ 2 ^ (size_to_page_order size - 1)).
      { apply Z.pow_le_mono_r; [lia|]. unfold BUDDY_MAX_ORDER in C2. lia. }
      unfold BUDDY_MAX_ORDER in C2. specialize (S3 ltac:(lia)). change (2 ^ 13) with 8192 in *. lia. }
    destruct (get_pages_spec ord s L H Ho) as (p & s' & E & [[-> ->]|(P1 & P2 & P3 & _)]).
    + exists 0, s. split; [done|]. by left.
    + exists p, s'. split; [done|]. right. exists (2 ^ ord * BUDDY_PAGE_SIZE). by split_and!.
Qed.

(** ** Clearing a region *)

Lemma slab_ok_frame_keys m m' L a o fl :
  (∀ x, x = order_field a ∨ x = free_list_head a ∨ (is_slot a o x ∧ x ∉ L) → m' !! x = m !! x) →
  slab_ok m L a o fl → slab_ok m' L a o fl.
Proof.
  intros Hm [S1 S2 (h & S3 & S4) S5 S6]. split; try done.
  - by rewrite Hm by auto.
  - exists h. rewrite Hm by auto. split; [done|]. eapply word_chain_frame; [|exact S4].
    intros q Hq%S6. rewrite Z.add_0_r. apply Hm. auto.
Qed.

(** The words the allocator uses lie outside every live region. *)
Lemma header_apart s G Ls Lb p n pg d : kmem_ok s G Ls Lb → region (zone s) G Ls Lb p n → pg ∈ dom G →
  0 ≤ d ≤ 24 → base (zone s) pg + d + 8 ≤ p ∨ p + n ≤ base (zone s) pg + d.
Proof.
  intros K R D Hd. destruct (region_block _ _ _ _ K _ _ R) as (a & k & B & P1 & P2 & P3 & P4 & P5 & P6).
  destruct (decide ((a, k) = (pg, 9))) as [[= -> ->]|Ne].
  - left. destruct R as [[Hp (a & o & fl & HG & Sp & ->)]|(a & j & Hb & -> & ->)].
    + pose proof (slot_in_slab _ _ _ _ K _ _ _ _ HG Sp) as (R1 & R2 & R3). change (2 ^ 9 * 4096) with (2 ^ 21) in *.
      assert (a = pg) as -> by (apply (slab_unique _ _ _ _ K _ _ p); [by eapply dom_G|done|lia|lia]). lia.
    + exfalso. assert ((a, j) = (pg, 9)) as [= -> ->].
      { apply (blocks_meet _ _ _ _ K _ _ _ _ (base (zone s) a)); [set_solver|done| |]; 
          change BUDDY_PAGE_SIZE with 4096 in *; lia. }
      apply (ko_sep _ _ _ _ K (pg, 9)); [by apply elem_of_slab_blocks|done].
  - destruct (Z.le_gt_cases (base (zone s) pg + d + 8) p) as [|C1]; [by left|].
    destruct (Z.le_gt_cases (p + n) (base (zone s) pg + d)) as [|C2]; [by right|]. exfalso. apply Ne.
    assert (∃ x, base (zone s) pg + d ≤ x < base (zone s) pg + d + 8 ∧ p ≤ x < p + n) as (x & X1 & X2).
    { exists (Z.max p (base (zone s) pg + d)). lia. }
    apply (blocks_meet _ _ _ _ K _ _ _ _ x); [done|apply elem_of_union_l, elem_of_slab_blocks; done|lia|].
    change (2 ^ 9) with 512. lia.
Qed.

Lemma free_slot_apart s G Ls Lb p n pg o fl x : kmem_ok s G Ls Lb → region (zone s) G Ls Lb p n →
  G !! pg = Some (o, fl) → is_slot (base (zone s) pg) o x → x ∉ Ls → x + 8 ≤ p ∨ p + n ≤ x.
Proof.
  intros K R HG Sx Nx. pose proof (slot_in_slab _ _ _ _ K _ _ _ _ HG Sx) as (R1 & R2 & R3).
  pose proof (dom_G _ _ _ HG) as D.
  destruct (Z.le_gt_cases (x + 8) p) as [|C1]; [by left|].
  destruct (Z.le_gt_cases (p + n) x) as [|C2]; [by right|]. exfalso.
  destruct (region_block _ _ _ _ K _ _ R) as (a & k & B & P1 & P2 & P3 & P4 & P5 & P6).
  assert ((a, k) = (pg, 9)) as [= -> ->].
  { assert (∃ y, x ≤ y < x + 8 ∧ p ≤ y < p + n) as (y & Y1 & Y2) by (exists (Z.max p x); lia).
    apply (blocks_meet _ _ _ _ K _ _ _ _ y); [done|apply elem_of_union_l, elem_of_slab_blocks; done|lia|].
    change (2 ^ 9) with 512. lia. }
  destruct R as [[Hp (a & o' & f & HG' & Sp & ->)]|(a & j & Hb & -> & ->)].
  - pose proof (slot_in_slab _ _ _ _ K _ _ _ _ HG' Sp) as (Q1 & Q2 & Q3). change (2 ^ 9 * 4096) with (2 ^ 21) in *.
    assert (a = pg) as -> by (apply (slab_unique _ _ _ _ K _ _ p); [by eapply dom_G|done|lia|lia]).
    rewrite HG in HG'. injection HG' as <- <-. assert (p ≠ x) as Np by (intros ->; done).
    pose proof (so_order _ _ _ _ _ (ko_slab _ _ _ _ K _ _ _ HG)) as Ho. unfold SLAB_MIN_ORDER in Ho.
    pose proof (slot_disjoint (base (zone s) pg) o p x ltac:(lia) Sp Sx Np). lia.
  - assert ((a, j) = (pg, 9)) as [= -> ->].
    { apply (blocks_meet _ _ _ _ K _ _ _ _ (base (zone s) a)); [set_solver|done| |];
        change BUDDY_PAGE_SIZE with 4096 in *; lia. }
    apply (ko_sep _ _ _ _ K (pg, 9)); [by apply elem_of_slab_blocks|done].
Qed.

Lemma lookup_memset (m : gmap Z Z) p size x : x + 8 ≤ p ∨ p + size ≤ x →
  map_imap (λ a v, Some (clear_bytes p size a v)) m !! x = m !! x.
Proof.
  intros H. rewrite map_lookup_imap. destruct (m !! x) as [v|]; [|done]. simpl. unfold clear_bytes.
  destruct (Z.leb_spec (x + 8) p), (Z.leb_spec (p + size) x); simpl; done || lia.
Qed.

Lemma memset0_spec p size n s L : heap s L → L !! p = Some n → size ≤ n →
  ∃ s', memset0 p size s = Done tt s' ∧ heap s' L.
Proof.
  intros (G & Ls & Lb & H & HL) Hp Hs. pose proof H as [K Hl]. apply HL in Hp as R.
  eexists. split; [reflexivity|]. exists G, Ls, Lb. split; [|done]. split.
  - pose proof K as [K1 K2 K3 K4 K5 K6 K7 K8 K9 K10]. split; simpl; try done. intros pg o fl HG.
    eapply slab_ok_frame_keys; [|by apply K8]. intros x Hx. apply lookup_memset.
    destruct Hx as [->|[->|[Sx Nx]]].
    + pose proof (header_apart _ _ _ _ _ _ pg 16 K R ltac:(by eapply dom_G) ltac:(lia)). unfold order_field. lia.
    + pose proof (header_apart _ _ _ _ _ _ pg 0 K R ltac:(by eapply dom_G) ltac:(lia)). unfold free_list_head. lia.
    + pose proof (free_slot_apart _ _ _ _ _ _ _ _ _ _ K R HG Sx Nx). lia.
  - intros o Ho. destruct (Hl o Ho) as (l & L1 & h & Hh & L2 & L3 & C). exists l. split; [done|].
    exists h. split; [done|]. split_and!; [done|done|]. eapply word_chain_frame; [|exact C]. simpl.
    intros q (pg & -> & [fl HG]%L3)%list_elem_of_fmap. apply lookup_memset.
    pose proof (header_apart _ _ _ _ _ _ pg 8 K R ltac:(by eapply dom_G) ltac:(lia)). lia.
Qed.

Lemma kzalloc_spec size s L : heap s L → 0 ≤ size ≤ KMALLOC_MAX →
  (kzalloc size s = Halt ∧ size ≤ 2048) ∨ ∃ p s', kzalloc size s = Done p s' ∧
  ((p = 0 ∧ s' = s ∧ 2048 < size) ∨
   ∃ n, p ≠ 0 ∧ L !! p = None ∧ size ≤ n ∧ heap s' (<[p := n]> L)).
Proof.
  intros H Hs. unfold kzalloc.
  destruct (kmalloc_spec size s L H Hs) as [[E B]|(p & s' & E & [(-> & -> & C)|(n & P1 & P2 & P3 & P4)])].
  - left. split; [by apply bind_Halt|done].
  - right. exists 0, s. erewrite bind_Done by exact E. split; [done|]. by left.
  - right. erewrite bind_Done by exact E. rewrite (proj2 (Z.eqb_neq p 0) P1).
    destruct (memset0_spec p size n s' (<[p := n]> L) P4) as (s2 & E2 & P5); [by rewrite lookup_insert_eq|done|].
    exists p, s2. erewrite bind_Done by exact E2. split; [done|]. right. by exists n.
Qed.

(** ** Freeing *)

Lemma kfree_block s G Ls Lb pg k : heap_ok s G Ls Lb → (pg, k) ∈ Lb → ∃ s',
  kfree (base (zone s) pg) s = Done tt s' ∧ heap_ok s' G Ls (Lb ∖ {[(pg, k)]}) ∧
  start_addr (zone s') = start_addr (zone s).
Proof.
  intros H Hb. pose proof H as [K _]. set (A := slab_blocks G ∪ Lb ∖ {[(pg, k)]}).
  assert (slab_blocks G ∪ Lb = {[(pg, k)]} ∪ A) as EA.
  { unfold A. apply set_eq. intros b. destruct (decide (b = (pg, k))); set_solver. }
  assert ((pg, k) ∉ A) as NA by (unfold A; pose proof (ko_sep _ _ _ _ K); set_solver).
  pose proof (ko_zone _ _ _ _ K) as ZO.
  destruct (wf_block _ _ (pg, k) (proj1 ZO)) as (B0 & B1 & _ & B2); [set_solver|]. simpl in B0, B1, B2.
  pose proof (pow2_pos k ltac:(lia)). destruct (ko_pos _ _ _ _ K) as [K1 K2].
  pose proof (ko_end _ _ _ _ K) as K3. pose proof (ko_top _ _ _ _ K) as K4.
  change BUDDY_PAGE_SIZE with 4096 in K3. unfold kfree.
  erewrite bind_Done.
  2: { apply zoom_Done. rewrite virt_to_page_in; [|done|done|unfold base; change BUDDY_PAGE_SIZE with 4096; lia].
       unfold base. change BUDDY_PAGE_SIZE with 4096.
       replace (start_addr (zone s) + pg * 4096 - start_addr (zone s)) with (pg * 4096) by lia.
       rewrite Z.div_mul by done. reflexivity. }
  replace (mk_kmem (zone s) (mem s) (slabs s)) with s by (by destruct s).
  destruct (page_at_ok pg (zone s)) as (p & Ep & Hp).
  { apply (wf_meta _ _ (proj1 ZO)). pose proof (roundup_ge (page_num (zone s))). lia. }
  erewrite bind_Done by (apply zoom_Done; exact Ep).
  replace (mk_kmem (zone s) (mem s) (slabs s)) with s by (by destruct s).
  assert (slab p = 0) as ->.
  { destruct (Z.eq_dec (slab p) 0) as [|N]; [done|]. exfalso.
    destruct (ko_unmarked _ _ _ _ K pg p) as (a & D & C); [lia|done|done|].
    assert ((a, 9) = (pg, k)) as [= -> <-].
    { apply (wf_same _ _ _ _ pg (proj1 ZO)); [| |done|unfold covers; simpl; lia]; right;
        [apply elem_of_union_l, elem_of_slab_blocks; done|set_solver]. }
    apply (ko_sep _ _ _ _ K (pg, 9)); [by apply elem_of_slab_blocks|done]. }
  rewrite Z.eqb_refl. cbn [negb]. rewrite EA in ZO.
  destruct (buddy_free_pages_spec (zone s) A pg k ZO NA) as (z' & E & ZO' & S & _).
  exists (mk_kmem z' (mem s) (slabs s)). split_and!; [by unfold in_zone; rewrite (zoom_Done _ _ _ _ _ _ E)| |apply S].
  eapply kmem_zone; [done|done| |done]. pose proof (ko_sep _ _ _ _ K). set_solver.
Qed.

Lemma kfree_slot s G Ls Lb pg o fl x : heap_ok s G Ls Lb → G !! pg = Some (o, fl) →
  is_slot (base (zone s) pg) o x → x ∈ Ls → ∃ s',
  kfree x s = Done tt s' ∧ heap_ok s' (<[pg := (o, x :: fl)]> G) (Ls ∖ {[x]}) Lb ∧ zone s' = zone s.
Proof.
  intros H HG Sx Lx. pose proof H as [K _]. pose proof (dom_G _ _ _ HG) as D.
  pose proof (slot_in_slab _ _ _ _ K _ _ _ _ HG Sx) as (R1 & R2 & R3).
  pose proof (slab_block_ok _ _ _ _ K _ D) as (B1 & _ & B2). destruct (ko_pos _ _ _ _ K) as [K1 K2].
  pose proof (ko_end _ _ _ _ K) as K3. pose proof (ko_top _ _ _ _ K) as K4.
  change BUDDY_PAGE_SIZE with 4096 in K3. change (2 ^ 21) with (512 * 4096) in R2.
  set (i := (x - start_addr (zone s)) / 4096).
  assert (virt_to_page x (zone s) = Done i (zone s)) as EV.
  { apply virt_to_page_in; [done|done|]. unfold base in *. change BUDDY_PAGE_SIZE with 4096 in *. lia. }
  assert (covers (pg, 9) i) as C.
  { unfold covers. simpl. change (2 ^ 9) with 512. unfold base in *. change BUDDY_PAGE_SIZE with 4096 in *.
    pose proof (Z.div_mod (x - start_addr (zone s)) 4096 ltac:(lia)).
    pose proof (Z.mod_pos_bound (x - start_addr (zone s)) 4096 ltac:(lia)). fold i in H0. lia. }
  pose proof (ko_marked _ _ _ _ K pg i D C) as HM.
  destruct (pages (zone s) !! i) as [p|] eqn:Hp; [|done]. injection HM as HM.
  assert (page_at i (zone s) = Done p (zone s)) as EP by (unfold page_at, bind, get; by rewrite Hp).
  assert (∀ A (m : MB A) a, m (zone s) = Done a (zone s) → in_zone m s = Done a s) as IZ.
  { intros A m a E. unfold in_zone. rewrite (zoom_Done _ _ _ _ _ _ E). by destruct s. }
  unfold kfree. erewrite bind_Done by (apply IZ; exact EV). erewrite bind_Done by (apply IZ; exact EP).
  pose proof (base_pos _ _ _ _ K pg D) as BP. rewrite HM, (proj2 (Z.eqb_neq _ 0)) by lia. cbn [negb].
  unfold free_in_slab. erewrite bind_Done by (apply IZ; exact EV). erewrite bind_Done by (apply IZ; exact EP).
  destruct (ko_slab _ _ _ _ K _ _ _ HG) as [S1 S2 (h & S3 & S4) S5 S6].
  rewrite HM. erewrite bind_Done by (apply word_load_ok; exact S2). unfold DETECTING_DOUBLE_FREE_IN_SLAB.
  do 2 (erewrite bind_Done by reflexivity). erewrite bind_Done by (apply word_load_ok; exact S3).
  erewrite bind_Done by reflexivity. eexists. split; [reflexivity|]. split; [|done].
  by apply (heap_push s G Ls Lb pg o x fl h).
Qed.

Lemma kfree_spec s L p n : heap s L → L !! p = Some n → ∃ s', kfree p s = Done tt s' ∧ heap s' (delete p L).
Proof.
  intros (G & Ls & Lb & H & HL) Hp. apply HL in Hp as R. pose proof H as [K _].
  destruct (region_block _ _ _ _ K _ _ R) as (? & ? & _ & P0 & _).
  destruct R as [[Lp (pg & o & fl & HG & Sp & ->)]|(pg & k & Hb & -> & ->)].
  - destruct (kfree_slot _ _ _ _ _ _ _ _ H HG Sp Lp) as (s' & E & H' & Ez). exists s'. split; [done|].
    exists (<[pg := (o, p :: fl)]> G), (Ls ∖ {[p]}), Lb. split; [done|]. intros q m. rewrite Ez.
    rewrite lookup_delete_Some, HL. unfold region at 1. split.
    + intros [N [[Lq (a & o1 & f & H1 & H2 & ->)]|Hb]]; [|by right]. left. split; [set_solver|].
      destruct (slabs_kept_insert _ _ _ _ (p :: fl) HG a o1 f H1) as [f' Hf']. by exists a, o1, f'.
    + intros [[Lq (a & o1 & f & H1 & H2 & ->)]|(a & k & Hb & -> & ->)].
      * split; [set_solver|]. left. split; [set_solver|]. exists a, o1.
        apply lookup_insert_Some in H1 as [[<- [= <- <-]]|[_ H1]]; eauto.
      * assert (region (zone s) G Ls Lb (base (zone s) a) (2 ^ k * BUDDY_PAGE_SIZE)) as Ra by (right; eauto).
        split; [|done]. intros E'. apply HL in Ra as La. rewrite <- E', Hp in La. injection La as E2.
        pose proof (so_order _ _ _ _ _ (ko_slab _ _ _ _ K _ _ _ HG)) as Ho. unfold SLAB_MAX_ORDER in Ho.
        assert (2 ^ o ≤ 2 ^ 11) by (apply Z.pow_le_mono_r; lia). change (2 ^ 11) with 2048 in *.
        change BUDDY_PAGE_SIZE with 4096 in *. assert (0 < 2 ^ k) by lia. lia.
  - destruct (kfree_block _ _ _ _ _ _ H Hb) as (s' & E & H' & Es). exists s'. split; [done|].
    assert (∀ p, base (zone s') p = base (zone s) p) as EB by (intros; unfold base; by rewrite Es).
    exists G, Ls, (Lb ∖ {[(pg, k)]}). split; [done|]. intros q m.
    rewrite lookup_delete_Some, HL. unfold region. setoid_rewrite EB. split.
    + intros [N [?|(a & j & Ha & -> & ->)]]; [by left|]. right. exists a, j. split; [|done].
      apply elem_of_difference. split; [done|]. intros [= -> ->]%elem_of_singleton. done.
    + intros [R|(a & j & [Ha Na]%elem_of_difference & -> & ->)].
      * split; [|by left]. intros <-. assert (L !! base (zone s) pg = Some m) as Lm by (apply HL; by left).
        rewrite Hp in Lm. injection Lm as <-. destruct R as [_ (a & o & fl & HG & _ & E2)].
        pose proof (so_order _ _ _ _ _ (ko_slab _ _ _ _ K _ _ _ HG)) as Ho. unfold SLAB_MAX_ORDER in Ho.
        assert (2 ^ o ≤ 2 ^ 11) by (apply Z.pow_le_mono_r; lia). change (2 ^ 11) with 2048 in *.
        change BUDDY_PAGE_SIZE with 4096 in *. assert (0 < 2 ^ k) by lia. lia.
      * split; [|right; eauto]. intros E2. apply Na, elem_of_singleton.
        assert (pg = a) as <- by (unfold base in E2; change BUDDY_PAGE_SIZE with 4096 in E2; lia).
        f_equal. eapply (tiles_start _ _ _ pg); [apply (wf_tiles _ _ (proj1 (ko_zone _ _ _ _ K)))|right; set_solver|right; set_solver].
Qed.

#[export] Instance kmalloc_allocator : Allocator kmem.
Proof.
  refine (Build_Allocator kmem heap KMALLOC_MAX kmalloc kzalloc kfree _ _ _ _ _).
  - intros s L size H Hs. destruct (kmalloc_spec size s L H Hs) as [[E _]|(p & s' & E & [(-> & -> & _)|P])].
    + by left.
    + right. exists 0, s. split; [done|]. by left.
    + right. exists p, s'. split; [done|]. by right.
  - intros s L size H Hs. destruct (kzalloc_spec size s L H Hs) as [[E _]|(p & s' & E & [(-> & -> & _)|P])].
    + by left.
    + right. exists 0, s. split; [done|]. by left.
    + right. exists p, s'. split; [done|]. by right.
  - intros s L p n. apply kfree_spec.
  - intros s L p n (G & Ls & Lb & [K _] & HL) Hp%HL. destruct (ko_pos _ _ _ _ K) as [K1 _].
    destruct (region_block _ _ _ _ K _ _ Hp) as (pg & k & _ & _ & _ & P1 & _ & P2 & _).
    unfold base in P2. change BUDDY_PAGE_SIZE with 4096 in P2. lia.
  - intros s L p n q m x (G & Ls & Lb & [K _] & HL) Hp%HL Hq%HL Hx Hy.
    by destruct (region_meet _ _ _ _ K _ _ _ _ x Hp Hq Hx Hy).
Defined.

#[export] Instance kmalloc_page_allocator : PageAllocator kmem.
Proof.
  refine (Build_PageAllocator kmem _ (get_pages 0) _).
  intros s L H. destruct (get_pages_spec 0 s L H ltac:(done)) as (p & s' & E & [[-> ->]|(P1 & P2 & P3 & P4 & P5)]).
  - exists 0, s. split; [done|]. by left.
  - exists p, s'. split; [done|]. by right.
Defined.

(** ** The theorems *)

Lemma heap_booted s G : heap_ok s G ∅ ∅ → heap s ∅.
Proof.
  intros H. exists G, ∅, ∅. split; [done|]. intros p n. rewrite lookup_empty. split; [done|].
  intros [[? _]|(? & ? & ? & _)]; set_solver.
Qed.

(** With no slot of order [o] live, the first slab of the order has a free
    slot. *)
Lemma first_alloc s G Ls Lb o : heap_ok s G Ls Lb → SLAB_MIN_ORDER ≤ o ≤ SLAB_MAX_ORDER →
  (∀ x pg fl, x ∈ Ls → G !! pg = Some (o, fl) → ¬ is_slot (base (zone s) pg) o x) → ∃ h x s',
  slabs s !! Z.to_nat o = Some h ∧ _alloc_in_slab h o s = Done x s' ∧ slot_post s G Ls Lb o x s'.
Proof.
  intros H Ho HN. pose proof H as [K HL]. destruct (HL o Ho) as (l & L1 & h & Hh & L2 & L3 & C).
  destruct l as [|pg l]; [done|]. destruct (proj1 (L3 pg) ltac:(set_solver)) as [fl HG].
  destruct C as (-> & _). destruct fl as [|x fl].
  { exfalso. destruct (slots_cons (base (zone s) pg) o Ho) as (x & l' & E).
    assert (is_slot (base (zone s) pg) o x) as Sx by (apply elem_of_slots; rewrite E; set_solver).
    apply (not_elem_of_nil x). apply (so_slots _ _ _ _ _ (ko_slab _ _ _ _ K _ _ _ HG)).
    split; [done|]. intros Hx. by apply (HN x pg [] Hx HG). }
  destruct (alloc_head 1 _ _ _ _ _ _ _ _ H HG) as (s' & E & P). exists (base (zone s) pg), x, s'.
  by split_and!.
Qed.

(** A booted heap to run on. *)
Lemma booted_heap : ∃ s G, mm_init KBASE 8192 ∅ = Done tt s ∧ heap_ok s G ∅ ∅.
Proof.
  destruct (mm_init_spec KBASE 8192 ∅ ltac:(lia) eq_refl boot_behind ltac:(done) eq_refl) as (s & G & E & H & _).
  exists s, G. split; assumption.
Qed.

(** Two live regions, of 32 and of 64 bytes. *)
Lemma heap_of_two : ∃ s p q, heap s (<[q := 64]> {[p := 32]}) ∧ p ≠ q.
Proof.
  destruct booted_heap as (s & G & _ & H).
  assert (∀ p n, (∅ : gmap Z Z) !! p = Some n ↔ region (zone s) G ∅ ∅ p n) as HL.
  { intros p n. rewrite lookup_empty. split; [done|]. intros [[? _]|(? & ? & ? & _)]; set_solver. }
  destruct (first_alloc s G ∅ ∅ 5 H) as (h & p & s1 & _ & _ & P1);
    [unfold SLAB_MIN_ORDER, SLAB_MAX_ORDER; lia|set_solver|].
  destruct (slot_post_heap _ _ _ _ _ _ _ _ H HL P1) as (_ & _ & (G1 & Ls1 & Lb1 & H1 & HL1)).
  destruct (proj1 (HL1 p (2 ^ 5))) as [[Lp (pg & o & fl & HG & Sp & Eo)]|(pg & k & Hb & _ & Eo)];
    [by rewrite lookup_insert_eq| |].
  2: { exfalso. destruct (wf_block _ _ (pg, k) (proj1 (ko_zone _ _ _ _ (proj1 H1)))) as (Hk & _); [set_solver|].
       simpl in Hk. pose proof (pow2_pos k ltac:(lia)). change BUDDY_PAGE_SIZE with 4096 in Eo. lia. }
  destruct (first_alloc s1 G1 Ls1 Lb1 6 H1) as (h2 & q & s2 & _ & _ & P2).
  { unfold SLAB_MIN_ORDER, SLAB_MAX_ORDER. lia. }
  { intros x pg2 fl2 Hx HG2 Sx. assert (L1 : <[p := 2 ^ 5]> (∅ : gmap Z Z) !! x = Some (2 ^ 6)).
    { apply HL1. left. split; [done|]. by exists pg2, 6, fl2. }
    apply lookup_insert_Some in L1 as [[_ E]|[_ E]]; [by vm_compute in E|by rewrite lookup_empty in E]. }
  destruct (slot_post_heap _ _ _ _ _ _ _ _ H1 HL1 P2) as (_ & LN & H2). exists s2, p, q. split; [exact H2|].
  intros ->. by rewrite lookup_insert_eq in LN.
Qed.

#[local] Opaque mm_init kmalloc kfree.

(** Booting buddy and slab allocators on at least seven slabs' worth of
    memory succeeds and leaves a heap with no live region. *)
Theorem mm_init_ok va n past : 3584 ≤ n → n mod 2 ^ 13 = 0 → behind_ok n past →
  direct_map va → va + n * BUDDY_PAGE_SIZE < 2 ^ 64 → ∃ s, mm_init va n past = Done tt s ∧ heap s ∅.
Proof.
  intros H1 H2 H3 H4 H5. destruct (mm_init_spec va n past H1 H2 H3 H4 H5) as (s & G & E & H & _).
  exists s. split; [done|by eapply heap_booted].
Qed.

(** [parse_mem_map]: the physical memory behind the kernel image.  No build defines
    [CHCORE_PLAT], so that the numbers for the raspi3 are used on every board. *)
Definition NPAGES : Z := 128 * 1024.
Definition SIZE_1G : Z := 2 ^ 30.
Definition parse_mem_map (img_end : Z) : option (Z * Z) :=
  let free_mem_start := u64 (ROUND_UP img_end BUDDY_PAGE_SIZE) in
  let free_mem_end := u64 (free_mem_start + NPAGES * (BUDDY_PAGE_SIZE + SIZEOF_PAGE)) in
  if SIZE_1G <? free_mem_end then None else Some (free_mem_start, free_mem_end).

(** [mm_init] from the memory map on. *)
Definition mm_init_from (img_end : Z) (past : gmap Z page) : outcome kmem unit :=
  match parse_mem_map img_end with
  | None => Halt
  | Some (s, e) => mm_init (mm_init_start_vaddr (phys_to_virt s) (phys_to_virt e)) (mm_init_npages (phys_to_virt s) (phys_to_virt e)) past
  end.

(** Booting behind an image that leaves room for the pages gives a heap of exactly
    [NPAGES] pages, whose metadata fits before them. *)
Theorem mm_init_from_ok img_end past : 0 ≤ img_end → img_end + BUDDY_PAGE_SIZE + NPAGES * (BUDDY_PAGE_SIZE + SIZEOF_PAGE) ≤ SIZE_1G → behind_ok NPAGES past →
  ∃ s va, mm_init_from img_end past = Done tt s ∧ heap s ∅ ∧ mm_init va NPAGES past = Done tt s ∧
  phys_to_virt (ROUND_UP img_end BUDDY_PAGE_SIZE) + NPAGES * SIZEOF_PAGE = va ∧ va + NPAGES * BUDDY_PAGE_SIZE ≤ phys_to_virt SIZE_1G.
Proof.
  intros H0 H1 HB. destruct (round_up_spec img_end) as [HR HM]. unfold mm_init_from, parse_mem_map. set (r := ROUND_UP img_end BUDDY_PAGE_SIZE) in *.
  change (NPAGES * (BUDDY_PAGE_SIZE + SIZEOF_PAGE)) with 542113792 in *. change (NPAGES * BUDDY_PAGE_SIZE) with 536870912. change (NPAGES * SIZEOF_PAGE) with 5242880.
  change SIZE_1G with 1073741824 in *. change BUDDY_PAGE_SIZE with 4096 in *. unfold phys_to_virt, KBASE.
  rewrite !(u64_id r), !(u64_id (r + 542113792)) by (unfold is_u64; lia). rewrite (proj2 (Z.ltb_ge _ _)) by lia.
  rewrite !(u64_id (r + 0xFFFFFF0000000000)), !(u64_id (r + 542113792 + 0xFFFFFF0000000000)) by (unfold is_u64; lia).
  pose (S := r + 0xFFFFFF0000000000). assert (mm_init_npages S (r + 542113792 + 0xFFFFFF0000000000) = NPAGES) as EN.
  { unfold mm_init_npages, S. rewrite u64_id by (unfold is_u64; lia). change (BUDDY_PAGE_SIZE + SIZEOF_PAGE) with 4136.
    replace (r + 542113792 + 0xFFFFFF0000000000 - (r + 0xFFFFFF0000000000)) with (131072 * 4136) by lia. by rewrite Z.div_mul. }
  assert (mm_init_start_vaddr S (r + 542113792 + 0xFFFFFF0000000000) = S + 5242880) as EV.
  { unfold mm_init_start_vaddr. rewrite EN. change (NPAGES * SIZEOF_PAGE) with 5242880. destruct (round_up_spec (S + 5242880)) as [HR' HM'].
    change BUDDY_PAGE_SIZE with 4096 in *. unfold S in *. apply Z.mod_divide in HM as [x Hx]; [|done]. apply Z.mod_divide in HM' as [y Hy]; [|done].
    rewrite u64_id; [lia|unfold is_u64; lia]. }
  assert (direct_map (S + 5242880)) as HD.
  { split; [unfold S, KBASE; lia|]. unfold S, PAGE_SIZE. apply Z.mod_divide in HM as [x Hx]; [|done]. apply Z.mod_divide; [done|].
    exists (x + 0xFFFFFF0000000 + 1280). lia. }
  fold S. rewrite EN, EV. destruct (mm_init_ok (S + 5242880) NPAGES past) as (s & E & Hs); [done|done|done|done| |].
  { change (NPAGES * BUDDY_PAGE_SIZE) with 536870912. unfold S. lia. }
  exists s, (S + 5242880). split_and!; [done|done|done|done|unfold S; rewrite u64_id by (unfold is_u64; lia); lia].
Qed.

Lemma mm_init_ok_witness : ∃ s, mm_init KBASE 8192 ∅ = Done tt s ∧ heap s ∅.
Proof. apply mm_init_ok; [lia|reflexivity|apply boot_behind|done|reflexivity]. Defined.

(** C14: [kmalloc] of up to 32 MiB returns; a non-null result is the start of a
    region of at least the requested size that was not live before; NULL is
    returned only for sizes above 2048 and changes nothing, and small sizes
    stop the machine instead when memory runs out. *)
Theorem kmalloc_ok size s L : heap s L → 0 ≤ size ≤ KMALLOC_MAX →
  (kmalloc size s = Halt ∧ size ≤ 2048) ∨ ∃ p s', kmalloc size s = Done p s' ∧
  ((p = 0 ∧ s' = s ∧ 2048 < size) ∨
   ∃ n, p ≠ 0 ∧ L !! p = None ∧ size ≤ n ∧ heap s' (<[p := n]> L)).
Proof. apply kmalloc_spec. Qed.

Lemma kmalloc_ok_witness : ∃ s p s', mm_init KBASE 8192 ∅ = Done tt s ∧ kmalloc 5000 s = Done p s'.
Proof.
  destruct booted_heap as (s & G & E & H).
  destruct (kmalloc_ok 5000 s ∅ (heap_booted _ _ H)) as [[_ C]|(p & s' & E' & _)].
  - change KMALLOC_MAX with (2 ^ 25). lia.
  - lia.
  - exists s, p, s'. split; assumption.
Defined.

(** C15: [kfree] of a live region returns and makes exactly that region dead. *)
Theorem kfree_ok s L p n : heap s L → L !! p = Some n →
  ∃ s', kfree p s = Done tt s' ∧ heap s' (delete p L).
Proof. apply kfree_spec. Qed.

Lemma kfree_ok_witness : ∃ s p q s', heap s (<[q := 64]> {[p := 32]}) ∧ kfree p s = Done tt s' ∧
  heap s' (delete p (<[q := 64]> {[p := 32]})).
Proof.
  destruct heap_of_two as (s & p & q & H & N).
  destruct (kfree_ok s _ p 32 H) as (s' & E & H').
  - by rewrite lookup_insert_ne, lookup_singleton_eq.
  - exists s, p, q, s'. split_and!; assumption.
Defined.

(** Live regions never overlap. *)
Theorem heap_regions_apart s L p n q m : heap s L → L !! p = Some n → L !! q = Some m → p ≠ q →
  p + n ≤ q ∨ q + m ≤ p.
Proof.
  intros H Hp Hq N. destruct (Z.le_gt_cases (p + n) q) as [|C1]; [by left|].
  destruct (Z.le_gt_cases (q + m) p) as [|C2]; [by right|]. exfalso. apply N.
  destruct H as (G & Ls & Lb & [K _] & HL). apply HL in Hp as Rp, Hq as Rq.
  destruct (region_block _ _ _ _ K _ _ Rp) as (? & ? & _ & P1 & _).
  destruct (region_block _ _ _ _ K _ _ Rq) as (? & ? & _ & P2 & _).
  by destruct (region_meet _ _ _ _ K _ _ _ _ (Z.max p q) Rp Rq) as [E _]; [lia|lia|].
Qed.

Lemma heap_regions_apart_witness : ∃ s p q, heap s (<[q := 64]> {[p := 32]}) ∧ (p + 32 ≤ q ∨ q + 64 ≤ p).
Proof.
  destruct heap_of_two as (s & p & q & H & N). exists s, p, q. split; [exact H|].
  apply (heap_regions_apart s _ p 32 q 64 H); [|apply lookup_insert_eq|exact N].
  by rewrite lookup_insert_ne, lookup_singleton_eq.
Defined.

(** A request close to [2 ^ 64] wraps around in [ROUND_UP] and is served with
    a single page. *)
Example size_to_page_order_wraps : size_to_page_order (2 ^ 64 - 1) = 0.
Proof. vm_compute. reflexivity. Qed.

(** [size_to_order] truncates its argument to [int]: it is wrong from 4 GiB
    on. *)
Example size_to_order_truncates : size_to_order (2 ^ 32 + 1) = 1.
Proof. vm_compute. reflexivity. Qed.

End Kmalloc.
