(* ===== verification/Radix.v ===== *)
(** * Radix trees (kernel/lib/radix.c, kernel/include/common/radix.h)

    The tree lives in a heap of 16-word nodes, allocated from the interface of
    Allocator.v; a node's words are children on the 15 upper levels and values
    on the leaf level (the union of [struct radix_node]).  The lock is part of
    the state because [radix_free] can return without releasing it.

    The specification is a total map from 64-bit keys to values, NULL meaning
    absent. *)

From S2P Require Import Prelude Allocator.

Module Radix.

Import Allocator.

Definition RADIX_NODE_BITS : Z := 4.
Definition RADIX_NODE_SIZE : Z := Z.shiftl 1 RADIX_NODE_BITS.
Definition RADIX_NODE_MASK : Z := RADIX_NODE_SIZE - 1.
Definition RADIX_MAX_BITS : Z := 64.
Definition RADIX_LEVELS : nat := Z.to_nat ((RADIX_MAX_BITS + RADIX_NODE_BITS - 1) / RADIX_NODE_BITS).

Definition ENOMEM : Z := 12.
Definition EINVAL : Z := 22.

Definition SIZEOF_RADIX_NODE : Z := RADIX_NODE_SIZE * 8.

Section radix.
Context {A : Type} `{!Allocator A}.

(** The kernel heap, the nodes, and [struct radix]; [deleted] records the
    calls of [value_deleter]. *)
Record state := mk_state {
  al : A;
  nodes : gmap Z (list Z);
  root : Z;
  radix_lock : bool;
  value_deleter : bool;
  deleted : list Z
}.

Abbreviation MR := (M state).

Definition with_al (a : A) (s : state) : state :=
  mk_state a (nodes s) (root s) (radix_lock s) (value_deleter s) (deleted s).
Definition with_nodes (f : gmap Z (list Z) → gmap Z (list Z)) (s : state) : state :=
  mk_state (al s) (f (nodes s)) (root s) (radix_lock s) (value_deleter s) (deleted s).
Definition with_root (p : Z) (s : state) : state :=
  mk_state (al s) (nodes s) p (radix_lock s) (value_deleter s) (deleted s).
Definition with_lock (b : bool) (s : state) : state :=
  mk_state (al s) (nodes s) (root s) b (value_deleter s) (deleted s).
Definition with_deleter (b : bool) (s : state) : state :=
  mk_state (al s) (nodes s) (root s) (radix_lock s) b (deleted s).
Definition with_deleted (l : list Z) (s : state) : state :=
  mk_state (al s) (nodes s) (root s) (radix_lock s) (value_deleter s) l.

Definition lock : MR unit := λ s, if radix_lock s then Spin else Done tt (with_lock true s).
Definition unlock : MR unit := modify (with_lock false).

(** [node->children[k]] and [node->values[k]]. *)
Definition slot (node k : Z) : MR Z :=
  s <- get ;; ws <- need (nodes s !! node) ;; need (ws !! Z.to_nat k).
Definition set_slot (node k v : Z) : MR unit :=
  s <- get ;; ws <- need (nodes s !! node) ;; modify (with_nodes (<[node := <[Z.to_nat k := v]> ws]>)).

(** [kzalloc] of a node; the result is zeroed. *)
Definition zalloc_node : MR Z :=
  p <- zoom al with_al (al_zalloc SIZEOF_RADIX_NODE) ;;
  if p =? 0 then ret 0
  else modify (with_nodes (<[p := replicate (Z.to_nat RADIX_NODE_SIZE) 0]>)) ;; ret p.

(** An error code, or a node. *)
Definition new_radix_node : MR (Z + Z) :=
  n <- zalloc_node ;;
  ret (if n =? 0 then inl (- ENOMEM) else inr n).

Definition init_radix : MR unit :=
  p <- zalloc_node ;;
  modify (with_root p) ;;
  BUG_ON (p =? 0) ;;
  modify (with_deleter false) ;;
  modify (with_lock false).

Definition init_radix_w_deleter (deleter : bool) : MR unit :=
  init_radix ;; modify (with_deleter deleter).

(** [index[i]] for each level. *)
Fixpoint indices (n : nat) (key : Z) : list Z :=
  match n with
  | O => []
  | S m => Z.land key RADIX_NODE_MASK :: indices m (Z.shiftr key RADIX_NODE_BITS)
  end.

(** The loop of [radix_add] over the intermediate levels [i .. 1]. *)
Fixpoint descend_add (i : nat) (index : list Z) (node : Z) : MR (Z + Z) :=
  match i with
  | O => ret (inr node)
  | S j =>
      k <- need (index !! i) ;;
      c <- slot node k ;;
      if c =? 0 then
        new <- new_radix_node ;;
        match new with
        | inl e => ret (inl e)
        | inr p => set_slot node k p ;; descend_add j index p
        end
      else descend_add j index c
  end.

Definition root_or_new : MR (Z + Z) :=
  s <- get ;;
  if root s =? 0 then
    new <- new_radix_node ;;
    match new with
    | inl e => ret (inl e)
    | inr p => modify (with_root p) ;; ret (inr p)
    end
  else ret (inr (root s)).

Definition radix_add (key value : Z) : MR Z :=
  lock ;;
  r <- root_or_new ;;
  match r with
  | inl e => unlock ;; ret e
  | inr node =>
      let index := indices RADIX_LEVELS key in
      r <- descend_add (RADIX_LEVELS - 1) index node ;;
      match r with
      | inl e => unlock ;; ret e
      | inr leaf =>
          k <- need (index !! 0%nat) ;;
          v <- slot leaf k ;;
          BUG_ON (negb (v =? 0) && negb (value =? 0)) ;;
          set_slot leaf k value ;;
          unlock ;;
          ret 0
      end
  end.

(** The loop of [radix_get]; 0 when a child is missing. *)
Fixpoint descend_get (i : nat) (index : list Z) (node : Z) : MR Z :=
  match i with
  | O => ret node
  | S j =>
      k <- need (index !! i) ;;
      c <- slot node k ;;
      if c =? 0 then ret 0 else descend_get j index c
  end.

Definition radix_get (key : Z) : MR Z :=
  lock ;;
  s <- get ;;
  if root s =? 0 then unlock ;; ret 0
  else
    let index := indices RADIX_LEVELS key in
    leaf <- descend_get (RADIX_LEVELS - 1) index (root s) ;;
    if leaf =? 0 then unlock ;; ret 0
    else
      k <- need (index !! 0%nat) ;;
      v <- slot leaf k ;;
      unlock ;;
      ret v.

Definition radix_del (key : Z) : MR Z := radix_add key 0.

(** [for (i = 0; i < RADIX_NODE_SIZE; i++)], from [k] on. *)
Fixpoint for_slots (n : nat) (k : Z) (f : Z → MR unit) : MR unit :=
  match n with
  | O => ret tt
  | S m => f k ;; for_slots m (k + 1) f
  end.

(** [radix_free_node] with [lvls] levels below the node. *)
Fixpoint radix_free_node (lvls : nat) (node : Z) : MR unit :=
  match lvls with
  | O =>
      s <- get ;;
      if value_deleter s then
        for_slots (Z.to_nat RADIX_NODE_SIZE) 0 (λ i,
          v <- slot node i ;;
          if v =? 0 then ret tt else modify (λ s, with_deleted (deleted s ++ [v]) s))
      else ret tt
  | S m =>
      for_slots (Z.to_nat RADIX_NODE_SIZE) 0 (λ i,
        c <- slot node i ;;
        if c =? 0 then ret tt else radix_free_node m c)
  end.

Definition radix_free : MR Z :=
  lock ;;
  s <- get ;;
  if root s =? 0 then ret (- EINVAL)
  else
    radix_free_node (RADIX_LEVELS - 1) (root s) ;;
    unlock ;;
    ret 0.

(** ** Specification *)

(** The ghost state [P] gives each path of child indices from the root the
    node it leads to. *)
Abbreviation paths := (gmap (list Z) Z).

Record rep (s : state) (P : paths) (L : gmap Z Z) : Prop := {
  r_own : owns (al s) L;
  r_dom : dom (nodes s) ⊆ dom L;
  r_root : P !! [] = if root s =? 0 then None else Some (root s);
  r_inj : ∀ π π' p, P !! π = Some p → P !! π' = Some p → π = π';
  r_node : ∀ π p, P !! π = Some p → p ≠ 0 ∧ (length π < RADIX_LEVELS)%nat ∧
    ∃ ws, nodes s !! p = Some ws ∧ length ws = 16%nat ∧
    ((length π < RADIX_LEVELS - 1)%nat → ∀ k, 0 ≤ k < 16 →
      ws !! Z.to_nat k = Some (default 0 (P !! (π ++ [k]))));
  r_prefix : ∀ π k p, P !! (π ++ [k]) = Some p → is_Some (P !! π) ∧ 0 ≤ k < 16
}.

(** The child indices of a key, from the root down. *)
Definition path (key : Z) : list Z := reverse (drop 1 (indices RADIX_LEVELS key)).
Definition leaf_index (key : Z) : Z := Z.land key RADIX_NODE_MASK.

(** The map a tree represents. *)
Definition value_of (s : state) (P : paths) (key : Z) : Z :=
  match P !! path key with
  | None => 0
  | Some p => default 0 (nodes s !! p ≫= λ ws, ws !! Z.to_nat (leaf_index key))
  end.

(** ** Keys *)

Definition nibble (j : nat) (key : Z) : Z := Z.land (Z.shiftr key (4 * Z.of_nat j)) 15.

Lemma nibble_range j key : 0 ≤ nibble j key < 16.
Proof. unfold nibble. change 15 with (Z.ones 4). rewrite Z.land_ones by lia. apply Z.mod_pos_bound. lia. Qed.

Lemma indices_lookup n key j : (j < n)%nat → indices n key !! j = Some (nibble j key).
Proof.
  revert key j. induction n as [|n IH]; intros key j H; [lia|]. destruct j as [|j]; simpl.
  - unfold nibble. by rewrite Z.shiftr_0_r.
  - rewrite IH by lia. unfold nibble. rewrite Z.shiftr_shiftr by (unfold RADIX_NODE_BITS; lia).
    unfold RADIX_NODE_BITS. do 3 f_equal. lia.
Qed.

Lemma length_indices n key : length (indices n key) = n.
Proof. revert key. induction n as [|n IH]; intros key; [done|]. simpl. by rewrite IH. Qed.

Lemma leaf_index_nibble key : leaf_index key = nibble 0 key.
Proof. unfold leaf_index, nibble. by rewrite Z.shiftr_0_r. Qed.

Lemma length_path key : length (path key) = 15%nat.
Proof. unfold path. by rewrite length_reverse, length_drop, length_indices. Qed.

Lemma path_lookup key j : (j < 15)%nat → path key !! j = Some (nibble (15 - j) key).
Proof.
  intros H. unfold path. change RADIX_LEVELS with 16%nat.
  rewrite reverse_lookup; rewrite length_drop, length_indices; [|lia].
  rewrite lookup_drop, indices_lookup by lia. do 2 f_equal. lia.
Qed.

(** A key is determined by its path and its leaf index. *)
Lemma key_ext a b : is_u64 a → is_u64 b → path a = path b → leaf_index a = leaf_index b → a = b.
Proof.
  intros Ha Hb HP HL. apply Z.bits_inj'. intros n Hn.
  destruct (Z.lt_ge_cases n 64) as [Hn'|Hn'].
  - assert (∀ j, (j < 16)%nat → nibble j a = nibble j b) as HN.
    { intros j Hj. destruct j as [|j]; [by rewrite <- !leaf_index_nibble|].
      assert (path a !! (14 - j)%nat = path b !! (14 - j)%nat) as E by (by rewrite HP).
      rewrite !path_lookup in E by lia. injection E as E. by replace (15 - (14 - j))%nat with (S j) in E by lia. }
    pose proof (Z.div_mod n 4 ltac:(lia)). pose proof (Z.mod_pos_bound n 4 ltac:(lia)).
    specialize (HN (Z.to_nat (n / 4)) ltac:(lia)). apply (f_equal (λ z, Z.testbit z (n mod 4))) in HN.
    unfold nibble in HN. rewrite !Z.land_spec, !Z.shiftr_spec in HN by lia.
    change 15 with (Z.ones 4) in HN. rewrite (Z.ones_spec_low 4) in HN by lia. rewrite !andb_true_r in HN.
    by replace (n mod 4 + 4 * Z.of_nat (Z.to_nat (n / 4))) with n in HN by lia.
  - assert (∀ z, is_u64 z → Z.testbit z n = false) as T.
    { intros z Hz. destruct (Z.eq_dec z 0) as [->|]; [apply Z.bits_0|]. unfold is_u64 in Hz.
      apply Z.bits_above_log2; [lia|]. apply Z.log2_lt_pow2; [lia|].
      apply Z.lt_le_trans with (2 ^ 64); [lia|]. apply Z.pow_le_mono_r; lia. }
    by rewrite !T.
Qed.

(** The first [15 - i] indices of the path. *)
Definition prefix (i : nat) (key : Z) : list Z := take (15 - i) (path key).

Lemma prefix_S i key : (i < 15)%nat → prefix i key = prefix (S i) key ++ [nibble (S i) key].
Proof.
  intros H. unfold prefix. replace (15 - i)%nat with (S (15 - S i)) by lia.
  rewrite (take_S_r _ _ (nibble (S i) key)); [done|]. rewrite path_lookup by lia. do 2 f_equal. lia.
Qed.

Lemma prefix_0 key : prefix 0 key = path key.
Proof. unfold prefix. apply take_ge. by rewrite length_path. Qed.

Lemma length_prefix i key : (i ≤ 15)%nat → length (prefix i key) = (15 - i)%nat.
Proof. intros H. unfold prefix. rewrite length_take, length_path. lia. Qed.

(** ** Looking a key up *)

Lemma slot_ok s p k ws v : nodes s !! p = Some ws → ws !! Z.to_nat k = Some v → slot p k s = Done v s.
Proof. intros H1 H2. unfold slot, bind, get. rewrite H1. unfold need, ret. by rewrite H2. Qed.

Lemma set_slot_ok s p k v ws : nodes s !! p = Some ws →
  set_slot p k v s = Done tt (with_nodes (<[p := <[Z.to_nat k := v]> ws]>) s).
Proof. intros H. unfold set_slot, bind, get. by rewrite H. Qed.

Lemma need_index i key (s : state) : (i < RADIX_LEVELS)%nat →
  need (indices RADIX_LEVELS key !! i) s = Done (nibble i key) s.
Proof. intros H. by rewrite indices_lookup. Qed.

Section rep.
Context (s : state) (P : paths) (L : gmap Z Z) (R : rep s P L).

(** The child word of an inner node. *)
Lemma child_slot π p k : P !! π = Some p → (length π < 15)%nat → 0 ≤ k < 16 →
  slot p k s = Done (default 0 (P !! (π ++ [k]))) s.
Proof.
  intros H Hl Hk. destruct (r_node _ _ _ R _ _ H) as (_ & _ & ws & Hw & _ & Hc).
  apply (slot_ok _ _ _ ws); [done|]. by apply Hc.
Qed.

Lemma leaf_slot key p : P !! path key = Some p → slot p (leaf_index key) s = Done (value_of s P key) s.
Proof.
  intros H. destruct (r_node _ _ _ R _ _ H) as (_ & _ & ws & Hw & Hlen & _).
  pose proof (nibble_range 0 key) as Hn. rewrite <- leaf_index_nibble in Hn.
  destruct (lookup_lt_is_Some_2 ws (Z.to_nat (leaf_index key))) as [v Hv]; [lia|].
  unfold value_of. rewrite H, Hw. simpl. rewrite Hv. by apply (slot_ok _ _ _ ws).
Qed.

Lemma child_zero π k p : P !! (π ++ [k]) = Some p → p ≠ 0.
Proof. intros H. by destruct (r_node _ _ _ R _ _ H). Qed.

Lemma prefix_none key i : (i ≤ 15)%nat → P !! prefix i key = None → P !! path key = None.
Proof.
  induction i as [|i IH]; intros Hi HN; [by rewrite prefix_0 in HN|].
  apply IH; [lia|]. destruct (P !! prefix i key) as [p|] eqn:E; [|done].
  rewrite prefix_S in E by lia. destruct (r_prefix _ _ _ R _ _ _ E) as [[q Hq] _]. congruence.
Qed.

Lemma descend_get_spec key i p : (i ≤ 15)%nat → P !! prefix i key = Some p →
  descend_get i (indices RADIX_LEVELS key) p s = Done (default 0 (P !! path key)) s.
Proof.
  revert p. induction i as [|i IH]; intros p Hi Hp.
  { rewrite prefix_0 in Hp. by rewrite Hp. }
  cbn [descend_get]. erewrite bind_Done by (apply need_index; change RADIX_LEVELS with 16%nat; lia).
  erewrite bind_Done by (apply (child_slot (prefix (S i) key)); [done|rewrite length_prefix; lia|apply nibble_range]).
  rewrite <- prefix_S by lia. destruct (P !! prefix i key) as [c|] eqn:E; simpl.
  - rewrite (proj2 (Z.eqb_neq c 0)) by (rewrite prefix_S in E by lia; by eapply child_zero). apply IH; [lia|done].
  - by rewrite (prefix_none key i) by (done || lia).
Qed.

Lemma rep_lock b : rep (with_lock b s) P L.
Proof. by destruct R. Qed.

End rep.

Lemma radix_get_spec s P L key : rep s P L → radix_lock s = false →
  radix_get key s = Done (value_of s P key) s.
Proof.
  intros R HL. unfold radix_get, lock.
  erewrite bind_Done by (rewrite HL; reflexivity). erewrite bind_Done by reflexivity.
  pose proof (rep_lock _ _ _ R true) as R1.
  assert (with_lock false (with_lock true s) = s) as EU by (destruct s; simpl in *; by subst).
  change (root (with_lock true s)) with (root s). pose proof (r_root _ _ _ R) as HR.
  destruct (Z.eqb_spec (root s) 0) as [E|E].
  - erewrite bind_Done by reflexivity. rewrite EU. unfold ret. f_equal. unfold value_of.
    by rewrite (prefix_none s P L R key 15).
  - erewrite bind_Done by (apply (descend_get_spec _ _ _ R1 key 15); done).
    destruct (P !! path key) as [p|] eqn:Ep; cbn [from_option id].
    + rewrite (proj2 (Z.eqb_neq p 0)) by (by destruct (r_node _ _ _ R _ _ Ep)).
      erewrite bind_Done by (apply need_index; change RADIX_LEVELS with 16%nat; lia).
      rewrite <- leaf_index_nibble. erewrite bind_Done by (by apply (leaf_slot _ _ _ R1)).
      erewrite bind_Done by reflexivity. by rewrite EU.
    + rewrite Z.eqb_refl. erewrite bind_Done by reflexivity. rewrite EU. unfold ret, value_of. by rewrite Ep.
Qed.

(** ** Adding a key *)

(** Allocating a zeroed node. *)
Lemma new_radix_node_spec s P L : rep s P L → SIZEOF_RADIX_NODE ≤ max_size →
  new_radix_node s = Halt ∨
  (∃ s', new_radix_node s = Done (inl (- ENOMEM)) s' ∧ rep s' P L ∧ nodes s' = nodes s ∧
     root s' = root s ∧ radix_lock s' = radix_lock s) ∨
  ∃ p n a', new_radix_node s = Done (inr p) (with_nodes (<[p := replicate 16 0]>) (with_al a' s)) ∧
    p ≠ 0 ∧ nodes s !! p = None ∧ owns a' (<[p := n]> L).
Proof.
  intros R HM. unfold new_radix_node, zalloc_node.
  destruct (al_zalloc_ok (al s) L SIZEOF_RADIX_NODE (r_own _ _ _ R)) as [E|(p & a' & E & H)]; [by split|..].
  - left. do 2 apply bind_Halt. by apply zoom_Halt.
  - right. destruct H as [[-> H]|(n & Hp & Hn & _ & H)].
    + left. exists (with_al a' s). split_and!; [|by destruct R|done|done|done].
      erewrite bind_Done; [|erewrite bind_Done by (apply zoom_Done; exact E); reflexivity]. reflexivity.
    + right. exists p, n, a'. split_and!; [|done| |done].
      * erewrite bind_Done; [|erewrite bind_Done by (apply zoom_Done; exact E);
          rewrite (proj2 (Z.eqb_neq p 0) Hp); reflexivity]. by rewrite (proj2 (Z.eqb_neq p 0) Hp).
      * apply not_elem_of_dom. intros D%(r_dom _ _ _ R). by apply not_elem_of_dom in Hn.
Qed.

(** Linking a fresh node at path [π ++ [k]]. *)
Lemma rep_link s P L π k q ws p n a' : rep s P L → P !! π = Some q → nodes s !! q = Some ws →
  (length π < 15)%nat → 0 ≤ k < 16 → P !! (π ++ [k]) = None →
  p ≠ 0 → nodes s !! p = None → owns a' (<[p := n]> L) →
  let s' := with_nodes (<[q := <[Z.to_nat k := p]> ws]>) (with_nodes (<[p := replicate 16 0]>) (with_al a' s)) in
  rep s' (<[π ++ [k] := p]> P) (<[p := n]> L) ∧
  ∀ key, value_of s' (<[π ++ [k] := p]> P) key = value_of s P key.
Proof.
  intros R Hq Hw Hl Hk HN Hp Hf Ho s'. destruct R as [R1 R2 R3 R4 R5 R6].
  assert (p ≠ q) as Npq by (intros ->; congruence).
  assert (∀ π', P !! π' ≠ Some p) as NP.
  { intros π' H'. destruct (R5 _ _ H') as (_ & _ & ws' & Hw' & _). congruence. }
  assert (nodes s' !! q = Some (<[Z.to_nat k := p]> ws)) as Eq by (simpl; by rewrite lookup_insert_eq).
  assert (nodes s' !! p = Some (replicate 16 0)) as Ep.
  { simpl. by rewrite lookup_insert_ne, lookup_insert_eq. }
  assert (∀ r, r ≠ p → r ≠ q → nodes s' !! r = nodes s !! r) as Eo.
  { intros r H1 H2. simpl. by rewrite !lookup_insert_ne. }
  assert (∀ π' : list Z, π' ++ [k] ≠ []) as Ne by (intros [|]; done).
  split; [split|].
  - done.
  - simpl. rewrite !dom_insert_L. apply elem_of_dom_2 in Hw. set_solver.
  - by rewrite lookup_insert_ne.
  - intros π1 π2 r H1 H2. apply lookup_insert_Some in H1 as [[<- <-]|[_ H1]], H2 as [[<- E]|[_ H2]];
      try done; try (subst; by exfalso; eapply NP); eauto.
  - intros π1 r H1. apply lookup_insert_Some in H1 as [[<- <-]|[N1 H1]].
    + split; [done|]. rewrite length_app. change RADIX_LEVELS with 16%nat. simpl. split; [lia|].
      exists (replicate 16 0). split; [done|]. split; [done|]. intros Hl1 k1 Hk1.
      rewrite lookup_replicate_2 by lia. rewrite lookup_insert_ne by (intros E; apply (f_equal length) in E; rewrite !length_app in E; simpl in E; lia).
      destruct (P !! ((π ++ [k]) ++ [k1])) as [r|] eqn:E; [|done].
      destruct (R6 _ _ _ E) as [[x Hx] _]. congruence.
    + destruct (R5 _ _ H1) as (Hr & Hl1 & ws1 & Hw1 & Hlen & Hc). split; [done|]. split; [done|].
      destruct (decide (r = q)) as [->|Nr].
      * assert (π1 = π) as -> by eauto. rewrite Hw in Hw1. injection Hw1 as <-.
        exists (<[Z.to_nat k := p]> ws). split; [done|]. split; [by rewrite length_insert|].
        intros Hl2 k1 Hk1. destruct (decide (k1 = k)) as [->|Nk].
        -- rewrite list_lookup_insert_eq by lia. by rewrite lookup_insert_eq.
        -- rewrite list_lookup_insert_ne by lia. rewrite (Hc Hl2 k1 Hk1).
           rewrite lookup_insert_ne; [done|]. intros E. apply app_inj_tail in E as [_ E]. congruence.
      * exists ws1. rewrite Eo; [|intros ->; congruence|done]. split; [done|]. split; [done|].
        intros Hl2 k1 Hk1. rewrite (Hc Hl2 k1 Hk1). rewrite lookup_insert_ne; [done|].
        intros E. apply app_inj_tail in E as [-> _]. congruence.
  - intros π1 k1 r H1. apply lookup_insert_Some in H1 as [[E <-]|[_ H1]].
    + apply app_inj_tail in E as [-> ->]. split; [|done]. rewrite lookup_insert_ne; [by eexists|].
      intros E. apply (f_equal length) in E. rewrite length_app in E. simpl in E. lia.
    + destruct (R6 _ _ _ H1) as [[x Hx] ?]. split; [|done].
      destruct (decide (π ++ [k] = π1)) as [<-|]; [rewrite lookup_insert_eq|rewrite lookup_insert_ne]; eauto.
  - intros key. unfold value_of. destruct (decide (π ++ [k] = path key)) as [E|E].
    + rewrite <- E, lookup_insert_eq, HN, Ep. simpl. pose proof (nibble_range 0 key) as Hn.
      rewrite <- leaf_index_nibble in Hn. change (_ !! _) with (replicate 16 0 !! Z.to_nat (leaf_index key)).
      by rewrite lookup_replicate_2 by lia.
    + rewrite lookup_insert_ne by done. destruct (P !! path key) as [r|] eqn:Er; [|done].
      rewrite Eo; [done| |].
      * intros ->. by apply (NP (path key)).
      * intros ->. assert (π = path key) as E' by eauto. apply (f_equal length) in E'. rewrite length_path in E'. lia.
Qed.

(** What the walk down keeps: the represented map and everything but nodes. *)
Definition extends (s : state) (P : paths) (L : gmap Z Z) (s' : state) (P' : paths) (L' : gmap Z Z) : Prop :=
  rep s' P' L' ∧ dom L ⊆ dom L' ∧ radix_lock s' = radix_lock s ∧ ∀ key, value_of s' P' key = value_of s P key.

Lemma extends_trans s P L s1 P1 L1 s2 P2 L2 :
  extends s P L s1 P1 L1 → extends s1 P1 L1 s2 P2 L2 → extends s P L s2 P2 L2.
Proof.
  intros (_ & A0 & A1 & A2) (B1 & B0 & B2 & B3). split_and!; [done|by etrans|congruence|]. intros key. by rewrite B3.
Qed.

Lemma descend_add_spec key i s P L p : SIZEOF_RADIX_NODE ≤ max_size → rep s P L → (i ≤ 15)%nat →
  P !! prefix i key = Some p →
  descend_add i (indices RADIX_LEVELS key) p s = Halt ∨ ∃ r s' P' L',
  descend_add i (indices RADIX_LEVELS key) p s = Done r s' ∧ extends s P L s' P' L' ∧
  match r with inl e => e = - ENOMEM | inr leaf => P' !! path key = Some leaf end.
Proof.
  intros HM. revert s P L p. induction i as [|i IH]; intros s P L p R Hi Hp.
  { right. exists (inr p), s, P, L. rewrite prefix_0 in Hp. by split_and!. }
  cbn [descend_add]. erewrite bind_Done by (apply need_index; change RADIX_LEVELS with 16%nat; lia).
  pose proof (nibble_range (S i) key) as Hn. pose proof (length_prefix (S i) key Hi) as Hl.
  erewrite bind_Done by (apply (child_slot _ _ _ R (prefix (S i) key)); [done|lia|done]).
  pose proof (prefix_S i key ltac:(lia)) as EP.
  destruct (P !! (prefix (S i) key ++ [nibble (S i) key])) as [c|] eqn:E; cbn [from_option id].
  - rewrite (proj2 (Z.eqb_neq c 0)) by (by eapply child_zero).
    apply (IH s P L c R); [lia|]. by rewrite EP.
  - rewrite Z.eqb_refl. destruct (r_node _ _ _ R _ _ Hp) as (_ & _ & ws & Hw & _).
    destruct (new_radix_node_spec s P L R HM) as [E1|[(s1 & E1 & R1 & N1 & _ & L1)|(q & n & a' & E1 & Hq & Hf & Ho)]].
    + left. by apply bind_Halt.
    + right. exists (inl (- ENOMEM)), s1, P, L. erewrite bind_Done by exact E1. split_and!; [done| |done].
      split_and!; [done|done|done|]. intros k. unfold value_of. by rewrite N1.
    + erewrite bind_Done by exact E1.
      destruct (rep_link s P L _ (nibble (S i) key) p ws q n a' R Hp Hw ltac:(lia) Hn E Hq Hf Ho) as [R' HV].
      erewrite bind_Done by (apply (set_slot_ok _ _ _ _ ws); simpl; rewrite lookup_insert_ne; [done|congruence]).
      destruct (IH _ _ _ q R') as [E2|(r & s2 & P2 & L2 & E2 & X2 & Hr)]; [lia|by rewrite EP, lookup_insert_eq|by left|].
      right. exists r, s2, P2, L2. split_and!; [exact E2| |done]. eapply extends_trans; [|exact X2].
      split_and!; [done|rewrite dom_insert_L; set_solver|done|done].
Qed.

(** A fresh node becomes the root. *)
Lemma rep_new_root s P L p n a' : rep s P L → root s = 0 → p ≠ 0 → owns a' (<[p := n]> L) →
  let s' := with_root p (with_nodes (<[p := replicate 16 0]>) (with_al a' s)) in
  rep s' (<[[] := p]> P) (<[p := n]> L) ∧ (∀ key, value_of s P key = 0) ∧
  ∀ key, value_of s' (<[[] := p]> P) key = 0.
Proof.
  intros R H0 Hp Ho s'. pose proof (r_root _ _ _ R) as HR. rewrite H0, Z.eqb_refl in HR.
  assert (∀ π, P !! π = None) as PN.
  { intros π. induction π as [|k π IH] using rev_ind; [done|].
    destruct (P !! (π ++ [k])) as [q|] eqn:E; [|done].
    destruct (r_prefix _ _ _ R _ _ _ E) as [[x Hx] _]. congruence. }
  assert (∀ π r, <[[] := p]> P !! π = Some r → π = [] ∧ r = p) as PS.
  { intros π r [[<- <-]|[_ H]]%lookup_insert_Some; [done|]. by rewrite PN in H. }
  split_and!.
  - destruct R as [R1 R2 R3 R4 R5 R6]. split; simpl.
    + done.
    + rewrite !dom_insert_L. set_solver.
    + by rewrite lookup_insert_eq, (proj2 (Z.eqb_neq p 0)).
    + intros π1 π2 r [-> _]%PS [-> _]%PS. done.
    + intros π r [-> ->]%PS. split; [done|]. split; [change RADIX_LEVELS with 16%nat; simpl; lia|].
      exists (replicate 16 0). rewrite lookup_insert_eq. split; [done|]. split; [done|]. intros _ k Hk.
      rewrite lookup_replicate_2 by lia. rewrite lookup_insert_ne by done. by rewrite PN.
    + intros π k r [E _]%PS. by apply app_eq_nil in E as [_ ?].
  - intros key. unfold value_of. by rewrite PN.
  - intros key. unfold value_of. rewrite lookup_insert_ne; [by rewrite PN|].
    intros E. apply (f_equal length) in E. by rewrite length_path in E.
Qed.

(** The root is there, or created. *)
Lemma root_or_new_spec s P L : SIZEOF_RADIX_NODE ≤ max_size → rep s P L →
  root_or_new s = Halt ∨ ∃ r s' P' L', root_or_new s = Done r s' ∧ extends s P L s' P' L' ∧
  match r with inl e => e = - ENOMEM | inr p => P' !! [] = Some p end.
Proof.
  intros HM R. unfold root_or_new. erewrite bind_Done by reflexivity. pose proof (r_root _ _ _ R) as HR.
  destruct (Z.eqb_spec (root s) 0) as [E0|E0].
  2: { right. exists (inr (root s)), s, P, L. by split_and!. }
  destruct (new_radix_node_spec s P L R HM) as [E1|[(s1 & E1 & R1 & N1 & _ & L1)|(q & n & a' & E1 & Hq & Hf & Ho)]].
  - left. by apply bind_Halt.
  - right. exists (inl (- ENOMEM)), s1, P, L. erewrite bind_Done by exact E1. split_and!; [done| |done].
    split_and!; [done|done|done|]. intros k. unfold value_of. by rewrite N1.
  - erewrite bind_Done by exact E1. cbv beta iota. erewrite bind_Done by reflexivity.
    right. exists (inr q). eexists. exists (<[[] := q]> P), (<[q := n]> L).
    split_and!; [reflexivity| |by rewrite lookup_insert_eq].
    destruct (rep_new_root s P L q n a' R E0 Hq Ho) as (R' & V1 & V2). split_and!; [done|rewrite dom_insert_L; set_solver|done|].
    intros key. by rewrite V1, V2.
Qed.

(** Storing into the leaf. *)
Lemma rep_store s P L key p ws v : rep s P L → P !! path key = Some p → nodes s !! p = Some ws → is_u64 key →
  let s' := with_nodes (<[p := <[Z.to_nat (leaf_index key) := v]> ws]>) s in
  rep s' P L ∧ ∀ k, is_u64 k → value_of s' P k = if decide (k = key) then v else value_of s P k.
Proof.
  intros R Hp Hw Hk s'. pose proof R as [R1 R2 R3 R4 R5 R6].
  pose proof (nibble_range 0 key) as Hn. rewrite <- leaf_index_nibble in Hn. split; [split; try done|].
  - simpl. apply elem_of_dom_2 in Hw. set_solver.
  - intros π r Hr. destruct (R5 _ _ Hr) as (H1 & H2 & ws1 & Hw1 & Hlen & Hc). split; [done|]. split; [done|].
    simpl. destruct (decide (r = p)) as [->|N].
    + rewrite Hw in Hw1. injection Hw1 as <-. exists (<[Z.to_nat (leaf_index key) := v]> ws).
      rewrite lookup_insert_eq. split; [done|]. split; [by rewrite length_insert|]. intros Hl.
      assert (π = path key) as -> by eauto. rewrite length_path in Hl. change RADIX_LEVELS with 16%nat in Hl. lia.
    + exists ws1. by rewrite lookup_insert_ne.
  - intros k Hku. unfold value_of. destruct (P !! path k) as [r|] eqn:Er.
    2: { rewrite decide_False; [done|]. intros ->. congruence. }
    destruct (decide (r = p)) as [->|N].
    + assert (path k = path key) as Epath by eauto. simpl. rewrite lookup_insert_eq, Hw. simpl.
      destruct (R5 _ _ Er) as (_ & _ & ws1 & Hw1 & Hlen & _). rewrite Hw in Hw1. injection Hw1 as <-.
      case_decide as D.
      * subst k. by rewrite list_lookup_insert_eq by lia.
      * rewrite list_lookup_insert_ne; [done|]. intros E. apply D. apply key_ext; try done.
        pose proof (nibble_range 0 k) as Hn2. rewrite <- leaf_index_nibble in Hn2. lia.
    + simpl. rewrite lookup_insert_ne by done. rewrite decide_False; [done|]. intros ->. congruence.
Qed.

(** [radix_add] maps the key, fails with -ENOMEM without changing the map, or
    stops the machine: because the key is taken, or because the heap is
    exhausted. *)
Lemma radix_add_spec s P L key v : SIZEOF_RADIX_NODE ≤ max_size → rep s P L → radix_lock s = false →
  is_u64 key → value_of s P key = 0 ∨ v = 0 →
  radix_add key v s = Halt ∨ ∃ r s' P' L', radix_add key v s = Done r s' ∧
  rep s' P' L' ∧ dom L ⊆ dom L' ∧ radix_lock s' = false ∧
  ((r = 0 ∧ ∀ k, is_u64 k → value_of s' P' k = if decide (k = key) then v else value_of s P k) ∨
   (r = - ENOMEM ∧ ∀ k, value_of s' P' k = value_of s P k)).
Proof.
  intros HM R HL Hk Hv. unfold radix_add, lock.
  erewrite bind_Done by (rewrite HL; reflexivity). pose proof (rep_lock _ _ _ R true) as R0.
  destruct (root_or_new_spec _ _ _ HM R0) as [E|([e|p] & s1 & P1 & L1 & E & (R1 & D1 & K1 & V1) & Hr)].
  { left. by apply bind_Halt. }
  { right. erewrite bind_Done by exact E. cbv beta iota. erewrite bind_Done by reflexivity. do 4 eexists. split; [reflexivity|].
    split; [by apply rep_lock|]. split; [done|]. split; [done|]. by right. }
  erewrite bind_Done by exact E. cbv beta iota zeta. clear E.
  destruct (descend_add_spec key 15 s1 P1 L1 p HM R1 ltac:(lia) Hr) as [E|([e|leaf] & s2 & P2 & L2 & E & (R2 & D2 & K2 & V2) & Hr2)].
  { left. by apply bind_Halt. }
  { right. erewrite bind_Done by exact E. cbv beta iota. erewrite bind_Done by reflexivity. do 4 eexists. split; [reflexivity|].
    split; [by apply rep_lock|]. split; [by etrans|]. split; [done|]. right. split; [done|]. intros k. etransitivity; [apply V2|apply V1]. }
  right. erewrite bind_Done by exact E. cbv beta iota. clear E.
  erewrite bind_Done by (apply need_index; change RADIX_LEVELS with 16%nat; lia). rewrite <- leaf_index_nibble.
  erewrite bind_Done by (by apply (leaf_slot _ _ _ R2)).
  assert (value_of s2 P2 key = value_of s P key) as EV by (by rewrite V2, V1).
  assert (negb (value_of s2 P2 key =? 0) && negb (v =? 0) = false) as ->.
  { rewrite EV. destruct Hv as [->| ->]; [done|]. by rewrite andb_false_r. }
  erewrite bind_Done by reflexivity. destruct (r_node _ _ _ R2 _ _ Hr2) as (_ & _ & ws & Hw & _).
  erewrite bind_Done by (by apply (set_slot_ok _ _ _ _ ws)). erewrite bind_Done by reflexivity.
  destruct (rep_store s2 P2 L2 key leaf ws v R2 Hr2 Hw Hk) as [R3 V3].
  do 4 eexists. split; [reflexivity|]. split; [by apply (rep_lock _ _ _ R3 false)|]. split; [by etrans|]. split; [done|]. left. split; [done|].
  intros k Hku. etransitivity; [apply (V3 k Hku)|]. case_decide; [done|]. by rewrite V2, V1.
Qed.

(** Adding a taken key stops the machine. *)
Lemma radix_add_taken s P L key v : SIZEOF_RADIX_NODE ≤ max_size → rep s P L → radix_lock s = false →
  value_of s P key ≠ 0 → v ≠ 0 → radix_add key v s = Halt.
Proof.
  intros HM R HL Hk Hv. unfold radix_add, lock.
  erewrite bind_Done by (rewrite HL; reflexivity). pose proof (rep_lock _ _ _ R true) as R0.
  assert (∃ p, P !! path key = Some p) as [p Hp].
  { unfold value_of in Hk. destruct (P !! path key); [eauto|done]. }
  assert (∀ i, (i ≤ 15)%nat → ∃ q, P !! prefix i key = Some q) as HP.
  { intros i Hi. destruct (P !! prefix i key) as [q|] eqn:E; [eauto|].
    by rewrite (prefix_none _ _ _ R _ _ Hi E) in Hp. }
  destruct (HP 15%nat ltac:(lia)) as [r Hr]. change (prefix 15 key) with (@nil Z) in Hr.
  pose proof (r_root _ _ _ R0) as HR. rewrite Hr in HR.
  assert (root_or_new (with_lock true s) = Done (inr r) (with_lock true s)) as E.
  { unfold root_or_new. erewrite bind_Done by reflexivity. destruct (root (with_lock true s) =? 0); [done|].
    injection HR as ->. done. }
  erewrite bind_Done by exact E. cbv beta iota zeta.
  assert (∀ i q, (i ≤ 15)%nat → P !! prefix i key = Some q →
    descend_add i (indices RADIX_LEVELS key) q (with_lock true s) = Done (inr p) (with_lock true s)) as HD.
  { induction i as [|i IH]; intros q Hi Hq; [rewrite prefix_0, Hp in Hq; by injection Hq as ->|].
    cbn [descend_add]. erewrite bind_Done by (apply need_index; change RADIX_LEVELS with 16%nat; lia).
    erewrite bind_Done by (apply (child_slot _ _ _ R0 (prefix (S i) key)); [done|rewrite length_prefix; lia|apply nibble_range]).
    rewrite <- prefix_S by lia. destruct (HP i ltac:(lia)) as [c Hc]. rewrite Hc. cbn [from_option id].
    rewrite (proj2 (Z.eqb_neq c 0)) by (by destruct (r_node _ _ _ R _ _ Hc)). apply IH; [lia|done]. }
  erewrite bind_Done by (apply (HD 15%nat r); done). cbv beta iota.
  erewrite bind_Done by (apply need_index; change RADIX_LEVELS with 16%nat; lia). rewrite <- leaf_index_nibble.
  erewrite bind_Done by (by apply (leaf_slot _ _ _ R0)).
  change (value_of (with_lock true s) P key) with (value_of s P key).
  by rewrite (proj2 (Z.eqb_neq _ 0) Hk), (proj2 (Z.eqb_neq _ 0) Hv).
Qed.

(** ** Freeing the tree *)

(** The state after [value_deleter] was called on the values [l]. *)
Definition out (l : list Z) (s : state) : state := with_deleted (deleted s ++ l) s.

Lemma out_nil s : out [] s = s.
Proof. destruct s. unfold out, with_deleted. simpl. by rewrite app_nil_r. Qed.

Lemma out_app l1 l2 s : out l2 (out l1 s) = out (l1 ++ l2) s.
Proof. destruct s. unfold out, with_deleted. simpl. by rewrite app_assoc. Qed.

(** [f] emits the values of [Q], whatever was emitted before. *)
Definition emits (s : state) (f : MR unit) (Q : Z → Prop) : Prop :=
  ∃ vs, (∀ l, f (out l s) = Done tt (out vs (out l s))) ∧ ∀ v, v ∈ vs ↔ Q v.

Lemma for_slots_emits n k f s (Q : Z → Z → Prop) :
  (∀ i, k ≤ i < k + Z.of_nat n → emits s (f i) (Q i)) →
  emits s (for_slots n k f) (λ v, ∃ i, k ≤ i < k + Z.of_nat n ∧ Q i v).
Proof.
  revert k. induction n as [|n IH]; intros k H.
  - exists []. split; [intros l; by rewrite out_nil|]. intros v. split; [intros Hv; by apply not_elem_of_nil in Hv|].
    intros (i & Hi & _). lia.
  - destruct (H k ltac:(lia)) as (v1 & E1 & H1). destruct (IH (k + 1)) as (v2 & E2 & H2).
    { intros i Hi. apply H. lia. }
    exists (v1 ++ v2). split.
    + intros l. cbn [for_slots]. erewrite bind_Done by apply E1. rewrite out_app, E2. by rewrite !out_app, <- !app_assoc.
    + intros v. rewrite elem_of_app, H1, H2. split.
      * intros [?|(i & Hi & ?)]; [exists k|exists i]; (split; [lia|done]).
      * intros (i & Hi & ?). destruct (Z.eq_dec i k) as [->|]; [by left|right]. exists i. split; [lia|done].
Qed.

Lemma emits_ext s f Q Q' : (∀ v, Q v ↔ Q' v) → emits s f Q → emits s f Q'.
Proof. intros H (vs & E & Hv). exists vs. split; [done|]. intros v. by rewrite Hv. Qed.

(** Every path of 15 indices and leaf index belong to a key. *)
Lemma indices_surj l : Forall (λ x, 0 ≤ x < 16) l → ∃ key,
  0 ≤ key < 2 ^ (4 * Z.of_nat (length l)) ∧ indices (length l) key = l.
Proof.
  induction 1 as [|x l Hx _ (key & Hk & IH)]; [by exists 0|].
  exists (x + key * 16). split.
  - simpl length. replace (4 * Z.of_nat (S (length l))) with (4 * Z.of_nat (length l) + 4) by lia.
    rewrite Z.pow_add_r by lia. change (2 ^ 4) with 16. lia.
  - simpl. unfold RADIX_NODE_MASK, RADIX_NODE_SIZE, RADIX_NODE_BITS. change (Z.shiftl 1 4 - 1) with (Z.ones 4).
    rewrite Z.land_ones, Z.shiftr_div_pow2 by lia. change (2 ^ 4) with 16.
    rewrite Z.mod_add, Z.mod_small, Z.div_add, Z.div_small, Z.add_0_l by lia. by rewrite IH.
Qed.

Lemma key_exists π k : length π = 15%nat → Forall (λ x, 0 ≤ x < 16) π → 0 ≤ k < 16 →
  ∃ key, is_u64 key ∧ path key = π ∧ leaf_index key = k.
Proof.
  intros Hl HF Hk. destruct (indices_surj (k :: reverse π)) as (key & H1 & H2).
  { constructor; [done|]. by apply Forall_reverse. }
  assert (length (k :: reverse π) = 16%nat) as E by (simpl; by rewrite length_reverse, Hl).
  rewrite E in H1, H2. exists key. split; [exact H1|]. unfold path, leaf_index.
  change RADIX_LEVELS with 16%nat. rewrite H2. simpl. rewrite drop_0, reverse_involutive. split; [done|].
  injection H2 as H2 _. done.
Qed.

Section free.
Context (s : state) (P : paths) (L : gmap Z Z) (R : rep s P L) (HD : value_deleter s = true).

Lemma path_range π p : P !! π = Some p → Forall (λ x, 0 ≤ x < 16) π.
Proof.
  revert p. induction π as [|k π IH] using rev_ind; intros p Hp; [constructor|].
  destruct (r_prefix _ _ _ R _ _ _ Hp) as [[q Hq] Hk]. apply Forall_app. split; [by eapply IH|]. by constructor.
Qed.

(** The values below a path. *)
Definition below (π : list Z) (v : Z) : Prop :=
  v ≠ 0 ∧ ∃ key, is_u64 key ∧ take (length π) (path key) = π ∧ value_of s P key = v.

Lemma slot_out p k l v : slot p k s = Done v s → slot p k (out l s) = Done v (out l s).
Proof.
  unfold slot, bind, get, need. simpl. destruct (nodes s !! p) as [ws|]; [|done]. simpl.
  destruct (ws !! Z.to_nat k); [|done]. unfold ret. by intros [= ->].
Qed.

Lemma free_leaf_emits π p i : P !! π = Some p → length π = 15%nat → 0 ≤ i < 16 →
  emits s (v <- slot p i ;; if v =? 0 then ret tt else modify (λ s, with_deleted (deleted s ++ [v]) s))
    (λ v, v ≠ 0 ∧ ∃ key, is_u64 key ∧ path key = π ∧ leaf_index key = i ∧ value_of s P key = v).
Proof.
  intros Hp Hl Hi. destruct (key_exists π i Hl ltac:(by eapply path_range) Hi) as (key & K1 & <- & <-).
  pose proof (leaf_slot _ _ _ R key p Hp) as E.
  exists (if value_of s P key =? 0 then [] else [value_of s P key]). split.
  - intros l. erewrite bind_Done by (by apply slot_out).
    destruct (value_of s P key =? 0); [by rewrite out_nil|done].
  - intros v. assert (v ≠ 0 ∧ v = value_of s P key ↔ v ∈ (if value_of s P key =? 0 then [] else [value_of s P key])) as <-.
    { destruct (Z.eqb_spec (value_of s P key) 0) as [->|N]; set_solver. }
    split; [intros [? ->]; split; [done|]; by exists key|]. intros [? (k & K2 & K3 & K4 & <-)]. split; [done|].
    by rewrite (key_ext k key K2 K1 K3 K4).
Qed.

Lemma radix_free_node_emits lvls π p : P !! π = Some p → (length π + lvls = 15)%nat →
  emits s (radix_free_node lvls p) (below π).
Proof.
  revert π p. induction lvls as [|n IH]; intros π p Hp Hl; cbn [radix_free_node].
  - destruct (for_slots_emits 16 0 _ s _ (λ i Hi, free_leaf_emits π p i Hp ltac:(lia) Hi)) as (vs & E & Hv).
    exists vs. split.
    + intros l. erewrite bind_Done by reflexivity. change (value_deleter (out l s)) with (value_deleter s).
      rewrite HD. apply E.
    + intros v. rewrite Hv. unfold below. split.
      * intros (i & Hi & Nv & key & K1 & K2 & K3 & K4). split; [done|]. exists key. split_and!; [done| |done].
        rewrite take_ge by (rewrite length_path; lia). done.
      * intros (Nv & key & K1 & K2 & K3). exists (leaf_index key). rewrite take_ge in K2 by (rewrite length_path; lia).
        split; [rewrite leaf_index_nibble; apply nibble_range|]. split; [done|]. by exists key.
  - eapply emits_ext; [|apply (for_slots_emits 16 0 _ s (λ i, below (π ++ [i])))].
    + intros v. unfold below. split.
      * intros (i & Hi & Nv & key & K1 & K2 & K3). split; [done|]. exists key. split_and!; [done| |done].
        rewrite length_app in K2. simpl in K2. apply (f_equal (take (length π))) in K2.
        by rewrite take_take, Nat.min_l, take_app_length in K2 by lia.
      * intros (Nv & key & K1 & K2 & K3).
        destruct (lookup_lt_is_Some_2 (path key) (length π)) as [i Hi]; [rewrite length_path; lia|].
        exists i. assert (take (length (π ++ [i])) (path key) = π ++ [i]) as E.
        { rewrite length_app. simpl. rewrite Nat.add_1_r, (take_S_r _ _ i) by done. by rewrite K2. }
        rewrite path_lookup in Hi by lia. injection Hi as <-.
        split; [apply nibble_range|]. split; [done|]. by exists key.
    + intros i Hi. pose proof (child_slot _ _ _ R π p i Hp ltac:(lia) Hi) as E.
      destruct (P !! (π ++ [i])) as [c|] eqn:Ec; cbn [from_option id] in E.
      * destruct (IH (π ++ [i]) c Ec) as (vs & Ev & Hv); [rewrite length_app; simpl; lia|].
        exists vs. split; [|done]. intros l. erewrite bind_Done by (by apply slot_out).
        by rewrite (proj2 (Z.eqb_neq c 0) (child_zero _ _ _ R _ _ _ Ec)).
      * exists []. split; [intros l; erewrite bind_Done by (by apply slot_out); by rewrite out_nil|].
        intros v. split; [intros H; by apply not_elem_of_nil in H|]. intros (Nv & key & K1 & K2 & K3). exfalso.
        assert (prefix (15 - length (π ++ [i])) key = π ++ [i]) as E2.
        { unfold prefix. rewrite <- K2 at 2. f_equal. rewrite length_app. simpl. lia. }
        unfold value_of in K3. rewrite (prefix_none _ _ _ R key (15 - length (π ++ [i]))) in K3; [done|lia|by rewrite E2].
Qed.

End free.

(** [radix_free] hands every stored value to the deleter and nothing else. *)
Lemma radix_free_spec s P L : rep s P L → radix_lock s = false → root s ≠ 0 → value_deleter s = true →
  ∃ vs, radix_free s = Done 0 (out vs s) ∧
  ∀ v, v ∈ vs ↔ v ≠ 0 ∧ ∃ key, is_u64 key ∧ value_of s P key = v.
Proof.
  intros R HL H0 HD. pose proof (rep_lock _ _ _ R true) as R1. pose proof (r_root _ _ _ R) as HR.
  rewrite (proj2 (Z.eqb_neq _ 0) H0) in HR.
  destruct (radix_free_node_emits _ _ _ R1 HD 15 [] (root s) HR ltac:(done)) as (vs & E & Hv).
  exists vs. split.
  - unfold radix_free, lock. erewrite bind_Done by (rewrite HL; reflexivity). erewrite bind_Done by reflexivity.
    change (root (with_lock true s)) with (root s). rewrite (proj2 (Z.eqb_neq _ 0) H0).
    specialize (E []). rewrite out_nil in E. erewrite bind_Done by exact E. erewrite bind_Done by reflexivity.
    unfold ret, out, with_deleted. f_equal. clear -HL. destruct s. simpl in *. by subst.
  - intros v. rewrite Hv. unfold below. split; intros (Nv & key & H); (split; [done|]); exists key; [by destruct H as (? & _ & ?)|].
    by destruct H.
Qed.

(** On an empty tree it returns with the lock held: the next operation never
    returns. *)
Lemma radix_free_empty s : radix_lock s = false → root s = 0 →
  ∃ s', radix_free s = Done (- EINVAL) s' ∧ ∀ key, radix_get key s' = Spin.
Proof.
  intros HL H0. unfold radix_free, lock. erewrite bind_Done by (rewrite HL; reflexivity).
  erewrite bind_Done by reflexivity. change (root (with_lock true s)) with (root s). rewrite H0. by eexists.
Qed.

(** ** A new tree *)

Lemma rep_empty a L b d l : owns a L → rep (mk_state a ∅ 0 b d l) ∅ L.
Proof. intros H. split; simpl; try done; try set_solver. Qed.

(** [init_radix_w_deleter] makes an empty tree. *)
Lemma init_radix_spec a L b d l dl : SIZEOF_RADIX_NODE ≤ max_size → owns a L →
  init_radix_w_deleter dl (mk_state a ∅ 0 b d l) = Halt ∨ ∃ s' P' L',
  init_radix_w_deleter dl (mk_state a ∅ 0 b d l) = Done tt s' ∧ rep s' P' L' ∧ radix_lock s' = false ∧
  root s' ≠ 0 ∧ value_deleter s' = dl ∧ ∀ key, value_of s' P' key = 0.
Proof.
  intros HM Ho. set (s := mk_state a ∅ 0 b d l). pose proof (rep_empty a L b d l Ho) as R. fold s in R.
  unfold init_radix_w_deleter, init_radix, zalloc_node.
  destruct (al_zalloc_ok a L SIZEOF_RADIX_NODE Ho) as [E|(p & a' & E & [[-> H]|(n & Hp & _ & _ & H)])]; [by split|..].
  - left. do 3 apply bind_Halt. by apply zoom_Halt.
  - left. apply bind_Halt. erewrite bind_Done; [|erewrite bind_Done by (apply zoom_Done; exact E); reflexivity].
    reflexivity.
  - right. do 3 eexists. split.
    { erewrite bind_Done; [reflexivity|].
      erewrite bind_Done; [|erewrite bind_Done by (apply zoom_Done; exact E);
        rewrite (proj2 (Z.eqb_neq p 0) Hp); reflexivity].
      erewrite bind_Done by reflexivity. rewrite (proj2 (Z.eqb_neq p 0) Hp). reflexivity. }
    destruct (rep_new_root s ∅ L p n a' R eq_refl Hp H) as (R' & _ & V).
    split_and!; [| | | |exact V]; try done. by destruct R'.
Qed.

End radix.

(** ** The theorems *)

Definition empty_radix : state (A := Z) := mk_state 4096 ∅ 0 false true [].

Lemma empty_radix_rep : rep empty_radix ∅ ∅.
Proof. split; simpl; try done; try set_solver. Qed.

(** The tree after adding key 77 with value 5. *)
Lemma added : ∃ s' P' L', radix_add 77 5 empty_radix = Done 0 s' ∧ rep s' P' L' ∧
  radix_lock s' = false ∧ value_of s' P' 77 = 5.
Proof.
  destruct (radix_add_spec empty_radix ∅ ∅ 77 5) as [E|(r & s' & P' & L' & E & R & _ & HL & H)].
  - by vm_compute.
  - apply empty_radix_rep.
  - reflexivity.
  - by vm_compute.
  - left. reflexivity.
  - vm_compute in E. discriminate E.
  - destruct H as [[-> H]|[-> _]]; [|vm_compute in E; discriminate E].
    exists s', P', L'. split_and!; [exact E|exact R|exact HL|]. rewrite (H 77 ltac:(unfold is_u64; lia)). reflexivity.
Qed.

(** C16: [radix_add] of a free key (or of NULL, which is [radix_del]) either
    maps exactly that key, or fails with -ENOMEM leaving the map as it was, or
    stops the machine because the heap is exhausted; the lock is released. *)
Theorem radix_add_ok {A} `{!Allocator A} (s : state (A := A)) P L key v :
  SIZEOF_RADIX_NODE ≤ max_size → rep s P L → radix_lock s = false →
  is_u64 key → value_of s P key = 0 ∨ v = 0 →
  radix_add key v s = Halt ∨ ∃ r s' P' L', radix_add key v s = Done r s' ∧
  rep s' P' L' ∧ radix_lock s' = false ∧
  ((r = 0 ∧ ∀ k, is_u64 k → value_of s' P' k = if decide (k = key) then v else value_of s P k) ∨
   (r = - ENOMEM ∧ ∀ k, value_of s' P' k = value_of s P k)).
Proof.
  intros. destruct (radix_add_spec s P L key v) as [?|(r & s' & P' & L' & ? & ? & _ & ? & ?)]; [done..|by left|].
  right. by exists r, s', P', L'.
Qed.

Lemma radix_add_ok_witness : ∃ s' P' L', radix_add 77 5 empty_radix = Done 0 s' ∧ rep s' P' L' ∧
  value_of s' P' 77 = 5.
Proof.
  destruct (radix_add_ok empty_radix ∅ ∅ 77 5) as [E|(r & s' & P' & L' & E & R & _ & H)].
  - by vm_compute.
  - apply empty_radix_rep.
  - reflexivity.
  - by vm_compute.
  - left. reflexivity.
  - vm_compute in E. discriminate E.
  - destruct H as [[-> H]|[-> _]].
    + exists s', P', L'. split_and!; [exact E|exact R|]. rewrite (H 77 ltac:(unfold is_u64; lia)). reflexivity.
    + vm_compute in E. discriminate E.
Defined.

(** [radix_get] returns the value of the key, NULL for an absent one, and
    changes nothing. *)
Theorem radix_get_ok {A} `{!Allocator A} (s : state (A := A)) P L key :
  rep s P L → radix_lock s = false → radix_get key s = Done (value_of s P key) s.
Proof. apply radix_get_spec. Qed.

Lemma radix_get_ok_witness : ∃ s', radix_add 77 5 empty_radix = Done 0 s' ∧ radix_get 77 s' = Done 5 s'.
Proof.
  destruct added as (s' & P' & L' & E & R & HL & V). exists s'. split; [exact E|].
  rewrite (radix_get_ok s' P' L' 77 R HL), V. reflexivity.
Defined.

(** [radix_free] calls the deleter on exactly the stored values. *)
Theorem radix_free_ok {A} `{!Allocator A} (s : state (A := A)) P L :
  rep s P L → radix_lock s = false → root s ≠ 0 → value_deleter s = true →
  ∃ vs, radix_free s = Done 0 (out vs s) ∧
  ∀ v, v ∈ vs ↔ v ≠ 0 ∧ ∃ key, is_u64 key ∧ value_of s P key = v.
Proof. apply radix_free_spec. Qed.

Lemma radix_free_ok_witness : ∃ s' vs, radix_add 77 5 empty_radix = Done 0 s' ∧
  radix_free s' = Done 0 (out vs s').
Proof.
  destruct added as (s' & P' & L' & E & R & HL & V).
  destruct (radix_free_ok s' P' L' R HL) as (vs & Ev & _).
  - vm_compute in E. injection E as <-. discriminate.
  - vm_compute in E. injection E as <-. reflexivity.
  - exists s', vs. split; assumption.
Defined.

End Radix.
