(* ===== verification/SlotTable.v ===== *)
(** * Capability slot tables (kernel/object/cap_group.c, kernel/include/object/cap_group.h)

    [struct slot_table] with its three heap arrays: the slot pointers, the
    bitmap of used slots, and the summary bitmap.  An access outside an array
    faults, except for the read of the summary in [alloc_slot_id], which the
    code performs past the end of the array: there the word read is a
    parameter [oob], and the theorems hold whatever it is.

    The guards ([table_guard]) are held for the duration of each operation. *)

From S2P Require Import Prelude Bitops Allocator.

Module SlotTable.

Import Bitops Allocator.

Definition ENOMEM : Z := 12.
Definition BASE_OBJECT_NUM : Z := BITS_PER_LONG.

Record slot_table := mk_slot_table {
  slots_size : Z;
  slots : list Z;
  full_slots_bmp : list Z;
  slots_bmp : list Z;
  (** the addresses of the arrays *)
  slots_ptr : Z;
  full_slots_bmp_ptr : Z;
  slots_bmp_ptr : Z
}.

Section table.
Context {A : Type} `{!Allocator A}.
Context (oob : Z → Z).

(** A call of the heap that may return NULL. *)
Definition zalloc (size : Z) : M A Z := al_zalloc size.

(** [slot_table_init]: an error code, or the new table. *)
Definition slot_table_init (size : Z) : M A (Z + slot_table) :=
  let size := u32 (DIV_ROUND_UP size BASE_OBJECT_NUM * BASE_OBJECT_NUM) in
  p <- zalloc (size * 8) ;;
  if p =? 0 then ret (inl (- ENOMEM))
  else
    let bmp_words := BITS_TO_LONGS size in
    b <- zalloc (bmp_words * 8) ;;
    if b =? 0 then al_free p ;; ret (inl (- ENOMEM))
    else
      let full_words := BITS_TO_LONGS (BITS_TO_LONGS size) in
      f <- zalloc (full_words * 8) ;;
      if f =? 0 then al_free b ;; al_free p ;; ret (inl (- ENOMEM))
      else ret (inr (mk_slot_table size (replicate (Z.to_nat size) 0)
             (replicate (Z.to_nat full_words) 0) (replicate (Z.to_nat bmp_words) 0) p f b)).

(** [memcpy] of the first [n] words. *)
Definition memcpy (dst src : list Z) (n : Z) : list Z :=
  take (Z.to_nat n) src ++ drop (Z.to_nat n) dst.

(** A table under work, with the heap. *)
Record state := mk_state { al : A; tab : slot_table }.

Definition on_heap {B} (m : M A B) : M state B := zoom al (λ a s, mk_state a (tab s)) m.
Definition set_tab (t : slot_table) : M state unit := modify (λ s, mk_state (al s) t).

Definition expand_slot_table : M state Z :=
  t <- gets tab ;;
  let old_size := slots_size t in
  let new_size := u32 (old_size + BASE_OBJECT_NUM) in
  r <- on_heap (slot_table_init new_size) ;;
  match r with
  | inl e => ret e
  | inr n =>
      let new_slots := memcpy (slots n) (slots t) old_size in
      let new_bmp := memcpy (slots_bmp n) (slots_bmp t) (BITS_TO_LONGS old_size) in
      let new_full := memcpy (full_slots_bmp n) (full_slots_bmp t) (BITS_TO_LONGS (BITS_TO_LONGS old_size)) in
      on_heap (al_free (slots_ptr t)) ;;
      on_heap (al_free (slots_bmp_ptr t)) ;;
      on_heap (al_free (full_slots_bmp_ptr t)) ;;
      set_tab (mk_slot_table new_size new_slots new_full new_bmp
                 (slots_ptr n) (full_slots_bmp_ptr n) (slots_bmp_ptr n)) ;;
      ret 0
  end.

(** One round of the search: the first free slot, or [bmp_size] and above. *)
Definition find_empty (t : slot_table) : option Z :=
  let bmp_size := slots_size t in
  let full_bmp_size := BITS_TO_LONGS bmp_size in
  g ← find_next_zero_bit (full_slots_bmp t) full_bmp_size 0;
  if full_bmp_size <=? g then Some bmp_size
  else find_next_zero_bit (slots_bmp t) bmp_size (g * BITS_PER_LONG).

(** The [while (true)] loop of [alloc_slot_id]: an error, or the free slot. *)
Fixpoint search (n : nat) : M state (Z + Z) :=
  match n with
  | O => λ _, Spin
  | S m =>
      t <- gets tab ;;
      empty_idx <- need (find_empty t) ;;
      if slots_size t <=? empty_idx then
        r <- expand_slot_table ;;
        if r <? 0 then ret (inl r) else search m
      else ret (inr empty_idx)
  end.

(** [full_slots_bmp[i]], read past the end of the array too. *)
Definition full_word (t : slot_table) (i : Z) : Z :=
  match full_slots_bmp t !! Z.to_nat i with Some w => w | None => oob i end.

(** After one expansion a slot is free, so the loop runs at most twice. *)
Definition alloc_slot_id : M state Z :=
  r <- search 2 ;;
  match r with
  | inl e => ret e
  | inr empty_idx =>
      t <- gets tab ;;
      BUG_ON ((empty_idx <? 0) || (slots_size t <=? empty_idx)) ;;
      bmp <- need (set_bit empty_idx (slots_bmp t)) ;;
      full <- (if full_word t (empty_idx / BITS_PER_LONG) =? all_ones
               then need (set_bit (empty_idx / BITS_PER_LONG) (full_slots_bmp t))
               else ret (full_slots_bmp t)) ;;
      set_tab (mk_slot_table (slots_size t) (slots t) full bmp
                 (slots_ptr t) (full_slots_bmp_ptr t) (slots_bmp_ptr t)) ;;
      ret empty_idx
  end.

(** The inline functions of cap_group.h, and [is_valid_slot_id].  Slot ids are
    [int]; the bit operations take them as [unsigned int]. *)
Definition slot_at (t : slot_table) (slot_id : Z) : option Z :=
  if slot_id <? 0 then None else slots t !! Z.to_nat slot_id.

Definition set_slot_at (t : slot_table) (slot_id slot : Z) : slot_table :=
  mk_slot_table (slots_size t) (<[Z.to_nat slot_id := slot]> (slots t)) (full_slots_bmp t) (slots_bmp t)
    (slots_ptr t) (full_slots_bmp_ptr t) (slots_bmp_ptr t).

(** [None]: an access outside the arrays. *)
Definition free_slot_id (slot_id : Z) (t : slot_table) : option slot_table :=
  bmp ← clear_bit (u32 slot_id) (slots_bmp t);
  full ← clear_bit (u32 (u64 slot_id / BITS_PER_LONG)) (full_slots_bmp t);
  _ ← slot_at t slot_id;
  Some (mk_slot_table (slots_size t) (<[Z.to_nat slot_id := 0]> (slots t)) full bmp
          (slots_ptr t) (full_slots_bmp_ptr t) (slots_bmp_ptr t)).

Definition get_slot (slot_id : Z) (t : slot_table) : option Z :=
  if (slot_id <? 0) || (slots_size t <=? u32 slot_id) then Some 0 else slot_at t slot_id.

(** [Some None]: the [BUG_ON]. *)
Definition install_slot (slot_id slot : Z) (t : slot_table) : option (option slot_table) :=
  b ← get_bit (u32 slot_id) (slots_bmp t);
  if b =? 0 then Some None
  else _ ← slot_at t slot_id; Some (Some (set_slot_at t slot_id slot)).

(** [slot_id < 0 && slot_id >= slots_size] converts the [int] for the second
    comparison: the guard rejects the negative ids and nothing else. *)
Definition is_valid_slot_id (slot_id : Z) (t : slot_table) : option (option bool) :=
  if (slot_id <? 0) && (slots_size t <=? u32 slot_id) then Some (Some false)
  else
    b ← get_bit (u32 slot_id) (slots_bmp t);
    if b =? 0 then Some (Some false)
    else
      p ← slot_at t slot_id;
      if p =? 0 then Some None else Some (Some true).

(** ** Specification *)

(** The arrays of a table. *)
Definition arrays (t : slot_table) : gset Z :=
  {[slots_ptr t; full_slots_bmp_ptr t; slots_bmp_ptr t]}.

(** [R] are the ids that are reserved but not yet installed. *)
Record table_ok (t : slot_table) (R : gset Z) : Prop := {
  to_size : ∃ n, 0 < n ∧ slots_size t = 64 * n;
  to_slots : Z.of_nat (length (slots t)) = slots_size t;
  to_bmp : words (slots_bmp t) ∧ 64 * Z.of_nat (length (slots_bmp t)) = slots_size t;
  to_full : words (full_slots_bmp t) ∧
    Z.of_nat (length (full_slots_bmp t)) = BITS_TO_LONGS (slots_size t / 64);
  to_bits : ∀ i p, 0 ≤ i → slots t !! Z.to_nat i = Some p → bit (slots_bmp t) i = true ↔ p ≠ 0 ∨ i ∈ R;
  to_summary : ∀ j, slots_size t / 64 ≤ j → bit (full_slots_bmp t) j = false;
  to_ptrs : slots_ptr t ≠ full_slots_bmp_ptr t ∧ slots_ptr t ≠ slots_bmp_ptr t ∧
    full_slots_bmp_ptr t ≠ slots_bmp_ptr t
}.

(** Tables stay small enough for the heap and for [int]. *)
Definition room (t : slot_table) : Prop :=
  8 * (slots_size t + 64) ≤ max_size ∧ slots_size t + 64 < 2 ^ 31.

(** [t'] has the capabilities of [t]. *)
Definition same_caps (t t' : slot_table) : Prop :=
  slots_size t ≤ slots_size t' ≤ slots_size t + 64 ∧
  ∀ i, slots t' !! i = if decide (Z.of_nat i < slots_size t) then slots t !! i
                       else if decide (Z.of_nat i < slots_size t') then Some 0 else None.

(** ** Making a table *)

Lemma div64 n : 64 * n / 64 = n.
Proof. rewrite Z.mul_comm. by apply Z.div_mul. Qed.

(** Replacing the three arrays [a], [b], [c] by [N]. *)
Lemma replace_arrays (N F : gset Z) a b c : N ## {[a; c; b]} ∪ F → {[a; c; b]} ## F →
  (N ∪ ({[a; c; b]} ∪ F)) ∖ {[a]} ∖ {[b]} ∖ {[c]} = N ∪ F.
Proof.
  intros H1 H2. apply set_eq. intros x. rewrite elem_of_disjoint in H1, H2. specialize (H1 x). specialize (H2 x). set_solver.
Qed.

Lemma bits_to_longs_64 n : BITS_TO_LONGS (64 * n) = n.
Proof. unfold BITS_TO_LONGS, DIV_ROUND_UP. change BITS_PER_LONG with 64. symmetry. apply Z.div_unique with 63; lia. Qed.

Lemma bits_to_longs_le n : 0 < n → 0 < BITS_TO_LONGS n ≤ n ∧ n ≤ 64 * BITS_TO_LONGS n.
Proof.
  intros H. unfold BITS_TO_LONGS, DIV_ROUND_UP. change BITS_PER_LONG with 64.
  pose proof (Z.div_mod (n + 64 - 1) 64 ltac:(lia)). pose proof (Z.mod_pos_bound (n + 64 - 1) 64 ltac:(lia)). lia.
Qed.

Lemma bit_zeros n i : bit (replicate n 0) i = false.
Proof.
  unfold bit, word_at. destruct (replicate n 0 !! Z.to_nat (i / 64)) as [w|] eqn:E; [|done].
  apply lookup_replicate in E as [-> _]. apply Z.bits_0.
Qed.

Lemma words_zeros n : words (replicate n 0).
Proof. apply Forall_replicate. by vm_compute. Qed.

(** The table [slot_table_init] returns. *)
Definition empty_table (n p f b : Z) : slot_table :=
  mk_slot_table (64 * n) (replicate (Z.to_nat (64 * n)) 0)
    (replicate (Z.to_nat (BITS_TO_LONGS n)) 0) (replicate (Z.to_nat n) 0) p f b.

Lemma empty_table_ok n p f b : 0 < n → p ≠ f → p ≠ b → f ≠ b → table_ok (empty_table n p f b) ∅.
Proof.
  intros Hn H1 H2 H3. pose proof (bits_to_longs_le n Hn). split; simpl.
  - by exists n.
  - rewrite length_replicate. lia.
  - split; [apply words_zeros|]. rewrite length_replicate. lia.
  - split; [apply words_zeros|]. rewrite length_replicate. rewrite div64. lia.
  - intros i q Hi Hq. apply lookup_replicate in Hq as [-> _]. rewrite bit_zeros. set_solver.
  - intros j _. apply bit_zeros.
  - done.
Qed.

Lemma holds_put (a : A) D E : D = E → holds a D → holds a E.
Proof. by intros ->. Qed.

Lemma slot_table_init_spec n a F : 0 < n → 8 * (64 * n) ≤ max_size → 64 * n < 2 ^ 31 → holds a F →
  slot_table_init (64 * n) a = Halt ∨ ∃ r a', slot_table_init (64 * n) a = Done r a' ∧
  match r with
  | inl e => e = - ENOMEM ∧ holds a' F
  | inr t => ∃ p f b, t = empty_table n p f b ∧ table_ok t ∅ ∧ arrays t ## F ∧ holds a' (arrays t ∪ F)
  end.
Proof.
  intros Hn Hm Hi H0. pose proof (bits_to_longs_le n Hn) as Hb. unfold slot_table_init, zalloc.
  assert (u32 (DIV_ROUND_UP (64 * n) BASE_OBJECT_NUM * BASE_OBJECT_NUM) = 64 * n) as ->.
  { change (DIV_ROUND_UP (64 * n) BASE_OBJECT_NUM) with (BITS_TO_LONGS (64 * n)). rewrite bits_to_longs_64.
    change BASE_OBJECT_NUM with 64. rewrite u32_id by (unfold is_u32; lia). lia. }
  cbv zeta. rewrite bits_to_longs_64.
  destruct (alloc_holds a F (64 * n * 8) H0 ltac:(lia)) as [_ [E1|(p & a1 & E1 & [[-> H1]|(P1 & P2 & H1)])]].
  { left. by apply bind_Halt. }
  { right. exists (inl (- ENOMEM)), a1. by erewrite bind_Done by exact E1. }
  erewrite bind_Done by exact E1. rewrite (proj2 (Z.eqb_neq p 0) P1).
  destruct (alloc_holds a1 _ (n * 8) H1 ltac:(lia)) as [_ [E2|(b & a2 & E2 & [[-> H2]|(B1 & B2 & H2)])]].
  { left. by apply bind_Halt. }
  { right. erewrite bind_Done by exact E2.
    destruct (free_holds a2 _ p H2 ltac:(set_solver)) as (a3 & E3 & H3). exists (inl (- ENOMEM)), a3.
    rewrite Z.eqb_refl. erewrite bind_Done by exact E3. split; [done|]. split; [done|].
    eapply holds_put; [|exact H3]. set_solver. }
  erewrite bind_Done by exact E2. rewrite (proj2 (Z.eqb_neq b 0) B1).
  destruct (alloc_holds a2 _ (BITS_TO_LONGS n * 8) H2 ltac:(lia)) as [_ [E3|(f & a3 & E3 & [[-> H3]|(F1 & F2 & H3)])]].
  { left. by apply bind_Halt. }
  { right. erewrite bind_Done by exact E3.
    destruct (free_holds a3 _ b H3 ltac:(set_solver)) as (a4 & E4 & H4).
    destruct (free_holds a4 _ p H4 ltac:(set_solver)) as (a5 & E5 & H5). exists (inl (- ENOMEM)), a5.
    rewrite Z.eqb_refl. erewrite bind_Done by exact E4. erewrite bind_Done by exact E5. split; [done|]. split; [done|].
    eapply holds_put; [|exact H5]. set_solver. }
  right. erewrite bind_Done by exact E3. rewrite (proj2 (Z.eqb_neq f 0) F1).
  exists (inr (empty_table n p f b)), a3. split; [done|]. exists p, f, b. split; [done|].
  split; [apply empty_table_ok; set_solver|]. unfold arrays, empty_table. simpl. split; [set_solver|].
  eapply holds_put; [|exact H3]. set_solver.
Qed.

(** ** Growing a table *)

Lemma lookup_memcpy dst src n i : (n ≤ length src)%nat →
  memcpy dst src (Z.of_nat n) !! i = if decide (i < n)%nat then src !! i else dst !! i.
Proof.
  intros H. unfold memcpy. rewrite Nat2Z.id. case_decide.
  - rewrite lookup_app_l by (rewrite length_take; lia). by apply lookup_take_lt.
  - rewrite lookup_app_r by (rewrite length_take; lia). rewrite lookup_drop, length_take. f_equal. lia.
Qed.

Lemma length_memcpy dst src n : (n ≤ length src)%nat → (n ≤ length dst)%nat →
  length (memcpy dst src (Z.of_nat n)) = length dst.
Proof. intros H1 H2. unfold memcpy. rewrite Nat2Z.id, length_app, length_take, length_drop. lia. Qed.

Lemma bit_memcpy dst src n i : n = length src → 0 ≤ i →
  bit (memcpy dst src (Z.of_nat n)) i = if decide (i < 64 * Z.of_nat n) then bit src i else bit dst i.
Proof.
  intros -> Hi. unfold bit, word_at. rewrite lookup_memcpy by done.
  pose proof (Z.div_mod i 64 ltac:(lia)). pose proof (Z.mod_pos_bound i 64 ltac:(lia)).
  repeat case_decide; try done; lia.
Qed.

Lemma words_memcpy dst src n : words dst → words src → words (memcpy dst src n).
Proof. intros H1 H2. unfold memcpy. apply Forall_app. split; [by apply Forall_take|by apply Forall_drop]. Qed.

(** The grown table. *)
Definition grown (t : slot_table) (n p f b : Z) : slot_table :=
  mk_slot_table (64 * (n + 1))
    (memcpy (replicate (Z.to_nat (64 * (n + 1))) 0) (slots t) (Z.of_nat (length (slots t))))
    (memcpy (replicate (Z.to_nat (BITS_TO_LONGS (n + 1))) 0) (full_slots_bmp t) (Z.of_nat (length (full_slots_bmp t))))
    (memcpy (replicate (Z.to_nat (n + 1)) 0) (slots_bmp t) (Z.of_nat (length (slots_bmp t)))) p f b.

Lemma grown_ok t n p f b R : table_ok t R → slots_size t = 64 * n → 0 < n → (∀ i, i ∈ R → i < 64 * n) →
  p ≠ f → p ≠ b → f ≠ b →
  table_ok (grown t n p f b) R ∧ same_caps t (grown t n p f b) ∧
  bit (full_slots_bmp (grown t n p f b)) n = false ∧
  ∀ i, 64 * n ≤ i → bit (slots_bmp (grown t n p f b)) i = false.
Proof.
  intros [_ T2 [T3 T3'] [T4 T4'] T5 T6 _] En Hn HR N1 N2 N3.
  pose proof (bits_to_longs_le n Hn). pose proof (bits_to_longs_le (n + 1) ltac:(lia)).
  assert (BITS_TO_LONGS n ≤ BITS_TO_LONGS (n + 1)) as Hle.
  { unfold BITS_TO_LONGS, DIV_ROUND_UP. apply Z.div_le_mono; [by vm_compute|lia]. }
  rewrite En in *. rewrite (Z.mul_comm 64 n), Z.div_mul in T4' by lia. rewrite (Z.mul_comm 64 n), Z.div_mul in T6 by lia.
  unfold grown.
  assert (∀ j, 0 ≤ j → n ≤ j → bit (memcpy (replicate (Z.to_nat (BITS_TO_LONGS (n + 1))) 0) (full_slots_bmp t)
    (Z.of_nat (length (full_slots_bmp t)))) j = false) as HF.
  { intros j Hj Hnj. rewrite bit_memcpy by done. case_decide; [by apply T6|apply bit_zeros]. }
  assert (∀ i, 64 * n ≤ i → bit (memcpy (replicate (Z.to_nat (n + 1)) 0) (slots_bmp t)
    (Z.of_nat (length (slots_bmp t)))) i = false) as HB.
  { intros i Hi. rewrite bit_memcpy by (done || lia). rewrite decide_False by lia. apply bit_zeros. }
  split_and!; [split; simpl| |simpl; apply HF; lia|exact HB].
  - exists (n + 1). lia.
  - rewrite length_memcpy; rewrite ?length_replicate; lia.
  - split; [by apply words_memcpy, T3; apply words_zeros|]. rewrite length_memcpy; rewrite ?length_replicate; lia.
  - split; [by apply words_memcpy, T4; apply words_zeros|].
    rewrite length_memcpy; rewrite ?length_replicate; [|lia|lia]. rewrite (Z.mul_comm 64), Z.div_mul by lia. lia.
  - intros i q Hi Hq. rewrite lookup_memcpy in Hq by done. case_decide as D.
    + rewrite bit_memcpy by (done || lia). rewrite decide_True by lia. by apply T5.
    + apply lookup_replicate in Hq as [-> _]. rewrite HB by lia. split; [done|]. intros [?|HiR]; [done|].
      apply HR in HiR. lia.
  - intros j Hj. rewrite (Z.mul_comm 64), Z.div_mul in Hj by lia. apply HF; lia.
  - done.
  - split; simpl; [lia|]. intros i. rewrite lookup_memcpy by done. rewrite En.
    repeat case_decide; try done; try lia.
    + apply lookup_replicate_2. lia.
    + apply lookup_ge_None_2. rewrite length_replicate. lia.
Qed.

(** The table and its memory, beside the memory [F] of others. *)
Definition table_in (s : state) (R F : gset Z) : Prop :=
  table_ok (tab s) R ∧ arrays (tab s) ## F ∧ holds (al s) (arrays (tab s) ∪ F).

Lemma expand_slot_table_spec s F : table_in s ∅ F → room (tab s) →
  expand_slot_table s = Halt ∨ ∃ r s', expand_slot_table s = Done r s' ∧
  ((r = - ENOMEM ∧ tab s' = tab s ∧ table_in s' ∅ F) ∨
   (r = 0 ∧ table_in s' ∅ F ∧ same_caps (tab s) (tab s') ∧ slots_size (tab s') = slots_size (tab s) + 64 ∧
    bit (full_slots_bmp (tab s')) (slots_size (tab s) / 64) = false ∧
    ∀ i, slots_size (tab s) ≤ i → bit (slots_bmp (tab s')) i = false)).
Proof.
  intros (T & HD & HH) [Rm1 Rm2]. destruct (to_size _ _ T) as (n & Hn & En). rewrite En in Rm1, Rm2.
  unfold expand_slot_table. erewrite bind_Done by reflexivity. cbv zeta.
  assert (u32 (slots_size (tab s) + BASE_OBJECT_NUM) = 64 * (n + 1)) as ->.
  { rewrite En. change BASE_OBJECT_NUM with 64. rewrite u32_id by (unfold is_u32; lia). lia. }
  destruct (slot_table_init_spec (n + 1) (al s) _ ltac:(lia) ltac:(lia) ltac:(lia) HH)
    as [E|([e|t'] & a1 & E & H)].
  { left. apply bind_Halt. by apply zoom_Halt. }
  { right. destruct H as [-> H]. erewrite bind_Done by (apply zoom_Done; exact E).
    eexists _, _. split; [reflexivity|]. left. split_and!; done. }
  destruct H as (p & f & b & -> & T' & HD' & H).
  erewrite bind_Done by (apply zoom_Done; exact E). cbv beta iota.
  unfold arrays, empty_table in H, HD'. simpl in H, HD'. unfold arrays in H, HD, HD'.
  set (t := tab s) in *. destruct (to_ptrs _ _ T) as (N1 & N2 & N3).
  destruct (free_holds a1 _ (slots_ptr t) H ltac:(set_solver)) as (a2 & E2 & H2).
  erewrite bind_Done by (apply zoom_Done; exact E2).
  destruct (free_holds a2 _ (slots_bmp_ptr t) H2 ltac:(set_solver)) as (a3 & E3 & H3).
  erewrite bind_Done by (apply zoom_Done; exact E3).
  destruct (free_holds a3 _ (full_slots_bmp_ptr t) H3 ltac:(set_solver)) as (a4 & E4 & H4).
  erewrite bind_Done by (apply zoom_Done; exact E4). erewrite bind_Done by reflexivity.
  right. eexists 0, _. split; [reflexivity|]. right. cbn [tab al slots full_slots_bmp slots_bmp slots_ptr full_slots_bmp_ptr slots_bmp_ptr empty_table].
  destruct (to_ptrs _ _ T') as (M1 & M2 & M3). simpl in M1, M2, M3.
  pose proof (grown_ok t n p f b ∅ T En Hn ltac:(set_solver) M1 M2 M3) as (G1 & G2 & G3 & G4).
  assert (BITS_TO_LONGS (slots_size t) = Z.of_nat (length (slots_bmp t))) as L1.
  { rewrite En, bits_to_longs_64. destruct (to_bmp _ _ T) as [_ ?]. lia. }
  assert (BITS_TO_LONGS (BITS_TO_LONGS (slots_size t)) = Z.of_nat (length (full_slots_bmp t))) as L2.
  { destruct (to_full _ _ T) as [_ X]. rewrite X, En, bits_to_longs_64. f_equal.
    by rewrite div64. }
  pose proof (to_slots _ _ T) as L3. rewrite L2, L1, <- L3. fold (grown t n p f b).
  split; [done|]. split; [|split_and!; [done|simpl; lia| |by rewrite L3, En]].
  - split; [done|]. unfold arrays, grown. simpl. split; [set_solver|]. eapply holds_put; [|exact H4].
    by apply replace_arrays.
  - by rewrite L3, En, div64.
Qed.

(** ** Finding a free slot *)

Lemma find_empty_spec t R : table_ok t R → slots_size t < 2 ^ 31 → ∃ r, find_empty t = Some r ∧ r ≤ slots_size t ∧
  (r < slots_size t → 0 ≤ r ∧ bit (slots_bmp t) r = false) ∧
  (bit (full_slots_bmp t) (slots_size t / 64 - 1) = false →
   (∀ i, slots_size t - 64 ≤ i → bit (slots_bmp t) i = false) → r < slots_size t).
Proof.
  intros T Hs. destruct (to_size _ _ T) as (n & Hn & En). destruct (to_full _ _ T) as [F1 F2].
  destruct (to_bmp _ _ T) as [B1 B2]. pose proof (bits_to_longs_le n Hn) as Hb. unfold find_empty.
  rewrite En in *. rewrite bits_to_longs_64. rewrite (Z.mul_comm 64 n), Z.div_mul, (Z.mul_comm n 64) in * by lia.
  destruct (find_next_zero_bit_least (full_slots_bmp t) n 0 F1) as (g & -> & G1 & G2 & G3); [lia|lia|lia|].
  simpl. case (Z.leb_spec n g); intros C.
  - exists (64 * n). split_and!; [done|lia|lia|]. intros X _. rewrite (G2 (n - 1)) in X by lia. done.
  - destruct (G3 C) as [G4 _]. change BITS_PER_LONG with 64.
    destruct (find_next_zero_bit_least (slots_bmp t) (64 * n) (g * 64) B1) as (r & -> & R1 & R2 & R3); [lia|lia|lia|].
    exists r. split_and!; [done|done|intros Hr; destruct (R3 Hr); split; [lia|done]|].
    intros _ X. apply Z.lt_nge. intros Hge. assert (bit (slots_bmp t) (64 * n - 1) = true) as Y by (apply R2; lia).
    rewrite X in Y by lia. done.
Qed.

Lemma same_caps_refl t R : table_ok t R → same_caps t t.
Proof.
  intros T. split; [lia|]. intros i. pose proof (to_slots _ _ T). repeat case_decide; try done.
  apply lookup_ge_None_2. lia.
Qed.

(** The search ends after at most one expansion. *)
Lemma search_spec s F : table_in s ∅ F → room (tab s) →
  search 2 s = Halt ∨ ∃ r s', search 2 s = Done r s' ∧ table_in s' ∅ F ∧
  match r with
  | inl e => e = - ENOMEM ∧ tab s' = tab s
  | inr i => same_caps (tab s) (tab s') ∧ 0 ≤ i < slots_size (tab s') ∧
      bit (slots_bmp (tab s')) i = false
  end.
Proof.
  intros TI Rm. pose proof TI as (T & HD & HH). pose proof Rm as [Rm1 Rm2]. cbn [search].
  destruct (find_empty_spec _ _ T ltac:(lia)) as (r & E & R1 & R2 & _).
  erewrite bind_Done by reflexivity. erewrite bind_Done by (rewrite E; reflexivity).
  case (Z.leb_spec (slots_size (tab s)) r); intros C.
  2: { right. exists (inr r), s. split; [done|]. split; [done|]. destruct (R2 C). split; [by eapply same_caps_refl|]. done. }
  destruct (expand_slot_table_spec s F TI Rm) as [E1|(r1 & s1 & E1 & [(-> & Et & TI1)|(-> & TI1 & SC & Es & X1 & X2)])].
  { left. by apply bind_Halt. }
  { right. exists (inl (- ENOMEM)), s1. erewrite bind_Done by exact E1. done. }
  right. erewrite bind_Done by exact E1. cbn [Z.ltb Z.compare].
  pose proof TI1 as (T1 & _). destruct (find_empty_spec _ _ T1 ltac:(lia)) as (r1 & E2 & Q1 & Q2 & Q3).
  erewrite bind_Done by reflexivity. erewrite bind_Done by (rewrite E2; reflexivity).
  assert (r1 < slots_size (tab s1)) as C1.
  { apply Q3.
    - rewrite Es. destruct (to_size _ _ T) as (n & Hn & En). rewrite En in *.
      replace (64 * n + 64) with ((n + 1) * 64) by lia. rewrite Z.div_mul by lia.
      rewrite (Z.mul_comm 64), Z.div_mul in X1 by lia. by replace (n + 1 - 1) with n by lia.
    - intros i Hi. apply X2. lia. }
  rewrite (proj2 (Z.leb_gt _ _) C1). exists (inr r1), s1. split; [done|]. split; [done|]. split; [done|].
  destruct (Q2 C1). done.
Qed.

(** [alloc_slot_id] reserves a free slot, whatever word it reads past the end
    of the summary, or fails without changing the table. *)
Lemma alloc_slot_id_spec s F : table_in s ∅ F → room (tab s) →
  alloc_slot_id s = Halt ∨ ∃ r s', alloc_slot_id s = Done r s' ∧
  ((r = - ENOMEM ∧ tab s' = tab s ∧ table_in s' ∅ F) ∨
   (0 ≤ r < slots_size (tab s') ∧ same_caps (tab s) (tab s') ∧
    slots (tab s') !! Z.to_nat r = Some 0 ∧ table_in s' {[r]} F)).
Proof.
  intros TI Rm. unfold alloc_slot_id.
  destruct (search_spec s F TI Rm) as [E|([e|i] & s1 & E & TI1 & H)].
  { left. by apply bind_Halt. }
  { right. erewrite bind_Done by exact E. destruct H as [-> Et]. exists (- ENOMEM), s1. split; [done|]. by left. }
  destruct H as (SC & Hi & Hb). erewrite bind_Done by exact E. cbv beta iota.
  erewrite bind_Done by reflexivity. set (t := tab s1) in *. destruct TI1 as (T & HD & HH). fold t in T, HD, HH.
  replace ((i <? 0) || (slots_size t <=? i)) with false
    by (symmetry; apply orb_false_iff; split; [apply Z.ltb_ge|apply Z.leb_gt]; lia).
  erewrite bind_Done by reflexivity. destruct (to_bmp _ _ T) as [B1 B2]. destruct (to_full _ _ T) as [F1 F2].
  destruct (to_size _ _ T) as (n & Hn & En). pose proof (bits_to_longs_le n Hn) as Hbl.
  rewrite En, (Z.mul_comm 64), Z.div_mul in F2 by lia.
  destruct (set_bit_some (slots_bmp t) i) as [bmp Eb]; [unfold in_range; lia|].
  erewrite bind_Done by (rewrite Eb; reflexivity). destruct (set_bit_words _ _ _ B1 Eb) as [B3 B4].
  change BITS_PER_LONG with 64.
  assert (0 ≤ i / 64 < n) as Hg by (split; [apply Z.div_pos; lia|apply Z.div_lt_upper_bound; lia]).
  assert (∃ full, (if full_word t (i / 64) =? all_ones then need (set_bit (i / 64) (full_slots_bmp t))
    else ret (full_slots_bmp t)) s1 = Done full s1 ∧ words full ∧ length full = length (full_slots_bmp t) ∧
    ∀ j, n ≤ j → bit full j = bit (full_slots_bmp t) j) as (full & Ef & W & Wl & Wb).
  { destruct (full_word t (i / 64) =? all_ones); [|by exists (full_slots_bmp t)].
    destruct (set_bit_some (full_slots_bmp t) (i / 64)) as [full Ef]; [unfold in_range; lia|].
    exists full. rewrite Ef. destruct (set_bit_words _ _ _ F1 Ef) as [W1 W2]. split_and!; [done|done|done|].
    intros j Hj. rewrite (set_bit_bit (full_slots_bmp t) (i / 64) full j ltac:(lia) ltac:(lia) Ef). by rewrite (bool_decide_eq_false_2 (j = i / 64)) by lia. }
  erewrite bind_Done by exact Ef. erewrite bind_Done by reflexivity.
  right. eexists i, _. split; [reflexivity|]. right. cbn [tab].
  assert (slots t !! Z.to_nat i = Some 0) as Hz.
  { destruct (lookup_lt_is_Some_2 (slots t) (Z.to_nat i)) as [q Hq]; [pose proof (to_slots _ _ T); lia|].
    destruct (decide (q = 0)) as [->|Nq]; [done|]. assert (bit (slots_bmp t) i = true) as X; [|congruence].
    apply (to_bits _ _ T i q); [lia|done|by left]. }
  split; [done|]. split; [done|]. split; [done|]. split; [|by split].
  destruct T as [T1 T2 T3 T4 T5 T6 T7]. split; simpl; try done.
  - split; [done|]. lia.
  - split; [done|]. rewrite Wl. apply T4.
  - intros j q Hj Hq. rewrite (set_bit_bit (slots_bmp t) i bmp j ltac:(lia) Hj Eb). specialize (T5 j q Hj Hq).
    destruct (decide (j = i)) as [->|N].
    + rewrite bool_decide_eq_true_2 by done. set_solver.
    + rewrite bool_decide_eq_false_2 by done. simpl. rewrite T5. set_solver.
  - intros j Hj. rewrite En, (Z.mul_comm 64), Z.div_mul in Hj by lia. rewrite Wb by done. apply T6.
    rewrite En, (Z.mul_comm 64), Z.div_mul by lia. done.
Qed.

End table.

(** ** The table as a map from ids to slots *)

Definition is_int (z : Z) : Prop := - 2 ^ 31 ≤ z < 2 ^ 31.

(** The slot of an id, NULL when there is none. *)
Definition cap_at (t : slot_table) (i : Z) : Z :=
  if (0 <=? i) && (i <? slots_size t) then default 0 (slots t !! Z.to_nat i) else 0.

Lemma cap_at_in t R i : table_ok t R → 0 ≤ i < slots_size t → slots t !! Z.to_nat i = Some (cap_at t i).
Proof.
  intros T Hi. unfold cap_at. rewrite (proj2 (Z.leb_le 0 i)), (proj2 (Z.ltb_lt i _)) by lia. simpl.
  destruct (lookup_lt_is_Some_2 (slots t) (Z.to_nat i)) as [q ->]; [|done]. pose proof (to_slots _ _ T). lia.
Qed.

Lemma cap_at_out t i : ¬ (0 ≤ i < slots_size t) → cap_at t i = 0.
Proof.
  intros H. unfold cap_at. destruct (Z.leb_spec 0 i), (Z.ltb_spec i (slots_size t)); simpl; done || lia.
Qed.

Lemma same_caps_at t t' R R' i : table_ok t R → table_ok t' R' → same_caps t t' → cap_at t' i = cap_at t i.
Proof.
  intros T T' [H1 H2]. destruct (decide (0 ≤ i < slots_size t')) as [Hi|Hi].
  2: { rewrite !cap_at_out by lia. done. }
  pose proof (cap_at_in _ _ _ T' Hi) as E. rewrite H2 in E. rewrite (decide_True (P := Z.of_nat (Z.to_nat i) < slots_size t')) in E by lia.
  case_decide as D.
  - rewrite (cap_at_in t R) in E by (done || lia). by injection E.
  - injection E as <-. rewrite cap_at_out by lia. done.
Qed.

Lemma u32_nonneg z : 0 ≤ z < 2 ^ 31 → u32 z = z.
Proof. intros H. apply u32_id. unfold is_u32. lia. Qed.

Lemma get_slot_ok t R i : table_ok t R → slots_size t < 2 ^ 31 → is_int i → get_slot i t = Some (cap_at t i).
Proof.
  intros T Hs Hi. unfold get_slot, is_int in *. destruct (Z.ltb_spec i 0) as [C|C]; simpl.
  { by rewrite cap_at_out by lia. }
  rewrite (u32_nonneg i) by lia. destruct (Z.leb_spec (slots_size t) i) as [D|D].
  { by rewrite cap_at_out by lia. }
  unfold slot_at. rewrite (proj2 (Z.ltb_ge i 0) C). apply (cap_at_in t R); [done|lia].
Qed.

(** Changing one slot. *)
Lemma cap_at_insert t i j p full bmp : 0 ≤ i < slots_size t → Z.of_nat (length (slots t)) = slots_size t →
  cap_at (mk_slot_table (slots_size t) (<[Z.to_nat i := p]> (slots t)) full bmp
    (slots_ptr t) (full_slots_bmp_ptr t) (slots_bmp_ptr t)) j = if decide (j = i) then p else cap_at t j.
Proof.
  intros Hi Hl. unfold cap_at. simpl. case_decide as D.
  - subst j. rewrite (proj2 (Z.leb_le 0 i)), (proj2 (Z.ltb_lt i _)) by lia. simpl.
    by rewrite list_lookup_insert_eq by lia.
  - destruct (Z.leb_spec 0 j); simpl; [|done]. rewrite list_lookup_insert_ne by lia. done.
Qed.

Lemma free_slot_id_ok t R i : table_ok t R → slots_size t < 2 ^ 31 → 0 ≤ i < slots_size t → ∃ t',
  free_slot_id i t = Some t' ∧ table_ok t' (R ∖ {[i]}) ∧ arrays t' = arrays t ∧ slots_size t' = slots_size t ∧
  ∀ j, cap_at t' j = if decide (j = i) then 0 else cap_at t j.
Proof.
  intros T Hs Hi. unfold free_slot_id. destruct (to_bmp _ _ T) as [B1 B2]. destruct (to_full _ _ T) as [F1 F2].
  destruct (to_size _ _ T) as (n & Hn & En). pose proof (bits_to_longs_le n Hn) as Hbl. rewrite En, div64 in F2.
  rewrite (u32_nonneg i) by lia. rewrite (u64_id i) by (unfold is_u64; lia). change BITS_PER_LONG with 64.
  assert (0 ≤ i / 64 < n) as Hg by (split; [apply Z.div_pos; lia|apply Z.div_lt_upper_bound; lia]).
  rewrite (u32_nonneg (i / 64)) by lia.
  destruct (clear_bit_some (slots_bmp t) i) as [bmp Eb]; [unfold in_range; lia|].
  destruct (clear_bit_some (full_slots_bmp t) (i / 64)) as [full Ef]; [unfold in_range; lia|].
  rewrite Eb, Ef. simpl. unfold slot_at. rewrite (proj2 (Z.ltb_ge i 0)) by lia.
  rewrite (cap_at_in t R) by done. simpl.
  destruct (clear_bit_words _ _ _ B1 Eb) as [B3 B4], (clear_bit_words _ _ _ F1 Ef) as [F3 F4].
  pose proof (to_slots _ _ T) as HL. eexists. split; [reflexivity|]. split_and!; [|done|done|].
  2: { intros j. by apply cap_at_insert. }
  destruct T as [T1 T2 T3 T4 T5 T6 T7]. split; simpl; try done.
  - rewrite length_insert. lia.
  - split; [done|]. lia.
  - split; [done|]. rewrite F4, En, div64. done.
  - intros j q Hj Hq. rewrite (clear_bit_bit (slots_bmp t) i bmp j B1 ltac:(lia) Hj Eb).
    destruct (decide (j = i)) as [->|N].
    + rewrite list_lookup_insert_eq in Hq by lia. injection Hq as <-. rewrite bool_decide_eq_true_2 by done. set_solver.
    + rewrite list_lookup_insert_ne in Hq by lia. rewrite bool_decide_eq_false_2 by done. simpl.
      rewrite (T5 j q Hj Hq). set_solver.
  - intros j Hj. rewrite En, div64 in Hj.
    rewrite (clear_bit_bit (full_slots_bmp t) (i / 64) full j F1 ltac:(lia) ltac:(lia) Ef).
    rewrite T6 by (rewrite En, div64; lia). apply andb_false_r.
Qed.

Lemma install_slot_ok t i p : table_ok t {[i]} → slots_size t < 2 ^ 31 → 0 ≤ i < slots_size t → p ≠ 0 → ∃ t',
  install_slot i p t = Some (Some t') ∧ table_ok t' ∅ ∧ arrays t' = arrays t ∧ slots_size t' = slots_size t ∧
  ∀ j, cap_at t' j = if decide (j = i) then p else cap_at t j.
Proof.
  intros T Hs Hi Hp. unfold install_slot. destruct (to_bmp _ _ T) as [B1 B2].
  rewrite (u32_nonneg i) by lia. rewrite get_bit_bit by (unfold in_range; lia).
  pose proof (cap_at_in _ _ _ T Hi) as E. pose proof (to_slots _ _ T) as HL.
  assert (bit (slots_bmp t) i = true) as -> by (apply (to_bits _ _ T i (cap_at t i)); [lia|done|set_solver]).
  simpl. unfold slot_at. rewrite (proj2 (Z.ltb_ge i 0)) by lia. rewrite E. simpl.
  eexists. split; [reflexivity|]. split_and!; [|done|done|].
  2: { intros j. by apply cap_at_insert. }
  destruct T as [T1 T2 T3 T4 T5 T6 T7]. split; simpl; try done.
  - rewrite length_insert. lia.
  - intros j q Hj Hq. destruct (decide (j = i)) as [->|N].
    + rewrite list_lookup_insert_eq in Hq by lia. injection Hq as <-. rewrite (T5 i (cap_at t i) Hj E). set_solver.
    + rewrite list_lookup_insert_ne in Hq by lia. rewrite (T5 j q Hj Hq). set_solver.
Qed.

(** [is_valid_slot_id] is right on negative ids and on ids of the table, *)
Lemma is_valid_slot_id_ok t i : table_ok t ∅ → slots_size t < 2 ^ 31 → is_int i → i < slots_size t →
  is_valid_slot_id i t = Some (Some (negb (cap_at t i =? 0))).
Proof.
  intros T Hs Hi Hl. unfold is_valid_slot_id, is_int in *. destruct (to_bmp _ _ T) as [B1 B2].
  destruct (Z.ltb_spec i 0) as [C|C]; cbn [andb].
  - rewrite cap_at_out by lia. simpl. unfold u32. rewrite <- (Z.mod_add i 1), Z.mod_small by lia.
    by rewrite (proj2 (Z.leb_le _ _)) by lia.
  - rewrite (u32_nonneg i) by lia. rewrite get_bit_bit by (unfold in_range; lia).
    pose proof (cap_at_in _ _ _ T (conj C Hl)) as E. pose proof (to_bits _ _ T i _ C E) as HB. simpl.
    destruct (bit (slots_bmp t) i); simpl.
    + unfold slot_at. rewrite (proj2 (Z.ltb_ge i 0)), E by lia. simpl.
      destruct (Z.eqb_spec (cap_at t i) 0) as [Ez|]; [|done]. exfalso. destruct (proj1 HB eq_refl); [done|set_solver].
    + destruct (Z.eqb_spec (cap_at t i) 0) as [Ez|N]; [done|]. exfalso. by assert (false = true) by (apply HB; auto).
Qed.

(** and reads outside the bitmap on every id from the table size on. *)
Lemma is_valid_slot_id_oob t R i : table_ok t R → slots_size t ≤ i < 2 ^ 31 → is_valid_slot_id i t = None.
Proof.
  intros T Hi. unfold is_valid_slot_id. destruct (to_bmp _ _ T) as [B1 B2].
  destruct (to_size _ _ T) as (n & Hn & En).
  rewrite (proj2 (Z.ltb_ge i 0)) by lia. cbn [andb]. rewrite (u32_nonneg i) by lia. unfold get_bit, word_at.
  change BITS_PER_LONG with 64. rewrite lookup_ge_None_2; [done|].
  assert (n ≤ i / 64) by (apply Z.div_le_lower_bound; lia). lia.
Qed.

End SlotTable.
