(* ===== verification/Capability.v ===== *)
(** * Objects and capabilities (kernel/object/capability.c, kernel/object/cap_group.c)

    The state holds the kernel heap, the object headers, the capability slots
    and the capability groups, each keyed by its address.  An [object]'s
    payload ([opaque]) follows its header, so the address of an object's
    payload is that of the header plus [SIZEOF_OBJECT]; a [struct cap_group] is
    the payload of an object of type [TYPE_CAP_GROUP].  The list of the slots
    of an object is a list of slot addresses.

    [ext] is the rest of the kernel: the deinitialisers of threads and
    interrupts ([obj_deinit_tbl]) and [vmspace_init] act on it.

    The guards of the tables, slots and copies lists are taken and released
    inside the functions modelled here; each function is one atomic step. *)

From S2P Require Import Prelude Bitops Allocator SlotTable.

Module Capability.

Import Allocator SlotTable.

Definition EPERM : Z := 1.
Definition ECAPBILITY : Z := 200.

(** [enum object_type] *)
Definition TYPE_CAP_GROUP : Z := 0.
Definition TYPE_THREAD : Z := 1.
Definition TYPE_CONNECTION : Z := 2.
Definition TYPE_NOTIFICATION : Z := 3.
Definition TYPE_IRQ : Z := 4.
Definition TYPE_PMO : Z := 5.
Definition TYPE_VMSPACE : Z := 6.

Definition CAP_GROUP_OBJ_ID : Z := 0.
Definition VMSPACE_OBJ_ID : Z := 1.
Definition ROOT_CAP_GROUP_BADGE : Z := 1.
Definition FSM_BADGE : Z := 2.
Definition PROCMGR_BADGE : Z := 4.

(** Sizes of the structures on a 64-bit machine. *)
Definition SIZEOF_OBJECT : Z := 48.
Definition SIZEOF_SLOT : Z := 64.

(** [copies] are the slots that are linked with each other through their field
    [copies]; [head_init] says whether [copies_head] was initialised and is linked with
    them, which is so for every object but that of the first group. *)
Record object := mk_object {
  type : Z; size : Z; copies : list Z; head_init : bool; refcount : Z }.

Record object_slot := mk_slot {
  slot_id : Z; cap_group_of : Z; isvalid : bool; rights : Z; object_of : Z }.

Record cap_group := mk_cap_group {
  slot_tbl : slot_table; badge : Z; notify_recycler : Z }.

Section caps.
Context {A : Type} `{!Allocator A}.
Context (oob : Z → Z).
(** The sizes of the payloads that depend on the board. *)
Context (SIZEOF_CAP_GROUP SIZEOF_VMSPACE : Z).
Context {E : Type} (obj_deinit : Z → Z → M E unit) (vmspace_init : Z → M E unit).

Record kstate := mk_kstate {
  al : A;
  objects : gmap Z object;
  slotmem : gmap Z object_slot;
  groups : gmap Z cap_group;
  ext : E
}.

Abbreviation MC := (M kstate).

Definition with_al (a : A) (s : kstate) : kstate := mk_kstate a (objects s) (slotmem s) (groups s) (ext s).
Definition with_objects (m : gmap Z object) (s : kstate) : kstate :=
  mk_kstate (al s) m (slotmem s) (groups s) (ext s).
Definition with_slotmem (m : gmap Z object_slot) (s : kstate) : kstate :=
  mk_kstate (al s) (objects s) m (groups s) (ext s).
Definition with_groups (m : gmap Z cap_group) (s : kstate) : kstate :=
  mk_kstate (al s) (objects s) (slotmem s) m (ext s).
Definition with_ext (e : E) (s : kstate) : kstate :=
  mk_kstate (al s) (objects s) (slotmem s) (groups s) e.

Definition on_al {B} (m : M A B) : MC B := zoom al with_al m.
Definition on_ext {B} (m : M E B) : MC B := zoom ext with_ext m.

(** Loads and stores of the structures. *)
Definition object_at (o : Z) : MC object := s <- get ;; need (objects s !! o).
Definition set_object (o : Z) (ob : object) : MC unit := modify (λ s, with_objects (<[o := ob]> (objects s)) s).
Definition slot_of (p : Z) : MC object_slot := s <- get ;; need (slotmem s !! p).
Definition set_slot (p : Z) (sl : object_slot) : MC unit := modify (λ s, with_slotmem (<[p := sl]> (slotmem s)) s).
Definition group_at (g : Z) : MC cap_group := s <- get ;; need (groups s !! g).
Definition set_table (g : Z) (t : slot_table) : MC unit :=
  cg <- group_at g ;;
  modify (λ s, with_groups (<[g := mk_cap_group t (badge cg) (notify_recycler cg)]> (groups s)) s).

Definition with_refcount (ob : object) (n : Z) : object :=
  mk_object (type ob) (size ob) (copies ob) (head_init ob) n.
Definition with_copies (ob : object) (l : list Z) : object :=
  mk_object (type ob) (size ob) l (head_init ob) (refcount ob).

(** [&object->opaque] and [container_of]. *)
Definition opaque (o : Z) : Z := o + SIZEOF_OBJECT.
Definition container_of (obj : Z) : Z := obj - SIZEOF_OBJECT.

(** [kfree] of an object: its payload goes with it. *)
Definition kfree_object (o : Z) : MC unit :=
  on_al (al_free o) ;;
  modify (λ s, with_groups (delete (opaque o) (groups s)) (with_objects (delete o (objects s)) s)).

Definition kfree_slot (p : Z) : MC unit :=
  on_al (al_free p) ;; modify (λ s, with_slotmem (delete p (slotmem s)) s).

(** The slot table of a group, as a component of the state. *)
Definition on_table {B} (g : Z) (m : M SlotTable.state B) : MC B :=
  cg <- group_at g ;;
  λ s, match m (SlotTable.mk_state (al s) (slot_tbl cg)) with
       | Done b ts => Done b (with_al (SlotTable.al ts)
           (with_groups (<[g := mk_cap_group (SlotTable.tab ts) (badge cg) (notify_recycler cg)]> (groups s)) s))
       | Away ts => Away s
       | Halt => Halt
       | Fault => Fault
       | Spin => Spin
       end.

Definition alloc_slot (g : Z) : MC Z := on_table g (alloc_slot_id oob).
Definition free_slot (g id : Z) : MC unit :=
  cg <- group_at g ;; t <- need (free_slot_id id (slot_tbl cg)) ;; set_table g t.
Definition get_slot_of (g id : Z) : MC Z := cg <- group_at g ;; need (get_slot id (slot_tbl cg)).
Definition install (g id p : Z) : MC unit :=
  cg <- group_at g ;; r <- need (install_slot id p (slot_tbl cg)) ;;
  match r with None => halt | Some t => set_table g t end.
Definition valid_slot (g id : Z) : MC bool :=
  cg <- group_at g ;; r <- need (is_valid_slot_id id (slot_tbl cg)) ;;
  match r with None => halt | Some b => ret b end.

(** [atomic_fetch_add_64] and [atomic_fetch_sub_64] on a reference count. *)
Definition ref_add (o : Z) : MC unit :=
  ob <- object_at o ;; set_object o (with_refcount ob (u64 (refcount ob + 1))).
Definition ref_sub (o : Z) : MC Z :=
  ob <- object_at o ;; set_object o (with_refcount ob (u64 (refcount ob - 1))) ;; ret (refcount ob).

(** ** capability.c *)

Definition obj_alloc (ty sz : Z) : MC Z :=
  o <- on_al (al_zalloc (SIZEOF_OBJECT + sz)) ;;
  if o =? 0 then ret 0
  else set_object o (mk_object ty sz [] true 0) ;; ret (opaque o).

Definition cap_alloc (g obj rts : Z) : MC Z :=
  let o := container_of obj in
  id <- alloc_slot g ;;
  if id <? 0 then ret (- ENOMEM)
  else
    p <- on_al (al_alloc SIZEOF_SLOT) ;;
    if p =? 0 then free_slot g id ;; ret (- ENOMEM)
    else
      set_slot p (mk_slot id g true rts o) ;;
      ob <- object_at o ;;
      (if head_init ob then set_object o (with_copies ob (p :: copies ob)) else fault) ;;
      BUG_ON (negb (refcount ob =? 0)) ;;
      ob <- object_at o ;;
      set_object o (with_refcount ob 1) ;;
      install g id p ;;
      ret id.

(** [list_del(&slot->copies)]: the slot leaves the list it is on. *)
Definition unlink_copy (o p : Z) : MC unit :=
  ob <- object_at o ;; set_object o (with_copies ob (filter (λ q, q ≠ p) (copies ob))).

(** [list_empty(&object->copies_head)]; the head must be initialised. *)
Definition copies_empty (o : Z) : MC bool :=
  ob <- object_at o ;;
  if head_init ob then ret (match copies ob with [] => true | _ => false end) else fault.

Definition __cap_free (g id : Z) : MC Z :=
  p <- get_slot_of g id ;;
  if p =? 0 then ret (- ECAPBILITY)
  else
    sl <- slot_of p ;;
    if negb (isvalid sl) then ret (- ECAPBILITY)
    else
      free_slot g id ;;
      let o := object_of sl in
      unlink_copy o p ;;
      kfree_slot p ;;
      old_refcount <- ref_sub o ;;
      if old_refcount =? 1 then
        ob <- object_at o ;;
        on_ext (obj_deinit (type ob) (opaque o)) ;;
        ob <- object_at o ;;
        if refcount ob =? 0 then
          empty <- copies_empty o ;;
          BUG_ON (negb empty) ;;
          kfree_object o ;;
          ret 0
        else ret 0
      else ret 0.

Definition cap_free (g id : Z) : MC Z := __cap_free g id.

(** The loop of [obj_free] over the copies; the next one is read before each
    is freed. *)
Fixpoint free_copies (l : list Z) : MC unit :=
  match l with
  | [] => ret tt
  | p :: l' =>
      sl <- slot_of p ;;
      r <- __cap_free (cap_group_of sl) (slot_id sl) ;;
      BUG_ON (negb (r =? 0)) ;;
      free_copies l'
  end.

Definition obj_free (obj : Z) : MC unit :=
  if obj =? 0 then ret tt
  else
    let o := container_of obj in
    ob <- object_at o ;;
    if refcount ob =? 0 then kfree_object o
    else
      (if head_init ob then free_copies (copies ob) else fault) ;;
      (* unlock(&object->copies_lock) *)
      object_at o ;;
      ret tt.

(** [list_add(&dest_slot->copies, &src_slot->copies)]: right after the source
    slot. *)
Fixpoint insert_after (src dst : Z) (l : list Z) : list Z :=
  match l with
  | [] => []
  | p :: l' => if p =? src then p :: dst :: l' else p :: insert_after src dst l'
  end.

Definition cap_copy (src_g dst_g src_id : Z) (new_rights_valid : bool) (new_rights : Z) : MC Z :=
  p <- get_slot_of src_g src_id ;;
  if p =? 0 then ret (- ECAPBILITY)
  else
    sl <- slot_of p ;;
    if negb (isvalid sl) then ret (- ECAPBILITY)
    else
      dst_id <- alloc_slot dst_g ;;
      if dst_id =? -1 then ret (- ENOMEM)
      else
        q <- on_al (al_alloc SIZEOF_SLOT) ;;
        if q =? 0 then free_slot dst_g dst_id ;; ret (- ENOMEM)
        else
          p <- get_slot_of src_g src_id ;;
          sl <- slot_of p ;;
          ref_add (object_of sl) ;;
          set_slot q (mk_slot dst_id dst_g true (if new_rights_valid then new_rights else rights sl) (object_of sl)) ;;
          ob <- object_at (object_of sl) ;;
          set_object (object_of sl) (with_copies ob (insert_after p q (copies ob))) ;;
          install dst_g dst_id q ;;
          ret dst_id.

Definition cap_copy_local (g src_id new_rights : Z) : MC Z := cap_copy g g src_id true new_rights.

Definition cap_move (src_g dst_g src_id : Z) (new_rights_valid : bool) (new_rights : Z) : MC Z :=
  r <- cap_copy src_g dst_g src_id new_rights_valid new_rights ;;
  if r <? 0 then ret r
  else
    r <- cap_free src_g src_id ;;
    BUG_ON (negb (r =? 0)) ;;
    ret r.

(** ** cap_group.c *)

(** [type_valid] is [Some type]. *)
Definition get_opaque (g id : Z) (ty : option Z) : MC Z :=
  ok <- valid_slot g id ;;
  if negb ok then ret 0
  else
    p <- get_slot_of g id ;;
    sl <- slot_of p ;;
    BUG_ON (negb (isvalid sl)) ;;
    BUG_ON (object_of sl =? 0) ;;
    ob <- object_at (object_of sl) ;;
    if match ty with Some t => type ob =? t | None => true end then
      ref_add (object_of sl) ;; ret (opaque (object_of sl))
    else ret 0.

Definition obj_get (g id ty : Z) : MC Z := get_opaque g id (Some ty).

Definition obj_put (obj : Z) : MC unit :=
  let o := container_of obj in
  old_refcount <- ref_sub o ;;
  if old_refcount =? 1 then kfree_object o else ret tt.

Definition cap_revoke (g id : Z) : MC Z :=
  obj <- get_opaque g id None ;;
  if obj =? 0 then ret (- ECAPBILITY)
  else obj_free obj ;; obj_put obj ;; ret 0.

Definition cap_group_init (g sz bdg : Z) : MC Z :=
  r <- on_al (slot_table_init sz) ;;
  match r with
  | inl _ => halt
  | inr t => modify (λ s, with_groups (<[g := mk_cap_group t bdg 0]> (groups s)) s) ;; ret 0
  end.

(** ** System calls; [cur] is [current_cap_group] *)

Definition sys_cap_copy_to (cur dest_cap_group_cap src_slot_id : Z) : MC Z :=
  d <- obj_get cur (s32 dest_cap_group_cap) TYPE_CAP_GROUP ;;
  if d =? 0 then ret (- ECAPBILITY)
  else
    r <- cap_copy cur d (s32 src_slot_id) false 0 ;;
    obj_put d ;;
    ret r.

Definition sys_cap_copy_from (cur src_cap_group_cap src_slot_id : Z) : MC Z :=
  g <- obj_get cur (s32 src_cap_group_cap) TYPE_CAP_GROUP ;;
  if g =? 0 then ret (- ECAPBILITY)
  else
    r <- cap_copy g cur (s32 src_slot_id) false 0 ;;
    obj_put g ;;
    ret r.

(** The loop of [sys_transfer_caps]; [src_caps] is the user's buffer, the
    result what is written back. *)
Fixpoint transfer (cur d : Z) (src_caps : list Z) : MC (list Z) :=
  match src_caps with
  | [] => ret []
  | c :: l => r <- cap_copy cur d c false 0 ;; rs <- transfer cur d l ;; ret (r :: rs)
  end.

Definition sys_transfer_caps (cur dest_group_cap : Z) (src_caps : list Z) : MC (Z * list Z) :=
  d <- obj_get cur (s32 dest_group_cap) TYPE_CAP_GROUP ;;
  if d =? 0 then ret (- ECAPBILITY, [])
  else
    on_al (al_alloc (4 * Z.of_nat (length src_caps))) ;;
    on_al (al_alloc (4 * Z.of_nat (length src_caps))) ;;
    rs <- transfer cur d src_caps ;;
    obj_put d ;;
    ret (0, rs).

Definition sys_cap_move (cur dest_cap_group_cap src_slot_id : Z) : MC Z :=
  d <- obj_get cur (s32 dest_cap_group_cap) TYPE_CAP_GROUP ;;
  if d =? 0 then ret (- ECAPBILITY)
  else
    r <- cap_move cur d (s32 src_slot_id) false 0 ;;
    obj_put d ;;
    ret r.

Definition sys_create_cap_group (cur bdg : Z) : MC Z :=
  cg <- group_at cur ;;
  if negb (badge cg =? ROOT_CAP_GROUP_BADGE) && negb (badge cg =? FSM_BADGE) && negb (badge cg =? PROCMGR_BADGE)
  then ret (- EPERM)
  else
    g <- obj_alloc TYPE_CAP_GROUP SIZEOF_CAP_GROUP ;;
    if g =? 0 then ret (- ENOMEM)
    else
      cap_group_init g BASE_OBJECT_NUM bdg ;;
      cap <- cap_alloc cur g 0 ;;
      if cap <? 0 then obj_free g ;; ret cap
      else
        c0 <- cap_copy cur g cap false 0 ;;
        if negb (c0 =? CAP_GROUP_OBJ_ID) then cap_free cur cap ;; ret (-1)
        else
          v <- obj_alloc TYPE_VMSPACE SIZEOF_VMSPACE ;;
          if v =? 0 then obj_free v ;; cap_free cur cap ;; ret (- ENOMEM)
          else
            on_ext (vmspace_init v) ;;
            r <- cap_alloc g v 0 ;;
            if r <? 0 then obj_free v ;; cap_free cur cap ;; ret r
            else
              BUG_ON (negb (r =? VMSPACE_OBJ_ID)) ;;
              ret cap.

(** The group of the first user process.  The object is not zeroed and its
    [copies_head] is never initialised; the slot of the group is linked with itself
    only. *)
Definition create_root_cap_group : MC Z :=
  o <- on_al (al_alloc (SIZEOF_OBJECT + SIZEOF_CAP_GROUP)) ;;
  if o =? 0 then ret 0
  else
    set_object o (mk_object TYPE_CAP_GROUP SIZEOF_CAP_GROUP [] false 1) ;;
    let g := opaque o in
    cap_group_init g BASE_OBJECT_NUM ROOT_CAP_GROUP_BADGE ;;
    id <- alloc_slot g ;;
    BUG_ON (negb (id =? CAP_GROUP_OBJ_ID)) ;;
    p <- on_al (al_zalloc SIZEOF_SLOT) ;;
    if p =? 0 then on_al (al_free g) ;; ret 0
    else
      set_slot p (mk_slot id g true 0 o) ;;
      ob <- object_at o ;;
      set_object o (with_copies ob [p]) ;;
      cg <- group_at g ;;
      need (slot_at (slot_tbl cg) id) ;;
      set_table g (set_slot_at (slot_tbl cg) id p) ;;
      v <- obj_alloc TYPE_VMSPACE SIZEOF_VMSPACE ;;
      BUG_ON (v =? 0) ;;
      on_ext (vmspace_init v) ;;
      r <- cap_alloc g v 0 ;;
      BUG_ON (negb (r =? VMSPACE_OBJ_ID)) ;;
      ret g.

End caps.

(** ** The invariant *)

(** A function changed at one point, and at one pair. *)
Definition fupd (f : Z → Z) (x v : Z) : Z → Z := λ y, if decide (y = x) then v else f y.
Definition fupd2 (f : Z → Z → Z) (g i v : Z) : Z → Z → Z :=
  λ h j, if decide (h = g ∧ j = i) then v else f h j.

(** How slots, tables and objects refer to each other.  [cid g i] is the slot
    of capability [i] of group [g]; [held o] counts the references to [o] that
    are not capabilities. *)
Record links_ok (cid : Z → Z → Z) (sm : gmap Z object_slot) (obs : gmap Z object) (held : Z → Z) : Prop := {
  lo_slot : ∀ p sl, sm !! p = Some sl → p ≠ 0 ∧ isvalid sl = true ∧ 0 ≤ slot_id sl < 2 ^ 31 ∧
    cid (cap_group_of sl) (slot_id sl) = p ∧ ∃ ob, obs !! object_of sl = Some ob ∧ p ∈ copies ob;
  lo_cap : ∀ g i, cid g i ≠ 0 → ∃ sl, sm !! cid g i = Some sl ∧ cap_group_of sl = g ∧ slot_id sl = i;
  lo_obj : ∀ o ob, obs !! o = Some ob → (head_init ob = true ∨ type ob = TYPE_CAP_GROUP) ∧ NoDup (copies ob) ∧
    (∀ p, p ∈ copies ob → ∃ sl, sm !! p = Some sl ∧ object_of sl = o) ∧
    refcount ob = Z.of_nat (length (copies ob)) + held o ∧ 0 ≤ held o ∧ refcount ob < 2 ^ 64
}.

Lemma links_ext cid cid' sm obs held : (∀ g i, cid' g i = cid g i) →
  links_ok cid sm obs held → links_ok cid' sm obs held.
Proof.
  intros H [L1 L2 L3]. split.
  - intros p sl Hp. rewrite H. by apply L1.
  - intros g i Hn. rewrite H in *. by apply L2.
  - done.
Qed.

(** A new capability [i] of group [g] for object [o], in slot [q]. *)
Lemma links_add cid sm obs held o ob cs g i q rt : links_ok cid sm obs held → obs !! o = Some ob →
  sm !! q = None → q ≠ 0 → cid g i = 0 → 0 ≤ i < 2 ^ 31 → NoDup cs → length cs = S (length (copies ob)) →
  (∀ p, p ∈ cs ↔ p = q ∨ p ∈ copies ob) → refcount ob + 1 < 2 ^ 64 →
  links_ok (fupd2 cid g i q) (<[q := mk_slot i g true rt o]> sm)
    (<[o := mk_object (type ob) (size ob) cs (head_init ob) (refcount ob + 1)]> obs) held.
Proof.
  intros [L1 L2 L3] Ho Hq Hq0 Hc Hi Hn Hl Hcs Hr. destruct (L3 o ob Ho) as (O1 & O2 & O3 & O4 & O5 & O6). split.
  - intros p sl [[<- <-]|[Np Hp]]%lookup_insert_Some; simpl.
    + unfold fupd2. rewrite decide_True by done. split_and!; [done|done|lia|lia|done|].
      eexists. rewrite lookup_insert_eq. split; [done|]. simpl. set_solver.
    + destruct (L1 p sl Hp) as (S0 & S1 & S2 & S3 & ob' & S4 & S5). split; [done|]. split; [done|]. split; [done|]. split.
      * unfold fupd2. rewrite decide_False; [done|]. intros [E1 E2]. rewrite E1, E2, Hc in S3. congruence.
      * destruct (decide (object_of sl = o)) as [E|No].
        -- rewrite E in *. rewrite Ho in S4. injection S4 as <-. eexists. rewrite lookup_insert_eq. split; [done|]. simpl. set_solver.
        -- exists ob'. by rewrite lookup_insert_ne.
  - intros h j. unfold fupd2. case_decide as D.
    + destruct D as [-> ->]. intros _. eexists. rewrite lookup_insert_eq. done.
    + intros Hh. destruct (L2 h j Hh) as (sl & Hsl & ?). exists sl. rewrite lookup_insert_ne; [done|]. congruence.
  - intros o' ob' [[<- <-]|[No Ho']]%lookup_insert_Some; simpl.
    + split; [done|]. split; [done|]. split_and!; [|rewrite Hl; lia|done|lia].
      intros p [->|Hp]%Hcs; [eexists; rewrite lookup_insert_eq; done|].
      destruct (O3 p Hp) as (sl & Hsl & ?). exists sl. rewrite lookup_insert_ne; [done|]. congruence.
    + destruct (L3 o' ob' Ho') as (P1 & P2 & P3 & P4). split_and!; [done|done| |apply P4|apply P4|apply P4].
      intros p Hp. destruct (P3 p Hp) as (sl & Hsl & ?). exists sl. rewrite lookup_insert_ne; [done|]. congruence.
Qed.

Lemma filter_ne_notin (l : list Z) p : p ∉ l → filter (λ q, q ≠ p) l = l.
Proof.
  induction l as [|x l IH]; [done|]. intros [N1 N2]%not_elem_of_cons. rewrite filter_cons_True by done. by rewrite IH.
Qed.

Lemma length_filter_ne (l : list Z) p : NoDup l → p ∈ l → S (length (filter (λ q, q ≠ p) l)) = length l.
Proof.
  induction 1 as [|x l Nx Hl IH]; [by intros ?%not_elem_of_nil|]. intros [->|Hp]%elem_of_cons.
  - rewrite filter_cons_False by (intros H; by apply H). simpl. by rewrite filter_ne_notin.
  - rewrite filter_cons_True by (intros ->; done). simpl. by rewrite IH.
Qed.

(** A capability goes. *)
Lemma links_del cid sm obs held p sl ob : links_ok cid sm obs held → sm !! p = Some sl →
  obs !! object_of sl = Some ob →
  links_ok (fupd2 cid (cap_group_of sl) (slot_id sl) 0) (delete p sm)
    (<[object_of sl := mk_object (type ob) (size ob) (filter (λ q, q ≠ p) (copies ob)) (head_init ob) (refcount ob - 1)]> obs) held ∧
  p ∈ copies ob ∧ 1 ≤ refcount ob.
Proof.
  intros [L1 L2 L3] Hp Ho. destruct (L1 p sl Hp) as (S0 & S1 & S2 & S3 & ob' & S4 & S5).
  rewrite Ho in S4. injection S4 as <-. destruct (L3 _ _ Ho) as (O1 & O2 & O3 & O4 & O5 & O6).
  pose proof (length_filter_ne _ _ O2 S5) as Hlen. split; [|split; [done|lia]]. split.
  - intros q sq [Nq Hq]%lookup_delete_Some. destruct (L1 q sq Hq) as (Q0 & Q1 & Q2 & Q3 & obq & Q4 & Q5).
    split; [done|]. split; [done|]. split; [done|]. split.
    + unfold fupd2. rewrite decide_False; [done|]. intros [E1 E2]. rewrite E1, E2 in Q3. congruence.
    + destruct (decide (object_of sq = object_of sl)) as [E|N].
      * rewrite E, Ho in Q4. injection Q4 as <-. eexists. rewrite E, lookup_insert_eq. split; [done|]. simpl.
        apply list_elem_of_filter. done.
      * exists obq. by rewrite lookup_insert_ne.
  - intros h j. unfold fupd2. case_decide as D; [done|]. intros Hh. destruct (L2 h j Hh) as (sh & Hsh & E1 & E2).
    exists sh. rewrite lookup_delete_ne; [done|]. intros E. rewrite <- E, Hp in Hsh. injection Hsh as <-. by apply D.
  - intros o' ob' [[<- <-]|[No Ho']]%lookup_insert_Some; simpl.
    + split; [done|]. split; [by apply NoDup_filter|]. split_and!; [|lia|done|lia].
      intros q [Nq Hq]%list_elem_of_filter. destruct (O3 q Hq) as (sq & Hsq & ?). exists sq. by rewrite lookup_delete_ne.
    + destruct (L3 o' ob' Ho') as (P1 & P2 & P3 & P4). split_and!; [done|done| |apply P4|apply P4|apply P4].
      intros q Hq. destruct (P3 q Hq) as (sq & Hsq & E). exists sq. rewrite lookup_delete_ne; [done|].
      intros ->. congruence.
Qed.

(** An object without capabilities goes. *)
Lemma links_drop cid sm obs held o ob : links_ok cid sm obs held → obs !! o = Some ob → copies ob = [] →
  links_ok cid sm (delete o obs) held.
Proof.
  intros [L1 L2 L3] Ho Hc. split; [|done|].
  - intros p sl Hp. destruct (L1 p sl Hp) as (S0 & S1 & S2 & S3 & ob' & S4 & S5). split_and!; try done; [lia|lia|].
    exists ob'. rewrite lookup_delete_ne; [done|]. intros E. rewrite <- E, Ho in S4. injection S4 as <-.
    rewrite Hc in S5. by apply not_elem_of_nil in S5.
  - intros o' ob' [No Ho']%lookup_delete_Some. by apply L3.
Qed.

(** References are taken and given back. *)
Lemma links_held cid sm obs held o ob n : links_ok cid sm obs held → obs !! o = Some ob →
  0 ≤ held o + n → refcount ob + n < 2 ^ 64 →
  links_ok cid sm (<[o := with_refcount ob (refcount ob + n)]> obs) (fupd held o (held o + n)).
Proof.
  intros [L1 L2 L3] Ho H1 H2. destruct (L3 o ob Ho) as (O1 & O2 & O3 & O4 & O5 & O6). split; [|done|].
  - intros p sl Hp. destruct (L1 p sl Hp) as (S0 & S1 & S2 & S3 & ob' & S4 & S5). split_and!; try done; [lia|lia|].
    destruct (decide (object_of sl = o)) as [E|N].
    + rewrite E in *. rewrite Ho in S4. injection S4 as <-. eexists. rewrite lookup_insert_eq. done.
    + exists ob'. by rewrite lookup_insert_ne.
  - intros o' ob' [[<- <-]|[No Ho']]%lookup_insert_Some; simpl; unfold fupd.
    + rewrite decide_True by done. split_and!; try done; lia.
    + rewrite decide_False by congruence. by apply L3.
Qed.

(** A new object. *)
Lemma links_new cid sm obs held o ty sz hi n : links_ok cid sm obs held → obs !! o = None → hi = true ∨ ty = TYPE_CAP_GROUP →
  0 ≤ n < 2 ^ 64 → links_ok cid sm (<[o := mk_object ty sz [] hi n]> obs) (fupd held o n).
Proof.
  intros [L1 L2 L3] Ho Hi Hn. split; [|done|].
  - intros p sl Hp. destruct (L1 p sl Hp) as (S0 & S1 & S2 & S3 & ob' & S4 & S5). split_and!; try done; [lia|lia|].
    exists ob'. rewrite lookup_insert_ne; [done|]. congruence.
  - intros o' ob' [[<- <-]|[No Ho']]%lookup_insert_Some; simpl; unfold fupd.
    + rewrite decide_True by done. split_and!; try done; try lia; [constructor|]. intros p Hp. by apply not_elem_of_nil in Hp.
    + rewrite decide_False by congruence. by apply L3.
Qed.

(** Who owns an address of the heap. *)
Inductive who := WObj | WSlot | WTab (g : Z) | WOther.

#[export] Instance who_eq_dec : EqDecision who.
Proof. solve_decision. Defined.

(** The ids reserved in the table of [g]: [Some (g, i)] while capability [i] of
    [g] is being made. *)
Definition reserved (R : option (Z * Z)) (g : Z) : gset Z :=
  match R with Some (h, i) => if decide (h = g) then {[i]} else ∅ | None => ∅ end.

Section spec.
Context {A : Type} `{!Allocator A}.
Context {E : Type}.

Abbreviation kst := (kstate (A := A) (E := E)).

(** The slot of capability [i] of group [g], NULL when there is none. *)
Definition cap_id (s : kst) (g i : Z) : Z :=
  match groups s !! g with Some cg => cap_at (slot_tbl cg) i | None => 0 end.

(** Memory: every structure is a live heap region of its own. *)
Record mem_ok (s : kst) (W : gmap Z who) : Prop := {
  mo_heap : holds (al s) (dom W);
  mo_obj : ∀ p, W !! p = Some WObj ↔ is_Some (objects s !! p);
  mo_slot : ∀ p, W !! p = Some WSlot ↔ is_Some (slotmem s !! p);
  mo_tab : ∀ p g, W !! p = Some (WTab g) ↔ ∃ cg, groups s !! g = Some cg ∧ p ∈ arrays (slot_tbl cg)
}.

Record caps_ok (s : kst) (held : Z → Z) (W : gmap Z who) (R : option (Z * Z)) : Prop := {
  co_mem : mem_ok s W;
  co_table : ∀ g cg, groups s !! g = Some cg →
    table_ok (slot_tbl cg) (reserved R g) ∧ slots_size (slot_tbl cg) < 2 ^ 31;
  co_links : links_ok (cap_id s) (slotmem s) (objects s) held;
  co_group : ∀ g cg, groups s !! g = Some cg → ∃ ob, objects s !! container_of g = Some ob ∧ type ob = TYPE_CAP_GROUP;
  co_res : ∀ g i, R = Some (g, i) →
    cap_id s g i = 0 ∧ ∃ cg, groups s !! g = Some cg ∧ 0 ≤ i < slots_size (slot_tbl cg)
}.

Lemma group_at_ok (s : kst) g cg : groups s !! g = Some cg → group_at g s = Done cg s.
Proof. intros H. unfold group_at, bind, get. by rewrite H. Qed.

Lemma object_at_ok (s : kst) o ob : objects s !! o = Some ob → object_at o s = Done ob s.
Proof. intros H. unfold object_at, bind, get. by rewrite H. Qed.

Lemma slot_of_ok (s : kst) p sl : slotmem s !! p = Some sl → slot_of p s = Done sl s.
Proof. intros H. unfold slot_of, bind, get. by rewrite H. Qed.

(** A group with another table. *)
Definition put_table (g : Z) (cg : cap_group) (t : slot_table) (s : kst) : kst :=
  with_groups (<[g := mk_cap_group t (badge cg) (notify_recycler cg)]> (groups s)) s.

Lemma set_table_ok (s : kst) g cg t : groups s !! g = Some cg → set_table g t s = Done tt (put_table g cg t s).
Proof. intros H. unfold set_table. by erewrite bind_Done by (by apply group_at_ok). Qed.

Lemma cap_id_put_table g cg t s h i :
  cap_id (put_table g cg t s) h i = if decide (h = g) then cap_at t i else cap_id s h i.
Proof.
  unfold cap_id, put_table. simpl. case_decide as D.
  - subst h. by rewrite lookup_insert_eq.
  - by rewrite lookup_insert_ne.
Qed.

Lemma mem_put_table s W g cg t : mem_ok s W → groups s !! g = Some cg → arrays t = arrays (slot_tbl cg) →
  mem_ok (put_table g cg t s) W.
Proof.
  intros [M1 M2 M3 M4] Hg Ea. split; try done. intros p h. rewrite M4. simpl. split.
  - intros (ch & Hh & Hp). destruct (decide (g = h)) as [<-|N].
    + rewrite Hg in Hh. injection Hh as <-. eexists. rewrite lookup_insert_eq. split; [done|]. simpl. by rewrite Ea.
    + exists ch. by rewrite lookup_insert_ne.
  - intros (ch & [[<- <-]|[_ Hh]]%lookup_insert_Some & Hp); [|eauto]. exists cg. simpl in Hp. by rewrite <- Ea.
Qed.

(** ** Reserving a slot *)

(** The ownership map after group [g] got new arrays. *)
Definition retab (W : gmap Z who) (g : Z) (N : gset Z) : gmap Z who :=
  gset_to_gmap (WTab g) N ∪ filter (λ kv, kv.2 ≠ WTab g) W.

Lemma lookup_retab W g N p w : retab W g N !! p = Some w ↔
  (p ∈ N ∧ w = WTab g) ∨ ((p ∉ N) ∧ W !! p = Some w ∧ w ≠ WTab g).
Proof.
  unfold retab. rewrite lookup_union_Some_raw, lookup_gset_to_gmap_Some, lookup_gset_to_gmap_None, map_lookup_filter_Some.
  simpl. naive_solver.
Qed.

Lemma mem_retab s W g cg a' t' : mem_ok s W → groups s !! g = Some cg →
  arrays t' ## dom W ∖ arrays (slot_tbl cg) → holds a' (arrays t' ∪ (dom W ∖ arrays (slot_tbl cg))) →
  mem_ok (with_al a' (put_table g cg t' s)) (retab W g (arrays t')).
Proof.
  intros [M1 M2 M3 M4] Hg HD HH.
  assert (∀ p w, W !! p = Some w → w ≠ WTab g → p ∉ arrays t') as Out.
  { intros p w Hp Nw Hin. apply (HD p); [done|]. apply elem_of_difference. split; [by eapply elem_of_dom_2|].
    intros Hold. assert (W !! p = Some (WTab g)) by (apply M4; eauto). congruence. }
  split; simpl.
  - assert (dom (retab W g (arrays t')) = arrays t' ∪ (dom W ∖ arrays (slot_tbl cg))) as ->; [|done].
    apply set_eq. intros p. rewrite elem_of_union, elem_of_difference, !elem_of_dom. split.
    + intros [w Hw]. apply lookup_retab in Hw as [[? _]|(? & Hw & N)]; [by left|right]. split; [by eexists|].
      intros Hold. assert (W !! p = Some (WTab g)) by (apply M4; eauto). congruence.
    + intros [Hin|[[w Hw] Hold]].
      * exists (WTab g). apply lookup_retab. by left.
      * assert (w ≠ WTab g) as Nw. { intros ->. apply M4 in Hw as (c & Hc & Hp). congruence. }
        exists w. apply lookup_retab. right. split; [by eapply Out|done].
  - intros p. rewrite lookup_retab, <- M2. split; [naive_solver|]. intros Hp. right. split; [by eapply Out|done].
  - intros p. rewrite lookup_retab, <- M3. split; [naive_solver|]. intros Hp. right. split; [by eapply Out|done].
  - intros p h. rewrite lookup_retab. split.
    + intros [[Hp [= ->]]|(Np & Hp & N)].
      * eexists. by rewrite lookup_insert_eq.
      * apply M4 in Hp as (ch & Hh & Hp). exists ch. rewrite lookup_insert_ne; [done|]. congruence.
    + intros (ch & [[<- <-]|[Ngh Hh]]%lookup_insert_Some & Hp); [by left|]. right.
      assert (W !! p = Some (WTab h)) as Hw by (apply M4; eauto).
      assert (WTab h ≠ WTab g) as N by congruence. split; [by eapply Out|done].
Qed.

(** Everything but tables and heap. *)
Definition same_rest (s s' : kst) : Prop :=
  objects s' = objects s ∧ slotmem s' = slotmem s ∧ ext s' = ext s ∧ dom (groups s') = dom (groups s).

Lemma alloc_slot_spec oob s held W g cg : caps_ok s held W None → groups s !! g = Some cg → room (slot_tbl cg) →
  wph (alloc_slot oob g) (λ r s', ∃ W', same_rest s s' ∧ (∀ h i, cap_id s' h i = cap_id s h i) ∧
    ((r = - ENOMEM ∧ caps_ok s' held W' None) ∨ (0 ≤ r < 2 ^ 31 ∧ caps_ok s' held W' (Some (g, r))))) s.
Proof.
  intros C Hg Rm. pose proof C as [M T L G _]. destruct (T g cg Hg) as [Tg Sg].
  set (F := dom W ∖ arrays (slot_tbl cg)).
  assert (arrays (slot_tbl cg) ⊆ dom W) as Sub.
  { intros p Hp. apply elem_of_dom. exists (WTab g). apply (mo_tab _ _ M). eauto. }
  assert (table_in (SlotTable.mk_state (al s) (slot_tbl cg)) ∅ F) as TI.
  { split; [done|]. split; [unfold F; set_solver|]. simpl. eapply holds_put; [|apply (mo_heap _ _ M)].
    unfold F. by apply union_difference_L. }
  apply wph_or. unfold alloc_slot, on_table. destruct (alloc_slot_id_spec oob _ F TI Rm) as [Ea|(r & ts & Ea & H)].
  { left. erewrite bind_Done by (by apply group_at_ok). by rewrite Ea. }
  right. erewrite bind_Done by (by apply group_at_ok). rewrite Ea.
  set (t' := SlotTable.tab ts) in *. set (a' := SlotTable.al ts) in *.
  assert (∃ R, table_ok t' R ∧ arrays t' ## F ∧ holds a' (arrays t' ∪ F) ∧ slots_size t' < 2 ^ 31 ∧
    (∀ i, cap_at t' i = cap_at (slot_tbl cg) i) ∧
    ((r = - ENOMEM ∧ R = ∅) ∨ (0 ≤ r < slots_size t' ∧ cap_at t' r = 0 ∧ R = {[r]}))) as (R & T' & D' & H' & S' & C' & HR).
  { simpl in H. destruct H as [(-> & Et & (T' & D' & H'))|(Hr & SC & Hz & (T' & D' & H'))].
    - exists ∅. fold t' in Et, T', D', H'. rewrite Et in *. split_and!; try done. by left.
    - fold t' in Hr, SC, Hz, T', D', H'. simpl in SC. destruct Rm as [_ Rm]. pose proof SC as [SC1 _].
      assert (slots_size t' < 2 ^ 31) by lia. exists {[r]}. split_and!; try done.
      + intros i. by apply (same_caps_at _ _ ∅ {[r]}).
      + right. split; [lia|]. split; [|done]. pose proof (cap_at_in _ _ _ T' Hr). congruence. }
  eexists r, _. split; [reflexivity|]. exists (retab W g (arrays t')).
  assert (∀ h i, cap_id (with_al a' (put_table g cg t' s)) h i = cap_id s h i) as EC.
  { intros h i. change (cap_id (with_al a' (put_table g cg t' s)) h i) with (cap_id (put_table g cg t' s) h i).
    rewrite cap_id_put_table. case_decide; [|done]. subst h. unfold cap_id. by rewrite Hg, C'. }
  split; [|split; [exact EC|]].
  { split_and!; try done. simpl. rewrite dom_insert_L. apply elem_of_dom_2 in Hg. set_solver. }
  assert (∀ Q, reserved Q g = R → (∀ h, h ≠ g → reserved Q h = ∅) →
    (∀ h i, Q = Some (h, i) → h = g ∧ cap_at t' i = 0 ∧ 0 ≤ i < slots_size t') →
    caps_ok (with_al a' (put_table g cg t' s)) held (retab W g (arrays t')) Q) as OK.
  { intros Q HQ HQ' Hr. split.
    - by apply mem_retab.
    - intros h ch Hh. simpl in Hh. apply lookup_insert_Some in Hh as [[<- <-]|[Nh Hh]]; [by rewrite HQ|].
      rewrite HQ' by done. exact (T h ch Hh).
    - exact (links_ext (cap_id s) _ _ _ _ EC L).
    - intros h ch Hh. simpl in Hh. apply lookup_insert_Some in Hh as [[<- <-]|[Nh Hh]]; [by apply (G g cg)|by apply (G h ch)].
    - intros h i Ei. destruct (Hr h i Ei) as (-> & Hz & Hi). split; [|eexists; simpl; by rewrite lookup_insert_eq].
      rewrite EC. unfold cap_id. by rewrite Hg, <- C'. }
  destruct HR as [[-> ->]|(Hr & Hz & ->)]; [left|right].
  - split; [done|]. by apply OK.
  - split; [lia|]. apply OK; unfold reserved.
    + by rewrite decide_True.
    + intros h Nh. by rewrite decide_False.
    + by intros h i [= -> ->].
Qed.

(** The table grows by one step at most. *)
Lemma alloc_slot_size oob s held W g cg r s' : caps_ok s held W None → groups s !! g = Some cg → room (slot_tbl cg) →
  alloc_slot oob g s = Done r s' → ∃ cg', groups s' !! g = Some cg' ∧ slots_size (slot_tbl cg') ≤ slots_size (slot_tbl cg) + 64.
Proof.
  intros C Hg Rm Ea. pose proof C as [M T _ _ _]. destruct (T g cg Hg) as [Tg _]. set (F := dom W ∖ arrays (slot_tbl cg)).
  assert (arrays (slot_tbl cg) ⊆ dom W) as Sub.
  { intros p Hp. apply elem_of_dom. exists (WTab g). apply (mo_tab _ _ M). eauto. }
  assert (table_in (SlotTable.mk_state (al s) (slot_tbl cg)) ∅ F) as TI.
  { split; [done|]. split; [unfold F; set_solver|]. simpl. eapply holds_put; [|apply (mo_heap _ _ M)].
    unfold F. by apply union_difference_L. }
  unfold alloc_slot, on_table in Ea. erewrite bind_Done in Ea by (by apply group_at_ok).
  destruct (alloc_slot_id_spec oob _ F TI Rm) as [E0|(r' & ts & E0 & H)]; rewrite E0 in Ea; [done|]. injection Ea as <- <-.
  eexists. split; [simpl; apply lookup_insert_eq|]. cbn [slot_tbl]. simpl in H.
  destruct H as [(_ & -> & _)|(_ & [SC _] & _)]; lia.
Qed.

(** The capabilities, as a map from group and id to object and rights. *)
Definition cap_view (s : kst) (g i : Z) : option (Z * Z) :=
  (λ sl, (object_of sl, rights sl)) <$> slotmem s !! cap_id s g i.

Lemma view_same s s' : same_rest s s' → (∀ h i, cap_id s' h i = cap_id s h i) →
  ∀ h i, cap_view s' h i = cap_view s h i.
Proof. intros (_ & H & _) HC h i. unfold cap_view. by rewrite H, HC. Qed.

Lemma same_rest_trans s1 s2 s3 : same_rest s1 s2 → same_rest s2 s3 → same_rest s1 s3.
Proof. intros (H1 & H2 & H3 & H4) (G1 & G2 & G3 & G4). split_and!; congruence. Qed.

Lemma same_rest_put_table s g cg t : groups s !! g = Some cg → same_rest s (put_table g cg t s).
Proof.
  intros Hg. split_and!; try done. simpl. rewrite dom_insert_L. apply elem_of_dom_2 in Hg. set_solver.
Qed.

(** The group of the reservation, and its table. *)
Lemma reserved_table s held W g i : caps_ok s held W (Some (g, i)) → ∃ cg, groups s !! g = Some cg ∧
  table_ok (slot_tbl cg) {[i]} ∧ slots_size (slot_tbl cg) < 2 ^ 31 ∧ 0 ≤ i < slots_size (slot_tbl cg) ∧
  cap_at (slot_tbl cg) i = 0.
Proof.
  intros [_ T _ _ R]. destruct (R g i eq_refl) as (Z0 & cg & Hg & Hi). exists cg. destruct (T g cg Hg) as [T1 T2].
  unfold reserved in T1. rewrite decide_True in T1 by done. unfold cap_id in Z0. rewrite Hg in Z0. done.
Qed.

(** An error path gives the reserved slot back. *)
Lemma release_spec s held W g i : caps_ok s held W (Some (g, i)) → ∃ s', free_slot g i s = Done tt s' ∧
  same_rest s s' ∧ (∀ h j, cap_id s' h j = cap_id s h j) ∧ caps_ok s' held W None.
Proof.
  intros C. destruct (reserved_table _ _ _ _ _ C) as (cg & Hg & T & Sz & Hi & Z0).
  destruct (free_slot_id_ok _ _ _ T Sz Hi) as (t' & Et & T' & A' & S' & C'). exists (put_table g cg t' s). split.
  { unfold free_slot. erewrite bind_Done by (by apply group_at_ok). rewrite Et. erewrite bind_Done by reflexivity.
    by apply set_table_ok. }
  assert (∀ h j, cap_id (put_table g cg t' s) h j = cap_id s h j) as EC.
  { intros h j. rewrite cap_id_put_table. case_decide; [|done]. subst h. rewrite C'. unfold cap_id. rewrite Hg.
    case_decide; congruence. }
  split; [by apply same_rest_put_table|]. split; [exact EC|]. destruct C as [M TT L G _]. split.
  - by apply mem_put_table.
  - intros h ch Hh. simpl in Hh. apply lookup_insert_Some in Hh as [[<- <-]|[Nh Hh]].
    + simpl. rewrite S'. split; [|done]. by rewrite difference_diag_L in T'.
    + destruct (TT h ch Hh) as [T1 T2]. unfold reserved in T1. by rewrite decide_False in T1.
  - exact (links_ext (cap_id s) _ _ _ _ EC L).
  - intros h ch Hh. simpl in Hh. apply lookup_insert_Some in Hh as [[<- <-]|[Nh Hh]]; [by apply (G g cg)|by apply (G h ch)].
  - done.
Qed.

Lemma mem_add_slot s W q sl a' : mem_ok s W → q ∉ dom W → holds a' ({[q]} ∪ dom W) →
  mem_ok (with_slotmem (<[q := sl]> (slotmem s)) (with_al a' s)) (<[q := WSlot]> W).
Proof.
  intros [M1 M2 M3 M4] Hq HH. apply not_elem_of_dom in Hq. split; simpl.
  - by rewrite dom_insert_L.
  - intros p. rewrite <- M2. rewrite lookup_insert_Some. split; [naive_solver|]. intros Hp. right. split; [congruence|done].
  - intros p. destruct (decide (q = p)) as [<-|N]; [rewrite !lookup_insert_eq; by split|].
    rewrite !lookup_insert_ne by done. apply M3.
  - intros p g. rewrite <- M4. rewrite lookup_insert_Some. split; [naive_solver|]. intros Hp. right. split; [congruence|done].
Qed.

Lemma mem_set_object s W o ob : mem_ok s W → is_Some (objects s !! o) →
  mem_ok (with_objects (<[o := ob]> (objects s)) s) W.
Proof.
  intros [M1 M2 M3 M4] Ho. split; try done. intros p. rewrite M2. simpl. rewrite lookup_insert_is_Some.
  destruct (decide (o = p)) as [<-|N]; naive_solver.
Qed.

Lemma group_set_object (obs : gmap Z object) o ob ob' g : obs !! o = Some ob → type ob' = type ob →
  (∃ x, obs !! g = Some x ∧ type x = TYPE_CAP_GROUP) →
  ∃ x, <[o := ob']> obs !! g = Some x ∧ type x = TYPE_CAP_GROUP.
Proof.
  intros Ho Et (x & Hx & Ex). destruct (decide (o = g)) as [<-|N].
  - exists ob'. rewrite lookup_insert_eq. split; congruence.
  - exists x. by rewrite lookup_insert_ne.
Qed.

(** ** Making a capability *)

(** Capability [i] of [g] made, in slot [q]. *)
Definition with_cap (g : Z) (cg : cap_group) (t : slot_table) (q : Z) (sl : object_slot) (o : Z) (ob : object) (a : A)
    (s : kst) : kst :=
  put_table g cg t (with_objects (<[o := ob]> (objects s)) (with_slotmem (<[q := sl]> (slotmem s)) (with_al a s))).

Section new_cap.
Context (s : kst) (held : Z → Z) (W : gmap Z who) (g i : Z) (cg : cap_group) (t' : slot_table) (a' : A).
Context (q o rt : Z) (ob : object) (cs : list Z).
Hypothesis C : caps_ok s held W (Some (g, i)).
Hypothesis Hg : groups s !! g = Some cg.
Hypothesis T' : table_ok t' ∅.
Hypothesis S' : slots_size t' = slots_size (slot_tbl cg).
Hypothesis A' : arrays t' = arrays (slot_tbl cg).
Hypothesis C' : ∀ j, cap_at t' j = if decide (j = i) then q else cap_at (slot_tbl cg) j.
Hypothesis Hq : q ∉ dom W.
Hypothesis Hq0 : q ≠ 0.
Hypothesis HH : holds a' ({[q]} ∪ dom W).
Hypothesis Ho : objects s !! o = Some ob.
Hypothesis Hn : NoDup cs.
Hypothesis Hl : length cs = S (length (copies ob)).
Hypothesis Hcs : ∀ p, p ∈ cs ↔ p = q ∨ p ∈ copies ob.
Hypothesis Hr : refcount ob + 1 < 2 ^ 64.

Let s' := with_cap g cg t' q (mk_slot i g true rt o) o
  (mk_object (type ob) (size ob) cs (head_init ob) (refcount ob + 1)) a' s.

Lemma new_cap_id h j : cap_id s' h j = fupd2 (cap_id s) g i q h j.
Proof.
  unfold s', with_cap. rewrite cap_id_put_table. unfold fupd2. case_decide as D.
  - subst h. rewrite C'. unfold cap_id. rewrite Hg. case_decide as D.
    + by rewrite decide_True.
    + by rewrite decide_False by naive_solver.
  - by rewrite decide_False by naive_solver.
Qed.

Lemma new_cap_fresh : slotmem s !! q = None.
Proof.
  destruct (slotmem s !! q) eqn:Eq; [|done]. exfalso. apply Hq, elem_of_dom. exists WSlot.
  apply (mo_slot _ _ (co_mem _ _ _ _ C)). by eexists.
Qed.

Lemma new_cap_ok : caps_ok s' held (<[q := WSlot]> W) None.
Proof.
  destruct C as [M T L G R]. destruct (R g i eq_refl) as (Z0 & cg' & Hg' & Hi).
  rewrite Hg in Hg'. injection Hg' as <-. split.
  - apply mem_put_table; [|done|done]. apply (mem_set_object (with_slotmem _ (with_al a' s))); [|exists ob; exact Ho].
    by apply mem_add_slot.
  - intros h ch Hh. simpl in Hh. apply lookup_insert_Some in Hh as [[<- <-]|[Nh Hh]].
    + simpl. rewrite S'. split; [done|]. by apply (T g cg).
    + destruct (T h ch Hh) as [T1 T2]. unfold reserved in T1. by rewrite decide_False in T1.
  - apply (links_ext (fupd2 (cap_id s) g i q)); [exact new_cap_id|]. destruct (T g cg Hg) as [_ Sz].
    apply (links_add _ _ _ _ o ob cs g i q rt); try done; [apply new_cap_fresh|lia].
  - intros h ch Hh. simpl in Hh. simpl. eapply group_set_object; [exact Ho|done|].
    apply lookup_insert_Some in Hh as [[<- <-]|[Nh Hh]]; [by apply (G g cg)|by apply (G h ch)].
  - done.
Qed.

Lemma new_cap_view h j : cap_view s' h j = if decide (h = g ∧ j = i) then Some (o, rt) else cap_view s h j.
Proof.
  unfold cap_view. rewrite new_cap_id. unfold fupd2. simpl. case_decide as D; [by rewrite lookup_insert_eq|].
  destruct (decide (q = cap_id s h j)) as [E1|N]; [|by rewrite lookup_insert_ne].
  exfalso. destruct (lo_cap _ _ _ _ (co_links _ _ _ _ C) h j) as (sl & Hsl & _); [congruence|].
  rewrite <- E1, new_cap_fresh in Hsl. congruence.
Qed.

End new_cap.

(** A new slot from the heap. *)
Lemma slot_memory s held W R : caps_ok s held W R → SIZEOF_SLOT ≤ max_size →
  wph (on_al (al_alloc SIZEOF_SLOT)) (λ q s', ∃ a', s' = with_al a' s ∧
    ((q = 0 ∧ caps_ok s' held W R) ∨ (q ≠ 0 ∧ (q ∉ dom W) ∧ holds a' ({[q]} ∪ dom W)))) s.
Proof.
  intros [[M1 M2 M3 M4] T L G RR] Hm. apply wph_or.
  destruct (alloc_holds (al s) (dom W) SIZEOF_SLOT M1) as [[E1|(q & a' & E1 & H)] _]; [by split|left|right].
  { by apply zoom_Halt. }
  exists q, (with_al a' s). split; [by apply zoom_Done|]. exists a'. split; [done|].
  destruct H as [[-> H]|H]; [left|by right]. by split.
Qed.

Lemma install_spec s held W g i q cg : caps_ok s held W (Some (g, i)) → groups s !! g = Some cg → q ≠ 0 → ∃ t',
  table_ok t' ∅ ∧ slots_size t' = slots_size (slot_tbl cg) ∧ arrays t' = arrays (slot_tbl cg) ∧
  (∀ j, cap_at t' j = if decide (j = i) then q else cap_at (slot_tbl cg) j) ∧
  ∀ s', groups s' = groups s → install g i q s' = Done tt (put_table g cg t' s').
Proof.
  intros C Hg Hq. destruct (reserved_table _ _ _ _ _ C) as (cg' & Hg' & T & Sz & Hi & _).
  rewrite Hg in Hg'. injection Hg' as <-.
  destruct (install_slot_ok _ _ q T Sz Hi Hq) as (t' & Et & T' & A' & S' & C'). exists t'. split_and!; try done.
  intros s' Es. unfold install. rewrite <- Es in Hg. erewrite bind_Done by (by apply group_at_ok). rewrite Et.
  erewrite bind_Done by reflexivity. by apply set_table_ok.
Qed.

(** The capabilities and objects of [s] are untouched. *)
Definition unchanged (s s' : kst) : Prop := objects s' = objects s ∧ ∀ h j, cap_view s' h j = cap_view s h j.

Lemma unchanged_rest s s' : same_rest s s' → (∀ h i, cap_id s' h i = cap_id s h i) → unchanged s s'.
Proof. intros SR EC. split; [apply SR|by apply view_same]. Qed.

Lemma reserved_view s held W g i : caps_ok s held W (Some (g, i)) → cap_view s g i = None.
Proof.
  intros C. destruct (co_res _ _ _ _ C g i eq_refl) as [Z0 _]. unfold cap_view. rewrite Z0.
  destruct (slotmem s !! 0) eqn:Es; [|done]. by destruct (lo_slot _ _ _ _ (co_links _ _ _ _ C) _ _ Es) as [? _].
Qed.

Lemma cap_alloc_spec oob s held W g cg obj ob rts : caps_ok s held W None → groups s !! g = Some cg →
  room (slot_tbl cg) → SIZEOF_SLOT ≤ max_size → objects s !! container_of obj = Some ob → refcount ob = 0 → head_init ob = true →
  wph (cap_alloc oob g obj rts) (λ r s', (∃ W', caps_ok s' held W' None) ∧
    ((r = - ENOMEM ∧ unchanged s s') ∨
     (0 ≤ r ∧ cap_view s g r = None ∧
      ∀ h j, cap_view s' h j = if decide (h = g ∧ j = r) then Some (container_of obj, rts) else cap_view s h j))) s.
Proof.
  intros C Hg Rm Hm Ho Hz HI. unfold cap_alloc. apply wph_bind. eapply wph_mono; [by eapply alloc_slot_spec|].
  intros r s1 (W1 & SR & EC & [[-> C1]|[Hr C1]]).
  { eapply wph_Done; [reflexivity|]. split; [by exists W1|]. left. split; [done|]. by apply unchanged_rest. }
  rewrite (proj2 (Z.ltb_ge r 0)) by lia. apply wph_bind. eapply wph_mono; [by eapply slot_memory|].
  intros q s2 (a' & -> & [[-> C2]|(Hq & Nq & HH)]).
  { destruct (release_spec _ _ _ _ _ C2) as (s3 & E3 & SR3 & EC3 & C3). eapply wph_step; [exact E3|].
    eapply wph_Done; [reflexivity|]. split; [by exists W1|]. left. split; [done|].
    apply unchanged_rest; [by eapply same_rest_trans; [|exact SR3]|]. intros h j. rewrite EC3. apply EC. }
  rewrite (proj2 (Z.eqb_neq q 0)) by done.
  destruct (reserved_table _ _ _ _ _ C1) as (c1 & Hg1 & _).
  destruct (install_spec _ _ _ _ _ q _ C1 Hg1 Hq) as (t' & T' & S' & A' & C' & EI).
  assert (objects s1 !! container_of obj = Some ob) as Ho1 by (by rewrite (proj1 SR)).
  destruct (lo_obj _ _ _ _ (co_links _ _ _ _ C1) _ _ Ho1) as (O1 & O2 & O3 & O4 & O5 & O6).
  assert (copies ob = []) as Ec by (destruct (copies ob); [done|simpl in O4; lia]).
  eapply wph_step; [reflexivity|]. eapply wph_step; [by apply object_at_ok|]. rewrite HI. eapply wph_step; [reflexivity|].
  rewrite Hz. eapply wph_step; [reflexivity|].
  eapply wph_step; [apply object_at_ok; simpl; by rewrite lookup_insert_eq|]. eapply wph_step; [reflexivity|].
  eapply wph_step; [by apply EI|]. eapply wph_Done; [reflexivity|].
  match goal with |- (∃ W', caps_ok ?x _ _ _) ∧ _ => assert (x = with_cap g c1 t' q (mk_slot r g true rts (container_of obj))
    (container_of obj) (mk_object (type ob) (size ob) [q] (head_init ob) (refcount ob + 1)) a' s1) as -> end.
  { unfold with_cap, put_table, with_objects, with_refcount, with_copies. simpl. by rewrite insert_insert_eq, Ec, Hz. }
  assert (∀ p, p ∈ [q] ↔ p = q ∨ p ∈ copies ob) as Hcs by (intros p; rewrite Ec; set_solver).
  split; [exists (<[q := WSlot]> W1); apply new_cap_ok; try done; [apply NoDup_singleton|by rewrite Ec|lia]|].
  right. split; [lia|]. split; [rewrite <- (view_same s s1) by done; by eapply reserved_view|].
  intros h j. erewrite new_cap_view by eassumption. case_decide; [done|]. by apply view_same.
Qed.

Lemma get_slot_of_ok s held W R g cg i : caps_ok s held W R → groups s !! g = Some cg → is_int i →
  get_slot_of g i s = Done (cap_id s g i) s.
Proof.
  intros C Hg Hi. destruct (co_table _ _ _ _ C g cg Hg) as [T Sz]. unfold get_slot_of.
  erewrite bind_Done by (by apply group_at_ok). rewrite (get_slot_ok _ _ _ T Sz Hi). unfold cap_id. by rewrite Hg.
Qed.

(** A capability: its slot, its object, both ways. *)
Lemma cap_present s held W R g i : caps_ok s held W R → cap_id s g i ≠ 0 → ∃ sl ob,
  slotmem s !! cap_id s g i = Some sl ∧ isvalid sl = true ∧ cap_group_of sl = g ∧ slot_id sl = i ∧
  objects s !! object_of sl = Some ob ∧ cap_id s g i ∈ copies ob ∧ cap_view s g i = Some (object_of sl, rights sl).
Proof.
  intros C Hn. destruct (lo_cap _ _ _ _ (co_links _ _ _ _ C) g i Hn) as (sl & Hs & E1 & E2).
  destruct (lo_slot _ _ _ _ (co_links _ _ _ _ C) _ _ Hs) as (_ & V & _ & _ & ob & Ho & Hc).
  exists sl, ob. split_and!; try done. unfold cap_view. by rewrite Hs.
Qed.

Lemma cap_absent s held W R g i : caps_ok s held W R → cap_id s g i = 0 → cap_view s g i = None.
Proof.
  intros C Hz. unfold cap_view. rewrite Hz. destruct (slotmem s !! 0) eqn:Es; [|done].
  by destruct (lo_slot _ _ _ _ (co_links _ _ _ _ C) _ _ Es) as [? _].
Qed.

Lemma insert_after_ok p q (l : list Z) : p ∈ l → q ∉ l → NoDup l →
  NoDup (insert_after p q l) ∧ length (insert_after p q l) = S (length l) ∧ ∀ x, x ∈ insert_after p q l ↔ x = q ∨ x ∈ l.
Proof.
  intros Hp Hq. induction 1 as [|y l Ny Hl IH]; [by apply not_elem_of_nil in Hp|]. simpl.
  apply not_elem_of_cons in Hq as [Nq Hq]. destruct (Z.eqb_spec y p) as [->|N].
  - split_and!; [|done|set_solver]. apply NoDup_cons. split; [set_solver|]. by apply NoDup_cons.
  - apply elem_of_cons in Hp as [->|Hp]; [done|]. destruct (IH Hp Hq) as (I1 & I2 & I3).
    split_and!; [|simpl; lia|set_solver]. apply NoDup_cons. split; [|done]. rewrite I3. intros [->|?]; done.
Qed.

(** A state in which every reference count can grow. *)
Definition countable (s : kst) : Prop := ∀ o ob, objects s !! o = Some ob → refcount ob + 1 < 2 ^ 64.

(** What [cap_copy] may return, from [s] to [s'], and what it changed. *)
Definition copied (s : kst) (gs gd i : Z) (nv : bool) (nr r : Z) (s' : kst) : Prop :=
  (r = - ECAPBILITY ∧ cap_view s gs i = None ∧ s' = s) ∨
  (r = - ENOMEM ∧ unchanged s s') ∨
  (0 ≤ r < 2 ^ 31 ∧ cap_view s gd r = None ∧ ∃ o rt, cap_view s gs i = Some (o, rt) ∧
   ∀ h j, cap_view s' h j = if decide (h = gd ∧ j = r) then Some (o, if nv then nr else rt) else cap_view s h j).

(** The copy after the destination gave id [r], by what [kmalloc] does. *)
Lemma cap_copy_run oob s held W gs gd cs cd i nv nr o rt r s1 : caps_ok s held W None → countable s →
  groups s !! gs = Some cs → groups s !! gd = Some cd → room (slot_tbl cd) → SIZEOF_SLOT ≤ max_size → is_int i →
  cap_view s gs i = Some (o, rt) → alloc_slot oob gd s = Done r s1 → 0 ≤ r →
  match al_alloc SIZEOF_SLOT (al s1) with
  | Done q _ => ∃ s', cap_copy oob gs gd i nv nr s = Done (if q =? 0 then - ENOMEM else r) s' ∧ (∃ W', caps_ok s' held W' None) ∧
      if q =? 0 then unchanged s s'
      else r < 2 ^ 31 ∧ cap_view s gd r = None ∧
        ∀ h j, cap_view s' h j = if decide (h = gd ∧ j = r) then Some (o, if nv then nr else rt) else cap_view s h j
  | _ => cap_copy oob gs gd i nv nr s = Halt
  end.
Proof.
  intros C Cn Hs Hd Rm Hm Hi Hv Ea Hr0. assert (cap_id s gs i ≠ 0) as Nz by (intros Ez; by rewrite (cap_absent _ _ _ _ _ _ C Ez) in Hv).
  destruct (cap_present _ _ _ _ _ _ C Nz) as (sl & ob & Hsl & V & _ & _ & Ho & Hc & HV). rewrite Hv in HV. injection HV as -> ->.
  pose proof (alloc_slot_spec oob s held W gd cd C Hd Rm) as AS. unfold wph in AS. rewrite Ea in AS.
  destruct AS as (W1 & SR & EC & [[-> _]|[Hr C1]]); [done|].
  assert (∀ x, (q <- on_al (al_alloc SIZEOF_SLOT) ;; if q =? 0 then free_slot gd r ;; ret (- ENOMEM) else
    p <- get_slot_of gs i ;; sl <- slot_of p ;; ref_add (object_of sl) ;;
    set_slot q (mk_slot r gd true (if nv then nr else rights sl) (object_of sl)) ;; ob <- object_at (object_of sl) ;;
    set_object (object_of sl) (with_copies ob (insert_after p q (copies ob))) ;; install gd r q ;; ret r) s1 = x →
    cap_copy oob gs gd i nv nr s = x) as Run.
  { intros x <-. unfold cap_copy. erewrite bind_Done by (by eapply get_slot_of_ok). rewrite (proj2 (Z.eqb_neq _ 0)) by done.
    erewrite bind_Done by (by apply slot_of_ok). rewrite V. cbn [negb]. erewrite bind_Done by exact Ea.
    by rewrite (proj2 (Z.eqb_neq r (-1))) by lia. }
  pose proof (slot_memory s1 held W1 _ C1 Hm) as SM. unfold wph, on_al, zoom in SM.
  destruct (al_alloc SIZEOF_SLOT (al s1)) as [q a1|a1| | |] eqn:Eq; [|done|apply Run; unfold bind, on_al, zoom; by rewrite Eq|done|done].
  destruct SM as (a' & Ea' & SM). injection Ea' as ->.
  assert (on_al (al_alloc SIZEOF_SLOT) s1 = Done q (with_al a' s1)) as Eq' by (unfold on_al; by apply zoom_Done).
  destruct SM as [[-> C2]|(Hq & Nq & HH)].
  { rewrite Z.eqb_refl. destruct (release_spec _ _ _ _ _ C2) as (s3 & E3 & SR3 & EC3 & C3). exists s3. split.
    { apply Run. erewrite bind_Done by exact Eq'. rewrite Z.eqb_refl. by erewrite bind_Done by exact E3. }
    split; [by exists W1|]. apply unchanged_rest; [by eapply same_rest_trans; [|exact SR3]|]. intros h j. rewrite EC3. apply EC. }
  rewrite (proj2 (Z.eqb_neq q 0)) by done. pose proof SR as (Eo & Esm & _ & Eg).
  destruct (reserved_table _ _ _ _ _ C1) as (c1 & Hg1 & _).
  destruct (install_spec _ _ _ _ _ q _ C1 Hg1 Hq) as (t' & T' & S' & A' & C' & EI).
  assert (∃ c, groups s1 !! gs = Some c) as [c2 Hg2] by (apply elem_of_dom; rewrite Eg; by eapply elem_of_dom_2).
  assert (get_slot_of gs i (with_al a' s1) = Done (cap_id s gs i) (with_al a' s1)) as EG.
  { pose proof (get_slot_of_ok _ _ _ _ _ _ _ C1 Hg2 Hi) as EG. rewrite EC in EG. unfold get_slot_of in *.
    erewrite bind_Done in EG by (by apply group_at_ok). erewrite bind_Done by (by apply group_at_ok).
    revert EG. unfold need. by destruct (get_slot i (slot_tbl c2)); intros [= ->]. }
  rewrite <- Eo in Ho. destruct (lo_obj _ _ _ _ (co_links _ _ _ _ C1) _ _ Ho) as (O1 & O2 & O3 & O4 & O5 & O6).
  assert (q ∉ copies ob) as Nc.
  { intros Hin. destruct (O3 q Hin) as (sq & Hsq & _). rewrite (new_cap_fresh _ _ _ _ _ _ C1 Nq) in Hsq. congruence. }
  destruct (insert_after_ok _ _ _ Hc Nc O2) as (I1 & I2 & I3).
  assert (refcount ob + 1 < 2 ^ 64) as Hr1 by (apply (Cn (object_of sl)); by rewrite <- Eo).
  exists (with_cap gd c1 t' q (mk_slot r gd true (if nv then nr else rights sl) (object_of sl)) (object_of sl)
    (mk_object (type ob) (size ob) (insert_after (cap_id s gs i) q (copies ob)) (head_init ob) (refcount ob + 1)) a' s1). split.
  { apply Run. erewrite bind_Done by exact Eq'. rewrite (proj2 (Z.eqb_neq q 0)) by done. erewrite bind_Done by exact EG.
    erewrite bind_Done by (apply slot_of_ok; simpl; rewrite Esm; exact Hsl).
    erewrite bind_Done. 2: { unfold ref_add. erewrite bind_Done by (by apply object_at_ok). reflexivity. }
    erewrite bind_Done by reflexivity. erewrite bind_Done by (apply object_at_ok; simpl; by rewrite lookup_insert_eq).
    erewrite bind_Done by reflexivity. erewrite bind_Done by (by apply EI). unfold ret. f_equal.
    unfold with_cap, put_table, with_objects, with_refcount, with_copies. simpl. rewrite u64_id by (unfold is_u64; lia).
    by rewrite insert_insert_eq. }
  split; [exists (<[q := WSlot]> W1); by apply new_cap_ok|]. split; [lia|].
  split; [rewrite <- (view_same s s1) by done; by eapply reserved_view|].
  intros h j. erewrite new_cap_view by eassumption. case_decide; [done|]. by apply view_same.
Qed.

(** Without a capability to copy. *)
Lemma cap_copy_none oob s held W gs gd cs i nv nr : caps_ok s held W None → groups s !! gs = Some cs → is_int i →
  cap_view s gs i = None → cap_copy oob gs gd i nv nr s = Done (- ECAPBILITY) s.
Proof.
  intros C Hs Hi Hv. unfold cap_copy. erewrite bind_Done by (by eapply get_slot_of_ok).
  destruct (Z.eqb_spec (cap_id s gs i) 0) as [Ez|Nz]; [done|].
  destruct (cap_present _ _ _ _ _ _ C Nz) as (sl & ob & _ & _ & _ & _ & _ & _ & HV). congruence.
Qed.

(** The allocator stops the kernel. *)
Lemma cap_copy_halt oob s held W gs gd cs i nv nr o rt : caps_ok s held W None → groups s !! gs = Some cs → is_int i →
  cap_view s gs i = Some (o, rt) → alloc_slot oob gd s = Halt → cap_copy oob gs gd i nv nr s = Halt.
Proof.
  intros C Hs Hi Hv Ea. assert (cap_id s gs i ≠ 0) as Nz by (intros Ez; by rewrite (cap_absent _ _ _ _ _ _ C Ez) in Hv).
  destruct (cap_present _ _ _ _ _ _ C Nz) as (sl & ob & Hsl & V & _). unfold cap_copy. erewrite bind_Done by (by eapply get_slot_of_ok).
  rewrite (proj2 (Z.eqb_neq _ 0)) by done. erewrite bind_Done by (by apply slot_of_ok). rewrite V. cbn [negb]. by apply bind_Halt.
Qed.

Lemma cap_copy_spec oob s held W gs gd cs cd i nv nr : caps_ok s held W None → countable s →
  groups s !! gs = Some cs → groups s !! gd = Some cd → room (slot_tbl cd) → SIZEOF_SLOT ≤ max_size → is_int i →
  (∀ s1, alloc_slot oob gd s ≠ Done (- ENOMEM) s1) →
  wph (cap_copy oob gs gd i nv nr) (λ r s', (∃ W', caps_ok s' held W' None) ∧ copied s gs gd i nv nr r s') s.
Proof.
  intros C Cn Hs Hd Rm Hm Hi NE. unfold wph, copied. destruct (cap_view s gs i) as [[o rt]|] eqn:Hv.
  2: { erewrite cap_copy_none by done. split; [by exists W|by left]. }
  pose proof (alloc_slot_spec oob s held W gd cd C Hd Rm) as AS. unfold wph in AS.
  destruct (alloc_slot oob gd s) as [r s1|s1| | |] eqn:Ea; [|done| |done|done].
  - destruct AS as (W1 & _ & _ & [[-> _]|[Hr _]]); [by destruct (NE s1)|].
    pose proof (cap_copy_run oob s held W gs gd cs cd i nv nr o rt r s1 C Cn Hs Hd Rm Hm Hi Hv Ea (proj1 Hr)) as H.
    destruct (al_alloc SIZEOF_SLOT (al s1)) as [q a1|a1| | |]; [|by rewrite H..]. destruct H as (s' & -> & C' & H). split; [done|].
    right. destruct (q =? 0); [by left|right]. destruct H as (H1 & H2 & H3). split_and!; [lia|lia|done|]. by exists o, rt.
  - by erewrite cap_copy_halt.
Qed.

Lemma view_present s held W R g i o rt : caps_ok s held W R → cap_view s g i = Some (o, rt) → ∃ sl ob cg,
  slotmem s !! cap_id s g i = Some sl ∧ cap_group_of sl = g ∧ slot_id sl = i ∧ object_of sl = o ∧ rights sl = rt ∧
  objects s !! o = Some ob ∧ cap_id s g i ∈ copies ob ∧ groups s !! g = Some cg.
Proof.
  intros C Hv. destruct (decide (cap_id s g i = 0)) as [Ez|Nz]; [by rewrite (cap_absent _ _ _ _ _ _ C Ez) in Hv|].
  destruct (cap_present _ _ _ _ _ _ C Nz) as (sl & ob & H1 & _ & H3 & H4 & H5 & H6 & HV). rewrite Hv in HV.
  injection HV as -> ->. assert (∃ cg, groups s !! g = Some cg) as [cg Hg].
  { unfold cap_id in Nz. destruct (groups s !! g) as [cg|]; [by exists cg|done]. }
  exists sl, ob, cg. done.
Qed.

(** ** Running out of ids

    [cap_copy] compares the id with -1; [alloc_slot_id] fails with [-ENOMEM]:
    the copy goes on with a negative id and never returns. *)

Lemma bad_id t R q : table_ok t R → slots_size t < 2 ^ 31 →
  free_slot_id (- ENOMEM) t = None ∧ install_slot (- ENOMEM) q t = None.
Proof.
  intros T Sz. destruct (to_bmp _ _ T) as [_ Hb].
  assert (Bitops.word_at (slots_bmp t) (u32 (- ENOMEM) / Bitops.BITS_PER_LONG) = None) as E0.
  { apply lookup_ge_None_2. change (u32 (- ENOMEM) / Bitops.BITS_PER_LONG) with 67108863. lia. }
  unfold free_slot_id, install_slot, Bitops.clear_bit, Bitops.get_bit. by rewrite E0.
Qed.

Lemma bad_id_faults s held W R g cg q : caps_ok s held W R → groups s !! g = Some cg → ∀ s' : kst, groups s' = groups s →
  free_slot g (- ENOMEM) s' = Fault ∧ install g (- ENOMEM) q s' = Fault.
Proof.
  intros C Hg s' Es. destruct (co_table _ _ _ _ C g cg Hg) as [T Sz]. destruct (bad_id _ _ q T Sz) as [E1 E2].
  rewrite <- Es in Hg. split.
  - unfold free_slot. erewrite bind_Done by (by apply group_at_ok). by rewrite E1.
  - unfold install. erewrite bind_Done by (by apply group_at_ok). by rewrite E2.
Qed.

(** A step that leaves the groups alone. *)
Ltac groups_kept := unfold get_slot_of, group_at, slot_of, ref_add, object_at, set_object, set_slot, bind, get, need, modify, ret, fault;
  intros; repeat case_match; by simplify_eq/=.

Lemma cap_copy_full oob s held W gs gd cs cd i nv nr s1 : caps_ok s held W None → room (slot_tbl cd) → is_int i →
  groups s !! gs = Some cs → groups s !! gd = Some cd → cap_view s gs i ≠ None →
  alloc_slot oob gd s = Done (- ENOMEM) s1 → ∀ r s', cap_copy oob gs gd i nv nr s ≠ Done r s'.
Proof.
  intros C Rm Hi Hs Hd Hv Ea r s' Run. destruct (cap_view s gs i) as [[o rt]|] eqn:Ev; [|done].
  destruct (view_present _ _ _ _ _ _ _ _ C Ev) as (sl & ob & _ & Hsl & _).
  destruct (lo_slot _ _ _ _ (co_links _ _ _ _ C) _ _ Hsl) as (P0 & V & _).
  pose proof (alloc_slot_spec oob _ _ _ _ _ C Hd Rm) as AS. unfold wph in AS. rewrite Ea in AS.
  destruct AS as (W1 & SR & _ & [[_ C1]|[? _]]); [|by change ENOMEM with 12 in *; lia].
  assert (∃ c, groups s1 !! gd = Some c) as [c Hc] by (apply elem_of_dom; rewrite (proj2 (proj2 (proj2 SR))); by eapply elem_of_dom_2).
  unfold cap_copy in Run. erewrite bind_Done in Run by (by eapply get_slot_of_ok).
  rewrite (proj2 (Z.eqb_neq _ 0)) in Run by done. erewrite bind_Done in Run by (by apply slot_of_ok).
  rewrite V in Run. cbn [negb] in Run. erewrite bind_Done in Run by exact Ea.
  change (- ENOMEM =? -1) with false in Run. cbv iota in Run.
  apply bind_inv in Run as (q & s2 & E2 & Run). assert (groups s2 = groups s1) as G2.
  { unfold on_al, zoom in E2. destruct (al_alloc SIZEOF_SLOT (al s1)); naive_solver. }
  destruct (bad_id_faults _ _ _ _ _ _ q C1 Hc s2 G2) as [F1 _]. destruct (q =? 0).
  { apply bind_inv in Run as (? & ? & E3 & _). by rewrite F1 in E3. }
  apply bind_inv in Run as (p' & s3 & E3 & Run). apply bind_inv in Run as (sl' & s4 & E4 & Run).
  apply bind_inv in Run as (u5 & s5 & E5 & Run). apply bind_inv in Run as (u6 & s6 & E6 & Run).
  apply bind_inv in Run as (ob7 & s7 & E7 & Run). apply bind_inv in Run as (u8 & s8 & E8 & Run).
  apply bind_inv in Run as (u9 & s9 & E9 & _).
  assert (groups s8 = groups s1) as G8; [|by rewrite (proj2 (bad_id_faults _ _ _ _ _ _ q C1 Hc s8 G8)) in E9].
  rewrite <- G2. assert (groups s3 = groups s2) as <- by (revert E3; clear; groups_kept).
  assert (groups s4 = groups s3) as <- by (revert E4; clear; groups_kept).
  assert (groups s5 = groups s4) as <- by (revert E5; clear; groups_kept).
  assert (groups s6 = groups s5) as <- by (revert E6; clear; groups_kept).
  assert (groups s7 = groups s6) as <- by (revert E7; clear; groups_kept). revert E8. clear. groups_kept.
Qed.

(** ** Removing a capability *)

Lemma container_opaque o : container_of (opaque o) = o.
Proof. unfold container_of, opaque. lia. Qed.

(** The last reference to an object that is not a group goes. *)
Lemma kfree_object_spec s held W o ob : caps_ok s held W None → objects s !! o = Some ob → copies ob = [] →
  type ob ≠ TYPE_CAP_GROUP → ∃ s', kfree_object o s = Done tt s' ∧ objects s' = delete o (objects s) ∧
  slotmem s' = slotmem s ∧ groups s' = groups s ∧ ext s' = ext s ∧ caps_ok s' held (delete o W) None.
Proof.
  intros [[M1 M2 M3 M4] T L G R] Ho Hc Ht.
  assert (W !! o = Some WObj) as Hw by (apply M2; by eexists).
  destruct (free_holds (al s) (dom W) o M1) as (a' & Ea & HH); [by eapply elem_of_dom_2|].
  assert (groups s !! opaque o = None) as Ng.
  { destruct (groups s !! opaque o) as [cg|] eqn:Eg; [|done]. destruct (G _ _ Eg) as (x & Hx & Tx).
    rewrite container_opaque in Hx. congruence. }
  exists (with_groups (groups s) (with_objects (delete o (objects s)) (with_al a' s))). split.
  { unfold kfree_object. erewrite bind_Done by (by apply zoom_Done). unfold modify. simpl. by rewrite delete_id. }
  split_and!; try done. split.
  - split; simpl.
    + by rewrite dom_delete_L.
    + intros p. rewrite lookup_delete_Some, M2. destruct (decide (o = p)) as [<-|N]; [rewrite lookup_delete_eq|rewrite lookup_delete_ne by done].
      * split; [naive_solver|]. by intros [? ?].
      * naive_solver.
    + intros p. rewrite lookup_delete_Some, <- M3. split; [naive_solver|]. intros Hp. split; [congruence|done].
    + intros p g. rewrite lookup_delete_Some, <- M4. split; [naive_solver|]. intros Hp. split; [congruence|done].
  - exact T.
  - by apply (links_drop _ _ _ _ o ob).
  - intros g cg Hg. destruct (G g cg Hg) as (x & Hx & Tx). exists x. simpl. rewrite lookup_delete_ne; [done|].
    intros Eo. rewrite Eo in Ho. congruence.
  - done.
Qed.

Section del_cap.
Context (s : kst) (held : Z → Z) (W : gmap Z who) (g i : Z) (cg : cap_group) (t' : slot_table) (a' : A).
Context (sl : object_slot) (ob : object).
Hypothesis C : caps_ok s held W None.
Hypothesis Hg : groups s !! g = Some cg.
Hypothesis T' : table_ok t' ∅.
Hypothesis S' : slots_size t' = slots_size (slot_tbl cg).
Hypothesis A' : arrays t' = arrays (slot_tbl cg).
Hypothesis C' : ∀ j, cap_at t' j = if decide (j = i) then 0 else cap_at (slot_tbl cg) j.
Hypothesis Hsl : slotmem s !! cap_id s g i = Some sl.
Hypothesis Eg : cap_group_of sl = g.
Hypothesis Ei : slot_id sl = i.
Hypothesis Ho : objects s !! object_of sl = Some ob.
Hypothesis HH : holds a' (dom W ∖ {[cap_id s g i]}).

Let p := cap_id s g i.
Let s' := with_objects
  (<[object_of sl := mk_object (type ob) (size ob) (filter (λ q, q ≠ p) (copies ob)) (head_init ob) (refcount ob - 1)]> (objects s))
  (with_slotmem (delete p (slotmem s)) (with_al a' (put_table g cg t' s))).

Lemma del_cap_id h j : cap_id s' h j = fupd2 (cap_id s) g i 0 h j.
Proof.
  change (cap_id s' h j) with (cap_id (put_table g cg t' s) h j). rewrite cap_id_put_table. unfold fupd2. case_decide as D.
  - subst h. rewrite C'. unfold cap_id. rewrite Hg. case_decide as D.
    + by rewrite decide_True.
    + by rewrite decide_False by naive_solver.
  - by rewrite decide_False by naive_solver.
Qed.

Lemma del_cap_ok : caps_ok s' held (delete p W) None.
Proof.
  destruct C as [[M1 M2 M3 M4] T L G R].
  assert (W !! p = Some WSlot) as Hw by (apply M3; by eexists). split.
  - assert (mem_ok (with_slotmem (delete p (slotmem s)) (with_al a' s)) (delete p W)) as M'.
    { split; simpl.
      - by rewrite dom_delete_L.
      - intros x. rewrite lookup_delete_Some, <- M2. split; [naive_solver|]. intros Hx. split; [congruence|done].
      - intros x. rewrite lookup_delete_Some, M3. destruct (decide (p = x)) as [<-|N];
          [rewrite lookup_delete_eq|rewrite lookup_delete_ne by done]; [|naive_solver].
        split; [naive_solver|]. by intros [? ?].
      - intros x h. rewrite lookup_delete_Some, <- M4. split; [naive_solver|]. intros Hx. split; [congruence|done]. }
    apply (mem_put_table _ _ g cg t') in M'; [|done|done].
    apply (mem_set_object (put_table g cg t' (with_slotmem (delete p (slotmem s)) (with_al a' s)))); [exact M'|].
    exists ob. exact Ho.
  - intros h ch Hh. simpl in Hh. apply lookup_insert_Some in Hh as [[<- <-]|[Nh Hh]]; [|exact (T h ch Hh)].
    simpl. rewrite S'. split; [done|]. by apply (T g cg).
  - apply (links_ext (fupd2 (cap_id s) g i 0)); [exact del_cap_id|]. rewrite <- Eg, <- Ei.
    by apply (links_del _ _ _ _ p sl ob).
  - intros h ch Hh. simpl in Hh. simpl. eapply group_set_object; [exact Ho|done|].
    apply lookup_insert_Some in Hh as [[<- <-]|[Nh Hh]]; [by apply (G g cg)|by apply (G h ch)].
  - done.
Qed.

Lemma del_cap_view h j : cap_view s' h j = if decide (h = g ∧ j = i) then None else cap_view s h j.
Proof.
  pose proof (co_links _ _ _ _ C) as L. destruct (lo_slot _ _ _ _ L _ _ Hsl) as (P0 & _).
  unfold cap_view. rewrite del_cap_id. unfold fupd2. simpl. case_decide as D.
  - destruct (slotmem s !! 0) eqn:Es; [by destruct (lo_slot _ _ _ _ L _ _ Es)|]. rewrite lookup_delete_ne by done. by rewrite Es.
  - destruct (decide (p = cap_id s h j)) as [E1|N]; [|by rewrite lookup_delete_ne]. exfalso.
    destruct (lo_cap _ _ _ _ L h j) as (sh & Hsh & E2 & E3); [by rewrite <- E1|]. rewrite <- E1 in Hsh.
    unfold p in Hsh. rewrite Hsl in Hsh. injection Hsh as <-. apply D. split; congruence.
Qed.

End del_cap.

(** The object [o] after one of its capabilities, in slot [p], went: freed with
    the last reference. *)
Definition objects_less (s : kst) (o p : Z) (ob : object) : gmap Z object :=
  if decide (refcount ob = 1) then delete o (objects s)
  else <[o := mk_object (type ob) (size ob) (filter (λ q, q ≠ p) (copies ob)) (head_init ob) (refcount ob - 1)]> (objects s).

(** Objects whose last reference may go: freeing a group would leave its table
    behind. *)
Definition may_drop (ob : object) : Prop := type ob ≠ TYPE_CAP_GROUP ∨ refcount ob ≠ 1.


Context (obj_deinit : Z → Z → M E unit).

(** What the deinitialiser does when a capability for [o] goes: it is called with the
    last reference. *)
Definition deinit_run (s : kst) (o : Z) (ob : object) : outcome E unit :=
  if decide (refcount ob = 1) then obj_deinit (type ob) (opaque o) (ext s) else Done tt (ext s).

Lemma with_ext_ok s held W R e : caps_ok s held W R → caps_ok (with_ext e s) held W R.
Proof. intros [[M1 M2 M3 M4] T L G RR]. by split. Qed.

(** Capability [i] of [g], in slot [p] and for [o], is gone from [s] to [s']. *)
Definition cap_gone (held : Z → Z) (g i o : Z) (ob : object) (s s' : kst) : Prop :=
  (∃ W', caps_ok s' held W' None) ∧ objects s' = objects_less s o (cap_id s g i) ob ∧
  ∀ h j, cap_view s' h j = if decide (h = g ∧ j = i) then None else cap_view s h j.

Lemma __cap_free_spec s held W g i cg sl ob : caps_ok s held W None → groups s !! g = Some cg →
  slotmem s !! cap_id s g i = Some sl → objects s !! object_of sl = Some ob → may_drop ob →
  cap_group_of sl = g → slot_id sl = i →
  match deinit_run s (object_of sl) ob with
  | Done _ e => ∃ s', __cap_free obj_deinit g i s = Done 0 s' ∧ ext s' = e ∧ cap_gone held g i (object_of sl) ob s s'
  | Away e => ∃ s', __cap_free obj_deinit g i s = Away s' ∧ ext s' = e
  | Halt => __cap_free obj_deinit g i s = Halt
  | Fault => __cap_free obj_deinit g i s = Fault
  | Spin => __cap_free obj_deinit g i s = Spin
  end.
Proof.
  intros C Hg Hsl Ho Md Eg Ei. pose proof (co_links _ _ _ _ C) as L.
  destruct (lo_slot _ _ _ _ L _ _ Hsl) as (P0 & V & Hi & _ & _). rewrite Ei in Hi.
  destruct (co_table _ _ _ _ C g cg Hg) as [T Sz]. simpl in T.
  assert (0 ≤ i < slots_size (slot_tbl cg)) as Hin.
  { destruct (decide (0 ≤ i < slots_size (slot_tbl cg))) as [|N]; [done|]. destruct P0. unfold cap_id.
    rewrite Hg. by apply cap_at_out. }
  destruct (free_slot_id_ok _ _ _ T Sz Hin) as (t' & Et & T' & A' & S' & C'). assert (∅ ∖ {[i]} =@{gset Z} ∅) as Ee by set_solver. rewrite Ee in T'.
  destruct (lo_obj _ _ _ _ L _ _ Ho) as (O1 & O2 & O3 & O4 & O5 & O6).
  destruct (links_del _ _ _ _ _ _ _ L Hsl Ho) as (_ & Hc & Hr).
  destruct (free_holds (al s) (dom W) (cap_id s g i) (mo_heap _ _ (co_mem _ _ _ _ C))) as (a' & Ea & HH).
  { apply elem_of_dom. exists WSlot. apply (mo_slot _ _ (co_mem _ _ _ _ C)). by eexists. }
  pose proof (del_cap_ok s held W g i cg t' a' sl ob C Hg T' S' A' C' Hsl Eg Ei Ho HH) as CD.
  pose proof (del_cap_view s held W g i cg t' a' sl ob C Hg C' Hsl Eg Ei) as VD. simpl in VD.
  set (s3 := with_objects _ _) in CD, VD.
  assert (∀ k : Z → Z → M kst Z, (p <- get_slot_of g i ;; if p =? 0 then ret (- ECAPBILITY) else
    sl <- slot_of p ;; if negb (isvalid sl) then ret (- ECAPBILITY) else
    free_slot g i ;; let o := object_of sl in unlink_copy o p ;; kfree_slot p ;; n <- ref_sub o ;; k o n) s = k (object_of sl) (refcount ob) s3) as Run.
  { intros k. erewrite bind_Done by (eapply get_slot_of_ok; [done|done|unfold is_int; lia]).
    rewrite (proj2 (Z.eqb_neq _ 0)) by done. erewrite bind_Done by (by apply slot_of_ok). rewrite V. cbn [negb].
    erewrite bind_Done. 2: { unfold free_slot. erewrite bind_Done by (by apply group_at_ok). rewrite Et.
      erewrite bind_Done by reflexivity. by apply set_table_ok. }
    cbv zeta. erewrite bind_Done. 2: { unfold unlink_copy. erewrite bind_Done by (by apply object_at_ok). reflexivity. }
    erewrite bind_Done. 2: { unfold kfree_slot. erewrite bind_Done by (by apply zoom_Done). reflexivity. }
    erewrite bind_Done. 2: { unfold ref_sub. erewrite bind_Done by (apply object_at_ok; simpl; by rewrite lookup_insert_eq).
      reflexivity. }
    simpl. f_equal. unfold s3, with_objects, with_refcount, with_copies. simpl.
    by rewrite insert_insert_eq, u64_id by (unfold is_u64; lia). }
  unfold __cap_free. rewrite (Run (λ o old_refcount, if old_refcount =? 1 then
    ob <- object_at o ;; on_ext (obj_deinit (type ob) (opaque o)) ;; ob <- object_at o ;;
    if refcount ob =? 0 then empty <- copies_empty o ;; BUG_ON (negb empty) ;; kfree_object o ;; ret 0 else ret 0
    else ret 0)). clear Run.
  assert (objects s3 !! object_of sl = Some (mk_object (type ob) (size ob) (filter (λ q, q ≠ cap_id s g i) (copies ob)) (head_init ob) (refcount ob - 1)))
    as Ho3 by (simpl; by rewrite lookup_insert_eq).
  unfold cap_gone, objects_less, deinit_run. case_decide as D; [rewrite D, Z.eqb_refl|rewrite (proj2 (Z.eqb_neq _ 1)) by done].
  2: { exists s3. split; [reflexivity|]. split; [done|]. split; [by eexists|]. split; [done|exact VD]. }
  erewrite bind_Done by (by apply object_at_ok). cbn [type].
  destruct (obj_deinit (type ob) (opaque (object_of sl)) (ext s)) as [[] e|e| | |] eqn:Ed;
    [|exists (with_ext e s3); split; [|done]|..]; try (unfold bind, on_ext, zoom; change (ext s3) with (ext s); by rewrite Ed).
  erewrite bind_Done by (unfold on_ext; by apply zoom_Done).
  assert (filter (λ q, q ≠ cap_id s g i) (copies ob) = []) as Ef.
  { apply nil_length_inv. pose proof (length_filter_ne _ _ O2 Hc). lia. }
  erewrite bind_Done by (apply object_at_ok; exact Ho3). cbn [refcount]. rewrite (proj2 (Z.eqb_eq _ 0)) by lia.
  assert (type ob ≠ TYPE_CAP_GROUP) as Nt by (destruct Md; [done|lia]). assert (head_init ob = true) as HI by (by destruct O1).
  erewrite bind_Done. 2: { unfold copies_empty. erewrite bind_Done by (apply object_at_ok; exact Ho3). cbn [head_init copies].
    rewrite HI, Ef. reflexivity. }
  cbn [negb]. erewrite bind_Done by reflexivity.
  destruct (kfree_object_spec (with_ext e s3) held (delete (cap_id s g i) W) (object_of sl) _ (with_ext_ok _ _ _ _ e CD) Ho3)
    as (s4 & E4 & Eo & Esm & Egr & Eex & C4); [exact Ef|done|].
  erewrite bind_Done by exact E4. exists s4. split; [reflexivity|]. split; [by rewrite Eex|]. split; [by eexists|].
  split; [rewrite Eo; simpl; by rewrite delete_insert_eq|]. intros h j. rewrite <- VD. unfold cap_view, cap_id. by rewrite Egr, Esm.
Qed.

(** A capability that is not the last reference goes without the deinitialiser. *)
Lemma __cap_free_more s held W g i cg sl ob : caps_ok s held W None → groups s !! g = Some cg →
  slotmem s !! cap_id s g i = Some sl → objects s !! object_of sl = Some ob → refcount ob ≠ 1 →
  cap_group_of sl = g → slot_id sl = i →
  ∃ s', __cap_free obj_deinit g i s = Done 0 s' ∧ cap_gone held g i (object_of sl) ob s s'.
Proof.
  intros C Hg Hsl Ho Nr Eg Ei. pose proof (__cap_free_spec s held W g i cg sl ob C Hg Hsl Ho (or_intror Nr) Eg Ei) as H.
  unfold deinit_run in H. rewrite decide_False in H by done. destruct H as (s' & E' & _ & H). by exists s'.
Qed.

(** ** References *)

Lemma caps_held_ext s held held' W R : (∀ o, held' o = held o) → caps_ok s held W R → caps_ok s held' W R.
Proof.
  intros H [M T [L1 L2 L3] G RR]. split; try done. split; [done|done|]. intros o ob Ho. rewrite H. by apply L3.
Qed.

Lemma caps_held s held W R o ob n : caps_ok s held W R → objects s !! o = Some ob → 0 ≤ held o + n →
  refcount ob + n < 2 ^ 64 →
  caps_ok (with_objects (<[o := with_refcount ob (refcount ob + n)]> (objects s)) s) (fupd held o (held o + n)) W R.
Proof.
  intros [M T L G RR] Ho H1 H2. split.
  - apply mem_set_object; [done|by eexists].
  - exact T.
  - by apply links_held.
  - intros h ch Hh. simpl. eapply group_set_object; [exact Ho|done|]. by apply (G h ch).
  - done.
Qed.

(** The references of an object: its capabilities and those held. *)
Lemma object_count s held W R o ob : caps_ok s held W R → objects s !! o = Some ob →
  (head_init ob = true ∨ type ob = TYPE_CAP_GROUP) ∧ NoDup (copies ob) ∧ refcount ob = Z.of_nat (length (copies ob)) + held o ∧ 0 ≤ held o ∧
  refcount ob < 2 ^ 64 ∧ 0 < o.
Proof.
  intros C Ho. destruct (lo_obj _ _ _ _ (co_links _ _ _ _ C) _ _ Ho) as (O1 & O2 & O3 & O4 & O5 & O6). split_and!; try done.
  pose proof (co_mem _ _ _ _ C) as M. apply (holds_pos _ _ _ (mo_heap _ _ M)), elem_of_dom. exists WObj.
  apply (mo_obj _ _ M). by eexists.
Qed.

Definition got (s : kst) (g i : Z) (ty : option Z) (held : Z → Z) (W : gmap Z who) (r : Z) (s' : kst) : Prop :=
  (r = 0 ∧ s' = s ∧ ∀ o rt ob, cap_view s g i = Some (o, rt) → objects s !! o = Some ob → ∃ t, ty = Some t ∧ type ob ≠ t) ∨
  (∃ o rt ob, r = opaque o ∧ cap_view s g i = Some (o, rt) ∧ objects s !! o = Some ob ∧
   (∀ t, ty = Some t → type ob = t) ∧ s' = with_objects (<[o := with_refcount ob (refcount ob + 1)]> (objects s)) s ∧
   caps_ok s' (fupd held o (held o + 1)) W None).

Lemma get_opaque_spec s held W g cg i ty : caps_ok s held W None → countable s → groups s !! g = Some cg → is_int i →
  i < slots_size (slot_tbl cg) → ∃ r s', get_opaque g i ty s = Done r s' ∧ got s g i ty held W r s'.
Proof.
  intros C Cn Hg Hi Hl. destruct (co_table _ _ _ _ C g cg Hg) as [T Sz]. unfold get_opaque.
  erewrite bind_Done. 2: { unfold valid_slot. erewrite bind_Done by (by apply group_at_ok).
    rewrite (is_valid_slot_id_ok _ _ T Sz Hi Hl). erewrite bind_Done by reflexivity. reflexivity. }
  assert (cap_at (slot_tbl cg) i = cap_id s g i) as -> by (unfold cap_id; by rewrite Hg).
  destruct (Z.eqb_spec (cap_id s g i) 0) as [Ez|Nz]; cbn [negb].
  { exists 0, s. split; [done|]. left. split_and!; try done. intros o rt ob. by rewrite (cap_absent _ _ _ _ _ _ C Ez). }
  destruct (cap_present _ _ _ _ _ _ C Nz) as (sl & ob & Hsl & V & _ & _ & Ho & Hc & HV).
  destruct (object_count _ _ _ _ _ _ C Ho) as (O1 & O2 & O4 & O5 & O6 & O7). pose proof (Cn _ _ Ho) as Hr.
  erewrite bind_Done by (by eapply get_slot_of_ok). erewrite bind_Done by (by apply slot_of_ok).
  rewrite V. cbn [negb]. erewrite bind_Done by reflexivity. rewrite (proj2 (Z.eqb_neq (object_of sl) 0)) by lia.
  erewrite bind_Done by reflexivity. erewrite bind_Done by (by apply object_at_ok).
  destruct (match ty with Some t => type ob =? t | None => true end) eqn:Et.
  - erewrite bind_Done. 2: { unfold ref_add. erewrite bind_Done by (by apply object_at_ok). reflexivity. }
    rewrite u64_id by (unfold is_u64; lia). eexists _, _. split; [reflexivity|]. right.
    exists (object_of sl), (rights sl), ob. split_and!; try done.
    + intros t ->. by apply Z.eqb_eq.
    + apply caps_held; [done|done|lia|lia].
  - exists 0, s. split; [done|]. left. split_and!; try done. intros o rt ob' Hv Ho'. rewrite HV in Hv.
    injection Hv as <- <-. rewrite Ho in Ho'. injection Ho' as <-. destruct ty as [t|]; [|done].
    exists t. split; [done|]. by apply Z.eqb_neq.
Qed.

(** An id past the table: the bitmap is read behind its end. *)
Lemma get_opaque_oob s held W g cg i ty : caps_ok s held W None → groups s !! g = Some cg → is_int i → slots_size (slot_tbl cg) ≤ i →
  get_opaque g i ty s = Fault.
Proof.
  intros C Hg Hi Hl. destruct (co_table _ _ _ _ C g cg Hg) as [T Sz]. unfold is_int in Hi. unfold get_opaque, valid_slot.
  unfold bind at 1. erewrite bind_Done by (by apply group_at_ok). by rewrite (is_valid_slot_id_oob _ _ i T) by lia.
Qed.

Lemma obj_put_spec s held W o ob : caps_ok s held W None → objects s !! o = Some ob → 1 ≤ held o → may_drop ob →
  ∃ s', obj_put (opaque o) s = Done tt s' ∧ (∃ W', caps_ok s' (fupd held o (held o - 1)) W' None) ∧
  objects s' = (if decide (refcount ob = 1) then delete o (objects s)
                else <[o := with_refcount ob (refcount ob - 1)]> (objects s)) ∧
  groups s' = groups s ∧ ∀ h j, cap_view s' h j = cap_view s h j.
Proof.
  intros C Ho Hh Md. destruct (object_count _ _ _ _ _ _ C Ho) as (O1 & O2 & O4 & O5 & O6 & O7).
  pose proof (caps_held s held W None o ob (-1) C Ho ltac:(lia) ltac:(lia)) as C1.
  unfold obj_put. rewrite container_opaque. erewrite bind_Done.
  2: { unfold ref_sub. erewrite bind_Done by (by apply object_at_ok). reflexivity. }
  rewrite u64_id by (unfold is_u64; lia). case_decide as D; [rewrite D; cbn [Z.eqb Pos.eqb]|rewrite (proj2 (Z.eqb_neq _ 1)) by done].
  - rewrite D in C1. edestruct kfree_object_spec as (s2 & E2 & Eo & Esm & Egr & _ & C2); [exact C1|simpl; by rewrite lookup_insert_eq| | |].
    + simpl. apply nil_length_inv. lia.
    + simpl. destruct Md; [done|lia].
    + exists s2. split; [exact E2|]. split; [by eexists|]. split; [rewrite Eo; simpl; by rewrite delete_insert_eq|].
      split; [done|]. intros h j. unfold cap_view, cap_id. by rewrite Egr, Esm.
  - eexists. split; [reflexivity|]. split; [by eexists|]. done.
Qed.

(** ** Revocation *)

(** A capability view without those of object [o]. *)
Definition without (o : Z) (v : option (Z * Z)) : option (Z * Z) :=
  match v with Some (o', rt) => if decide (o' = o) then None else v | None => None end.

Lemma free_copies_spec held o l : ∀ s W ob, caps_ok s held W None → objects s !! o = Some ob → copies ob = l → 1 ≤ held o →
  ∃ s', free_copies obj_deinit l s = Done tt s' ∧ (∃ W', caps_ok s' held W' None) ∧
  objects s' = <[o := mk_object (type ob) (size ob) [] (head_init ob) (held o)]> (objects s) ∧
  ∀ h j, cap_view s' h j = without o (cap_view s h j).
Proof.
  induction l as [|p l IH]; intros s W ob C Ho Hl Hh; pose proof (object_count _ _ _ _ _ _ C Ho) as (O1 & O2 & O4 & O5 & O6 & O7).
  - exists s. split; [done|]. split; [by exists W|]. split.
    + rewrite insert_id; [done|]. rewrite Ho. f_equal. rewrite Hl in O4. simpl in O4.
      destruct ob as [ty sz cs hi rc]; simpl in *. subst. done.
    + intros h j. destruct (cap_view s h j) as [[o' rt]|] eqn:Ev; [|done]. simpl. rewrite decide_False; [done|].
      intros ->. destruct (decide (cap_id s h j = 0)) as [Ez|Nz]; [by rewrite (cap_absent _ _ _ _ _ _ C Ez) in Ev|].
      destruct (cap_present _ _ _ _ _ _ C Nz) as (sl & ob' & _ & _ & _ & _ & Ho' & Hc & HV).
      rewrite Ev in HV. injection HV as -> ->. rewrite Ho in Ho'. injection Ho' as <-. rewrite Hl in Hc. by apply not_elem_of_nil in Hc.
  - assert (p ∈ copies ob) as Hp by (rewrite Hl; left).
    destruct (lo_obj _ _ _ _ (co_links _ _ _ _ C) _ _ Ho) as (_ & _ & O3 & _). destruct (O3 p Hp) as (sl & Hsl & Eo).
    destruct (lo_slot _ _ _ _ (co_links _ _ _ _ C) _ _ Hsl) as (P0 & _ & _ & Ec & _).
    assert (∃ cg, groups s !! cap_group_of sl = Some cg) as [cg Hg].
    { unfold cap_id in Ec. destruct (groups s !! cap_group_of sl) as [cg|]; [by exists cg|done]. }
    assert (refcount ob ≠ 1) as Nr by (rewrite O4, Hl; simpl; lia).
    rewrite <- Ec in Hsl. rewrite <- Eo in Ho.
    destruct (__cap_free_more s held W _ _ cg sl ob C Hg Hsl Ho Nr) as (s1 & E1 & (W1 & C1) & Ob1 & V1); [done|done|].
    unfold objects_less in Ob1. rewrite decide_False, Eo in Ob1 by done. rewrite Ec, Hl in Ob1.
    rewrite Hl in O2. apply NoDup_cons in O2 as [Np Nl]. rewrite filter_cons_False in Ob1 by (intros H; by apply H).
    rewrite filter_ne_notin in Ob1 by done.
    edestruct (IH s1 W1) as (s2 & E2 & C2 & Ob2 & V2); [exact C1|rewrite Ob1; by rewrite lookup_insert_eq|done|done|].
    exists s2. split. { simpl. rewrite Ec in Hsl. erewrite bind_Done by (by apply slot_of_ok).
      erewrite bind_Done by exact E1. rewrite Z.eqb_refl. cbn [negb]. erewrite bind_Done by reflexivity. exact E2. }
    split; [done|]. split; [rewrite Ob2, Ob1; by rewrite insert_insert_eq|].
    intros h j. rewrite V2, V1. case_decide as D; [|done]. destruct D as [-> ->]. unfold cap_view. rewrite Hsl. simpl.
    by rewrite Eo, decide_True.
Qed.

(** Revocation of the first group reads its list head, which is not initialised; that
    of another group whose last references are capabilities would leave its table
    behind. *)
Definition may_revoke (held : Z → Z) (o : Z) (ob : object) : Prop :=
  type ob ≠ TYPE_CAP_GROUP ∨ (held o ≠ 0 ∧ head_init ob = true).

(** No capability for [o] is left, and no other one is gone. *)
Definition revoked (held : Z → Z) (o : Z) (ob : object) (s s' : kst) : Prop :=
  (∃ W', caps_ok s' held W' None) ∧ (∀ h j, cap_view s' h j = without o (cap_view s h j)) ∧
  objects s' = if decide (held o = 0) then delete o (objects s)
               else <[o := mk_object (type ob) (size ob) [] true (held o)]> (objects s).

Lemma cap_revoke_spec s held W g cg i : caps_ok s held W None → countable s → groups s !! g = Some cg → is_int i →
  i < slots_size (slot_tbl cg) → (∀ o rt ob, cap_view s g i = Some (o, rt) → objects s !! o = Some ob → may_revoke held o ob) →
  match cap_view s g i with
  | None => cap_revoke obj_deinit g i s = Done (- ECAPBILITY) s
  | Some (o, _) => ∃ ob s', objects s !! o = Some ob ∧ cap_revoke obj_deinit g i s = Done 0 s' ∧ revoked held o ob s s'
  end.
Proof.
  intros C Cn Hg Hi Hl Md. unfold cap_revoke.
  destruct (get_opaque_spec s held W g cg i None C Cn Hg Hi Hl) as (r & s1 & E1 & G). erewrite bind_Done by exact E1.
  destruct G as [(-> & -> & Hn)|(o & rt & ob & -> & Hv & Ho & _ & Es1 & C1)].
  { destruct (decide (cap_id s g i = 0)) as [Ez|Nz]; [by rewrite (cap_absent _ _ _ _ _ _ C Ez)|].
    destruct (cap_present _ _ _ _ _ _ C Nz) as (sl & ob & _ & _ & _ & _ & Ho & _ & HV). by destruct (Hn _ _ _ HV Ho) as (t & [=] & _). }
  rewrite Hv.
  destruct (object_count _ _ _ _ _ _ C Ho) as (O1 & O2 & O4 & O5 & O6 & O7).
  assert (head_init ob = true) as HI by (destruct (Md _ _ _ Hv Ho) as [?|[_ ?]]; [by destruct O1|done]).
  assert (objects s1 !! o = Some (with_refcount ob (refcount ob + 1))) as Ho1 by (rewrite Es1; simpl; by rewrite lookup_insert_eq).
  assert (1 ≤ fupd held o (held o + 1) o) as Hh by (unfold fupd; rewrite decide_True by done; lia).
  destruct (free_copies_spec _ o (copies ob) s1 W _ C1 Ho1 eq_refl Hh) as (s2 & E2 & (W2 & C2) & Ob2 & V2).
  assert (fupd held o (held o + 1) o = held o + 1) as Ef by (unfold fupd; by rewrite decide_True). rewrite Ef in Ob2.
  assert (opaque o ≠ 0) as Nz by (unfold opaque; change SIZEOF_OBJECT with 48; lia).
  rewrite (proj2 (Z.eqb_neq _ 0)) by done. erewrite bind_Done.
  2: { unfold obj_free. rewrite (proj2 (Z.eqb_neq _ 0)) by done. rewrite container_opaque.
    erewrite bind_Done by (apply object_at_ok; exact Ho1). simpl. rewrite (proj2 (Z.eqb_neq _ 0)) by lia. rewrite HI.
    erewrite bind_Done by exact E2. erewrite bind_Done by (apply object_at_ok; rewrite Ob2; by rewrite lookup_insert_eq). reflexivity. }
  edestruct (obj_put_spec s2 (fupd held o (held o + 1)) W2 o) as (s3 & E3 & (W3 & C3) & Ob3 & _ & V3); [exact C2|rewrite Ob2; by rewrite lookup_insert_eq|lia| |].
  { unfold may_drop. simpl. destruct (Md _ _ _ Hv Ho) as [?|[? _]]; [by left|right; lia]. }
  erewrite bind_Done by exact E3. exists ob, s3. split; [done|]. split; [reflexivity|]. split.
  { exists W3. eapply caps_held_ext; [|exact C3]. intros x. unfold fupd. destruct (decide (x = o)) as [Ex|N]; [|done].
    rewrite Ex, decide_True by done. lia. }
  split.
  - intros h j. rewrite V3, V2. f_equal. by rewrite Es1.
  - rewrite Ob3, Ob2, Es1. simpl. rewrite insert_insert_eq. destruct (decide (held o = 0)) as [E0|N0].
    + rewrite decide_True by lia. by rewrite delete_insert_eq.
    + rewrite decide_False by lia. rewrite insert_insert_eq. unfold with_refcount. simpl. rewrite HI. f_equal. f_equal. lia.
Qed.

(** ** Moves *)

(** Two capabilities of one object are two references. *)
Lemma two_references s held W R g i h j o rt rt' ob : caps_ok s held W R → cap_view s g i = Some (o, rt) →
  cap_view s h j = Some (o, rt') → ¬ (g = h ∧ i = j) → objects s !! o = Some ob → 1 < refcount ob.
Proof.
  intros C V1 V2 N Ho. destruct (view_present _ _ _ _ _ _ _ _ C V1) as (s1 & o1 & c1 & S1 & G1 & I1 & _ & _ & Ho1 & P1 & _).
  destruct (view_present _ _ _ _ _ _ _ _ C V2) as (s2 & o2 & c2 & S2 & G2 & I2 & _ & _ & Ho2 & P2 & _).
  rewrite Ho in Ho1, Ho2. injection Ho1 as <-. injection Ho2 as <-.
  destruct (object_count _ _ _ _ _ _ C Ho) as (_ & ND & O4 & O5 & _).
  assert (cap_id s g i ≠ cap_id s h j) as Np by (intros Eq; rewrite Eq in S1; apply N; split; congruence).
  assert (2 ≤ length (copies ob))%nat; [|lia]. destruct (copies ob) as [|x [|y l]]; [by apply not_elem_of_nil in P1| |simpl; lia].
  apply list_elem_of_singleton in P1, P2. congruence.
Qed.

Lemma cap_move_spec oob s held W gs gd cs cd i nv nr : caps_ok s held W None → countable s →
  groups s !! gs = Some cs → groups s !! gd = Some cd → room (slot_tbl cd) → SIZEOF_SLOT ≤ max_size → is_int i →
  (∀ s1, alloc_slot oob gd s ≠ Done (- ENOMEM) s1) →
  wph (cap_move oob obj_deinit gs gd i nv nr) (λ r s', (∃ W', caps_ok s' held W' None) ∧
    ((r = - ECAPBILITY ∧ cap_view s gs i = None ∧ s' = s) ∨ (r = - ENOMEM ∧ unchanged s s') ∨
     (r = 0 ∧ ∃ d o rt, 0 ≤ d ∧ cap_view s gd d = None ∧ cap_view s gs i = Some (o, rt) ∧
      ∀ h j, cap_view s' h j = if decide (h = gs ∧ j = i) then None
        else if decide (h = gd ∧ j = d) then Some (o, if nv then nr else rt) else cap_view s h j))) s.
Proof.
  intros C Cn Hs Hd Rm Hm Hi NE. unfold cap_move. apply wph_bind. eapply wph_mono; [by eapply cap_copy_spec|].
  intros r s1 [(W1 & C1) [(-> & Hv & ->)|[(-> & U)|(Hr & Hv & o & rt & Hsv & V)]]].
  - eapply wph_Done; [reflexivity|]. split; [by exists W1|]. by left.
  - eapply wph_Done; [reflexivity|]. split; [by exists W1|]. right. by left.
  - rewrite (proj2 (Z.ltb_ge r 0)) by lia. assert (¬ (gs = gd ∧ i = r)) as N by (intros [-> ->]; congruence).
    assert (cap_view s1 gs i = Some (o, rt)) as V1 by (by rewrite V, decide_False).
    assert (cap_view s1 gd r = Some (o, if nv then nr else rt)) as V2 by (by rewrite V, decide_True).
    destruct (view_present _ _ _ _ _ _ _ _ C1 V1) as (sl & ob & cg & Hsl & G1 & I1 & <- & <- & Ho & _ & Hg).
    pose proof (two_references _ _ _ _ _ _ _ _ _ _ _ _ C1 V1 V2 N Ho) as Hn.
    destruct (__cap_free_more s1 held W1 gs i cg sl ob C1 Hg Hsl Ho) as (s2 & E2 & C2 & _ & V3); [lia|done|done|].
    eapply wph_step; [exact E2|]. rewrite Z.eqb_refl. cbn [negb]. eapply wph_step; [reflexivity|].
    eapply wph_Done; [reflexivity|]. split; [done|]. right. right. split; [done|].
    exists r, (object_of sl), (rights sl). split; [lia|]. split_and!; try done. intros h j. rewrite V3.
    case_decide; [done|]. by rewrite V.
Qed.

(** ** The properties *)

(** [cap_alloc] on an object without references gives the group a
    capability with the rights asked for, under an id that was free, or fails
    with [-ENOMEM] and changes no capability and no object.  No other
    capability changes, and tables, slots, reference counts and copies lists
    stay consistent. *)
Theorem cap_alloc_ok oob s held W g cg obj ob rts : caps_ok s held W None → groups s !! g = Some cg →
  room (slot_tbl cg) → SIZEOF_SLOT ≤ max_size → objects s !! container_of obj = Some ob → refcount ob = 0 → head_init ob = true →
  wph (cap_alloc oob g obj rts) (λ r s', (∃ W', caps_ok s' held W' None) ∧
    ((r = - ENOMEM ∧ unchanged s s') ∨
     (0 ≤ r ∧ cap_view s g r = None ∧
      ∀ h j, cap_view s' h j = if decide (h = g ∧ j = r) then Some (container_of obj, rts) else cap_view s h j))) s.
Proof. apply cap_alloc_spec. Qed.

(** C17: [cap_copy], by what the allocations in it do.  A source that is no capability
    is refused without effect.  Otherwise, when the destination has an id [r] and the
    slot its memory, capability [r] of the destination, which was free, is for the
    same object with the rights of the source or the new ones, and no other capability
    changes; without memory for the slot [-ENOMEM] is returned and nothing changes;
    an allocation that stops the kernel stops the copy.  When the table of the
    destination cannot grow, the copy never returns: it takes the error for an id.
    Slots, tables, copies lists and reference counts stay consistent. *)
Theorem cap_copy_ok oob s held W gs gd cs cd i nv nr : caps_ok s held W None → countable s →
  groups s !! gs = Some cs → groups s !! gd = Some cd → room (slot_tbl cd) → SIZEOF_SLOT ≤ max_size → is_int i →
  match cap_view s gs i, alloc_slot oob gd s with
  | None, _ => cap_copy oob gs gd i nv nr s = Done (- ECAPBILITY) s
  | Some (o, rt), Done r s1 =>
      if r <? 0 then ∀ x s', cap_copy oob gs gd i nv nr s ≠ Done x s'
      else
        match al_alloc SIZEOF_SLOT (al s1) with
        | Done q _ => ∃ s', cap_copy oob gs gd i nv nr s = Done (if q =? 0 then - ENOMEM else r) s' ∧ (∃ W', caps_ok s' held W' None) ∧
            if q =? 0 then unchanged s s'
            else r < 2 ^ 31 ∧ cap_view s gd r = None ∧
              ∀ h j, cap_view s' h j = if decide (h = gd ∧ j = r) then Some (o, if nv then nr else rt) else cap_view s h j
        | _ => cap_copy oob gs gd i nv nr s = Halt
        end
  | Some _, _ => cap_copy oob gs gd i nv nr s = Halt
  end.
Proof.
  intros C Cn Hs Hd Rm Hm Hi. destruct (cap_view s gs i) as [[o rt]|] eqn:Hv; [|by eapply cap_copy_none].
  pose proof (alloc_slot_spec oob s held W gd cd C Hd Rm) as AS. unfold wph in AS.
  destruct (alloc_slot oob gd s) as [r s1|s1| | |] eqn:Ea; [|done|by eapply cap_copy_halt|done|done].
  destruct AS as (W1 & _ & _ & [[-> _]|[Hr _]]).
  - change (- ENOMEM <? 0) with true. cbv iota. eapply (cap_copy_full oob s held W gs gd cs cd); [done..|by rewrite Hv|done].
  - rewrite (proj2 (Z.ltb_ge r 0)) by lia. by eapply cap_copy_run; [..|apply Hr].
Qed.

(** C18: [cap_free] of a number that is no capability is refused without effect.
    Otherwise exactly the capability goes; the object loses one reference, and with
    the last one its deinitialiser is run and its memory is freed.  [cap_free] returns
    exactly if the deinitialiser, which is called only then, does, and ends as it does
    otherwise.  The last reference to a capability group is excluded: its table would be
    left behind. *)
Theorem cap_free_ok s held W g cg i : caps_ok s held W None → groups s !! g = Some cg → is_int i →
  (∀ o rt ob, cap_view s g i = Some (o, rt) → objects s !! o = Some ob → may_drop ob) →
  match cap_view s g i with
  | None => cap_free obj_deinit g i s = Done (- ECAPBILITY) s
  | Some (o, _) => ∃ ob, objects s !! o = Some ob ∧
      match deinit_run s o ob with
      | Done _ e => ∃ s', cap_free obj_deinit g i s = Done 0 s' ∧ ext s' = e ∧ cap_gone held g i o ob s s'
      | Away e => ∃ s', cap_free obj_deinit g i s = Away s' ∧ ext s' = e
      | Halt => cap_free obj_deinit g i s = Halt
      | Fault => cap_free obj_deinit g i s = Fault
      | Spin => cap_free obj_deinit g i s = Spin
      end
  end.
Proof.
  intros C Hg Hi Md. destruct (cap_view s g i) as [[o rt]|] eqn:Ev.
  - destruct (view_present _ _ _ _ _ _ _ _ C Ev) as (sl & ob & cg' & Hsl & G1 & I1 & <- & <- & Ho & _ & _).
    exists ob. split; [done|]. by apply (__cap_free_spec s held W g i cg sl ob C Hg Hsl Ho); [eapply Md|..].
  - unfold cap_free, __cap_free.
    erewrite bind_Done by (by eapply get_slot_of_ok). destruct (Z.eqb_spec (cap_id s g i) 0) as [Ez|Nz]; [done|].
    by destruct (cap_present _ _ _ _ _ _ C Nz) as (sl & ob & _ & _ & _ & _ & _ & _ & HV); rewrite Ev in HV.
Qed.

(** [cap_move] takes the capability from the source group and gives it
    to the destination; it fails without effect, never halfway. *)
Theorem cap_move_ok oob s held W gs gd cs cd i nv nr : caps_ok s held W None → countable s →
  groups s !! gs = Some cs → groups s !! gd = Some cd → room (slot_tbl cd) → SIZEOF_SLOT ≤ max_size → is_int i →
  (∀ s1, alloc_slot oob gd s ≠ Done (- ENOMEM) s1) →
  wph (cap_move oob obj_deinit gs gd i nv nr) (λ r s', (∃ W', caps_ok s' held W' None) ∧
    ((r = - ECAPBILITY ∧ cap_view s gs i = None ∧ s' = s) ∨ (r = - ENOMEM ∧ unchanged s s') ∨
     (r = 0 ∧ ∃ d o rt, 0 ≤ d ∧ cap_view s gd d = None ∧ cap_view s gs i = Some (o, rt) ∧
      ∀ h j, cap_view s' h j = if decide (h = gs ∧ j = i) then None
        else if decide (h = gd ∧ j = d) then Some (o, if nv then nr else rt) else cap_view s h j))) s.
Proof. apply cap_move_spec. Qed.

(** C19: [cap_revoke] removes every capability for the object, in every group, and no
    other one; the object is freed unless the kernel holds further references.  A
    number that is no capability is refused without effect, one past the table faults:
    it is not checked.  Excluded are groups that the kernel does not hold, whose table
    would be left behind, and the first group. *)
Theorem cap_revoke_ok s held W g cg i : caps_ok s held W None → countable s → groups s !! g = Some cg → is_int i →
  (∀ o rt ob, cap_view s g i = Some (o, rt) → objects s !! o = Some ob → may_revoke held o ob) →
  if slots_size (slot_tbl cg) <=? i then cap_revoke obj_deinit g i s = Fault
  else
    match cap_view s g i with
    | None => cap_revoke obj_deinit g i s = Done (- ECAPBILITY) s
    | Some (o, _) => ∃ ob s', objects s !! o = Some ob ∧ cap_revoke obj_deinit g i s = Done 0 s' ∧ revoked held o ob s s'
    end.
Proof.
  intros C Cn Hg Hi Md. destruct (Z.leb_spec (slots_size (slot_tbl cg)) i) as [L|L]; [|by eapply cap_revoke_spec].
  unfold cap_revoke, bind. by erewrite get_opaque_oob.
Qed.

(** ** References, as the rest of the kernel uses them

    [caps_fine n s]: the invariant holds for some holders of references, and every
    count has room for [n] more.  [has_cap s g i ty x]: capability [i] of group [g]
    is for an object of type [ty] with payload [x]. *)
Definition caps_fine (n : Z) (s : kst) : Prop :=
  (∃ held W, caps_ok s held W None) ∧ ∀ o ob, objects s !! o = Some ob → refcount ob + n < 2 ^ 64.

Definition has_cap (s : kst) (g i ty x : Z) : Prop :=
  ∃ cg o rt ob, groups s !! g = Some cg ∧ is_int i ∧ i < slots_size (slot_tbl cg) ∧ cap_view s g i = Some (o, rt) ∧
    objects s !! o = Some ob ∧ type ob = ty ∧ x = opaque o.

Lemma with_ext_id (s : kst) : with_ext (ext s) s = s.
Proof. by destruct s. Qed.

(** The state with one more reference to [o]. *)
Definition referenced (o : Z) (ob : object) (s : kst) : kst :=
  with_objects (<[o := with_refcount ob (refcount ob + 1)]> (objects s)) s.

Lemma obj_put_back s o ob a e : objects s !! o = Some ob → 1 ≤ refcount ob → refcount ob + 1 < 2 ^ 64 →
  obj_put (opaque o) (with_al a (with_ext e (referenced o ob s))) = Done tt (with_al a (with_ext e s)).
Proof.
  intros Ho H1 H2. unfold obj_put. rewrite container_opaque. erewrite bind_Done.
  2: { unfold ref_sub. erewrite bind_Done by (apply object_at_ok; simpl; by rewrite lookup_insert_eq). reflexivity. }
  simpl. rewrite (proj2 (Z.eqb_neq _ 1)) by lia. unfold ret, with_objects, with_refcount, with_ext, referenced. simpl. f_equal.
  rewrite insert_insert_eq, u64_id by (unfold is_u64; lia). replace (refcount ob + 1 - 1) with (refcount ob) by lia.
  rewrite insert_id; [by destruct s|]. rewrite Ho. by destruct ob.
Qed.

Lemma has_cap_ref s o ob g i ty x : objects s !! o = Some ob → has_cap s g i ty x → has_cap (referenced o ob s) g i ty x.
Proof.
  intros Ho (cg & o' & rt & ob' & Hg & Hi & Hl & Hv & Ho' & Ht & ->). destruct (decide (o' = o)) as [->|N].
  - exists cg, o, rt, (with_refcount ob (refcount ob + 1)). split_and!; try done; [apply lookup_insert_eq|]. simpl. congruence.
  - exists cg, o', rt, ob'. split_and!; try done. simpl. by rewrite lookup_insert_ne.
Qed.

Lemma has_cap_nonzero n s g i ty x : caps_fine n s → has_cap s g i ty x → x ≠ 0.
Proof.
  intros [(held & W & C) _] (cg & o & rt & ob & _ & _ & _ & _ & Ho & _ & ->).
  destruct (object_count _ _ _ _ _ _ C Ho) as (_ & _ & _ & _ & _ & ?). unfold opaque, SIZEOF_OBJECT. lia.
Qed.

Lemma has_cap_type s g i ty x g' i' ty' : has_cap s g i ty x → has_cap s g' i' ty' x → ty = ty'.
Proof.
  intros (_ & o & _ & ob & _ & _ & _ & _ & Ho & Ht & ->) (_ & o' & _ & ob' & _ & _ & _ & _ & Ho' & Ht' & Eo).
  assert (o = o') as <- by (unfold opaque in Eo; lia). congruence.
Qed.

Lemma caps_fine_le n m s : caps_fine n s → m ≤ n → caps_fine m s.
Proof. intros [Hc Hn] Hm. split; [done|]. intros o ob Ho. specialize (Hn o ob Ho). lia. Qed.

(** Memory that other parts of the kernel allocate. *)
Lemma kmalloc_fine n s size : caps_fine n s → 0 ≤ size ≤ max_size (S := A) → on_al (al_alloc size) s = Halt ∨
  ∃ p a, on_al (al_alloc size) s = Done p (with_al a s) ∧ caps_fine n (with_al a s).
Proof.
  intros [(held & W & [[M1 M2 M3 M4] T L G RR]) Hn] Hs.
  destruct (alloc_holds (al s) (dom W) size M1 Hs) as [[E1|(p & a & E1 & Hp)] _]; [left; by apply zoom_Halt|right].
  exists p, a. split; [by apply zoom_Done|]. split; [|exact Hn]. exists held. destruct Hp as [[-> Ha]|(Np & Nd & Ha)]; [by exists W|].
  exists (<[p := WOther]> W). assert (∀ q x, x ≠ WOther → <[p := WOther]> W !! q = Some x ↔ W !! q = Some x) as HW.
  { intros q x Nx. destruct (decide (p = q)) as [->|N]; [rewrite lookup_insert_eq|by rewrite lookup_insert_ne].
    split; [congruence|]. intros Hq%elem_of_dom_2. done. }
  split; try done. split; simpl; [by rewrite dom_insert_L|intros q; rewrite HW by done; apply M2|intros q; rewrite HW by done; apply M3|].
  intros q g. rewrite HW by done. apply M4.
Qed.

Lemma has_cap_ext s e g i ty x : has_cap (with_ext e s) g i ty x ↔ has_cap s g i ty x.
Proof. done. Qed.

Lemma caps_fine_ext n s e : caps_fine n s → caps_fine n (with_ext e s).
Proof. intros [(held & W & C) H]. split; [|done]. exists held, W. by apply with_ext_ok. Qed.

(** [obj_get] of a capability of the right type. *)
Lemma obj_get_ref n s g i ty x : caps_fine n s → 1 ≤ n → has_cap s g i ty x →
  ∃ o ob, x = opaque o ∧ objects s !! o = Some ob ∧ 1 ≤ refcount ob ∧ refcount ob + n < 2 ^ 64 ∧
  obj_get g i ty s = Done x (referenced o ob s) ∧ caps_fine (n - 1) (referenced o ob s).
Proof.
  intros [(held & W & C) Hn] H1 (cg & o & rt & ob & Hg & Hi & Hl & Hv & Ho & Ht & ->).
  assert (countable s) as Cn by (intros o' ob' Ho'; specialize (Hn _ _ Ho'); lia).
  destruct (get_opaque_spec s held W g cg i (Some ty) C Cn Hg Hi Hl) as (r & s1 & E1 & G).
  destruct G as [(-> & -> & H)|(o' & rt' & ob' & -> & Hv' & Ho' & _ & -> & C1)].
  { by destruct (H o rt ob Hv Ho) as (t & [= <-] & ?). }
  rewrite Hv in Hv'. injection Hv' as <- <-. rewrite Ho in Ho'. injection Ho' as <-.
  destruct (view_present _ _ _ _ _ _ _ _ C Hv) as (sl & ob' & _ & _ & _ & _ & _ & _ & Ho' & Hc & _).
  rewrite Ho in Ho'. injection Ho' as <-. destruct (object_count _ _ _ _ _ _ C Ho) as (_ & _ & O4 & O5 & O6 & _).
  assert (1 ≤ refcount ob) by (destruct (copies ob); [by apply not_elem_of_nil in Hc|simpl in O4; lia]).
  exists o, ob. split_and!; [done..|by apply (Hn o)|exact E1|].
  split; [by exists (fupd held o (held o + 1)), W|]. unfold referenced; simpl; intros o' ob' [[<- <-]|[_ Ho']]%lookup_insert_Some;
    [specialize (Hn _ _ Ho); simpl; lia|specialize (Hn _ _ Ho'); lia].
Qed.

(** The same, with the matching [obj_put]. *)
Lemma obj_get_cap n s g i ty x : caps_fine n s → 1 ≤ n → has_cap s g i ty x →
  ∃ s1, obj_get g i ty s = Done x s1 ∧ caps_fine (n - 1) s1 ∧ ext s1 = ext s ∧
  (∀ g' i' ty' x', has_cap s g' i' ty' x' → has_cap s1 g' i' ty' x') ∧
  (∀ e, obj_put x (with_ext e s1) = Done tt (with_ext e s)) ∧
  (∀ a e, obj_put x (with_al a (with_ext e s1)) = Done tt (with_al a (with_ext e s))) ∧ al s1 = al s.
Proof.
  intros F H1 Hc. destruct (obj_get_ref n s g i ty x F H1 Hc) as (o & ob & -> & Ho & H2 & H3 & Eg & F1).
  exists (referenced o ob s). split_and!; [exact Eg|exact F1|reflexivity| | | |reflexivity].
  - intros. by apply has_cap_ref.
  - intros e. pose proof (obj_put_back s o ob (al s) e Ho ltac:(lia) ltac:(lia)) as Ep. destruct s. exact Ep.
  - intros a e. apply obj_put_back; [done|done|lia].
Qed.

(** Two objects, given back in the order they were got in. *)
Lemma obj_get_two n s g i ty x g' i' ty' y : caps_fine n s → 2 ≤ n → has_cap s g i ty x → has_cap s g' i' ty' y → x ≠ y →
  ∃ s1, obj_get g i ty s = Done x s1 ∧ ext s1 = ext s ∧ ∀ e, ∃ s2, obj_get g' i' ty' (with_ext e s1) = Done y s2 ∧ ext s2 = e ∧
  ∀ e', (obj_put x ;; obj_put y) (with_ext e' s2) = Done tt (with_ext e' s).
Proof.
  intros F Hn Hx Hy N. destruct (obj_get_ref n s g i ty x F ltac:(lia) Hx) as (o & ob & -> & Ho & H1 & H2 & Eg & F1).
  exists (referenced o ob s). split; [exact Eg|]. split; [done|]. intros e.
  destruct (obj_get_ref (n - 1) (with_ext e (referenced o ob s)) g' i' ty' y) as (p & pb & -> & Hp & H3 & H4 & E2 & _);
    [by apply caps_fine_ext|lia|apply has_cap_ext; by apply has_cap_ref|].
  assert (o ≠ p) as Nop by congruence. simpl in Hp. rewrite lookup_insert_ne in Hp by done.
  exists (referenced p pb (with_ext e (referenced o ob s))). split; [exact E2|]. split; [done|]. intros e'.
  assert (with_ext e' (referenced p pb (with_ext e (referenced o ob s))) = with_al (al s) (with_ext e' (referenced o ob (referenced p pb s)))) as ->.
  { unfold referenced. destruct s. simpl. unfold with_ext, with_al, with_objects. simpl. f_equal. by apply insert_insert_ne. }
  erewrite bind_Done by (apply obj_put_back; [simpl; by rewrite lookup_insert_ne|done|lia]).
  rewrite obj_put_back by (done || lia). by destruct s.
Qed.


End spec.

(** ** The first group *)

Section boot.
Context {A : Type} `{!Allocator A}.
Context {E : Type}.
Implicit Types s : kstate (A := A) (E := E).

(** A new object with [n] references that are no capabilities. *)
Lemma caps_new_object s held W o ty sz hi n a' : caps_ok s held W None → o ∉ dom W → holds a' ({[o]} ∪ dom W) →
  hi = true ∨ ty = TYPE_CAP_GROUP → 0 ≤ n < 2 ^ 64 →
  caps_ok (with_objects (<[o := mk_object ty sz [] hi n]> (objects s)) (with_al a' s)) (fupd held o n) (<[o := WObj]> W) None.
Proof.
  intros [[M1 M2 M3 M4] T L G R] Ho%not_elem_of_dom HH Hhi Hn.
  assert (objects s !! o = None) as No by (destruct (objects s !! o) eqn:E0; [|done]; assert (W !! o = Some WObj) by (apply M2; by eexists); congruence).
  split; [split; simpl|exact T|by apply links_new| |done].
  - by rewrite dom_insert_L.
  - intros p. rewrite lookup_insert_is_Some. rewrite lookup_insert_Some, M2. naive_solver.
  - intros p. rewrite lookup_insert_Some, <- M3. split; [naive_solver|]. intros Hp. right. split; [congruence|done].
  - intros p g. rewrite lookup_insert_Some, <- M4. split; [naive_solver|]. intros Hp. right. split; [congruence|done].
  - intros g cg Hg. destruct (G g cg Hg) as (x & Hx & Tx). exists x. simpl. rewrite lookup_insert_ne by congruence. done.
Qed.

(** A new group with a table without capabilities. *)
Lemma caps_new_group s held W g ob t b n a' : caps_ok s held W None → groups s !! g = None →
  objects s !! container_of g = Some ob → type ob = TYPE_CAP_GROUP → table_ok t ∅ → slots_size t < 2 ^ 31 → (∀ i, cap_at t i = 0) →
  arrays t ## dom W → holds a' (arrays t ∪ dom W) →
  caps_ok (with_groups (<[g := mk_cap_group t b n]> (groups s)) (with_al a' s)) held (gset_to_gmap (WTab g) (arrays t) ∪ W) None.
Proof.
  intros [[M1 M2 M3 M4] T L G R] Ng Ho Ht TT Sz HZ HD HH.
  assert (∀ p w, w ≠ WTab g → (gset_to_gmap (WTab g) (arrays t) ∪ W) !! p = Some w ↔ W !! p = Some w) as HW.
  { intros p w Nw. rewrite lookup_union_Some_raw, lookup_gset_to_gmap_Some, lookup_gset_to_gmap_None. split; [naive_solver|].
    intros Hp. right. split; [|done]. intros Hin. apply (HD p Hin). by eapply elem_of_dom_2. }
  assert (∀ h i, cap_id (with_groups (<[g := mk_cap_group t b n]> (groups s)) (with_al a' s)) h i = cap_id s h i) as EC.
  { intros h i. unfold cap_id. simpl. destruct (decide (g = h)) as [<-|N]; [rewrite lookup_insert_eq; by rewrite Ng|by rewrite lookup_insert_ne]. }
  split; [split; simpl| |exact (links_ext _ _ _ _ _ EC L)| |done].
  - rewrite dom_union_L, dom_gset_to_gmap. exact HH.
  - intros p. rewrite HW by done. apply M2.
  - intros p. rewrite HW by done. apply M3.
  - intros p h. destruct (decide (h = g)) as [->|Nh].
    + rewrite lookup_union_Some_raw, lookup_gset_to_gmap_Some, lookup_gset_to_gmap_None. split.
      * intros [[Hp _]|[_ Hp]]; [eexists; by rewrite lookup_insert_eq|]. apply M4 in Hp as (cg & Hg & _). congruence.
      * intros (cg & Hcg & Hp). rewrite lookup_insert_eq in Hcg. injection Hcg as <-. by left.
    + rewrite HW by congruence. rewrite M4. by rewrite lookup_insert_ne.
  - intros h ch Hh. simpl in Hh. apply lookup_insert_Some in Hh as [[<- <-]|[_ Hh]]; [done|by apply (T h)].
  - intros h ch Hh. simpl in Hh. apply lookup_insert_Some in Hh as [[<- <-]|[_ Hh]]; [by exists ob|by apply (G h ch)].
Qed.

Lemma empty_table_cap n p f b i : cap_at (empty_table n p f b) i = 0.
Proof.
  unfold cap_at. destruct (_ && _); [|done]. cbn [empty_table slots]. destruct (replicate _ 0 !! Z.to_nat i) as [x|] eqn:Ex; [|done].
  by apply lookup_replicate in Ex as [-> _].
Qed.

Lemma install_set t i p t' : install_slot i p t = Some (Some t') → t' = set_slot_at t i p ∧ is_Some (slot_at t i).
Proof.
  unfold install_slot. destruct (Bitops.get_bit (u32 i) (slots_bmp t)) as [w|]; cbn; [|done]. destruct (w =? 0); [done|].
  destruct (slot_at t i) as [x|]; cbn; [|done]. intros [= <-]. by split.
Qed.

(** [obj_alloc] when it returns. *)
Lemma obj_alloc_spec s held W ty sz v s' : caps_ok s held W None → 0 ≤ SIZEOF_OBJECT + sz ≤ max_size →
  obj_alloc ty sz s = Done v s' →
  (v = 0 ∧ ∃ a', s' = with_al a' s) ∨
  (∃ a', objects s !! container_of v = None ∧ s' = with_objects (<[container_of v := mk_object ty sz [] true 0]> (objects s)) (with_al a' s) ∧
   ∃ W', caps_ok s' (fupd held (container_of v) 0) W' None).
Proof.
  intros C Hs Run. unfold obj_alloc in Run. apply bind_inv in Run as (o & s1 & E1 & Run).
  pose proof (mo_heap _ _ (co_mem _ _ _ _ C)) as HH. destruct (alloc_holds (al s) (dom W) _ HH Hs) as [_ [E2|(q & a' & E2 & Hq)]].
  { unfold on_al in E1. by rewrite (zoom_Halt _ _ _ _ E2) in E1. }
  unfold on_al in E1. rewrite (zoom_Done _ _ _ _ _ _ E2) in E1. injection E1 as <- <-.
  destruct Hq as [[-> _]|(Nq & Hq & HH')]; [left|right].
  { rewrite Z.eqb_refl in Run. injection Run as <- <-. split; [done|]. by eexists. }
  rewrite (proj2 (Z.eqb_neq _ _) Nq) in Run. erewrite bind_Done in Run by reflexivity. injection Run as <- <-. rewrite container_opaque.
  exists a'. split; [|split; [done|]].
  - destruct (objects s !! q) eqn:E0; [|done]. destruct Hq. apply elem_of_dom. exists WObj. apply (mo_obj _ _ (co_mem _ _ _ _ C)). by eexists.
  - exists (<[q := WObj]> W). apply caps_new_object; [done..|by left|lia].
Qed.

(** [cap_group_init] of the payload of a new object, when it returns. *)
Lemma cap_group_init_spec s held W g ob bdg r s' : caps_ok s held W None → groups s !! g = None →
  objects s !! container_of g = Some ob → type ob = TYPE_CAP_GROUP → 8 * BASE_OBJECT_NUM ≤ max_size →
  cap_group_init g BASE_OBJECT_NUM bdg s = Done r s' →
  ∃ a' t, s' = with_groups (<[g := mk_cap_group t bdg 0]> (groups s)) (with_al a' s) ∧ slots_size t = BASE_OBJECT_NUM ∧
  (∀ i, cap_at t i = 0) ∧ ∃ W', caps_ok s' held W' None.
Proof.
  intros C Ng Ho Ht Hm Run. unfold cap_group_init in Run. apply bind_inv in Run as (x & s1 & E1 & Run).
  pose proof (mo_heap _ _ (co_mem _ _ _ _ C)) as HH. change BASE_OBJECT_NUM with (64 * 1) in *.
  destruct (slot_table_init_spec (λ _, 0) 1 (al s) (dom W)) as [E2|(y & a' & E2 & Hy)]; [done|exact Hm|done|exact HH| |].
  { unfold on_al in E1. by rewrite (zoom_Halt _ _ _ _ E2) in E1. }
  unfold on_al in E1. rewrite (zoom_Done _ _ _ _ _ _ E2) in E1. injection E1 as <- <-. destruct y as [e|t]; [done|].
  destruct Hy as (p & f & b & -> & TT & HD & HH'). erewrite bind_Done in Run by reflexivity. injection Run as <- <-.
  exists a', (empty_table 1 p f b). split; [done|]. split; [done|]. split; [apply empty_table_cap|].
  eexists. eapply caps_new_group; [done..|intros i; apply empty_table_cap|done|done].
Qed.

Lemma view_new_group s g t b n a' : (∀ i, cap_id s g i = 0) → (∀ i, cap_at t i = 0) →
  ∀ h j, cap_view (with_groups (<[g := mk_cap_group t b n]> (groups s)) (with_al a' s)) h j = cap_view s h j.
Proof.
  intros H1 H2 h j. unfold cap_view, cap_id in *. simpl. destruct (decide (g = h)) as [<-|N]; [|by rewrite lookup_insert_ne].
  rewrite lookup_insert_eq. simpl. by rewrite H1, H2.
Qed.

(** The first group with its table, and its first id reserved. *)
Lemma root_table_spec oob s held W g sz a1 x s3 s4 : caps_ok s held W None → container_of g ∉ dom W → holds a1 ({[container_of g]} ∪ dom W) →
  1536 ≤ max_size (S := A) →
  cap_group_init g BASE_OBJECT_NUM ROOT_CAP_GROUP_BADGE
    (with_objects (<[container_of g := mk_object TYPE_CAP_GROUP sz [] false 1]> (objects s)) (with_al a1 s)) = Done x s3 →
  alloc_slot oob g s3 = Done CAP_GROUP_OBJ_ID s4 →
  objects s !! container_of g = None ∧ groups s !! g = None ∧
  objects s4 = <[container_of g := mk_object TYPE_CAP_GROUP sz [] false 1]> (objects s) ∧
  (∃ W4, caps_ok s4 (fupd held (container_of g) 1) W4 (Some (g, CAP_GROUP_OBJ_ID))) ∧
  (∃ c4, groups s4 !! g = Some c4 ∧ 0 ≤ slots_size (slot_tbl c4) ≤ 128) ∧ ∀ h j, cap_view s4 h j = cap_view s h j.
Proof.
  intros C Hq HH1 Hm E3 E4.
  pose proof (caps_new_object s held W (container_of g) TYPE_CAP_GROUP sz false 1 a1 C Hq HH1 (or_intror eq_refl) ltac:(lia)) as C2.
  assert (objects s !! container_of g = None) as Nob.
  { destruct (objects s !! container_of g) eqn:E0; [|done]. destruct Hq. apply elem_of_dom. exists WObj. apply (mo_obj _ _ (co_mem _ _ _ _ C)). by eexists. }
  assert (groups s !! g = None) as Ngr.
  { destruct (groups s !! g) as [cg|] eqn:E0; [|done]. destruct (co_group _ _ _ _ C _ _ E0) as (y & Hy & _). congruence. }
  set (s2 := with_objects _ (with_al a1 s)) in *.
  destruct (cap_group_init_spec s2 _ _ g (mk_object TYPE_CAP_GROUP sz [] false 1) _ _ _ C2 Ngr ltac:(unfold s2; simpl; apply lookup_insert_eq) eq_refl ltac:(change (8 * BASE_OBJECT_NUM) with 512; lia) E3)
    as (a3 & t & Es3 & St & HZ & W3 & C3). change BASE_OBJECT_NUM with 64 in St.
  assert (groups s3 !! g = Some (mk_cap_group t ROOT_CAP_GROUP_BADGE 0)) as Hg3 by (rewrite Es3; simpl; apply lookup_insert_eq).
  assert (room (A := A) t) as Rm by (unfold room; rewrite St; split; lia).
  pose proof (alloc_slot_spec oob s3 _ W3 g _ C3 Hg3 Rm) as AS.
  unfold wph in AS. rewrite E4 in AS. destruct AS as (W4 & SR4 & EC4 & [[? _]|[_ C4]]); [done|].
  destruct (alloc_slot_size oob s3 _ W3 g _ _ _ C3 Hg3 Rm E4) as (c4 & Hg4 & Sz). cbn [slot_tbl] in Sz. pose proof SR4 as (Eo4 & _).
  split; [done|]. split; [done|]. split; [by rewrite Eo4, Es3|]. split; [by exists W4|]. split.
  - exists c4. split; [done|]. destruct (co_table _ _ _ _ C4 g c4 Hg4) as [T _]. destruct (to_size _ _ T) as (k & Hk & Ek). lia.
  - intros h j. rewrite (view_same _ _ SR4 EC4), Es3. transitivity (cap_view s2 h j); [|done]. apply view_new_group; [|done].
    intros i. unfold cap_id, s2. simpl. by rewrite Ngr.
Qed.

(** The slot of the first group, in the table and linked with itself. *)
Lemma root_slot_spec s held W g ob cg p a' : caps_ok s held W (Some (g, 0)) → groups s !! g = Some cg →
  objects s !! container_of g = Some ob → copies ob = [] → refcount ob = 1 → p ≠ 0 → p ∉ dom W → holds a' ({[p]} ∪ dom W) →
  is_Some (slot_at (slot_tbl cg) 0) ∧
  let s' := put_table g cg (set_slot_at (slot_tbl cg) 0 p) (with_objects (<[container_of g := with_copies ob [p]]> (objects s))
    (with_slotmem (<[p := mk_slot 0 g true 0 (container_of g)]> (slotmem s)) (with_al a' s))) in
  (∃ W', caps_ok s' (fupd held (container_of g) 0) W' None) ∧
  ∀ h j, cap_view s' h j = if decide (h = g ∧ j = 0) then Some (container_of g, 0) else cap_view s h j.
Proof.
  intros C Hg Ho Hc Hr Np Hp HH. destruct (lo_obj _ _ _ _ (co_links _ _ _ _ C) _ _ Ho) as (_ & _ & _ & O4 & _).
  rewrite Hc, Hr in O4. simpl in O4.
  pose proof (caps_held s held W _ _ ob (-1) C Ho ltac:(lia) ltac:(lia)) as C1. rewrite Hr in C1. set (s1 := with_objects _ s) in C1.
  destruct (reserved_table _ _ _ _ _ C) as (cg' & Hg' & T & Sz & Hi & _). rewrite Hg in Hg'. injection Hg' as <-.
  destruct (install_slot_ok _ _ p T Sz Hi Np) as (t' & Et & T' & A' & S' & C'). destruct (install_set _ _ _ _ Et) as [-> Hsl].
  split; [exact Hsl|]. cbv zeta.
  assert (objects s1 !! container_of g = Some (with_refcount ob 0)) as Ho1 by (unfold s1; simpl; by rewrite lookup_insert_eq).
  assert (∀ q, q ∈ [p] ↔ q = p ∨ q ∈ copies (with_refcount ob 0)) as Hcs by (intros q; cbn [with_refcount copies]; rewrite Hc; set_solver).
  match goal with |- (∃ W', caps_ok ?x _ _ _) ∧ _ => assert (x = with_cap g cg (set_slot_at (slot_tbl cg) 0 p) p
    (mk_slot 0 g true 0 (container_of g)) (container_of g) (mk_object (type (with_refcount ob 0)) (size (with_refcount ob 0)) [p]
      (head_init (with_refcount ob 0)) (refcount (with_refcount ob 0) + 1)) a' s1) as -> end.
  { unfold with_cap, put_table, with_objects, with_refcount, with_copies, s1. simpl. by rewrite insert_insert_eq, Hr. }
  split.
  - exists (<[p := WSlot]> W). eapply caps_held_ext; [|eapply (new_cap_ok s1); try done; [apply NoDup_singleton|by cbn [with_refcount copies]; rewrite Hc]].
    intros x. unfold fupd. destruct (decide (x = container_of g)); [lia|done].
  - intros h j. by erewrite (new_cap_view s1) by done.
Qed.

(** The address space of the first group, its capability 1. *)
Lemma root_vmspace_spec oob SIZEOF_VMSPACE (vmspace_init : Z → M E unit) s held W g cg x s' : caps_ok s held W None → groups s !! g = Some cg →
  room (slot_tbl cg) → SIZEOF_SLOT ≤ max_size (S := A) → 0 ≤ SIZEOF_OBJECT + SIZEOF_VMSPACE ≤ max_size (S := A) →
  (v <- obj_alloc TYPE_VMSPACE SIZEOF_VMSPACE ;; BUG_ON (v =? 0) ;; on_ext (vmspace_init v) ;;
   r <- cap_alloc oob g v 0 ;; BUG_ON (negb (r =? VMSPACE_OBJ_ID)) ;; ret g) s = Done x s' →
  x = g ∧ ∃ v, objects s !! container_of v = None ∧ (∃ W', caps_ok s' (fupd held (container_of v) 0) W' None) ∧ cap_view s g VMSPACE_OBJ_ID = None ∧
  ∀ h j, cap_view s' h j = if decide (h = g ∧ j = VMSPACE_OBJ_ID) then Some (container_of v, 0) else cap_view s h j.
Proof.
  intros C Hg Rm Hm Hs Run. apply bind_inv in Run as (v & s1 & E1 & Run). apply bind_inv in Run as ([] & s1' & E1' & Run).
  destruct (Z.eqb_spec v 0) as [->|Nv]; [done|]. injection E1' as <-.
  destruct (obj_alloc_spec s held W _ _ v s1 C Hs E1) as [[-> _]|(a1 & No & -> & W1 & C1)]; [done|].
  apply bind_inv in Run as ([] & s2 & E2 & Run). assert (∃ e, s2 = with_ext e (with_objects (<[container_of v := mk_object TYPE_VMSPACE SIZEOF_VMSPACE [] true 0]> (objects s)) (with_al a1 s))) as [e ->].
  { unfold on_ext, zoom in E2. destruct (vmspace_init v _) as [[] e| | | |]; try done. injection E2 as <-. by exists e. }
  apply (with_ext_ok _ _ _ _ e) in C1. apply bind_inv in Run as (r & s3 & E3 & Run).
  pose proof (cap_alloc_spec oob _ _ W1 g cg v (mk_object TYPE_VMSPACE SIZEOF_VMSPACE [] true 0) 0 C1 Hg Rm Hm ltac:(simpl; apply lookup_insert_eq) eq_refl eq_refl) as H.
  unfold wph in H. rewrite E3 in H. destruct H as [C3 H]. apply bind_inv in Run as ([] & s4 & E4 & Run).
  destruct (Z.eqb_spec r VMSPACE_OBJ_ID) as [->|]; [|done]. injection E4 as <-. injection Run as <- <-. split; [done|]. exists v.
  destruct H as [[? _]|(_ & Hv & HV)]; [done|]. by split_and!.
Qed.

(** C21: The start establishes the invariant of the capabilities.  From a consistent
    state, [create_root_cap_group] either returns NULL or a group whose capability 0
    is for itself and capability 1 for a new address space: the group and both objects
    are new, it has no other capabilities, those of other groups do not change, each of
    the two objects is counted one reference, its capability, and slots, tables, lists
    and counts are consistent again. *)
Theorem root_group_ok oob SIZEOF_CAP_GROUP SIZEOF_VMSPACE (vmspace_init : Z → M E unit) s held W g s' : caps_ok s held W None →
  0 ≤ SIZEOF_CAP_GROUP → SIZEOF_OBJECT + SIZEOF_CAP_GROUP ≤ max_size → 0 ≤ SIZEOF_VMSPACE → SIZEOF_OBJECT + SIZEOF_VMSPACE ≤ max_size →
  24 * BASE_OBJECT_NUM ≤ max_size → create_root_cap_group oob SIZEOF_CAP_GROUP SIZEOF_VMSPACE vmspace_init s = Done g s' → g ≠ 0 →
  ∃ v, groups s !! g = None ∧ objects s !! container_of g = None ∧ objects s !! container_of v = None ∧
  (∃ W', caps_ok s' (fupd (fupd held (container_of g) 0) (container_of v) 0) W' None) ∧
  ∀ h j, cap_view s' h j = if decide (h = g ∧ j = CAP_GROUP_OBJ_ID) then Some (container_of g, 0)
    else if decide (h = g ∧ j = VMSPACE_OBJ_ID) then Some (container_of v, 0) else cap_view s h j.
Proof.
  intros C SG1 SG2 SV1 SV2 Hm Run Ng. change (24 * BASE_OBJECT_NUM) with 1536 in Hm. unfold create_root_cap_group in Run.
  apply bind_inv in Run as (o & s1 & E1 & Run). pose proof (mo_heap _ _ (co_mem _ _ _ _ C)) as HH.
  assert (0 ≤ SIZEOF_OBJECT + SIZEOF_CAP_GROUP ≤ max_size (S := A)) as Hs by (split; [unfold SIZEOF_OBJECT; lia|done]).
  destruct (alloc_holds (al s) (dom W) _ HH Hs) as [[E2|(q & a1 & E2 & Hq)] _];
    unfold on_al in E1; [by rewrite (zoom_Halt _ _ _ _ E2) in E1|].
  rewrite (zoom_Done _ _ _ _ _ _ E2) in E1. injection E1 as <- <-. destruct Hq as [[-> _]|(Nq & Hq & HH1)]; [by injection Run as <- <-|].
  rewrite (proj2 (Z.eqb_neq _ _) Nq) in Run. erewrite bind_Done in Run by reflexivity. cbv zeta in Run.
  remember (opaque q) as g0 eqn:Eg0. assert (q = container_of g0) as -> by (by rewrite Eg0, container_opaque).
  apply bind_inv in Run as (x3 & s3 & E3 & Run). apply bind_inv in Run as (id & s4 & E4 & Run). apply bind_inv in Run as ([] & s5 & E5 & Run).
  destruct (Z.eqb_spec id CAP_GROUP_OBJ_ID) as [->|]; [|done]. injection E5 as <-.
  destruct (root_table_spec oob s held W g0 SIZEOF_CAP_GROUP a1 x3 s3 s4 C Hq HH1 Hm E3 E4) as (Nob & Ngr & Eo4 & (W4 & C4) & (c4 & Hg4 & Sz4) & V4).
  apply bind_inv in Run as (p & s5 & E5 & Run). pose proof (mo_heap _ _ (co_mem _ _ _ _ C4)) as HH4.
  destruct (alloc_holds (al s4) (dom W4) SIZEOF_SLOT HH4) as [_ [E6|(p' & a5 & E6 & Hp)]]; [unfold SIZEOF_SLOT; lia| |];
    unfold on_al in E5; [by rewrite (zoom_Halt _ _ _ _ E6) in E5|].
  rewrite (zoom_Done _ _ _ _ _ _ E6) in E5. injection E5 as <- <-.
  destruct Hp as [[-> _]|(Np & Hp & HH5)]; [apply bind_inv in Run as (? & ? & _ & Run); by injection Run as <- <-|].
  rewrite (proj2 (Z.eqb_neq _ _) Np) in Run.
  assert (objects s4 !! container_of g0 = Some (mk_object TYPE_CAP_GROUP SIZEOF_CAP_GROUP [] false 1)) as Ho4 by (rewrite Eo4; apply lookup_insert_eq).
  destruct (root_slot_spec s4 _ W4 g0 _ c4 p' a5 C4 Hg4 Ho4 eq_refl eq_refl Np Hp HH5) as ([x Hx] & (W6 & C6) & V6). cbv zeta in C6, V6.
  erewrite bind_Done in Run by reflexivity. erewrite bind_Done in Run by (by apply object_at_ok). erewrite bind_Done in Run by reflexivity.
  erewrite bind_Done in Run by (by apply group_at_ok). unfold CAP_GROUP_OBJ_ID in Run. rewrite Hx in Run. erewrite bind_Done in Run by reflexivity.
  erewrite bind_Done in Run by (by apply set_table_ok). set (s6 := put_table _ _ _ _) in C6, V6.
  assert (groups s6 !! g0 = Some (mk_cap_group (set_slot_at (slot_tbl c4) 0 p') (badge c4) (notify_recycler c4))) as Hg6 by apply lookup_insert_eq.
  assert (room (A := A) (set_slot_at (slot_tbl c4) 0 p')) as Rm6 by (unfold room; cbn [set_slot_at slots_size]; split; lia).
  destruct (root_vmspace_spec oob SIZEOF_VMSPACE vmspace_init s6 _ W6 g0 _ g s' C6 Hg6 Rm6) as (-> & v & Nv & (W7 & C7) & _ & V7);
    [unfold SIZEOF_SLOT; lia|unfold SIZEOF_OBJECT in *; lia|exact Run|]. unfold s6 in Nv. simpl in Nv.
  apply lookup_insert_None in Nv as [Nv Nvg]. rewrite Eo4, lookup_insert_ne in Nv by done.
  exists v. do 3 (split; [done|]). split.
  - exists W7. eapply caps_held_ext; [|exact C7]. intros y. unfold fupd. by repeat case_decide.
  - intros h j. rewrite V7, V6, V4. unfold CAP_GROUP_OBJ_ID, VMSPACE_OBJ_ID.
    destruct (decide (h = g0 ∧ j = 0)) as [[-> ->]|]; [by rewrite decide_False by (intros [_ ?]; lia)|].
    by destruct (decide (h = g0 ∧ j = 1)) as [[-> ->]|].
Qed.

End boot.

(** The payload of the state does not matter. *)
Definition retype {E E' A : Type} (e' : E') (s : kstate (A := A) (E := E)) : kstate (A := A) (E := E') :=
  mk_kstate (al s) (objects s) (slotmem s) (groups s) e'.

Lemma retype_fine {E E' A : Type} `{!Allocator A} (e' : E') n (s : kstate (A := A) (E := E)) : caps_fine n s → caps_fine n (retype e' s).
Proof. intros [(held & W & [[M1 M2 M3 M4] T L G RR]) Hn]. split; [|exact Hn]. exists held, W. by split. Qed.

Lemma retype_cap {E E' A : Type} `{!Allocator A} (e' : E') (s : kstate (A := A) (E := E)) g i ty x : has_cap s g i ty x → has_cap (retype e' s) g i ty x.
Proof. done. Qed.

(** ** A system with four capabilities

    One group at 1048, which the kernel holds, with the payload [e]; the objects at
    2000, 2200, 2400 and 2600, of the types [ty].  In [start] the table is empty, in
    [full] the objects have the capabilities 0 to 3. *)
Module Sample.

Definition no_oob (i : Z) : Z := 0.
Definition held0 (o : Z) : Z := if decide (o = 1000) then 1 else 0.
Definition table0 : slot_table := empty_table 1 3000 3600 3700.

Lemma slot_fits : SIZEOF_SLOT ≤ max_size (S := Z).
Proof. vm_compute. intros [=]. Qed.

Section sample.
Context {E : Type} (e : E) (ty : Z → Z).
Abbreviation st := (kstate (A := Z) (E := E)).

Definition object_addr (i : Z) : Z := 2000 + 200 * i.
Definition fresh (o : Z) : object := mk_object (ty o) 40 [] true 0.
Definition start : kstate (A := Z) (E := E) := mk_kstate 10000
  {[1000 := mk_object TYPE_CAP_GROUP 400 [] true 1; 2000 := fresh 2000; 2200 := fresh 2200; 2400 := fresh 2400; 2600 := fresh 2600]} ∅
  {[1048 := mk_cap_group table0 1 0]} e.
Definition owner0 : gmap Z who :=
  {[1000 := WObj; 2000 := WObj; 2200 := WObj; 2400 := WObj; 2600 := WObj; 3000 := WTab 1048; 3600 := WTab 1048; 3700 := WTab 1048]}.

Lemma sample_heap : holds (al start) (dom owner0).
Proof.
  exists {[1000 := 448; 2000 := 88; 2200 := 88; 2400 := 88; 2600 := 88; 3000 := 512; 3600 := 8; 3700 := 8]}. split; [|by vm_compute].
  split; [done|]. split; [check_map|]. intros p n q m x Hp Hq Hx Hy.
  assert (p = q ∨ p + n ≤ q ∨ q + m ≤ p); [|lia]. clear Hx Hy. revert q m Hq. revert p n Hp.
  apply (map_check (λ p n, map_Forall (λ q m, p = q ∨ p + n ≤ q ∨ q + m ≤ p) _)). vm_compute. reflexivity.
Qed.

Lemma sample_group g cg : groups start !! g = Some cg → 1048 = g ∧ mk_cap_group table0 1 0 = cg.
Proof. apply lookup_singleton_Some. Qed.

Lemma sample_mem : mem_ok start owner0.
Proof.
  split; [exact sample_heap| | |].
  - intros p. split; [|intros [ob H]; revert p ob H; check_map].
    intros H. enough (∀ k v, owner0 !! k = Some v → v = WObj → is_Some (objects start !! k)) by eauto.
    check_map.
  - intros p. split; [|by intros [? ?]].
    intros H. exfalso. enough (∀ k v, owner0 !! k = Some v → v ≠ WSlot) by naive_solver. check_map.
  - intros p g. split.
    + intros H. enough (∀ k v, owner0 !! k = Some v → v = WObj ∨ v = WTab 1048 ∧ k ∈ arrays table0) as K; [|check_map].
      destruct (K p _ H) as [[=]|[[= ->] Hp]]. by eexists.
    + intros (cg & [<- <-]%sample_group & Hp). unfold arrays in Hp. simpl in Hp.
      rewrite !elem_of_union, !elem_of_singleton in Hp. by destruct Hp as [[->| ->]| ->].
Qed.

Lemma sample_ok : caps_ok start held0 owner0 None.
Proof.
  split.
  - exact sample_mem.
  - intros g cg [<- <-]%sample_group. split; [|done]. by apply empty_table_ok.
  - split.
    + done.
    + intros g i H. exfalso. apply H. unfold cap_id. destruct (groups start !! g) as [cg|] eqn:Hg; [|done].
      apply sample_group in Hg as [<- <-]. unfold cap_at. cbn [slot_tbl].
      destruct (_ && _); [|done]. destruct (slots table0 !! Z.to_nat i) as [x|] eqn:Ex; [|done].
      by apply lookup_replicate in Ex as [-> _].
    + intros o ob H. enough (copies ob = [] ∧ head_init ob = true ∧ refcount ob = held0 o ∧ 0 ≤ held0 o ≤ 1) as (-> & -> & -> & Hh).
      { split_and!; [by left| |..]; try done; [constructor|by intros p ?%not_elem_of_nil|lia..]. }
      revert o ob H. check_map.
  - intros g cg [<- <-]%sample_group. by eexists.
  - done.
Qed.

Definition next {B} (r : outcome st B) : st := match r with Done _ s => s | _ => start end.
Definition add (i : Z) (s : st) : st := next (cap_alloc no_oob 1048 (opaque (object_addr i)) 0 s).
Definition full : st := add 3 (add 2 (add 1 (add 0 start))).

(** The group has room for more, and the object of [i] has no capability. *)
Definition addable (i : Z) (s : st) : bool :=
  match groups s !! 1048, objects s !! object_addr i, cap_alloc no_oob 1048 (opaque (object_addr i)) 0 s with
  | Some cg, Some ob, Done _ _ => bool_decide (room (slot_tbl cg)) && (refcount ob =? 0) && head_init ob
  | _, _, _ => false
  end.

Lemma add_ok i s W : caps_ok s held0 W None → addable i s = true → ∃ W', caps_ok (add i s) held0 W' None.
Proof.
  intros C Ha. unfold addable in Ha. destruct (groups s !! 1048) as [cg|] eqn:Hg; [|done].
  destruct (objects s !! object_addr i) as [ob|] eqn:Ho; [|done].
  destruct (cap_alloc _ _ _ _ s) as [r s'| | | |] eqn:Er; [|done..]. apply andb_prop in Ha as [[Rm%bool_decide_eq_true_1 Hz%Z.eqb_eq]%andb_prop HI].
  pose proof (cap_alloc_spec no_oob s held0 W 1048 cg (opaque (object_addr i)) ob 0 C Hg Rm slot_fits) as H.
  rewrite container_opaque in H. specialize (H Ho Hz HI). unfold wph in H. rewrite Er in H. unfold add. rewrite Er. apply H.
Qed.

Lemma full_fine : caps_fine 100 full.
Proof.
  split.
  - exists held0. unfold full.
    destruct (add_ok 0 start _ sample_ok) as [W1 C1]; [vm_compute; reflexivity|].
    destruct (add_ok 1 _ _ C1) as [W2 C2]; [vm_compute; reflexivity|].
    destruct (add_ok 2 _ _ C2) as [W3 C3]; [vm_compute; reflexivity|].
    apply (add_ok 3 _ _ C3). vm_compute. reflexivity.
  - check_map.
Qed.

Lemma full_cap i : 0 ≤ i < 4 → has_cap full 1048 i (ty (object_addr i)) (opaque (object_addr i)).
Proof.
  intros Hi. destruct (groups full !! 1048) as [cg|] eqn:Hg; [|by vm_compute in Hg].
  assert (slots_size (slot_tbl cg) = 64) as Hs by (vm_compute in Hg; by injection Hg as <-).
  assert (∃ rt ob, cap_view full 1048 i = Some (object_addr i, rt) ∧ objects full !! object_addr i = Some ob ∧ type ob = ty (object_addr i))
    as (rt & ob & Hv & Ho & Ht).
  { assert (i = 0 ∨ i = 1 ∨ i = 2 ∨ i = 3) as Hi' by lia. clear - Hi'. destruct Hi' as [->|[->|[->| ->]]]; eexists _, _; split_and!; vm_compute; reflexivity. }
  exists cg, (object_addr i), rt, ob. split; [exact Hg|]. split; [unfold is_int; lia|]. split; [lia|].
  split; [exact Hv|]. split; [exact Ho|]. split; [exact Ht|reflexivity].
Qed.

Lemma full_ext : ext full = e.
Proof. vm_compute. reflexivity. Qed.

End sample.
End Sample.

(** ** A small system

    [start], and the system after the first memory object got its capability. *)
Module Small.

Abbreviation st := (kstate (A := Z) (E := unit)).

Definition no_deinit (ty obj : Z) : M unit unit := λ e, Done tt e.
Definition no_oob : Z → Z := Sample.no_oob.
Definition held0 : Z → Z := Sample.held0.
Definition start : st := Sample.start tt (λ _, TYPE_PMO).
Definition one : st := Sample.add tt (λ _, TYPE_PMO) 0 start.

Lemma one_run : cap_alloc no_oob 1048 2048 0 start = Done 0 one.
Proof. vm_compute. reflexivity. Qed.

Lemma one_ok : ∃ W, caps_ok one held0 W None.
Proof.
  apply (Sample.add_ok tt (λ _, TYPE_PMO) 0 start Sample.owner0); [apply Sample.sample_ok|vm_compute; reflexivity].
Qed.

Lemma one_countable : countable one.
Proof. unfold countable. check_map. Qed.

(** The group of [one], and its free ids. *)
Lemma one_group : ∃ cg, groups one !! 1048 = Some cg ∧ slots_size (slot_tbl cg) = 64 ∧ room (slot_tbl cg).
Proof.
  destruct (groups one !! 1048) as [cg|] eqn:Hg; [|by vm_compute in Hg]. exists cg.
  assert (slots_size (slot_tbl cg) = 64) as Hs by (vm_compute in Hg; by injection Hg as <-).
  clear Hg. split; [reflexivity|]. split; [exact Hs|]. unfold room. rewrite Hs. split; vm_compute; [intros [=]|reflexivity].
Qed.

Lemma zero_int : is_int 0.
Proof. unfold is_int. lia. Qed.

Lemma one_alloc s1 : alloc_slot no_oob 1048 one ≠ Done (- ENOMEM) s1.
Proof. intros H. vm_compute in H. discriminate H. Qed.

Lemma one_pmo o rt ob : cap_view one 1048 0 = Some (o, rt) → objects one !! o = Some ob → type ob ≠ TYPE_CAP_GROUP.
Proof. intros Hv Ho. vm_compute in Hv. injection Hv as <- <-. vm_compute in Ho. by injection Ho as <-. Qed.

End Small.

Lemma cap_alloc_ok_witness : ∃ s, cap_alloc Small.no_oob 1048 2048 0 Small.start = Done 0 s ∧
  cap_view s 1048 0 = Some (2000, 0) ∧ cap_view s 1048 1 = None.
Proof.
  exists Small.one. split; [exact Small.one_run|].
  assert (wph (cap_alloc Small.no_oob 1048 2048 0) (λ r s', (∃ W', caps_ok s' Small.held0 W' None) ∧
    ((r = - ENOMEM ∧ unchanged Small.start s') ∨ (0 ≤ r ∧ cap_view Small.start 1048 r = None ∧
      ∀ h j, cap_view s' h j = if decide (h = 1048 ∧ j = r) then Some (container_of 2048, 0) else cap_view Small.start h j)))
    Small.start) as H.
  { apply (cap_alloc_ok Small.no_oob _ _ Sample.owner0 1048 (mk_cap_group Sample.table0 1 0) 2048 (mk_object TYPE_PMO 40 [] true 0));
      [apply Sample.sample_ok|reflexivity|by split|done|reflexivity|reflexivity|reflexivity]. }
  unfold wph in H. rewrite Small.one_run in H. destruct H as [_ [[H _]|(_ & _ & H)]]; [discriminate H|].
  split; rewrite H; vm_compute; reflexivity.
Defined.


Lemma cap_copy_ok_witness : ∃ s, cap_copy Small.no_oob 1048 1048 0 true 3 Small.one = Done 1 s ∧ cap_view s 1048 1 = Some (2000, 3).
Proof.
  destruct Small.one_ok as [W C]. destruct Small.one_group as (cg & Hg & _ & Rm).
  pose proof (cap_copy_ok Small.no_oob Small.one _ W 1048 1048 cg cg 0 true 3 C Small.one_countable Hg Hg Rm Sample.slot_fits Small.zero_int) as H.
  assert (cap_view Small.one 1048 0 = Some (2000, 0)) as Hv by (vm_compute; reflexivity). rewrite Hv in H.
  destruct (alloc_slot Small.no_oob 1048 Small.one) as [r s1| | | |] eqn:Ea; [|vm_compute in Ea; discriminate Ea..].
  assert (r = 1 ∧ match al_alloc (S := Z) SIZEOF_SLOT (al s1) with Done q _ => q =? 0 | _ => true end = false) as [-> Hq]
    by (vm_compute in Ea; injection Ea as <- <-; vm_compute; split; reflexivity).
  cbn [Z.ltb Z.compare] in H. destruct (al_alloc SIZEOF_SLOT (al s1)) as [q a1| | | |]; [|discriminate Hq..]. rewrite Hq in H.
  destruct H as (s & E & _ & _ & _ & HV). exists s. split; [exact E|]. rewrite HV. vm_compute. reflexivity.
Defined.

Lemma cap_move_ok_witness : ∃ s, cap_move Small.no_oob Small.no_deinit 1048 1048 0 false 0 Small.one = Done 0 s ∧
  cap_view s 1048 0 = None ∧ ∃ d, cap_view s 1048 d = Some (2000, 0).
Proof.
  destruct Small.one_ok as [W C]. destruct Small.one_group as (cg & Hg & _ & Rm).
  pose proof (cap_move_ok Small.no_deinit Small.no_oob Small.one _ W 1048 1048 cg cg 0 false 0 C Small.one_countable
    Hg Hg Rm Sample.slot_fits Small.zero_int Small.one_alloc) as H.
  destruct (cap_move Small.no_oob Small.no_deinit 1048 1048 0 false 0 Small.one) as [r s| | | |] eqn:Er; [|vm_compute in Er; discriminate Er..].
  unfold wph in H. rewrite Er in H. assert (r = 0) as -> by (vm_compute in Er; injection Er as <- _; reflexivity).
  destruct H as [_ [(H & _)|[(H & _)|(_ & d & o & rt & _ & Hd & Hv & HV)]]]; [discriminate H|discriminate H|].
  exists s. split; [reflexivity|]. split; [by rewrite HV|]. exists d. assert (d ≠ 0) as Nd by congruence.
  vm_compute in Hv. injection Hv as <- <-. rewrite HV, decide_False, decide_True by lia. reflexivity.
Defined.


End Capability.
