(* ===== verification/PageTable.v ===== *)
(** * Page tables of user address spaces (kernel/arch/aarch64/mm/page_table.c)

    Four levels of page table pages of 512 descriptors.  A page table page is
    kept by its kernel address; a descriptor is its 64-bit word, and the bit
    fields of [pte_t] are ranges of its bits.  Blocks (huge pages) are never
    installed by this code, but a query follows them. *)

From S2P Require Import Prelude Allocator.

Module PageTable.

Import Allocator.

Definition ENOMAPPING : Z := 203.

(** mmu.h *)
Definition VMR_READ : Z := 1.
Definition VMR_WRITE : Z := 2.
Definition VMR_EXEC : Z := 4.
Definition VMR_DEVICE : Z := 8.

(** page_table.h *)
Definition ARM64_MMU_ATTR_PAGE_AP_HIGH_RW_EL0_RW : Z := 1.
Definition ARM64_MMU_ATTR_PAGE_AP_HIGH_RO_EL0_RO : Z := 3.
Definition ARM64_MMU_ATTR_PAGE_UX : Z := 0.
Definition ARM64_MMU_ATTR_PAGE_UXN : Z := 1.
Definition ARM64_MMU_ATTR_PAGE_PXN : Z := 1.
Definition ARM64_MMU_ATTR_PAGE_AF_ACCESSED : Z := 1.
Definition INNER_SHAREABLE : Z := 3.
Definition NORMAL_MEMORY : Z := 4.
Definition DEVICE_MEMORY : Z := 0.
Definition IS_PTE_INVALID (pte : Z) : bool := Z.land pte 1 =? 0.
Definition IS_PTE_TABLE (pte : Z) : bool := negb (Z.land pte 2 =? 0).
Definition PAGE_SHIFT : Z := 12.
Definition PAGE_ORDER : Z := 9.
Definition PTP_ENTRIES : Z := 512.
Definition PTP_INDEX_MASK : Z := 511.
Definition L0_INDEX_SHIFT : Z := 3 * PAGE_ORDER + PAGE_SHIFT.
Definition L1_INDEX_SHIFT : Z := 2 * PAGE_ORDER + PAGE_SHIFT.
Definition L2_INDEX_SHIFT : Z := 1 * PAGE_ORDER + PAGE_SHIFT.
Definition L3_INDEX_SHIFT : Z := 0 * PAGE_ORDER + PAGE_SHIFT.
Definition GET_L0_INDEX (addr : Z) : Z := Z.land (Z.shiftr addr L0_INDEX_SHIFT) PTP_INDEX_MASK.
Definition GET_L1_INDEX (addr : Z) : Z := Z.land (Z.shiftr addr L1_INDEX_SHIFT) PTP_INDEX_MASK.
Definition GET_L2_INDEX (addr : Z) : Z := Z.land (Z.shiftr addr L2_INDEX_SHIFT) PTP_INDEX_MASK.
Definition GET_L3_INDEX (addr : Z) : Z := Z.land (Z.shiftr addr L3_INDEX_SHIFT) PTP_INDEX_MASK.
Definition L1_PER_ENTRY_PAGES : Z := 2 ^ 18.
Definition L2_PER_ENTRY_PAGES : Z := 2 ^ 9.
Definition L0_PER_ENTRY_PAGES : Z := PTP_ENTRIES * L1_PER_ENTRY_PAGES.
Definition GET_VA_OFFSET_L1 (va : Z) : Z := Z.land va (2 ^ 18 * PAGE_SIZE - 1).
Definition GET_VA_OFFSET_L2 (va : Z) : Z := Z.land va (2 ^ 9 * PAGE_SIZE - 1).
Definition GET_VA_OFFSET_L3 (va : Z) : Z := Z.land va (PAGE_SIZE - 1).
Definition PTE_DESCRIPTOR_INVALID : Z := 0.

(** A bit field of [pte_t]: its lowest bit and its width. *)
Definition field : Type := Z * Z.
Definition is_valid : field := (0, 1).
Definition is_table : field := (1, 1).
Definition next_table_addr : field := (12, 36).
Definition is_page : field := (1, 1).
Definition attr_index : field := (2, 3).
Definition AP : field := (6, 2).
Definition SH : field := (8, 2).
Definition AF : field := (10, 1).
Definition pfn : field := (12, 36).
Definition PXN : field := (53, 1).
Definition UXN : field := (54, 1).

Definition get_field (f : field) (pte : Z) : Z := Z.land (Z.shiftr pte f.1) (Z.ones f.2).
Definition set_field (f : field) (v pte : Z) : Z :=
  Z.lor (Z.ldiff pte (Z.shiftl (Z.ones f.2) f.1)) (Z.shiftl (Z.land v (Z.ones f.2)) f.1).

Definition USER_PTE : Z := 0.
Definition NORMAL_PTP : Z := 0.
Definition BLOCK_PTP : Z := 1.

Definition GET_PADDR_IN_PTE (pte : Z) : Z := Z.shiftl (get_field next_table_addr pte) PAGE_SHIFT.
Definition GET_NEXT_PTP (pte : Z) : Z := phys_to_virt (GET_PADDR_IN_PTE pte).

(** The descriptor [set_pte_flags] leaves. *)
Definition flags_set (flags pte : Z) : Z :=
  let pte := set_field AP (if Z.land flags VMR_WRITE =? 0 then ARM64_MMU_ATTR_PAGE_AP_HIGH_RO_EL0_RO
                           else ARM64_MMU_ATTR_PAGE_AP_HIGH_RW_EL0_RW) pte in
  let pte := set_field UXN (if Z.land flags VMR_EXEC =? 0 then ARM64_MMU_ATTR_PAGE_UXN else ARM64_MMU_ATTR_PAGE_UX) pte in
  let pte := set_field PXN ARM64_MMU_ATTR_PAGE_PXN pte in
  let pte := set_field AF ARM64_MMU_ATTR_PAGE_AF_ACCESSED pte in
  let pte := set_field SH INNER_SHAREABLE pte in
  set_field attr_index (if Z.land flags VMR_DEVICE =? 0 then NORMAL_MEMORY else DEVICE_MEMORY) pte.

Section pgtbl.
Context {A : Type} `{!Allocator A, !PageAllocator A}.

(** [tlb_synced]: no descriptor was written since the last [flush_tlb]. *)
Record pstate := mk_pstate { al : A; ptps : gmap Z (list Z); tlb_synced : bool }.

Abbreviation MP := (M pstate).

Definition on_al {B} (m : M A B) : MP B := zoom al (λ a s, mk_pstate a (ptps s) (tlb_synced s)) m.
Definition with_ptps (f : gmap Z (list Z) → gmap Z (list Z)) (s : pstate) : pstate :=
  mk_pstate (al s) (f (ptps s)) false.
Definition flush_tlb : MP unit := modify (λ s, mk_pstate (al s) (ptps s) true).

(** [p->ent[i].pte] *)
Definition load_pte (p i : Z) : MP Z := s <- get ;; need (ptps s !! p ≫= λ l, l !! Z.to_nat i).
Definition store_pte (p i v : Z) : MP unit :=
  s <- get ;;
  l <- need (ptps s !! p) ;;
  if i <? Z.of_nat (length l) then modify (with_ptps (<[p := <[Z.to_nat i := v]> l]>)) else fault.

Definition set_pte_flags (pte flags kind : Z) : MP Z := BUG_ON (negb (kind =? USER_PTE)) ;; ret (flags_set flags pte).

(** The descriptor of a table at [p]. *)
Definition table_pte (p : Z) : Z :=
  set_field next_table_addr (Z.shiftr (virt_to_phys p) PAGE_SHIFT) (set_field is_table 1 (set_field is_valid 1 0)).

Definition ptp_index (level va : Z) : MP Z :=
  if level =? 0 then ret (GET_L0_INDEX va)
  else if level =? 1 then ret (GET_L1_INDEX va)
  else if level =? 2 then ret (GET_L2_INDEX va)
  else if level =? 3 then ret (GET_L3_INDEX va)
  else halt.

(** A new page table page, installed in entry [index] of [cur_ptp]; returns the
    descriptor. *)
Definition alloc_ptp (cur_ptp index : Z) : MP Z :=
  new_ptp <- on_al get_page ;;
  BUG_ON (new_ptp =? 0) ;;
  modify (with_ptps (<[new_ptp := replicate (Z.to_nat PTP_ENTRIES) 0]>)) ;;
  store_pte cur_ptp index (table_pte new_ptp) ;;
  ret (table_pte new_ptp).

(** An error, or the kind of the descriptor, the next page table page and where
    the descriptor is. *)
Definition get_next_ptp (cur_ptp level va : Z) (alloc : bool) : MP (Z + Z * Z * (Z * Z)) :=
  if cur_ptp =? 0 then ret (inl (- ENOMAPPING))
  else
    index <- ptp_index level va ;;
    entry <- load_pte cur_ptp index ;;
    let found e := ret (inr (if IS_PTE_TABLE e then NORMAL_PTP else BLOCK_PTP, GET_NEXT_PTP e, (cur_ptp, index))) in
    if IS_PTE_INVALID entry then
      if alloc then e <- alloc_ptp cur_ptp index ;; found e
      else ret (inl (- ENOMAPPING))
    else found entry.

(** The physical address and where its descriptor is. *)
Definition query_in_pgtbl (pgtbl va : Z) : MP (Z + Z * (Z * Z)) :=
  r0 <- get_next_ptp pgtbl 0 va false ;;
  match r0 with
  | inl e => ret (inl e)
  | inr (_, l1_ptp, _) =>
      r1 <- get_next_ptp l1_ptp 1 va false ;;
      match r1 with
      | inl e => ret (inl e)
      | inr (k1, l2_ptp, pte1) =>
          if k1 =? BLOCK_PTP then ret (inr (u64 (virt_to_phys l2_ptp + GET_VA_OFFSET_L1 va), pte1))
          else
            r2 <- get_next_ptp l2_ptp 2 va false ;;
            match r2 with
            | inl e => ret (inl e)
            | inr (k2, l3_ptp, pte2) =>
                if k2 =? BLOCK_PTP then ret (inr (u64 (virt_to_phys l3_ptp + GET_VA_OFFSET_L2 va), pte2))
                else
                  r3 <- get_next_ptp l3_ptp 3 va false ;;
                  match r3 with
                  | inl e => ret (inl e)
                  | inr (_, phys_page, pte) => ret (inr (u64 (virt_to_phys phys_page + GET_VA_OFFSET_L3 va), pte))
                  end
            end
      end
  end.

Definition total_page_cnt (len : Z) : Z := len / PAGE_SIZE + (if 0 <? len mod PAGE_SIZE then 1 else 0).

(** The loop over the entries [i], ... of the last level; returns [va], [pa] and
    [total_page_cnt]. *)
Fixpoint map_entries (n : nat) (l3_ptp i va pa cnt flags : Z) : MP (Z * Z * Z) :=
  match n with
  | O => ret (va, pa, cnt)
  | S n' =>
      new_pte_val <- set_pte_flags (set_field pfn (Z.shiftr pa PAGE_SHIFT) (set_field is_page 1 (set_field is_valid 1 0)))
                       flags USER_PTE ;;
      store_pte l3_ptp i new_pte_val ;;
      let va := u64 (va + PAGE_SIZE) in
      let pa := u64 (pa + PAGE_SIZE) in
      let cnt := cnt - 1 in
      if cnt =? 0 then ret (va, pa, cnt) else map_entries n' l3_ptp (i + 1) va pa cnt flags
  end.

(** [BUG_ON(ret != 0)] *)
Definition next_or_bug (ptp level va : Z) : MP Z :=
  r <- get_next_ptp ptp level va true ;;
  match r with inr (k, next, _) => BUG_ON (negb (k =? 0)) ;; ret next | inl _ => halt end.

(** The [while] loop: every turn takes at least one page off the count. *)
Fixpoint map_loop (fuel : nat) (l0_ptp va pa cnt flags : Z) : MP unit :=
  if 0 <? cnt then
    match fuel with
    | O => λ _, Spin
    | S fuel' =>
        l1_ptp <- next_or_bug l0_ptp 0 va ;;
        l2_ptp <- next_or_bug l1_ptp 1 va ;;
        l3_ptp <- next_or_bug l2_ptp 2 va ;;
        let pte_index := GET_L3_INDEX va in
        r <- map_entries (Z.to_nat (PTP_ENTRIES - pte_index)) l3_ptp pte_index va pa cnt flags ;;
        let '(va, pa, cnt) := r in
        map_loop fuel' l0_ptp va pa cnt flags
    end
  else ret tt.

Definition map_range_in_pgtbl (pgtbl va pa len flags : Z) : MP Z :=
  BUG_ON (pgtbl =? 0) ;;
  map_loop (Z.to_nat (total_page_cnt len)) pgtbl va pa (total_page_cnt len) flags ;;
  flush_tlb ;;
  ret 0.

(** The loops of [unmap_range_in_pgtbl] and [mprotect_in_pgtbl], which differ in
    what is done to an entry of the last level. *)
Fixpoint range_entries (act : Z → Z → MP unit) (n : nat) (l3_ptp i va cnt : Z) : MP (Z * Z) :=
  match n with
  | O => ret (va, cnt)
  | S n' =>
      act l3_ptp i ;;
      let va := u64 (va + PAGE_SIZE) in
      let cnt := cnt - 1 in
      if cnt =? 0 then ret (va, cnt) else range_entries act n' l3_ptp (i + 1) va cnt
  end.

(** [Some] page table page, or [None] on [-ENOMAPPING]. *)
Definition next_or_skip (ptp level va : Z) : MP (option Z) :=
  r <- get_next_ptp ptp level va false ;;
  ret (match r with inr (_, next, _) => Some next | inl _ => None end).

Fixpoint range_loop (act : Z → Z → MP unit) (fuel : nat) (l0_ptp va cnt : Z) : MP unit :=
  if 0 <? cnt then
    match fuel with
    | O => λ _, Spin
    | S fuel' =>
        o1 <- next_or_skip l0_ptp 0 va ;;
        match o1 with
        | None => range_loop act fuel' l0_ptp (u64 (va + L0_PER_ENTRY_PAGES * PAGE_SIZE)) (cnt - L0_PER_ENTRY_PAGES)
        | Some l1_ptp =>
            o2 <- next_or_skip l1_ptp 1 va ;;
            match o2 with
            | None => range_loop act fuel' l0_ptp (u64 (va + L1_PER_ENTRY_PAGES * PAGE_SIZE)) (cnt - L1_PER_ENTRY_PAGES)
            | Some l2_ptp =>
                o3 <- next_or_skip l2_ptp 2 va ;;
                match o3 with
                | None => range_loop act fuel' l0_ptp (u64 (va + L2_PER_ENTRY_PAGES * PAGE_SIZE)) (cnt - L2_PER_ENTRY_PAGES)
                | Some l3_ptp =>
                    let pte_index := GET_L3_INDEX va in
                    r <- range_entries act (Z.to_nat (PTP_ENTRIES - pte_index)) l3_ptp pte_index va cnt ;;
                    range_loop act fuel' l0_ptp r.1 r.2
                end
            end
        end
    end
  else ret tt.

Definition unmap_entry (l3_ptp i : Z) : MP unit := store_pte l3_ptp i PTE_DESCRIPTOR_INVALID.

Definition unmap_range_in_pgtbl (pgtbl va len : Z) : MP Z :=
  if pgtbl =? 0 then ret 0
  else
    range_loop unmap_entry (Z.to_nat (total_page_cnt len)) pgtbl va (total_page_cnt len) ;;
    flush_tlb ;;
    ret 0.

Definition mprotect_entry (flags l3_ptp i : Z) : MP unit :=
  e <- load_pte l3_ptp i ;;
  if IS_PTE_INVALID e then ret tt
  else e' <- set_pte_flags e flags USER_PTE ;; store_pte l3_ptp i e'.

Definition mprotect_in_pgtbl (pgtbl va len flags : Z) : MP Z :=
  if pgtbl =? 0 then ret 0
  else
    range_loop (mprotect_entry flags) (Z.to_nat (total_page_cnt len)) pgtbl va (total_page_cnt len) ;;
    flush_tlb ;;
    ret 0.

End pgtbl.

Arguments pstate A : clear implicits.

(** ** Descriptors *)

Definition ranged (f : field) (n : Z) : bool := (f.1 <=? n) && (n <? f.1 + f.2).

Lemma set_field_bits f v pte n : 0 ≤ f.1 → 0 ≤ f.2 → 0 ≤ n →
  Z.testbit (set_field f v pte) n = if ranged f n then Z.testbit v (n - f.1) else Z.testbit pte n.
Proof.
  intros H1 H2 Hn. unfold set_field, ranged. rewrite Z.lor_spec, Z.ldiff_spec, !Z.shiftl_spec by lia.
  destruct (Z.leb_spec f.1 n) as [L|L]; simpl.
  - rewrite Z.land_spec, !Z.testbit_ones_nonneg by lia. replace (n - f.1 <? f.2) with (n <? f.1 + f.2).
    + destruct (n <? f.1 + f.2); simpl; [by rewrite andb_false_r, andb_true_r|by rewrite andb_true_r, andb_false_r, orb_false_r].
    + destruct (Z.ltb_spec n (f.1 + f.2)), (Z.ltb_spec (n - f.1) f.2); lia || done.
  - rewrite !(Z.testbit_neg_r _ (n - f.1)) by lia. simpl. by rewrite andb_true_r, orb_false_r.
Qed.

Lemma get_field_bits f pte n : 0 ≤ f.1 → 0 ≤ f.2 → 0 ≤ n →
  Z.testbit (get_field f pte) n = if n <? f.2 then Z.testbit pte (n + f.1) else false.
Proof.
  intros H1 H2 Hn. unfold get_field. rewrite Z.land_spec, Z.shiftr_spec, Z.testbit_ones_nonneg by lia.
  by destruct (n <? f.2); rewrite ?andb_true_r, ?andb_false_r.
Qed.

Lemma get_set_same f v pte : 0 ≤ f.1 → 0 ≤ f.2 → 0 ≤ v < 2 ^ f.2 → get_field f (set_field f v pte) = v.
Proof.
  intros H1 H2 Hv. apply Z.bits_inj'. intros n Hn. rewrite get_field_bits by lia. destruct (Z.ltb_spec n f.2) as [L|L].
  - rewrite set_field_bits by lia. unfold ranged. rewrite (proj2 (Z.leb_le _ _)), (proj2 (Z.ltb_lt _ _)) by lia.
    cbn [andb]. f_equal. lia.
  - destruct (decide (v = 0)) as [->|Nv]; [by rewrite Z.bits_0|]. rewrite Z.bits_above_log2; [done|lia|].
    apply Z.log2_lt_pow2; [lia|]. eapply Z.lt_le_trans; [apply Hv|]. by apply Z.pow_le_mono_r.
Qed.

Lemma get_set_other f g v pte : 0 ≤ f.1 → 0 ≤ f.2 → 0 ≤ g.1 → 0 ≤ g.2 → (f.1 + f.2 ≤ g.1 ∨ g.1 + g.2 ≤ f.1) →
  get_field g (set_field f v pte) = get_field g pte.
Proof.
  intros F1 F2 G1 G2 H. apply Z.bits_inj'. intros n Hn. rewrite !get_field_bits by lia.
  destruct (Z.ltb_spec n g.2) as [L|L]; [|done]. rewrite set_field_bits by lia. unfold ranged.
  destruct (Z.leb_spec f.1 (n + g.1)), (Z.ltb_spec (n + g.1) (f.1 + f.2)); simpl; done || lia.
Qed.

Lemma land_pow2 a k : 0 ≤ k → (Z.land a (2 ^ k) =? 0) = negb (Z.testbit a k).
Proof.
  intros Hk. destruct (Z.testbit a k) eqn:E; cbn [negb].
  - apply Z.eqb_neq. intros H. assert (Z.testbit (Z.land a (2 ^ k)) k = false) as H2 by (rewrite H; apply Z.bits_0).
    rewrite Z.land_spec, E, Z.pow2_bits_true in H2 by done. done.
  - apply Z.eqb_eq. apply Z.bits_inj'. intros n Hn. rewrite Z.land_spec, Z.bits_0, Z.pow2_bits_eqb by done.
    destruct (Z.eqb_spec k n) as [<-|]; [by rewrite E|by rewrite andb_false_r].
Qed.

Lemma invalid_bit e : IS_PTE_INVALID e = negb (Z.testbit e 0).
Proof. apply (land_pow2 e 0). done. Qed.
Lemma table_bit e : IS_PTE_TABLE e = Z.testbit e 1.
Proof. unfold IS_PTE_TABLE. change 2 with (2 ^ 1) at 1. rewrite land_pow2 by done. apply negb_involutive. Qed.

(** What [map_range_in_pgtbl] installs for the page at [pa]. *)
Definition page_pte (pa flags : Z) : Z :=
  flags_set flags (set_field pfn (Z.shiftr pa PAGE_SHIFT) (set_field is_page 1 (set_field is_valid 1 0))).

Lemma flags_set_bits flags e n : 0 ≤ n → (n < 2 ∨ 12 ≤ n < 53 ∨ 55 ≤ n) → Z.testbit (flags_set flags e) n = Z.testbit e n.
Proof.
  intros Hn H. unfold flags_set. cbv zeta.
  assert (∀ f v x, 0 ≤ f.1 → 0 ≤ f.2 → ranged f n = false → Z.testbit (set_field f v x) n = Z.testbit x n) as K
    by (intros f v x H1 H2 H3; rewrite set_field_bits by done; by rewrite H3).
  rewrite !K; try done; unfold ranged; simpl; apply andb_false_iff; rewrite Z.leb_gt, Z.ltb_ge; lia.
Qed.

Lemma page_pte_valid pa flags : IS_PTE_INVALID (page_pte pa flags) = false ∧ IS_PTE_TABLE (page_pte pa flags) = true.
Proof.
  unfold page_pte. rewrite invalid_bit, table_bit, !flags_set_bits by lia. by rewrite !set_field_bits.
Qed.

Lemma paddr_bits e e' : (∀ n, 12 ≤ n < 48 → Z.testbit e n = Z.testbit e' n) → GET_PADDR_IN_PTE e = GET_PADDR_IN_PTE e'.
Proof.
  intros H. unfold GET_PADDR_IN_PTE. f_equal. apply Z.bits_inj'. intros n Hn. rewrite !get_field_bits by done.
  destruct (Z.ltb_spec n next_table_addr.2) as [L|]; [|done]. apply H. simpl in *. lia.
Qed.

(** The physical address in the descriptor of a page. *)
Lemma page_pte_paddr pa flags : 0 ≤ pa < 2 ^ 48 → GET_PADDR_IN_PTE (page_pte pa flags) = pa - pa mod PAGE_SIZE.
Proof.
  intros H. rewrite (paddr_bits _ (set_field pfn (Z.shiftr pa PAGE_SHIFT) (set_field is_page 1 (set_field is_valid 1 0))))
    by (intros n Hn; apply flags_set_bits; lia).
  unfold GET_PADDR_IN_PTE. change next_table_addr with pfn. rewrite Z.shiftr_div_pow2 by done. change (2 ^ PAGE_SHIFT) with PAGE_SIZE.
  pose proof (Z.div_mod pa PAGE_SIZE ltac:(done)). pose proof (Z.mod_pos_bound pa PAGE_SIZE ltac:(done)). unfold PAGE_SIZE in *.
  rewrite get_set_same; [|done|done|]; [rewrite Z.shiftl_mul_pow2 by done; change (2 ^ PAGE_SHIFT) with 4096; lia|].
  change (2 ^ pfn.2) with (2 ^ 36). split; [apply Z.div_pos; lia|apply Z.div_lt_upper_bound; lia].
Qed.

Lemma phys_virt p : direct_map p → p + PAGE_SIZE ≤ 2 ^ 64 → phys_to_virt (virt_to_phys p) = p ∧ 0 ≤ virt_to_phys p < 2 ^ 40.
Proof.
  intros [H1 _] H2. unfold phys_to_virt, virt_to_phys. unfold PAGE_SIZE, KBASE in *.
  rewrite (u64_id (p - _)) by (unfold is_u64; lia). split; [|lia]. rewrite u64_id by (unfold is_u64; lia). lia.
Qed.

Lemma table_pte_ok p : direct_map p → p + PAGE_SIZE ≤ 2 ^ 64 →
  IS_PTE_INVALID (table_pte p) = false ∧ IS_PTE_TABLE (table_pte p) = true ∧ GET_NEXT_PTP (table_pte p) = p.
Proof.
  intros D H. destruct (phys_virt p D H) as [HV HR]. unfold table_pte. rewrite invalid_bit, table_bit, !set_field_bits by done.
  split; [done|]. split; [done|]. unfold GET_NEXT_PTP, GET_PADDR_IN_PTE. rewrite Z.shiftr_div_pow2 by done.
  change (2 ^ PAGE_SHIFT) with 4096. rewrite get_set_same; [|done|done|].
  2: { change (2 ^ next_table_addr.2) with (2 ^ 36). split; [apply Z.div_pos; lia|apply Z.div_lt_upper_bound; lia]. }
  rewrite Z.shiftl_mul_pow2 by done. change (2 ^ PAGE_SHIFT) with 4096. rewrite <- HV at 2. f_equal.
  assert (virt_to_phys p mod 4096 = 0) as Hm.
  { destruct D as [D1 D2]. unfold virt_to_phys, PAGE_SIZE, KBASE in *. rewrite u64_id by (unfold is_u64; lia).
    rewrite Zminus_mod, D2. done. }
  pose proof (Z.div_mod (virt_to_phys p) 4096 ltac:(done)). lia.
Qed.

(** ** The tree

    [v] is the number of a virtual page.  The page table page of level [l] that
    translates it is the one for the prefix [pre l v], and its entry there is
    [idx l v]. *)

Definition pre (l v : Z) : Z := v / 512 ^ (4 - l).
Definition idx (l v : Z) : Z := (v / 512 ^ (3 - l)) mod 512.
Definition VPAGES : Z := 2 ^ 36.

Lemma idx_range l v : 0 ≤ idx l v < 512.
Proof. by apply Z.mod_pos_bound. Qed.

Lemma pre_step l v : 0 ≤ l ≤ 3 → pre (l + 1) v = pre l v * 512 + idx l v.
Proof.
  intros Hl. unfold pre, idx. replace (4 - (l + 1)) with (3 - l) by lia.
  replace (512 ^ (4 - l)) with (512 ^ (3 - l) * 512) by (replace (4 - l) with (Z.succ (3 - l)) by lia; rewrite Z.pow_succ_r by lia; lia).
  pose proof (Z.pow_pos_nonneg 512 (3 - l) ltac:(done) ltac:(lia)). rewrite <- Z.div_div by lia.
  pose proof (Z.div_mod (v / 512 ^ (3 - l)) 512 ltac:(done)). lia.
Qed.

Lemma pre_root v : 0 ≤ v < VPAGES → pre 0 v = 0.
Proof. intros H. apply Z.div_small. exact H. Qed.
Lemma pre_leaf v : pre 3 v = v / 512.
Proof. done. Qed.
Lemma idx_leaf v : idx 3 v = v mod 512.
Proof. unfold idx. change (512 ^ (3 - 3)) with 1. by rewrite Z.div_1_r. Qed.

Lemma pre_child l v : 0 ≤ l ≤ 3 → pre (l + 1) v / 512 = pre l v ∧ pre (l + 1) v mod 512 = idx l v.
Proof.
  intros Hl. rewrite pre_step by done. pose proof (idx_range l v). split.
  - rewrite Z.div_add_l, (Z.div_small (idx l v)) by done. lia.
  - rewrite Z.add_comm, Z.mod_add by done. by apply Z.mod_small.
Qed.

Lemma index_ok va k : 0 ≤ k → Z.land (Z.shiftr va (k * PAGE_ORDER + PAGE_SHIFT)) PTP_INDEX_MASK = (va / PAGE_SIZE / 512 ^ k) mod 512.
Proof.
  intros Hk. change PTP_INDEX_MASK with (Z.ones 9). rewrite Z.land_ones, Z.shiftr_div_pow2 by (unfold PAGE_ORDER, PAGE_SHIFT; lia).
  change (2 ^ 9) with 512. f_equal. rewrite Z.div_div by (try apply Z.pow_pos_nonneg; done). f_equal.
  rewrite Z.add_comm, Z.pow_add_r by (unfold PAGE_ORDER, PAGE_SHIFT; lia). unfold PAGE_ORDER.
  by rewrite (Z.mul_comm k 9), Z.pow_mul_r by lia.
Qed.

Lemma l3_index va : GET_L3_INDEX va = (va / PAGE_SIZE) mod 512.
Proof. rewrite <- (Z.div_1_r (va / PAGE_SIZE)). exact (index_ok va 0 ltac:(done)). Qed.

Section tree.
Context {A : Type} `{!Allocator A, !PageAllocator A}.
Implicit Types s : pstate A.

Definition entry s (p i : Z) : option Z := ptps s !! p ≫= λ l, l !! Z.to_nat i.

Lemma ptp_index_ok l va s : 0 ≤ l ≤ 3 → ptp_index l va s = Done (idx l (va / PAGE_SIZE)) s.
Proof.
  intros Hl. unfold ptp_index, idx. assert (l = 0 ∨ l = 1 ∨ l = 2 ∨ l = 3) as [->|[->|[->| ->]]] by lia; unfold ret; simpl Z.eqb; cbv iota;
    f_equal; [apply (index_ok va 3)|apply (index_ok va 2)|apply (index_ok va 1)|apply (index_ok va 0)]; done.
Qed.

(** [own] gives the level and the prefix of each page table page of the tree
    with root [root]; [D] are the other owned addresses. *)
Record pt_ok (root : Z) (own : gmap Z (Z * Z)) (D : gset Z) s : Prop := {
  po_root : own !! root = Some (0, 0);
  po_level : ∀ p l a, own !! p = Some (l, a) → 0 ≤ l ≤ 3;
  po_table : ∀ p x, own !! p = Some x → ∃ t, ptps s !! p = Some t ∧ length t = 512%nat;
  po_page : ∀ p x, own !! p = Some x → direct_map p ∧ p + PAGE_SIZE ≤ 2 ^ 64;
  po_inj : ∀ p q x, own !! p = Some x → own !! q = Some x → p = q;
  po_child : ∀ p l a i e, own !! p = Some (l, a) → l < 3 → 0 ≤ i < 512 → entry s p i = Some e → IS_PTE_INVALID e = false →
    IS_PTE_TABLE e = true ∧ own !! GET_NEXT_PTP e = Some (l + 1, a * 512 + i);
  po_parent : ∀ q l b, own !! q = Some (l + 1, b) → 0 ≤ l → ∃ p e, own !! p = Some (l, b / 512) ∧
    entry s p (b mod 512) = Some e ∧ IS_PTE_INVALID e = false;
  po_leaf : ∀ p a i e, own !! p = Some (3, a) → 0 ≤ i < 512 → entry s p i = Some e → IS_PTE_INVALID e = false → IS_PTE_TABLE e = true;
  po_heap : holds (al s) (D ∪ dom own);
  po_sep : D ## dom own
}.

(** The descriptor of page [w]. *)
Definition pte_is (own : gmap Z (Z * Z)) s (w e : Z) : Prop :=
  ∃ q, own !! q = Some (3, w / 512) ∧ entry s q (w mod 512) = Some e ∧ IS_PTE_INVALID e = false.

Lemma entry_is root own D s p x i : pt_ok root own D s → own !! p = Some x → 0 ≤ i < 512 → is_Some (entry s p i).
Proof.
  intros P Hp Hi. destruct (po_table _ _ _ _ P p x Hp) as (t & Ht & Hl). unfold entry. rewrite Ht. apply lookup_lt_is_Some. lia.
Qed.

Lemma load_pte_ok s p i e : entry s p i = Some e → load_pte p i s = Done e s.
Proof. unfold entry. intros H. unfold load_pte. erewrite bind_Done by reflexivity. by rewrite H. Qed.

Lemma po_pos root own D s p x : pt_ok root own D s → own !! p = Some x → (p =? 0) = false.
Proof. intros P Hp. destruct (po_page _ _ _ _ P p x Hp) as [H%direct_map_pos _]. apply Z.eqb_neq. lia. Qed.

(** The state after a store. *)
Definition stored (p i v : Z) s : pstate A :=
  match ptps s !! p with Some t => with_ptps (<[p := <[Z.to_nat i := v]> t]>) s | None => s end.

Lemma store_pte_ok root own D s p x i v : pt_ok root own D s → own !! p = Some x → 0 ≤ i < 512 →
  store_pte p i v s = Done tt (stored p i v s).
Proof.
  intros P Hp Hi. destruct (po_table _ _ _ _ P p x Hp) as (t & Ht & Hl). unfold store_pte, stored.
  erewrite bind_Done by reflexivity. rewrite Ht. erewrite bind_Done by reflexivity. by rewrite (proj2 (Z.ltb_lt _ _)) by lia.
Qed.

Lemma entry_stored root own D s p x i v q j : pt_ok root own D s → own !! p = Some x → 0 ≤ i < 512 → 0 ≤ j →
  entry (stored p i v s) q j = if decide (q = p ∧ j = i) then Some v else entry s q j.
Proof.
  intros P Hp Hi Hj. destruct (po_table _ _ _ _ P p x Hp) as (t & Ht & Hl). unfold stored, entry. rewrite Ht. simpl.
  destruct (decide (q = p)) as [->|Nq].
  - rewrite lookup_insert_eq, Ht. simpl. destruct (decide (j = i)) as [->|Nj].
    + rewrite decide_True by done. apply list_lookup_insert_eq. lia.
    + rewrite decide_False by naive_solver. apply list_lookup_insert_ne. lia.
  - rewrite lookup_insert_ne by done. by rewrite decide_False by naive_solver.
Qed.

Lemma stored_table root own D s p x i v q t : pt_ok root own D s → own !! p = Some x → ptps s !! q = Some t →
  ∃ t', ptps (stored p i v s) !! q = Some t' ∧ length t' = length t.
Proof.
  intros P Hp Hq. destruct (po_table _ _ _ _ P p x Hp) as (t0 & Ht & _). unfold stored. rewrite Ht. simpl.
  destruct (decide (q = p)) as [->|Nq].
  - rewrite lookup_insert_eq. eexists. split; [done|]. rewrite length_insert. congruence.
  - rewrite lookup_insert_ne by done. by exists t.
Qed.

Lemma stored_al p i v s : al (stored p i v s) = al s.
Proof. unfold stored. by destruct (ptps s !! p). Qed.
Lemma stored_other p i v s q : q ≠ p → ptps (stored p i v s) !! q = ptps s !! q.
Proof. intros H. unfold stored. destruct (ptps s !! p); [|done]. simpl. by rewrite lookup_insert_ne. Qed.

Lemma root_pre root own D s v : pt_ok root own D s → 0 ≤ v < VPAGES → own !! root = Some (0, pre 0 v).
Proof. intros P Hv. rewrite pre_root by done. apply (po_root _ _ _ _ P). Qed.

(** One step down the tree. *)
Lemma next_spec root own D s p l v va b : pt_ok root own D s → 0 ≤ l < 3 → va / PAGE_SIZE = v → own !! p = Some (l, pre l v) →
  (∃ q, own !! q = Some (l + 1, pre (l + 1) v) ∧ get_next_ptp p l va b s = Done (inr (NORMAL_PTP, q, (p, idx l v))) s) ∨
  ((∀ q, own !! q ≠ Some (l + 1, pre (l + 1) v)) ∧ (∃ e, entry s p (idx l v) = Some e ∧ IS_PTE_INVALID e = true) ∧
   get_next_ptp p l va false s = Done (inl (- ENOMAPPING)) s ∧
   get_next_ptp p l va true s = (e <- alloc_ptp p (idx l v) ;;
     ret (inr (if IS_PTE_TABLE e then NORMAL_PTP else BLOCK_PTP, GET_NEXT_PTP e, (p, idx l v)))) s).
Proof.
  intros P Hl Hv Hp. pose proof (idx_range l v) as Hi. destruct (entry_is _ _ _ _ _ _ _ P Hp Hi) as [e He].
  assert (∀ b, get_next_ptp p l va b s =
    (if IS_PTE_INVALID e then
       if b then e <- alloc_ptp p (idx l v) ;; ret (inr (if IS_PTE_TABLE e then NORMAL_PTP else BLOCK_PTP, GET_NEXT_PTP e, (p, idx l v)))
       else ret (inl (- ENOMAPPING))
     else ret (inr (if IS_PTE_TABLE e then NORMAL_PTP else BLOCK_PTP, GET_NEXT_PTP e, (p, idx l v)))) s) as E.
  { intros b'. unfold get_next_ptp. rewrite (po_pos _ _ _ _ _ _ P Hp). erewrite bind_Done by (apply ptp_index_ok; lia).
    rewrite Hv. by erewrite bind_Done by (by apply load_pte_ok). }
  destruct (IS_PTE_INVALID e) eqn:Ei; [right|left].
  - split_and!; [|by exists e|by rewrite E|by rewrite E]. intros q Hq. destruct (po_parent _ _ _ _ P q l _ Hq ltac:(lia)) as (p' & e' & Hp' & He' & Hi').
    destruct (pre_child l v ltac:(lia)) as [E1 E2]. rewrite E1 in Hp'. rewrite E2 in He'.
    rewrite (po_inj _ _ _ _ P _ _ _ Hp' Hp) in He'. congruence.
  - destruct (po_child _ _ _ _ P p l _ _ e Hp ltac:(lia) Hi He Ei) as [Ht Hn]. exists (GET_NEXT_PTP e).
    rewrite pre_step by lia. split; [done|]. by rewrite E, Ht.
Qed.

(** A page of zeroes. *)
Definition zero_page : list Z := replicate (Z.to_nat PTP_ENTRIES) 0.

Definition with_page (a : A) (q : Z) s : pstate A := with_ptps (<[q := zero_page]>) (mk_pstate a (ptps s) (tlb_synced s)).

Lemma entry_with_page a q s x j : 0 ≤ j < 512 → entry (with_page a q s) x j = if decide (x = q) then Some 0 else entry s x j.
Proof.
  intros Hj. unfold entry, with_page. simpl. destruct (decide (x = q)) as [->|N].
  - rewrite lookup_insert_eq. simpl. unfold zero_page. apply lookup_replicate_2. change PTP_ENTRIES with 512. lia.
  - by rewrite lookup_insert_ne.
Qed.

(** A fresh page does not disturb the tree. *)
Lemma pt_ok_page root own D s a q : pt_ok root own D s → q ∉ dom own → holds a ({[q]} ∪ (D ∪ dom own)) → q ∉ D →
  pt_ok root own ({[q]} ∪ D) (with_page a q s).
Proof.
  intros [P1 P2 P3 P4 P5 P6 P7 P8 P9 P10] Nq Ha ND.
  assert (∀ p x, own !! p = Some x → p ≠ q) as Np by (intros p x Hp ->; apply Nq; by eapply elem_of_dom_2).
  assert (∀ p x j, own !! p = Some x → 0 ≤ j < 512 → entry (with_page a q s) p j = entry s p j) as HE
    by (intros p x j Hp Hj; rewrite entry_with_page, decide_False by eauto; done).
  split; try done.
  - intros p x Hp. destruct (P3 p x Hp) as (t & Ht & Hl). exists t. split; [|done]. simpl. rewrite lookup_insert_ne; [done|].
    intros <-. by eapply Np.
  - intros p l b i e Hp Hl Hi. rewrite (HE p _ i Hp Hi). by eapply P6.
  - intros x l b Hx Hl. destruct (P7 x l b Hx Hl) as (p & e & Hp & He & Hv). exists p, e. split; [done|].
    rewrite (HE p _ _ Hp); [done|]. by apply Z.mod_pos_bound.
  - intros p b i e Hp Hi. rewrite (HE p _ i Hp Hi). by eapply P8.
  - simpl. by rewrite <- (assoc_L (∪)).
  - apply disjoint_union_l. split; [by apply disjoint_singleton_l|done].
Qed.

Lemma alloc_spec root own D s p l v : pt_ok root own D s → 0 ≤ l < 3 → own !! p = Some (l, pre l v) →
  (∀ q, own !! q ≠ Some (l + 1, pre (l + 1) v)) → (∃ e, entry s p (idx l v) = Some e ∧ IS_PTE_INVALID e = true) →
  alloc_ptp p (idx l v) s = Halt ∨ ∃ q s', alloc_ptp p (idx l v) s = Done (table_pte q) s' ∧ (q ∉ dom own) ∧
  direct_map q ∧ q + PAGE_SIZE ≤ 2 ^ 64 ∧ pt_ok root (<[q := (l + 1, pre (l + 1) v)]> own) D s' ∧
  (∀ w e, pte_is (<[q := (l + 1, pre (l + 1) v)]> own) s' w e ↔ pte_is own s w e) ∧
  (∀ x, x ∉ dom own → x ≠ q → ptps s' !! x = ptps s !! x).
Proof.
  intros P Hl Hp Hno (e0 & He0 & Hi0). pose proof (idx_range l v) as Hi. unfold alloc_ptp, on_al.
  destruct (page_holds (al s) _ (po_heap _ _ _ _ P)) as (q & a & E & [[-> _]|(Dq & Tq & Nq & Ha)]);
    erewrite bind_Done by (apply zoom_Done; exact E); [by left|right].
  apply not_elem_of_union in Nq as [ND Nq]. pose proof (direct_map_pos q Dq). rewrite (proj2 (Z.eqb_neq q 0)) by lia.
  erewrite bind_Done by reflexivity. erewrite bind_Done by reflexivity. fold zero_page. fold (with_page a q s).
  pose proof (pt_ok_page root own D s a q P Nq Ha ND) as P1. set (s1 := with_page a q s) in *.
  erewrite bind_Done by (eapply store_pte_ok; [exact P1|exact Hp|exact Hi]).
  exists q, (stored p (idx l v) (table_pte q) s1). split; [done|]. destruct (table_pte_ok q Dq Tq) as (V1 & V2 & V3).
  assert (p ≠ q) as Npq by (intros ->; apply Nq; by eapply elem_of_dom_2).
  assert (∀ x y j, own !! x = Some y → 0 ≤ j < 512 → entry (stored p (idx l v) (table_pte q) s1) x j =
    if decide (x = p ∧ j = idx l v) then Some (table_pte q) else entry s x j) as HE.
  { intros x y j Hx Hj. rewrite (entry_stored _ _ _ _ _ _ _ _ _ _ P1 Hp Hi) by lia. case_decide; [done|].
    unfold s1. rewrite entry_with_page, decide_False; [done| |done]. intros ->. apply Nq. by eapply elem_of_dom_2. }
  assert (∀ j, 0 ≤ j < 512 → entry (stored p (idx l v) (table_pte q) s1) q j = Some 0) as HQ.
  { intros j Hj. rewrite (entry_stored _ _ _ _ _ _ _ _ _ _ P1 Hp Hi) by lia. rewrite decide_False by naive_solver.
    unfold s1. by rewrite entry_with_page, decide_True. }
  split_and!; try done.
  - apply not_elem_of_dom in Nq as Nq'. destruct P as [Q1 Q2 Q3 Q4 Q5 Q6 Q7 Q8 Q9 Q10]. split.
    + rewrite lookup_insert_ne; [done|]. intros <-. congruence.
    + intros x m b [[<- [= <- <-]]|[_ Hx]]%lookup_insert_Some; [lia|by eapply Q2].
    + intros x y [[<- _]|[Nx Hx]]%lookup_insert_Some.
      * destruct (stored_table _ _ _ _ _ _ (idx l v) (table_pte q) q zero_page P1 Hp) as (t' & Ht' & Hlen); [by apply lookup_insert_eq|].
        exists t'. split; [done|]. by rewrite Hlen.
      * destruct (po_table _ _ _ _ P1 x y Hx) as (t & Ht & Hlen).
        destruct (stored_table _ _ _ _ _ _ (idx l v) (table_pte q) x t P1 Hp Ht) as (t' & Ht' & Hlen'). exists t'. split; [done|]. congruence.
    + intros x y [[<- _]|[_ Hx]]%lookup_insert_Some; [done|by eapply Q4].
    + intros x y z [[<- <-]|[_ Hx]]%lookup_insert_Some [[<- ?]|[_ Hy]]%lookup_insert_Some; [done| | |by eapply Q5];
        [by destruct (Hno y)|subst z; by destruct (Hno x)].
    + intros x m b j e [[<- [= <- <-]]|[Nx Hx]]%lookup_insert_Some Hm Hj; [rewrite (HQ j Hj); by intros [= <-]|].
      rewrite (HE x _ j Hx Hj). case_decide as D0.
      * destruct D0 as [-> ->]. rewrite Hp in Hx. injection Hx as <- <-. intros [= <-] _. split; [done|]. rewrite V3, lookup_insert_eq.
        by rewrite pre_step by lia.
      * intros He Hv. destruct (Q6 x m b j e Hx Hm Hj He Hv) as [? Hn]. split; [done|]. rewrite lookup_insert_ne; [done|].
        intros Eq. rewrite <- Eq in Hn. congruence.
    + intros x m b [[<- [= Em <-]]|[_ Hx]]%lookup_insert_Some Hm.
      * assert (m = l) as -> by lia. destruct (pre_child l v ltac:(lia)) as [-> ->]. exists p, (table_pte q).
        split; [by rewrite lookup_insert_ne|]. by rewrite (HE p _ _ Hp Hi), decide_True.
      * destruct (Q7 x m b Hx Hm) as (p' & e & Hp' & He & Hv). pose proof (Z.mod_pos_bound b 512 ltac:(done)) as Hb.
        destruct (decide (p' = p ∧ b mod 512 = idx l v)) as [[-> Eb]|Nb]; [rewrite Eb in He; congruence|]. exists p', e.
        split; [rewrite lookup_insert_ne; [done|intros <-; congruence]|]. rewrite (HE p' _ _ Hp' Hb). by rewrite decide_False.
    + intros x b j e [[<- [= Em <-]]|[_ Hx]]%lookup_insert_Some Hj; [rewrite (HQ j Hj); by intros [= <-]|].
      rewrite (HE x _ j Hx Hj). case_decide as D0; [intros [= <-]; done|]. by eapply Q8.
    + rewrite stored_al. simpl. by rewrite dom_insert_L, (assoc_L (∪) D), (comm_L (∪) D), <- (assoc_L (∪)).
    + rewrite dom_insert_L. apply disjoint_union_r. split; [by apply disjoint_singleton_r|done].
  - intros w e. pose proof (Z.mod_pos_bound w 512 ltac:(done)) as Hw. apply not_elem_of_dom in Nq. split.
    + intros (x & [[<- _]|[_ Hx]]%lookup_insert_Some & He & Hv); [rewrite (HQ _ Hw) in He; by injection He as <-|].
      exists x. split; [done|]. rewrite (HE x _ _ Hx Hw) in He. case_decide as D0; [|done].
      destruct D0 as [-> _]. rewrite Hp in Hx. injection Hx. lia.
    + intros (x & Hx & He & Hv). exists x. split; [rewrite lookup_insert_ne; [done|intros <-; congruence]|].
      rewrite (HE x _ _ Hx Hw). rewrite decide_False; [done|]. intros [-> _]. rewrite Hp in Hx. injection Hx. lia.
  - intros x Nx Nxq. rewrite stored_other by (intros ->; apply Nx; by eapply elem_of_dom_2). unfold s1. simpl. by rewrite lookup_insert_ne.
Qed.

(** ** Descriptors of the last level *)

Lemma split_page w v : w / 512 = v / 512 → w mod 512 = v mod 512 → w = v.
Proof. intros H1 H2. rewrite (Z.div_mod w 512), (Z.div_mod v 512) by done. lia. Qed.

Lemma leaf_store root own D s q v e : pt_ok root own D s → own !! q = Some (3, v / 512) →
  (IS_PTE_INVALID e = false → IS_PTE_TABLE e = true) →
  pt_ok root own D (stored q (v mod 512) e s) ∧
  ∀ w x, pte_is own (stored q (v mod 512) e s) w x ↔
    if decide (w = v) then x = e ∧ IS_PTE_INVALID e = false else pte_is own s w x.
Proof.
  intros P Hq Ht. pose proof (Z.mod_pos_bound v 512 ltac:(done)) as Hi.
  assert (∀ x j, 0 ≤ j → entry (stored q (v mod 512) e s) x j = if decide (x = q ∧ j = v mod 512) then Some e else entry s x j) as HE
    by (intros x j Hj; by apply (entry_stored _ _ _ _ _ _ _ _ _ _ P Hq Hi)).
  split.
  - pose proof P as [P1 P2 P3 P4 P5 P6 P7 P8 P9 P10]. split; try done.
    + intros x y Hx. destruct (P3 x y Hx) as (t & Hxt & Hl). destruct (stored_table _ _ _ _ _ _ (v mod 512) e x t P Hq Hxt) as (t' & ? & ?).
      exists t'. split; [done|congruence].
    + intros x m b j e' Hx Hm Hj. rewrite HE by lia. case_decide as D0; [|by apply P6]. destruct D0 as [-> _].
      rewrite Hq in Hx. injection Hx. lia.
    + intros x m b Hx Hm. destruct (P7 x m b Hx Hm) as (p' & e' & Hp' & He & Hv). exists p', e'. split; [done|].
      rewrite HE by (by apply Z.mod_pos_bound). case_decide as D0; [|done]. destruct D0 as [-> _]. rewrite Hq in Hp'. injection Hp' as <- _.
      pose proof (P2 _ _ _ Hx). lia.
    + intros x b j e' Hx Hj. rewrite HE by lia. case_decide as D0; [intros [= <-]; done|by eapply P8].
    + by rewrite stored_al.
  - intros w x. pose proof (Z.mod_pos_bound w 512 ltac:(done)) as Hw. unfold pte_is. split.
    + intros (y & Hy & He & Hv). rewrite HE in He by lia. case_decide as D0.
      * destruct D0 as [-> Em]. injection He as <-. rewrite Hq in Hy. injection Hy as Ed. by rewrite decide_True by (by apply split_page).
      * case_decide as D1; [|by exists y]. subst w. destruct D0. split; [|done]. by eapply po_inj.
    + case_decide as D1.
      * subst w. intros [-> Hv]. exists q. split; [done|]. rewrite HE by lia. by rewrite decide_True.
      * intros (y & Hy & He & Hv). exists y. split; [done|]. rewrite HE by lia. rewrite decide_False; [done|].
        intros [-> Em]. apply D1. rewrite Hq in Hy. injection Hy as Ed. by apply split_page.
Qed.

(** The pages [v], ..., [v + n - 1] are mapped from [pa] on. *)
Definition mapped (v n pa flags : Z) (R R' : Z → Z → Prop) : Prop :=
  ∀ w x, R' w x ↔ if decide (v ≤ w < v + n) then x = page_pte (pa + (w - v) * PAGE_SIZE) flags else R w x.

Lemma mapped_nil v pa flags R : mapped v 0 pa flags R R.
Proof. intros w x. by rewrite decide_False by lia. Qed.

Lemma mapped_cat v n pa n' flags R R' R'' : 0 ≤ n → 0 ≤ n' →
  mapped v n pa flags R R' → mapped (v + n) n' (pa + n * PAGE_SIZE) flags R' R'' → mapped v (n + n') pa flags R R''.
Proof.
  intros Hn Hn' H1 H2 w x. rewrite (H2 w x). destruct (decide (v + n ≤ w < v + n + n')) as [D|D].
  - rewrite decide_True by lia. by replace (pa + n * PAGE_SIZE + (w - (v + n)) * PAGE_SIZE) with (pa + (w - v) * PAGE_SIZE) by lia.
  - rewrite (H1 w x). by rewrite (decide_ext (v ≤ w < v + n) (v ≤ w < v + (n + n'))) by lia.
Qed.

Lemma next_page v : v mod 512 ≠ 511 → (v + 1) / 512 = v / 512 ∧ (v + 1) mod 512 = v mod 512 + 1.
Proof.
  intros H. pose proof (Z.mod_pos_bound v 512 ltac:(done)). pose proof (Z.div_mod v 512 ltac:(done)).
  assert (v + 1 = v / 512 * 512 + (v mod 512 + 1)) as E by lia. rewrite E. split.
  - rewrite Z.div_add_l, (Z.div_small (v mod 512 + 1)) by lia. lia.
  - rewrite Z.add_comm, Z.mod_add by done. apply Z.mod_small. lia.
Qed.

Lemma page_of va n : 0 ≤ n → (va + n * PAGE_SIZE) / PAGE_SIZE = va / PAGE_SIZE + n.
Proof. intros H. by rewrite Z.div_add by done. Qed.

Lemma set_pte_page pa flags s :
  set_pte_flags (set_field pfn (Z.shiftr pa PAGE_SHIFT) (set_field is_page 1 (set_field is_valid 1 0))) flags USER_PTE s =
  Done (page_pte pa flags) s.
Proof. unfold page_pte. generalize (set_field pfn (Z.shiftr pa PAGE_SHIFT) (set_field is_page 1 (set_field is_valid 1 0))). reflexivity. Qed.

Lemma map_entries_spec root own D flags n : ∀ s q v va pa cnt,
  pt_ok root own D s → own !! q = Some (3, v / 512) → Z.of_nat n = 512 - v mod 512 → 0 < cnt →
  0 ≤ va → va + cnt * PAGE_SIZE < 2 ^ 64 → 0 ≤ pa → pa + cnt * PAGE_SIZE < 2 ^ 64 →
  ∃ s', map_entries n q (v mod 512) va pa cnt flags s =
    Done (va + Z.min cnt (Z.of_nat n) * PAGE_SIZE, pa + Z.min cnt (Z.of_nat n) * PAGE_SIZE, cnt - Z.min cnt (Z.of_nat n)) s' ∧
  pt_ok root own D s' ∧ mapped v (Z.min cnt (Z.of_nat n)) pa flags (pte_is own s) (pte_is own s') ∧
  (∀ x, x ∉ dom own → ptps s' !! x = ptps s !! x).
Proof.
  induction n as [|n IH]; intros s q v va pa cnt P Hq Hn Hc Hva Hva' Hpa Hpa'.
  { pose proof (Z.mod_pos_bound v 512 ltac:(done)). lia. }
  cbn [map_entries]. erewrite bind_Done by (apply set_pte_page).
  pose proof (Z.mod_pos_bound v 512 ltac:(done)) as Hm.
  erewrite bind_Done by (eapply store_pte_ok; [exact P|exact Hq|exact Hm]). cbv zeta. unfold PAGE_SIZE in Hva', Hpa'.
  change PAGE_SIZE with 4096 in *. rewrite !u64_id by (unfold is_u64; lia).
  destruct (page_pte_valid pa flags) as [V1 V2].
  destruct (leaf_store root own D s q v (page_pte pa flags) P Hq ltac:(done)) as [P1 H1].
  set (s1 := stored q (v mod 512) (page_pte pa flags) s) in *.
  assert (mapped v 1 pa flags (pte_is own s) (pte_is own s1)) as M1.
  { intros w x. rewrite H1, V1. rewrite (decide_ext (w = v) (v ≤ w < v + 1)) by lia. case_decide as D0; [|done].
    replace (pa + (w - v) * PAGE_SIZE) with pa by (unfold PAGE_SIZE; lia). tauto. }
  assert (∀ x, x ∉ dom own → ptps s1 !! x = ptps s !! x) as F1 by (intros x Nx; apply stored_other; intros ->; apply Nx; by eapply elem_of_dom_2).
  destruct (Z.eqb_spec (cnt - 1) 0) as [Ec|Nc].
  { replace (Z.min cnt (Z.of_nat (S n))) with 1 by lia. exists s1. split; [|done]. unfold ret. repeat f_equal; lia. }
  destruct n as [|n].
  { replace (Z.min cnt (Z.of_nat 1)) with 1 by lia. exists s1. split; [|done]. cbn [map_entries]. unfold ret. repeat f_equal; lia. }
  destruct (next_page v ltac:(lia)) as [E1 E2].
  destruct (IH s1 q (v + 1) (va + 4096) (pa + 4096) (cnt - 1) P1) as (s2 & E & P2 & M2 & F2); [by rewrite E1|lia|lia|lia|lia|lia|lia|].
  rewrite E2 in E. exists s2. replace (Z.min cnt (Z.of_nat (S (S n)))) with (1 + Z.min (cnt - 1) (Z.of_nat (S n))) by lia.
  split; [rewrite E; f_equal; f_equal; [f_equal; lia|lia]|]. split; [done|]. split.
  - eapply mapped_cat; [lia|lia|exact M1|]. replace (pa + 1 * PAGE_SIZE) with (pa + 4096) by (unfold PAGE_SIZE; lia). exact M2.
  - intros x Nx. by rewrite F2, F1.
Qed.

(** The tree gains page table pages, which are outside [own]. *)
Definition grows (own : gmap Z (Z * Z)) s own' s' : Prop :=
  own ⊆ own' ∧ ∀ x, x ∉ dom own' → ptps s' !! x = ptps s !! x.

Lemma grows_refl own s : grows own s own s.
Proof. done. Qed.
Lemma grows_trans own1 s1 own2 s2 own3 s3 : grows own1 s1 own2 s2 → grows own2 s2 own3 s3 → grows own1 s1 own3 s3.
Proof.
  intros [H1 F1] [H2 F2]. split; [by etrans|]. intros x Nx. rewrite F2 by done. apply F1. intros Hx. apply Nx.
  by apply (subseteq_dom _ _ H2).
Qed.

Lemma next_or_bug_spec root own D s p l v va : pt_ok root own D s → 0 ≤ l < 3 → va / PAGE_SIZE = v → own !! p = Some (l, pre l v) →
  next_or_bug p l va s = Halt ∨ ∃ q s' own', next_or_bug p l va s = Done q s' ∧ own' !! q = Some (l + 1, pre (l + 1) v) ∧
  pt_ok root own' D s' ∧ (∀ w e, pte_is own' s' w e ↔ pte_is own s w e) ∧ grows own s own' s'.
Proof.
  intros P Hl Hv Hp. unfold next_or_bug.
  destruct (next_spec root own D s p l v va true P Hl Hv Hp) as [(q & Hq & E)|(Hno & Hinv & _ & E)].
  - right. exists q, s, own. erewrite bind_Done by exact E. by split_and!.
  - destruct (alloc_spec root own D s p l v P Hl Hp Hno Hinv) as [Eh|(q & s' & Ea & Nq & Dq & Tq & P' & Hw & Hf)].
    + left. apply bind_Halt. rewrite E. by apply bind_Halt.
    + right. destruct (table_pte_ok q Dq Tq) as (_ & V2 & V3).
      exists q, s', (<[q := (l + 1, pre (l + 1) v)]> own). split_and!; [|by rewrite lookup_insert_eq|done|done|].
      * erewrite bind_Done. 2: { rewrite E. erewrite bind_Done by exact Ea. rewrite V2, V3. reflexivity. } reflexivity.
      * split; [apply insert_subseteq; by apply not_elem_of_dom|]. intros x. rewrite dom_insert_L, not_elem_of_union, elem_of_singleton.
        intros [N1 N2]. by apply Hf.
Qed.

Lemma mapped_iff v n pa flags R1 R2 R : (∀ w x, R2 w x ↔ R1 w x) → mapped v n pa flags R2 R → mapped v n pa flags R1 R.
Proof. intros H M w x. rewrite (M w x). case_decide; [done|apply H]. Qed.

Lemma map_loop_spec root D flags fuel : ∀ own s va pa cnt,
  pt_ok root own D s → 0 ≤ cnt ≤ Z.of_nat fuel → 0 ≤ va → va / PAGE_SIZE + cnt ≤ VPAGES → 0 ≤ pa → pa + cnt * PAGE_SIZE < 2 ^ 64 →
  map_loop fuel root va pa cnt flags s = Halt ∨ ∃ s' own', map_loop fuel root va pa cnt flags s = Done tt s' ∧
  pt_ok root own' D s' ∧ mapped (va / PAGE_SIZE) cnt pa flags (pte_is own s) (pte_is own' s') ∧ grows own s own' s'.
Proof.
  induction fuel as [|fuel IH]; intros own s va pa cnt P Hc Hva Htop Hpa Hpa'.
  { assert (cnt = 0) as -> by lia. right. exists s, own. split_and!; [done|done|apply mapped_nil|apply grows_refl]. }
  cbn [map_loop]. destruct (Z.ltb_spec 0 cnt) as [Hpos|].
  2: { assert (cnt = 0) as -> by lia. right. exists s, own. split_and!; [done|done|apply mapped_nil|apply grows_refl]. }
  set (v := va / PAGE_SIZE) in *. assert (0 ≤ v) as Hv0 by (by apply Z.div_pos).
  pose proof (root_pre root own D s v P ltac:(lia)) as H0.
  destruct (next_or_bug_spec root own D s root 0 v va P ltac:(lia) eq_refl H0) as [E|(q1 & s1 & o1 & E1 & H1 & P1 & W1 & G1)];
    [left; by apply bind_Halt|]. erewrite bind_Done by exact E1.
  destruct (next_or_bug_spec root o1 D s1 q1 1 v va P1 ltac:(lia) eq_refl H1) as [E|(q2 & s2 & o2 & E2 & H2 & P2 & W2 & G2)];
    [left; by apply bind_Halt|]. erewrite bind_Done by exact E2.
  destruct (next_or_bug_spec root o2 D s2 q2 2 v va P2 ltac:(lia) eq_refl H2) as [E|(q3 & s3 & o3 & E3 & H3 & P3 & W3 & G3)];
    [left; by apply bind_Halt|]. erewrite bind_Done by exact E3. cbv zeta.
  pose proof (Z.mod_pos_bound v 512 ltac:(done)) as Hm. pose proof (Z.div_mod va PAGE_SIZE ltac:(done)) as Hdm.
  pose proof (Z.mod_pos_bound va PAGE_SIZE ltac:(done)) as Hmv. fold v in Hdm. unfold VPAGES in Htop.
  rewrite l3_index. fold v.
  destruct (map_entries_spec root o3 D flags (Z.to_nat (PTP_ENTRIES - v mod 512)) s3 q3 v va pa cnt P3 H3) as (s4 & E4 & P4 & M4 & F4);
    [change PTP_ENTRIES with 512; lia|done|done|unfold PAGE_SIZE in *; lia|done|done|].
  erewrite bind_Done by exact E4. change PTP_ENTRIES with 512 in *. set (m := Z.min cnt (Z.of_nat (Z.to_nat (512 - v mod 512)))) in *.
  destruct (IH o3 s4 (va + m * PAGE_SIZE) (pa + m * PAGE_SIZE) (cnt - m)) as [E|(s5 & o5 & E5 & P5 & M5 & G5)];
    [done|lia|unfold PAGE_SIZE; lia|rewrite page_of by lia; unfold VPAGES; fold v; lia|unfold PAGE_SIZE; lia|lia|by left|right].
  exists s5, o5. split; [done|]. split; [done|]. rewrite page_of in M5 by lia. fold v in M5. split.
  - replace cnt with (m + (cnt - m)) by lia. eapply mapped_cat; [lia|lia| |exact M5].
    eapply mapped_iff; [|exact M4]. intros w x. by rewrite W3, W2, W1.
  - do 3 (eapply grows_trans; [eassumption|]). eapply grows_trans; [|exact G5]. by split.
Qed.

(** ** Ranges of present pages *)

(** The pages of [hit] have their descriptor changed by [upd]; one that becomes
    invalid is gone. *)
Definition changed (hit : Z → Prop) (upd : Z → Z) (R R' : Z → Z → Prop) : Prop :=
  ∀ w x, R' w x ↔ (hit w ∧ ∃ e, R w e ∧ x = upd e ∧ IS_PTE_INVALID x = false) ∨ (¬ hit w ∧ R w x).

Lemma changed_nil upd R : changed (λ _, False) upd R R.
Proof. intros w x. tauto. Qed.

Lemma changed_cat h1 h2 upd R1 R2 R3 : (∀ w, h1 w → h2 w → False) → changed h1 upd R1 R2 → changed h2 upd R2 R3 →
  changed (λ w, h1 w ∨ h2 w) upd R1 R3.
Proof.
  intros Hd H1 H2 w x. rewrite (H2 w x). setoid_rewrite (H1 w _). split.
  - intros [(Hh & e & [(Hh1 & _)|(_ & He)] & ? & ?)|(Nh & [(Hh1 & H)|(Nh1 & H)])]; [by destruct (Hd w)|left|left|right; tauto].
    + split; [tauto|]. by exists e.
    + split; [tauto|done].
  - intros [([Hh|Hh] & e & He & ? & ?)|[Nh H]]; [right|left|right].
    + split; [naive_solver|]. left. split; [done|]. by exists e.
    + split; [done|]. exists e. split; [|done]. right. split; [naive_solver|done].
    + split; [tauto|]. right. tauto.
Qed.

Lemma changed_ext h h' upd R R' : (∀ w, h w ↔ h' w) → changed h upd R R' → changed h' upd R R'.
Proof. intros H C w x. rewrite (C w x). by rewrite (H w). Qed.

Lemma ancestors root own D s q v : pt_ok root own D s → own !! q = Some (3, pre 3 v) →
  (∃ q2, own !! q2 = Some (2, pre 2 v)) ∧ ∃ q1, own !! q1 = Some (1, pre 1 v).
Proof.
  intros P Hq. destruct (po_parent _ _ _ _ P q 2 _ Hq ltac:(lia)) as (q2 & _ & H2 & _). assert (pre 3 v / 512 = pre 2 v) as E2 by (apply (pre_child 2 v); lia). rewrite E2 in H2.
  split; [by exists q2|]. destruct (po_parent _ _ _ _ P q2 1 _ H2 ltac:(lia)) as (q1 & _ & H1 & _).
  assert (pre 2 v / 512 = pre 1 v) as E1 by (apply (pre_child 1 v); lia). rewrite E1 in H1. by exists q1.
Qed.

Section range.
Context (act : Z → Z → M (pstate A) unit) (upd : Z → Z).
Context (Hact : ∀ root own D s q v, pt_ok root own D s → own !! q = Some (3, v / 512) →
  ∃ s', act q (v mod 512) s = Done tt s' ∧ pt_ok root own D s' ∧ changed (λ w, w = v) upd (pte_is own s) (pte_is own s') ∧
  ∀ x, x ∉ dom own → ptps s' !! x = ptps s !! x).

Lemma range_entries_spec root own D n : ∀ s q v va cnt,
  pt_ok root own D s → own !! q = Some (3, v / 512) → Z.of_nat n = 512 - v mod 512 → 0 < cnt → 0 ≤ va → va + cnt * PAGE_SIZE < 2 ^ 64 →
  ∃ s', range_entries act n q (v mod 512) va cnt s =
    Done (va + Z.min cnt (Z.of_nat n) * PAGE_SIZE, cnt - Z.min cnt (Z.of_nat n)) s' ∧ pt_ok root own D s' ∧
  changed (λ w, v ≤ w < v + Z.min cnt (Z.of_nat n)) upd (pte_is own s) (pte_is own s') ∧
  (∀ x, x ∉ dom own → ptps s' !! x = ptps s !! x).
Proof.
  induction n as [|n IH]; intros s q v va cnt P Hq Hn Hc Hva Hva'.
  { pose proof (Z.mod_pos_bound v 512 ltac:(done)). lia. }
  cbn [range_entries]. pose proof (Z.mod_pos_bound v 512 ltac:(done)) as Hm.
  destruct (Hact root own D s q v P Hq) as (s1 & E1 & P1 & C1 & F1). erewrite bind_Done by exact E1. cbv zeta.
  change PAGE_SIZE with 4096 in *. rewrite !u64_id by (unfold is_u64; lia).
  destruct (Z.eqb_spec (cnt - 1) 0) as [Ec|Nc].
  { replace (Z.min cnt (Z.of_nat (S n))) with 1 by lia. exists s1. split; [unfold ret; repeat f_equal; lia|]. split_and!; [done| |done].
    eapply changed_ext; [|exact C1]. intros w. simpl. lia. }
  destruct n as [|n].
  { replace (Z.min cnt (Z.of_nat 1)) with 1 by lia. exists s1. cbn [range_entries]. split; [unfold ret; repeat f_equal; lia|].
    split_and!; [done| |done]. eapply changed_ext; [|exact C1]. intros w. simpl. lia. }
  destruct (next_page v ltac:(lia)) as [E2 E3].
  destruct (IH s1 q (v + 1) (va + 4096) (cnt - 1) P1) as (s2 & E & P2 & C2 & F2); [by rewrite E2|lia|lia|lia|lia|].
  rewrite E3 in E. exists s2. replace (Z.min cnt (Z.of_nat (S (S n)))) with (1 + Z.min (cnt - 1) (Z.of_nat (S n))) by lia.
  split; [rewrite E; f_equal; f_equal; lia|]. split; [done|]. split; [|intros x Nx; by rewrite F2, F1].
  eapply changed_ext; [|eapply changed_cat; [|exact C1|exact C2]]; simpl; intros w; lia.
Qed.

(** What the loop does: the pages of the range whose tables it finds. *)
Lemma range_loop_spec root own D fuel : ∀ s va cnt,
  pt_ok root own D s → cnt ≤ Z.of_nat fuel → 0 ≤ va → va / PAGE_SIZE + cnt ≤ VPAGES → va / PAGE_SIZE ≤ 2 ^ 40 - cnt →
  ∃ s' hit, range_loop act fuel root va cnt s = Done tt s' ∧ pt_ok root own D s' ∧
  changed hit upd (pte_is own s) (pte_is own s') ∧ (∀ x, x ∉ dom own → ptps s' !! x = ptps s !! x) ∧
  (∀ w, hit w → va / PAGE_SIZE ≤ w < va / PAGE_SIZE + cnt) ∧ (∀ w, hit w ∨ ¬ hit w) ∧
  ((∀ w, va / PAGE_SIZE ≤ w < va / PAGE_SIZE + cnt → ∃ q, own !! q = Some (3, pre 3 w)) →
   ∀ w, va / PAGE_SIZE ≤ w < va / PAGE_SIZE + cnt → hit w).
Proof.
  induction fuel as [|fuel IH]; intros s va cnt P Hc Hva Htop Htop2.
  { exists s, (λ _, False). cbn [range_loop]. rewrite (proj2 (Z.ltb_ge 0 cnt)) by lia. split_and!; try done; [apply changed_nil|intros w; right; tauto|lia]. }
  cbn [range_loop]. destruct (Z.ltb_spec 0 cnt) as [Hpos|].
  2: { exists s, (λ _, False). split_and!; try done; [apply changed_nil|intros w; right; tauto|lia]. }
  set (v := va / PAGE_SIZE) in *. assert (0 ≤ v) as Hv0 by (by apply Z.div_pos).
  pose proof (Z.div_mod va PAGE_SIZE ltac:(done)) as Hdm. pose proof (Z.mod_pos_bound va PAGE_SIZE ltac:(done)) as Hmv. fold v in Hdm.
  unfold VPAGES in Htop. unfold PAGE_SIZE in Hdm, Hmv.
  assert (∀ k s1, 0 < k ≤ 2 ^ 28 → s1 = s → ((∃ q, own !! q = Some (3, pre 3 v)) → False) →
    ∃ s' hit, range_loop act fuel root (u64 (va + k * PAGE_SIZE)) (cnt - k) s1 = Done tt s' ∧ pt_ok root own D s' ∧
    changed hit upd (pte_is own s) (pte_is own s') ∧ (∀ x, x ∉ dom own → ptps s' !! x = ptps s !! x) ∧
    (∀ w, hit w → v ≤ w < v + cnt) ∧ (∀ w, hit w ∨ ¬ hit w) ∧
    ((∀ w, v ≤ w < v + cnt → ∃ q, own !! q = Some (3, pre 3 w)) → ∀ w, v ≤ w < v + cnt → hit w)) as Skip.
  { intros k s1 Hk -> Hno. rewrite u64_id by (unfold is_u64, PAGE_SIZE; lia). pose proof (page_of va k ltac:(lia)) as Ep. fold v in Ep.
    destruct (IH s (va + k * PAGE_SIZE) (cnt - k) P) as (s' & hit & E & P' & C & F & H1 & Hdec & H2);
      [lia|unfold PAGE_SIZE; lia|rewrite Ep; unfold VPAGES; lia|rewrite Ep; lia|]. rewrite Ep in H1, H2.
    exists s', hit. split_and!; try done; [intros w Hw; apply H1 in Hw; lia|]. intros Hall. destruct Hno. apply Hall. lia. }
  pose proof (root_pre root own D s v P ltac:(unfold VPAGES; lia)) as H0. unfold next_or_skip at 1.
  destruct (next_spec root own D s root 0 v va false P ltac:(lia) eq_refl H0) as [(q1 & H1 & E1)|(Hno & _ & E1 & _)].
  2: { erewrite bind_Done by (erewrite bind_Done by exact E1; reflexivity). cbv iota. apply Skip; [done|done|].
       intros [q Hq]. destruct (ancestors _ _ _ _ _ _ P Hq) as [_ [q1 Hq1]]. by apply (Hno q1). }
  erewrite bind_Done by (erewrite bind_Done by exact E1; reflexivity). cbv iota. unfold next_or_skip at 1.
  destruct (next_spec root own D s q1 1 v va false P ltac:(lia) eq_refl H1) as [(q2 & H2 & E2)|(Hno & _ & E2 & _)].
  2: { erewrite bind_Done by (erewrite bind_Done by exact E2; reflexivity). cbv iota. apply Skip; [done|done|].
       intros [q Hq]. destruct (ancestors _ _ _ _ _ _ P Hq) as [[q2 Hq2] _]. by apply (Hno q2). }
  erewrite bind_Done by (erewrite bind_Done by exact E2; reflexivity). cbv iota. unfold next_or_skip at 1.
  destruct (next_spec root own D s q2 2 v va false P ltac:(lia) eq_refl H2) as [(q3 & H3 & E3)|(Hno & _ & E3 & _)].
  2: { erewrite bind_Done by (erewrite bind_Done by exact E3; reflexivity). cbv iota. apply Skip; [done|done|].
       intros [q Hq]. by apply (Hno q). }
  erewrite bind_Done by (erewrite bind_Done by exact E3; reflexivity). cbv iota zeta. clear Skip.
  rewrite l3_index. fold v. pose proof (Z.mod_pos_bound v 512 ltac:(done)) as Hm.
  destruct (range_entries_spec root own D (Z.to_nat (PTP_ENTRIES - v mod 512)) s q3 v va cnt P H3) as (s4 & E4 & P4 & C4 & F4);
    [change PTP_ENTRIES with 512; lia|done|done|unfold PAGE_SIZE; lia|].
  erewrite bind_Done by exact E4. simpl fst. simpl snd. change PTP_ENTRIES with 512 in *.
  set (m := Z.min cnt (Z.of_nat (Z.to_nat (512 - v mod 512)))) in *. pose proof (page_of va m ltac:(lia)) as Ep. fold v in Ep.
  destruct (IH s4 (va + m * PAGE_SIZE) (cnt - m) P4) as (s5 & hit & E5 & P5 & C5 & F5 & G1 & Gd & G2);
    [lia|unfold PAGE_SIZE; lia|rewrite Ep; unfold VPAGES; lia|rewrite Ep; lia|]. rewrite Ep in G1, G2.
  exists s5, (λ w, v ≤ w < v + m ∨ hit w). split_and!; try done.
  - eapply changed_cat; [|exact C4|exact C5]. intros w Hw Hh%G1. lia.
  - intros x Nx. by rewrite F5, F4.
  - intros w [Hw|Hw%G1]; lia.
  - intros w. destruct (decide (v ≤ w < v + m)), (Gd w); tauto.
  - intros Hall w Hw. destruct (decide (w < v + m)); [left; lia|right]. apply G2; [|lia]. intros u Hu. apply Hall. lia.
Qed.

End range.

Lemma unmap_act root own D s q v : pt_ok root own D s → own !! q = Some (3, v / 512) →
  ∃ s', unmap_entry q (v mod 512) s = Done tt s' ∧ pt_ok root own D s' ∧
  changed (λ w, w = v) (λ _, PTE_DESCRIPTOR_INVALID) (pte_is own s) (pte_is own s') ∧ ∀ x, x ∉ dom own → ptps s' !! x = ptps s !! x.
Proof.
  intros P Hq. pose proof (Z.mod_pos_bound v 512 ltac:(done)) as Hm.
  destruct (leaf_store root own D s q v 0 P Hq ltac:(done)) as [P1 H1]. exists (stored q (v mod 512) 0 s).
  split; [by eapply store_pte_ok|]. split; [done|]. split.
  - intros w x. rewrite H1. case_decide as D0; [|tauto]. split; [by intros [-> ?]|]. intros [(_ & e & _ & -> & ?)|[? _]]; done.
  - intros x Nx. apply stored_other. intros ->. apply Nx. by eapply elem_of_dom_2.
Qed.

Lemma flags_set_valid flags e : IS_PTE_INVALID (flags_set flags e) = IS_PTE_INVALID e ∧ IS_PTE_TABLE (flags_set flags e) = IS_PTE_TABLE e.
Proof. rewrite !invalid_bit, !table_bit, !flags_set_bits by lia. done. Qed.

Lemma mprotect_act flags root own D s q v : pt_ok root own D s → own !! q = Some (3, v / 512) →
  ∃ s', mprotect_entry flags q (v mod 512) s = Done tt s' ∧ pt_ok root own D s' ∧
  changed (λ w, w = v) (flags_set flags) (pte_is own s) (pte_is own s') ∧ ∀ x, x ∉ dom own → ptps s' !! x = ptps s !! x.
Proof.
  intros P Hq. pose proof (Z.mod_pos_bound v 512 ltac:(done)) as Hm. destruct (entry_is _ _ _ _ _ _ _ P Hq Hm) as [e He].
  unfold mprotect_entry. erewrite bind_Done by (by apply load_pte_ok).
  assert (∀ x, pte_is own s v x → x = e) as HU.
  { intros x (y & Hy & Hx & _). rewrite (po_inj _ _ _ _ P _ _ _ Hy Hq) in Hx. congruence. }
  destruct (IS_PTE_INVALID e) eqn:Ei.
  - exists s. split_and!; [done|done| |done]. intros w x. destruct (decide (w = v)) as [->|]; [|tauto].
    assert (∀ x, ¬ pte_is own s v x) as HN by (intros y Hy; rewrite (HU y Hy) in Hy; destruct Hy as (? & _ & _ & ?); congruence). naive_solver.
  - destruct (flags_set_valid flags e) as [V1 V2]. erewrite bind_Done by reflexivity.
    destruct (leaf_store root own D s q v (flags_set flags e) P Hq) as [P1 H1].
    { intros _. rewrite V2. eapply (po_leaf _ _ _ _ P q); done. }
    exists (stored q (v mod 512) (flags_set flags e) s). split; [by eapply store_pte_ok|]. split; [done|]. split.
    + intros w x. rewrite H1. case_decide as D0; [subst w|tauto]. rewrite V1, Ei. split.
      * intros [-> _]. left. split; [done|]. exists e. rewrite V1, Ei. split; [by exists q|done].
      * intros [(_ & y & Hy & -> & _)|[? _]]; [|done]. by rewrite (HU y Hy).
    + intros x Nx. apply stored_other. intros ->. apply Nx. by eapply elem_of_dom_2.
Qed.

(** ** Queries *)

Lemma query_spec root own D s va : pt_ok root own D s → 0 ≤ va / PAGE_SIZE < VPAGES →
  (∃ e q, pte_is own s (va / PAGE_SIZE) e ∧
     query_in_pgtbl root va s = Done (inr (u64 (virt_to_phys (GET_NEXT_PTP e) + GET_VA_OFFSET_L3 va), (q, (va / PAGE_SIZE) mod 512))) s) ∨
  ((∀ e, ¬ pte_is own s (va / PAGE_SIZE) e) ∧ query_in_pgtbl root va s = Done (inl (- ENOMAPPING)) s).
Proof.
  intros P Hv. set (v := va / PAGE_SIZE) in *. pose proof (root_pre root own D s v P Hv) as H0. unfold query_in_pgtbl.
  assert (∀ l p, own !! p = Some (l, pre l v) → 0 ≤ l < 3 → (∀ q, own !! q ≠ Some (l + 1, pre (l + 1) v)) → ∀ e, ¬ pte_is own s v e) as HN.
  { intros l p Hp Hl Hno e (q & Hq & _). destruct (ancestors _ _ _ _ q v P Hq) as [[q2 Hq2] [q1 Hq1]].
    assert (l = 0 ∨ l = 1 ∨ l = 2) as [->|[->| ->]] by lia; [by apply (Hno q1)|by apply (Hno q2)|by apply (Hno q)]. }
  destruct (next_spec root own D s root 0 v va false P ltac:(lia) eq_refl H0) as [(q1 & H1 & E1)|(Hno & _ & E1 & _)];
    erewrite bind_Done by exact E1; cbv iota; [|right; split; [by apply (HN 0 root)|done]].
  destruct (next_spec root own D s q1 1 v va false P ltac:(lia) eq_refl H1) as [(q2 & H2 & E2)|(Hno & _ & E2 & _)];
    erewrite bind_Done by exact E2; cbv iota; [|right; split; [by apply (HN 1 q1)|done]].
  change (NORMAL_PTP =? BLOCK_PTP) with false. cbv iota.
  destruct (next_spec root own D s q2 2 v va false P ltac:(lia) eq_refl H2) as [(q3 & H3 & E3)|(Hno & _ & E3 & _)];
    erewrite bind_Done by exact E3; cbv iota; [|right; split; [by apply (HN 2 q2)|done]].
  change (NORMAL_PTP =? BLOCK_PTP) with false. cbv iota. change (2 + 1) with 3 in H3. pose proof (idx_range 3 v) as Hi.
  destruct (entry_is _ _ _ _ _ _ _ P H3 Hi) as [e He].
  assert (get_next_ptp q3 3 va false s = (if IS_PTE_INVALID e then ret (inl (- ENOMAPPING))
    else ret (inr (if IS_PTE_TABLE e then NORMAL_PTP else BLOCK_PTP, GET_NEXT_PTP e, (q3, idx 3 v)))) s) as E4.
  { unfold get_next_ptp. rewrite (po_pos _ _ _ _ _ _ P H3). erewrite bind_Done by (apply ptp_index_ok; lia). fold v.
    by erewrite bind_Done by (by apply load_pte_ok). }
  rewrite idx_leaf in He, E4. rewrite pre_leaf in H3. destruct (IS_PTE_INVALID e) eqn:Ei; erewrite bind_Done by exact E4; cbv iota.
  - right. split; [|done]. intros x (y & Hy & Hx & Hvx). rewrite (po_inj _ _ _ _ P _ _ _ Hy H3) in Hx. congruence.
  - left. exists e, q3. split; [by exists q3|done].
Qed.

(** ** The theorems *)

Lemma total_page_cnt_ok len : 0 ≤ len → 0 ≤ total_page_cnt len ∧ (total_page_cnt len - 1) * PAGE_SIZE < len ≤ total_page_cnt len * PAGE_SIZE ∨ len = 0.
Proof.
  intros H. unfold total_page_cnt. pose proof (Z.div_mod len PAGE_SIZE ltac:(done)). pose proof (Z.mod_pos_bound len PAGE_SIZE ltac:(done)).
  unfold PAGE_SIZE in *. destruct (Z.ltb_spec 0 (len mod 4096)); lia.
Qed.

Lemma total_page_cnt_nonneg len : 0 ≤ len → 0 ≤ total_page_cnt len.
Proof. intros H. unfold total_page_cnt. pose proof (Z.div_pos len PAGE_SIZE H ltac:(done)). destruct (_ <? _); lia. Qed.

Lemma map_range_spec root own D s va pa len flags : pt_ok root own D s → 0 ≤ len → 0 ≤ va →
  va / PAGE_SIZE + total_page_cnt len ≤ VPAGES → 0 ≤ pa → pa + total_page_cnt len * PAGE_SIZE ≤ 2 ^ 48 →
  map_range_in_pgtbl root va pa len flags s = Halt ∨
  ∃ s' own', map_range_in_pgtbl root va pa len flags s = Done 0 s' ∧ pt_ok root own' D s' ∧ tlb_synced s' = true ∧
  mapped (va / PAGE_SIZE) (total_page_cnt len) pa flags (pte_is own s) (pte_is own' s') ∧ grows own s own' s'.
Proof.
  intros P Hlen Hva Htop Hpa Hpa'. pose proof (total_page_cnt_nonneg len Hlen). unfold map_range_in_pgtbl.
  rewrite (po_pos _ _ _ _ _ _ P (po_root _ _ _ _ P)). erewrite bind_Done by reflexivity.
  destruct (map_loop_spec root D flags (Z.to_nat (total_page_cnt len)) own s va pa (total_page_cnt len) P) as [E|(s' & own' & E & P' & M & G)];
    [lia|done|done|done|lia|left; by apply bind_Halt|right]. erewrite bind_Done by exact E. erewrite bind_Done by reflexivity.
  eexists _, own'. split; [reflexivity|]. split; [by destruct P'; split|]. done.
Qed.

Lemma range_spec act upd root own D s va cnt :
  (∀ root own D s q v, pt_ok root own D s → own !! q = Some (3, v / 512) →
    ∃ s', act q (v mod 512) s = Done tt s' ∧ pt_ok root own D s' ∧ changed (λ w, w = v) upd (pte_is own s) (pte_is own s') ∧
    ∀ x, x ∉ dom own → ptps s' !! x = ptps s !! x) →
  pt_ok root own D s → 0 ≤ cnt → 0 ≤ va → va / PAGE_SIZE + cnt ≤ VPAGES →
  ∃ s' hit, (range_loop act (Z.to_nat cnt) root va cnt ;; flush_tlb ;; ret 0) s = Done 0 s' ∧ pt_ok root own D s' ∧
  tlb_synced s' = true ∧ changed hit upd (pte_is own s) (pte_is own s') ∧
  (∀ w, hit w → va / PAGE_SIZE ≤ w < va / PAGE_SIZE + cnt) ∧ (∀ w, hit w ∨ ¬ hit w) ∧
  ((∀ w, va / PAGE_SIZE ≤ w < va / PAGE_SIZE + cnt → ∃ q, own !! q = Some (3, w / 512)) →
   ∀ w, va / PAGE_SIZE ≤ w < va / PAGE_SIZE + cnt → hit w) ∧ (∀ x, x ∉ dom own → ptps s' !! x = ptps s !! x).
Proof.
  intros Hact P Hc Hva Htop. destruct (range_loop_spec act upd Hact root own D (Z.to_nat cnt) s va cnt P) as (s' & hit & E & P' & C & F & H1 & Hd & H2);
    [lia|done|done|unfold VPAGES in Htop; lia|]. erewrite bind_Done by exact E. erewrite bind_Done by reflexivity.
  eexists _, hit. split; [reflexivity|]. split; [by destruct P'; split|]. done.
Qed.

Lemma virt_phys x : 0 ≤ x < 2 ^ 64 → virt_to_phys (phys_to_virt x) = x.
Proof. intros H. unfold virt_to_phys, phys_to_virt, u64. rewrite Zminus_mod_idemp_l. replace (x + KBASE - KBASE) with x by lia. by apply Z.mod_small. Qed.

(** C24: [map_range_in_pgtbl] maps exactly the pages of the range, each to its page
    of physical memory with the flags; every other translation of the address
    space stays, page table pages of other address spaces are untouched, and
    the TLB is flushed.  Or it stops, as it does when no page is left for a table. *)
Theorem map_range_ok root own D s va pa len flags : pt_ok root own D s → 0 ≤ len → 0 ≤ va →
  va / PAGE_SIZE + total_page_cnt len ≤ VPAGES → 0 ≤ pa → pa + total_page_cnt len * PAGE_SIZE ≤ 2 ^ 48 →
  map_range_in_pgtbl root va pa len flags s = Halt ∨
  ∃ s' own', map_range_in_pgtbl root va pa len flags s = Done 0 s' ∧ pt_ok root own' D s' ∧ tlb_synced s' = true ∧
  mapped (va / PAGE_SIZE) (total_page_cnt len) pa flags (pte_is own s) (pte_is own' s') ∧ grows own s own' s'.
Proof. apply map_range_spec. Qed.

(** round trip.  After [map_range_in_pgtbl] has returned, [query_in_pgtbl] of
    every address of the range succeeds with the physical address it was mapped
    to. *)
Theorem map_query_roundtrip root own D s va pa len flags r s' va' : pt_ok root own D s → 0 ≤ len → 0 ≤ va →
  va / PAGE_SIZE + total_page_cnt len ≤ VPAGES → 0 ≤ pa → pa mod PAGE_SIZE = 0 → pa + total_page_cnt len * PAGE_SIZE ≤ 2 ^ 48 →
  map_range_in_pgtbl root va pa len flags s = Done r s' →
  va / PAGE_SIZE ≤ va' / PAGE_SIZE < va / PAGE_SIZE + total_page_cnt len →
  ∃ loc, query_in_pgtbl root va' s' = Done (inr (pa + (va' / PAGE_SIZE - va / PAGE_SIZE) * PAGE_SIZE + va' mod PAGE_SIZE, loc)) s'.
Proof.
  intros P Hlen Hva Htop Hpa Hal Hpa' E Hr.
  destruct (map_range_spec root own D s va pa len flags P Hlen Hva Htop Hpa Hpa') as [E'|(s1 & own' & E' & P' & _ & Hm & _)]; [congruence|].
  rewrite E in E'. injection E' as -> ->. pose proof (Z.div_pos va PAGE_SIZE Hva ltac:(done)) as Hv0.
  destruct (query_spec root own' D s1 va' P') as [(e & q & He & Eq)|(Hno & _)]; [lia| |].
  - apply Hm in He. rewrite decide_True in He by done. subst e. eexists. rewrite Eq. do 3 f_equal.
    set (w := va' / PAGE_SIZE) in *. set (v := va / PAGE_SIZE) in *. unfold GET_NEXT_PTP. pose proof (Z.mod_pos_bound va' PAGE_SIZE ltac:(done)) as Hmp.
    rewrite page_pte_paddr by (unfold PAGE_SIZE in *; lia).
    assert ((pa + (w - v) * PAGE_SIZE) mod PAGE_SIZE = 0) as -> by (by rewrite Z.mod_add).
    rewrite virt_phys by (unfold PAGE_SIZE in *; lia). unfold GET_VA_OFFSET_L3. change (PAGE_SIZE - 1) with (Z.ones 12). rewrite Z.land_ones by done.
    change (2 ^ 12) with PAGE_SIZE. rewrite u64_id; [lia|]. unfold is_u64, PAGE_SIZE in *. lia.
  - exfalso. apply (Hno (page_pte (pa + (va' / PAGE_SIZE - va / PAGE_SIZE) * PAGE_SIZE) flags)). apply Hm. by rewrite decide_True.
Qed.

(** C25: [unmap_range_in_pgtbl] returns, flushes the TLB and removes only
    translations of the range; it removes all of them when the last-level
    tables of the range are there. *)
Theorem unmap_range_ok root own D s va len : pt_ok root own D s → 0 ≤ len → 0 ≤ va → va / PAGE_SIZE + total_page_cnt len ≤ VPAGES →
  ∃ s', unmap_range_in_pgtbl root va len s = Done 0 s' ∧ pt_ok root own D s' ∧ tlb_synced s' = true ∧
  (∀ w e, pte_is own s' w e → pte_is own s w e) ∧
  (∀ w e, pte_is own s w e → ¬ (va / PAGE_SIZE ≤ w < va / PAGE_SIZE + total_page_cnt len) → pte_is own s' w e) ∧
  ((∀ w, va / PAGE_SIZE ≤ w < va / PAGE_SIZE + total_page_cnt len → ∃ q, own !! q = Some (3, w / 512)) →
   ∀ w e, va / PAGE_SIZE ≤ w < va / PAGE_SIZE + total_page_cnt len → ¬ pte_is own s' w e).
Proof.
  intros P Hlen Hva Htop.
  destruct (range_spec unmap_entry (λ _, PTE_DESCRIPTOR_INVALID) root own D s va (total_page_cnt len) unmap_act P)
    as (s' & hit & E & P' & Ht & C & H1 & Hd & H2 & _); [by apply total_page_cnt_nonneg|done|done|].
  exists s'. unfold unmap_range_in_pgtbl. rewrite (po_pos _ _ _ _ _ _ P (po_root _ _ _ _ P)). split_and!; try done.
  - intros w e [(_ & x & _ & -> & ?)|[_ H]]%C; done.
  - intros w e He Hw. apply C. right. split; [by intros ?%H1|done].
  - intros Hall w e Hw [(_ & x & _ & -> & ?)|[Nh _]]%C; [done|]. apply Nh. by apply H2.
Qed.

(** [mprotect_in_pgtbl] keeps which pages are mapped and where to, and changes
    the permissions of pages of the range only. *)
Theorem mprotect_ok root own D s va len flags : pt_ok root own D s → 0 ≤ len → 0 ≤ va → va / PAGE_SIZE + total_page_cnt len ≤ VPAGES →
  ∃ s', mprotect_in_pgtbl root va len flags s = Done 0 s' ∧ pt_ok root own D s' ∧ tlb_synced s' = true ∧
  (∀ w e, pte_is own s w e → ∃ e', pte_is own s' w e' ∧ GET_PADDR_IN_PTE e' = GET_PADDR_IN_PTE e ∧
     (e' = e ∨ (va / PAGE_SIZE ≤ w < va / PAGE_SIZE + total_page_cnt len ∧ e' = flags_set flags e))) ∧
  (∀ w e', pte_is own s' w e' → ∃ e, pte_is own s w e) ∧
  ((∀ w, va / PAGE_SIZE ≤ w < va / PAGE_SIZE + total_page_cnt len → ∃ q, own !! q = Some (3, w / 512)) →
   ∀ w e, va / PAGE_SIZE ≤ w < va / PAGE_SIZE + total_page_cnt len → pte_is own s w e → pte_is own s' w (flags_set flags e)).
Proof.
  intros P Hlen Hva Htop.
  destruct (range_spec (mprotect_entry flags) (flags_set flags) root own D s va (total_page_cnt len) (mprotect_act flags) P)
    as (s' & hit & E & P' & Ht & C & H1 & Hd & H2 & _); [by apply total_page_cnt_nonneg|done|done|].
  exists s'. unfold mprotect_in_pgtbl. rewrite (po_pos _ _ _ _ _ _ P (po_root _ _ _ _ P)).
  assert (∀ w e, pte_is own s w e → IS_PTE_INVALID (flags_set flags e) = false) as HV
    by (intros w e (? & _ & _ & Hv); by rewrite (proj1 (flags_set_valid flags e))).
  split_and!; try done.
  - intros w e He. destruct (Hd w) as [Hh|Nh].
    + exists (flags_set flags e). split; [apply C; left; split; [done|]; eauto|]. split; [|right; split; [by apply H1|done]].
      apply paddr_bits. intros n Hn. apply flags_set_bits; lia.
    + exists e. split; [apply C; by right|]. split; [done|by left].
  - intros w e' [(_ & x & Hx & _)|[_ H]]%C; eauto.
  - intros Hall w e Hw He. apply C. left. split; [by apply H2|]. exists e. eauto.
Qed.

End tree.

(** ** A page table with its root page only *)

Module PTDemo.

Definition s0 : pstate Z := mk_pstate (KBASE + 4096) {[KBASE := zero_page]} true.
Definition own0 : gmap Z (Z * Z) := {[KBASE := (0, 0)]}.

Lemma demo_pt_ok : pt_ok KBASE own0 ∅ s0.
Proof.
  assert (∀ p x, own0 !! p = Some x → p = KBASE ∧ x = (0, 0)) as HO by (unfold own0; intros p x [<- <-]%lookup_singleton_Some; done).
  assert (∀ i e, 0 ≤ i < 512 → entry s0 KBASE i = Some e → e = 0) as HE.
  { intros i e Hi. unfold entry, s0. simpl ptps. rewrite lookup_singleton_eq. simpl. by intros [-> _]%lookup_replicate_1. }
  split.
  - done.
  - intros p l a [_ [= -> _]]%HO. lia.
  - intros p x [-> _]%HO. exists zero_page. done.
  - intros p x [-> _]%HO. done.
  - intros p q x [-> _]%HO [-> _]%HO. done.
  - intros p l a i e [-> _]%HO _ Hi He. rewrite (HE i e Hi He). done.
  - intros q l b [_ [= ? _]]%HO. lia.
  - intros p a i e [_ ?]%HO. done.
  - exists {[KBASE := 4096]}. split; [|vm_compute; reflexivity]. split; [done|]. split.
    + intros p n [<- <-]%lookup_singleton_Some. done.
    + intros p n q m x [<- _]%lookup_singleton_Some [<- _]%lookup_singleton_Some. done.
  - set_solver.
Qed.

End PTDemo.

Lemma map_range_ok_witness : map_range_in_pgtbl KBASE 8192 40960 4097 VMR_WRITE PTDemo.s0 = Halt ∨
  ∃ s' own', map_range_in_pgtbl KBASE 8192 40960 4097 VMR_WRITE PTDemo.s0 = Done 0 s' ∧ pt_ok KBASE own' ∅ s'.
Proof.
  destruct (map_range_ok KBASE PTDemo.own0 ∅ PTDemo.s0 8192 40960 4097 VMR_WRITE PTDemo.demo_pt_ok) as [E|(s' & own' & E & P & _)];
    [lia|lia|vm_compute; discriminate|lia|vm_compute; discriminate|left; exact E|right; exists s', own'; split; [exact E|exact P]].
Defined.

Lemma map_query_roundtrip_witness : ∃ s' loc, map_range_in_pgtbl KBASE 8192 40960 4097 VMR_WRITE PTDemo.s0 = Done 0 s' ∧
  query_in_pgtbl KBASE 12300 s' = Done (inr (45068, loc)) s'.
Proof.
  eexists.
  destruct (map_query_roundtrip KBASE PTDemo.own0 ∅ PTDemo.s0 8192 40960 4097 VMR_WRITE 0 ltac:(let t := eval vm_compute in
    (match map_range_in_pgtbl KBASE 8192 40960 4097 VMR_WRITE PTDemo.s0 with Done _ s => s | _ => PTDemo.s0 end) in exact t) 12300
    PTDemo.demo_pt_ok) as [loc E]; [lia|lia|vm_compute; discriminate|lia|reflexivity|vm_compute; discriminate|vm_compute; reflexivity|vm_compute; split; [discriminate|reflexivity]|].
  exists loc. split; [vm_compute; reflexivity|exact E].
Defined.

Lemma unmap_range_ok_witness : ∃ s', unmap_range_in_pgtbl KBASE 8192 4097 PTDemo.s0 = Done 0 s' ∧ pt_ok KBASE PTDemo.own0 ∅ s'.
Proof.
  destruct (unmap_range_ok KBASE PTDemo.own0 ∅ PTDemo.s0 8192 4097 PTDemo.demo_pt_ok) as (s' & E & P & _);
    [lia|lia|vm_compute; discriminate|exists s'; split; [exact E|exact P]].
Defined.

Lemma mprotect_ok_witness : ∃ s', mprotect_in_pgtbl KBASE 8192 4097 VMR_READ PTDemo.s0 = Done 0 s' ∧ pt_ok KBASE PTDemo.own0 ∅ s'.
Proof.
  destruct (mprotect_ok KBASE PTDemo.own0 ∅ PTDemo.s0 8192 4097 VMR_READ PTDemo.demo_pt_ok) as (s' & E & P & _);
    [lia|lia|vm_compute; discriminate|exists s'; split; [exact E|exact P]].
Defined.

(** Page 512 is mapped, the tables for the pages below it are not there.  Unmapping
    the pages 300 to 611 skips a whole table from page 300 on, and with it page
    512, which stays mapped. *)
Example unmap_skips_mapped :
  match (map_range_in_pgtbl KBASE (512 * 4096) 40960 4096 VMR_WRITE ;; unmap_range_in_pgtbl KBASE (300 * 4096) (312 * 4096) ;;
         query_in_pgtbl KBASE (512 * 4096)) PTDemo.s0 with
  | Done (inr (pa, _)) _ => Some pa
  | _ => None
  end = Some 40960.
Proof. vm_compute. reflexivity. Qed.

End PageTable.
