(* ===== verification/VmRegion.v ===== *)
(** * Virtual memory regions and page faults (kernel/mm/vmregion.c,
    kernel/mm/pgfault_handler.c, kernel/include/mm/vmspace.h)

    Address spaces, regions and memory objects by address, over the page tables
    of PageTable.v and the radix trees of Radix.v.  The list of regions of an
    address space is the sequence of their addresses.  A region keeps its
    contents when it is freed: the code reads fields of regions it has freed,
    and [kfree] writes only the first word of a block, [node.prev].

    [vmspace_lock] is represented because two error paths leave it held;
    [pgtbl_lock] and [heap_lock] are released by the function that takes them. *)

From S2P Require Import Prelude Bitops Buddy Allocator Radix PageTable.

Module VmRegion.

Import Allocator.
Import PageTable(pstate, map_range_in_pgtbl, unmap_range_in_pgtbl, VMR_READ, VMR_WRITE, VMR_EXEC, VMR_DEVICE, ENOMAPPING).
Import Bitops(ROUND_DOWN).
Import Buddy(ROUND_UP).

Definition EINVAL : Z := 22.
Definition ENOMEM : Z := 12.

Definition PMO_ANONYM : Z := 0.
Definition PMO_DATA : Z := 1.
Definition PMO_FILE : Z := 2.
Definition PMO_SHM : Z := 3.
Definition PMO_DEVICE : Z := 5.
Definition PMO_FORBID : Z := 10.

Definition HEAP_START : Z := 0x600000000000.
Definition MMAP_START : Z := 0x700000000000.

Definition SIZEOF_VMREGION : Z := 48.
Definition SIZEOF_RADIX : Z := 24.

Record vmregion := mk_vmr { start : Z; size : Z; perm : Z; pmo : Z }.

Record vmspace := mk_vmspace {
  vmr_list : list Z; pgtbl : Z; vmspace_lock : bool; history_cpus : list Z;
  heap_vmr : Z; user_current_heap : Z; user_current_mmap_addr : Z }.

(** [p_radix]: the address of the radix tree, or NULL. *)
Record pmobject := mk_pmo { p_radix : Z; p_start : Z; p_size : Z; p_type : Z }.

(** [struct radix]: the root node, the lock and whether there is a deleter. *)
Record radix := mk_radix { r_root : Z; r_lock : bool; r_deleter : bool }.

Section vm.
Context {A : Type} `{!Allocator A, !PageAllocator A}.
Context (PLAT_CPU_NUM : Z).

(** [cleared]: the page frames that were cleared when they were allocated. *)
Record vstate := mk_vstate {
  pt : pstate A;
  spaces : gmap Z vmspace;
  vmrs : gmap Z vmregion;
  pmos : gmap Z pmobject;
  radixes : gmap Z radix;
  rnodes : gmap Z (list Z);
  cleared : gset Z
}.

Abbreviation MV := (M vstate).

Definition with_pt (p : pstate A) (s : vstate) : vstate :=
  mk_vstate p (spaces s) (vmrs s) (pmos s) (radixes s) (rnodes s) (cleared s).
Definition with_spaces (f : gmap Z vmspace → gmap Z vmspace) (s : vstate) : vstate :=
  mk_vstate (pt s) (f (spaces s)) (vmrs s) (pmos s) (radixes s) (rnodes s) (cleared s).
Definition with_vmrs (f : gmap Z vmregion → gmap Z vmregion) (s : vstate) : vstate :=
  mk_vstate (pt s) (spaces s) (f (vmrs s)) (pmos s) (radixes s) (rnodes s) (cleared s).
Definition with_pmos (f : gmap Z pmobject → gmap Z pmobject) (s : vstate) : vstate :=
  mk_vstate (pt s) (spaces s) (vmrs s) (f (pmos s)) (radixes s) (rnodes s) (cleared s).
Definition with_radixes (f : gmap Z radix → gmap Z radix) (s : vstate) : vstate :=
  mk_vstate (pt s) (spaces s) (vmrs s) (pmos s) (f (radixes s)) (rnodes s) (cleared s).
Definition with_cleared (f : gset Z → gset Z) (s : vstate) : vstate :=
  mk_vstate (pt s) (spaces s) (vmrs s) (pmos s) (radixes s) (rnodes s) (f (cleared s)).

Definition on_pt {B} (m : M (pstate A) B) : MV B := zoom pt with_pt m.
Definition on_al {B} (m : M A B) : MV B := on_pt (PageTable.on_al m).

(** Code of Radix.v on the tree at [r]. *)
Definition tree_of (s : vstate) (x : radix) : Radix.state :=
  Radix.mk_state (PageTable.al (pt s)) (rnodes s) (r_root x) (r_lock x) (r_deleter x) [].
Definition put_tree (r : Z) (t : Radix.state) (s : vstate) : vstate :=
  mk_vstate (PageTable.mk_pstate (Radix.al t) (PageTable.ptps (pt s)) (PageTable.tlb_synced (pt s))) (spaces s) (vmrs s) (pmos s)
    (<[r := mk_radix (Radix.root t) (Radix.radix_lock t) (Radix.value_deleter t)]> (radixes s)) (Radix.nodes t) (cleared s).
Definition on_radix {B} (r : Z) (m : M (Radix.state (A := A)) B) : MV B :=
  s <- get ;; x <- need (radixes s !! r) ;; zoom (λ s, tree_of s x) (put_tree r) m.

Definition vmspace_at (sp : Z) : MV vmspace := s <- get ;; need (spaces s !! sp).
Definition upd_space (sp : Z) (f : vmspace → vmspace) : MV unit :=
  v <- vmspace_at sp ;; modify (with_spaces (<[sp := f v]>)).
Definition vmr_at (p : Z) : MV vmregion := s <- get ;; need (vmrs s !! p).
Definition set_vmr (p : Z) (v : vmregion) : MV unit := modify (with_vmrs (<[p := v]>)).
Definition pmo_at (p : Z) : MV pmobject := s <- get ;; need (pmos s !! p).

Definition with_list (l : list Z) (v : vmspace) : vmspace :=
  mk_vmspace l (pgtbl v) (vmspace_lock v) (history_cpus v) (heap_vmr v) (user_current_heap v) (user_current_mmap_addr v).
Definition with_lock (b : bool) (v : vmspace) : vmspace :=
  mk_vmspace (vmr_list v) (pgtbl v) b (history_cpus v) (heap_vmr v) (user_current_heap v) (user_current_mmap_addr v).
Definition with_mmap_addr (a : Z) (v : vmspace) : vmspace :=
  mk_vmspace (vmr_list v) (pgtbl v) (vmspace_lock v) (history_cpus v) (heap_vmr v) (user_current_heap v) a.

(** [lock(&vmspace->vmspace_lock)] *)
Definition lock_space (sp : Z) : MV unit :=
  v <- vmspace_at sp ;; if vmspace_lock v then (λ _, Spin) else upd_space sp (with_lock true).
Definition unlock_space (sp : Z) : MV unit := upd_space sp (with_lock false).

(** The block of a region; its fields are set by the caller. *)
Definition alloc_vmregion : MV Z := on_al (al_alloc SIZEOF_VMREGION).
Definition free_vmregion (vmr : Z) : MV unit := on_al (al_free vmr).

(** The loop of [check_vmr_intersect]. *)
Fixpoint intersects (new_start new_end : Z) (l : list Z) : MV bool :=
  match l with
  | [] => ret false
  | p :: l' =>
      v <- vmr_at p ;;
      let end_ := u64 (start v + size v) in
      if negb ((end_ <=? new_start) || (new_end <=? start v)) then ret true else intersects new_start new_end l'
  end.

Definition check_vmr_intersect (sp vmr_to_add : Z) : MV Z :=
  n <- vmr_at vmr_to_add ;;
  if size n =? 0 then ret 0
  else
    v <- vmspace_at sp ;;
    b <- intersects (start n) (u64 (start n + size n - 1)) (vmr_list v) ;;
    ret (if b then 1 else 0).

Definition is_vmr_in_vmspace (sp vmr : Z) : MV bool :=
  v <- vmspace_at sp ;; ret (bool_decide (vmr ∈ vmr_list v)).

Definition add_vmr_to_vmspace (sp vmr : Z) : MV Z :=
  r <- check_vmr_intersect sp vmr ;;
  if negb (r =? 0) then halt
  else v <- vmspace_at sp ;; upd_space sp (with_list (vmr :: vmr_list v)) ;; ret 0.

Definition del_vmr_from_vmspace (sp vmr : Z) : MV unit :=
  b <- is_vmr_in_vmspace sp vmr ;;
  (if b then v <- vmspace_at sp ;; upd_space sp (with_list (filter (λ p, p ≠ vmr) (vmr_list v))) else ret tt) ;;
  free_vmregion vmr.

Definition fill_page_table (sp vmr : Z) : MV Z :=
  v <- vmr_at vmr ;;
  o <- pmo_at (pmo v) ;;
  sv <- vmspace_at sp ;;
  on_pt (map_range_in_pgtbl (pgtbl sv) (start v) (p_start o) (p_size o) (perm v)).

(** The loop of [find_vmr_for_va]. *)
Fixpoint find_in (addr : Z) (l : list Z) : MV Z :=
  match l with
  | [] => ret 0
  | p :: l' =>
      v <- vmr_at p ;;
      let end_ := u64 (start v + size v) in
      if (start v <=? addr) && (addr <? end_) then ret p else find_in addr l'
  end.
Definition find_vmr_for_va (sp addr : Z) : MV Z := v <- vmspace_at sp ;; find_in addr (vmr_list v).

Definition unmap_pages (sp va len : Z) : MV Z := v <- vmspace_at sp ;; on_pt (unmap_range_in_pgtbl (pgtbl v) va len).

(** Every call deletes a region of the list, so [fuel] above the length of the
    list is enough.  [free_pmo] is empty. *)
Fixpoint unmap_vmrs (fuel : nat) (sp va len : Z) : MV Z :=
  if len =? 0 then ret 0
  else
    match fuel with
    | O => λ _, Spin
    | S fuel' =>
        p <- find_vmr_for_va sp va ;;
        if p =? 0 then ret 0
        else
          v <- vmr_at p ;;
          if len <? size v then
            o <- pmo_at (pmo v) ;;
            BUG_ON (negb (p_type o =? PMO_ANONYM)) ;;
            set_vmr p (mk_vmr (u64 (start v + len)) (u64 (size v - len)) (perm v) (pmo v)) ;;
            unmap_pages sp va len ;;
            ret 0
          else
            unmap_pages sp va len ;;
            del_vmr_from_vmspace sp p ;;
            v' <- vmr_at p ;;
            unmap_vmrs fuel' sp (u64 (va + size v')) (u64 (len - size v'))
    end.

Definition vmspace_map_range (sp va len flags pmo : Z) : MV Z :=
  o <- pmo_at pmo ;;
  BUG_ON (negb (p_type o =? PMO_DATA) && negb (p_type o =? PMO_ANONYM) &&
          negb (p_type o =? PMO_DEVICE) && negb (p_type o =? PMO_SHM)) ;;
  let va := ROUND_DOWN va PAGE_SIZE in
  let len := if len <? PAGE_SIZE then PAGE_SIZE else len in
  vmr <- alloc_vmregion ;;
  if vmr =? 0 then ret (- ENOMEM)
  else
    set_vmr vmr (mk_vmr va len (if p_type o =? PMO_DEVICE then Z.lor flags VMR_DEVICE else flags) pmo) ;;
    lock_space sp ;;
    r <- add_vmr_to_vmspace sp vmr ;;
    unlock_space sp ;;
    if r <? 0 then free_vmregion vmr ;; ret r
    else
      (if (p_type o =? PMO_DATA) || (p_type o =? PMO_DEVICE) then fill_page_table sp vmr ;; ret tt else ret tt) ;;
      ret 0.

(** The region is read after it is freed; the error path keeps the lock. *)
Definition vmspace_unmap_range (sp va len : Z) : MV Z :=
  lock_space sp ;;
  vmr <- find_vmr_for_va sp va ;;
  if vmr =? 0 then ret (-1)
  else
    v <- vmr_at vmr ;;
    BUG_ON ((negb (va =? start v) || negb (len =? size v)) && negb (len =? 0)) ;;
    del_vmr_from_vmspace sp vmr ;;
    unlock_space sp ;;
    v' <- vmr_at vmr ;;
    if pmo v' =? 0 then ret 0
    else
      (if negb (len =? 0) then unmap_pages sp va len ;; ret tt else ret tt) ;;
      ret 0.

Definition clear_history_cpu (sp cpuid : Z) : MV unit :=
  BUG_ON (PLAT_CPU_NUM <=? cpuid) ;;
  upd_space sp (λ v, mk_vmspace (vmr_list v) (pgtbl v) (vmspace_lock v) (<[Z.to_nat cpuid := 0]> (history_cpus v))
    (heap_vmr v) (user_current_heap v) (user_current_mmap_addr v)).

Definition init_heap_vmr (sp va pmo : Z) : MV Z :=
  vmr <- alloc_vmregion ;;
  if vmr =? 0 then ret 0
  else
    set_vmr vmr (mk_vmr va 0 (Z.lor VMR_READ VMR_WRITE) pmo) ;;
    lock_space sp ;;
    r <- add_vmr_to_vmspace sp vmr ;;
    unlock_space sp ;;
    if r <? 0 then free_vmregion vmr ;; ret 0 else ret vmr.

(** [(u64)-1L] on failure. *)
Definition vmspace_mmap_with_pmo (sp pmo len perm : Z) : MV Z :=
  vmr <- alloc_vmregion ;;
  if vmr =? 0 then ret (2 ^ 64 - 1)
  else
    lock_space sp ;;
    v <- vmspace_at sp ;;
    let start := user_current_mmap_addr v in
    BUG_ON (negb (len mod PAGE_SIZE =? 0)) ;;
    upd_space sp (with_mmap_addr (u64 (start + len))) ;;
    o <- pmo_at pmo ;;
    BUG_ON (negb (p_type o =? PMO_ANONYM) && negb (p_type o =? PMO_SHM) && negb (p_type o =? PMO_FILE)) ;;
    set_vmr vmr (mk_vmr start len perm pmo) ;;
    r <- add_vmr_to_vmspace sp vmr ;;
    unlock_space sp ;;
    if r <? 0 then free_vmregion vmr ;; ret (2 ^ 64 - 1) else ret start.

Definition vmspace_munmap_with_addr (sp va len : Z) : MV Z :=
  lock_space sp ;;
  v <- vmspace_at sp ;;
  r <- unmap_vmrs (S (length (vmr_list v))) sp va len ;;
  unlock_space sp ;;
  ret r.

Definition vmspace_unmap_shm_vmr (sp va : Z) : MV Z :=
  lock_space sp ;;
  vmr <- find_vmr_for_va sp va ;;
  if vmr =? 0 then unlock_space sp ;; ret (- EINVAL)
  else
    v <- vmr_at vmr ;;
    o <- pmo_at (pmo v) ;;
    BUG_ON (negb (p_type o =? PMO_SHM)) ;;
    BUG_ON (negb (va =? start v)) ;;
    unmap_pages sp (start v) (size v) ;;
    del_vmr_from_vmspace sp vmr ;;
    unlock_space sp ;;
    ret 0.

(** [reset_history_cpus] *)
Definition reset_history_cpus (v : vmspace) : vmspace :=
  mk_vmspace (vmr_list v) (pgtbl v) (vmspace_lock v) (replicate (Z.to_nat PLAT_CPU_NUM) 0) (heap_vmr v) (user_current_heap v)
    (user_current_mmap_addr v).

(** [arch_vmspace_init] is empty. *)
Definition vmspace_init (sp : Z) : MV Z :=
  v <- vmspace_at sp ;;
  p <- on_al get_page ;;
  BUG_ON (p =? 0) ;;
  on_pt (modify (PageTable.with_ptps (<[p := replicate (Z.to_nat PageTable.PTP_ENTRIES) 0]>))) ;;
  upd_space sp (λ _, reset_history_cpus (mk_vmspace [] p false (history_cpus v) (heap_vmr v) HEAP_START MMAP_START)) ;;
  ret 0.

(** The loop of [destroy_vmspace]. *)
Fixpoint destroy_list (sp : Z) (l : list Z) : MV unit :=
  match l with
  | [] => ret tt
  | p :: l' =>
      v <- vmr_at p ;;
      del_vmr_from_vmspace sp p ;;
      unmap_pages sp (start v) (size v) ;;
      destroy_list sp l'
  end.
Definition destroy_vmspace (sp : Z) : MV Z :=
  v <- vmspace_at sp ;; destroy_list sp (vmr_list v) ;; on_al (al_free sp) ;; ret 0.

(** ** Memory objects *)

Definition new_radix : MV Z :=
  r <- on_al (al_zalloc SIZEOF_RADIX) ;;
  BUG_ON (r =? 0) ;;
  modify (with_radixes (<[r := mk_radix 0 false false]>)) ;;
  ret r.

(** [kmalloc] is not tested for NULL. *)
Definition pmo_init (p type len paddr : Z) : MV unit :=
  let len := u64 (ROUND_UP len PAGE_SIZE) in
  if type =? PMO_DATA then
    k <- on_al (al_alloc len) ;; modify (with_pmos (<[p := mk_pmo 0 (virt_to_phys k) len type]>))
  else if (type =? PMO_FILE) || (type =? PMO_ANONYM) || (type =? PMO_SHM) then
    r <- new_radix ;;
    modify (with_pmos (<[p := mk_pmo r 0 len type]>)) ;;
    on_radix r Radix.init_radix
  else if type =? PMO_DEVICE then modify (with_pmos (<[p := mk_pmo 0 paddr len type]>))
  else if type =? PMO_FORBID then modify (with_pmos (<[p := mk_pmo 0 0 len type]>))
  else halt.

Definition commit_page_to_pmo (p index pa : Z) : MV unit :=
  o <- pmo_at p ;;
  BUG_ON (negb (p_type o =? PMO_ANONYM) && negb (p_type o =? PMO_SHM) && negb (p_type o =? PMO_FILE)) ;;
  r <- on_radix (p_radix o) (Radix.radix_add index pa) ;;
  BUG_ON (negb (r =? 0)).

Definition get_page_from_pmo (p index : Z) : MV Z :=
  o <- pmo_at p ;; on_radix (p_radix o) (Radix.radix_get index).

(** ** Page faults *)

(** [memset] of the page at the kernel address [k]. *)
Definition clear_page (k : Z) : MV unit :=
  if k =? 0 then fault else modify (with_cleared (λ c, {[virt_to_phys k]} ∪ c)).

(** A page for index [index], in [handle_trans_fault]. *)
Definition fresh_page (p index : Z) : MV Z :=
  k <- on_al get_page ;;
  let pa := virt_to_phys k in
  BUG_ON (pa =? 0) ;;
  clear_page (phys_to_virt pa) ;;
  commit_page_to_pmo p index pa ;;
  ret pa.

Definition handle_trans_fault (sp fault_addr : Z) : MV Z :=
  lock_space sp ;;
  vmr <- find_vmr_for_va sp fault_addr ;;
  if vmr =? 0 then ret (- ENOMAPPING)
  else
    v <- vmr_at vmr ;;
    o <- pmo_at (pmo v) ;;
    if (p_type o =? PMO_FILE) || (p_type o =? PMO_ANONYM) || (p_type o =? PMO_SHM) then
      let offset := u64 (ROUND_DOWN fault_addr PAGE_SIZE - start v) in
      prm <- (if (p_size o <=? offset) && (p_type o =? PMO_FILE)
              then ret (Z.lor (Z.lor VMR_READ VMR_WRITE) VMR_EXEC)
              else BUG_ON (p_size o <=? offset) ;; ret (perm v)) ;;
      let index := offset / PAGE_SIZE in
      pa <- get_page_from_pmo (pmo v) index ;;
      pa <- (if pa =? 0 then fresh_page (pmo v) index else ret pa) ;;
      sv <- vmspace_at sp ;;
      on_pt (map_range_in_pgtbl (pgtbl sv) (ROUND_DOWN fault_addr PAGE_SIZE) pa PAGE_SIZE prm) ;;
      unlock_space sp ;;
      ret 0
    else halt.

End vm.

Arguments vstate A : clear implicits.

(** ** Regions *)

Section spec.
Context {A : Type} `{!Allocator A, !PageAllocator A}.
Implicit Types s : vstate A.

Definition inside (v : vmregion) (a : Z) : Prop := start v ≤ a < start v + size v.

(** Regions are page aligned and in the user half. *)
Definition region_ok (v : vmregion) : Prop :=
  start v mod PAGE_SIZE = 0 ∧ size v mod PAGE_SIZE = 0 ∧ 0 ≤ start v ∧ 0 ≤ size v ∧ start v + size v ≤ 2 ^ 48.

(** The regions of a list. *)
Record regions_ok s (D : gset Z) (l : list Z) : Prop := {
  rg_nodup : NoDup l;
  rg_region : ∀ p, p ∈ l → p ∈ D ∧ ∃ v, vmrs s !! p = Some v ∧ region_ok v;
  rg_apart : ∀ p q v w a, p ∈ l → q ∈ l → vmrs s !! p = Some v → vmrs s !! q = Some w → inside v a → inside w a → p = q
}.

(** An address space: its regions and its page table; [b] tells if it is locked,
    [D] are the owned addresses that are not page table pages. *)
Record space_ok (b : bool) (sp : Z) (own : gmap Z (Z * Z)) (D : gset Z) s (V : vmspace) : Prop := {
  sk_space : spaces s !! sp = Some V;
  sk_lock : vmspace_lock V = b;
  sk_regions : regions_ok s D (vmr_list V);
  sk_pt : PageTable.pt_ok (pgtbl V) own D (pt s)
}.

Lemma vmr_at_ok s p v : vmrs s !! p = Some v → vmr_at p s = Done v s.
Proof. intros H. unfold vmr_at. erewrite bind_Done by reflexivity. by rewrite H. Qed.
Lemma vmspace_at_ok s sp V : spaces s !! sp = Some V → vmspace_at sp s = Done V s.
Proof. intros H. unfold vmspace_at. erewrite bind_Done by reflexivity. by rewrite H. Qed.
Lemma pmo_at_ok s p o : pmos s !! p = Some o → pmo_at p s = Done o s.
Proof. intros H. unfold pmo_at. erewrite bind_Done by reflexivity. by rewrite H. Qed.
Lemma upd_space_ok s sp V f : spaces s !! sp = Some V → upd_space sp f s = Done tt (with_spaces (<[sp := f V]>) s).
Proof. intros H. unfold upd_space. by erewrite bind_Done by (by apply vmspace_at_ok). Qed.
Lemma lock_space_ok s sp V : spaces s !! sp = Some V → vmspace_lock V = false →
  lock_space sp s = Done tt (with_spaces (<[sp := with_lock true V]>) s).
Proof.
  intros H1 H2. unfold lock_space. erewrite bind_Done by (by apply vmspace_at_ok). rewrite H2. by apply upd_space_ok.
Qed.

(** No end of a region wraps around. *)
Lemma region_end v : region_ok v → u64 (start v + size v) = start v + size v.
Proof. intros (_ & _ & ? & ? & ?). apply u64_id. unfold is_u64. lia. Qed.

(** The first region of the list that has the address. *)
Lemma find_in_spec s (D : gset Z) addr l : (∀ p, p ∈ l → p ∈ D ∧ ∃ v, vmrs s !! p = Some v ∧ region_ok v) → 0 ∉ D →
  ∃ p, find_in addr l s = Done p s ∧
  ((p = 0 ∧ ∀ q v, q ∈ l → vmrs s !! q = Some v → ¬ inside v addr) ∨
   (p ≠ 0 ∧ p ∈ l ∧ ∃ v, vmrs s !! p = Some v ∧ inside v addr)).
Proof.
  intros H ND. induction l as [|p l IH]; [exists 0; split; [done|]; left; split; [done|by intros q v ?%not_elem_of_nil]|].
  destruct (H p ltac:(by left)) as (Dp & v & Hv & Rv). cbn [find_in]. erewrite bind_Done by (by apply vmr_at_ok). cbv zeta.
  rewrite (region_end v Rv). destruct (Z.leb_spec (start v) addr) as [L1|L1], (Z.ltb_spec addr (start v + size v)) as [L2|L2]; cbn [andb].
  1: { exists p. split; [done|]. right. split; [intros ->; done|]. split; [by left|]. exists v. by split. }
  all: destruct IH as (q & E & HQ); [intros q Hq; apply H; by right|]; exists q; (split; [done|]);
    (destruct HQ as [[-> HN]|(N & Hq & HI)]; [left; split; [done|]|right; split_and!; [done|by right|done]]);
    intros r w [->|Hr]%elem_of_cons Hw; try (by eapply HN); rewrite Hv in Hw; injection Hw as <-; unfold inside; lia.
Qed.

Lemma find_vmr_spec b sp own D s V addr : space_ok b sp own D s V → 0 ∉ D →
  ∃ p, find_vmr_for_va sp addr s = Done p s ∧
  ((p = 0 ∧ ∀ q v, q ∈ vmr_list V → vmrs s !! q = Some v → ¬ inside v addr) ∨
   (p ≠ 0 ∧ p ∈ vmr_list V ∧ ∃ v, vmrs s !! p = Some v ∧ inside v addr)).
Proof.
  intros [S1 S2 S3 S4] ND. unfold find_vmr_for_va. erewrite bind_Done by (by apply vmspace_at_ok).
  by apply (find_in_spec s D); [apply S3|].
Qed.

(** The test for an intersection is exact for page aligned regions. *)
Lemma intersects_spec s (D : gset Z) n l : (∀ p, p ∈ l → p ∈ D ∧ ∃ v, vmrs s !! p = Some v ∧ region_ok v) → region_ok n → 0 < size n →
  ∃ b : bool, intersects (start n) (u64 (start n + size n - 1)) l s = Done b s ∧
  (b = false → ∀ p v a, p ∈ l → vmrs s !! p = Some v → inside v a → ¬ inside n a).
Proof.
  intros H Rn Hn. pose proof Rn as (N1 & N2 & N3 & N4 & N5). rewrite u64_id by (unfold is_u64; lia).
  induction l as [|p l IH]; [exists false; split; [done|]; by intros _ p v a ?%not_elem_of_nil|].
  destruct (H p ltac:(by left)) as (Dp & v & Hv & Rv). cbn [intersects]. erewrite bind_Done by (by apply vmr_at_ok). cbv zeta.
  rewrite (region_end v Rv). destruct (negb _) eqn:E; [by exists true|]. apply negb_false_iff, orb_true_iff in E.
  destruct IH as (b & Eb & HB); [intros q Hq; apply H; by right|]. exists b. split; [done|]. intros Hb q w a [->|Hq]%elem_of_cons Hw Ha;
    [|by eapply HB]. rewrite Hv in Hw. injection Hw as <-. unfold inside in *. intros Hna.
  destruct E as [E%Z.leb_le|E%Z.leb_le]; [lia|]. destruct Rv as (V1 & V2 & V3 & V4 & V5).
  assert ((start n + size n) mod PAGE_SIZE = 0) as M by (rewrite Zplus_mod, N1, N2; done).
  apply Z.mod_divide in M as [x Hx], V1 as [y Hy]; try done. unfold PAGE_SIZE in *. lia.
Qed.

(** A change of the address space but of its list and page table. *)
Lemma space_ok_upd b b' sp own D s V f : space_ok b sp own D s V → vmspace_lock (f V) = b' → vmr_list (f V) = vmr_list V →
  pgtbl (f V) = pgtbl V → space_ok b' sp own D (with_spaces (<[sp := f V]>) s) (f V).
Proof.
  intros [S1 S2 S3 S4] H1 H2 H3. split; simpl; [by rewrite lookup_insert_eq|done| |by rewrite H3].
  destruct S3 as [R1 R2 R3]. rewrite H2. by split.
Qed.

Lemma pt_ok_frame root own D D' (s s' : pstate A) : PageTable.pt_ok root own D s → PageTable.ptps s' = PageTable.ptps s →
  holds (PageTable.al s') (D' ∪ dom own) → D' ## dom own → PageTable.pt_ok root own D' s'.
Proof.
  intros [P1 P2 P3 P4 P5 P6 P7 P8 P9 P10] E Ha HD. destruct s, s'. simpl in *. subst. by split.
Qed.

(** More memory is owned; no region and no page table changes. *)
Lemma space_ok_frame b sp own D D' s s' V : space_ok b sp own D s V → spaces s' = spaces s → vmrs s' = vmrs s →
  PageTable.ptps (pt s') = PageTable.ptps (pt s) → D ⊆ D' → holds (PageTable.al (pt s')) (D' ∪ dom own) → D' ## dom own →
  space_ok b sp own D' s' V.
Proof.
  intros [S1 S2 [R1 R2 R3] S4] E1 E2 E3 HD Ha Hs. split; [by rewrite E1|done| |by eapply pt_ok_frame]. split; rewrite ?E2; try done.
  intros p Hp. destruct (R2 p Hp) as (? & ?). split; [by apply HD|done].
Qed.

(** The heap after an allocation. *)
Definition with_heap (a : A) s : vstate A :=
  with_pt (PageTable.mk_pstate a (PageTable.ptps (pt s)) (PageTable.tlb_synced (pt s))) s.

Lemma space_ok_heap b sp own D D' s V a : space_ok b sp own D s V → D ⊆ D' → holds a (D' ∪ dom own) → D' ## dom own →
  space_ok b sp own D' (with_heap a s) V.
Proof. intros S HD Ha Hs. by eapply space_ok_frame. Qed.

Lemma on_al_ok {B} (m : M A B) s x a : m (PageTable.al (pt s)) = Done x a → on_al m s = Done x (with_heap a s).
Proof.
  intros H. unfold on_al, on_pt, with_heap. erewrite zoom_Done; [reflexivity|].
  unfold PageTable.on_al. by erewrite zoom_Done by exact H.
Qed.
Lemma on_al_Halt {B} (m : M A B) s : m (PageTable.al (pt s)) = Halt → on_al m s = Halt.
Proof. intros H. unfold on_al, on_pt. apply zoom_Halt. unfold PageTable.on_al. by apply zoom_Halt. Qed.

Lemma alloc_vmregion_spec b sp own D s V : space_ok b sp own D s V → SIZEOF_VMREGION ≤ max_size →
  alloc_vmregion s = Halt ∨ ∃ p a, alloc_vmregion s = Done p (with_heap a s) ∧
  ((p = 0 ∧ space_ok b sp own D (with_heap a s) V) ∨
   (p ≠ 0 ∧ (p ∉ D) ∧ space_ok b sp own ({[p]} ∪ D) (with_heap a s) V)).
Proof.
  intros S HM. pose proof (sk_pt _ _ _ _ _ _ S) as P. pose proof (PageTable.po_sep _ _ _ _ P) as Sep. unfold alloc_vmregion.
  destruct (proj1 (alloc_holds (PageTable.al (pt s)) _ SIZEOF_VMREGION (PageTable.po_heap _ _ _ _ P) (conj (Zle_0_pos 48) HM)))
    as [E|(p & a & E & H)]; [left; by apply on_al_Halt|right].
  exists p, a. split; [by apply on_al_ok|]. destruct H as [[-> H]|(Np & [N1 N2]%not_elem_of_union & H)]; [left; split; [done|]|right; split; [done|split; [done|]]].
  - by eapply space_ok_heap.
  - eapply space_ok_heap; [exact S|apply union_subseteq_r|by rewrite <- (assoc_L (∪))|].
    apply disjoint_union_l. split; [by apply disjoint_singleton_l|done].
Qed.

(** A region that is owned but not in the list is written. *)
Lemma space_ok_set_vmr b sp own D s V p v : space_ok b sp own D s V → p ∉ vmr_list V →
  space_ok b sp own D (with_vmrs (<[p := v]>) s) V.
Proof.
  intros [S1 S2 [R1 R2 R3] S4] Np. split; try done.
  assert (∀ q, q ∈ vmr_list V → <[p := v]> (vmrs s) !! q = vmrs s !! q) as E by (intros q Hq; rewrite lookup_insert_ne; [done|intros <-; done]).
  split; simpl; [done| |].
  - intros q Hq. rewrite (E q Hq). by apply R2.
  - intros q r w x a Hq Hr. rewrite (E q Hq), (E r Hr). by apply R3.
Qed.

Lemma add_vmr_spec b sp own D s V p n : space_ok b sp own D s V → p ∉ vmr_list V → p ∈ D → vmrs s !! p = Some n → region_ok n →
  add_vmr_to_vmspace sp p s = Halt ∨
  (add_vmr_to_vmspace sp p s = Done 0 (with_spaces (<[sp := with_list (p :: vmr_list V) V]>) s) ∧
   space_ok b sp own D (with_spaces (<[sp := with_list (p :: vmr_list V) V]>) s) (with_list (p :: vmr_list V) V)).
Proof.
  intros S Np Dp Hn Rn. pose proof S as [S1 S2 [R1 R2 R3] S4]. unfold add_vmr_to_vmspace, check_vmr_intersect.
  assert (∃ z : Z, (n' <- vmr_at p ;; if size n' =? 0 then ret 0 else v <- vmspace_at sp ;;
    c <- intersects (start n') (u64 (start n' + size n' - 1)) (vmr_list v) ;; ret (if (c : bool) then 1 else 0)) s = Done z s ∧
    (z = 0 → ∀ q v a, q ∈ vmr_list V → vmrs s !! q = Some v → inside v a → ¬ inside n a)) as (z & E & Hz).
  { erewrite bind_Done by (by apply vmr_at_ok). destruct (Z.eqb_spec (size n) 0) as [E0|N0].
    { exists 0. split; [done|]. intros _ q v a _ _ _. unfold inside. lia. }
    erewrite bind_Done by (by apply vmspace_at_ok). pose proof Rn as (_ & _ & _ & ? & _).
    destruct (intersects_spec s D n (vmr_list V) R2 Rn ltac:(lia)) as (c & Ec & Hc). erewrite bind_Done by exact Ec.
    eexists. split; [reflexivity|]. destruct c; [done|]. intros _. by apply Hc. }
  rewrite (bind_Done _ _ _ _ _ E). destruct (Z.eqb_spec z 0) as [->|Nz]; cbn [negb]; [right|by left].
  erewrite bind_Done by (by apply vmspace_at_ok). erewrite bind_Done by (by apply upd_space_ok). split; [done|].
  split; simpl; [by rewrite lookup_insert_eq|done| |done]. split; simpl.
  - by apply NoDup_cons.
  - intros q [->|Hq]%elem_of_cons; [|by apply R2]. split; [done|]. by exists n.
  - intros q r v w a [->|Hq]%elem_of_cons [->|Hr]%elem_of_cons Hv Hw Ia Ja; [done| | |by eapply R3].
    + rewrite Hn in Hv. injection Hv as <-. by destruct (Hz eq_refl r w a Hr Hw Ja).
    + rewrite Hn in Hw. injection Hw as <-. by destruct (Hz eq_refl q v a Hq Hv Ia).
Qed.

(** Add under the lock, as [vmspace_map_range] and [init_heap_vmr] do. *)
Lemma locked_add_spec {B} sp own D s V p n (k : Z → M (vstate A) B) : space_ok false sp own D s V → p ∉ vmr_list V → p ∈ D →
  vmrs s !! p = Some n → region_ok n →
  (lock_space sp ;; r <- add_vmr_to_vmspace sp p ;; unlock_space sp ;; k r) s = Halt ∨
  ∃ s', (lock_space sp ;; r <- add_vmr_to_vmspace sp p ;; unlock_space sp ;; k r) s = k 0 s' ∧
    space_ok false sp own D s' (with_list (p :: vmr_list V) V) ∧ pt s' = pt s ∧ vmrs s' = vmrs s ∧ pmos s' = pmos s.
Proof.
  intros S Np Dp Hn Rn. erewrite bind_Done by (apply lock_space_ok; apply S).
  pose proof (space_ok_upd _ true _ _ _ _ _ (with_lock true) S eq_refl eq_refl eq_refl) as S1.
  destruct (add_vmr_spec true sp own D _ _ p n S1 Np Dp Hn Rn) as [E|[E S2]]; [left; by apply bind_Halt|right].
  erewrite bind_Done by exact E. erewrite bind_Done by (apply upd_space_ok; apply S2). eexists. split; [reflexivity|]. split; [|done].
  pose proof (space_ok_upd _ false _ _ _ _ _ (with_lock false) S2 eq_refl eq_refl eq_refl) as S3.
  by replace (with_list (p :: vmr_list V) V) with (with_lock false (with_list (p :: vmr_list V) (with_lock true V)))
    by (pose proof (sk_lock _ _ _ _ _ _ S) as HL; unfold with_list, with_lock; simpl; by rewrite <- HL).
Qed.

Lemma zero_not_owned b sp own D s V : space_ok b sp own D s V → 0 ∉ D.
Proof.
  intros S H0. pose proof (PageTable.po_heap _ _ _ _ (sk_pt _ _ _ _ _ _ S)) as H.
  assert (0 < 0); [|lia]. eapply holds_pos; [exact H|]. by apply elem_of_union_l.
Qed.

(** The page table of an address space changes and its pages are told apart from
    the rest. *)
Lemma space_ok_pt b sp own own' D s V t : space_ok b sp own D s V → PageTable.pt_ok (pgtbl V) own' D t →
  space_ok b sp own' D (with_pt t s) V.
Proof. intros [S1 S2 [R1 R2 R3] S4] P. split; [done|done|by split|done]. Qed.

Lemma fill_page_table_spec b sp own D s V p n o : space_ok b sp own D s V → vmrs s !! p = Some n → pmos s !! pmo n = Some o → region_ok n →
  0 ≤ p_size o ≤ size n → 0 ≤ p_start o → p_start o + p_size o + PAGE_SIZE ≤ 2 ^ 48 →
  fill_page_table sp p s = Halt ∨
  ∃ own' t, fill_page_table sp p s = Done 0 (with_pt t s) ∧ space_ok b sp own' D (with_pt t s) V ∧
    PageTable.mapped (start n / PAGE_SIZE) (PageTable.total_page_cnt (p_size o)) (p_start o) (perm n)
      (PageTable.pte_is own (pt s)) (PageTable.pte_is own' t).
Proof.
  intros S Hn Ho Rn Hs Hp0 Hp. unfold fill_page_table. erewrite bind_Done by (by apply vmr_at_ok). erewrite bind_Done by (by apply pmo_at_ok).
  erewrite bind_Done by (apply vmspace_at_ok; apply S). pose proof Rn as (A1 & A2 & A3 & A4 & A5).
  pose proof (PageTable.total_page_cnt_ok (p_size o) ltac:(lia)) as HT. pose proof (PageTable.total_page_cnt_nonneg (p_size o) ltac:(lia)) as HT0.
  assert (p_size o = 0 → PageTable.total_page_cnt (p_size o) = 0) as HZ by (intros ->; done).
  apply Z.mod_divide in A1 as [x Hx], A2 as [y Hy]; try done.
  assert (start n / PAGE_SIZE = x) as Hd by (rewrite Hx; by apply Z.div_mul).
  destruct (PageTable.map_range_spec (pgtbl V) own D (pt s) (start n) (p_start o) (p_size o) (perm n) (sk_pt _ _ _ _ _ _ S))
    as [E|(t & own' & E & P' & _ & M & _)]; [lia|lia| |done| |left; by apply zoom_Halt|right].
  - rewrite Hd. unfold PageTable.VPAGES, PAGE_SIZE in *. lia.
  - unfold PAGE_SIZE in *. lia.
  - exists own', t. split; [by apply zoom_Done|]. split; [by eapply space_ok_pt|done].
Qed.

(** ** Page faults *)

(** The tree of a memory object, on the same heap as the page tables [own]. *)
Definition tree_ok (own : gmap Z (Z * Z)) (D : gset Z) s (r : Z) (x : radix) (P : gmap (list Z) Z) : Prop :=
  radixes s !! r = Some x ∧ r_lock x = false ∧ ∃ L, dom L = D ∪ dom own ∧ Radix.rep (tree_of s x) P L.

(** The page a memory object has at an index; 0 for none. *)
Definition page_of s (x : radix) (P : gmap (list Z) Z) (index : Z) : Z := Radix.value_of (tree_of s x) P index.

Lemma put_tree_of s r x : radixes s !! r = Some x → put_tree r (tree_of s x) s = s.
Proof.
  intros H. unfold put_tree, tree_of. simpl. rewrite insert_id; [by destruct s as [[] ? ? ? ? ? ?]|]. rewrite H. by destruct x.
Qed.

Lemma on_radix_at {B} r x (m : M Radix.state B) s : radixes s !! r = Some x →
  on_radix r m s = zoom (λ s, tree_of s x) (put_tree r) m s.
Proof. intros H. unfold on_radix. erewrite bind_Done by reflexivity. rewrite H. by erewrite bind_Done by reflexivity. Qed.

Lemma get_page_from_pmo_spec own D s p o x P index : pmos s !! p = Some o → tree_ok own D s (p_radix o) x P →
  get_page_from_pmo p index s = Done (page_of s x P index) s.
Proof.
  intros Ho (Hx & Hl & L & _ & R). unfold get_page_from_pmo. erewrite bind_Done by (by apply pmo_at_ok). rewrite (on_radix_at _ _ _ _ Hx).
  erewrite zoom_Done by (by eapply Radix.radix_get_spec). by rewrite put_tree_of.
Qed.

(** The pages of memory objects are page frames. *)
Definition frame (pa : Z) : Prop := 0 < pa ∧ pa + PAGE_SIZE ≤ 2 ^ 40.

Lemma frame_virt k : direct_map k → k + PAGE_SIZE ≤ 2 ^ 64 → k ≠ KBASE →
  frame (virt_to_phys k) ∧ phys_to_virt (virt_to_phys k) = k.
Proof.
  unfold direct_map, frame, virt_to_phys, phys_to_virt, KBASE, PAGE_SIZE. intros [H1 H2] H3 H4.
  rewrite (u64_id (k - _)) by (unfold is_u64; lia). split; [lia|]. rewrite u64_id by (unfold is_u64; lia). lia.
Qed.

Lemma rep_grow (t t' : Radix.state (A := A)) P L L' : Radix.rep t P L → Radix.nodes t' = Radix.nodes t → Radix.root t' = Radix.root t →
  owns (Radix.al t') L' → dom L ⊆ dom L' → Radix.rep t' P L'.
Proof.
  intros [R1 R2 R3 R4 R5 R6] E1 E2 HO HD. split; rewrite ?E1, ?E2; try done. by etrans.
Qed.

Lemma commit_spec b sp own D s V p o x P index pa : space_ok b sp own D s V → Radix.SIZEOF_RADIX_NODE ≤ max_size →
  pmos s !! p = Some o → tree_ok own D s (p_radix o) x P → is_u64 index → page_of s x P index = 0 →
  commit_page_to_pmo p index pa s = Halt ∨
  ∃ s' D' x' P', commit_page_to_pmo p index pa s = Done tt s' ∧ space_ok b sp own D' s' V ∧ tree_ok own D' s' (p_radix o) x' P' ∧
    (∀ k, is_u64 k → page_of s' x' P' k = if decide (k = index) then pa else page_of s x P k) ∧
    spaces s' = spaces s ∧ vmrs s' = vmrs s ∧ pmos s' = pmos s ∧ cleared s' = cleared s ∧ PageTable.ptps (pt s') = PageTable.ptps (pt s).
Proof.
  intros S HM Ho (Hx & Hl & L & HL & R) Hi Hv. unfold commit_page_to_pmo. erewrite bind_Done by (by apply pmo_at_ok).
  destruct (_ && _) eqn:Et; [left; by apply bind_Halt|]. erewrite bind_Done by reflexivity.
  destruct (Radix.radix_add_spec (tree_of s x) P L index pa HM R Hl Hi (or_introl Hv)) as [E|(r & t & P' & L' & E & R' & HD & Hl' & Hr)];
    [left; apply bind_Halt; rewrite (on_radix_at _ _ _ _ Hx); by apply zoom_Halt|].
  erewrite bind_Done by (rewrite (on_radix_at _ _ _ _ Hx); by apply zoom_Done).
  destruct Hr as [[-> Hr]|[-> Hr]]; [|by left]. right.
  assert (dom own ⊆ dom L') as H1 by (etrans; [|exact HD]; rewrite HL; apply union_subseteq_r).
  assert ((dom L' ∖ dom own) ∪ dom own = dom L') as H2 by (rewrite (comm_L (∪)); symmetry; by apply union_difference_L).
  eexists _, (dom L' ∖ dom own), (mk_radix (Radix.root t) (Radix.radix_lock t) (Radix.value_deleter t)), P'. split; [reflexivity|].
  split; [|split; [|split; [|done]]].
  - eapply space_ok_frame; [exact S|done..| | |].
    + pose proof (PageTable.po_sep _ _ _ _ (sk_pt _ _ _ _ _ _ S)). assert (D ⊆ dom L') by (etrans; [|exact HD]; rewrite HL; apply union_subseteq_l).
      intros y Hy. apply elem_of_difference. split; [by apply H0|]. intros Hy'. by apply (H y).
    + rewrite H2. exists L'. split; [apply R'|done].
    + intros y [_ ?]%elem_of_difference. done.
  - split; [by apply lookup_insert_eq|]. split; [done|]. exists L'. split; [by rewrite H2|]. by eapply rep_grow; [exact R'|..|apply R'|].
  - intros k Hk. apply Hr, Hk.
Qed.

Lemma tree_ok_frame own own' D D' s s' r x P : tree_ok own D s r x P → radixes s' = radixes s → rnodes s' = rnodes s →
  holds (PageTable.al (pt s')) (D' ∪ dom own') → D ⊆ D' → dom own ⊆ dom own' → tree_ok own' D' s' r x P.
Proof.
  intros (Hx & Hl & L & HL & R) E1 E2 (L' & HO & HL') HD Hd. split; [by rewrite E1|]. split; [done|]. exists L'. split; [done|].
  eapply rep_grow; [exact R|done|done|exact HO|]. rewrite HL, HL'. by apply union_mono.
Qed.

Lemma page_of_frame s s' x P k : rnodes s' = rnodes s → page_of s' x P k = page_of s x P k.
Proof. intros E. unfold page_of, Radix.value_of, tree_of. simpl. by rewrite E. Qed.

Lemma fresh_page_spec b sp own D s V p o x P index : space_ok b sp own D s V → Radix.SIZEOF_RADIX_NODE ≤ max_size →
  pmos s !! p = Some o → tree_ok own D s (p_radix o) x P → is_u64 index → page_of s x P index = 0 →
  fresh_page p index s = Halt ∨ (fresh_page p index s = Fault ∧ ∃ a, get_page (PageTable.al (pt s)) = Done 0 a) ∨
  ∃ pa s' D' x' P', fresh_page p index s = Done pa s' ∧ frame pa ∧ pa ∈ cleared s' ∧
    space_ok b sp own D' s' V ∧ tree_ok own D' s' (p_radix o) x' P' ∧
    (∀ k, is_u64 k → page_of s' x' P' k = if decide (k = index) then pa else page_of s x P k) ∧
    vmrs s' = vmrs s ∧ PageTable.ptps (pt s') = PageTable.ptps (pt s).
Proof.
  intros S HM Ho T Hi Hv. unfold fresh_page. pose proof (sk_pt _ _ _ _ _ _ S) as HP. pose proof (PageTable.po_sep _ _ _ _ HP) as Sep.
  destruct (page_holds (PageTable.al (pt s)) _ (PageTable.po_heap _ _ _ _ HP)) as (k & a & E & Hk). erewrite bind_Done by (by apply on_al_ok).
  destruct Hk as [[-> Ha]|(Dk & Bk & [N1 N2]%not_elem_of_union & Ha)].
  { right. left. split; [|by exists a]. reflexivity. }
  destruct (decide (k = KBASE)) as [->|Nk]; [by left|]. destruct (frame_virt k Dk Bk Nk) as [F EV]. cbv zeta. rewrite EV.
  rewrite (proj2 (Z.eqb_neq _ 0)) by (destruct F; lia). erewrite bind_Done by reflexivity. unfold clear_page at 1 2 3.
  rewrite (proj2 (Z.eqb_neq k 0)) by (pose proof (direct_map_pos k Dk); lia). erewrite bind_Done by reflexivity.
  set (s1 := with_cleared _ (with_heap a s)).
  assert (D ⊆ {[k]} ∪ D) as HD by apply union_subseteq_r. rewrite (assoc_L (∪)) in Ha.
  assert (space_ok b sp own ({[k]} ∪ D) s1 V) as S1.
  { eapply space_ok_frame; [exact S|done..|exact Ha|]. apply disjoint_union_l. split; [by apply disjoint_singleton_l|done]. }
  pose proof (tree_ok_frame _ own _ ({[k]} ∪ D) _ s1 _ _ _ T eq_refl eq_refl Ha HD (reflexivity _)) as T1.
  destruct (commit_spec b sp own _ s1 V p o x P index (virt_to_phys k) S1 HM Ho T1 Hi Hv)
    as [E1|(s' & D' & x' & P' & E1 & S' & T' & HV & _ & HR & _ & HC & HT)]; [left; by apply bind_Halt|right; right].
  erewrite bind_Done by exact E1. eexists _, s', D', x', P'. split; [reflexivity|]. split; [done|]. split; [|done].
  rewrite HC. change (virt_to_phys k ∈ ({[virt_to_phys k]} ∪ cleared s)). by apply elem_of_union_l, elem_of_singleton.
Qed.

(** The rights a fault maps the page with: all of them behind the end of a file. *)
Definition fault_perm (v : vmregion) (o : pmobject) (offset : Z) : Z :=
  if (p_size o <=? offset) && (p_type o =? PMO_FILE) then Z.lor (Z.lor VMR_READ VMR_WRITE) VMR_EXEC else perm v.

Lemma round_down_page z : ROUND_DOWN z PAGE_SIZE = z / PAGE_SIZE * PAGE_SIZE.
Proof.
  unfold ROUND_DOWN. change (Z.lnot (PAGE_SIZE - 1)) with (Z.lnot (Z.ones 12)). rewrite <- Z.ldiff_land, Z.ldiff_ones_r by lia.
  by rewrite Z.shiftl_mul_pow2, Z.shiftr_div_pow2 by lia.
Qed.

Lemma fault_offset v addr : region_ok v → inside v addr → is_u64 addr → u64 (ROUND_DOWN addr PAGE_SIZE - start v) =
  addr / PAGE_SIZE * PAGE_SIZE - start v ∧ 0 ≤ addr / PAGE_SIZE * PAGE_SIZE - start v < 2 ^ 48 ∧ ROUND_DOWN addr PAGE_SIZE = addr / PAGE_SIZE * PAGE_SIZE.
Proof.
  intros (A1 & A2 & A3 & A4 & A5) [I1 I2] Ha. apply Z.mod_divide in A1 as [y Hy]; [|done].
  pose proof (Z.div_mod addr PAGE_SIZE ltac:(done)). pose proof (Z.mod_pos_bound addr PAGE_SIZE ltac:(done)).
  assert (ROUND_DOWN addr PAGE_SIZE = addr / PAGE_SIZE * PAGE_SIZE) as -> by (by apply round_down_page).
  assert (0 ≤ addr / PAGE_SIZE * PAGE_SIZE - start v < 2 ^ 48) as HB by (unfold PAGE_SIZE in *; lia).
  split; [apply u64_id; unfold is_u64; lia|done].
Qed.

Lemma fault_map_spec sp own D s V va pa prm : space_ok true sp own D s V → is_u64 va → va < 2 ^ 48 → frame pa → va mod PAGE_SIZE = 0 →
  (sv <- vmspace_at sp ;; on_pt (map_range_in_pgtbl (pgtbl sv) va pa PAGE_SIZE prm) ;; unlock_space sp ;; ret 0) s = Halt ∨
  ∃ own' s', (sv <- vmspace_at sp ;; on_pt (map_range_in_pgtbl (pgtbl sv) va pa PAGE_SIZE prm) ;; unlock_space sp ;; ret 0) s = Done 0 s' ∧
    space_ok false sp own' D s' (with_lock false V) ∧ own ⊆ own' ∧
    PageTable.mapped (va / PAGE_SIZE) 1 pa prm (PageTable.pte_is own (pt s)) (PageTable.pte_is own' (pt s')) ∧
    vmrs s' = vmrs s ∧ radixes s' = radixes s ∧ rnodes s' = rnodes s ∧ cleared s' = cleared s.
Proof.
  intros S [H1 H2] H3 [F1 F2] H4. erewrite bind_Done by (apply vmspace_at_ok; apply S). apply Z.mod_divide in H4 as [y Hy]; [|done].
  assert (va / PAGE_SIZE = y) as Hd by (rewrite Hy; by apply Z.div_mul).
  destruct (PageTable.map_range_spec (pgtbl V) own D (pt s) va pa PAGE_SIZE prm (sk_pt _ _ _ _ _ _ S))
    as [E|(t & own' & E & P' & _ & M & G & _)]; [done|done| |lia| |left; by apply bind_Halt, zoom_Halt|right].
  - rewrite Hd. change (PageTable.total_page_cnt PAGE_SIZE) with 1. unfold PageTable.VPAGES, PAGE_SIZE in *. lia.
  - change (PageTable.total_page_cnt PAGE_SIZE) with 1. unfold PAGE_SIZE in *. lia.
  - erewrite bind_Done by (by apply zoom_Done). pose proof (space_ok_pt _ _ _ _ _ _ _ _ S P') as S1.
    erewrite bind_Done by (apply upd_space_ok; apply S1). eexists own', _. split; [reflexivity|]. split; [|done].
    exact (space_ok_upd _ false _ _ _ _ _ (with_lock false) S1 eq_refl eq_refl eq_refl).
Qed.

(** What a fault at [addr] of region [v] does, with the page [pa] it maps. *)
Definition fault_ok sp addr (v : vmregion) (o : pmobject) own s V x P s' : Prop :=
  let offset := addr / PAGE_SIZE * PAGE_SIZE - start v in
  let index := offset / PAGE_SIZE in
  ∃ own' D' x' P' pa, space_ok false sp own' D' s' V ∧ vmrs s' = vmrs s ∧ tree_ok own' D' s' (p_radix o) x' P' ∧ frame pa ∧
    (∀ k, is_u64 k → page_of s' x' P' k = if decide (k = index) then pa else page_of s x P k) ∧
    (if decide (page_of s x P index = 0) then pa ∈ cleared s' else pa = page_of s x P index) ∧
    PageTable.mapped (addr / PAGE_SIZE) 1 pa (fault_perm v o offset) (PageTable.pte_is own (pt s)) (PageTable.pte_is own' (pt s')).

Lemma with_lock_id V : vmspace_lock V = false → with_lock false (with_lock true V) = V.
Proof. destruct V. simpl. by intros ->. Qed.

Lemma find_region sp own D s V b p v addr : space_ok b sp own D s V → p ∈ vmr_list V → vmrs s !! p = Some v → inside v addr →
  find_vmr_for_va sp addr s = Done p s ∧ p ≠ 0 ∧ region_ok v.
Proof.
  intros S Hp Hv Hi. pose proof (zero_not_owned _ _ _ _ _ _ S) as ND.
  destruct (rg_region _ _ _ (sk_regions _ _ _ _ _ _ S) p Hp) as (Dp & w & Hw & Rw). rewrite Hv in Hw. injection Hw as <-.
  destruct (find_vmr_spec b sp own D s V addr S ND) as (q & E & [[-> HN]|(Nq & Hq & w & Hw & Iw)]); [by destruct (HN p v)|].
  rewrite (rg_apart _ _ _ (sk_regions _ _ _ _ _ _ S) p q v w addr) by done. split_and!; [done..|]. congruence.
Qed.

(** The page of a fault, and the state that has it. *)
Lemma fault_page_spec b sp own D s V p o x P index : space_ok b sp own D s V → Radix.SIZEOF_RADIX_NODE ≤ max_size →
  pmos s !! p = Some o → tree_ok own D s (p_radix o) x P → is_u64 index → page_of s x P index = 0 ∨ frame (page_of s x P index) →
  let m := if page_of s x P index =? 0 then fresh_page p index else ret (page_of s x P index) in
  m s = Halt ∨ (m s = Fault ∧ page_of s x P index = 0 ∧ ∃ a, get_page (PageTable.al (pt s)) = Done 0 a) ∨
  ∃ pa s' D' x' P', m s = Done pa s' ∧ frame pa ∧ space_ok b sp own D' s' V ∧ tree_ok own D' s' (p_radix o) x' P' ∧
    (∀ k, is_u64 k → page_of s' x' P' k = if decide (k = index) then pa else page_of s x P k) ∧
    (if decide (page_of s x P index = 0) then pa ∈ cleared s' else pa = page_of s x P index) ∧
    vmrs s' = vmrs s ∧ PageTable.ptps (pt s') = PageTable.ptps (pt s).
Proof.
  intros S HM Ho T Hi Hf. destruct (Z.eqb_spec (page_of s x P index) 0) as [E0|N0]; intros m; subst m.
  - destruct (fresh_page_spec b sp own D s V p o x P index S HM Ho T Hi E0)
      as [E|[[E Ea]|(pa & s' & D' & x' & P' & E & F & C & S' & T' & HV & HR & HT)]]; [by left|right; left; done|right; right].
    exists pa, s', D', x', P'. split_and!; try done. by rewrite decide_True.
  - right. right. destruct Hf as [?|Hf]; [done|]. exists (page_of s x P index), s, D, x, P. split_and!; try done; [|by rewrite decide_False].
    intros k _. by destruct (decide (k = index)) as [->|].
Qed.

Lemma pte_is_frame own (t t' : pstate A) w e : PageTable.ptps t' = PageTable.ptps t → PageTable.pte_is own t' w e ↔ PageTable.pte_is own t w e.
Proof. intros E. unfold PageTable.pte_is, PageTable.entry. by rewrite E. Qed.

Lemma fault_spec sp own D s V p v o x P addr : space_ok false sp own D s V → Radix.SIZEOF_RADIX_NODE ≤ max_size → is_u64 addr →
  p ∈ vmr_list V → vmrs s !! p = Some v → inside v addr → pmos s !! pmo v = Some o → tree_ok own D s (p_radix o) x P →
  let index := (addr / PAGE_SIZE * PAGE_SIZE - start v) / PAGE_SIZE in
  page_of s x P index = 0 ∨ frame (page_of s x P index) →
  handle_trans_fault sp addr s = Halt ∨
  (handle_trans_fault sp addr s = Fault ∧ page_of s x P index = 0 ∧ ∃ a, get_page (PageTable.al (pt s)) = Done 0 a) ∨
  ∃ s', handle_trans_fault sp addr s = Done 0 s' ∧ fault_ok sp addr v o own s V x P s'.
Proof.
  intros S HM Ha Hp Hv Iv Ho T index Hf. pose proof (sk_lock _ _ _ _ _ _ S) as HL. unfold handle_trans_fault.
  erewrite bind_Done by (apply lock_space_ok; [apply S|done]).
  pose proof (space_ok_upd _ true _ _ _ _ _ (with_lock true) S eq_refl eq_refl eq_refl) as S1. set (s1 := with_spaces _ s) in *.
  destruct (find_region sp own D s1 _ true p v addr S1 Hp Hv Iv) as (E & Np & Rv). erewrite bind_Done by exact E.
  rewrite (proj2 (Z.eqb_neq p 0)) by done. erewrite bind_Done by (by apply vmr_at_ok). erewrite bind_Done by (by apply pmo_at_ok).
  destruct (_ || _); [|by left]. destruct (fault_offset v addr Rv Iv Ha) as (-> & Ho1 & ->). cbv zeta.
  set (off := addr / PAGE_SIZE * PAGE_SIZE - start v) in *. change (off / PAGE_SIZE) with index.
  assert (is_u64 index) as Hi by (unfold index, is_u64, PAGE_SIZE; pose proof (Z.div_pos off 4096); pose proof (Z.div_le_upper_bound off 4096 (2 ^ 48)); lia).
  match goal with |- context [bind ?m _ _ = Halt] => assert (m s1 = Halt ∨ m s1 = Done (fault_perm v o off) s1) as [E1|E1] end.
  { unfold fault_perm. destruct (_ && _); [by right|]. destruct (p_size o <=? off); [by left|by right]. }
  { left. by apply bind_Halt. }
  erewrite bind_Done by exact E1. erewrite bind_Done by (by eapply (get_page_from_pmo_spec own D)).
  destruct (fault_page_spec true sp own D s1 _ (pmo v) o x P index S1 HM Ho T Hi Hf)
    as [E2|[(E2 & E0 & Ea)|(pa & s2 & D' & x' & P' & E2 & F & S2 & T2 & HV & HC & HR & HT)]].
  { left. by apply bind_Halt. }
  { right. left. split; [|done]. unfold bind. by rewrite E2. }
  erewrite bind_Done by exact E2.
  assert (0 ≤ addr / PAGE_SIZE * PAGE_SIZE < 2 ^ 48) as Hpage
    by (unfold off in Ho1; destruct Rv as (_ & _ & ? & ? & ?); pose proof (Z.mul_div_le addr PAGE_SIZE ltac:(done)); destruct Iv; lia).
  destruct (fault_map_spec sp own D' s2 _ (addr / PAGE_SIZE * PAGE_SIZE) pa (fault_perm v o off) S2)
    as [E3|(own' & s' & E3 & S' & HG & M & HR' & HX & HN & HC')]; [| |done|apply Z.mod_mul; done|by left|right; right].
  - unfold is_u64. lia.
  - lia.
  - exists s'. split; [exact E3|]. exists own', D', x', P', pa. rewrite with_lock_id in S' by done.
    split; [done|]. split; [by rewrite HR', HR|]. split.
    { eapply tree_ok_frame; [exact T2|done|done|apply (PageTable.po_heap _ _ _ _ (sk_pt _ _ _ _ _ _ S'))|done|by apply subseteq_dom]. }
    split; [done|]. split; [intros k Hk; rewrite (page_of_frame s2 s' x' P' k) by done; by apply HV|].
    split; [by rewrite HC'|]. rewrite Z.div_mul in M by done. intros w e. rewrite (M w e).
    destruct (decide (addr / PAGE_SIZE ≤ w < addr / PAGE_SIZE + 1)); [done|]. by apply pte_is_frame.
Qed.

(** ** The theorems *)

(** The region [vmspace_map_range] makes. *)
Definition new_region (va len flags p : Z) (o : pmobject) : vmregion :=
  mk_vmr (ROUND_DOWN va PAGE_SIZE) (if len <? PAGE_SIZE then PAGE_SIZE else len)
    (if p_type o =? PMO_DEVICE then Z.lor flags VMR_DEVICE else flags) p.

Lemma vm_map_spec sp own D s V va len flags p o n : space_ok false sp own D s V → SIZEOF_VMREGION ≤ max_size →
  pmos s !! p = Some o → n = new_region va len flags p o → region_ok n →
  0 ≤ p_size o ≤ size n → 0 ≤ p_start o → p_start o + p_size o + PAGE_SIZE ≤ 2 ^ 48 →
  vmspace_map_range sp va len flags p s = Halt ∨
  (∃ s', vmspace_map_range sp va len flags p s = Done (- ENOMEM) s' ∧ space_ok false sp own D s' V ∧ vmrs s' = vmrs s) ∨
  ∃ s' own' D' q, vmspace_map_range sp va len flags p s = Done 0 s' ∧ (q ∉ vmr_list V) ∧ vmrs s' = <[q := n]> (vmrs s) ∧
    space_ok false sp own' D' s' (with_list (q :: vmr_list V) V) ∧
    if (p_type o =? PMO_DATA) || (p_type o =? PMO_DEVICE)
    then PageTable.mapped (start n / PAGE_SIZE) (PageTable.total_page_cnt (p_size o)) (p_start o) (perm n)
           (PageTable.pte_is own (pt s)) (PageTable.pte_is own' (pt s'))
    else ∀ w e, PageTable.pte_is own' (pt s') w e ↔ PageTable.pte_is own (pt s) w e.
Proof.
  intros S HM Ho En Rn Hs Hp0 Hp. unfold vmspace_map_range. erewrite bind_Done by (by apply pmo_at_ok).
  destruct (_ && _); [left; by apply bind_Halt|]. erewrite bind_Done by reflexivity. cbv zeta.
  destruct (alloc_vmregion_spec _ _ _ _ _ _ S HM) as [E|(q & a & E & HQ)]; [left; by apply bind_Halt|]. erewrite bind_Done by exact E.
  destruct HQ as [[-> S1]|(Nq & Dq & S1)]; [right; left; by eexists|]. rewrite (proj2 (Z.eqb_neq q 0)) by done.
  fold (new_region va len flags p o). rewrite <- En. erewrite bind_Done by reflexivity.
  assert (q ∉ vmr_list V) as Lq by (intros H; apply Dq; by apply (rg_region _ _ _ (sk_regions _ _ _ _ _ _ S))).
  pose proof (space_ok_set_vmr _ _ _ _ _ _ q n S1 Lq) as S2. set (s2 := with_vmrs _ _) in *.
  assert (vmrs s2 !! q = Some n) as Hq by apply lookup_insert_eq.
  pose proof (λ k, locked_add_spec (B := Z) sp own _ s2 V q n k S2 Lq (elem_of_union_l _ _ _ (elem_of_singleton_2 _ _ eq_refl)) Hq Rn) as HA.
  edestruct HA as [E2|(s3 & E2 & S3 & HP & HR & HO)]; [left; exact E2|]. rewrite E2. change (0 <? 0) with false. cbv iota. destruct (_ || _) eqn:Et.
  - destruct (fill_page_table_spec false sp own _ s3 _ q n o S3) as [E4|(own' & t & E4 & S4 & M)];
      [by rewrite HR|rewrite HO, En; exact Ho|done..|left; by do 2 apply bind_Halt|right; right].
    erewrite bind_Done by (by erewrite bind_Done by exact E4). exists (with_pt t s3), own', ({[q]} ∪ D), q.
    split; [done|]. split; [done|]. split; [exact HR|]. split; [done|]. intros w e. rewrite (M w e), HP. by destruct (decide _).
  - right. right. exists s3, own, ({[q]} ∪ D), q. split; [done|]. split; [done|]. split; [exact HR|]. split; [done|]. by rewrite HP.
Qed.

(** C26: [vmspace_map_range] either panics (the object cannot be mapped, the new
    region overlaps one of the address space, or the page tables cannot grow), or fails with -ENOMEM and
    adds nothing, or adds one region with the given page range to the address
    space, which stays a list of disjoint regions over a well-formed page table;
    the pages of a PMO_DATA or PMO_DEVICE object are mapped at once, for the
    other objects no page is.  The region must be of whole pages ([region_ok]: start and
    length multiples of the page size, in the user half): the function does not round
    the length, and an unaligned one can overlap, see [one_byte_overlap]. *)
Theorem vm_map_ok sp own D s V va len flags p o n : space_ok false sp own D s V → SIZEOF_VMREGION ≤ max_size →
  pmos s !! p = Some o → n = new_region va len flags p o → region_ok n →
  0 ≤ p_size o ≤ size n → 0 ≤ p_start o → p_start o + p_size o + PAGE_SIZE ≤ 2 ^ 48 →
  vmspace_map_range sp va len flags p s = Halt ∨
  (∃ s', vmspace_map_range sp va len flags p s = Done (- ENOMEM) s' ∧ space_ok false sp own D s' V ∧ vmrs s' = vmrs s) ∨
  ∃ s' own' D' q, vmspace_map_range sp va len flags p s = Done 0 s' ∧ (q ∉ vmr_list V) ∧ vmrs s' = <[q := n]> (vmrs s) ∧
    space_ok false sp own' D' s' (with_list (q :: vmr_list V) V) ∧
    if (p_type o =? PMO_DATA) || (p_type o =? PMO_DEVICE)
    then PageTable.mapped (start n / PAGE_SIZE) (PageTable.total_page_cnt (p_size o)) (p_start o) (perm n)
           (PageTable.pte_is own (pt s)) (PageTable.pte_is own' (pt s'))
    else ∀ w e, PageTable.pte_is own' (pt s') w e ↔ PageTable.pte_is own (pt s) w e.
Proof. apply vm_map_spec. Qed.

(** [find_vmr_for_va] returns the only region of the address space that has
    the address, and NULL when no region has it. *)
Theorem find_vmr_ok b sp own D s V addr : space_ok b sp own D s V →
  ∃ p, find_vmr_for_va sp addr s = Done p s ∧
  ((p = 0 ∧ ∀ q v, q ∈ vmr_list V → vmrs s !! q = Some v → ¬ inside v addr) ∨
   (p ∈ vmr_list V ∧ (∃ v, vmrs s !! p = Some v ∧ inside v addr) ∧
    ∀ q v, q ∈ vmr_list V → vmrs s !! q = Some v → inside v addr → q = p)).
Proof.
  intros S. destruct (find_vmr_spec b sp own D s V addr S (zero_not_owned _ _ _ _ _ _ S)) as (p & E & [H|(_ & Hp & v & Hv & Iv)]);
    exists p; (split; [done|]); [by left|right]. split_and!; [done|by exists v|].
  intros q w Hq Hw Iw. by apply (rg_apart _ _ _ (sk_regions _ _ _ _ _ _ S) q p w v addr).
Qed.

(** C27: A fault at an address of a region whose object is paged on demand panics,
    or dereferences NULL because no page is left, or returns 0 with the address
    space unlocked: the page of the address is then mapped to the page the
    object's radix tree has at the index of the address, an existing one or a
    fresh zeroed one, and nothing else of the tree or the page table changes. *)
Theorem handle_trans_fault_ok sp own D s V p v o x P addr : space_ok false sp own D s V → Radix.SIZEOF_RADIX_NODE ≤ max_size → is_u64 addr →
  p ∈ vmr_list V → vmrs s !! p = Some v → inside v addr → pmos s !! pmo v = Some o → tree_ok own D s (p_radix o) x P →
  let index := (addr / PAGE_SIZE * PAGE_SIZE - start v) / PAGE_SIZE in
  page_of s x P index = 0 ∨ frame (page_of s x P index) →
  handle_trans_fault sp addr s = Halt ∨
  (handle_trans_fault sp addr s = Fault ∧ page_of s x P index = 0 ∧ ∃ a, get_page (PageTable.al (pt s)) = Done 0 a) ∨
  ∃ s', handle_trans_fault sp addr s = Done 0 s' ∧ fault_ok sp addr v o own s V x P s'.
Proof. apply fault_spec. Qed.

(** A fault at an address of no region returns -ENOMAPPING and leaves the
    address space locked, so the next operation that locks it spins. *)
Theorem fault_keeps_lock sp own D s V addr : space_ok false sp own D s V →
  (∀ q v, q ∈ vmr_list V → vmrs s !! q = Some v → ¬ inside v addr) →
  ∃ s', handle_trans_fault sp addr s = Done (- ENOMAPPING) s' ∧ space_ok true sp own D s' (with_lock true V) ∧
  ∀ a, handle_trans_fault sp a s' = Spin.
Proof.
  intros S HN. pose proof (space_ok_upd _ true _ _ _ _ _ (with_lock true) S eq_refl eq_refl eq_refl) as S1.
  eexists. split; [|split; [exact S1|]].
  - unfold handle_trans_fault. erewrite bind_Done by (apply lock_space_ok; apply S).
    destruct (find_vmr_spec _ _ _ _ _ _ addr S1 (zero_not_owned _ _ _ _ _ _ S1)) as (p & E & [[-> _]|(_ & Hp & v & Hv & Iv)]);
      [by erewrite bind_Done by exact E|]. by destruct (HN p v Hp Hv).
  - intros a. unfold handle_trans_fault, lock_space, bind. by rewrite (vmspace_at_ok _ _ _ (sk_space _ _ _ _ _ _ S1)).
Qed.

End spec.

(** ** A small address space *)

Module VMDemo.

(** One region of two pages that belong to an anonymous object; a second object is
    a data object. *)
Definition v0 : vmregion := mk_vmr 65536 8192 VMR_WRITE 7.
Definition o0 : pmobject := mk_pmo 9 0 8192 PMO_ANONYM.
Definition o1 : pmobject := mk_pmo 0 40960 4096 PMO_DATA.
Definition x0 : radix := mk_radix 0 false false.
Definition V0 : vmspace := mk_vmspace [4096] KBASE false [] 0 HEAP_START MMAP_START.
Definition vstate0 (sp : Z) (objs : gmap Z pmobject) : vstate Z :=
  mk_vstate PageTable.PTDemo.s0 {[sp := V0]} {[4096 := v0]} objs {[9 := x0]} ∅ ∅.
Definition t0 : vstate Z := vstate0 16 {[7 := o0; 8 := o1]}.
Definition L0 : gmap Z Z := {[4096 := 48; KBASE := 4096]}.

Lemma demo_owns : owns (KBASE + 4096) L0.
Proof.
  unfold L0. split; [done|]. split.
  - intros p n [[<- <-]|[_ [<- <-]%lookup_singleton_Some]]%lookup_insert_Some; done.
  - intros p n q m x [[<- <-]|[_ [<- <-]%lookup_singleton_Some]]%lookup_insert_Some
      [[<- <-]|[_ [<- <-]%lookup_singleton_Some]]%lookup_insert_Some; unfold KBASE; lia.
Qed.

Lemma vstate0_ok sp objs : space_ok false sp PageTable.PTDemo.own0 {[4096]} (vstate0 sp objs) V0.
Proof.
  split; [apply lookup_singleton_eq|done| |].
  - split.
    + apply NoDup_singleton.
    + intros p ->%list_elem_of_singleton. split; [by apply elem_of_singleton|]. exists v0. split; [done|]. done.
    + intros p q v w a ->%list_elem_of_singleton ->%list_elem_of_singleton. done.
  - eapply pt_ok_frame; [apply PageTable.PTDemo.demo_pt_ok|done| |].
    + exists L0. split; [apply demo_owns|]. vm_compute. reflexivity.
    + apply disjoint_singleton_l. vm_compute. intros H. discriminate H.
Qed.

Lemma demo_space_ok : space_ok false 16 PageTable.PTDemo.own0 {[4096]} t0 V0.
Proof. apply vstate0_ok. Qed.

Lemma demo_tree_ok : tree_ok PageTable.PTDemo.own0 {[4096]} t0 9 x0 ∅.
Proof.
  split; [done|]. split; [done|]. exists L0. split; [vm_compute; reflexivity|]. apply Radix.rep_empty, demo_owns.
Qed.

End VMDemo.

Import VMDemo.

Lemma vm_map_ok_witness : ∃ s' own' D' q, vmspace_map_range 16 131080 100 VMR_READ 8 t0 = Done 0 s' ∧
  space_ok false 16 own' D' s' (with_list [q; 4096] V0).
Proof.
  destruct (vm_map_ok 16 PageTable.PTDemo.own0 {[4096]} t0 V0 131080 100 VMR_READ 8 o1 (mk_vmr 131072 4096 VMR_READ 8) demo_space_ok)
    as [E|[(s' & E & _)|(s' & own' & D' & q & E & _ & _ & S & _)]];
    [vm_compute; discriminate|reflexivity|reflexivity|vm_compute; repeat split; discriminate|vm_compute; repeat split; discriminate
    |vm_compute; discriminate|vm_compute; discriminate|vm_compute in E; discriminate E|vm_compute in E; discriminate E|].
  exists s', own', D', q. split; [exact E|exact S].
Defined.

Lemma find_vmr_ok_witness : ∃ p, find_vmr_for_va 16 65540 t0 = Done p t0.
Proof. destruct (find_vmr_ok false 16 _ _ t0 V0 65540 demo_space_ok) as (p & E & _). exists p. exact E. Defined.

Lemma handle_trans_fault_ok_witness : ∃ s', handle_trans_fault 16 70000 t0 = Done 0 s' ∧
  fault_ok 16 70000 v0 o0 PageTable.PTDemo.own0 t0 V0 x0 ∅ s'.
Proof.
  destruct (handle_trans_fault_ok 16 _ _ t0 V0 4096 v0 o0 x0 ∅ 70000 demo_space_ok) as [E|[(E & _)|H]];
    [vm_compute; discriminate|vm_compute; split; [discriminate|reflexivity]|by apply list_elem_of_singleton|reflexivity
    |vm_compute; split; [discriminate|reflexivity]|reflexivity|exact demo_tree_ok|left; reflexivity
    |vm_compute in E; discriminate E|vm_compute in E; discriminate E|exact H].
Defined.

Lemma fault_keeps_lock_witness : ∃ s', handle_trans_fault 16 64 t0 = Done (- ENOMAPPING) s'.
Proof.
  destruct (fault_keeps_lock 16 _ _ t0 V0 64 demo_space_ok) as (s' & E & _); [|exists s'; exact E].
  intros q v ->%list_elem_of_singleton [= <-]. vm_compute. intros [H _]. apply H. reflexivity.
Defined.

(** A region whose last byte is the first byte of another one is accepted. *)
Example one_byte_overlap :
  match vmspace_map_range 16 61440 4097 VMR_READ 7 t0 with
  | Done r s => r = 0 ∧ (λ x, size x.2) <$> map_to_list (vmrs s) = [4097; 8192]
  | _ => False
  end.
Proof. vm_compute. split; reflexivity. Qed.

(** Unmapping an address of no region fails with the address space locked. *)
Example unmap_keeps_lock :
  match vmspace_unmap_range 16 64 4096 t0 with
  | Done r s => r = -1 ∧ vmspace_lock <$> spaces s !! 16 = Some true
  | _ => False
  end.
Proof. vm_compute. split; reflexivity. Qed.

End VmRegion.
