(* ===== verification/Sched.v ===== *)
(** * Threads, thread switching and lazy FPU (kernel/sched/sched.c,
    kernel/sched/context.c, kernel/arch/aarch64/sched/{context,fpu,sched}.c)

    The state holds the threads by address, one record per CPU and the ready
    queues.  The queues are lists of thread addresses, keyed by [K]: the CPU for
    the round-robin policy, the CPU and the priority for the other one.  [me] is
    the CPU that runs the code ([smp_get_cpu_id()]).

    A register file is one value: [fpu_regs] stands for q0-q31, fpcr and fpsr,
    the [fpu_area] of a thread for the buffer they are saved in.  The tree is
    built with [FPU_SAVING_MODE == LAZY_FPU_MODE]. *)

From S2P Require Import Prelude Allocator.

Module Sched.

Import Allocator.

Definition EINVAL : Z := 22.
Definition ENOMEM : Z := 12.

Definition DEFAULT_BUDGET : Z := 1.
Definition MAX_PRIO : Z := 255.
Definition MIN_PRIO : Z := 0.
Definition PRIO_NUM : Z := MAX_PRIO + 1.
Definition NO_AFF : Z := -1.

Inductive thread_state := TS_INIT | TS_READY | TS_INTER | TS_RUNNING | TS_EXIT | TS_WAITING | TS_EXITING.
Inductive thread_special_state := KS_FREE | KS_LOCKED.

#[export] Instance thread_state_eq_dec : EqDecision thread_state.
Proof. solve_decision. Defined.
#[export] Instance thread_special_state_eq_dec : EqDecision thread_special_state.
Proof. solve_decision. Defined.

(** [enum thread_type]; the order matters: user threads are above [TYPE_KERNEL]. *)
Definition TYPE_IDLE : Z := 0.
Definition TYPE_KERNEL : Z := 1.
Definition TYPE_USER : Z := 2.
Definition TYPE_SHADOW : Z := 3.
Definition TYPE_TESTS : Z := 4.

(** [enum reg_type] *)
Definition X0 : Z := 0.
Definition X1 : Z := 1.
Definition SP_EL0 : Z := 31.
Definition ELR_EL1 : Z := 32.
Definition SPSR_EL1 : Z := 33.
Definition SPSR_EL1_IRQ : Z := 2 ^ 7.
Definition SPSR_EL1_EL0t : Z := 0.
Definition SPSR_EL1_EL1h : Z := 5.

Definition THREAD_ITSELF : Z := -1.
Definition DEFAULT_KERNEL_STACK_SZ : Z := 4096.
Definition SIZEOF_FPU_AREA : Z := 520.
Definition SIZEOF_SCHED_CONT : Z := 64.

(** [ec] holds the registers saved on the entry to the kernel, by [enum reg_type]
    (0 when absent); [kernel_stack] is the block the context lies in; [sc] is NULL or the address
    of the scheduling context, whose budget is [budget].  Threads can share a
    scheduling context (kernel/ipc/connection.c); then they see the same budget. *)
Record thread_ctx := mk_ctx {
  ec : gmap Z Z;
  kernel_stack : Z;
  fpu_state : Z; fpu_area : Z;
  tls_base : Z;
  sc : Z; budget : Z;
  type : Z; state : thread_state; prio : Z; affinity : Z; cpuid : Z;
  kernel_stack_state : thread_special_state }.

Record thread := mk_thread {
  ctx : option thread_ctx; prev_thread : Z; vmspace : Z; cap_group : Z }.

(** [struct per_cpu_info] with the CPU's entry of [current_threads] and its
    registers; [fpu_trap]: the use of the FPU at EL0 traps (CPACR_EL1.FPEN). *)
Record cpu := mk_cpu {
  current : Z; fpu_owner : Z; fpu_disable : bool;
  fpu_trap : bool; fpu_regs : Z; tpidr : Z; ttbr0 : Z }.

Definition with_current (t : Z) (c : cpu) : cpu :=
  mk_cpu t (fpu_owner c) (fpu_disable c) (fpu_trap c) (fpu_regs c) (tpidr c) (ttbr0 c).
Definition with_owner (t : Z) (c : cpu) : cpu :=
  mk_cpu (current c) t (fpu_disable c) (fpu_trap c) (fpu_regs c) (tpidr c) (ttbr0 c).
Definition with_disable (b : bool) (c : cpu) : cpu :=
  mk_cpu (current c) (fpu_owner c) b b (fpu_regs c) (tpidr c) (ttbr0 c).
Definition with_regs (v : Z) (c : cpu) : cpu :=
  mk_cpu (current c) (fpu_owner c) (fpu_disable c) (fpu_trap c) v (tpidr c) (ttbr0 c).
Definition with_tpidr (v : Z) (c : cpu) : cpu :=
  mk_cpu (current c) (fpu_owner c) (fpu_disable c) (fpu_trap c) (fpu_regs c) v (ttbr0 c).
Definition with_ttbr0 (v : Z) (c : cpu) : cpu :=
  mk_cpu (current c) (fpu_owner c) (fpu_disable c) (fpu_trap c) (fpu_regs c) (tpidr c) v.

Definition with_ec (f : gmap Z Z → gmap Z Z) (c : thread_ctx) : thread_ctx :=
  mk_ctx (f (ec c)) (kernel_stack c) (fpu_state c) (fpu_area c) (tls_base c) (sc c) (budget c) (type c) (state c) (prio c)
    (affinity c) (cpuid c) (kernel_stack_state c).
Definition with_state (st : thread_state) (c : thread_ctx) : thread_ctx :=
  mk_ctx (ec c) (kernel_stack c) (fpu_state c) (fpu_area c) (tls_base c) (sc c) (budget c) (type c) st (prio c)
    (affinity c) (cpuid c) (kernel_stack_state c).
Definition with_cpuid (n : Z) (c : thread_ctx) : thread_ctx :=
  mk_ctx (ec c) (kernel_stack c) (fpu_state c) (fpu_area c) (tls_base c) (sc c) (budget c) (type c) (state c) (prio c)
    (affinity c) n (kernel_stack_state c).
Definition with_affinity (n : Z) (c : thread_ctx) : thread_ctx :=
  mk_ctx (ec c) (kernel_stack c) (fpu_state c) (fpu_area c) (tls_base c) (sc c) (budget c) (type c) (state c) (prio c)
    n (cpuid c) (kernel_stack_state c).
Definition with_budget (n : Z) (c : thread_ctx) : thread_ctx :=
  mk_ctx (ec c) (kernel_stack c) (fpu_state c) (fpu_area c) (tls_base c) (sc c) n (type c) (state c) (prio c)
    (affinity c) (cpuid c) (kernel_stack_state c).
Definition with_stack_state (k : thread_special_state) (c : thread_ctx) : thread_ctx :=
  mk_ctx (ec c) (kernel_stack c) (fpu_state c) (fpu_area c) (tls_base c) (sc c) (budget c) (type c) (state c) (prio c)
    (affinity c) (cpuid c) k.
Definition with_fpu (v : Z) (c : thread_ctx) : thread_ctx :=
  mk_ctx (ec c) (kernel_stack c) (fpu_state c) v (tls_base c) (sc c) (budget c) (type c) (state c) (prio c)
    (affinity c) (cpuid c) (kernel_stack_state c).
Definition with_tls (v : Z) (c : thread_ctx) : thread_ctx :=
  mk_ctx (ec c) (kernel_stack c) (fpu_state c) (fpu_area c) v (sc c) (budget c) (type c) (state c) (prio c)
    (affinity c) (cpuid c) (kernel_stack_state c).

(** A store of the budget of scheduling context [p]. *)
Definition charged (p n : Z) (c : thread_ctx) : thread_ctx := if sc c =? p then with_budget n c else c.
Definition on_ctx (f : thread_ctx → thread_ctx) (th : thread) : thread :=
  mk_thread (f <$> ctx th) (prev_thread th) (vmspace th) (cap_group th).

Section sched.
Context {A : Type} `{!Allocator A} {K : Type} `{!EqDecision K, !Countable K}.
(** The board ([PLAT_CPU_NUM]). *)
Context (PLAT_CPU_NUM : Z).

Record sstate := mk_sstate {
  al : A;
  threads : gmap Z thread;
  cpus : gmap Z cpu;
  ready : gmap K (list Z);
  (** [vmspace->history_cpus], as the set of the pairs that are 1 *)
  history : gset (Z * Z)
}.

Abbreviation MS := (M sstate).

Definition on_al {B} (m : M A B) : MS B :=
  zoom al (λ a s, mk_sstate a (threads s) (cpus s) (ready s) (history s)) m.
Definition with_threads (f : gmap Z thread → gmap Z thread) (s : sstate) : sstate :=
  mk_sstate (al s) (f (threads s)) (cpus s) (ready s) (history s).
Definition with_cpus (f : gmap Z cpu → gmap Z cpu) (s : sstate) : sstate :=
  mk_sstate (al s) (threads s) (f (cpus s)) (ready s) (history s).
Definition with_ready (f : gmap K (list Z) → gmap K (list Z)) (s : sstate) : sstate :=
  mk_sstate (al s) (threads s) (cpus s) (f (ready s)) (history s).
Definition with_history (h : gset (Z * Z)) (s : sstate) : sstate :=
  mk_sstate (al s) (threads s) (cpus s) (ready s) h.

(** Loads and stores through a thread pointer, and of per-CPU data. *)
Definition thread_at (t : Z) : MS thread := s <- get ;; need (threads s !! t).
Definition set_thread (t : Z) (th : thread) : MS unit := modify (with_threads (<[t := th]>)).
Definition ctx_of (t : Z) : MS thread_ctx := th <- thread_at t ;; need (ctx th).
Definition upd_ctx (t : Z) (f : thread_ctx → thread_ctx) : MS unit :=
  th <- thread_at t ;; c <- need (ctx th) ;;
  set_thread t (mk_thread (Some (f c)) (prev_thread th) (vmspace th) (cap_group th)).
(** [thread->thread_ctx->sc->budget = n], seen by every thread that shares [sc] *)
Definition set_budget (t n : Z) : MS unit :=
  c <- ctx_of t ;; if sc c =? 0 then fault else modify (with_threads (fmap (on_ctx (charged (sc c) n)))).
Definition set_prev (t p : Z) : MS unit :=
  th <- thread_at t ;; set_thread t (mk_thread (ctx th) p (vmspace th) (cap_group th)).
Definition cpu_at (me : Z) : MS cpu := s <- get ;; need (cpus s !! me).
Definition upd_cpu (me : Z) (f : cpu → cpu) : MS unit :=
  c <- cpu_at me ;; modify (with_cpus (<[me := f c]>)).
Definition current_thread (me : Z) : MS Z := c <- cpu_at me ;; ret (current c).
(** [BUG_ON(!thread->thread_ctx)] *)
Definition need_ctx (t : Z) : MS unit :=
  th <- thread_at t ;; BUG_ON (match ctx th with None => true | Some _ => false end).

(** [ready_queue_node] is on one of the lists.  Appending a node that is on a
    list and deleting one that is not would corrupt the lists. *)
Definition linked (t : Z) (s : sstate) : bool := bool_decide (map_Exists (λ _ q, t ∈ q) (ready s)).
Definition list_append (t : Z) (k : K) : MS unit :=
  s <- get ;;
  if linked t s then fault
  else q <- need (ready s !! k) ;; modify (with_ready (<[k := q ++ [t]]>)).
Definition list_del (t : Z) : MS unit :=
  s <- get ;;
  if linked t s then modify (with_ready (fmap (filter (λ u, u ≠ t)))) else fault.

(** ** fpu.c *)

Definition is_user (c : thread_ctx) : bool := TYPE_KERNEL <? type c.

(** [me]'s registers go to the buffer of [t]. *)
Definition save_fpu_state (me t : Z) : MS unit :=
  if t =? 0 then ret tt
  else
    c <- ctx_of t ;;
    if is_user c then r <- cpu_at me ;; upd_ctx t (with_fpu (fpu_regs r)) else ret tt.

Definition restore_fpu_state (me t : Z) : MS unit :=
  if t =? 0 then ret tt
  else
    c <- ctx_of t ;;
    if is_user c then upd_cpu me (with_regs (fpu_area c)) else ret tt.

Definition disable_fpu_usage (me : Z) : MS unit :=
  c <- cpu_at me ;;
  if fpu_disable c then ret tt else upd_cpu me (with_disable true).

Definition enable_fpu_usage (me : Z) : MS unit := upd_cpu me (with_disable false).

Definition change_fpu_owner (me : Z) : MS unit :=
  enable_fpu_usage me ;;
  c <- cpu_at me ;;
  let owner := fpu_owner c in
  cur <- current_thread me ;;
  if owner =? cur then ret tt
  else
    (if owner =? 0 then ret tt else save_fpu_state me owner) ;;
    upd_cpu me (with_owner cur) ;;
    restore_fpu_state me cur.

Definition save_and_release_fpu (me t : Z) : MS unit :=
  c <- cpu_at me ;;
  if fpu_owner c =? t then save_fpu_state me t ;; upd_cpu me (with_owner 0) else ret tt.

(** The buffer is used without a test for NULL. *)
Definition arch_init_thread_fpu (c : thread_ctx) : MS thread_ctx :=
  p <- on_al (al_zalloc SIZEOF_FPU_AREA) ;;
  if p =? 0 then fault
  else ret (mk_ctx (ec c) (kernel_stack c) p 0 (tls_base c) (sc c) (budget c) (type c) (state c) (prio c)
              (affinity c) (cpuid c) (kernel_stack_state c)).

Definition arch_free_thread_fpu (c : thread_ctx) : MS unit := on_al (al_free (fpu_state c)).

(** ** context.c *)

Definition create_thread_ctx : MS (option thread_ctx) :=
  stack <- on_al (al_zalloc DEFAULT_KERNEL_STACK_SZ) ;;
  if stack =? 0 then ret None
  else
    c <- arch_init_thread_fpu (mk_ctx ∅ stack 0 0 0 0 0 0 TS_INIT 0 0 0 KS_FREE) ;;
    ret (Some c).

Definition destroy_thread_ctx (t : Z) : MS unit :=
  c <- ctx_of t ;;
  arch_free_thread_fpu c ;;
  on_al (al_free (sc c)) ;;
  on_al (al_free (kernel_stack c)).

(** [ec.reg[i]] *)
Definition get_reg (t i : Z) : MS Z := c <- ctx_of t ;; ret (default 0 (ec c !! i)).
Definition set_reg (t i v : Z) : MS unit := upd_ctx t (with_ec (<[i := v]>)).

(** The scheduling context is used without a test for NULL. *)
Definition init_thread_ctx (t stack func pri ty aff : Z) : MS unit :=
  set_reg t SP_EL0 stack ;;
  set_reg t ELR_EL1 func ;;
  set_reg t SPSR_EL1 SPSR_EL1_EL0t ;;
  upd_ctx t (λ c, mk_ctx (ec c) (kernel_stack c) (fpu_state c) (fpu_area c) (tls_base c) (sc c) (budget c) ty TS_INIT pri
    aff (cpuid c) (kernel_stack_state c)) ;;
  p <- on_al (al_alloc SIZEOF_SCHED_CONT) ;;
  if p =? 0 then fault
  else
    upd_ctx t (λ c, mk_ctx (ec c) (kernel_stack c) (fpu_state c) (fpu_area c) (tls_base c) p DEFAULT_BUDGET (type c)
      (state c) (prio c) (affinity c) (cpuid c) KS_FREE).

Definition arch_get_thread_stack (t : Z) : MS Z := get_reg t SP_EL0.
Definition arch_set_thread_stack (t stack : Z) : MS unit := set_reg t SP_EL0 stack.
Definition arch_set_thread_return (t v : Z) : MS unit := set_reg t X0 v.
Definition arch_set_thread_next_ip (t ip : Z) : MS unit := set_reg t ELR_EL1 ip.
Definition arch_get_thread_next_ip (t : Z) : MS Z := get_reg t ELR_EL1.
Definition arch_set_thread_info_page (t addr : Z) : MS unit := set_reg t X0 addr.
Definition arch_set_thread_arg (t arg : Z) : MS unit := set_reg t X0 arg.
Definition arch_set_thread_tls (t tls : Z) : MS unit := upd_ctx t (with_tls tls).
Definition arch_set_thread_badge_arg (t badge : Z) : MS unit := set_reg t X1 badge.
Definition arch_enable_interrupt (t : Z) : MS unit :=
  v <- get_reg t SPSR_EL1 ;; set_reg t SPSR_EL1 (Z.ldiff v SPSR_EL1_IRQ).
Definition arch_disable_interrupt (t : Z) : MS unit :=
  v <- get_reg t SPSR_EL1 ;; set_reg t SPSR_EL1 (Z.lor v SPSR_EL1_IRQ).

(** [func] is the address of [idle_thread_routine]. *)
Definition arch_idle_ctx_init (t func : Z) : MS unit :=
  upd_ctx t (with_ec (λ _, ∅)) ;;
  set_reg t SPSR_EL1 SPSR_EL1_EL1h ;;
  set_reg t ELR_EL1 func.

Definition switch_tls_info (me from to : Z) : MS unit :=
  (if from =? 0 then ret tt
   else c <- ctx_of from ;; if is_user c then r <- cpu_at me ;; upd_ctx from (with_tls (tpidr r)) else ret tt) ;;
  (if to =? 0 then ret tt
   else c <- ctx_of to ;; if is_user c then upd_cpu me (with_tpidr (tls_base c)) else ret tt).

(** ** sched.c *)

Definition sched_is_running (t : Z) : MS Z :=
  BUG_ON (t =? 0) ;; need_ctx t ;;
  c <- ctx_of t ;; ret (if decide (state c = TS_RUNNING) then 1 else 0).

Definition switch_to_thread (me target : Z) : MS Z :=
  BUG_ON (target =? 0) ;;
  need_ctx target ;;
  c <- ctx_of target ;;
  BUG_ON (bool_decide (state c = TS_READY)) ;;
  cur <- current_thread me ;;
  if target =? cur then
    upd_ctx target (with_state TS_RUNNING) ;;
    set_prev target THREAD_ITSELF ;;
    ret 0
  else
    upd_ctx target (with_cpuid me) ;;
    upd_ctx target (with_state TS_RUNNING) ;;
    set_prev target cur ;;
    (if is_user c then disable_fpu_usage me else ret tt) ;;
    switch_tls_info me cur target ;;
    upd_ctx target (with_stack_state KS_LOCKED) ;;
    upd_cpu me (with_current target) ;;
    ret 0.

Definition record_history_cpu (vm me : Z) : MS unit :=
  BUG_ON (PLAT_CPU_NUM <=? me) ;; modify (λ s, with_history ({[(vm, me)]} ∪ history s) s).

Definition switch_thread_vmspace_to (me t : Z) : MS unit :=
  th <- thread_at t ;; upd_cpu me (with_ttbr0 (vmspace th)).

Definition switch_context (me : Z) : MS unit :=
  t <- current_thread me ;;
  BUG_ON (t =? 0) ;;
  need_ctx t ;;
  th <- thread_at t ;;
  if prev_thread th =? THREAD_ITSELF then ret tt
  else
    c <- ctx_of t ;;
    if negb (type c =? TYPE_IDLE) && negb (type c =? TYPE_KERNEL) && negb (type c =? TYPE_TESTS) then
      BUG_ON (vmspace th =? 0) ;;
      record_history_cpu (vmspace th) me ;;
      switch_thread_vmspace_to me t
    else ret tt.

Fixpoint find_next_runnable (cur : Z) (l : list Z) : MS Z :=
  match l with
  | [] => ret 0
  | t :: l' =>
      c <- ctx_of t ;;
      if bool_decide (kernel_stack_state c = KS_FREE) || (t =? cur) then ret t else find_next_runnable cur l'
  end.
Definition find_next_runnable_thread_in_list (me : Z) (k : K) : MS Z :=
  s <- get ;; q <- need (ready s !! k) ;; cur <- current_thread me ;; find_next_runnable cur q.

Definition finish_switch (me : Z) : MS unit :=
  t <- current_thread me ;;
  th <- thread_at t ;;
  let prev := prev_thread th in
  if (prev =? THREAD_ITSELF) || (prev =? 0) then ret tt else upd_ctx prev (with_stack_state KS_FREE).

(** [eret_to_thread(switch_context())]: [__eret_to_thread] calls [finish_switch]
    and returns to the thread (arch/aarch64/irq/irq_entry.S). *)
Definition eret_to_thread (me : Z) : MS unit := switch_context me ;; finish_switch me ;; away.

(** [struct sched_ops] *)
Record sched_ops := mk_sched_ops {
  op_sched : Z → MS Z; op_sched_enqueue : Z → Z → MS Z; op_sched_dequeue : Z → MS Z }.

Context (ops : sched_ops).

Definition sched (me : Z) : MS Z := op_sched ops me.
Definition sched_enqueue (me t : Z) : MS Z := op_sched_enqueue ops me t.
Definition sched_dequeue (t : Z) : MS Z := op_sched_dequeue ops t.

Definition sys_yield (me : Z) : MS unit :=
  t <- current_thread me ;;
  BUG_ON (t =? 0) ;;
  set_budget t 0 ;;
  sched me ;;
  eret_to_thread me.

(** The interrupt entry; [plat_handle_irq] is the device side. *)
Definition handle_irq (plat_handle_irq : MS unit) (me : Z) : MS unit :=
  plat_handle_irq ;; sched me ;; eret_to_thread me.

End sched.

Arguments sstate A K {_ _}.
Arguments sched_ops A K {_ _}.

(** ** Reading the state

    [tctx s t] is the context of thread [t].  Every operation above changes
    threads only through [put_ctx] and [put_prev]. *)
Section view.
Context {A : Type} `{!Allocator A} {K : Type} `{!EqDecision K, !Countable K}.
Implicit Types s : sstate A K.

Definition tctx s (t : Z) : option thread_ctx := threads s !! t ≫= ctx.

Definition put_ctx (t : Z) (f : thread_ctx → thread_ctx) s : sstate A K :=
  with_threads (alter (λ th, mk_thread (f <$> ctx th) (prev_thread th) (vmspace th) (cap_group th)) t) s.
Definition put_prev (t p : Z) s : sstate A K :=
  with_threads (alter (λ th, mk_thread (ctx th) p (vmspace th) (cap_group th)) t) s.
Definition put_cpu (me : Z) (f : cpu → cpu) s : sstate A K := with_cpus (alter f me) s.

Lemma tctx_Some s t c : tctx s t = Some c → ∃ th, threads s !! t = Some th ∧ ctx th = Some c.
Proof. unfold tctx. destruct (threads s !! t) as [th|]; [|done]. simpl. by exists th. Qed.

Lemma tctx_put_ctx t f s u : tctx (put_ctx t f s) u = if decide (u = t) then f <$> tctx s t else tctx s u.
Proof.
  unfold tctx, put_ctx. simpl. case_decide as D.
  - subst u. rewrite lookup_alter_eq. by destruct (threads s !! t).
  - by rewrite lookup_alter_ne.
Qed.

Lemma tctx_put_prev t p s u : tctx (put_prev t p s) u = tctx s u.
Proof.
  unfold tctx, put_prev. simpl. destruct (decide (t = u)) as [->|N].
  - rewrite lookup_alter_eq. by destruct (threads s !! u).
  - by rewrite lookup_alter_ne.
Qed.

Lemma insert_alter {V} (m : gmap Z V) k v (f : V → V) : m !! k = Some v → <[k := f v]> m = alter f k m.
Proof.
  intros H. apply map_eq. intros j. destruct (decide (k = j)) as [<-|N].
  - by rewrite lookup_insert_eq, lookup_alter_eq, H.
  - by rewrite lookup_insert_ne, lookup_alter_ne.
Qed.

Lemma thread_at_ok s t th : threads s !! t = Some th → thread_at t s = Done th s.
Proof. intros H. unfold thread_at, bind, get. by rewrite H. Qed.

Lemma ctx_of_ok s t c : tctx s t = Some c → ctx_of t s = Done c s.
Proof.
  intros H. destruct (tctx_Some _ _ _ H) as (th & Ht & Hc). unfold ctx_of.
  erewrite bind_Done by (by apply thread_at_ok). by rewrite Hc.
Qed.

Lemma need_ctx_ok s t c : tctx s t = Some c → need_ctx t s = Done tt s.
Proof.
  intros H. destruct (tctx_Some _ _ _ H) as (th & Ht & Hc). unfold need_ctx.
  erewrite bind_Done by (by apply thread_at_ok). by rewrite Hc.
Qed.

Lemma upd_ctx_ok s t c f : tctx s t = Some c → upd_ctx t f s = Done tt (put_ctx t f s).
Proof.
  intros H. destruct (tctx_Some _ _ _ H) as (th & Ht & Hc). unfold upd_ctx.
  erewrite bind_Done by (by apply thread_at_ok). rewrite Hc. erewrite bind_Done by reflexivity.
  unfold set_thread, modify, put_ctx, with_threads. rewrite <- (insert_alter _ _ _ _ Ht). by rewrite Hc.
Qed.

Lemma set_prev_ok s t c p : tctx s t = Some c → set_prev t p s = Done tt (put_prev t p s).
Proof.
  intros H. destruct (tctx_Some _ _ _ H) as (th & Ht & Hc). unfold set_prev.
  erewrite bind_Done by (by apply thread_at_ok). unfold set_thread, modify, put_prev, with_threads.
  by rewrite <- (insert_alter _ _ _ _ Ht).
Qed.

Lemma cpu_at_ok s me c : cpus s !! me = Some c → cpu_at me s = Done c s.
Proof. intros H. unfold cpu_at, bind, get. by rewrite H. Qed.

Lemma upd_cpu_ok s me c f : cpus s !! me = Some c → upd_cpu me f s = Done tt (put_cpu me f s).
Proof.
  intros H. unfold upd_cpu. erewrite bind_Done by (by apply cpu_at_ok). unfold modify, put_cpu, with_cpus.
  by rewrite <- (insert_alter _ _ _ _ H).
Qed.

Lemma current_thread_ok s me c : cpus s !! me = Some c → current_thread me s = Done (current c) s.
Proof. intros H. unfold current_thread. by erewrite bind_Done by (by apply cpu_at_ok). Qed.

(** ** Ready queues *)

(** A thread is on the queue of its key exactly when it is [TS_READY]. *)
Record ready_ok (key : thread_ctx → K) s : Prop := {
  ro_nodup : ∀ k q, ready s !! k = Some q → NoDup q;
  ro_in : ∀ k q t, ready s !! k = Some q → t ∈ q → ∃ c, tctx s t = Some c ∧ state c = TS_READY ∧ key c = k;
  ro_ready : ∀ t c, tctx s t = Some c → state c = TS_READY → ∃ q, ready s !! key c = Some q ∧ t ∈ q
}.

Lemma linked_ready key s t c : ready_ok key s → tctx s t = Some c → linked t s = bool_decide (state c = TS_READY).
Proof.
  intros [R1 R2 R3] Ht. unfold linked. apply bool_decide_ext. split.
  - intros (k & q & Hq & Hin). destruct (R2 k q t Hq Hin) as (c' & Hc & Hs & _). congruence.
  - intros Hs. destruct (R3 t c Ht Hs) as (q & Hq & Hin). by exists (key c), q.
Qed.

(** Changes that keep state and key of every thread keep the queues right. *)
Lemma ready_ok_same key s s' : ready_ok key s → ready s' = ready s →
  (∀ t c', tctx s' t = Some c' → ∃ c, tctx s t = Some c ∧ state c = state c' ∧ (state c = TS_READY → key c = key c')) →
  (∀ t c, tctx s t = Some c → state c = TS_READY → is_Some (tctx s' t)) → ready_ok key s'.
Proof.
  intros [R1 R2 R3] Er H1 H2. split; rewrite Er.
  - done.
  - intros k q t Hq Hin. destruct (R2 k q t Hq Hin) as (c & Hc & Hs & Hk). destruct (H2 t c Hc Hs) as [c' Hc'].
    exists c'. destruct (H1 t c' Hc') as (c2 & Hc2 & E1 & E2). rewrite Hc in Hc2. injection Hc2 as <-.
    split_and!; [done|congruence|]. by rewrite <- E2.
  - intros t c' Hc' Hs. destruct (H1 t c' Hc') as (c & Hc & E1 & E2). rewrite <- E2 by congruence. apply (R3 t c); congruence.
Qed.

Lemma list_append_spec key s t k q f c : ready_ok key s → tctx s t = Some c → state c ≠ TS_READY →
  ready s !! k = Some q → state (f c) = TS_READY → key (f c) = k →
  list_append t k (put_ctx t f s) = Done tt (with_ready (<[k := q ++ [t]]>) (put_ctx t f s)) ∧
  ready_ok key (with_ready (<[k := q ++ [t]]>) (put_ctx t f s)).
Proof.
  intros R Ht Ns Hq Hs Hk. pose proof (linked_ready _ _ _ _ R Ht) as L. rewrite bool_decide_eq_false_2 in L by done.
  assert (∀ j qj, ready s !! j = Some qj → t ∉ qj) as Out.
  { intros j qj Hj Hin. unfold linked in L. apply bool_decide_eq_false in L. apply L. by exists j, qj. }
  split.
  { unfold list_append. erewrite bind_Done by reflexivity. change (linked t (put_ctx t f s)) with (linked t s).
    rewrite L. erewrite bind_Done; [reflexivity|]. simpl. by rewrite Hq. }
  destruct R as [R1 R2 R3]. split; simpl.
  - intros j qj [[<- <-]|[_ Hj]]%lookup_insert_Some; [|by apply (R1 j)].
    apply NoDup_app. split_and!; [by apply (R1 k)| |apply NoDup_singleton].
    intros x Hx ->%list_elem_of_singleton. by apply (Out k q).
  - intros j qj u Hj Hu. change (tctx (with_ready _ (put_ctx t f s)) u) with (tctx (put_ctx t f s) u).
    rewrite tctx_put_ctx. destruct (decide (u = t)) as [->|N].
    + rewrite Ht. apply lookup_insert_Some in Hj as [[<- <-]|[_ Hj]]; [by exists (f c)|by destruct (Out j qj Hj)].
    + apply lookup_insert_Some in Hj as [[<- <-]|[_ Hj]]; [|by apply (R2 j qj)].
      apply elem_of_app in Hu as [Hu|Hu]; [by apply (R2 k q)|]. by apply list_elem_of_singleton in Hu.
  - intros u cu Hu Hsu. change (tctx (with_ready _ (put_ctx t f s)) u) with (tctx (put_ctx t f s) u) in Hu.
    rewrite tctx_put_ctx in Hu. destruct (decide (u = t)) as [->|N].
    + rewrite Ht in Hu. injection Hu as <-. exists (q ++ [t]). rewrite Hk, lookup_insert_eq. split; [done|]. set_solver.
    + destruct (R3 u cu Hu Hsu) as (qu & Hqu & Hin). destruct (decide (key cu = k)) as [E|Nk].
      * exists (q ++ [t]). rewrite E, lookup_insert_eq. split; [done|]. rewrite E in Hqu. apply elem_of_app. left. congruence.
      * exists qu. by rewrite lookup_insert_ne.
Qed.

Lemma list_del_spec key s t c f : ready_ok key s → tctx s t = Some c → state c = TS_READY → state (f c) ≠ TS_READY →
  list_del t s = Done tt (with_ready (fmap (filter (λ u, u ≠ t))) s) ∧
  ready_ok key (put_ctx t f (with_ready (fmap (filter (λ u, u ≠ t))) s)).
Proof.
  intros R Ht Hs Nf. pose proof (linked_ready _ _ _ _ R Ht) as L. rewrite bool_decide_eq_true_2 in L by done. split.
  { unfold list_del. erewrite bind_Done by reflexivity. by rewrite L. }
  destruct R as [R1 R2 R3].
  assert (∀ u, tctx (put_ctx t f (with_ready (fmap (filter (λ u, u ≠ t))) s)) u =
    if decide (u = t) then f <$> tctx s t else tctx s u) as HT by (intros u; by rewrite tctx_put_ctx). split.
  - intros k q Hq. simpl in Hq. rewrite lookup_fmap in Hq. destruct (ready s !! k) as [q0|] eqn:E0; [|done].
    injection Hq as <-. apply NoDup_filter. by apply (R1 k).
  - intros k q u Hq Hu. simpl in Hq. rewrite lookup_fmap in Hq. destruct (ready s !! k) as [q0|] eqn:E0; [|done].
    injection Hq as <-. apply list_elem_of_filter in Hu as [Nu Hu]. rewrite HT, decide_False by done. by apply (R2 k q0).
  - intros u cu. rewrite HT. case_decide as D.
    + rewrite Ht. intros [= <-]. done.
    + intros Hu Hsu. destruct (R3 u cu Hu Hsu) as (q & Hq & Hin). exists (filter (λ v, v ≠ t) q). simpl.
      rewrite lookup_fmap, Hq. split; [done|]. by apply list_elem_of_filter.
Qed.

(** ** Switching *)

Definition tprev s (t : Z) : option Z := prev_thread <$> threads s !! t.
Definition tvm s (t : Z) : option Z := vmspace <$> threads s !! t.

Lemma tprev_put_ctx t f s u : tprev (put_ctx t f s) u = tprev s u.
Proof.
  unfold tprev, put_ctx. simpl. destruct (decide (t = u)) as [->|N].
  - rewrite lookup_alter_eq. by destruct (threads s !! u).
  - by rewrite lookup_alter_ne.
Qed.

Lemma tprev_put_prev t p s u : is_Some (threads s !! t) →
  tprev (put_prev t p s) u = if decide (u = t) then Some p else tprev s u.
Proof.
  intros [th Ht]. unfold tprev, put_prev. simpl. case_decide as D.
  - subst u. by rewrite lookup_alter_eq, Ht.
  - by rewrite lookup_alter_ne.
Qed.

Lemma tvm_put_ctx t f s u : tvm (put_ctx t f s) u = tvm s u.
Proof.
  unfold tvm, put_ctx. simpl. destruct (decide (t = u)) as [->|N].
  - rewrite lookup_alter_eq. by destruct (threads s !! u).
  - by rewrite lookup_alter_ne.
Qed.

Lemma tvm_put_prev t p s u : tvm (put_prev t p s) u = tvm s u.
Proof.
  unfold tvm, put_prev. simpl. destruct (decide (t = u)) as [->|N].
  - rewrite lookup_alter_eq. by destruct (threads s !! u).
  - by rewrite lookup_alter_ne.
Qed.

(** The contexts after a switch of CPU [me], whose registers are [r], to
    [target]. *)
Definition switched (me target : Z) (r : cpu) (u : Z) (c : thread_ctx) : thread_ctx :=
  if decide (target = current r) then (if decide (u = target) then with_state TS_RUNNING c else c)
  else if decide (u = target) then with_stack_state KS_LOCKED (with_state TS_RUNNING (with_cpuid me c))
  else if decide (u = current r ∧ u ≠ 0 ∧ is_user c = true) then with_tls (tpidr r) c else c.

Definition switched_cpu (target : Z) (c : thread_ctx) (r : cpu) : cpu :=
  if decide (target = current r) then r
  else mk_cpu target (fpu_owner r) (is_user c || fpu_disable r) ((is_user c && negb (fpu_disable r)) || fpu_trap r) (fpu_regs r)
         (if is_user c then tls_base c else tpidr r) (ttbr0 r).

Lemma with_fold_ctx s u c : tctx s u = Some c → ∀ f, tctx (put_ctx u f s) u = Some (f c).
Proof. intros H f. rewrite tctx_put_ctx, decide_True by done. by rewrite H. Qed.

Lemma put_cpu_cpus s s' me r f : cpus s' = <[me := r]> (cpus s) → cpus (put_cpu me f s') = <[me := f r]> (cpus s).
Proof.
  intros H. simpl. rewrite H. rewrite <- (insert_alter _ me r); [|by rewrite lookup_insert_eq]. by rewrite insert_insert_eq.
Qed.

(** [disable_fpu_usage] when the target is a user thread. *)
Lemma disable_spec s s' me r (b : bool) : cpus s' = <[me := r]> (cpus s) →
  ∃ s2, (if b then disable_fpu_usage me else ret tt) s' = Done tt s2 ∧ threads s2 = threads s' ∧ al s2 = al s' ∧
  ready s2 = ready s' ∧ history s2 = history s' ∧ cpus s2 = <[me := mk_cpu (current r) (fpu_owner r) (b || fpu_disable r)
    ((b && negb (fpu_disable r)) || fpu_trap r) (fpu_regs r) (tpidr r) (ttbr0 r)]> (cpus s).
Proof.
  intros H. assert (cpus s' !! me = Some r) as Hr by (rewrite H; by rewrite lookup_insert_eq).
  destruct b; [|exists s'; split_and!; try done; rewrite H; by destruct r].
  unfold disable_fpu_usage. erewrite bind_Done by (by apply cpu_at_ok). destruct (fpu_disable r) eqn:Ed.
  - exists s'. split_and!; try done. rewrite H. simpl. rewrite <- Ed. by destruct r.
  - exists (put_cpu me (with_disable true) s'). split; [by eapply upd_cpu_ok|]. split_and!; try done.
    by rewrite (put_cpu_cpus s s' me r).
Qed.

(** [switch_tls_info] between two different threads. *)
Lemma switch_tls_spec s s' me r from to cto : cpus s' = <[me := r]> (cpus s) → from ≠ to → to ≠ 0 →
  (from ≠ 0 → is_Some (tctx s' from)) → tctx s' to = Some cto →
  ∃ s2, switch_tls_info me from to s' = Done tt s2 ∧ al s2 = al s' ∧ ready s2 = ready s' ∧ history s2 = history s' ∧
  cpus s2 = <[me := mk_cpu (current r) (fpu_owner r) (fpu_disable r) (fpu_trap r) (fpu_regs r)
    (if is_user cto then tls_base cto else tpidr r) (ttbr0 r)]> (cpus s) ∧
  (∀ u, tctx s2 u = (λ c, if decide (u = from ∧ u ≠ 0 ∧ is_user c = true) then with_tls (tpidr r) c else c) <$> tctx s' u) ∧
  (∀ u, tprev s2 u = tprev s' u) ∧ ∀ u, tvm s2 u = tvm s' u.
Proof.
  intros H Nft Nt Hf Ht. assert (cpus s' !! me = Some r) as Hr by (rewrite H; by rewrite lookup_insert_eq).
  unfold switch_tls_info.
  assert (∃ s1, (if from =? 0 then ret tt else c <- ctx_of from ;;
      if is_user c then q <- cpu_at me ;; upd_ctx from (with_tls (tpidr q)) else ret tt) s' = Done tt s1 ∧
    al s1 = al s' ∧ ready s1 = ready s' ∧ history s1 = history s' ∧ cpus s1 = cpus s' ∧
    (∀ u, tctx s1 u = (λ c, if decide (u = from ∧ u ≠ 0 ∧ is_user c = true) then with_tls (tpidr r) c else c) <$> tctx s' u) ∧
    (∀ u, tprev s1 u = tprev s' u) ∧ ∀ u, tvm s1 u = tvm s' u) as (s1 & E1 & Ea & Er & Eh & Ec & HT & HP & HV).
  { destruct (Z.eqb_spec from 0) as [->|N0].
    { exists s'. split_and!; try done. intros u. destruct (tctx s' u) as [c|]; [|done]. simpl. rewrite decide_False; [done|]. naive_solver. }
    destruct (Hf N0) as [cf Hcf]. erewrite bind_Done by (by apply ctx_of_ok). destruct (is_user cf) eqn:Eu.
    - erewrite bind_Done by (by apply cpu_at_ok). exists (put_ctx from (with_tls (tpidr r)) s').
      split; [by eapply upd_ctx_ok|]. split_and!; try done.
      + intros u. rewrite tctx_put_ctx. case_decide as D.
        * subst u. rewrite Hcf. simpl. by rewrite decide_True.
        * destruct (tctx s' u); [|done]. simpl. by rewrite decide_False by naive_solver.
      + intros u. apply tprev_put_ctx.
      + intros u. apply tvm_put_ctx.
    - exists s'. split_and!; try done. intros u. destruct (tctx s' u) as [c|] eqn:E; [|done]. simpl.
      rewrite decide_False; [done|]. intros (-> & _ & Hu). congruence. }
  erewrite bind_Done by exact E1. rewrite (proj2 (Z.eqb_neq to 0)) by done.
  assert (tctx s1 to = Some cto) as Ht1. { rewrite HT, Ht. simpl. by rewrite decide_False by naive_solver. }
  erewrite bind_Done by (by apply ctx_of_ok). destruct (is_user cto).
  - exists (put_cpu me (with_tpidr (tls_base cto)) s1). rewrite <- Ec in Hr. split; [by eapply upd_cpu_ok|].
    split_and!; try done. rewrite (put_cpu_cpus s s1 me r); [done|]. by rewrite Ec.
  - exists s1. split_and!; try done. rewrite Ec, H. by destruct r.
Qed.

Lemma switch_to_thread_spec s me r target c : cpus s !! me = Some r → tctx s target = Some c → target ≠ 0 →
  state c ≠ TS_READY → (current r ≠ 0 → is_Some (tctx s (current r))) →
  ∃ s', switch_to_thread me target s = Done 0 s' ∧ al s' = al s ∧ ready s' = ready s ∧ history s' = history s ∧
  cpus s' = <[me := switched_cpu target c r]> (cpus s) ∧
  (∀ u, tctx s' u = switched me target r u <$> tctx s u) ∧
  (∀ u, tprev s' u = if decide (u = target) then Some (if decide (target = current r) then THREAD_ITSELF else current r)
                     else tprev s u) ∧
  ∀ u, tvm s' u = tvm s u.
Proof.
  intros Hr Hc Ht0 Ns Hcur. unfold switch_to_thread, switched, switched_cpu.
  destruct (tctx_Some _ _ _ Hc) as (th & Hth & _).
  rewrite (proj2 (Z.eqb_neq target 0)) by done. erewrite bind_Done by reflexivity.
  erewrite bind_Done by (by eapply need_ctx_ok). erewrite bind_Done by (by eapply ctx_of_ok).
  rewrite bool_decide_eq_false_2 by done. erewrite bind_Done by reflexivity.
  erewrite bind_Done by (by eapply current_thread_ok).
  destruct (decide (target = current r)) as [E|N]; [rewrite (proj2 (Z.eqb_eq _ _)) by done|rewrite (proj2 (Z.eqb_neq _ _)) by done].
  - erewrite bind_Done by (by eapply upd_ctx_ok). erewrite bind_Done by (eapply set_prev_ok; by apply with_fold_ctx).
    eexists. split; [reflexivity|]. split_and!; try done.
    + simpl. by rewrite insert_id.
    + intros u. rewrite tctx_put_prev, tctx_put_ctx. case_decide as D; [by subst u|]. by destruct (tctx s u).
    + intros u. rewrite tprev_put_prev by (simpl; rewrite lookup_alter_eq, Hth; by eexists). by rewrite tprev_put_ctx.
    + intros u. by rewrite tvm_put_prev, tvm_put_ctx.
  - erewrite bind_Done by (by eapply upd_ctx_ok). set (s1 := put_ctx target (with_cpuid me) s).
    assert (tctx s1 target = Some (with_cpuid me c)) as H1 by (by apply with_fold_ctx).
    erewrite bind_Done by (by eapply upd_ctx_ok). set (s2 := put_ctx target (with_state TS_RUNNING) s1).
    assert (tctx s2 target = Some (with_state TS_RUNNING (with_cpuid me c))) as H2 by (by apply with_fold_ctx).
    erewrite bind_Done by (by eapply set_prev_ok). set (s3 := put_prev target (current r) s2).
    assert (∀ u, tctx s3 u = if decide (u = target) then Some (with_state TS_RUNNING (with_cpuid me c)) else tctx s u) as H3.
    { intros u. unfold s3, s2. rewrite tctx_put_prev, tctx_put_ctx. case_decide as D; [by rewrite H1|].
      unfold s1. by rewrite tctx_put_ctx, decide_False. }
    destruct (disable_spec s s3 me r (is_user c)) as (s4 & E4 & Et4 & Ea4 & Er4 & Eh4 & Ec4); [by rewrite insert_id|].
    erewrite bind_Done by exact E4.
    assert (∀ u, tctx s4 u = tctx s3 u) as H4 by (intros u; unfold tctx; by rewrite Et4).
    edestruct (switch_tls_spec s s4 me _ (current r) target (with_state TS_RUNNING (with_cpuid me c)) Ec4)
      as (s5 & E5 & Ea5 & Er5 & Eh5 & Ec5 & HT5 & HP5 & HV5); [done|done| |by rewrite H4, H3, decide_True|].
    { intros N0. rewrite H4, H3, decide_False by done. by apply Hcur. }
    erewrite bind_Done by exact E5. simpl in HT5.
    assert (tctx s5 target = Some (with_state TS_RUNNING (with_cpuid me c))) as H5.
    { rewrite HT5, H4, H3, decide_True by done. simpl. by rewrite decide_False by naive_solver. }
    erewrite bind_Done by (by eapply upd_ctx_ok). set (s6 := put_ctx target _ s5).
    erewrite bind_Done. 2: { eapply upd_cpu_ok. simpl. rewrite Ec5. by rewrite lookup_insert_eq. }
    eexists. split; [reflexivity|]. split_and!.
    + simpl. by rewrite Ea5, Ea4.
    + simpl. by rewrite Er5, Er4.
    + simpl. by rewrite Eh5, Eh4.
    + by rewrite (put_cpu_cpus s s6 me _ _ Ec5).
    + intros u. change (tctx (put_cpu me _ s6) u) with (tctx s6 u). unfold s6. rewrite tctx_put_ctx, H5, HT5, H4, H3.
      case_decide as D; [by subst u; rewrite Hc|]. by destruct (tctx s u).
    + intros u. change (tprev (put_cpu me _ s6) u) with (tprev s6 u). unfold s6. rewrite tprev_put_ctx, HP5.
      unfold tprev at 1. rewrite Et4. change (tprev s3 u = if decide (u = target) then Some (current r) else tprev s u).
      unfold s3. rewrite tprev_put_prev by (unfold s2, s1; simpl; rewrite !lookup_alter_eq, Hth; by eexists).
      case_decide; [done|]. unfold s2, s1. by rewrite !tprev_put_ctx.
    + intros u. change (tvm (put_cpu me _ s6) u) with (tvm s6 u). unfold s6. rewrite tvm_put_ctx, HV5.
      unfold tvm at 1. rewrite Et4. change (tvm s3 u = tvm s u). unfold s3, s2, s1. by rewrite tvm_put_prev, !tvm_put_ctx.
Qed.

(** [changes s s' f]: the contexts are mapped by [f], the rest of the threads is
    kept. *)
Definition changes s s' (f : Z → thread_ctx → thread_ctx) : Prop :=
  (∀ u, tctx s' u = f u <$> tctx s u) ∧ (∀ u, tprev s' u = tprev s u) ∧ ∀ u, tvm s' u = tvm s u.

Definition at_thread (t : Z) (f : thread_ctx → thread_ctx) (u : Z) (c : thread_ctx) : thread_ctx :=
  if decide (u = t) then f c else c.

Lemma changes_put_ctx t f s : changes s (put_ctx t f s) (at_thread t f).
Proof.
  split_and!; intros u; [|apply tprev_put_ctx|apply tvm_put_ctx]. rewrite tctx_put_ctx. unfold at_thread.
  case_decide as D; [by subst u|]. by destruct (tctx s u).
Qed.

(** A thread that does not share its scheduling context is the only one charged. *)
Lemma charged_self n c : charged (sc c) n c = with_budget n c.
Proof. unfold charged. by rewrite Z.eqb_refl. Qed.

Lemma charged_cases p n c : charged p n c = c ∨ charged p n c = with_budget n c.
Proof. unfold charged. destruct (_ =? _); auto. Qed.

Lemma set_budget_ok s t c n : tctx s t = Some c → sc c ≠ 0 →
  ∃ s', set_budget t n s = Done tt s' ∧ changes s s' (λ _, charged (sc c) n) ∧ ready s' = ready s ∧ cpus s' = cpus s ∧ al s' = al s.
Proof.
  intros Hc Hsc. exists (with_threads (fmap (on_ctx (charged (sc c) n))) s). unfold set_budget.
  erewrite bind_Done by (by apply ctx_of_ok). rewrite (proj2 (Z.eqb_neq _ 0)) by done. split_and!; try done.
  split_and!; intros u; unfold tctx, tprev, tvm; simpl; rewrite lookup_fmap; by destruct (threads s !! u).
Qed.

Lemma changes_refl s : changes s s (λ _ c, c).
Proof. split_and!; try done. intros u. by destruct (tctx s u). Qed.

Lemma changes_ext s s' f g : (∀ u c, f u c = g u c) → changes s s' f → changes s s' g.
Proof.
  intros H (T & P & V). split_and!; try done. intros u. rewrite T. destruct (tctx s u); [|done]. simpl. by rewrite H.
Qed.

Lemma changes_trans s1 s2 s3 f g : changes s1 s2 f → changes s2 s3 g → changes s1 s3 (λ u c, g u (f u c)).
Proof.
  intros (T1 & P1 & V1) (T2 & P2 & V2). split_and!; intros u; [|congruence|congruence].
  rewrite T2, T1. by destruct (tctx s1 u).
Qed.

Lemma changes_tctx s s' f u c : changes s s' f → tctx s u = Some c → tctx s' u = Some (f u c).
Proof. intros (T & _) H. by rewrite T, H. Qed.

(** ** Lazy FPU

    [want t] is the register file user thread [t] expects.  It is in the
    registers of the one CPU [t] owns, or else in the buffer of [t]; a user
    thread that does not trap owns its CPU, except on CPU [skip], which is about
    to switch. *)
Record fpu_ok (want : Z → Z) (skip : option Z) s : Prop := {
  fo_owner : ∀ d r, cpus s !! d = Some r → fpu_owner r ≠ 0 →
    ∃ c, tctx s (fpu_owner r) = Some c ∧ is_user c = true ∧ fpu_regs r = want (fpu_owner r);
  fo_saved : ∀ t c, tctx s t = Some c → is_user c = true →
    (∀ d r, cpus s !! d = Some r → fpu_owner r ≠ t) → fpu_area c = want t;
  fo_one : ∀ d e r r', cpus s !! d = Some r → cpus s !! e = Some r' → fpu_owner r = fpu_owner r' → fpu_owner r ≠ 0 → d = e;
  fo_use : ∀ d r c, skip ≠ Some d → cpus s !! d = Some r → fpu_trap r = false → tctx s (current r) = Some c → is_user c = true →
    fpu_owner r = current r;
  fo_flag : ∀ d r, cpus s !! d = Some r → fpu_disable r = fpu_trap r;
  fo_null : tctx s 0 = None
}.

(** A CPU changed, its FPU kept. *)
Lemma fpu_ok_cpu want skip skip' s s' me r r' : fpu_ok want skip s → (skip = skip' ∨ skip = Some me) → cpus s !! me = Some r → cpus s' = <[me := r']> (cpus s) →
  fpu_owner r' = fpu_owner r → fpu_regs r' = fpu_regs r → fpu_disable r' = fpu_trap r' →
  (∀ u c', tctx s' u = Some c' → ∃ c, tctx s u = Some c ∧ is_user c = is_user c' ∧ fpu_area c = fpu_area c') →
  (∀ u c, tctx s u = Some c → is_Some (tctx s' u)) →
  (∀ c, skip' ≠ Some me → fpu_trap r' = false → tctx s' (current r') = Some c → is_user c = true → fpu_owner r' = current r') →
  fpu_ok want skip' s'.
Proof.
  intros [F1 F2 F3 F4 F5 F6] Hsk Hr Hs Ho Hg Hf HT HT' Hu.
  assert (∀ d x, cpus s' !! d = Some x → ∃ y, cpus s !! d = Some y ∧ fpu_owner x = fpu_owner y ∧ fpu_regs x = fpu_regs y) as HC.
  { intros d x. rewrite Hs. intros [[<- <-]|[_ Hd]]%lookup_insert_Some; [by exists r|by exists x]. }
  split.
  - intros d x Hx N0. destruct (HC d x Hx) as (y & Hy & E1 & E2). rewrite E1 in *. rewrite E2.
    destruct (F1 d y Hy N0) as (c & Hc & Hcu & Hcr). destruct (HT' _ _ Hc) as [c' Hc']. exists c'.
    destruct (HT _ _ Hc') as (c2 & Hc2 & U2 & _). rewrite Hc in Hc2. injection Hc2 as <-. split_and!; congruence.
  - intros t c' Hc' Hu' Hno. destruct (HT _ _ Hc') as (c & Hc & U & V). rewrite <- V. apply (F2 t c); [done|congruence|].
    intros d y Hy. destruct (decide (d = me)) as [->|N].
    + rewrite Hr in Hy. injection Hy as <-. rewrite <- Ho. apply (Hno me). rewrite Hs. by rewrite lookup_insert_eq.
    + apply (Hno d). rewrite Hs. by rewrite lookup_insert_ne.
  - intros d e x x' Hx Hx'. destruct (HC _ _ Hx) as (y & Hy & -> & _). destruct (HC _ _ Hx') as (y' & Hy' & -> & _). by apply F3.
  - intros d x c Hd0. rewrite Hs. intros [[<- <-]|[N Hd]]%lookup_insert_Some; [by apply Hu|].
    intros Ht Hc Hcu. destruct (HT _ _ Hc) as (c0 & Hc0 & U & _). apply (F4 d x c0); try congruence. destruct Hsk; congruence.
  - intros d x. rewrite Hs. intros [[<- <-]|[N Hd]]%lookup_insert_Some; [done|by apply (F5 d)].
  - destruct (tctx s' 0) as [c0|] eqn:E0; [|done]. destruct (HT _ _ E0) as (c & Hc & _). congruence.
Qed.

(** A switch to another thread ends the exception. *)
Lemma switch_fpu_ok want skip s me r target c s' : fpu_ok want skip s → skip = None ∨ (skip = Some me ∧ target ≠ current r) → cpus s !! me = Some r → tctx s target = Some c →
  cpus s' = <[me := switched_cpu target c r]> (cpus s) → (∀ u, tctx s' u = switched me target r u <$> tctx s u) →
  fpu_ok want None s'.
Proof.
  intros F Hsk Hr Hc Hs HT.
  assert (∀ u cu, is_user (switched me target r u cu) = is_user cu ∧ fpu_area (switched me target r u cu) = fpu_area cu) as HS.
  { intros u cu. unfold switched. repeat case_decide; done. }
  eapply (fpu_ok_cpu want skip None s s' me r); [exact F|naive_solver|exact Hr|exact Hs|..].
  - unfold switched_cpu. by case_decide.
  - unfold switched_cpu. by case_decide.
  - pose proof (fo_flag _ _ _ F me r Hr) as Ef. unfold switched_cpu. case_decide; [done|]. simpl. rewrite Ef.
    by destruct (is_user c), (fpu_trap r).
  - intros u c'. rewrite HT. destruct (tctx s u) as [cu|]; [|done]. intros [= <-]. exists cu. by destruct (HS u cu) as [-> ->].
  - intros u cu Hu. rewrite HT, Hu. by eexists.
  - intros c' _. unfold switched_cpu. case_decide as D.
    + intros Ht. rewrite HT. destruct (tctx s (current r)) as [cu|] eqn:Eu; [|done]. intros [= <-].
      rewrite (proj1 (HS _ _)). intros Hu. apply (fo_use _ _ _ F me r cu); try done. destruct Hsk as [->|[_ N]]; congruence.
    + simpl. rewrite HT, Hc. intros Ht [= <-]. rewrite (proj1 (HS _ _)). intros Hu. rewrite Hu in Ht.
      pose proof (fo_flag _ _ _ F me r Hr) as Ef. rewrite Ef in Ht. by destruct (fpu_trap r).
Qed.

Lemma save_fpu_state_spec s me r t c : cpus s !! me = Some r → tctx s t = Some c → is_user c = true → t ≠ 0 →
  save_fpu_state me t s = Done tt (put_ctx t (with_fpu (fpu_regs r)) s).
Proof.
  intros Hr Hc Hu N. unfold save_fpu_state. rewrite (proj2 (Z.eqb_neq t 0)) by done.
  erewrite bind_Done by (by apply ctx_of_ok). rewrite Hu. erewrite bind_Done by (by apply cpu_at_ok). by eapply upd_ctx_ok.
Qed.

(** Thread [t] gives up CPU [me]: exempt from then on when it is the current
    thread. *)
Definition exempts (me : Z) (r : cpu) (t : Z) (skip skip' : option Z) : Prop :=
  (skip' = Some me ∧ (skip = None ∨ skip = Some me)) ∨ (skip' = skip ∧ current r ≠ t).

(** The registers of CPU [me] are saved and its ownership given up. *)
Lemma fpu_released want skip skip' s me r t : fpu_ok want skip s → exempts me r t skip skip' → cpus s !! me = Some r →
  fpu_owner r = t → t ≠ 0 → fpu_ok want skip' (put_cpu me (with_owner 0) (put_ctx t (with_fpu (fpu_regs r)) s)).
Proof.
  intros F Hsk Hr Ho N.
  destruct F as [F1 F2 F3 F4 F5 F6]. destruct (F1 me r Hr) as (c & Hc & Hu & Hg); [congruence|]. rewrite Ho in Hc, Hg.
  assert (∀ d x, cpus (put_cpu me (with_owner 0) (put_ctx t (with_fpu (fpu_regs r)) s)) !! d = Some x →
    (d = me ∧ x = with_owner 0 r) ∨ (d ≠ me ∧ cpus s !! d = Some x)) as HC.
  { intros d x. simpl. destruct (decide (me = d)) as [<-|Nd]; [rewrite lookup_alter_eq, Hr|rewrite lookup_alter_ne by done]; naive_solver. }
  assert (∀ u, tctx (put_cpu me (with_owner 0) (put_ctx t (with_fpu (fpu_regs r)) s)) u =
    if decide (u = t) then Some (with_fpu (fpu_regs r) c) else tctx s u) as HT.
  { intros u. change (tctx (put_ctx t (with_fpu (fpu_regs r)) s) u = if decide (u = t) then Some (with_fpu (fpu_regs r) c) else tctx s u).
    rewrite tctx_put_ctx, Hc. done. }
  split.
  - intros d x [[-> ->]|[Nd Hx]]%HC Nx; [done|]. destruct (F1 d x Hx Nx) as (cx & Hcx & Hux & Hgx). exists cx.
    rewrite HT, decide_False; [done|]. intros E. apply Nd. eapply F3; [exact Hx|exact Hr|congruence|done].
  - intros u cu. rewrite HT. case_decide as D; [intros [= <-] _ _; simpl; congruence|]. intros Hcu Hu' Hno.
    apply (F2 u cu Hcu Hu'). intros d x Hx. destruct (decide (d = me)) as [->|Nd].
    + rewrite Hr in Hx. injection Hx as <-. congruence.
    + apply (Hno d). simpl. by rewrite lookup_alter_ne.
  - intros d e x x' [[-> ->]|[Nd Hx]]%HC [[-> ->]|[Ne Hx']]%HC; simpl; intros; try done. by eapply F3.
  - assert (∀ d, skip' ≠ Some d → d ≠ me → skip ≠ Some d) as Hk by (unfold exempts in Hsk; naive_solver).
    intros d x cx Hd [[-> ->]|[Nd Hx]]%HC Ht; rewrite HT; case_decide as D.
    + destruct Hsk as [[-> _]|[_ N']]; [done|]. by simpl in D.
    + intros Hcx Hux. destruct Hsk as [[-> _]|[-> N']]; [done|]. simpl in *. pose proof (F4 me r cx Hd Hr Ht Hcx Hux). congruence.
    + intros [= <-] _. apply (F4 d x c); try done; [by apply Hk|by rewrite D].
    + intros Hcx Hux. apply (F4 d x cx); try done. by apply Hk.
  - intros d x [[-> ->]|[Nd Hx]]%HC; simpl; [by apply (F5 me)|by apply (F5 d)].
  - by rewrite HT, decide_False.
Qed.

Lemma fpu_ok_exempt want skip skip' s me r t : fpu_ok want skip s → exempts me r t skip skip' → fpu_ok want skip' s.
Proof.
  intros [F1 F2 F3 F4 F5 F6] Hsk. split; try done. intros d x c Hd. apply F4. unfold exempts in Hsk. naive_solver.
Qed.

Lemma save_and_release_spec want skip skip' s me r t : fpu_ok want skip s → exempts me r t skip skip' →
  cpus s !! me = Some r → t ≠ 0 → ∃ s', save_and_release_fpu me t s = Done tt s' ∧ fpu_ok want skip' s' ∧
  al s' = al s ∧ ready s' = ready s ∧ history s' = history s ∧
  cpus s' = <[me := if fpu_owner r =? t then with_owner 0 r else r]> (cpus s) ∧
  changes s s' (if fpu_owner r =? t then at_thread t (with_fpu (fpu_regs r)) else λ _ c, c).
Proof.
  intros F Hsk Hr N. unfold save_and_release_fpu. erewrite bind_Done by (by apply cpu_at_ok).
  destruct (Z.eqb_spec (fpu_owner r) t) as [E|Ne].
  - destruct (fo_owner _ _ _ F me r Hr) as (c & Hc & Hu & _); [congruence|]. rewrite E in Hc.
    erewrite bind_Done by (by eapply save_fpu_state_spec). eexists. split; [by eapply upd_cpu_ok|].
    split; [by eapply fpu_released|]. split_and!; try done.
    + simpl. by rewrite (insert_alter _ _ _ _ Hr).
    + exact (changes_put_ctx t (with_fpu (fpu_regs r)) s).
  - exists s. split; [done|]. split; [by eapply fpu_ok_exempt|].
    split_and!; try done; [by rewrite insert_id|apply changes_refl].
Qed.

(** Thread [t], which owns no CPU, takes CPU [me], which has no owner. *)
Lemma fpu_acquired want s s' me r r' t c : fpu_ok want (Some me) s → cpus s !! me = Some r → fpu_owner r = 0 → t ≠ 0 →
  tctx s t = Some c → is_user c = true → (∀ d x, cpus s !! d = Some x → fpu_owner x ≠ t) →
  (∀ u, tctx s' u = tctx s u) → cpus s' = <[me := r']> (cpus s) → fpu_owner r' = t → fpu_regs r' = fpu_area c →
  current r' = t → fpu_disable r' = fpu_trap r' → fpu_ok want None s'.
Proof.
  intros [F1 F2 F3 F4 F5 F6] Hr Ho N Hc Hu Hno HT Hs Ho' Hg' Hcur Hf. pose proof (F2 t c Hc Hu Hno) as Hw.
  assert (∀ d x, cpus s' !! d = Some x → (d = me ∧ x = r') ∨ (d ≠ me ∧ cpus s !! d = Some x)) as HC.
  { intros d x. rewrite Hs. intros [[<- <-]|[Nd Hx]]%lookup_insert_Some; naive_solver. }
  split.
  - intros d x [[-> ->]|[Nd Hx]]%HC Nx; rewrite HT; [exists c; split_and!; congruence|by apply (F1 d)].
  - intros u cu. rewrite HT. intros Hcu Huu Hnu. apply (F2 u cu Hcu Huu). intros d x Hx. destruct (decide (d = me)) as [->|Nd].
    + rewrite Hr in Hx. injection Hx as <-. rewrite Ho. congruence.
    + apply (Hnu d). rewrite Hs. by rewrite lookup_insert_ne.
  - intros d e x x' [[-> ->]|[Nd Hx]]%HC [[-> ->]|[Ne Hx']]%HC Eo Nx; try done.
    + destruct (Hno e x' Hx'). congruence.
    + destruct (Hno d x Hx). congruence.
    + by eapply F3.
  - intros d x cx _ [[-> ->]|[Nd Hx]]%HC Ht; [congruence|]. rewrite HT. apply (F4 d); [congruence|done|done].
  - intros d x [[-> ->]|[Nd Hx]]%HC; [done|by apply (F5 d)].
  - by rewrite HT.
Qed.

(** The trap: [me]'s user thread gets its registers. *)
Lemma change_fpu_owner_spec want s me r c : fpu_ok want None s → cpus s !! me = Some r → tctx s (current r) = Some c →
  is_user c = true → current r ≠ 0 → (∀ d x, cpus s !! d = Some x → d ≠ me → fpu_owner x ≠ current r) →
  ∃ s' r', change_fpu_owner me s = Done tt s' ∧ fpu_ok want None s' ∧ cpus s' = <[me := r']> (cpus s) ∧
  current r' = current r ∧ fpu_trap r' = false ∧ fpu_owner r' = current r ∧ fpu_regs r' = want (current r) ∧
  ready s' = ready s.
Proof.
  intros F Hr Hc Hu N Hno. unfold change_fpu_owner, enable_fpu_usage. erewrite bind_Done by (by eapply upd_cpu_ok).
  set (s1 := put_cpu me (with_disable false) s).
  assert (cpus s1 = <[me := with_disable false r]> (cpus s)) as Hs1 by (unfold s1; simpl; by rewrite (insert_alter _ _ _ _ Hr)).
  assert (cpus s1 !! me = Some (with_disable false r)) as Hr1 by (rewrite Hs1; by rewrite lookup_insert_eq).
  erewrite bind_Done by (by apply cpu_at_ok). cbv zeta. erewrite bind_Done by (by eapply current_thread_ok). simpl.
  destruct (Z.eqb_spec (fpu_owner r) (current r)) as [E|Ne].
  - exists s1, (with_disable false r). split; [done|]. split.
    + eapply (fpu_ok_cpu want None None s s1 me r); [exact F|by left|exact Hr|exact Hs1|done..| | |].
      * intros u c' Hc'. by exists c'.
      * intros u c' Hc'. by exists c'.
      * done.
    + split_and!; try done. simpl. destruct (fo_owner _ _ _ F me r Hr) as (c' & _ & _ & Hg); [congruence|]. congruence.
  - assert (∃ sA, fpu_ok want (Some me) sA ∧ cpus sA = <[me := with_owner 0 r]> (cpus s) ∧ tctx sA (current r) = Some c ∧
      ready sA = ready s ∧
      ∃ s2, (if fpu_owner r =? 0 then ret tt else save_fpu_state me (fpu_owner r)) s1 = Done tt s2 ∧
      cpus s2 = cpus s1 ∧ (∀ u, tctx s2 u = tctx sA u) ∧ ready s2 = ready s) as (sA & FA & HcA & HtA & HrA & s2 & E2 & Hc2 & HT2 & Hr2).
    { destruct (Z.eqb_spec (fpu_owner r) 0) as [E0|N0].
      - exists s. split_and!; try done.
        + destruct F as [F1 F2 F3 F4 F5 F6]. split; try done. intros d x cx _. by apply F4.
        + rewrite insert_id; [done|]. rewrite Hr. f_equal. destruct r; simpl in *. by subst.
        + by exists s1.
      - destruct (fo_owner _ _ _ F me r Hr N0) as (co & Hco & Huo & _).
        exists (put_cpu me (with_owner 0) (put_ctx (fpu_owner r) (with_fpu (fpu_regs r)) s)). split_and!; try done.
        + eapply (fpu_released want None); try done. left. by split; [|left].
        + simpl. by rewrite (insert_alter _ _ _ _ Hr).
        + change (tctx (put_ctx (fpu_owner r) (with_fpu (fpu_regs r)) s) (current r) = Some c). rewrite tctx_put_ctx.
          by rewrite decide_False by done.
        + exists (put_ctx (fpu_owner r) (with_fpu (fpu_regs r)) s1). split; [|done].
          by apply (save_fpu_state_spec s1 me (with_disable false r) (fpu_owner r) co). }
    erewrite bind_Done by exact E2. rewrite <- HT2 in HtA.
    erewrite bind_Done by (eapply upd_cpu_ok; rewrite Hc2; exact Hr1). unfold restore_fpu_state.
    rewrite (proj2 (Z.eqb_neq (current r) 0)) by done. erewrite bind_Done by (apply ctx_of_ok; exact HtA). rewrite Hu.
    set (s3 := put_cpu me (with_owner (current r)) s2).
    assert (cpus s3 = <[me := with_owner (current r) (with_disable false r)]> (cpus s)) as Hs3.
    { unfold s3. rewrite (put_cpu_cpus s s2 me (with_disable false r)); [done|]. by rewrite Hc2, Hs1. }
    eexists _, _. split. { eapply upd_cpu_ok. rewrite Hs3. by rewrite lookup_insert_eq. }
    pose proof (put_cpu_cpus s s3 me _ (with_regs (fpu_area c)) Hs3) as Hs4. split; [|split; [exact Hs4|]].
    2: { simpl. split_and!; try done. apply (fo_saved _ _ _ F (current r) c Hc Hu). intros d x Hx.
      destruct (decide (d = me)) as [->|Nd]; [rewrite Hr in Hx; by injection Hx as <-|by apply (Hno d)]. }
    eapply (fpu_acquired want sA _ me (with_owner 0 r) (with_regs (fpu_area c) (with_owner (current r) (with_disable false r))) (current r) c); [exact FA|by rewrite HcA, lookup_insert_eq|done|exact N|
      by rewrite <- HT2|exact Hu| |intros u; exact (HT2 u)| |done..].
    + intros d x. rewrite HcA. intros [[<- <-]|[Nd Hx]]%lookup_insert_Some; [simpl; congruence|by apply (Hno d)].
    + rewrite Hs4, HcA. by rewrite insert_insert_eq.
Qed.

(** ** What the policies share *)

Lemma fpu_ok_changes want skip s s' f : fpu_ok want skip s → cpus s' = cpus s → (∀ u, tctx s' u = f u <$> tctx s u) →
  (∀ u c, is_user (f u c) = is_user c ∧ fpu_area (f u c) = fpu_area c) → fpu_ok want skip s'.
Proof.
  intros [F1 F2 F3 F4 F5 F6] Hs HT Hf. split; rewrite ?Hs.
  - intros d r Hr N. destruct (F1 d r Hr N) as (c & Hc & Hu & Hg). rewrite HT, Hc. eexists. split; [reflexivity|].
    by rewrite (proj1 (Hf _ _)).
  - intros t c'. rewrite HT. destruct (tctx s t) as [c|] eqn:Ec; [|done]. intros [= <-]. destruct (Hf t c) as [-> ->].
    intros Hu Hno. by apply (F2 t c Ec Hu).
  - exact F3.
  - intros d r c' Hd Hr Ht. rewrite HT. destruct (tctx s (current r)) as [c|] eqn:Ec; [|done]. intros [= <-].
    rewrite (proj1 (Hf _ _)). intros Hu. by apply (F4 d r c).
  - exact F5.
  - by rewrite HT, F6.
Qed.

Lemma ready_ok_changes key s s' f : ready_ok key s → ready s' = ready s → (∀ u, tctx s' u = f u <$> tctx s u) →
  (∀ u c, tctx s u = Some c → state (f u c) = TS_READY ↔ state c = TS_READY) →
  (∀ u c, tctx s u = Some c → state c = TS_READY → key (f u c) = key c) → ready_ok key s'.
Proof.
  intros [R1 R2 R3] Er HT H1 H2. split; rewrite Er; [done| |].
  - intros k q t Hq Hin. destruct (R2 k q t Hq Hin) as (c & Hc & Hs & Hk). exists (f t c). rewrite HT, Hc.
    split; [done|]. split; [by apply H1|]. by rewrite H2.
  - intros t c'. rewrite HT. destruct (tctx s t) as [c|] eqn:Ec; [|done]. intros [= <-] Hs. apply H1 in Hs; [|done].
    rewrite H2 by done. by apply (R3 t c).
Qed.

Definition enqueued (t n : Z) : Z → thread_ctx → thread_ctx := at_thread t (λ c, with_state TS_READY (with_cpuid n c)).

Lemma enqueue_core key s t c n k q : ready_ok key s → tctx s t = Some c → state c ≠ TS_READY → ready s !! k = Some q →
  key (with_state TS_READY (with_cpuid n c)) = k →
  ∃ s', (upd_ctx t (with_cpuid n) ;; upd_ctx t (with_state TS_READY) ;; list_append t k ;; ret 0) s = Done 0 s' ∧
  ready_ok key s' ∧ ready s' = <[k := q ++ [t]]> (ready s) ∧ cpus s' = cpus s ∧ al s' = al s ∧ history s' = history s ∧
  changes s s' (enqueued t n).
Proof.
  intros R Hc Ns Hq Hk. erewrite bind_Done by (by eapply upd_ctx_ok).
  erewrite bind_Done by (eapply upd_ctx_ok; by apply with_fold_ctx).
  assert (put_ctx t (with_state TS_READY) (put_ctx t (with_cpuid n) s) =
    put_ctx t (λ c, with_state TS_READY (with_cpuid n c)) s) as ->.
  { unfold put_ctx, with_threads. simpl. f_equal. apply map_eq. intros u.
    destruct (decide (t = u)) as [<-|N]; [|by rewrite !lookup_alter_ne].
    rewrite !lookup_alter_eq. destruct (threads s !! t) as [th|]; [|done]. simpl. by destruct (ctx th). }
  destruct (list_append_spec key s t k q (λ c, with_state TS_READY (with_cpuid n c)) c R Hc Ns Hq eq_refl Hk) as [E1 R1].
  erewrite bind_Done by exact E1. eexists. split; [reflexivity|]. split; [exact R1|]. split_and!; try done.
  exact (changes_put_ctx t (λ c, with_state TS_READY (with_cpuid n c)) s).
Qed.

Definition without (t : Z) : list Z → list Z := filter (λ u, u ≠ t).

Lemma dequeue_core key s t c : ready_ok key s → tctx s t = Some c → state c = TS_READY →
  ∃ s', (list_del t ;; upd_ctx t (with_state TS_INTER) ;; ret 0) s = Done 0 s' ∧
  ready_ok key s' ∧ ready s' = without t <$> ready s ∧ cpus s' = cpus s ∧ al s' = al s ∧ history s' = history s ∧
  changes s s' (at_thread t (with_state TS_INTER)).
Proof.
  intros R Hc Hs. destruct (list_del_spec key s t c (with_state TS_INTER) R Hc Hs) as [E1 R1]; [done|].
  erewrite bind_Done by exact E1. erewrite bind_Done by (by eapply upd_ctx_ok).
  eexists. split; [reflexivity|]. split; [exact R1|]. split_and!; try done.
  exact (changes_put_ctx t (with_state TS_INTER) (with_ready (fmap (filter (λ u, u ≠ t))) s)).
Qed.

(** What holds of the whole scheduler between its operations, for a policy with
    the queues [valid] and the queue [key] of a thread. *)
Record sched_inv (key : thread_ctx → K) (valid : K → Prop) (N : Z) (want : Z → Z) (skip : option Z) s : Prop := {
  si_ready : ready_ok key s;
  si_fpu : fpu_ok want skip s;
  si_queue : ∀ k, valid k → is_Some (ready s !! k);
  si_cpu : ∀ d r, cpus s !! d = Some r → 0 ≤ d < N ∧ (current r ≠ 0 → is_Some (tctx s (current r)))
}.

Lemma sched_inv_step key valid N want skip skip' s s' f : sched_inv key valid N want skip s → ready_ok key s' →
  fpu_ok want skip' s' → (∀ k, is_Some (ready s !! k) → is_Some (ready s' !! k)) → (∀ u, tctx s' u = f u <$> tctx s u) →
  (∀ d r', cpus s' !! d = Some r' → ∃ r, cpus s !! d = Some r ∧ (current r' = current r ∨ is_Some (tctx s (current r')))) →
  sched_inv key valid N want skip' s'.
Proof.
  intros [S1 S2 S3 S4] R F Hq HT Hc. split; try done.
  - intros k Hk. by apply Hq, S3.
  - intros d r' Hr'. destruct (Hc d r' Hr') as (r & Hr & Hcur). destruct (S4 d r Hr) as [Hd Hs]. split; [done|].
    intros N0. rewrite HT. destruct Hcur as [E|[c E]]; [|rewrite E; by eexists].
    destruct Hs as [c Ec]; [by rewrite <- E|]. rewrite E, Ec. by eexists.
Qed.

(** The FPU state is saved before a thread moves to another CPU. *)
Lemma maybe_save_spec key valid N want skip skip' s me r t c n : sched_inv key valid N want skip s → cpus s !! me = Some r →
  tctx s t = Some c → (∀ v x, key (with_fpu v x) = key x) → (if n =? me then skip' = skip else exempts me r t skip skip') →
  ∃ s1 f r1, (if negb (n =? me) then save_and_release_fpu me t else ret tt) s = Done tt s1 ∧
  sched_inv key valid N want skip' s1 ∧ ready s1 = ready s ∧ al s1 = al s ∧ history s1 = history s ∧
  cpus s1 = <[me := r1]> (cpus s) ∧ current r1 = current r ∧ changes s s1 f ∧ (n = me → s1 = s) ∧
  (∀ u x, f u x = x ∨ ∃ v, f u x = with_fpu v x) ∧ (n ≠ me → fpu_owner r1 ≠ t).
Proof.
  intros I Hr Hc Hk Hsk. assert (t ≠ 0) as Nt by (intros ->; rewrite (fo_null _ _ _ (si_fpu _ _ _ _ _ _ I)) in Hc; congruence).
  destruct (Z.eqb_spec n me) as [->|Nn]; cbn [negb].
  { subst skip'. exists s, (λ _ x, x), r. split_and!; try done; [by rewrite insert_id|apply changes_refl|]. intros. by left. }
  destruct (save_and_release_spec want skip skip' s me r t (si_fpu _ _ _ _ _ _ I) Hsk Hr Nt)
    as (s1 & E1 & F1 & Ea & Er & Eh & Ec & HC).
  set (g := if fpu_owner r =? t then at_thread t (with_fpu (fpu_regs r)) else λ _ c, c) in *.
  assert (∀ u x, g u x = x ∨ ∃ v, g u x = with_fpu v x) as Hg.
  { intros u x. unfold g. destruct (fpu_owner r =? t); [|by left]. unfold at_thread. case_decide; [right; by eexists|by left]. }
  exists s1, g, (if fpu_owner r =? t then with_owner 0 r else r). split; [exact E1|]. split.
  - apply (sched_inv_step key valid N want skip skip' s s1 g I); [|done|by rewrite Er|apply HC|].
    + apply (ready_ok_changes key s s1 g); [apply I|done|apply HC| |].
      * intros u x _. by destruct (Hg u x) as [->|[v ->]].
      * intros u x _ _. destruct (Hg u x) as [->|[v ->]]; [done|apply Hk].
    + intros d r'. rewrite Ec. intros [[<- <-]|[Nd Hd]]%lookup_insert_Some; [|exists r'; naive_solver].
      exists r. split; [done|]. left. by destruct (fpu_owner r =? t).
  - split_and!; try done; [by destruct (fpu_owner r =? t)|]. intros _. by destruct (Z.eqb_spec (fpu_owner r) t).
Qed.

(** ** Choosing *)

Definition runnable s (cur t : Z) : Prop := ∃ c, tctx s t = Some c ∧ (kernel_stack_state c = KS_FREE ∨ t = cur).

Lemma find_next_runnable_spec s cur l : tctx s 0 = None → (∀ t, t ∈ l → is_Some (tctx s t)) →
  ∃ t, find_next_runnable cur l s = Done t s ∧
  ((t = 0 ∧ ∀ u, u ∈ l → ¬ runnable s cur u) ∨
   (t ≠ 0 ∧ ∃ l1 l2, l = l1 ++ t :: l2 ∧ runnable s cur t ∧ ∀ u, u ∈ l1 → ¬ runnable s cur u)).
Proof.
  intros Hz. induction l as [|t l IH]; intros Hl.
  - exists 0. split; [done|]. left. split; [done|]. by intros u ?%not_elem_of_nil.
  - destruct (Hl t) as [c Hc]; [left|]. simpl. erewrite bind_Done by (by apply ctx_of_ok).
    destruct (bool_decide (kernel_stack_state c = KS_FREE) || (t =? cur)) eqn:E.
    + exists t. split; [done|]. right. split; [congruence|]. exists [], l. split; [done|]. split.
      * exists c. split; [done|]. apply orb_true_iff in E as [E|E]; [left; by apply bool_decide_eq_true in E|right; by apply Z.eqb_eq].
      * by intros u ?%not_elem_of_nil.
    + apply orb_false_iff in E as [E1 E2]. apply bool_decide_eq_false in E1. apply Z.eqb_neq in E2.
      assert (¬ runnable s cur t) as Nt by (intros (c' & Hc' & [?|?]); congruence).
      destruct IH as (u & Eu & H); [intros u Hu; apply Hl; by right|]. exists u. split; [done|].
      destruct H as [[-> H]|(Nu & l1 & l2 & -> & Hr & H)].
      * left. split; [done|]. intros v [->|Hv]%elem_of_cons; [done|by apply H].
      * right. split; [done|]. exists (t :: l1), l2. split; [done|]. split; [done|]. intros v [->|Hv]%elem_of_cons; [done|by apply H].
Qed.

(** ** Returning to user space *)

(** [switch_context] loads the page table of these threads. *)
Definition has_vmspace (c : thread_ctx) : bool :=
  negb (type c =? TYPE_IDLE) && negb (type c =? TYPE_KERNEL) && negb (type c =? TYPE_TESTS).

Definition no_prev (p : Z) : bool := (p =? THREAD_ITSELF) || (p =? 0).

Lemma changes_threads s s' : threads s' = threads s → changes s s' (λ _ c, c).
Proof. intros E. unfold changes, tctx, tprev, tvm. rewrite E. split_and!; try done. intros u. by rewrite option_fmap_id. Qed.

Lemma switch_context_spec N s me r c p v : cpus s !! me = Some r → current r ≠ 0 → 0 ≤ me < N →
  tctx s (current r) = Some c → tprev s (current r) = Some p → tvm s (current r) = Some v → (has_vmspace c = true → v ≠ 0) →
  ∃ s', switch_context N me s = Done tt s' ∧ threads s' = threads s ∧ ready s' = ready s ∧ al s' = al s ∧
  cpus s' = <[me := if negb (p =? THREAD_ITSELF) && has_vmspace c then with_ttbr0 v r else r]> (cpus s).
Proof.
  intros Hr N0 Hme Hc Hp Hv Nv. destruct (tctx_Some _ _ _ Hc) as (th & Ht & _). unfold tprev in Hp. unfold tvm in Hv.
  rewrite Ht in Hp, Hv. injection Hp as <-. injection Hv as <-. unfold switch_context.
  erewrite bind_Done by (by apply current_thread_ok). rewrite (proj2 (Z.eqb_neq _ 0)) by done. erewrite bind_Done by reflexivity.
  erewrite bind_Done by (by eapply need_ctx_ok). erewrite bind_Done by (by apply thread_at_ok).
  destruct (prev_thread th =? THREAD_ITSELF); [exists s; split_and!; try done; by rewrite insert_id|].
  erewrite bind_Done by (by apply ctx_of_ok). fold (has_vmspace c).
  destruct (has_vmspace c); [|exists s; split_and!; try done; by rewrite insert_id].
  rewrite (proj2 (Z.eqb_neq _ 0)) by auto. erewrite bind_Done by reflexivity. unfold record_history_cpu.
  rewrite (proj2 (Z.leb_gt N me)) by lia. erewrite bind_Done by reflexivity. unfold switch_thread_vmspace_to.
  erewrite bind_Done by (by apply thread_at_ok). erewrite upd_cpu_ok by exact Hr. eexists. split; [reflexivity|].
  split_and!; try done. simpl. symmetry. by apply insert_alter.
Qed.

Lemma eret_spec N s me r c p v : cpus s !! me = Some r → current r ≠ 0 → 0 ≤ me < N → tctx s (current r) = Some c →
  tprev s (current r) = Some p → tvm s (current r) = Some v → (has_vmspace c = true → v ≠ 0) → (no_prev p = false → is_Some (tctx s p)) →
  ∃ s', eret_to_thread N me s = Away s' ∧ ready s' = ready s ∧ al s' = al s ∧
  cpus s' = <[me := if negb (p =? THREAD_ITSELF) && has_vmspace c then with_ttbr0 v r else r]> (cpus s) ∧
  changes s s' (if no_prev p then λ _ c, c else at_thread p (with_stack_state KS_FREE)).
Proof.
  intros Hr N0 Hme Hc Hp Hv Nv Hx.
  destruct (switch_context_spec N s me r c p v Hr N0 Hme Hc Hp Hv Nv) as (s1 & E1 & Et1 & Er1 & Ea1 & Ec1).
  unfold eret_to_thread. erewrite bind_Done by exact E1. destruct (tctx_Some _ _ _ Hc) as (th & Ht & _).
  set (r1 := if negb (p =? THREAD_ITSELF) && has_vmspace c then with_ttbr0 v r else r) in *.
  assert (cpus s1 !! me = Some r1) as Hr1 by (by rewrite Ec1, lookup_insert_eq).
  assert (current r1 = current r) as Ecur by (unfold r1; by destruct (_ && _)).
  pose proof (changes_threads s s1 Et1) as HC1.
  assert (prev_thread th = p) as Ep by (unfold tprev in Hp; rewrite Ht in Hp; by injection Hp).
  assert (∃ s2, finish_switch me s1 = Done tt s2 ∧ ready s2 = ready s1 ∧ al s2 = al s1 ∧ cpus s2 = cpus s1 ∧
    changes s1 s2 (if no_prev p then λ _ c, c else at_thread p (with_stack_state KS_FREE))) as (s2 & E2 & Er2 & Ea2 & Ec2 & HC2).
  { unfold finish_switch. erewrite bind_Done by (by apply current_thread_ok). rewrite Ecur.
    erewrite bind_Done by (apply thread_at_ok; by rewrite Et1). cbv zeta. rewrite Ep. fold (no_prev p).
    destruct (no_prev p); [exists s1; split_and!; try done; apply changes_refl|]. destruct Hx as [x Hx]; [done|].
    exists (put_ctx p (with_stack_state KS_FREE) s1). split_and!; try done; [|apply changes_put_ctx].
    apply (upd_ctx_ok _ _ x). unfold tctx. by rewrite Et1. }
  erewrite bind_Done by exact E2. exists s2. split; [reflexivity|]. rewrite Er2, Ea2, Ec2. split_and!; try done.
  eapply changes_ext; [|eapply changes_trans; [exact HC1|exact HC2]]. done.
Qed.

(** ** What keeps the invariant, for both policies

    The queue a thread is on depends on its CPU and priority. *)
Definition keyed (key : thread_ctx → K) : Prop := ∀ c c', cpuid c = cpuid c' → prio c = prio c' → key c = key c'.

Section policy.
Context (key : thread_ctx → K) (valid : K → Prop) (N : Z) (want : Z → Z) (Hkey : keyed key).
Abbreviation inv := (sched_inv key valid N want).

(** A change of neither queue nor FPU. *)
Lemma sched_inv_same s s' me r r' f : inv None s → cpus s !! me = Some r → cpus s' = <[me := r']> (cpus s) →
  (r' = r ∨ ∃ v, r' = with_ttbr0 v r) → ready s' = ready s → (∀ u, tctx s' u = f u <$> tctx s u) →
  (∀ u c, tctx s u = Some c → state (f u c) = TS_READY ↔ state c = TS_READY) →
  (∀ u c, cpuid (f u c) = cpuid c ∧ prio (f u c) = prio c ∧ type (f u c) = type c ∧ fpu_area (f u c) = fpu_area c) → inv None s'.
Proof.
  intros I Hr Ec Hr' Er HT Hs Hf. destruct (si_fpu _ _ _ _ _ _ I) as [F1 F2 F3 F4 F5 F6].
  assert (∀ u c, is_user (f u c) = is_user c) as Hu by (intros u c; unfold is_user; by destruct (Hf u c) as (_ & _ & -> & _)).
  apply (sched_inv_step _ _ _ _ None None s s' f I).
  - apply (ready_ok_changes key s s' f); [apply I|done|done|done|]. intros u c _ _. apply Hkey; apply Hf.
  - apply (fpu_ok_cpu want None None s s' me r r'); [apply I|by left|done|done|..].
    + by destruct Hr' as [->|[v ->]].
    + by destruct Hr' as [->|[v ->]].
    + destruct Hr' as [->|[v ->]]; apply (F5 me r Hr).
    + intros u c'. rewrite HT. destruct (tctx s u) as [c|]; [|done]. intros [= <-]. exists c. rewrite Hu. by destruct (Hf u c) as (_ & _ & _ & ->).
    + intros u c Hc. rewrite HT, Hc. by eexists.
    + intros c' _ Htr. rewrite HT. assert (current r' = current r ∧ fpu_owner r' = fpu_owner r ∧ fpu_trap r' = fpu_trap r) as (E1 & E2 & E3)
        by (by destruct Hr' as [->|[v ->]]). rewrite E1, E2. destruct (tctx s (current r)) as [c|] eqn:Hc; [|done].
      intros [= <-]. rewrite Hu. apply (F4 me r c); [done|done|congruence|done].
  - by rewrite Er.
  - done.
  - intros d x. rewrite Ec. intros [[<- <-]|[_ Hx]]%lookup_insert_Some; [|exists x; split; [done|by left]].
    exists r. split; [done|]. left. by destruct Hr' as [->|[v ->]].
Qed.

Lemma sched_inv_dequeue skip s t c : inv skip s → tctx s t = Some c → state c = TS_READY →
  ∃ s', (list_del t ;; upd_ctx t (with_state TS_INTER) ;; ret 0) s = Done 0 s' ∧ inv skip s' ∧
  ready s' = without t <$> ready s ∧ cpus s' = cpus s ∧ changes s s' (at_thread t (with_state TS_INTER)).
Proof.
  intros I Hc Hs. destruct (dequeue_core key s t c) as (s' & E & R & Er & Ec & _ & _ & HC); [apply I|done|done|].
  exists s'. split; [exact E|]. split_and!; try done.
  apply (sched_inv_step _ _ _ _ skip skip s s' (at_thread t (with_state TS_INTER)) I); [done| | |apply HC|].
  - eapply fpu_ok_changes; [apply I|done|apply HC|]. intros u x. unfold at_thread. by case_decide.
  - intros k. rewrite Er, lookup_fmap. intros [y ->]. by eexists.
  - intros d x. rewrite Ec. intros Hx. exists x. split; [done|by left].
Qed.

Lemma sched_inv_enqueue skip s t c n k q : inv skip s → tctx s t = Some c → state c ≠ TS_READY → ready s !! k = Some q →
  key (with_state TS_READY (with_cpuid n c)) = k →
  ∃ s', (upd_ctx t (with_cpuid n) ;; upd_ctx t (with_state TS_READY) ;; list_append t k ;; ret 0) s = Done 0 s' ∧ inv skip s' ∧
  ready s' = <[k := q ++ [t]]> (ready s) ∧ cpus s' = cpus s ∧ changes s s' (enqueued t n).
Proof.
  intros I Hc Hs Hq Hk.
  destruct (enqueue_core key s t c n k q (si_ready _ _ _ _ _ _ I) Hc Hs Hq Hk) as (s' & E & R & Er & Ec & _ & _ & HC).
  exists s'. split; [exact E|]. split_and!; try done.
  apply (sched_inv_step _ _ _ _ skip skip s s' (enqueued t n) I); [done| | |apply HC|].
  - eapply fpu_ok_changes; [apply I|done|apply HC|]. intros u x. unfold enqueued, at_thread. by case_decide.
  - intros j. rewrite Er. intros [y Hy]. apply lookup_insert_is_Some'. rewrite Hy. right. by eexists.
  - intros d x. rewrite Ec. intros Hx. exists x. split; [done|by left].
Qed.

(** After a switch the CPU is no longer exempt. *)
Lemma sched_inv_switch skip s me r t c : inv skip s → cpus s !! me = Some r → tctx s t = Some c → t ≠ 0 →
  state c ≠ TS_READY → (skip = None ∨ (skip = Some me ∧ t ≠ current r)) →
  ∃ s' r' c', switch_to_thread me t s = Done 0 s' ∧ inv None s' ∧ ready s' = ready s ∧ cpus s' !! me = Some r' ∧
  current r' = t ∧ tctx s' t = Some c' ∧ state c' = TS_RUNNING ∧ (∀ u, tctx s' u = switched me t r u <$> tctx s u) ∧
  tprev s' t = Some (if decide (t = current r) then THREAD_ITSELF else current r) ∧ ∀ u, tvm s' u = tvm s u.
Proof.
  intros I Hr Hc Nt Hns Hsk.
  destruct (switch_to_thread_spec s me r t c Hr Hc Nt Hns) as (s' & E & _ & Er & _ & Ec & HT & HP & HV).
  { intros Nc. by apply (si_cpu _ _ _ _ _ _ I me r). }
  exists s', (switched_cpu t c r), (switched me t r t c). split; [exact E|]. split.
  - apply (sched_inv_step _ _ _ _ skip None s s' (switched me t r) I); [| |by rewrite Er|exact HT|].
    + apply (ready_ok_changes key s s' (switched me t r)); [apply I|done|done| |].
      * intros u x Hx. destruct (decide (u = t)) as [->|Nu].
        -- rewrite Hc in Hx. injection Hx as <-. unfold switched. rewrite !(decide_True (P := t = t)) by done. case_decide; simpl; done.
        -- unfold switched. rewrite !(decide_False (P := u = t)) by done. by repeat case_decide.
      * intros u x Hx Hs. destruct (decide (u = t)) as [->|Nu]; [congruence|].
        unfold switched. rewrite !(decide_False (P := u = t)) by done. apply Hkey; by repeat case_decide.
    + eapply switch_fpu_ok; [apply I|exact Hsk|exact Hr|exact Hc|exact Ec|exact HT].
    + intros d x. rewrite Ec. intros [[<- <-]|[Nd Hd]]%lookup_insert_Some; [|exists x; split; [done|by left]].
      exists r. split; [done|]. unfold switched_cpu. case_decide; [by left|]. right. simpl. by exists c.
  - split_and!; try done.
    + by rewrite Ec, lookup_insert_eq.
    + unfold switched_cpu. by case_decide.
    + by rewrite HT, Hc.
    + unfold switched. by repeat case_decide.
    + rewrite HP. by rewrite decide_True.
Qed.

End policy.

(** ** The invariant of a concrete state, by evaluation

    Every hypothesis is over the entries of one map. *)
Lemma ready_ok_check key s :
  (∀ k q, ready s !! k = Some q → NoDup q ∧
     Forall (λ t, match tctx s t with Some c => state c = TS_READY ∧ key c = k | None => False end) q) →
  (∀ t th, threads s !! t = Some th →
     match ctx th with
     | Some c => state c = TS_READY → match ready s !! key c with Some q => t ∈ q | None => False end
     | None => True
     end) → ready_ok key s.
Proof.
  intros H1 H2. split.
  - intros k q Hq. by apply (H1 k q).
  - intros k q t Hq Ht. destruct (H1 k q Hq) as [_ F]. rewrite Forall_forall in F. specialize (F t Ht). simpl in F.
    destruct (tctx s t) as [c|]; [|done]. by exists c.
  - intros t c Hc Hs. destruct (tctx_Some _ _ _ Hc) as (th & Ht & Hth). specialize (H2 t th Ht). rewrite Hth in H2.
    specialize (H2 Hs). destruct (ready s !! key c) as [q|]; [|done]. by exists q.
Qed.

Lemma fpu_ok_check want s :
  (∀ d r, cpus s !! d = Some r → (fpu_disable r = fpu_trap r ∧
     (fpu_owner r ≠ 0 → match tctx s (fpu_owner r) with Some c => is_user c = true ∧ fpu_regs r = want (fpu_owner r) | None => False end)) ∧
     (fpu_trap r = false → match tctx s (current r) with Some c => is_user c = true → fpu_owner r = current r | None => True end) ∧
     map_Forall (λ e r', fpu_owner r = fpu_owner r' → fpu_owner r ≠ 0 → d = e) (cpus s)) →
  (∀ t th, threads s !! t = Some th → t ≠ 0 ∧
     match ctx th with
     | Some c => is_user c = true → map_Forall (λ d r, fpu_owner r ≠ t) (cpus s) → fpu_area c = want t
     | None => True
     end) → fpu_ok want None s.
Proof.
  intros H1 H2. split.
  - intros d r Hd No. destruct (H1 d r Hd) as ((_ & H) & _). specialize (H No). destruct (tctx s (fpu_owner r)) as [c|]; [|done]. by exists c.
  - intros t c Hc Hu Ho. destruct (tctx_Some _ _ _ Hc) as (th & Ht & Hth). destruct (H2 t th Ht) as [_ H]. rewrite Hth in H. by apply H.
  - intros d e r r' Hd He. destruct (H1 d r Hd) as (_ & _ & H). exact (H e r' He).
  - intros d r c _ Hd Htr Hc Hu. destruct (H1 d r Hd) as (_ & H & _). specialize (H Htr). rewrite Hc in H. by apply H.
  - intros d r Hd. by destruct (H1 d r Hd) as ((? & _) & _).
  - unfold tctx. destruct (threads s !! 0) as [th|] eqn:E; [|done]. by destruct (H2 0 th E).
Qed.

(** ** Context switch as the hardware sees it *)

(** The context of a thread that was switched to, and of the one that was left. *)
Definition entered (me : Z) (c : thread_ctx) : thread_ctx := with_stack_state KS_LOCKED (with_state TS_RUNNING (with_cpuid me c)).
Definition left_by (r : cpu) (c : thread_ctx) : thread_ctx :=
  with_stack_state KS_FREE (if is_user c then with_tls (tpidr r) c else c).

Lemma switch_return_full N s me r t c v : cpus s !! me = Some r → 0 ≤ me < N → fpu_disable r = fpu_trap r →
  tctx s t = Some c → t ≠ 0 → t ≠ current r → state c ≠ TS_READY → (type c = TYPE_USER ∨ type c = TYPE_SHADOW) → tvm s t = Some v → v ≠ 0 →
  current r ≠ 0 → current r ≠ THREAD_ITSELF → ∀ old, tctx s (current r) = Some old →
  ∃ s', (switch_to_thread me t ;; eret_to_thread N me) s = Away s' ∧
  cpus s' = <[me := mk_cpu t (fpu_owner r) true true (fpu_regs r) (tls_base c) v]> (cpus s) ∧ ready s' = ready s ∧ al s' = al s ∧
  tctx s' t = Some (entered me c) ∧ tctx s' (current r) = Some (left_by r old) ∧
  (∀ u, u ≠ t → u ≠ current r → tctx s' u = tctx s u) ∧ ∀ u, tvm s' u = tvm s u.
Proof.
  intros Hr Hme Hd Hc Nt Ntc Ns Hty Hvm Nv N0 Ni old Hold.
  destruct (switch_to_thread_spec s me r t c Hr Hc Nt Ns) as (s1 & E1 & Ea1 & Er1 & _ & Ec1 & HT1 & HP1 & HV1); [by eexists|].
  assert (switched_cpu t c r = mk_cpu t (fpu_owner r) true true (fpu_regs r) (tls_base c) (ttbr0 r)) as E.
  { unfold switched_cpu. rewrite decide_False by done. assert (is_user c = true) as -> by (unfold is_user; by destruct Hty as [-> | ->]).
    cbn [orb andb]. rewrite Hd. by destruct (fpu_trap r). }
  rewrite E in Ec1. set (r1 := mk_cpu t _ true true _ _ _) in *.
  assert (cpus s1 !! me = Some r1) as Hr1 by (by rewrite Ec1, lookup_insert_eq).
  assert (no_prev (current r) = false) as Np by (apply orb_false_intro; by apply Z.eqb_neq).
  assert (tctx s1 t = Some (entered me c)) as Hc1.
  { rewrite HT1, Hc. simpl. unfold switched. by rewrite decide_False, decide_True. }
  assert (tctx s1 (current r) = Some (if is_user old then with_tls (tpidr r) old else old)) as Hold1.
  { rewrite HT1, Hold. simpl. unfold switched. rewrite decide_False, (decide_False (P := current r = t)) by congruence.
    destruct (is_user old); [by rewrite decide_True|]. rewrite decide_False; [done|]. by intros (_ & _ & ?). }
  destruct (eret_spec N s1 me r1 (entered me c) (current r) v Hr1 Nt Hme Hc1) as (s2 & E2 & Er2 & Ea2 & Ec2 & HC2);
    [by rewrite HP1, decide_True, decide_False|by rewrite HV1|done|by eexists|].
  rewrite Np in HC2. rewrite (proj2 (Z.eqb_neq _ THREAD_ITSELF)) in Ec2 by done.
  assert (has_vmspace (entered me c) = true) as Hv by (unfold has_vmspace; simpl; by destruct Hty as [-> | ->]). rewrite Hv in Ec2.
  exists s2. split; [by erewrite bind_Done by exact E1|]. split; [by rewrite Ec2, Ec1, insert_insert_eq|].
  split_and!; [congruence|congruence|..].
  - rewrite (changes_tctx _ _ _ _ _ HC2 Hc1). unfold at_thread. by rewrite decide_False.
  - rewrite (changes_tctx _ _ _ _ _ HC2 Hold1). unfold at_thread. by rewrite decide_True.
  - intros u Nu Nc. rewrite (proj1 HC2), HT1, <- option_fmap_compose. destruct (tctx s u) as [x|]; [|done]. simpl.
    unfold at_thread, switched. rewrite !decide_False by naive_solver. done.
  - intros u. destruct HC2 as (_ & _ & ->). apply HV1.
Qed.

(** Lazy FPU.  When a user thread that uses the FPU traps, [change_fpu_owner]
    gives it the register contents it last had ([want]), saves those of the
    previous owner, and keeps, for every thread of the system, its contents
    either in the registers of the CPU it owns or in its buffer. *)
Theorem change_fpu_owner_ok want s me r c :
  fpu_ok want None s → cpus s !! me = Some r → tctx s (current r) = Some c → is_user c = true → current r ≠ 0 →
  (∀ d x, cpus s !! d = Some x → d ≠ me → fpu_owner x ≠ current r) →
  ∃ s' r', change_fpu_owner me s = Done tt s' ∧ fpu_ok want None s' ∧ cpus s' = <[me := r']> (cpus s) ∧
  current r' = current r ∧ fpu_trap r' = false ∧ fpu_owner r' = current r ∧ fpu_regs r' = want (current r) ∧
  ready s' = ready s.
Proof. apply change_fpu_owner_spec. Qed.

(** a context switch to a user thread, from [switch_to_thread] to the return
    to user space: the CPU runs the thread, on its page table and TLS base and
    with the FPU trapped; the thread is running on this CPU with its kernel
    stack locked; the stack of the old thread is free and its TLS base saved;
    nothing else changes. *)
Theorem switch_return_ok N s me r t c v old :
  cpus s !! me = Some r → 0 ≤ me < N → fpu_disable r = fpu_trap r →
  tctx s t = Some c → t ≠ 0 → t ≠ current r → state c ≠ TS_READY → (type c = TYPE_USER ∨ type c = TYPE_SHADOW) →
  tvm s t = Some v → v ≠ 0 → current r ≠ 0 → current r ≠ THREAD_ITSELF → tctx s (current r) = Some old →
  ∃ s' r' c' old', (switch_to_thread me t ;; eret_to_thread N me) s = Away s' ∧ cpus s' = <[me := r']> (cpus s) ∧
  current r' = t ∧ ttbr0 r' = v ∧ tpidr r' = tls_base c ∧ fpu_trap r' = true ∧ fpu_regs r' = fpu_regs r ∧
  tctx s' t = Some c' ∧ state c' = TS_RUNNING ∧ cpuid c' = me ∧ kernel_stack_state c' = KS_LOCKED ∧
  tctx s' (current r) = Some old' ∧ kernel_stack_state old' = KS_FREE ∧
  tls_base old' = (if is_user old then tpidr r else tls_base old) ∧
  ∀ u, u ≠ t → u ≠ current r → tctx s' u = tctx s u.
Proof.
  intros Hr Hme Hd Hc Nt Ntc Ns Hty Hvm Nv N0 Ni Hold.
  destruct (switch_return_full N s me r t c v Hr Hme Hd Hc Nt Ntc Ns Hty Hvm Nv N0 Ni old Hold) as (s' & E & Ec & _ & _ & Ht & Ho & Hu & _).
  exists s', (mk_cpu t (fpu_owner r) true true (fpu_regs r) (tls_base c) v), (entered me c), (left_by r old). split_and!; try done.
  unfold left_by. by destruct (is_user old).
Qed.

Lemma at_same s t c f : tctx s t = Some c → state c ≠ TS_READY → state (f c) ≠ TS_READY →
  ∀ u x, tctx s u = Some x → state (at_thread t f u x) = TS_READY ↔ state x = TS_READY.
Proof. intros Hc H1 H2 u x Hx. unfold at_thread. case_decide as D; [|done]. subst u. rewrite Hc in Hx. injection Hx as <-. tauto. Qed.

End view.

(** ** What a policy promises to the rest of the kernel *)

(** Changes of the contexts that no policy depends on. *)
Definition private (f : Z → thread_ctx → thread_ctx) : Prop := ∀ u x,
  cpuid (f u x) = cpuid x ∧ prio (f u x) = prio x ∧ type (f u x) = type x ∧ affinity (f u x) = affinity x ∧ fpu_area (f u x) = fpu_area x.

(** What the old thread goes through in a policy that takes the CPU from it: its
    budget is refilled and it leaves [TS_RUNNING]. *)
Definition suspended (p old u : Z) (c : thread_ctx) : thread_ctx :=
  at_thread old (with_state TS_INTER) u (charged p DEFAULT_BUDGET c).

Lemma suspended_self old c : suspended (sc c) old old c = with_state TS_INTER (with_budget DEFAULT_BUDGET c).
Proof. unfold suspended, at_thread. by rewrite decide_True, charged_self. Qed.

Lemma suspended_private p old : private (suspended p old).
Proof. intros u x. unfold suspended, at_thread. destruct (charged_cases p DEFAULT_BUDGET x) as [-> | ->]; by case_decide. Qed.

Lemma suspended_state p old c u x : state c = TS_RUNNING → (u = old → x = c) →
  state (suspended p old u x) = TS_READY ↔ state x = TS_READY.
Proof.
  intros Hs Hx. unfold suspended, at_thread. case_decide as D.
  - rewrite (Hx D), Hs. simpl. by split.
  - by destruct (charged_cases p DEFAULT_BUDGET x) as [-> | ->].
Qed.

Lemma suspend_run {A K : Type} `{!Allocator A, !EqDecision K, !Countable K} (s : sstate A K) old c : tctx s old = Some c → sc c ≠ 0 →
  ∃ s1 s0, set_budget old DEFAULT_BUDGET s = Done tt s1 ∧ upd_ctx old (with_state TS_INTER) s1 = Done tt s0 ∧
  changes s s0 (suspended (sc c) old) ∧ ready s0 = ready s ∧ cpus s0 = cpus s.
Proof.
  intros Hc Hsc. destruct (set_budget_ok s old c DEFAULT_BUDGET Hc Hsc) as (s1 & E & HC & Er & Ec & _).
  exists s1, (put_ctx old (with_state TS_INTER) s1). split; [done|]. split; [eapply upd_ctx_ok; exact (changes_tctx _ _ _ _ _ HC Hc)|].
  split; [|done]. exact (changes_trans _ _ _ _ _ HC (changes_put_ctx old (with_state TS_INTER) s1)).
Qed.

(** The invariant [inv] of a policy survives changes that make no thread ready
    and take no ready thread away, and switches; [sched_enqueue] makes a thread
    ready without waking up or changing another one. *)
Class Scheduler {A K : Type} `{!Allocator A, !EqDecision K, !Countable K} (ops : sched_ops A K) (inv : sstate A K → Prop) := {
  sc_null s : inv s → tctx s 0 = None;
  sc_current s me r : inv s → cpus s !! me = Some r → current r ≠ 0 → is_Some (tctx s (current r));
  sc_same s s' me r r' f : inv s → cpus s !! me = Some r → cpus s' = <[me := r']> (cpus s) → (r' = r ∨ ∃ v, r' = with_ttbr0 v r) →
    ready s' = ready s → (∀ u, tctx s' u = f u <$> tctx s u) →
    (∀ u c, tctx s u = Some c → state (f u c) = TS_READY ↔ state c = TS_READY) → private f → inv s';
  sc_enqueue s me r t c : inv s → cpus s !! me = Some r → tctx s t = Some c → state c ≠ TS_READY →
    current r ≠ t ∨ affinity c = NO_AFF → type c ≠ TYPE_IDLE →
    ∃ n s', sched_enqueue ops me t s = Done n s' ∧ inv s' ∧ (∃ r', cpus s' = <[me := r']> (cpus s) ∧ current r' = current r) ∧
    (n = 0 → ∃ f, changes s s' f ∧ state (f t c) = TS_READY ∧ (∀ u x, u ≠ t → state (f u x) = state x) ∧
      ∀ u x, type (f u x) = type x ∧ ec (f u x) = ec x ∧ sc (f u x) = sc x ∧ budget (f u x) = budget x);
  sc_switch s me r t c s' : inv s → cpus s !! me = Some r → tctx s t = Some c → state c ≠ TS_READY →
    switch_to_thread me t s = Done 0 s' → inv s'
}.

Lemma sc_update {A K : Type} `{!Allocator A, !EqDecision K, !Countable K} (ops : sched_ops A K) inv `{!Scheduler ops inv} s me r t c f :
  inv s → cpus s !! me = Some r → tctx s t = Some c → state c ≠ TS_READY → state (f c) ≠ TS_READY →
  private (λ _, f) → inv (put_ctx t f s).
Proof.
  intros I Hr Hc H1 H2 Hf. apply (sc_same s _ me r r (at_thread t f) I Hr); [by rewrite insert_id|by left|done|apply changes_put_ctx|by eapply at_same|].
  intros u x. unfold at_thread. case_decide; [apply (Hf u x)|done].
Qed.

(** ** A small system

    Two CPUs with the idle threads 1 and 2, and three user threads: 10 runs on
    CPU 0, 20 and 30 are ready there.  CPU 0 holds the FPU contents of 20. *)
Module Demo.

Definition user (st : thread_state) (area : Z) (k : thread_special_state) : thread_ctx :=
  mk_ctx ∅ 1000 2000 area 0 3000 1 TYPE_USER st 10 NO_AFF 0 k.
Definition idle_ctx (d : Z) (st : thread_state) : thread_ctx := mk_ctx ∅ 1000 2000 0 0 3000 1 TYPE_IDLE st 0 d d KS_FREE.
Definition demo_threads : gmap Z thread :=
  list_to_map [(1, mk_thread (Some (idle_ctx 0 TS_INTER)) 0 90 80); (2, mk_thread (Some (idle_ctx 1 TS_RUNNING)) 0 90 80);
               (10, mk_thread (Some (user TS_RUNNING 5 KS_LOCKED)) 0 100 80);
               (20, mk_thread (Some (user TS_READY 0 KS_FREE)) 0 100 80); (30, mk_thread (Some (user TS_READY 9 KS_FREE)) 0 101 80)].
Definition demo_cpus : gmap Z cpu :=
  list_to_map [(0, mk_cpu 10 20 true true 7 44 100); (1, mk_cpu 2 0 true true 0 0 0)].
Definition state0 {K} `{Countable K} (q : gmap K (list Z)) : sstate Z K := mk_sstate 1048576 demo_threads demo_cpus q ∅.
Definition want (t : Z) : Z := if t =? 20 then 7 else if t =? 10 then 5 else if t =? 30 then 9 else 0.

Lemma demo_fpu {K} `{Countable K} (q : gmap K (list Z)) : fpu_ok want None (state0 q).
Proof.
  apply fpu_ok_check.
  - change (cpus (state0 q)) with demo_cpus. unfold tctx. change (threads (state0 q)) with demo_threads. check_map.
  - change (cpus (state0 q)) with demo_cpus. change (threads (state0 q)) with demo_threads. check_map.
Qed.

End Demo.

Lemma change_fpu_owner_ok_witness : ∃ s' r', change_fpu_owner 0 (Demo.state0 (∅ : gmap Z (list Z))) = Done tt s' ∧
  fpu_ok Demo.want None s' ∧ cpus s' = <[0 := r']> Demo.demo_cpus ∧ fpu_regs r' = 5.
Proof.
  edestruct (change_fpu_owner_ok Demo.want (Demo.state0 (∅ : gmap Z (list Z))) 0) as (s' & r' & E & F & Ec & _ & _ & _ & Hr & _).
  - apply Demo.demo_fpu.
  - vm_compute. reflexivity.
  - vm_compute. reflexivity.
  - vm_compute. reflexivity.
  - vm_compute. discriminate.
  - change (cpus (Demo.state0 ∅)) with Demo.demo_cpus. check_map.
  - exists s', r'. split; [exact E|]. split; [exact F|]. split; [exact Ec|exact Hr].
Defined.

Lemma switch_return_ok_witness : ∃ s' r', (switch_to_thread 1 10 ;; eret_to_thread 2 1) (Demo.state0 (∅ : gmap Z (list Z))) = Away s' ∧
  cpus s' = <[1 := r']> Demo.demo_cpus ∧ current r' = 10 ∧ ttbr0 r' = 100.
Proof.
  edestruct (switch_return_ok 2 (Demo.state0 (∅ : gmap Z (list Z))) 1) as (s' & r' & c' & o & E & Ec & Hc & Hv & _).
  - vm_compute. reflexivity.
  - lia.
  - vm_compute. reflexivity.
  - instantiate (2 := 10). vm_compute. reflexivity.
  - discriminate.
  - discriminate.
  - discriminate.
  - by left.
  - vm_compute. reflexivity.
  - discriminate.
  - discriminate.
  - discriminate.
  - vm_compute. reflexivity.
  - exists s', r'. split; [exact E|]. split; [exact Ec|]. split; [exact Hc|exact Hv].
Defined.

End Sched.
