(* ===== verification/PolicyRR.v ===== *)
(** * The round-robin policy (kernel/sched/policy_rr.c)

    One ready queue per CPU: [ready s !! c] is [rr_ready_queue[c]].  The locks
    of the queues are taken and released inside each function.  The idle thread
    of CPU [c] is the static [idle_threads[c]], at address [idle c]; it is never
    on a queue. *)

From S2P Require Import Prelude Allocator Sched.

Module RR.

Import Allocator Sched.

Section rr.
Context {A : Type} `{!Allocator A}.
Context (PLAT_CPU_NUM : Z) (idle : Z → Z).
(** [sizeof(struct cap_group)], the block the name of the idle threads is in, and
    the code of the idle threads. *)
Context (SIZEOF_CAP_GROUP : Z) (idle_thread_routine : Z).

Abbreviation MS := (M (sstate A Z)).

Definition __rr_sched_enqueue (t cpu : Z) : MS Z :=
  c <- ctx_of t ;;
  if bool_decide (state c = TS_READY) then ret (- EINVAL)
  else
    upd_ctx t (with_cpuid cpu) ;;
    upd_ctx t (with_state TS_READY) ;;
    list_append t cpu ;;
    ret 0.

(** The affinity is an [s32], the CPU number it is assigned to a [u32]. *)
Definition target_cpu (me : Z) (c : thread_ctx) : Z :=
  if affinity c =? NO_AFF then me else u32 (affinity c).

Definition rr_sched_enqueue (me t : Z) : MS Z :=
  BUG_ON (t =? 0) ;;
  need_ctx t ;;
  c <- ctx_of t ;;
  if type c =? TYPE_IDLE then ret 0
  else
    let cpuid := target_cpu me c in
    if MAX_PRIO <? prio c then ret (- EINVAL)
    else if PLAT_CPU_NUM <=? cpuid then ret (- EINVAL)
    else
      (if negb (cpuid =? me) then save_and_release_fpu me t else ret tt) ;;
      __rr_sched_enqueue t cpuid.

Definition __rr_sched_dequeue (t : Z) : MS Z :=
  c <- ctx_of t ;;
  if bool_decide (state c ≠ TS_READY) then ret (- EINVAL)
  else list_del t ;; upd_ctx t (with_state TS_INTER) ;; ret 0.

Definition rr_sched_dequeue (t : Z) : MS Z :=
  BUG_ON (t =? 0) ;;
  need_ctx t ;;
  c <- ctx_of t ;;
  BUG_ON (type c =? TYPE_IDLE) ;;
  __rr_sched_dequeue t.

(** No other CPU runs between the two tests for an empty queue, so the search is
    not repeated. *)
Definition rr_sched_choose_thread (me : Z) : MS Z :=
  s <- get ;;
  q <- need (ready s !! me) ;;
  match q with
  | [] => ret (idle me)
  | _ =>
      t <- find_next_runnable_thread_in_list me me ;;
      if t =? 0 then ret (idle me)
      else
        r <- __rr_sched_dequeue t ;;
        BUG_ON (negb (r =? 0)) ;;
        ret t
  end.

Definition rr_sched_refill_budget (t n : Z) : MS unit := set_budget t n.

(** The part on the old thread: false when it goes on running. *)
Definition rr_suspend (me old : Z) : MS bool :=
  if old =? 0 then ret true
  else
    need_ctx old ;;
    c <- ctx_of old ;;
    BUG_ON (sc c =? 0) ;;
    BUG_ON (bool_decide (state c ≠ TS_RUNNING) && bool_decide (state c ≠ TS_WAITING)) ;;
    if bool_decide (state c = TS_RUNNING) then
      if 0 <? budget c then ret false
      else
        rr_sched_refill_budget old DEFAULT_BUDGET ;;
        upd_ctx old (with_state TS_INTER) ;;
        r <- rr_sched_enqueue me old ;;
        BUG_ON (negb (r =? 0)) ;;
        ret true
    else ret true.

Definition rr_sched (me : Z) : MS Z :=
  old <- current_thread me ;;
  go <- rr_suspend me old ;;
  if go then
    new <- rr_sched_choose_thread me ;;
    BUG_ON (new =? 0) ;;
    switch_to_thread me new ;;
    ret 0
  else ret 0.

(** The loops of [rr_sched_init] over the CPUs from [i] on. *)
Fixpoint init_queues (n : nat) (i : Z) : MS unit :=
  match n with
  | O => ret tt
  | S n' =>
      upd_cpu i (with_current 0) ;;
      modify (with_ready (<[i := []]>)) ;;
      init_queues n' (i + 1)
  end.

(** A thread context is stored in the static thread. *)
Definition set_ctx (t : Z) (c : thread_ctx) : MS unit :=
  th <- thread_at t ;; set_thread t (mk_thread (Some c) (prev_thread th) (vmspace th) (cap_group th)).
Definition set_group (t g : Z) : MS unit :=
  th <- thread_at t ;; set_thread t (mk_thread (ctx th) (prev_thread th) 0 g).

Fixpoint init_idle (n : nat) (i g : Z) : MS unit :=
  match n with
  | O => ret tt
  | S n' =>
      oc <- create_thread_ctx ;;
      match oc with
      | None => halt
      | Some c =>
          set_ctx (idle i) c ;;
          init_thread_ctx (idle i) 0 0 MIN_PRIO TYPE_IDLE i ;;
          arch_idle_ctx_init (idle i) idle_thread_routine ;;
          set_group (idle i) g ;;
          init_idle n' (i + 1) g
      end
  end.

(** The name is written to the group without a test for NULL. *)
Definition rr_sched_init : MS Z :=
  init_queues (Z.to_nat PLAT_CPU_NUM) 0 ;;
  g <- on_al (al_zalloc SIZEOF_CAP_GROUP) ;;
  if g =? 0 then fault
  else init_idle (Z.to_nat PLAT_CPU_NUM) 0 g ;; ret 0.

Definition rr : sched_ops A Z := mk_sched_ops rr_sched rr_sched_enqueue rr_sched_dequeue.

End rr.

(** ** Specification *)

Section spec.
Context {A : Type} `{!Allocator A}.
Context (N : Z) (idle : Z → Z).
Implicit Types s : sstate A Z.

Definition valid_cpu (n : Z) : Prop := 0 ≤ n < N.

(** The idle threads are there and never ready. *)
Definition idles s : Prop := ∀ d, 0 ≤ d < N → ∃ c, tctx s (idle d) = Some c ∧ type c = TYPE_IDLE ∧ state c ≠ TS_READY.

Definition rr_inv (want : Z → Z) (skip : option Z) s : Prop := sched_inv cpuid valid_cpu N want skip s ∧ idles s.

Lemma idles_step s s' f : idles s → (∀ u, tctx s' u = f u <$> tctx s u) →
  (∀ u c, type (f u c) = type c) → (∀ u c, type c = TYPE_IDLE → state c ≠ TS_READY → tctx s u = Some c → state (f u c) ≠ TS_READY) → idles s'.
Proof.
  intros I HT H1 H2 d Hd. destruct (I d Hd) as (c & Hc & Ht & Hs). exists (f (idle d) c). rewrite HT, Hc.
  split; [done|]. rewrite H1. split; [done|]. by apply H2.
Qed.

Lemma rr_inv_exempt want skip skip' s me r t : rr_inv want skip s → exempts me r t skip skip' → rr_inv want skip' s.
Proof. intros [[S1 S2 S3 S4] I] Hx. split; [|done]. split; try done. by eapply fpu_ok_exempt. Qed.

Lemma keyed_cpuid : keyed cpuid.
Proof. by intros c c' H _. Qed.

(** A change of neither queue nor FPU. *)
Lemma rr_inv_same want s s' me r r' f : rr_inv want None s → cpus s !! me = Some r → cpus s' = <[me := r']> (cpus s) →
  (r' = r ∨ ∃ v, r' = with_ttbr0 v r) → ready s' = ready s → (∀ u, tctx s' u = f u <$> tctx s u) →
  (∀ u c, tctx s u = Some c → state (f u c) = TS_READY ↔ state c = TS_READY) →
  (∀ u c, cpuid (f u c) = cpuid c ∧ prio (f u c) = prio c ∧ type (f u c) = type c ∧ fpu_area (f u c) = fpu_area c) →
  rr_inv want None s'.
Proof.
  intros [I Id] Hr Ec Hr' Er HT Hs Hf. split; [by eapply (sched_inv_same cpuid valid_cpu N want keyed_cpuid s s' me r r' f)|].
  eapply (idles_step s s' f Id); [done|intros u c; apply Hf|]. intros u c _ Ns Hc. by rewrite Hs.
Qed.

(** A change of the FPU buffers only. *)
Definition fpu_only (f : Z → thread_ctx → thread_ctx) : Prop := ∀ u x, f u x = x ∨ ∃ v, f u x = with_fpu v x.

(** What [rr_sched_enqueue] returns and does: nothing for an idle thread, an
    error for a thread that may not be queued, the end of the queue else. *)
Inductive enqueue_result (me t : Z) (c : thread_ctx) s : Z → sstate A Z → Prop :=
| enq_idle : type c = TYPE_IDLE → enqueue_result me t c s 0 s
| enq_refused s' f : type c ≠ TYPE_IDLE → (MAX_PRIO < prio c ∨ N ≤ target_cpu me c ∨ state c = TS_READY) →
    ready s' = ready s → changes s s' f → fpu_only f → enqueue_result me t c s (- EINVAL) s'
| enq_done s' q f : type c ≠ TYPE_IDLE → prio c ≤ MAX_PRIO → state c ≠ TS_READY → valid_cpu (target_cpu me c) →
    ready s !! target_cpu me c = Some q → ready s' = <[target_cpu me c := q ++ [t]]> (ready s) →
    changes s s' (λ u x, enqueued t (target_cpu me c) u (f u x)) → fpu_only f → (target_cpu me c = me → cpus s' = cpus s) →
    enqueue_result me t c s 0 s'.

Lemma target_cpu_nonneg me c : 0 ≤ me → 0 ≤ target_cpu me c.
Proof. intros H. unfold target_cpu. destruct (_ =? _); [done|]. unfold u32. by apply Z.mod_pos_bound. Qed.

Lemma rr_enqueue_spec want skip skip' s me r t c : rr_inv want skip s → cpus s !! me = Some r → tctx s t = Some c →
  (if target_cpu me c =? me then skip' = skip else exempts me r t skip skip') →
  ∃ n s', rr_sched_enqueue N me t s = Done n s' ∧ rr_inv want skip' s' ∧ enqueue_result me t c s n s' ∧
  (∃ r', cpus s' = <[me := r']> (cpus s) ∧ current r' = current r).
Proof.
  intros [I Id] Hr Hc Hsk. assert (rr_inv want skip' s) as I0.
  { destruct (target_cpu me c =? me); [by subst skip'|]. eapply rr_inv_exempt; [by split|done]. }
  assert (t ≠ 0) as Nt by (intros ->; rewrite (fo_null _ _ _ (si_fpu _ _ _ _ _ _ I)) in Hc; congruence).
  assert (∃ r', cpus s = <[me := r']> (cpus s) ∧ current r' = current r) as Same by (exists r; by rewrite insert_id).
  unfold rr_sched_enqueue. rewrite (proj2 (Z.eqb_neq t 0)) by done. erewrite bind_Done by reflexivity.
  erewrite bind_Done by (by eapply need_ctx_ok). erewrite bind_Done by (by apply ctx_of_ok).
  destruct (Z.eqb_spec (type c) TYPE_IDLE) as [Ti|Ti]; [exists 0, s; split_and!; try done; by constructor|]. cbv zeta.
  destruct (Z.ltb_spec MAX_PRIO (prio c)) as [Hp|Hp].
  { exists (- EINVAL), s. split_and!; try done. eapply enq_refused; [done|by left|done|apply changes_refl|]. intros u x. by left. }
  destruct (Z.leb_spec N (target_cpu me c)) as [Hn|Hn].
  { exists (- EINVAL), s. split_and!; try done. eapply enq_refused; [done|by right; left|done|apply changes_refl|]. intros u x. by left. }
  destruct (si_cpu _ _ _ _ _ _ I me r Hr) as [Hme _].
  assert (valid_cpu (target_cpu me c)) as Hv by (split; [apply target_cpu_nonneg; lia|lia]).
  destruct (maybe_save_spec cpuid valid_cpu N want skip skip' s me r t c (target_cpu me c) I Hr Hc) as
    (s1 & f & r1 & E1 & I1 & Er & _ & _ & Ec & Ecur & HC & Hsame & Hf & _); [done|done|].
  erewrite bind_Done by exact E1. pose proof (changes_tctx _ _ _ _ _ HC Hc) as Hc1.
  assert (state (f t c) = state c) as Es by (by destruct (Hf t c) as [->|[v ->]]).
  unfold __rr_sched_enqueue. erewrite bind_Done by (by apply ctx_of_ok). rewrite Es.
  destruct (decide (state c = TS_READY)) as [Hs|Hs]; [rewrite bool_decide_eq_true_2 by done|rewrite bool_decide_eq_false_2 by done].
  { exists (- EINVAL), s1. split; [done|]. split; [split; [done|]|split; [|by exists r1]].
    - eapply (idles_step s s1 f Id); [apply HC| |]; intros u x; destruct (Hf u x) as [->|[v ->]]; done.
    - eapply enq_refused; [done|by right; right|done|done|done]. }
  destruct (si_queue _ _ _ _ _ _ I _ Hv) as [q Hq].
  destruct (sched_inv_enqueue cpuid valid_cpu N want skip' s1 t (f t c) (target_cpu me c) (target_cpu me c) q) as (s2 & E2 & I2 & Er2 & Ec2 & HC2);
    [done|done|congruence|by rewrite Er|done|].
  exists 0, s2. split; [exact E2|]. pose proof (changes_trans _ _ _ _ _ HC HC2) as HC12. split; [split; [done|]|split].
  - eapply (idles_step s s2 _ Id); [apply HC12| |].
    + intros u x. simpl. unfold enqueued, at_thread. case_decide; destruct (Hf u x) as [->|[v ->]]; done.
    + intros u x Hx Hs' Hu. simpl. unfold enqueued, at_thread. case_decide as D; [subst u; congruence|].
      by destruct (Hf u x) as [->|[v ->]].
  - eapply enq_done; try done; [by rewrite Er2, Er|]. intros Em. by rewrite Ec2, Hsame.
  - exists r1. by rewrite Ec2.
Qed.

Lemma rr_dequeue_spec want skip s t c : rr_inv want skip s → tctx s t = Some c → state c = TS_READY →
  ∃ s', __rr_sched_dequeue t s = Done 0 s' ∧ rr_inv want skip s' ∧ ready s' = without t <$> ready s ∧ cpus s' = cpus s ∧
  changes s s' (at_thread t (with_state TS_INTER)).
Proof.
  intros [I Id] Hc Hs. unfold __rr_sched_dequeue. erewrite bind_Done by (by apply ctx_of_ok).
  rewrite bool_decide_eq_false_2 by (intros H; by apply H).
  destruct (sched_inv_dequeue cpuid valid_cpu N want skip s t c I Hc Hs) as (s' & E & I' & Er & Ec & HC).
  exists s'. split; [exact E|]. split_and!; try done. split; [done|].
  eapply (idles_step s s' _ Id); [apply HC| |]; intros u x; unfold at_thread; by case_decide.
Qed.

(** The first thread of the queue that may run, taken off it, or the idle
    thread. *)
Lemma rr_choose_spec want skip s me r q : rr_inv want skip s → cpus s !! me = Some r → ready s !! me = Some q →
  ∃ t s', rr_sched_choose_thread idle me s = Done t s' ∧ rr_inv want skip s' ∧ cpus s' = cpus s ∧
  ((t = idle me ∧ s' = s ∧ ∀ u, u ∈ q → ¬ runnable s (current r) u) ∨
   (∃ l1 l2, q = l1 ++ t :: l2 ∧ runnable s (current r) t ∧ (∀ u, u ∈ l1 → ¬ runnable s (current r) u) ∧
    ready s' = without t <$> ready s ∧ changes s s' (at_thread t (with_state TS_INTER)))).
Proof.
  intros I Hr Hq. unfold rr_sched_choose_thread. erewrite bind_Done by reflexivity. rewrite Hq.
  erewrite bind_Done by reflexivity. destruct q as [|h q0].
  { exists (idle me), s. split_and!; try done. left. split_and!; try done. by intros u ?%not_elem_of_nil. }
  pose proof (proj1 I) as J. destruct (find_next_runnable_spec s (current r) (h :: q0)) as (t & E & H).
  { apply (fo_null _ _ _ (si_fpu _ _ _ _ _ _ J)). }
  { intros t Ht. destruct (ro_in _ _ (si_ready _ _ _ _ _ _ J) me _ t Hq Ht) as (c & Hc & _). by exists c. }
  erewrite bind_Done. 2: { unfold find_next_runnable_thread_in_list. erewrite bind_Done by reflexivity. rewrite Hq.
    erewrite bind_Done by reflexivity. erewrite bind_Done by (by apply current_thread_ok). exact E. }
  destruct H as [[-> H]|(Nt & l1 & l2 & El & Hrun & H)]; [rewrite Z.eqb_refl|rewrite (proj2 (Z.eqb_neq t 0)) by done].
  { exists (idle me), s. split_and!; try done. by left. }
  assert (t ∈ h :: q0) as Ht by (rewrite El; apply elem_of_mid).
  destruct (ro_in _ _ (si_ready _ _ _ _ _ _ J) me _ t Hq Ht) as (c & Hc & Hs & _).
  destruct (rr_dequeue_spec want skip s t c I Hc Hs) as (s' & E' & I' & Er & Ec & HC).
  erewrite bind_Done by exact E'. rewrite Z.eqb_refl. cbn [negb]. erewrite bind_Done by reflexivity.
  exists t, s'. split_and!; try done. right. by exists l1, l2.
Qed.

Inductive suspend_result (me : Z) (r : cpu) s : bool → sstate A Z → Prop :=
| sus_none : current r = 0 → suspend_result me r s true s
| sus_waiting c : tctx s (current r) = Some c → state c = TS_WAITING → suspend_result me r s true s
| sus_keep c : tctx s (current r) = Some c → state c = TS_RUNNING → 0 < budget c → suspend_result me r s false s
| sus_queued c s0 s1 : tctx s (current r) = Some c → state c = TS_RUNNING → budget c ≤ 0 →
    changes s s0 (suspended (sc c) (current r)) → ready s0 = ready s → cpus s0 = cpus s →
    enqueue_result me (current r) (with_state TS_INTER (with_budget DEFAULT_BUDGET c)) s0 0 s1 → suspend_result me r s true s1.

(** The old thread is running and out of budget. *)
Lemma rr_suspend_run want s me r c : rr_inv want None s → cpus s !! me = Some r → tctx s (current r) = Some c →
  state c = TS_RUNNING → budget c ≤ 0 → sc c ≠ 0 →
  ∃ s0 n s1, changes s s0 (suspended (sc c) (current r)) ∧ ready s0 = ready s ∧ cpus s0 = cpus s ∧ rr_inv want None s0 ∧
  rr_suspend N me (current r) s = (BUG_ON (negb (n =? 0)) ;; ret true) s1 ∧
  (∃ r1, cpus s1 = <[me := r1]> (cpus s) ∧ current r1 = current r) ∧
  enqueue_result me (current r) (with_state TS_INTER (with_budget DEFAULT_BUDGET c)) s0 n s1 ∧
  rr_inv want (if target_cpu me c =? me then None else Some me) s1.
Proof.
  intros I Hr Hc Hs Hb Hsc. pose proof (proj1 I) as J.
  assert (current r ≠ 0) as N0 by (intros E0; rewrite E0, (fo_null _ _ _ (si_fpu _ _ _ _ _ _ J)) in Hc; congruence).
  destruct (suspend_run s (current r) c Hc Hsc) as (s' & s0 & Eb & Eu & HC & Er0 & Ec0).
  assert (rr_inv want None s0) as I0.
  { apply (rr_inv_same want s s0 me r r (suspended (sc c) (current r)) I Hr); [by rewrite Ec0, insert_id|by left|done|apply HC| |].
    - intros u x Hx. apply (suspended_state _ _ c); [done|congruence].
    - intros u x. destruct (suspended_private (sc c) (current r) u x) as (? & ? & ? & ? & ?). done. }
  pose proof (changes_tctx _ _ _ _ _ HC Hc) as Hc0. rewrite suspended_self in Hc0.
  set (c0 := with_state TS_INTER (with_budget DEFAULT_BUDGET c)) in *.
  assert (cpus s0 !! me = Some r) as Hr0 by (by rewrite Ec0).
  destruct (rr_enqueue_spec want None (if target_cpu me c =? me then None else Some me) s0 me r (current r) c0 I0 Hr0 Hc0)
    as (n & s1 & E1 & I1 & Res & Hc1).
  { change (target_cpu me c0) with (target_cpu me c). destruct (target_cpu me c =? me); [done|]. left. by split; [|left]. }
  rewrite Ec0 in Hc1. exists s0, n, s1. split_and!; try done. unfold rr_suspend. rewrite (proj2 (Z.eqb_neq _ 0)) by done.
  erewrite bind_Done by (by eapply need_ctx_ok). erewrite bind_Done by (by apply ctx_of_ok).
  rewrite (proj2 (Z.eqb_neq (sc c) 0)) by done. erewrite bind_Done by reflexivity.
  rewrite (bool_decide_eq_false_2 (state c ≠ TS_RUNNING)) by (intros H; by apply H). erewrite bind_Done by reflexivity.
  rewrite bool_decide_eq_true_2 by done. rewrite (proj2 (Z.ltb_ge 0 (budget c))) by done.
  erewrite bind_Done by exact Eb. erewrite bind_Done by exact Eu. by erewrite bind_Done by exact E1.
Qed.

Lemma rr_suspend_spec want s me r : rr_inv want None s → cpus s !! me = Some r →
  wph (rr_suspend N me (current r)) (λ go s1, suspend_result me r s go s1 ∧
    (∃ r1, cpus s1 = <[me := r1]> (cpus s) ∧ current r1 = current r) ∧
    (rr_inv want None s1 ∨ (rr_inv want (Some me) s1 ∧ ∃ c k q, tctx s1 (current r) = Some c ∧ type c ≠ TYPE_IDLE ∧
       k ≠ me ∧ ready s1 !! k = Some q ∧ current r ∈ q))) s.
Proof.
  intros I Hr. pose proof (proj1 I) as J. unfold rr_suspend.
  assert (∃ r', cpus s = <[me := r']> (cpus s) ∧ current r' = current r) as Same by (exists r; by rewrite insert_id).
  destruct (Z.eqb_spec (current r) 0) as [E0|N0].
  { eapply wph_Done; [reflexivity|]. split_and!; [by constructor|done|by left]. }
  destruct (si_cpu _ _ _ _ _ _ J me r Hr) as [Hme Hcur]. destruct (Hcur N0) as [c Hc].
  eapply wph_step; [by eapply need_ctx_ok|]. eapply wph_step; [by apply ctx_of_ok|].
  destruct (Z.eqb_spec (sc c) 0) as [Hsc|Hsc]; [done|]. eapply wph_step; [reflexivity|].
  destruct (decide (state c = TS_RUNNING)) as [Hs|Hs].
  2: { rewrite (bool_decide_eq_true_2 (state c ≠ TS_RUNNING)) by done.
    destruct (decide (state c = TS_WAITING)) as [Hw|Hw];
      [rewrite (bool_decide_eq_false_2 (state c ≠ TS_WAITING)) by (intros H; by apply H)|by rewrite (bool_decide_eq_true_2 (state c ≠ TS_WAITING)) by done].
    eapply wph_step; [reflexivity|]. rewrite bool_decide_eq_false_2 by done. eapply wph_Done; [reflexivity|].
    split_and!; [by eapply sus_waiting|done|by left]. }
  destruct (decide (0 < budget c)) as [Hb|Hb].
  { rewrite (bool_decide_eq_false_2 (state c ≠ TS_RUNNING)) by (intros H; by apply H). eapply wph_step; [reflexivity|].
    rewrite bool_decide_eq_true_2 by done. rewrite (proj2 (Z.ltb_lt 0 (budget c))) by done.
    eapply wph_Done; [reflexivity|]. split_and!; [by eapply sus_keep|done|by left]. }
  destruct (rr_suspend_run want s me r c I Hr Hc Hs ltac:(lia) Hsc) as (s0 & n & s1 & HC & Er0 & Ec0 & I0 & E & Hc1 & Res & I1).
  unfold rr_suspend in E. rewrite (proj2 (Z.eqb_neq (current r) 0)) in E by done.
  erewrite bind_Done in E by (by eapply need_ctx_ok). erewrite bind_Done in E by (by apply ctx_of_ok).
  rewrite (proj2 (Z.eqb_neq (sc c) 0)) in E by done. erewrite bind_Done in E by reflexivity. unfold wph. rewrite E. clear E.
  destruct (Z.eqb_spec n 0) as [->|Nn]; [|done]. simpl. split; [eapply sus_queued; eauto; lia|]. split; [exact Hc1|].
  destruct (Z.eqb_spec (target_cpu me c) me) as [Em|Nm]; [by left|].
  pose proof (changes_tctx _ _ _ _ _ HC Hc) as Hc0. rewrite suspended_self in Hc0.
  inversion Res as [Hty|?|s' q f Hty Hp Hns Hv Hq Hq' HC' Hf]; subst; [by left|].
  right. split; [done|]. pose proof (changes_tctx _ _ _ _ _ HC' Hc0) as Hc'. eexists _, _, _. split; [exact Hc'|].
  split; [|split; [exact Nm|split; [by rewrite Hq', lookup_insert_eq|set_solver]]].
  unfold enqueued, at_thread. rewrite decide_True by done. simpl.
  by destruct (Hf (current r) (with_state TS_INTER (with_budget DEFAULT_BUDGET c))) as [->|[v ->]].
Qed.

(** ** Scheduling *)

Lemma rr_sched_spec want s me r : rr_inv want None s → cpus s !! me = Some r →
  wph (rr_sched N idle me) (λ n s', n = 0 ∧ rr_inv want None s' ∧ ∃ r' c', cpus s' !! me = Some r' ∧
    tctx s' (current r') = Some c' ∧ state c' = TS_RUNNING) s.
Proof.
  intros I Hr. unfold rr_sched. eapply wph_step; [by apply current_thread_ok|]. apply wph_bind.
  eapply wph_mono; [by eapply rr_suspend_spec|]. intros go s1 (Res & (r1 & Hc1 & Ecur) & H1).
  assert (cpus s1 !! me = Some r1) as Hr1 by (rewrite Hc1; by rewrite lookup_insert_eq).
  destruct go.
  2: { inversion Res as [| |c Hc Hs Hb|]; subst. eapply wph_Done; [reflexivity|]. split; [done|]. split; [done|]. by exists r, c. }
  destruct (proj1 (si_cpu _ _ _ _ _ _ (proj1 I) me r Hr)) as [Hme1 Hme2].
  assert (∃ sk, rr_inv want sk s1 ∧ (sk = None ∨ (sk = Some me ∧ ∃ c k q, tctx s1 (current r) = Some c ∧ type c ≠ TYPE_IDLE ∧
       k ≠ me ∧ ready s1 !! k = Some q ∧ current r ∈ q))) as (sk & I1 & Hsk) by (destruct H1 as [?|[? ?]]; eauto 10).
  destruct (si_queue _ _ _ _ _ _ (proj1 I1) me) as [q Hq]; [done|].
  destruct (rr_choose_spec want sk s1 me r1 q I1 Hr1 Hq) as (t & s2 & E2 & I2 & Ec2 & H2).
  eapply wph_step; [exact E2|].
  assert (∃ c, tctx s2 t = Some c ∧ state c ≠ TS_READY) as (c & Hc & Hns).
  { destruct H2 as [(-> & -> & _)|(l1 & l2 & El & (x & Hx & _) & _ & _ & HC)].
    - destruct (proj2 I1 me) as (c & Hc & _ & Hs); [done|]. by exists c.
    - exists (with_state TS_INTER x). split; [|done]. rewrite (changes_tctx _ _ _ _ _ HC Hx). unfold at_thread. by rewrite decide_True. }
  assert (t ≠ 0) as Nt by (intros ->; rewrite (fo_null _ _ _ (si_fpu _ _ _ _ _ _ (proj1 I2))) in Hc; congruence).
  rewrite (proj2 (Z.eqb_neq t 0)) by done. eapply wph_step; [reflexivity|]. rewrite <- Ec2 in Hr1.
  assert (sk = None ∨ (sk = Some me ∧ t ≠ current r1)) as Hsk'.
  { destruct Hsk as [->|(-> & x & k & qk & Hx & Tx & Nk & Hqk & Hin)]; [by left|]. right. split; [done|]. rewrite Ecur. intros ->.
    destruct H2 as [(E & -> & _)|(l1 & l2 & El & _)].
    - destruct (proj2 I1 me) as (y & Hy & Ty & _); [done|]. rewrite <- E in Hy. congruence.
    - destruct (ro_in _ _ (si_ready _ _ _ _ _ _ (proj1 I1)) k qk _ Hqk Hin) as (y & Hy & _ & Ky).
      destruct (ro_in _ _ (si_ready _ _ _ _ _ _ (proj1 I1)) me q (current r) Hq) as (z & Hz & _ & Kz); [rewrite El; apply elem_of_mid|]. congruence. }
  destruct (sched_inv_switch cpuid valid_cpu N want keyed_cpuid sk s2 me r1 t c (proj1 I2) Hr1 Hc Nt Hns Hsk')
    as (s3 & r3 & c3 & E3 & I3 & Er3 & Hr3 & Hcur3 & Hc3 & Hs3 & HT3 & _).
  eapply wph_step; [exact E3|]. eapply wph_Done; [reflexivity|]. split; [done|]. split; [split; [done|]|exists r3, c3; by rewrite Hcur3].
  eapply (idles_step s2 s3 _ (proj2 I2)); [exact HT3| |]; intros u x; unfold switched; repeat case_decide; done.
Qed.

(** The policy keeps the promise. *)
Lemma enqueued_keeps f t n u x : fpu_only f → state (enqueued t n t (f t x)) = TS_READY ∧
  (u ≠ t → state (enqueued t n u (f u x)) = state x) ∧ type (enqueued t n u (f u x)) = type x ∧
  ec (enqueued t n u (f u x)) = ec x ∧ sc (enqueued t n u (f u x)) = sc x ∧ budget (enqueued t n u (f u x)) = budget x.
Proof.
  intros Hf. unfold enqueued, at_thread. rewrite (decide_True (P := t = t)) by done. split; [done|].
  destruct (Hf u x) as [->|[v ->]]; by case_decide.
Qed.

#[export] Instance rr_scheduler want : Scheduler (rr N idle) (rr_inv want None).
Proof.
  split.
  - intros s [I _]. apply (fo_null _ _ _ (si_fpu _ _ _ _ _ _ I)).
  - intros s me r [I _] Hr. by apply (si_cpu _ _ _ _ _ _ I me r).
  - intros s s' me r r' f I Hr Ec Hr' Er HT Hs Hf. apply (rr_inv_same want s s' me r r' f I Hr); try done.
    intros u x. by destruct (Hf u x) as (? & ? & ? & ? & ?).
  - intros s me r t c I Hr Hc Hs Hcur Ht. destruct (rr_enqueue_spec want None None s me r t c I Hr Hc) as (n & s' & E & I' & Res & Hc').
    { destruct Hcur as [Hcur|Haff]; [destruct (_ =? _); [done|by right]|]. unfold target_cpu. rewrite Haff, !Z.eqb_refl. done. }
    exists n, s'. split_and!; try done. intros ->. inversion Res as [|?|s1 q f Hty Hp Hns Hv Hq Hq' HC Hf]; [done|]. subst.
    exists (λ u x, enqueued t (target_cpu me c) u (f u x)). split; [done|].
    split; [by apply enqueued_keeps|split; intros u x; by apply enqueued_keeps].
  - intros s me r t c s' [I Id] Hr Hc Hs E.
    assert (t ≠ 0) as Nt by (intros ->; rewrite (fo_null _ _ _ (si_fpu _ _ _ _ _ _ I)) in Hc; congruence).
    destruct (sched_inv_switch cpuid valid_cpu N want keyed_cpuid None s me r t c I Hr Hc Nt Hs (or_introl eq_refl))
      as (s2 & r2 & c2 & E2 & I2 & _ & _ & _ & _ & _ & HT & _). rewrite E in E2. injection E2 as <-. split; [done|].
    eapply (idles_step s s' _ Id); [exact HT| |]; intros u x; unfold switched; repeat case_decide; done.
Qed.

(** ** Fairness

    CPU [me] runs [cur] and its queue is [q]; every thread of the queue has its
    kernel stack free, may be queued again on this CPU and has an address space if
    it needs one. *)

Definition fit (me : Z) (c : thread_ctx) : Prop :=
  sc c ≠ 0 ∧ (type c = TYPE_IDLE ∨ (prio c ≤ MAX_PRIO ∧ target_cpu me c = me)).

Record calm (want : Z → Z) (me cur : Z) (q : list Z) s : Prop := {
  ca_inv : rr_inv want None s;
  ca_cpu : ∃ r, cpus s !! me = Some r ∧ current r = cur;
  ca_queue : ready s !! me = Some q;
  ca_run : ∃ c, tctx s cur = Some c ∧ state c = TS_RUNNING ∧ fit me c;
  ca_free : ∀ t, t ∈ q → ∃ c, tctx s t = Some c ∧ fit me c ∧ kernel_stack_state c = KS_FREE;
  ca_vm : ∀ t, t ∈ cur :: q → 0 < t ∧ ∃ v c, tvm s t = Some v ∧ tctx s t = Some c ∧ (has_vmspace c = true → v ≠ 0)
}.

(** The thread goes to the end of the queue, unless it is an idle thread. *)
Definition back (t : Z) (c : thread_ctx) : list Z := if type c =? TYPE_IDLE then [] else [t].

Lemma elem_of_back t c u : u ∈ back t c → u = t.
Proof. unfold back. destruct (_ =? _); [by intros ?%not_elem_of_nil|by intros ?%list_elem_of_singleton]. Qed.

(** A change that keeps a thread fit and its kernel stack as it is. *)
Definition light (me : Z) (x y : thread_ctx) : Prop := (fit me x → fit me y) ∧ kernel_stack_state y = kernel_stack_state x.

Lemma light_suspended me p old u x : u ≠ old → light me x (suspended p old u x).
Proof.
  intros Nu. unfold suspended, at_thread. rewrite decide_False by done. by destruct (charged_cases p DEFAULT_BUDGET x) as [-> | ->].
Qed.

Lemma rr_suspend_calm want me cur q s c : calm want me cur q s → tctx s cur = Some c → budget c ≤ 0 →
  ∃ s1 r f, rr_suspend N me cur s = Done true s1 ∧ rr_inv want None s1 ∧ cpus s1 = cpus s ∧ cpus s !! me = Some r ∧
  current r = cur ∧ ready s1 !! me = Some (q ++ back cur c) ∧ changes s s1 f ∧ (∀ u x, u ≠ cur → light me x (f u x)) ∧
  fit me (f cur c) ∧ ∀ u x, type (f u x) = type x.
Proof.
  intros [I (r & Hr & <-) Hq (c' & Hc' & Hs & F) _ _] Hc Hb. rewrite Hc in Hc'. injection Hc' as <-. destruct F as [Hsc F].
  destruct (rr_suspend_run want s me r c I Hr Hc Hs Hb Hsc) as (s0 & n & s1 & HC & Er0 & Ec0 & I0 & E & (r1 & Hc1 & _) & Res & I1).
  set (c0 := with_state TS_INTER (with_budget DEFAULT_BUDGET c)) in *.
  assert (suspended (sc c) (current r) (current r) c = c0) as Es by apply suspended_self.
  destruct (Z.eqb_spec (type c) TYPE_IDLE) as [Ti|Ti].
  - inversion Res as [Hty|?|? ? ? Hty]; subst; [|done|done]. exists s1, r, (suspended (sc c) (current r)). split; [exact E|].
    unfold back. rewrite Ti, app_nil_r, Er0. split_and!; try done.
    + intros u x Nu. by apply light_suspended.
    + rewrite Es. split; [done|by left].
    + intros u x. apply suspended_private.
  - destruct F as [?|[Hp Ht]]; [done|]. inversion Res as [Hty|s' f Hty Hbad|s' q' f Hty _ _ Hv Hq' Er1 HC1 Hf Hcp]; subst; [done| |].
    { destruct Hbad as [Hbad|[Hbad|Hbad]]; [simpl in Hbad; lia| |done]. change (N ≤ target_cpu me c) in Hbad.
      destruct (si_cpu _ _ _ _ _ _ (proj1 I) me r Hr) as [? _]. lia. }
    change (target_cpu me c0) with (target_cpu me c) in *. rewrite Ht in *. rewrite Er0, Hq in Hq'. injection Hq' as <-.
    exists s1, r, (λ u x, enqueued (current r) me u (f u (suspended (sc c) (current r) u x))). rewrite Z.eqb_refl in I1.
    split_and!; try done; [by rewrite Hcp| |exact (changes_trans _ _ _ _ _ HC HC1)| | |].
    + unfold back. rewrite (proj2 (Z.eqb_neq _ _)) by done. by rewrite Er1, lookup_insert_eq.
    + intros u x Nu. unfold enqueued, at_thread. rewrite decide_False by done.
      destruct (light_suspended me (sc c) (current r) u x Nu). split; by destruct (Hf u (suspended (sc c) (current r) u x)) as [->|[v ->]].
    + rewrite Es. unfold enqueued, at_thread. rewrite decide_True by done. split; destruct (Hf (current r) c0) as [->|[v ->]]; try done; by right.
    + intros u x. destruct (suspended_private (sc c) (current r) u x) as (_ & _ & Ty & _). rewrite <- Ty. unfold enqueued, at_thread.
      destruct (Hf u (suspended (sc c) (current r) u x)) as [->|[v ->]]; by case_decide.
Qed.

Lemma fit_switched me t r u c : fit me (switched me t r u c) = fit me c.
Proof. unfold switched. by repeat case_decide. Qed.

Lemma calm_head want me cur h q s : calm want me cur (h :: q) s →
  h ≠ cur ∧ NoDup (h :: q) ∧ (cur ∉ h :: q) ∧ h ≠ 0 ∧ cur ≠ 0.
Proof.
  intros [I _ Hq (c & Hc & Hs & _) _ Hv]. pose proof (si_ready _ _ _ _ _ _ (proj1 I)) as R.
  assert (cur ∉ h :: q) as Out by (intros Hin; destruct (ro_in _ _ R me _ cur Hq Hin) as (x & Hx & Hsx & _); congruence).
  destruct (Hv h) as [Hh _]; [set_solver|]. destruct (Hv cur) as [Hcur _]; [set_solver|].
  split; [intros ->; set_solver|]. split; [by eapply ro_nodup|]. split; [done|lia].
Qed.

(** The head of the queue is chosen and leaves it. *)
Lemma rr_choose_head want s me r h q c : rr_inv want None s → cpus s !! me = Some r → ready s !! me = Some (h :: q) →
  tctx s h = Some c → kernel_stack_state c = KS_FREE →
  ∃ s', rr_sched_choose_thread idle me s = Done h s' ∧ rr_inv want None s' ∧ cpus s' = cpus s ∧
  ready s' !! me = Some q ∧ changes s s' (at_thread h (with_state TS_INTER)).
Proof.
  intros I Hr Hq Hc Hk. assert (runnable s (current r) h) as Hrun by (exists c; split; [done|by left]).
  destruct (rr_choose_spec want None s me r (h :: q) I Hr Hq) as (t & s' & E & I' & Ec & H).
  destruct H as [(_ & _ & H)|(l1 & l2 & El & _ & H & Er & HC)]; [by destruct (H h); [set_solver|]|].
  destruct l1 as [|u l1]; [|injection El as -> ->; by destruct (H u); [set_solver|]]. injection El as -> ->.
  exists s'. split_and!; try done. rewrite Er, lookup_fmap, Hq. simpl. f_equal.
  pose proof (ro_nodup _ _ (si_ready _ _ _ _ _ _ (proj1 I)) me _ Hq) as [Nin _]%NoDup_cons.
  unfold without. rewrite filter_cons_False by (intros Hx; by apply Hx). clear -Nin. induction l2 as [|x l IH]; [done|].
  rewrite filter_cons_True by (intros ->; set_solver). by rewrite IH by set_solver.
Qed.

(** A switch from [cur], out of budget, to the head of the queue. *)
Lemma rr_sched_calm want me cur h q s c : calm want me cur (h :: q) s → tctx s cur = Some c → budget c ≤ 0 →
  ∃ s' r', rr_sched N idle me s = Done 0 s' ∧ rr_inv want None s' ∧ cpus s' !! me = Some r' ∧ current r' = h ∧
  ready s' !! me = Some (q ++ back cur c) ∧ tprev s' h = Some cur ∧ (∀ u, tvm s' u = tvm s u) ∧
  ∀ u x, tctx s u = Some x → fit me x → ∃ x', tctx s' u = Some x' ∧ fit me x' ∧ type x' = type x ∧ (u = h → state x' = TS_RUNNING) ∧
    (u ≠ h → u ≠ cur → kernel_stack_state x' = kernel_stack_state x).
Proof.
  intros H Hc Hb. destruct (calm_head _ _ _ _ _ _ H) as (Nhc & Hnd & Nin & Nh & Ncur).
  destruct (rr_suspend_calm want me cur (h :: q) s c H Hc Hb) as (s1 & r & f & E1 & I1 & Ec1 & Hr & Hcur & Eq1 & HC1 & Hf & Fc & Ty).
  destruct H as [I _ Hq _ Hfree _]. destruct (Hfree h) as (ch & Hch & Fh & Kh); [set_solver|].
  destruct (Hf h ch Nhc) as [Fh1 Kh1].
  destruct (rr_choose_head want s1 me r h (q ++ back cur c) (f h ch)) as (s2 & E2 & I2 & Ec2 & Eq2 & HC2);
    [done|by rewrite Ec1|done|by apply (changes_tctx _ _ _ _ _ HC1)|congruence|].
  pose proof (changes_trans _ _ _ _ _ HC1 HC2) as HC. pose proof (changes_tctx _ _ _ _ _ HC Hch) as Hch2. simpl in Hch2.
  unfold at_thread in Hch2. rewrite decide_True in Hch2 by done.
  destruct (switch_to_thread_spec s2 me r h _ ltac:(by rewrite Ec2, Ec1) Hch2 Nh) as (s3 & E3 & _ & Er3 & _ & Ec3 & HT3 & HP3 & HV3);
    [done|intros _; rewrite Hcur, (changes_tctx _ _ _ _ _ HC Hc); by eexists|].
  assert (rr_sched N idle me s = Done 0 s3) as E.
  { unfold rr_sched. erewrite bind_Done by (by apply current_thread_ok). rewrite Hcur. erewrite bind_Done by exact E1.
    cbv iota. erewrite bind_Done by exact E2. rewrite (proj2 (Z.eqb_neq h 0)) by done. erewrite bind_Done by reflexivity.
    by erewrite bind_Done by exact E3. }
  pose proof (rr_sched_spec want s me r I Hr) as W. unfold wph in W. rewrite E in W. destruct W as (_ & I3 & _).
  exists s3, (switched_cpu h (with_state TS_INTER (f h ch)) r). split_and!; try done.
  - by rewrite Ec3, lookup_insert_eq.
  - unfold switched_cpu. case_decide as D; [congruence|done].
  - by rewrite Er3.
  - rewrite HP3. rewrite decide_True by done. rewrite decide_False by congruence. by rewrite Hcur.
  - intros u. rewrite HV3. apply HC.
  - intros u x Hx Fx. exists (switched me h r u (at_thread h (with_state TS_INTER) u (f u x))).
    rewrite HT3, (changes_tctx _ _ _ _ _ HC Hx). split; [done|]. rewrite fit_switched. split; [|split; [|split]].
    + destruct (decide (u = cur)) as [->|Nu].
      * rewrite Hc in Hx. injection Hx as <-. unfold at_thread. by rewrite decide_False by congruence.
      * destruct (Hf u x Nu) as [F _]. unfold at_thread. destruct (decide (u = h)); exact (F Fx).
    + rewrite <- (Ty u x). unfold switched, at_thread. by repeat case_decide.
    + intros ->. unfold switched. rewrite !(decide_True (P := h = h)) by done. by case_decide.
    + intros Nuh Nuc. destruct (Hf u x Nuc) as [_ K]. unfold switched, at_thread.
      rewrite !(decide_False (P := u = h)) by done. by repeat case_decide.
Qed.

Lemma calm_budget want me cur q s c : calm want me cur q s → tctx s cur = Some c →
  ∃ s', set_budget cur 0 s = Done tt s' ∧ calm want me cur q s' ∧ tctx s' cur = Some (with_budget 0 c) ∧ cpus s' = cpus s.
Proof.
  intros [I (r & Hr & Hcur) Hq (c' & Hc' & Hs & F) Hfree Hv] Hc. rewrite Hc in Hc'. injection Hc' as <-.
  destruct (set_budget_ok s cur c 0 Hc (proj1 F)) as (s' & E & HC & Er & Ec & _). exists s'.
  pose proof (changes_tctx _ _ _ _ _ HC Hc) as Hc'. cbv beta in Hc'; rewrite charged_self in Hc'. split; [done|]. split; [|done].
  assert (∀ x, charged (sc c) 0 x = x ∨ charged (sc c) 0 x = with_budget 0 x) as HA by apply charged_cases. split.
  - apply (rr_inv_same want s s' me r r (λ _, charged (sc c) 0) I Hr); [by rewrite Ec, insert_id|by left|done|apply HC|..];
      intros u x; by destruct (HA x) as [-> | ->].
  - exists r. by rewrite Ec.
  - by rewrite Er.
  - by exists (with_budget 0 c).
  - intros t Ht. destruct (Hfree t Ht) as (x & Hx & Fx & Kx). eexists. split; [exact (changes_tctx _ _ _ _ _ HC Hx)|].
    by destruct (HA x) as [-> | ->].
  - intros t Ht. destruct (Hv t Ht) as (? & v & x & Hv' & Hx & Hh). split; [done|]. destruct HC as (HT & HP & HV). eexists v, _. rewrite HV.
    split_and!; [done|by rewrite HT, Hx|]. by destruct (HA x) as [-> | ->].
Qed.

(** One yield: the head of the queue runs and the thread that yields goes to the
    end. *)
Lemma rr_yield_rotate want me cur h q s c : calm want me cur (h :: q) s → tctx s cur = Some c →
  ∃ s', sys_yield N (rr N idle) me s = Away s' ∧ calm want me h (q ++ back cur c) s'.
Proof.
  intros H Hc. destruct (calm_head _ _ _ _ _ _ H) as (Nhc & [Nhq _]%NoDup_cons & Nin & Nh & Ncur).
  destruct (calm_budget want me cur (h :: q) s c H Hc) as (s0 & Eb & H0 & Hc0 & _).
  destruct (rr_sched_calm want me cur h q s0 _ H0 Hc0) as (s1 & r1 & E1 & I1 & Hr1 & Hcur & Hq1 & Hp1 & Hv1 & HT1); [done|].
  change (back cur (with_budget 0 c)) with (back cur c) in Hq1. destruct H as [_ (r & Hr & Er) _ _ _ _].
  destruct H0 as [I0 _ _ (c0 & Hc0' & _ & Fc) Hfree Hv]. destruct (Hfree h) as (xh & Hxh & Fh & _); [set_solver|].
  destruct (HT1 h xh Hxh Fh) as (xh1 & Hxh1 & Fh1 & Th1 & Hs1 & _). destruct (HT1 cur c0 Hc0' Fc) as (xc1 & Hxc1 & Fc1 & _).
  destruct (Hv h) as (_ & v & xh' & Hvh & Hxh' & Nv); [set_solver|]. rewrite Hxh in Hxh'. injection Hxh' as <-. destruct (Hv cur) as [Pcur _]; [set_solver|].
  assert (no_prev cur = false) as Np by (unfold no_prev, THREAD_ITSELF; apply orb_false_intro; apply Z.eqb_neq; lia).
  destruct (eret_spec N s1 me r1 xh1 cur v) as (s2 & E2 & Er2 & _ & Ec2 & HC2); try (rewrite ?Hcur; done);
    [by apply (si_cpu _ _ _ _ _ _ (proj1 I1) me r1)|by rewrite Hcur, Hv1|unfold has_vmspace in *; by rewrite Th1|].
  rewrite Np in HC2. set (r2 := if negb (cur =? THREAD_ITSELF) && has_vmspace xh1 then with_ttbr0 v r1 else r1) in Ec2. assert (r2 = r1 ∨ ∃ v, r2 = with_ttbr0 v r1) as Hr2
    by (unfold r2; destruct (_ && _); [right; by eexists|by left]).
  exists s2. split.
  { unfold sys_yield. erewrite bind_Done by (by apply current_thread_ok). rewrite Er, (proj2 (Z.eqb_neq cur 0)) by done.
    erewrite bind_Done by reflexivity. erewrite bind_Done by exact Eb. unfold sched. simpl. by erewrite bind_Done by exact E1. }
  assert (∀ u x, at_thread cur (with_stack_state KS_FREE) u x = x ∨ at_thread cur (with_stack_state KS_FREE) u x = with_stack_state KS_FREE x) as HA
    by (intros u x; unfold at_thread; case_decide; [by right|by left]).
  split; try done.
  - apply (rr_inv_same want s1 s2 me r1 r2 _ I1 Hr1 Ec2 Hr2 Er2 (proj1 HC2)); intros u x; by destruct (HA u x) as [-> | ->].
  - exists r2. rewrite Ec2, lookup_insert_eq. split; [done|]. destruct Hr2 as [->|[? ->]]; done.
  - by rewrite Er2.
  - eexists. split; [exact (changes_tctx _ _ _ _ _ HC2 Hxh1)|]. specialize (Hs1 eq_refl). by destruct (HA h xh1) as [-> | ->].
  - intros t [Ht|Ht]%elem_of_app.
    + destruct (Hfree t) as (x & Hx & Fx & Kx); [set_solver|]. destruct (HT1 t x Hx Fx) as (x1 & Hx1 & Fx1 & _ & _ & K1).
      eexists. split; [exact (changes_tctx _ _ _ _ _ HC2 Hx1)|]. destruct (HA t x1) as [-> | ->]; [|done]. split; [done|].
      rewrite K1; [done|intros ->; done|intros ->; set_solver].
    + apply elem_of_back in Ht as ->.
      eexists. split; [exact (changes_tctx _ _ _ _ _ HC2 Hxc1)|]. unfold at_thread. by rewrite decide_True.
  - intros t Ht. assert (t ∈ cur :: h :: q) as Ht'.
    { apply elem_of_cons in Ht as [->|[Ht|Ht%elem_of_back]%elem_of_app]; [by right; left|by right; right|subst t; by left]. }
    destruct (Hv t Ht') as (P & w & x & Hw & Hx & Nw). assert (fit me x) as Fx.
    { apply elem_of_cons in Ht' as [->|Ht']; [congruence|]. destruct (Hfree t Ht') as (y & Hy & Fy & _). congruence. }
    destruct (HT1 t x Hx Fx) as (x1 & Hx1 & _ & T1 & _). split; [done|]. rewrite (proj2 (proj2 HC2)), Hv1. eexists w, _.
    split_and!; [done|exact (changes_tctx _ _ _ _ _ HC2 Hx1)|]. unfold has_vmspace in *. by destruct (HA t x1) as [-> | ->]; simpl; rewrite T1.
Qed.

(** [n] yields in a row on CPU [me]. *)
Fixpoint yields (n : nat) (me : Z) s : option (sstate A Z) :=
  match n with
  | O => Some s
  | S n' => match sys_yield N (rr N idle) me s with Away s' => yields n' me s' | _ => None end
  end.

Lemma rr_fair_spec want me n : ∀ cur q s t, calm want me cur q s → q !! n = Some t →
  ∃ s' q', yields (S n) me s = Some s' ∧ calm want me t q' s'.
Proof.
  induction n as [|n IH]; intros cur q s t H Hn; (destruct q as [|h q]; [done|]);
    destruct (ca_run _ _ _ _ _ H) as (c & Hc & _); destruct (rr_yield_rotate want me cur h q s c H Hc) as (s' & E & H').
  - injection Hn as <-. exists s', (q ++ back cur c). simpl. by rewrite E.
  - destruct (IH h (q ++ back cur c) s' t H') as (s2 & q2 & E2 & H2).
    + simpl in Hn. by apply lookup_app_l_Some.
    + exists s2, q2. split; [|done]. cbn [yields]. rewrite E. exact E2.
Qed.

(** C22: [rr_sched] keeps the invariant of the scheduler (each ready thread on
    exactly the queue of its CPU, FPU contents of every thread kept, idle threads
    off the queues), returns 0 and leaves the CPU with a running current thread;
    it never dereferences a bad pointer nor corrupts a queue: otherwise it stops
    at a [BUG_ON]. *)
Theorem rr_sched_ok want s me r : rr_inv want None s → cpus s !! me = Some r →
  rr_sched N idle me s = Halt ∨
  ∃ s' r' c', rr_sched N idle me s = Done 0 s' ∧ rr_inv want None s' ∧ cpus s' !! me = Some r' ∧
    tctx s' (current r') = Some c' ∧ state c' = TS_RUNNING.
Proof.
  intros I Hr. pose proof (rr_sched_spec want s me r I Hr) as [H|(n & s' & E & -> & I' & r' & c' & H)]%wph_or; [by left|].
  right. exists s', r', c'. by destruct H as (? & ? & ?).
Qed.

(** [rr_sched_enqueue] returns 0 and changes nothing for an idle thread,
    [-EINVAL] for a thread of too high a priority, of a CPU that is not there or
    that is ready already, and else appends the thread to the queue of its CPU;
    the invariant holds in every case. *)
Theorem rr_enqueue_ok want s me r t c : rr_inv want None s → cpus s !! me = Some r → tctx s t = Some c → current r ≠ t →
  ∃ n s', rr_sched_enqueue N me t s = Done n s' ∧ rr_inv want None s' ∧ enqueue_result me t c s n s'.
Proof.
  intros I Hr Hc Hcur. destruct (rr_enqueue_spec want None None s me r t c I Hr Hc) as (n & s' & E & I' & Res & _).
  - destruct (_ =? _); [done|]. by right.
  - by exists n, s'.
Qed.

(** C23: fairness.  On a CPU whose queued threads may all run, the thread at
    position [n] of the ready queue is the one that runs after [n + 1] yields:
    no thread is overtaken and none is lost. *)
Theorem rr_fair want me cur q s n t : calm want me cur q s → q !! n = Some t →
  ∃ s' q', yields (S n) me s = Some s' ∧ calm want me t q' s'.
Proof. apply rr_fair_spec. Qed.

End spec.

(** ** The small system under this policy *)

Module RRDemo.

Definition idle (d : Z) : Z := d + 1.
Definition s0 : sstate Z Z := Demo.state0 (list_to_map [(0, [20; 30]); (1, [])]).

Lemma demo_rr_inv : rr_inv 2 idle Demo.want None s0.
Proof.
  split; [split|].
  - apply ready_ok_check.
    + unfold s0, tctx. simpl ready. simpl threads. check_map.
    + unfold s0. simpl ready. simpl threads. check_map.
  - apply Demo.demo_fpu.
  - intros k Hk. assert (k = 0 ∨ k = 1) as [-> | ->] by (unfold valid_cpu in Hk; lia); by eexists.
  - assert (∀ d r, cpus s0 !! d = Some r → (0 ≤ d < 2) ∧ (current r ≠ 0 → is_Some (tctx s0 (current r)))) as H; [|exact H].
    unfold s0. simpl cpus. check_map.
  - intros d Hd. assert (d = 0 ∨ d = 1) as [-> | ->] by lia; by eexists.
Qed.

Lemma demo_calm : calm 2 idle Demo.want 0 10 [20; 30] s0.
Proof.
  split.
  - apply demo_rr_inv.
  - by eexists.
  - done.
  - eexists. split; [reflexivity|]. split; [reflexivity|]. split; [done|]. by right.
  - intros t Ht. assert (t = 20 ∨ t = 30) as [-> | ->] by set_solver; (eexists; split; [reflexivity|]; split; [|done]; split; [done|by right]).
  - intros t Ht. assert (t = 10 ∨ t = 20 ∨ t = 30) as [->|[-> | ->]] by set_solver; (split; [done|]; by eexists _, _).
Qed.

End RRDemo.

Lemma rr_sched_ok_witness : rr_sched 2 RRDemo.idle 0 RRDemo.s0 = Halt ∨
  ∃ s', rr_sched 2 RRDemo.idle 0 RRDemo.s0 = Done 0 s' ∧ rr_inv 2 RRDemo.idle Demo.want None s'.
Proof.
  destruct (rr_sched_ok 2 RRDemo.idle Demo.want RRDemo.s0 0 (mk_cpu 10 20 true true 7 44 100) RRDemo.demo_rr_inv eq_refl)
    as [H|(s' & r' & c' & E & I & _)]; [left; exact H|right; exists s'; split; [exact E|exact I]].
Defined.

Lemma rr_enqueue_ok_witness : ∃ n s', rr_sched_enqueue 2 0 20 RRDemo.s0 = Done n s' ∧ rr_inv 2 RRDemo.idle Demo.want None s'.
Proof.
  destruct (rr_enqueue_ok 2 RRDemo.idle Demo.want RRDemo.s0 0 (mk_cpu 10 20 true true 7 44 100) 20 (Demo.user TS_READY 0 KS_FREE)
    RRDemo.demo_rr_inv eq_refl eq_refl ltac:(discriminate)) as (n & s' & E & I & _). exists n, s'. split; [exact E|exact I].
Defined.

Lemma rr_fair_witness : ∃ s' q', yields 2 RRDemo.idle 2 0 RRDemo.s0 = Some s' ∧ calm 2 RRDemo.idle Demo.want 0 30 q' s'.
Proof. exact (rr_fair 2 RRDemo.idle Demo.want 0 10 [20; 30] RRDemo.s0 1 30 RRDemo.demo_calm eq_refl). Defined.

(** ** Runs that go wrong *)

(** Thread 40 blocks on CPU 1 and is woken on CPU 0: its FPU contents, still in
    the registers of CPU 1, are not saved, and it runs on CPU 0 with those of its
    last save. *)
Definition blocked : sstate Z Z :=
  mk_sstate 1048576
    (<[40 := mk_thread (Some (mk_ctx ∅ 1000 2000 3 0 3000 1 TYPE_USER TS_WAITING 10 NO_AFF 1 KS_FREE)) 0 100 80]> Demo.demo_threads)
    (list_to_map [(0, mk_cpu 1 0 true true 0 0 0); (1, mk_cpu 2 40 true true 77 0 0)])
    (list_to_map [(0, []); (1, [])]) ∅.

Example rr_fpu_lost : ∃ s, (rr_sched_enqueue 2 0 40 ;; t <- rr_sched_choose_thread RRDemo.idle 0 ;; switch_to_thread 0 t ;;
    change_fpu_owner 0) blocked = Done tt s ∧
  (current <$> cpus s !! 0) = Some 40 ∧ (fpu_regs <$> cpus s !! 0) = Some 3 ∧ (fpu_regs <$> cpus s !! 1) = Some 77 ∧
  (fpu_owner <$> cpus s !! 1) = Some 40.
Proof. eexists. split_and!; vm_compute; reflexivity. Qed.

(** Thread 10 came after 20 on CPU 0; 20 has moved to CPU 1, where it runs.  An
    interrupt that leaves 10 some budget frees the kernel stack of 20. *)
Definition moved : sstate Z Z :=
  mk_sstate 1048576
    (<[10 := mk_thread (Some (Demo.user TS_RUNNING 5 KS_LOCKED)) 20 100 80]>
     (<[20 := mk_thread (Some (mk_ctx ∅ 1000 2000 0 0 3000 1 TYPE_USER TS_RUNNING 10 NO_AFF 1 KS_LOCKED)) 2 100 80]> Demo.demo_threads))
    (list_to_map [(0, mk_cpu 10 0 true true 0 0 100); (1, mk_cpu 20 0 true true 0 0 100)])
    (list_to_map [(0, []); (1, [])]) ∅.

Example rr_stale_prev : ∃ s c, handle_irq 2 (rr 2 RRDemo.idle) (ret tt) 0 moved = Away s ∧
  (current <$> cpus s !! 1) = Some 20 ∧ tctx s 20 = Some c ∧ state c = TS_RUNNING ∧ kernel_stack_state c = KS_FREE.
Proof. eexists _, _. split_and!; vm_compute; reflexivity. Qed.

End RR.
