(* ===== verification/PolicyPBRR.v ===== *)
(** * The priority-based round-robin policy (kernel/sched/policy_pbrr.c)

    One ready queue per CPU and priority: [ready s !! (c, p)] is
    [pbrr_ready_queue[c][p]].  The idle threads are on the queues of the lowest
    priority. *)

From S2P Require Import Prelude Allocator Sched PolicyRR.

Module PBRR.

Import Allocator Sched.

Section pbrr.
Context {A : Type} `{!Allocator A}.
Context (PLAT_CPU_NUM : Z) (idle : Z → Z).
Context (SIZEOF_CAP_GROUP : Z) (idle_thread_routine : Z).

Abbreviation MS := (M (sstate A (Z * Z))).

Definition __pbrr_sched_enqueue (t cpu : Z) : MS Z :=
  c <- ctx_of t ;;
  let pri := prio c in
  if bool_decide (state c = TS_READY) then ret (- EINVAL)
  else
    upd_ctx t (with_cpuid cpu) ;;
    upd_ctx t (with_state TS_READY) ;;
    list_append t (cpu, pri) ;;
    ret 0.

(** The CPU number is not compared with [PLAT_CPU_NUM]. *)
Definition pbrr_sched_enqueue (me t : Z) : MS Z :=
  BUG_ON (t =? 0) ;;
  need_ctx t ;;
  c <- ctx_of t ;;
  let cpuid := RR.target_cpu me c in
  if MAX_PRIO <? prio c then ret (- EINVAL)
  else
    (if negb (cpuid =? me) then save_and_release_fpu me t else ret tt) ;;
    __pbrr_sched_enqueue t cpuid.

Definition __pbrr_sched_dequeue (t : Z) : MS Z :=
  c <- ctx_of t ;;
  if bool_decide (state c ≠ TS_READY) then ret (- EINVAL)
  else list_del t ;; upd_ctx t (with_state TS_INTER) ;; ret 0.

Definition pbrr_sched_dequeue (t : Z) : MS Z :=
  BUG_ON (t =? 0) ;;
  need_ctx t ;;
  __pbrr_sched_dequeue t.

(** The loop over the priorities from [i - 1] down. *)
Fixpoint choose_from (i : nat) (me : Z) : MS Z :=
  match i with
  | O => halt
  | S j =>
      s <- get ;;
      q <- need (ready s !! (me, Z.of_nat j)) ;;
      match q with
      | [] => choose_from j me
      | _ =>
          t <- find_next_runnable_thread_in_list me (me, Z.of_nat j) ;;
          if t =? 0 then choose_from j me
          else
            r <- __pbrr_sched_dequeue t ;;
            BUG_ON (negb (r =? 0)) ;;
            ret t
      end
  end.

Definition pbrr_sched_choose_thread (me : Z) : MS Z := choose_from (Z.to_nat PRIO_NUM) me.

Definition pbrr_sched_refill_budget (t n : Z) : MS unit := set_budget t n.

(** The part on the old thread: false when it goes on running.  The context is
    read before it is tested. *)
Definition pbrr_suspend (me old : Z) : MS bool :=
  if old =? 0 then ret true
  else
    c <- ctx_of old ;;
    BUG_ON (sc c =? 0) ;;
    BUG_ON (bool_decide (state c ≠ TS_RUNNING) && bool_decide (state c ≠ TS_WAITING)) ;;
    if bool_decide (state c = TS_RUNNING) then
      if negb (budget c =? 0) then ret false
      else
        pbrr_sched_refill_budget old DEFAULT_BUDGET ;;
        upd_ctx old (with_state TS_INTER) ;;
        r <- pbrr_sched_enqueue me old ;;
        BUG_ON (negb (r =? 0)) ;;
        ret true
    else ret true.

Definition pbrr_sched (me : Z) : MS Z :=
  old <- current_thread me ;;
  go <- pbrr_suspend me old ;;
  if go then
    new <- pbrr_sched_choose_thread me ;;
    BUG_ON (new =? 0) ;;
    switch_to_thread me new ;;
    ret 0
  else ret 0.

Fixpoint init_prios (n : nat) (i j : Z) : MS unit :=
  match n with
  | O => ret tt
  | S n' => modify (with_ready (<[(i, j) := []]>)) ;; init_prios n' i (j + 1)
  end.
Fixpoint init_queues (n : nat) (i : Z) : MS unit :=
  match n with
  | O => ret tt
  | S n' => upd_cpu i (with_current 0) ;; init_prios (Z.to_nat PRIO_NUM) i 0 ;; init_queues n' (i + 1)
  end.

Definition set_ctx (t : Z) (c : thread_ctx) : MS unit :=
  th <- thread_at t ;; set_thread t (mk_thread (Some c) (prev_thread th) (vmspace th) (cap_group th)).
Definition set_group (t g : Z) : MS unit :=
  th <- thread_at t ;; set_thread t (mk_thread (ctx th) (prev_thread th) 0 g).

Fixpoint init_idle (n : nat) (me i g : Z) : MS unit :=
  match n with
  | O => ret tt
  | S n' =>
      oc <- create_thread_ctx ;;
      match oc with
      | None => halt
      | Some c =>
          set_ctx (idle i) c ;;
          init_thread_ctx (idle i) 0 0 MIN_PRIO TYPE_IDLE i ;;
          arch_idle_ctx_init (idle i) idle_thread_routine ;;
          set_group (idle i) g ;;
          pbrr_sched_enqueue me (idle i) ;;
          init_idle n' me (i + 1) g
      end
  end.

Definition pbrr_sched_init (me : Z) : MS Z :=
  init_queues (Z.to_nat PLAT_CPU_NUM) 0 ;;
  g <- on_al (al_zalloc SIZEOF_CAP_GROUP) ;;
  if g =? 0 then fault
  else init_idle (Z.to_nat PLAT_CPU_NUM) me 0 g ;; ret 0.

Definition pbrr : sched_ops A (Z * Z) := mk_sched_ops pbrr_sched pbrr_sched_enqueue pbrr_sched_dequeue.

End pbrr.

(** ** Specification *)

Section spec.
Context {A : Type} `{!Allocator A}.
Context (N : Z).
Implicit Types s : sstate A (Z * Z).

Definition pkey (c : thread_ctx) : Z * Z := (cpuid c, prio c).
Definition valid_queue (k : Z * Z) : Prop := 0 ≤ k.1 < N ∧ 0 ≤ k.2 ≤ MAX_PRIO.

(** Every thread has a priority and asks for a CPU there is.  The code relies on
    it: neither is tested against the size of the queue array. *)
Definition placed s : Prop := ∀ t c, tctx s t = Some c → 0 ≤ prio c ∧ (affinity c = NO_AFF ∨ 0 ≤ affinity c < N).

Definition pbrr_inv (want : Z → Z) (skip : option Z) s : Prop := sched_inv pkey valid_queue N want skip s ∧ placed s.

Lemma keyed_pkey : keyed pkey.
Proof. intros c c' H1 H2. unfold pkey. congruence. Qed.

Lemma placed_step s s' f : placed s → (∀ u, tctx s' u = f u <$> tctx s u) →
  (∀ u c, prio (f u c) = prio c ∧ affinity (f u c) = affinity c) → placed s'.
Proof.
  intros P HT Hf u c'. rewrite HT. destruct (tctx s u) as [c|] eqn:Hc; [|done]. intros [= <-].
  destruct (Hf u c) as [-> ->]. by apply (P u).
Qed.

Lemma target_valid s me t c : placed s → tctx s t = Some c → 0 ≤ me < N → 0 ≤ RR.target_cpu me c < N.
Proof.
  intros P Hc Hme. destruct (P t c Hc) as [_ Ha]. unfold RR.target_cpu. destruct (Z.eqb_spec (affinity c) NO_AFF); [done|].
  destruct Ha as [?|Ha]; [done|]. unfold u32. split; [by apply Z.mod_pos_bound|].
  eapply Z.le_lt_trans; [apply Z.mod_le; lia|lia].
Qed.

(** The two ways [pbrr_sched_enqueue] ends. *)
Inductive enqueue_result (me t : Z) (c : thread_ctx) s : Z → sstate A (Z * Z) → Prop :=
| enq_refused s' : (MAX_PRIO < prio c ∨ state c = TS_READY) → ready s' = ready s → enqueue_result me t c s (- EINVAL) s'
| enq_done s' q f : prio c ≤ MAX_PRIO → state c ≠ TS_READY → ready s !! (RR.target_cpu me c, prio c) = Some q →
    ready s' = <[(RR.target_cpu me c, prio c) := q ++ [t]]> (ready s) →
    changes s s' (λ u x, enqueued t (RR.target_cpu me c) u (f u x)) → RR.fpu_only f → enqueue_result me t c s 0 s'.

Lemma pbrr_enqueue_spec want skip skip' s me r t c : pbrr_inv want skip s → cpus s !! me = Some r → tctx s t = Some c →
  (if RR.target_cpu me c =? me then skip' = skip else exempts me r t skip skip') →
  ∃ n s', pbrr_sched_enqueue me t s = Done n s' ∧ pbrr_inv want skip' s' ∧ enqueue_result me t c s n s' ∧
  (∃ r', cpus s' = <[me := r']> (cpus s) ∧ current r' = current r).
Proof.
  intros [I P] Hr Hc Hsk. assert (pbrr_inv want skip' s) as I0.
  { destruct (_ =? me); [by subst skip'|]. split; [|done]. destruct I as [S1 S2 S3 S4]. split; try done. by eapply fpu_ok_exempt. }
  assert (t ≠ 0) as Nt by (intros ->; rewrite (fo_null _ _ _ (si_fpu _ _ _ _ _ _ I)) in Hc; congruence).
  unfold pbrr_sched_enqueue. rewrite (proj2 (Z.eqb_neq t 0)) by done. erewrite bind_Done by reflexivity.
  erewrite bind_Done by (by eapply need_ctx_ok). erewrite bind_Done by (by apply ctx_of_ok). cbv zeta.
  destruct (Z.ltb_spec MAX_PRIO (prio c)) as [Hp|Hp].
  { exists (- EINVAL), s. split_and!; try done; [constructor; [by left|done]|exists r; by rewrite insert_id]. }
  destruct (maybe_save_spec pkey valid_queue N want skip skip' s me r t c (RR.target_cpu me c) I Hr Hc) as
    (s1 & f & r1 & E1 & I1 & Er & _ & _ & Ec & Ecur & HC & _ & Hf & _); [done|done|].
  erewrite bind_Done by exact E1. pose proof (changes_tctx _ _ _ _ _ HC Hc) as Hc1.
  assert (placed s1) as P1 by (eapply (placed_step s s1 f P); [apply HC|]; intros u x; by destruct (Hf u x) as [->|[v ->]]).
  assert (state (f t c) = state c ∧ prio (f t c) = prio c) as [Es Ep] by (by destruct (Hf t c) as [->|[v ->]]).
  unfold __pbrr_sched_enqueue. erewrite bind_Done by (by apply ctx_of_ok). cbv zeta. rewrite Es, Ep.
  destruct (decide (state c = TS_READY)) as [Hs|Hs]; [rewrite bool_decide_eq_true_2 by done|rewrite bool_decide_eq_false_2 by done].
  { exists (- EINVAL), s1. split; [done|]. split; [by split|]. split; [constructor; [by right|done]|by exists r1]. }
  destruct (si_cpu _ _ _ _ _ _ I me r Hr) as [Hme _]. destruct (P t c Hc) as [Hp0 _].
  destruct (si_queue _ _ _ _ _ _ I (RR.target_cpu me c, prio c)) as [q Hq]; [exact (conj (target_valid s me t c P Hc Hme) (conj Hp0 Hp))|].
  destruct (sched_inv_enqueue pkey valid_queue N want skip' s1 t (f t c) (RR.target_cpu me c) (RR.target_cpu me c, prio c) q)
    as (s2 & E2 & I2 & Er2 & Ec2 & HC2); [done|done|congruence|by rewrite Er|unfold pkey; simpl; by rewrite Ep|].
  exists 0, s2. split; [exact E2|]. split; [split; [done|]|split; [|exists r1; by rewrite Ec2]].
  - eapply (placed_step s1 s2 _ P1); [apply HC2|]. intros u x. unfold enqueued, at_thread. by case_decide.
  - eapply enq_done; try done; [by rewrite Er2, Er|exact (changes_trans _ _ _ _ _ HC HC2)].
Qed.

(** Thread [t] is the first of [q] that may run. *)
Definition first_runnable s (cur t : Z) (q : list Z) : Prop :=
  ∃ l1 l2, q = l1 ++ t :: l2 ∧ runnable s cur t ∧ ∀ u, u ∈ l1 → ¬ runnable s cur u.

Lemma choose_from_spec want skip s me r i : pbrr_inv want skip s → cpus s !! me = Some r → (Z.of_nat i ≤ PRIO_NUM) →
  (choose_from i me s = Halt ∧ ∀ j q u, 0 ≤ j < Z.of_nat i → ready s !! (me, j) = Some q → u ∈ q → ¬ runnable s (current r) u) ∨
  ∃ t s' p q, choose_from i me s = Done t s' ∧ pbrr_inv want skip s' ∧ 0 ≤ p < Z.of_nat i ∧ ready s !! (me, p) = Some q ∧
    first_runnable s (current r) t q ∧
    (∀ j q' u, p < j < Z.of_nat i → ready s !! (me, j) = Some q' → u ∈ q' → ¬ runnable s (current r) u) ∧
    ready s' = without t <$> ready s ∧ cpus s' = cpus s ∧ changes s s' (at_thread t (with_state TS_INTER)).
Proof.
  intros I Hr. induction i as [|i IH]; intros Hi; [left; split; [done|lia]|].
  destruct (si_cpu _ _ _ _ _ _ (proj1 I) me r Hr) as [Hme _].
  destruct (si_queue _ _ _ _ _ _ (proj1 I) (me, Z.of_nat i)) as [q Hq]; [split; [done|]; simpl; unfold PRIO_NUM in Hi; lia|].
  assert ((∀ u, u ∈ q → ¬ runnable s (current r) u) → choose_from (S i) me s = choose_from i me s →
    (choose_from (S i) me s = Halt ∧ ∀ j q u, 0 ≤ j < Z.of_nat (S i) → ready s !! (me, j) = Some q → u ∈ q → ¬ runnable s (current r) u) ∨
    ∃ t s' p q, choose_from (S i) me s = Done t s' ∧ pbrr_inv want skip s' ∧ 0 ≤ p < Z.of_nat (S i) ∧ ready s !! (me, p) = Some q ∧
    first_runnable s (current r) t q ∧
    (∀ j q' u, p < j < Z.of_nat (S i) → ready s !! (me, j) = Some q' → u ∈ q' → ¬ runnable s (current r) u) ∧
    ready s' = without t <$> ready s ∧ cpus s' = cpus s ∧ changes s s' (at_thread t (with_state TS_INTER))) as Next.
  { intros None E. rewrite E. destruct (IH ltac:(lia)) as [[-> H]|(t & s' & p & q' & -> & ? & ? & ? & ? & H & ? & ? & ?)]; [left|right].
    - split; [done|]. intros j q2 u Hj Hq2 Hu. destruct (decide (j = Z.of_nat i)) as [->|]; [|apply (H j q2); [lia|done|done]].
      apply None. congruence.
    - exists t, s', p, q'. split_and!; try done; try lia. intros j q2 u Hj Hq2 Hu.
      destruct (decide (j = Z.of_nat i)) as [->|]; [|apply (H j q2); [lia|done|done]]. apply None. congruence. }
  cbn [choose_from] in Next |- *. destruct q as [|h q0] eqn:Eq.
  { apply Next; [by intros u ?%not_elem_of_nil|]. erewrite bind_Done by reflexivity. rewrite Hq. by erewrite bind_Done by reflexivity. }
  destruct (find_next_runnable_spec s (current r) (h :: q0)) as (t & E & H).
  { apply (fo_null _ _ _ (si_fpu _ _ _ _ _ _ (proj1 I))). }
  { intros u Hu. destruct (ro_in _ _ (si_ready _ _ _ _ _ _ (proj1 I)) _ _ u Hq Hu) as (c & Hc & _). by exists c. }
  assert (find_next_runnable_thread_in_list me (me, Z.of_nat i) s = Done t s) as Ef.
  { unfold find_next_runnable_thread_in_list. erewrite bind_Done by reflexivity. rewrite Hq.
    erewrite bind_Done by reflexivity. by erewrite bind_Done by (by apply current_thread_ok). }
  destruct H as [[-> H]|(Nt & l1 & l2 & El & Hrun & H)].
  { apply Next; [done|]. erewrite bind_Done by reflexivity. rewrite Hq. erewrite bind_Done by reflexivity. cbv iota.
    erewrite bind_Done by exact Ef. by rewrite Z.eqb_refl. }
  clear Next. right. assert (t ∈ h :: q0) as Ht by (rewrite El; apply elem_of_mid).
  destruct (ro_in _ _ (si_ready _ _ _ _ _ _ (proj1 I)) _ _ t Hq Ht) as (c & Hc & Hs & _).
  destruct (sched_inv_dequeue pkey valid_queue N want skip s t c (proj1 I) Hc Hs) as (s' & E' & I' & Er & Ec & HC).
  exists t, s', (Z.of_nat i), (h :: q0). split_and!; try done; try lia.
  - erewrite bind_Done by reflexivity. rewrite Hq. erewrite bind_Done by reflexivity. cbv iota. erewrite bind_Done by exact Ef.
    rewrite (proj2 (Z.eqb_neq t 0)) by done. unfold __pbrr_sched_dequeue.
    erewrite bind_Done. 2: { erewrite bind_Done by (by apply ctx_of_ok). rewrite bool_decide_eq_false_2 by (intros Hn; by apply Hn). exact E'. }
    reflexivity.
  - split; [done|]. apply (placed_step s s' _ (proj2 I) (proj1 HC)). intros u x. unfold at_thread. by case_decide.
  - by exists l1, l2.
Qed.

Lemma pbrr_suspend_spec want s me r : pbrr_inv want None s → cpus s !! me = Some r →
  wph (pbrr_suspend me (current r)) (λ go s1, (go = false → s1 = s ∧ ∃ c, tctx s (current r) = Some c ∧ state c = TS_RUNNING) ∧
    (∃ r1, cpus s1 = <[me := r1]> (cpus s) ∧ current r1 = current r) ∧
    (pbrr_inv want None s1 ∨ (pbrr_inv want (Some me) s1 ∧ ∃ k q, k.1 ≠ me ∧ ready s1 !! k = Some q ∧ current r ∈ q))) s.
Proof.
  intros I Hr. pose proof (proj1 I) as J. unfold pbrr_suspend.
  assert (∃ r', cpus s = <[me := r']> (cpus s) ∧ current r' = current r) as Same by (exists r; by rewrite insert_id).
  destruct (Z.eqb_spec (current r) 0) as [E0|N0]; [eapply wph_Done; [reflexivity|]; split_and!; [done|done|by left]|].
  destruct (si_cpu _ _ _ _ _ _ J me r Hr) as [Hme Hcur]. destruct (Hcur N0) as [c Hc].
  eapply wph_step; [by apply ctx_of_ok|]. destruct (Z.eqb_spec (sc c) 0) as [Hsc|Hsc]; [done|]. eapply wph_step; [reflexivity|].
  destruct (decide (state c = TS_RUNNING)) as [Hs|Hs].
  2: { rewrite (bool_decide_eq_true_2 (state c ≠ TS_RUNNING)) by done.
    destruct (decide (state c = TS_WAITING)) as [Hw|Hw];
      [rewrite (bool_decide_eq_false_2 (state c ≠ TS_WAITING)) by (intros H; by apply H)|by rewrite (bool_decide_eq_true_2 (state c ≠ TS_WAITING)) by done].
    eapply wph_step; [reflexivity|]. rewrite bool_decide_eq_false_2 by done. eapply wph_Done; [reflexivity|].
    split_and!; [done|done|by left]. }
  rewrite (bool_decide_eq_false_2 (state c ≠ TS_RUNNING)) by (intros H; by apply H). eapply wph_step; [reflexivity|].
  rewrite bool_decide_eq_true_2 by done. destruct (Z.eqb_spec (budget c) 0) as [Hb|Hb]; cbn [negb].
  2: { eapply wph_Done; [reflexivity|]. split_and!; [intros _; split; [done|by exists c]|done|by left]. }
  destruct (suspend_run s (current r) c Hc Hsc) as (sb & s0 & Eb & Eu & HC & Er0 & Ec0).
  assert (pbrr_inv want None s0) as I0.
  { split; [|apply (placed_step s s0 _ (proj2 I) (proj1 HC)); intros u x; destruct (suspended_private (sc c) (current r) u x) as (? & ? & ? & ? & ?); done].
    apply (sched_inv_same pkey valid_queue N want keyed_pkey s s0 me r r (suspended (sc c) (current r)) J Hr);
      [by rewrite Ec0, insert_id|by left|done|apply HC| |].
    - intros u x Hx. apply (suspended_state _ _ c); [done|congruence].
    - intros u x. destruct (suspended_private (sc c) (current r) u x) as (? & ? & ? & ? & ?). done. }
  pose proof (changes_tctx _ _ _ _ _ HC Hc) as Hc0. rewrite suspended_self in Hc0. assert (cpus s0 !! me = Some r) as Hr0 by (by rewrite Ec0).
  set (c0 := with_state TS_INTER (with_budget DEFAULT_BUDGET c)) in *.
  destruct (pbrr_enqueue_spec want None (if RR.target_cpu me c =? me then None else Some me) s0 me r (current r) c0 I0 Hr0 Hc0)
    as (n & s1 & E1 & I1 & Res & Hc1).
  { change (RR.target_cpu me c0) with (RR.target_cpu me c). destruct (_ =? me); [done|]. left. by split; [|left]. }
  rewrite Ec0 in Hc1. eapply wph_step; [exact Eb|]. eapply wph_step; [exact Eu|]. eapply wph_step; [exact E1|].
  destruct (Z.eqb_spec n 0) as [->|Nn]; [|done]. eapply wph_Done; [reflexivity|]. split; [done|]. split; [exact Hc1|].
  destruct (Z.eqb_spec (RR.target_cpu me c) me) as [Em|Nm]; [by left|]. right. split; [done|].
  inversion Res as [|s' q f _ _ Hq Hq' _ _]; subst. exists (RR.target_cpu me c0, prio c0), (q ++ [current r]).
  split; [done|]. split; [by rewrite Hq', lookup_insert_eq|set_solver].
Qed.

Lemma pbrr_sched_spec want s me r : pbrr_inv want None s → cpus s !! me = Some r →
  wph (pbrr_sched me) (λ n s', n = 0 ∧ pbrr_inv want None s' ∧ ∃ r' c', cpus s' !! me = Some r' ∧
    tctx s' (current r') = Some c' ∧ state c' = TS_RUNNING) s.
Proof.
  intros I Hr. unfold pbrr_sched. eapply wph_step; [by apply current_thread_ok|]. apply wph_bind.
  eapply wph_mono; [by eapply pbrr_suspend_spec|]. intros go s1 (Res & (r1 & Hc1 & Ecur) & H1).
  assert (cpus s1 !! me = Some r1) as Hr1 by (rewrite Hc1; by rewrite lookup_insert_eq).
  destruct go.
  2: { destruct Res as [-> (c & Hc & Hs)]; [done|]. eapply wph_Done; [reflexivity|]. split; [done|]. split; [|by exists r, c]. done. }
  assert (∃ sk, pbrr_inv want sk s1 ∧ (sk = None ∨ (sk = Some me ∧ ∃ k q, k.1 ≠ me ∧ ready s1 !! k = Some q ∧ current r ∈ q)))
    as (sk & I1 & Hsk) by (destruct H1 as [?|[? ?]]; eauto 10).
  unfold pbrr_sched_choose_thread. destruct (choose_from_spec want sk s1 me r1 (Z.to_nat PRIO_NUM) I1 Hr1) as
    [[E _]|(t & s2 & p & q & E2 & I2 & Hp & Hq & (l1 & l2 & El & (x & Hx & _) & _) & _ & _ & Ec2 & HC)]; [done| |].
  { unfold wph, bind. by rewrite E. }
  eapply wph_step; [exact E2|]. pose proof (changes_tctx _ _ _ _ _ HC Hx) as Hc. unfold at_thread in Hc. rewrite decide_True in Hc by done.
  assert (t ≠ 0) as Nt by (intros ->; rewrite (fo_null _ _ _ (si_fpu _ _ _ _ _ _ (proj1 I2))) in Hc; congruence).
  rewrite (proj2 (Z.eqb_neq t 0)) by done. eapply wph_step; [reflexivity|]. rewrite <- Ec2 in Hr1.
  assert (sk = None ∨ (sk = Some me ∧ t ≠ current r1)) as Hsk'.
  { destruct Hsk as [->|(-> & k & qk & Nk & Hqk & Hin)]; [by left|]. right. split; [done|]. rewrite Ecur. intros ->.
    destruct (ro_in _ _ (si_ready _ _ _ _ _ _ (proj1 I1)) k qk _ Hqk Hin) as (y & Hy & _ & Ky).
    destruct (ro_in _ _ (si_ready _ _ _ _ _ _ (proj1 I1)) (me, p) q (current r) Hq) as (z & Hz & _ & Kz); [rewrite El; apply elem_of_mid|].
    apply Nk. assert (y = z) as -> by congruence. rewrite <- Ky, Kz. done. }
  destruct (sched_inv_switch pkey valid_queue N want keyed_pkey sk s2 me r1 t _ (proj1 I2) Hr1 Hc Nt ltac:(done) Hsk')
    as (s3 & r3 & c3 & E3 & I3 & Er3 & Hr3 & Hcur3 & Hc3 & Hs3 & HT3 & _).
  eapply wph_step; [exact E3|]. eapply wph_Done; [reflexivity|]. split; [done|]. split; [split; [done|]|exists r3, c3; by rewrite Hcur3].
  apply (placed_step s2 s3 _ (proj2 I2) HT3). intros u y. unfold switched. by repeat case_decide.
Qed.

(** Priorities.  [pbrr_sched_choose_thread] takes off its queue a thread that
    may run, such that no ready thread of this CPU that may run has a higher
    priority, and none of the same priority stands before it; it stops the
    kernel exactly when no ready thread of the CPU may run. *)
Theorem pbrr_choose_ok want skip s me r : pbrr_inv want skip s → cpus s !! me = Some r →
  (pbrr_sched_choose_thread me s = Halt ∧
     ∀ u c, tctx s u = Some c → state c = TS_READY → cpuid c = me → prio c ≤ MAX_PRIO → ¬ runnable s (current r) u) ∨
  ∃ t c s' q, pbrr_sched_choose_thread me s = Done t s' ∧ pbrr_inv want skip s' ∧ tctx s t = Some c ∧ state c = TS_READY ∧
    ready s !! (me, prio c) = Some q ∧ first_runnable s (current r) t q ∧ ready s' = without t <$> ready s ∧
    ∀ u cu, tctx s u = Some cu → state cu = TS_READY → cpuid cu = me → prio cu ≤ MAX_PRIO → runnable s (current r) u → prio cu ≤ prio c.
Proof.
  intros I Hr. pose proof (si_ready _ _ _ _ _ _ (proj1 I)) as R.
  assert (∀ u c, tctx s u = Some c → state c = TS_READY → cpuid c = me → 0 ≤ prio c ∧ ∃ q, ready s !! (me, prio c) = Some q ∧ u ∈ q) as HQ.
  { intros u c Hc Hs Hm. split; [by apply (proj2 I u)|]. destruct (ro_ready _ _ R u c Hc Hs) as (q & Hq & Hu). unfold pkey in Hq. rewrite Hm in Hq. by exists q. }
  unfold pbrr_sched_choose_thread. change (Z.of_nat (Z.to_nat PRIO_NUM)) with 256.
  destruct (choose_from_spec want skip s me r (Z.to_nat PRIO_NUM) I Hr) as
    [[E H]|(t & s' & p & q & E & I' & Hp & Hq & F & H & Er & _ & _)]; [done|left|right].
  - split; [done|]. intros u c Hc Hs Hm Hp. destruct (HQ u c Hc Hs Hm) as (H0 & q & Hq & Hu). apply (H (prio c) q u); [|done|done].
    change (Z.of_nat (Z.to_nat PRIO_NUM)) with (MAX_PRIO + 1). lia.
  - destruct F as (l1 & l2 & El & Hrun & Hl). destruct (ro_in _ _ R (me, p) q t Hq) as (c & Hc & Hs & Hk); [rewrite El; apply elem_of_mid|].
    injection Hk as Hk1 Hk2. subst p. exists t, c, s', q. split_and!; try done; [by exists l1, l2|].
    intros u cu Hcu Hsu Hmu Hpu Hru. destruct (decide (prio cu ≤ prio c)) as [|Hlt]; [done|]. exfalso.
    destruct (HQ u cu Hcu Hsu Hmu) as (H0 & q' & Hq' & Hu). apply (H (prio cu) q' u); [|done|done|done].
    change (Z.of_nat (Z.to_nat PRIO_NUM)) with (MAX_PRIO + 1). lia.
Qed.

(** The same guarantee as for the round-robin policy: [pbrr_sched] keeps the
    invariant, returns 0 with a running current thread, or stops at a [BUG_ON];
    it never accesses memory it should not, provided the affinity and priority
    of the threads are in range. *)
Theorem pbrr_sched_ok want s me r : pbrr_inv want None s → cpus s !! me = Some r →
  pbrr_sched me s = Halt ∨
  ∃ s' r' c', pbrr_sched me s = Done 0 s' ∧ pbrr_inv want None s' ∧ cpus s' !! me = Some r' ∧
    tctx s' (current r') = Some c' ∧ state c' = TS_RUNNING.
Proof.
  intros I Hr. pose proof (pbrr_sched_spec want s me r I Hr) as [H|(n & s' & E & -> & I' & r' & c' & H)]%wph_or; [by left|].
  right. exists s', r', c'. by destruct H as (? & ? & ?).
Qed.

(** The policy keeps the promise. *)
#[export] Instance pbrr_scheduler want : Scheduler pbrr (pbrr_inv want None).
Proof.
  split.
  - intros s [I _]. apply (fo_null _ _ _ (si_fpu _ _ _ _ _ _ I)).
  - intros s me r [I _] Hr. by apply (si_cpu _ _ _ _ _ _ I me r).
  - intros s s' me r r' f [I P] Hr Ec Hr' Er HT Hs Hf. split.
    + apply (sched_inv_same pkey valid_queue N want keyed_pkey s s' me r r' f I Hr); try done.
      intros u x. by destruct (Hf u x) as (? & ? & ? & ? & ?).
    + apply (placed_step s s' f P HT). intros u x. by destruct (Hf u x) as (? & ? & ? & ? & ?).
  - intros s me r t c I Hr Hc Hs Hcur Ht. destruct (pbrr_enqueue_spec want None None s me r t c I Hr Hc) as (n & s' & E & I' & Res & Hc').
    { destruct Hcur as [Hcur|Haff]; [destruct (_ =? _); [done|by right]|]. unfold RR.target_cpu. rewrite Haff, !Z.eqb_refl. done. }
    exists n, s'. split_and!; try done. intros ->. inversion Res as [|s1 q f Hp Hns Hq Hq' HC Hf]; subst.
    exists (λ u x, enqueued t (RR.target_cpu me c) u (f u x)). split; [done|].
    split; [by apply RR.enqueued_keeps|split; intros u x; by apply RR.enqueued_keeps].
  - intros s me r t c s' [I P] Hr Hc Hs E.
    assert (t ≠ 0) as Nt by (intros ->; rewrite (fo_null _ _ _ (si_fpu _ _ _ _ _ _ I)) in Hc; congruence).
    destruct (sched_inv_switch pkey valid_queue N want keyed_pkey None s me r t c I Hr Hc Nt Hs (or_introl eq_refl))
      as (s2 & r2 & c2 & E2 & I2 & _ & _ & _ & _ & _ & HT & _). rewrite E in E2. injection E2 as <-. split; [done|].
    apply (placed_step s s' _ P HT). intros u y. unfold switched. by repeat case_decide.
Qed.

End spec.

(** ** The small system under this policy *)

Module PBRRDemo.

(** The queues of the two CPUs: threads 20 and 30 have priority 10. *)
Definition queues : gmap (Z * Z) (list Z) :=
  list_to_map (((0, 10), [20; 30]) :: (d ← [0; 1]; p ← seqZ 0 256; [((d, p), [])])).
Definition s0 : sstate Z (Z * Z) := Demo.state0 queues.

Lemma demo_queue k : valid_queue 2 k → is_Some (queues !! k).
Proof.
  intros Hk. destruct k as [d p], Hk as [Hd Hp]. simpl in Hd, Hp. unfold MAX_PRIO in Hp. unfold queues. rewrite list_to_map_cons.
  apply lookup_insert_is_Some'. right. exists []. apply elem_of_list_to_map_1'.
  - intros y Hy. apply list_elem_of_bind in Hy as (d' & (p' & Hy & _)%list_elem_of_bind & _). apply list_elem_of_singleton in Hy. by injection Hy.
  - apply list_elem_of_bind. exists d. split; [|assert (d = 0 ∨ d = 1) as [-> | ->] by lia; set_solver].
    apply list_elem_of_bind. exists p. split; [set_solver|]. apply elem_of_seqZ. lia.
Qed.

Lemma demo_pbrr_inv : pbrr_inv 2 Demo.want None s0.
Proof.
  split; [split|].
  - apply ready_ok_check.
    + unfold s0, tctx. simpl ready. simpl threads. check_map.
    + unfold s0. simpl ready. simpl threads. check_map.
  - apply Demo.demo_fpu.
  - exact demo_queue.
  - assert (∀ d r, cpus s0 !! d = Some r → (0 ≤ d < 2) ∧ (current r ≠ 0 → is_Some (tctx s0 (current r)))) as H; [|exact H].
    unfold s0. simpl cpus. check_map.
  - intros t c Hc. destruct (tctx_Some _ _ _ Hc) as (th & Ht & Hth). revert c Hth Hc. revert t th Ht.
    assert (∀ t th, threads s0 !! t = Some th → match ctx th with Some c => 0 ≤ prio c ∧ (affinity c = NO_AFF ∨ 0 ≤ affinity c < 2) | None => True end) as H.
    { unfold s0. simpl threads. check_map. }
    intros t th Ht c Hth _. specialize (H t th Ht). by rewrite Hth in H.
Qed.

End PBRRDemo.

Lemma pbrr_choose_ok_witness : pbrr_sched_choose_thread 0 PBRRDemo.s0 = Halt ∨
  ∃ t s', pbrr_sched_choose_thread 0 PBRRDemo.s0 = Done t s' ∧ pbrr_inv 2 Demo.want None s'.
Proof.
  destruct (pbrr_choose_ok 2 Demo.want None PBRRDemo.s0 0 (mk_cpu 10 20 true true 7 44 100) PBRRDemo.demo_pbrr_inv eq_refl)
    as [[E _]|(t & c & s' & q & E & I & _)]; [left; exact E|right; exists t, s'; split; [exact E|exact I]].
Defined.

Lemma pbrr_sched_ok_witness : pbrr_sched 0 PBRRDemo.s0 = Halt ∨
  ∃ s', pbrr_sched 0 PBRRDemo.s0 = Done 0 s' ∧ pbrr_inv 2 Demo.want None s'.
Proof.
  destruct (pbrr_sched_ok 2 Demo.want PBRRDemo.s0 0 (mk_cpu 10 20 true true 7 44 100) PBRRDemo.demo_pbrr_inv eq_refl)
    as [H|(s' & r' & c' & E & I & _)]; [left; exact H|right; exists s'; split; [exact E|exact I]].
Defined.

(** A thread whose affinity is 7, on the two CPUs: the round-robin policy refuses
    it, this one accesses a queue that is not there. *)
Example pbrr_no_cpu_check :
  pbrr_sched_enqueue 0 10 (put_ctx 10 (with_affinity 7) PBRRDemo.s0) = Fault.
Proof. vm_compute. reflexivity. Qed.

End PBRR.
