(* ===== verification/Notific.v ===== *)
(** * Timers and notifications (kernel/irq/timer.c, kernel/ipc/notification.c)

    Threads sleep on a list per CPU, sorted by the tick they wake up at, and wait
    on notifications, with or without a timeout.  The state adds the sleep state
    of the threads, the lists and the notifications to the scheduler state of
    Sched.v.  A list is the sequence of the threads on it; as in Sched.v adding a
    node that is on a list, or deleting one that is not, is a fault.

    The tick counter of the machine is the parameter [tick], its value at each
    read; [timer] is the last value written to the timer of a CPU. *)

From Stdlib Require Import Sorting.Sorted.
From S2P Require Import Prelude Allocator Uaccess Capability Sched PolicyRR.

Module Notific.

Import Allocator Uaccess.
Import Sched.

Definition EAGAIN : Z := 11.
Definition TICK_MS : Z := 10.

(** The functions a [timer_cb] points to. *)
Inductive timer_cb := SLEEP_TIMER_CB | NOTIFIC_TIMER_CB.
#[export] Instance timer_cb_eq_dec : EqDecision timer_cb.
Proof. solve_decision. Defined.

Record sleep_state := mk_sleep { wakeup_tick : Z; sleep_cpu : Z; pending_notific : Z; cb : option timer_cb }.
Record time_state := mk_time { next_expire : Z; sleep_list : list Z }.
Record notification := mk_notific {
  not_delivered_notifc_count : Z; waiting_threads_count : Z; waiting_threads : list Z }.
Record timespec := mk_timespec { tv_sec : Z; tv_nsec : Z }.

Definition with_cb (f : option timer_cb) (x : sleep_state) : sleep_state :=
  mk_sleep (wakeup_tick x) (sleep_cpu x) (pending_notific x) f.
Definition with_pending (n : Z) (x : sleep_state) : sleep_state := mk_sleep (wakeup_tick x) (sleep_cpu x) n (cb x).
Definition with_wakeup (w d : Z) (x : sleep_state) : sleep_state := mk_sleep w d (pending_notific x) (cb x).

Section notific.
Context {A : Type} `{!Allocator A} {K : Type} `{!EqDecision K, !Countable K}.
Context (PLAT_CPU_NUM tick_per_us : Z) (tick : nat → Z) (ops : sched_ops A K).

Record tstate := mk_tstate {
  sch : sstate A K;
  sleep : gmap Z sleep_state;
  times : gmap Z time_state;
  notifs : gmap Z notification;
  reads : nat;
  timer : gmap Z Z
}.

Abbreviation MT := (M tstate).

Definition with_sch (x : sstate A K) (s : tstate) : tstate := mk_tstate x (sleep s) (times s) (notifs s) (reads s) (timer s).
Definition with_sleep (f : gmap Z sleep_state → gmap Z sleep_state) (s : tstate) : tstate :=
  mk_tstate (sch s) (f (sleep s)) (times s) (notifs s) (reads s) (timer s).
Definition with_times (f : gmap Z time_state → gmap Z time_state) (s : tstate) : tstate :=
  mk_tstate (sch s) (sleep s) (f (times s)) (notifs s) (reads s) (timer s).
Definition with_notifs (f : gmap Z notification → gmap Z notification) (s : tstate) : tstate :=
  mk_tstate (sch s) (sleep s) (times s) (f (notifs s)) (reads s) (timer s).
Definition with_timer (f : gmap Z Z → gmap Z Z) (s : tstate) : tstate :=
  mk_tstate (sch s) (sleep s) (times s) (notifs s) (reads s) (f (timer s)).

Definition on_sch {B} (m : M (sstate A K) B) : MT B := zoom sch with_sch m.

Definition sleep_at (t : Z) : MT sleep_state := s <- get ;; need (sleep s !! t).
Definition upd_sleep (t : Z) (f : sleep_state → sleep_state) : MT unit := x <- sleep_at t ;; modify (with_sleep (<[t := f x]>)).
Definition time_at (d : Z) : MT time_state := s <- get ;; need (times s !! d).
Definition upd_time (d : Z) (f : time_state → time_state) : MT unit := x <- time_at d ;; modify (with_times (<[d := f x]>)).
Definition notific_at (n : Z) : MT notification := s <- get ;; need (notifs s !! n).
Definition set_notific (n : Z) (x : notification) : MT unit := modify (with_notifs (<[n := x]>)).

(** [cntpct_el0] *)
Definition plat_get_current_tick : MT Z :=
  s <- get ;; modify (λ s, mk_tstate (sch s) (sleep s) (times s) (notifs s) (S (reads s)) (timer s)) ;; ret (tick (reads s)).
(** [cntv_tval_el0] *)
Definition plat_set_next_timer (me delta : Z) : MT unit := modify (with_timer (<[me := delta]>)).
Definition plat_handle_timer_irq (me delta : Z) : MT unit := modify (with_timer (<[me := delta]>)).

(** ** Lists *)

Definition sleeping (t : Z) (s : tstate) : bool := bool_decide (map_Exists (λ _ x, t ∈ sleep_list x) (times s)).
Definition waiting (t : Z) (s : tstate) : bool := bool_decide (map_Exists (λ _ x, t ∈ waiting_threads x) (notifs s)).

Definition drop_sleeper (t : Z) (x : time_state) : time_state :=
  mk_time (next_expire x) (filter (λ u, u ≠ t) (sleep_list x)).
Definition drop_waiter (t : Z) (x : notification) : notification :=
  mk_notific (not_delivered_notifc_count x) (waiting_threads_count x) (filter (λ u, u ≠ t) (waiting_threads x)).

(** [list_del] of [sleep_node] and of [notification_queue_node]. *)
Definition sleep_del (t : Z) : MT unit :=
  s <- get ;; if sleeping t s then modify (with_times (fmap (drop_sleeper t))) else fault.
Definition wait_del (t : Z) : MT unit :=
  s <- get ;; if waiting t s then modify (with_notifs (fmap (drop_waiter t))) else fault.

(** ** timer.c *)

Fixpoint init_lists (n : nat) : MT unit :=
  match n with
  | O => ret tt
  | S n' => init_lists n' ;; upd_time (Z.of_nat n') (λ x, mk_time (next_expire x) [])
  end.
Definition timer_init (plat_timer_init : MT unit) (me : Z) : MT unit :=
  (if me =? 0 then init_lists (Z.to_nat PLAT_CPU_NUM) else ret tt) ;; plat_timer_init.

Definition get_next_tick_delta (me : Z) : MT Z :=
  let waiting_tick := u64 (TICK_MS * 1000 * tick_per_us) in
  x <- time_at me ;;
  match sleep_list x with
  | [] => ret waiting_tick
  | t :: _ =>
      current_tick <- plat_get_current_tick ;;
      first_sleeper <- sleep_at t ;;
      if (wakeup_tick first_sleeper <? u64 (current_tick + waiting_tick)) && (current_tick <? wakeup_tick first_sleeper)
      then ret (u64 (wakeup_tick first_sleeper - current_tick))
      else ret waiting_tick
  end.

Definition sleep_timer_cb (me t : Z) : MT unit :=
  on_sch (upd_ctx t (with_state TS_INTER)) ;;
  r <- on_sch (sched_enqueue ops me t) ;;
  BUG_ON (negb (r =? 0)).

Definition notific_timer_cb (me t : Z) : MT unit :=
  x <- sleep_at t ;;
  let notifc := pending_notific x in
  upd_sleep t (with_pending 0) ;;
  notific_at notifc ;;
  c <- on_sch (ctx_of t) ;;
  if bool_decide (state c ≠ TS_WAITING) then ret tt
  else
    wait_del t ;;
    y <- notific_at notifc ;;
    BUG_ON (waiting_threads_count y <=? 0) ;;
    set_notific notifc (mk_notific (not_delivered_notifc_count y) (u32 (waiting_threads_count y - 1)) (waiting_threads y)) ;;
    on_sch (arch_set_thread_return t (u64 (- EAGAIN))) ;;
    on_sch (upd_ctx t (with_state TS_INTER)) ;;
    r <- on_sch (sched_enqueue ops me t) ;;
    BUG_ON (negb (r =? 0)).

Definition run_cb (me t : Z) (f : timer_cb) : MT unit :=
  match f with SLEEP_TIMER_CB => sleep_timer_cb me t | NOTIFIC_TIMER_CB => notific_timer_cb me t end.

(** One iteration of the loop of [handle_timer_irq], for a thread that wakes up. *)
Definition wake_sleeper (me t : Z) (x : sleep_state) : MT unit :=
  sleep_del t ;;
  (if bool_decide (cb x = Some SLEEP_TIMER_CB) then c <- on_sch (ctx_of t) ;; BUG_ON (bool_decide (state c ≠ TS_WAITING)) else ret tt) ;;
  match cb x with
  | None => halt
  | Some f => run_cb me t f
  end ;;
  upd_sleep t (with_cb None).

(** The loop: [l] is the rest of the list. *)
Fixpoint wake_sleepers (me current_tick : Z) (l : list Z) : MT unit :=
  match l with
  | [] => ret tt
  | t :: l' =>
      x <- sleep_at t ;;
      if wakeup_tick x <? current_tick then wake_sleeper me t x ;; wake_sleepers me current_tick l' else ret tt
  end.

(** The current thread uses up a tick of its budget. *)
Definition charge_current (me : Z) : MT unit :=
  cur <- on_sch (current_thread me) ;;
  if cur =? 0 then ret tt
  else
    c <- on_sch (ctx_of cur) ;;
    BUG_ON (sc c =? 0) ;;
    BUG_ON (budget c =? 0) ;;
    on_sch (set_budget cur (u32 (budget c - 1))).

Definition handle_timer_irq (me : Z) : MT unit :=
  current_tick <- plat_get_current_tick ;;
  x <- time_at me ;;
  wake_sleepers me current_tick (sleep_list x) ;;
  tick_delta <- get_next_tick_delta me ;;
  upd_time me (λ x, mk_time (u64 (current_tick + tick_delta)) (sleep_list x)) ;;
  plat_handle_timer_irq me tick_delta ;;
  charge_current me.

(** The place of a sleeper in the list. *)
Fixpoint insert_sleeper (t w : Z) (l : list Z) : MT (list Z) :=
  match l with
  | [] => ret [t]
  | u :: l' =>
      x <- sleep_at u ;;
      if w <? wakeup_tick x then ret (t :: l) else r <- insert_sleeper t w l' ;; ret (u :: r)
  end.

Definition enqueue_sleeper (me t : Z) (timeout : timespec) (f : timer_cb) : MT Z :=
  let total_us := u64 (u64 (tv_sec timeout) * 1000 * 1000 + u64 (tv_nsec timeout) / 1000) in
  now <- plat_get_current_tick ;;
  let w := u64 (now + total_us * tick_per_us) in
  upd_sleep t (with_wakeup w me) ;;
  x <- time_at me ;;
  s <- get ;;
  (if sleeping t s then fault else ret tt) ;;
  l <- insert_sleeper t w (sleep_list x) ;;
  upd_time me (λ x, mk_time (next_expire x) l) ;;
  upd_sleep t (with_cb (Some f)) ;;
  x <- time_at me ;;
  (if w <? next_expire x
   then upd_time me (λ x, mk_time w (sleep_list x)) ;; plat_set_next_timer me (u64 (total_us * tick_per_us))
   else ret tt) ;;
  ret 0.

Definition try_dequeue_sleeper (t : Z) : MT bool :=
  BUG_ON (t =? 0) ;;
  x <- sleep_at t ;;
  time_at (sleep_cpu x) ;;
  if bool_decide (cb x = None) then ret false
  else sleep_del t ;; upd_sleep t (with_cb None) ;; ret true.

(** [ts] is what the user has at [req]. *)
Definition sys_clock_nanosleep (me req : Z) (ts : timespec) : MT unit :=
  ts_k <- copy_from_user req ts ;;
  cur <- on_sch (current_thread me) ;;
  enqueue_sleeper me cur ts_k SLEEP_TIMER_CB ;;
  on_sch (upd_ctx cur (with_state TS_WAITING)) ;;
  on_sch (sched ops me) ;;
  on_sch (eret_to_thread PLAT_CPU_NUM me).

(** [mono_ns] is the time since boot; the result is written to [ts]. *)
Definition NS_IN_S : Z := 1000000000.
Definition sys_clock_gettime (ts mono_ns : Z) (old : timespec) : MT (Z * option timespec) :=
  if ts =? 0 then ret (-1, None)
  else
    copy_from_user ts old ;;
    copy_to_user ts (ret tt) ;;
    ret (0, Some (mk_timespec (mono_ns / NS_IN_S) (mono_ns mod NS_IN_S))).

(** ** notification.c *)

Definition init_notific (n : Z) : MT unit := set_notific n (mk_notific 0 0 []).

(** The current thread joins the waiting threads. *)
Definition block_on (me n : Z) (timeout : option timespec) : MT unit :=
  cur <- on_sch (current_thread me) ;;
  s <- get ;;
  (if waiting cur s then fault else ret tt) ;;
  y <- notific_at n ;;
  on_sch (upd_ctx cur (with_state TS_WAITING)) ;;
  set_notific n (mk_notific (not_delivered_notifc_count y) (u32 (waiting_threads_count y + 1)) (waiting_threads y ++ [cur])) ;;
  on_sch (arch_set_thread_return cur 0) ;;
  match timeout with
  | None => ret tt
  | Some ts => upd_sleep cur (with_pending n) ;; enqueue_sleeper me cur ts NOTIFIC_TIMER_CB ;; ret tt
  end.

Definition wait_notific (me n : Z) (is_block : bool) (timeout : option timespec) : MT Z :=
  y <- notific_at n ;;
  if 0 <? not_delivered_notifc_count y then
    set_notific n (mk_notific (not_delivered_notifc_count y - 1) (waiting_threads_count y) (waiting_threads y)) ;; ret 0
  else if is_block then
    block_on me n timeout ;;
    on_sch (sched ops me) ;;
    on_sch (eret_to_thread PLAT_CPU_NUM me) ;;
    ret 0
  else ret (- EAGAIN).

Definition try_remove_timeout (target n : Z) : MT unit :=
  if target =? 0 then ret tt
  else
    x <- sleep_at target ;;
    if bool_decide (cb x = None) then ret tt
    else
      try_dequeue_sleeper target ;;
      x <- sleep_at target ;;
      BUG_ON (negb (pending_notific x =? 0) && negb (n =? pending_notific x)) ;;
      upd_sleep target (with_pending 0).

(** The first part of [signal_notific]: the thread to wake up, 0 for none. *)
Definition take_waiter (n : Z) : MT Z :=
  y <- notific_at n ;;
  if (0 <? not_delivered_notifc_count y) || (waiting_threads_count y =? 0) then
    set_notific n (mk_notific (u32 (not_delivered_notifc_count y + 1)) (waiting_threads_count y) (waiting_threads y)) ;; ret 0
  else
    match waiting_threads y with
    | [] => fault
    | target :: _ =>
        wait_del target ;;
        y <- notific_at n ;;
        set_notific n (mk_notific (not_delivered_notifc_count y) (u32 (waiting_threads_count y - 1)) (waiting_threads y)) ;;
        ret target
    end.

(** The direct switch up to the [unlock] of the notification, and what follows. *)
Definition leave_current (me : Z) : MT unit :=
  cur <- on_sch (current_thread me) ;;
  on_sch (arch_set_thread_return cur 0) ;;
  r <- on_sch (sched_enqueue ops me cur) ;;
  BUG_ON (negb (r =? 0)).
Definition direct_switch (me n target : Z) : MT unit :=
  try_remove_timeout target n ;;
  r <- on_sch (switch_to_thread me target) ;;
  BUG_ON (negb (r =? 0)) ;;
  on_sch (eret_to_thread PLAT_CPU_NUM me).

Definition signal_notific (me n : Z) (enable_direct_switch : bool) : MT Z :=
  target <- take_waiter n ;;
  if target =? 0 then try_remove_timeout 0 n ;; ret 0
  else
    c <- on_sch (ctx_of target) ;;
    (if enable_direct_switch && ((affinity c =? NO_AFF) || (affinity c =? me)) then leave_current me ;; direct_switch me n target else ret tt) ;;
    on_sch (upd_ctx target (with_state TS_INTER)) ;;
    r <- on_sch (sched_enqueue ops me target) ;;
    BUG_ON (negb (r =? 0)) ;;
    try_remove_timeout target n ;;
    ret 0.

End notific.

Arguments tstate A K {_ _}.

(** ** System calls (notification.c and kernel/object/irq.c)

    The objects and capabilities of Capability.v, with the state above and the
    handlers of interrupts as payload. *)
Section sys.
Context {A H : Type} `{!Allocator A, !Allocator H} {K : Type} `{!EqDecision K, !Countable K}.
Context (PLAT_CPU_NUM tick_per_us : Z) (tick : nat → Z) (ops : sched_ops H K) (oob : Z → Z).

Definition SIZEOF_NOTIFICATION : Z := 32.
Definition SIZEOF_IRQ_NOTIFICATION : Z := 40.
Definition MAX_IRQ_NUM : Z := 4096.
Definition HANDLE_KERNEL : Z := 0.
Definition HANDLE_USER : Z := 1.

Record istate := mk_istate {
  ts : tstate H K;
  irq_notifcs : gmap Z Z;
  irq_handle_type : gmap Z Z;
  intr_vector : gmap Z Z
}.
Context (obj_deinit : Z → Z → M istate unit).
(** The interrupt controller. *)
Context (plat_ack_irq arch_enable_irqno : Z → M istate unit).

Abbreviation MK := (M (Capability.kstate (A := A) (E := istate))).
Import Capability(obj_alloc, cap_alloc, obj_free, obj_get, obj_put, on_ext, TYPE_NOTIFICATION, TYPE_IRQ, ECAPBILITY).

Definition on_ts {B} (m : M (tstate H K) B) : M istate B :=
  zoom ts (λ t x, mk_istate t (irq_notifcs x) (irq_handle_type x) (intr_vector x)) m.
Definition on_notific {B} (m : M (tstate H K) B) : MK B := on_ext (on_ts m).

(** [current_thread->cap_group] *)
Definition current_group (me : Z) : MK Z :=
  on_notific (on_sch (t <- current_thread me ;; th <- thread_at t ;; ret (cap_group th))).

Definition sys_create_notifc (cur : Z) : MK Z :=
  notifc <- obj_alloc TYPE_NOTIFICATION SIZEOF_NOTIFICATION ;;
  if notifc =? 0 then ret (- ENOMEM)
  else
    on_notific (init_notific notifc) ;;
    cap <- cap_alloc oob cur notifc 0 ;;
    if cap <? 0 then obj_free obj_deinit notifc ;; ret cap else ret cap.

(** [ts0] is what the user has at [timeout]. *)
Definition sys_wait (me notifc_cap : Z) (is_block : bool) (timeout : Z) (ts0 : timespec) : MK Z :=
  g <- current_group me ;;
  notifc <- obj_get g (s32 notifc_cap) TYPE_NOTIFICATION ;;
  if notifc =? 0 then ret (- ECAPBILITY)
  else
    timeout_k <- (if timeout =? 0 then ret None else t <- copy_from_user timeout ts0 ;; ret (Some t)) ;;
    r <- on_notific (wait_notific PLAT_CPU_NUM tick_per_us tick ops me notifc is_block timeout_k) ;;
    obj_put notifc ;;
    ret r.

Definition sys_notify (me notifc_cap : Z) : MK Z :=
  g <- current_group me ;;
  notifc <- obj_get g (s32 notifc_cap) TYPE_NOTIFICATION ;;
  if notifc =? 0 then ret (- ECAPBILITY)
  else
    r <- on_notific (signal_notific PLAT_CPU_NUM ops me notifc true) ;;
    obj_put notifc ;;
    ret r.

(** [&irq_notifc->notifc] *)
Definition notifc_of (irq_notifc : Z) : Z := irq_notifc + 8.

Definition user_handle_irq (me irq : Z) : M istate Z :=
  s <- get ;;
  match irq_notifcs s !! irq with
  | None => halt
  | Some p => on_ts (signal_notific PLAT_CPU_NUM ops me (notifc_of p) true) ;; ret 0
  end.

Definition irq_deinit (irq_notifc : Z) : M istate unit :=
  s <- get ;;
  irq <- need (intr_vector s !! irq_notifc) ;;
  modify (λ x, mk_istate (ts x) (delete irq (irq_notifcs x)) (<[irq := HANDLE_KERNEL]> (irq_handle_type x)) (intr_vector x)).

Definition sys_irq_register (cur irq : Z) : MK Z :=
  if (irq <? 0) || (MAX_IRQ_NUM <=? irq) then ret (- EINVAL)
  else
    p <- obj_alloc TYPE_IRQ SIZEOF_IRQ_NOTIFICATION ;;
    if p =? 0 then ret (- ENOMEM)
    else
      on_ext (modify (λ x, mk_istate (ts x) (irq_notifcs x) (irq_handle_type x) (<[p := irq]> (intr_vector x)))) ;;
      on_notific (init_notific (notifc_of p)) ;;
      cap <- cap_alloc oob cur p 0 ;;
      if cap <? 0 then obj_free obj_deinit p ;; ret cap
      else
        on_ext (modify (λ x, mk_istate (ts x) (<[irq := p]> (irq_notifcs x)) (<[irq := HANDLE_USER]> (irq_handle_type x)) (intr_vector x))) ;;
        on_ext (arch_enable_irqno irq) ;;
        ret cap.

Definition sys_irq_wait (me irq_cap : Z) (is_block : bool) : MK Z :=
  g <- current_group me ;;
  p <- obj_get g irq_cap TYPE_IRQ ;;
  if p =? 0 then ret (- ECAPBILITY)
  else
    r <- on_notific (wait_notific PLAT_CPU_NUM tick_per_us tick ops me (notifc_of p) is_block None) ;;
    obj_put p ;;
    ret r.

Definition sys_irq_ack (me irq_cap : Z) : MK Z :=
  g <- current_group me ;;
  p <- obj_get g irq_cap TYPE_IRQ ;;
  if p =? 0 then ret (- ECAPBILITY)
  else
    irq <- on_ext (s <- get ;; need (intr_vector s !! p)) ;;
    on_ext (plat_ack_irq irq) ;;
    obj_put p ;;
    ret 0.

(** The reference that [obj_get] takes is kept when the call does not return: a
    thread that blocks, and one that switches to the thread it wakes up. *)
Lemma sys_wait_keeps_reference me cap t0 s s1 s2 g notifc e : current_group me s = Done g s1 →
  obj_get g (s32 cap) TYPE_NOTIFICATION s1 = Done notifc s2 → notifc ≠ 0 →
  on_ts (wait_notific PLAT_CPU_NUM tick_per_us tick ops me notifc true None) (Capability.ext s2) = Away e →
  sys_wait me cap true 0 t0 s = Away (Capability.with_ext e s2).
Proof.
  intros E1 E2 Nn E3. unfold sys_wait. erewrite bind_Done by exact E1. erewrite bind_Done by exact E2.
  rewrite (proj2 (Z.eqb_neq _ _) Nn). unfold bind, ret, on_notific, on_ext, zoom. simpl. by rewrite E3.
Qed.

End sys.


(** ** Specification *)

(** What follows a sequence that has been specified. *)
Lemma wph_then {S X Y B} (m0 : M S X) (m : M S Y) (f : Y → M S unit) (k : M S B) Q Q' (s : S) :
  wph (m0 ;; x <- m ;; f x) (λ _, Q') s → (∀ s', Q' s' → wph k Q s') → wph (m0 ;; x <- m ;; f x ;; k) Q s.
Proof.
  unfold wph, bind. destruct (m0 s) as [x s1|x|  | | ]; try done. destruct (m s1) as [y s2|y| | |]; try done.
  destruct (f y s2) as [z s3|z| | |]; try done. intros H HQ. by apply HQ.
Qed.

Lemma mid_other (u t : Z) l1 l2 : u ≠ t → u ∈ l1 ++ t :: l2 ↔ u ∈ l1 ++ l2.
Proof. intros N. rewrite !elem_of_app, elem_of_cons. naive_solver. Qed.

Section spec.
Context {A : Type} `{!Allocator A} {K : Type} `{!EqDecision K, !Countable K}.
Context (N tick_per_us : Z) (tick : nat → Z) (ops : sched_ops A K) (inv : sstate A K → Prop) `{!Scheduler ops inv}.
Implicit Types s : tstate A K.

(** The tick a thread wakes up at. *)
Definition wk s (t : Z) : Z := default 0 (wakeup_tick <$> sleep s !! t).

(** The sleep lists: sorted, and a thread is on the list of its CPU exactly when
    it has a callback. *)
Record lists_ok s : Prop := {
  lo_list : ∀ d x, times s !! d = Some x → NoDup (sleep_list x) ∧ StronglySorted (λ t u, wk s t ≤ wk s u) (sleep_list x);
  lo_in : ∀ d x t, times s !! d = Some x → t ∈ sleep_list x → ∃ z, sleep s !! t = Some z ∧ sleep_cpu z = d ∧ is_Some (cb z);
  lo_cb : ∀ t z, sleep s !! t = Some z → is_Some (cb z) → ∃ x, times s !! sleep_cpu z = Some x ∧ t ∈ sleep_list x
}.

Definition is_waiting s (t : Z) : Prop := ∃ c, tctx (sch s) t = Some c ∧ state c = TS_WAITING ∧ type c ≠ TYPE_IDLE.

(** The notifications: the waiting threads are counted and wait on one
    notification each, and no thread waits while a signal is not delivered. *)
Record notifs_ok s : Prop := {
  no_count : ∀ n y, notifs s !! n = Some y → waiting_threads_count y = Z.of_nat (length (waiting_threads y)) ∧
    waiting_threads_count y < 2 ^ 32 ∧ NoDup (waiting_threads y) ∧ 0 ≤ not_delivered_notifc_count y < 2 ^ 32 ∧
    (not_delivered_notifc_count y = 0 ∨ waiting_threads y = []);
  no_waiter : ∀ n y t, notifs s !! n = Some y → t ∈ waiting_threads y → is_waiting s t ∧ is_Some (sleep s !! t);
  no_apart : ∀ n m y z t, notifs s !! n = Some y → notifs s !! m = Some z → t ∈ waiting_threads y → t ∈ waiting_threads z → n = m
}.

(** The callbacks of the threads but [skip]. *)
Record cbs_ok (skip : option Z) s : Prop := {
  cb_sleep : ∀ t z, sleep s !! t = Some z → skip ≠ Some t → cb z = Some SLEEP_TIMER_CB → is_waiting s t ∧ waiting t s = false;
  cb_notific : ∀ t z, sleep s !! t = Some z → skip ≠ Some t → cb z = Some NOTIFIC_TIMER_CB →
    ∃ y, notifs s !! pending_notific z = Some y ∧ t ∈ waiting_threads y
}.

Record world (skip : option Z) s : Prop := {
  w_inv : inv (sch s);
  w_lists : lists_ok s;
  w_notifs : notifs_ok s;
  w_cbs : cbs_ok skip s
}.

Lemma on_sch_ok {B} (m : M (sstate A K) B) s x y : m (sch s) = Done x y → on_sch m s = Done x (with_sch y s).
Proof. apply zoom_Done. Qed.
Lemma with_sch_id s : with_sch (sch s) s = s.
Proof. by destruct s. Qed.
Lemma sleep_at_ok s t z : sleep s !! t = Some z → sleep_at t s = Done z s.
Proof. intros H. unfold sleep_at. erewrite bind_Done by reflexivity. by rewrite H. Qed.
Lemma upd_sleep_ok s t z f : sleep s !! t = Some z → upd_sleep t f s = Done tt (with_sleep (<[t := f z]>) s).
Proof. intros H. unfold upd_sleep. by erewrite bind_Done by (by apply sleep_at_ok). Qed.
Lemma time_at_ok s d x : times s !! d = Some x → time_at d s = Done x s.
Proof. intros H. unfold time_at. erewrite bind_Done by reflexivity. by rewrite H. Qed.
Lemma upd_time_ok s d x f : times s !! d = Some x → upd_time d f s = Done tt (with_times (<[d := f x]>) s).
Proof. intros H. unfold upd_time. by erewrite bind_Done by (by apply time_at_ok). Qed.
Lemma notific_at_ok s n y : notifs s !! n = Some y → notific_at n s = Done y s.
Proof. intros H. unfold notific_at. erewrite bind_Done by reflexivity. by rewrite H. Qed.

Lemma waiting_false s t : waiting t s = false ↔ ∀ n y, notifs s !! n = Some y → t ∉ waiting_threads y.
Proof.
  unfold waiting. rewrite bool_decide_eq_false. split.
  - intros H n y Hn Ht. apply H. by exists n, y.
  - intros H (n & y & Hn & Ht). by apply (H n y).
Qed.
Lemma waiting_true s t n y : notifs s !! n = Some y → t ∈ waiting_threads y → waiting t s = true.
Proof. intros Hn Ht. apply bool_decide_eq_true. by exists n, y. Qed.
Lemma sleeping_cb s t z : lists_ok s → sleep s !! t = Some z → sleeping t s = bool_decide (is_Some (cb z)).
Proof.
  intros L Hz. unfold sleeping. apply bool_decide_ext. split.
  - intros (d & x & Hx & Ht). destruct (lo_in s L d x t Hx Ht) as (z' & Hz' & _ & ?). congruence.
  - intros H. destruct (lo_cb s L t z Hz H) as (x & Hx & Ht). by exists (sleep_cpu z), x.
Qed.

(** ** Sleep lists *)

Lemma insert_sleeper_spec s t w l : (∀ u, u ∈ l → is_Some (sleep s !! u)) →
  ∃ l1 l2, insert_sleeper t w l s = Done (l1 ++ t :: l2) s ∧ l = l1 ++ l2 ∧ (∀ u, u ∈ l1 → wk s u ≤ w) ∧
  match l2 with [] => True | u :: _ => w < wk s u end.
Proof.
  induction l as [|u l IH]; intros H.
  { exists [], []. split_and!; try done. by intros u ?%not_elem_of_nil. }
  destruct (H u ltac:(by left)) as [z Hz]. cbn [insert_sleeper]. erewrite bind_Done by (by apply sleep_at_ok).
  assert (wk s u = wakeup_tick z) as Eu by (unfold wk; by rewrite Hz).
  destruct (Z.ltb_spec w (wakeup_tick z)) as [Hw|Hw].
  { exists [], (u :: l). split_and!; try done; [by intros v ?%not_elem_of_nil|lia]. }
  destruct IH as (l1 & l2 & E & -> & H1 & H2); [intros v Hv; apply H; by right|]. erewrite bind_Done by exact E.
  exists (u :: l1), l2. split_and!; try done. intros v [->|Hv]%elem_of_cons; [lia|by apply H1].
Qed.

Lemma sorted_insert (R : Z → Z → Prop) (f : Z → Z) t l1 l2 : (∀ a b, R a b ↔ f a ≤ f b) → StronglySorted R (l1 ++ l2) →
  (∀ u, u ∈ l1 → f u ≤ f t) → match l2 with [] => True | u :: _ => f t < f u end → StronglySorted R (l1 ++ t :: l2).
Proof.
  intros HR HS H1 H2. induction l1 as [|u l1 IH]; simpl in *.
  - constructor; [done|]. destruct l2 as [|v l2]; [done|]. apply StronglySorted_inv in HS as [_ HS].
    constructor; [apply HR; lia|]. eapply Forall_impl; [exact HS|]. intros x Hx. apply HR in Hx. apply HR. lia.
  - apply StronglySorted_inv in HS as [HS HF]. constructor; [apply IH; [done|]; intros v Hv; apply H1; by right|].
    apply Forall_app in HF as [HF1 HF2]. apply Forall_app. split; [done|]. constructor; [|done]. apply HR, H1. by left.
Qed.

Lemma sorted_ext (R R' : Z → Z → Prop) l : (∀ a b, a ∈ l → b ∈ l → R a b → R' a b) → StronglySorted R l → StronglySorted R' l.
Proof.
  intros H HS. induction HS as [|a l HS IH HF]; [constructor|]. constructor; [apply IH; intros; apply H; by try right|].
  apply Forall_forall. intros b Hb. apply H; [by left|by right|]. by apply (proj1 (Forall_forall _ _) HF).
Qed.

Definition total_us (ts : timespec) : Z := u64 (u64 (tv_sec ts) * 1000 * 1000 + u64 (tv_nsec ts) / 1000).

(** What [enqueue_sleeper] does. *)
Definition enqueued_sleeper (me t : Z) (ts : timespec) (f : timer_cb) (x : time_state) (z : sleep_state) s s' : Prop :=
  let w := u64 (tick (reads s) + total_us ts * tick_per_us) in
  ∃ l1 l2, sleep_list x = l1 ++ l2 ∧ (∀ u, u ∈ l1 → wk s u ≤ w) ∧ match l2 with [] => True | u :: _ => w < wk s u end ∧
    times s' = <[me := mk_time (Z.min w (next_expire x)) (l1 ++ t :: l2)]> (times s) ∧
    sleep s' = <[t := mk_sleep w me (pending_notific z) (Some f)]> (sleep s) ∧ sch s' = sch s ∧ notifs s' = notifs s ∧
    reads s' = S (reads s) ∧
    timer s' = if w <? next_expire x then <[me := u64 (total_us ts * tick_per_us)]> (timer s) else timer s.

Lemma not_in_lists s t z : lists_ok s → sleep s !! t = Some z → cb z = None → ∀ d x, times s !! d = Some x → t ∉ sleep_list x.
Proof.
  intros L Hz Hc d x Hx Ht. destruct (lo_in s L d x t Hx Ht) as (z' & Hz' & _ & H). rewrite Hz in Hz'. injection Hz' as <-.
  rewrite Hc in H. by destruct H.
Qed.

Lemma wk_other s s' t u z : sleep s' = <[t := z]> (sleep s) → u ≠ t → wk s' u = wk s u.
Proof. intros E H. unfold wk. rewrite E, lookup_insert_ne by congruence. done. Qed.

Lemma enqueued_lists me t ts f s s' x z : lists_ok s → sleep s !! t = Some z → cb z = None → times s !! me = Some x →
  enqueued_sleeper me t ts f x z s s' → lists_ok s'.
Proof.
  intros L Hz Hc Hx (l1 & l2 & El & H1 & H2 & Et & Es & _). set (w := u64 _) in *. pose proof (not_in_lists s t z L Hz Hc) as Out.
  assert (wk s' t = w) as Ew by (unfold wk; rewrite Es; by rewrite lookup_insert_eq).
  assert (∀ u, u ≠ t → wk s' u = wk s u) as Ewo by (intros u Hu; by eapply wk_other).
  assert (∀ d y, times s !! d = Some y → StronglySorted (λ a b, wk s' a ≤ wk s' b) (sleep_list y)) as Hso.
  { intros d y Hy. eapply sorted_ext; [|apply (lo_list s L d y Hy)]. intros a b Ha Hb.
    rewrite !Ewo; [done|intros ->; by apply (Out d y Hy)..]. }
  split; rewrite Et, ?Es.
  - intros d y [[<- <-]|[Nd Hy]]%lookup_insert_Some; simpl; [|split; [apply (lo_list s L d y Hy)|by eapply Hso]].
    destruct (lo_list s L me x Hx) as [ND _]. pose proof (Hso me x Hx) as HS. pose proof (Out me x Hx) as Ox. rewrite El in ND, HS, Ox. split.
    + rewrite <- Permutation_middle. by apply NoDup_cons.
    + eapply (sorted_insert _ (wk s')); [done|done| |].
      * intros u Hu. rewrite Ew, Ewo by (intros ->; apply Ox; by apply elem_of_app; left). by apply H1.
      * destruct l2 as [|u l2]; [done|]. by rewrite Ew, Ewo by (intros ->; apply Ox; apply elem_of_mid).
  - intros d y u [[<- <-]|[Nd Hy]]%lookup_insert_Some Hu; simpl in *.
    + destruct (decide (u = t)) as [->|Nu]; [rewrite lookup_insert_eq; eexists; split; [done|]; by split|].
      rewrite lookup_insert_ne by done. apply (lo_in s L me x u Hx). rewrite El. by apply (mid_other u t).
    + rewrite lookup_insert_ne; [by apply (lo_in s L d y u Hy)|]. intros <-. by apply (Out d y Hy).
  - intros u zu [[<- <-]|[Nu Hu]]%lookup_insert_Some HS; simpl in *.
    + eexists. rewrite lookup_insert_eq. split; [done|]. apply elem_of_mid.
    + destruct (lo_cb s L u zu Hu HS) as (y & Hy & Hin). destruct (decide (sleep_cpu zu = me)) as [E|Ne].
      * rewrite E, Hx in Hy. injection Hy as <-. eexists. rewrite E, lookup_insert_eq. split; [done|]. simpl. rewrite El in Hin. by apply (mid_other u t).
      * exists y. by rewrite lookup_insert_ne.
Qed.

Lemma enqueue_sleeper_spec me t ts f s x z : lists_ok s → sleep s !! t = Some z → cb z = None → times s !! me = Some x →
  ∃ s', enqueue_sleeper tick_per_us tick me t ts f s = Done 0 s' ∧ enqueued_sleeper me t ts f x z s s'.
Proof.
  intros L Hz Hc Hx. pose proof (not_in_lists s t z L Hz Hc) as Out. unfold enqueue_sleeper. fold (total_us ts). cbv zeta.
  erewrite bind_Done by (unfold plat_get_current_tick; by erewrite bind_Done by reflexivity).
  set (w := u64 (tick (reads s) + total_us ts * tick_per_us)).
  erewrite bind_Done by (by apply upd_sleep_ok). erewrite bind_Done by (by apply time_at_ok). erewrite bind_Done by reflexivity.
  set (s1 := with_sleep _ _). assert (sleeping t s1 = false) as E1.
  { apply bool_decide_eq_false. intros (d & y & Hy & Ht). by apply (Out d y Hy). }
  rewrite E1. erewrite bind_Done by reflexivity.
  destruct (insert_sleeper_spec s1 t w (sleep_list x)) as (l1 & l2 & E2 & El & H1 & H2).
  { intros u Hu. destruct (lo_in s L me x u Hx Hu) as (zu & Hzu & _). exists zu. simpl. rewrite lookup_insert_ne; [done|].
    intros <-. by apply (Out me x Hx). }
  assert (∀ u, u ∈ sleep_list x → wk s1 u = wk s u) as Hwk.
  { intros u Hu. eapply wk_other; [reflexivity|]. intros ->. by apply (Out me x Hx). }
  erewrite bind_Done by exact E2. erewrite bind_Done by (by apply upd_time_ok).
  erewrite bind_Done by (apply upd_sleep_ok; apply lookup_insert_eq). erewrite bind_Done by (apply time_at_ok; apply lookup_insert_eq).
  cbn [next_expire sleep_list].
  exists (mk_tstate (sch s) (<[t := mk_sleep w me (pending_notific z) (Some f)]> (sleep s))
    (<[me := mk_time (Z.min w (next_expire x)) (l1 ++ t :: l2)]> (times s)) (notifs s) (S (reads s))
    (if w <? next_expire x then <[me := u64 (total_us ts * tick_per_us)]> (timer s) else timer s)). split.
  - assert (with_cb (Some f) (with_wakeup w me z) = mk_sleep w me (pending_notific z) (Some f)) as Ez by done.
    destruct (Z.ltb_spec w (next_expire x)) as [Hw|Hw].
    + erewrite bind_Done. 2: { erewrite bind_Done by (apply upd_time_ok; apply lookup_insert_eq). reflexivity. }
      unfold ret, s1. f_equal. unfold with_times, with_sleep, with_timer. simpl. rewrite !insert_insert_eq, Ez. by rewrite Z.min_l by lia.
    + erewrite bind_Done by reflexivity. unfold ret, s1. f_equal. unfold with_times, with_sleep. simpl.
      rewrite !insert_insert_eq, Ez. by rewrite Z.min_r by lia.
  - exists l1, l2. split; [done|]. split; [|split; [|done]].
    + intros u Hu. rewrite <- Hwk by (rewrite El; by apply elem_of_app; left). by apply H1.
    + destruct l2 as [|u l2]; [done|]. rewrite <- Hwk; [done|]. rewrite El. apply elem_of_mid.
Qed.

(** ** Dequeueing *)

(** Deleting a thread that is on the list of one key only. *)
Lemma fmap_drop {X} (m : gmap Z X) (d : X → X) k x : m !! k = Some x → (∀ j y, m !! j = Some y → j ≠ k → d y = y) →
  d <$> m = <[k := d x]> m.
Proof.
  intros Hk H. apply map_eq. intros j. rewrite lookup_fmap. destruct (decide (j = k)) as [->|Nj]; [by rewrite lookup_insert_eq, Hk|].
  rewrite lookup_insert_ne by done. destruct (m !! j) as [y|] eqn:Ej; [|done]. simpl. by rewrite (H j y).
Qed.
Lemma filter_notin (t : Z) (l : list Z) : t ∉ l → filter (λ u, u ≠ t) l = l.
Proof.
  induction l as [|u l IH]; [done|]. intros [H1 H2]%not_elem_of_cons. rewrite filter_cons, decide_True by done. by rewrite IH.
Qed.
Lemma sorted_filter {R : Z → Z → Prop} (P : Z → Prop) `{!∀ x, Decision (P x)} (l : list Z) : StronglySorted R l → StronglySorted R (filter P l).
Proof.
  induction 1 as [|a l HS IH HF]; [constructor|]. rewrite filter_cons. case_decide; [|done]. constructor; [done|].
  apply Forall_forall. intros b Hb%list_elem_of_filter. apply (proj1 (Forall_forall _ _) HF). by apply Hb.
Qed.

Lemma sleep_del_spec s t z : lists_ok s → sleep s !! t = Some z → is_Some (cb z) → ∃ x, times s !! sleep_cpu z = Some x ∧ t ∈ sleep_list x ∧
  sleep_del t s = Done tt (with_times (<[sleep_cpu z := drop_sleeper t x]>) s).
Proof.
  intros L Hz Hc. destruct (lo_cb s L t z Hz Hc) as (x & Hx & Ht). exists x. split; [done|]. split; [done|]. unfold sleep_del.
  erewrite bind_Done by reflexivity. rewrite (sleeping_cb s t z L Hz), bool_decide_eq_true_2 by done. unfold modify. f_equal.
  unfold with_times. f_equal. apply (fmap_drop _ (drop_sleeper t)); [done|]. intros d y Hy Nd. destruct y as [e l]. unfold drop_sleeper.
  simpl. rewrite filter_notin; [done|]. intros Ht'. destruct (lo_in s L d _ t Hy Ht') as (z' & Hz' & Hd & _). congruence.
Qed.

(** A sleeper leaves its list and loses its callback. *)
Lemma dequeued_lists s s' t z z' x : lists_ok s → sleep s !! t = Some z → times s !! sleep_cpu z = Some x →
  times s' = <[sleep_cpu z := drop_sleeper t x]> (times s) → sleep s' = <[t := z']> (sleep s) → cb z' = None → lists_ok s'.
Proof.
  intros L Hz Hx Et Es Hc'. assert (∀ u, u ≠ t → wk s' u = wk s u) as Ewo by (intros u Hu; by eapply wk_other).
  assert (∀ d y, times s' !! d = Some y → ∃ y0, times s !! d = Some y0 ∧ sleep_list y = filter (λ u, u ≠ t) (sleep_list y0)) as HT.
  { intros d y. rewrite Et. intros [[<- <-]|[Nd Hy]]%lookup_insert_Some; [by exists x|]. exists y. split; [done|].
    rewrite filter_notin; [done|]. intros Ht. destruct (lo_in s L d y t Hy Ht) as (z1 & Hz1 & Hd & _). congruence. }
  split.
  - intros d y Hy. destruct (HT d y Hy) as (y0 & Hy0 & ->). destruct (lo_list s L d y0 Hy0) as [ND HS].
    split; [by apply NoDup_filter|]. eapply sorted_ext; [|apply sorted_filter, HS].
    intros a b [Ha _]%list_elem_of_filter [Hb _]%list_elem_of_filter. by rewrite !Ewo.
  - intros d y u Hy. destruct (HT d y Hy) as (y0 & Hy0 & ->). intros [Nu Hu]%list_elem_of_filter. rewrite Es, lookup_insert_ne by done.
    by apply (lo_in s L d y0).
  - intros u zu. rewrite Es. intros [[<- <-]|[Nu Hu]]%lookup_insert_Some HS; [rewrite Hc' in HS; by destruct HS|].
    destruct (lo_cb s L u zu Hu HS) as (y & Hy & Hin). rewrite Et. destruct (decide (sleep_cpu zu = sleep_cpu z)) as [E|Ne].
    + rewrite E in *. rewrite Hx in Hy. injection Hy as <-. eexists. rewrite lookup_insert_eq. split; [done|]. by apply list_elem_of_filter.
    + exists y. by rewrite lookup_insert_ne by congruence.
Qed.

(** ** Notifications as counting semaphores

    The abstract state is the number of signals that are not delivered and the
    queue of the waiting threads. *)
Definition abs (y : notification) : Z * list Z := (not_delivered_notifc_count y, waiting_threads y).
Definition sem_signal (x : Z * list Z) : Z * list Z :=
  match x.2 with [] => (u32 (x.1 + 1), []) | _ :: q => (x.1, q) end.
Definition sem_wait (t : Z) (x : Z * list Z) : Z * list Z := if 0 <? x.1 then (x.1 - 1, x.2) else (x.1, x.2 ++ [t]).

(** A notification that is right by itself. *)
Definition notific_ok (y : notification) : Prop :=
  waiting_threads_count y = Z.of_nat (length (waiting_threads y)) ∧ waiting_threads_count y < 2 ^ 32 ∧
  NoDup (waiting_threads y) ∧ 0 ≤ not_delivered_notifc_count y < 2 ^ 32 ∧
  (not_delivered_notifc_count y = 0 ∨ waiting_threads y = []).

Lemma wait_del_spec s n y t : notifs_ok s → notifs s !! n = Some y → t ∈ waiting_threads y →
  wait_del t s = Done tt (with_notifs (<[n := drop_waiter t y]>) s).
Proof.
  intros HN Hn Ht. unfold wait_del. erewrite bind_Done by reflexivity. rewrite (waiting_true s t n y) by done. unfold modify, with_notifs.
  do 2 f_equal. apply (fmap_drop _ (drop_waiter t)); [done|]. intros m x Hx Nm. destruct x as [a b l]. unfold drop_waiter. simpl.
  rewrite filter_notin; [done|]. intros Ht'. apply Nm. by apply (no_apart s HN m n _ _ t Hx Hn Ht').
Qed.

Lemma take_waiter_spec s n y : notifs_ok s → notifs s !! n = Some y →
  ∃ y', take_waiter n s = Done (default 0 (head (waiting_threads y))) (with_notifs (<[n := y']>) s) ∧ notific_ok y' ∧
  abs y' = sem_signal (abs y) ∧ (∀ u, u ∈ waiting_threads y' ↔ u ∈ waiting_threads y ∧ Some u ≠ head (waiting_threads y)).
Proof.
  intros HN Hn. destruct (no_count s HN n y Hn) as (C1 & C2 & C3 & C4 & C5). unfold take_waiter. erewrite bind_Done by (by apply notific_at_ok).
  destruct (waiting_threads y) as [|t q] eqn:Eq.
  { simpl in C1. rewrite (proj2 (Z.eqb_eq (waiting_threads_count y) 0)), orb_true_r by lia. erewrite bind_Done by reflexivity. eexists.
    split; [reflexivity|]. split; [|split; [unfold abs, sem_signal; simpl; by rewrite Eq|by intros u; split; [intros ?%not_elem_of_nil|intros [?%not_elem_of_nil _]]]].
    unfold notific_ok. simpl. unfold u32. pose proof (Z.mod_pos_bound (not_delivered_notifc_count y + 1) (2 ^ 32)). split_and!; try done; try lia. by right. }
  destruct C5 as [C5|C5]; [|done]. rewrite C5. change (0 <? 0) with false. simpl in C1.
  rewrite (proj2 (Z.eqb_neq (waiting_threads_count y) 0)) by lia. cbn [orb].
  erewrite bind_Done by (apply (wait_del_spec s n y t HN Hn); rewrite Eq; by left).
  erewrite bind_Done by (apply notific_at_ok; apply lookup_insert_eq). erewrite bind_Done by reflexivity. eexists.
  apply NoDup_cons in C3 as [Nt NDq].
  assert (filter (λ u, u ≠ t) (waiting_threads y) = q) as Ef by (rewrite Eq, filter_cons, decide_False by (intros H; by apply H); by apply filter_notin).
  split; [unfold ret, with_notifs; simpl; by rewrite insert_insert_eq|]. unfold drop_waiter, abs, sem_signal, notific_ok. simpl. rewrite Ef, Eq, C5. simpl.
  rewrite u32_id by (unfold is_u32; lia). split_and!; try done; try lia. intros u. rewrite elem_of_cons. split.
  - intros Hu. split; [by right|]. intros [= ->]. done.
  - intros [[->|Hu] Nu]; [done|done].
Qed.

Lemma lists_ok_same s s' : sleep s' = sleep s → times s' = times s → lists_ok s → lists_ok s'.
Proof. intros E1 E2 [L1 L2 L3]. unfold wk in L1. split; unfold wk; rewrite E1, E2; done. Qed.

(** One notification changes and no other thread joins it. *)
Lemma notifs_ok_put s s' n y y' : notifs_ok s → notifs s !! n = Some y → notifs s' = <[n := y']> (notifs s) → notific_ok y' →
  (∀ t, t ∈ waiting_threads y' → t ∈ waiting_threads y) →
  (∀ m z t, notifs s' !! m = Some z → t ∈ waiting_threads z → is_waiting s t → is_Some (sleep s !! t) → is_waiting s' t ∧ is_Some (sleep s' !! t)) →
  notifs_ok s'.
Proof.
  intros [N1 N2 N3] Hn En Hy Hsub Hw.
  assert (∀ m z, notifs s' !! m = Some z → ∃ z0, notifs s !! m = Some z0 ∧ ∀ t, t ∈ waiting_threads z → t ∈ waiting_threads z0) as HS.
  { intros m z. rewrite En. intros [[<- <-]|[_ Hz]]%lookup_insert_Some; [by exists y|by exists z]. }
  split.
  - intros m z Hz. pose proof Hz as Hz'. rewrite En in Hz. apply lookup_insert_Some in Hz as [[<- <-]|[_ Hz]]; [done|by apply (N1 m)].
  - intros m z t Hz Ht. destruct (HS m z Hz) as (z0 & Hz0 & H0). destruct (N2 m z0 t Hz0 (H0 t Ht)). by eapply Hw.
  - intros m k z x t Hz Hx Ht Ht'. destruct (HS m z Hz) as (z0 & Hz0 & H0), (HS k x Hx) as (x0 & Hx0 & H1).
    apply (N3 m k z0 x0 t); auto.
Qed.

(** ** Waking up *)

(** Thread [t] is made ready: the scheduler state changes, no other thread wakes
    up or starts to wait. *)
Definition woken (me t : Z) s s' : Prop :=
  ∃ x f, s' = with_sch x s ∧ inv x ∧ changes (sch s) x f ∧ (∀ c, tctx (sch s) t = Some c → state (f t c) = TS_READY) ∧
  (∀ u c, u ≠ t → state (f u c) = state c) ∧
  (∀ u c, type (f u c) = type c ∧ ec (f u c) = ec c ∧ sc (f u c) = sc c ∧ budget (f u c) = budget c) ∧
  ∃ r r', cpus (sch s) !! me = Some r ∧ cpus x = <[me := r']> (cpus (sch s)) ∧ current r' = current r.

Lemma enqueue_wakes s me r t c : inv (sch s) → cpus (sch s) !! me = Some r → tctx (sch s) t = Some c → state c ≠ TS_READY →
  current r ≠ t ∨ affinity c = NO_AFF → type c ≠ TYPE_IDLE →
  wph (n <- on_sch (sched_enqueue ops me t) ;; BUG_ON (negb (n =? 0))) (λ _, woken me t s) s.
Proof.
  intros I Hr Hc Hs Hcur Ht. destruct (sc_enqueue (sch s) me r t c I Hr Hc Hs Hcur Ht) as (n & x & E & Ix & (r' & Hr' & Hcur') & Hf).
  eapply wph_step; [apply on_sch_ok; exact E|]. destruct (Z.eqb_spec n 0) as [->|Nn]; [|done]. eapply wph_Done; [reflexivity|].
  destruct (Hf eq_refl) as (f & HC & HR & Ho & Hk). exists x, f. split_and!; try done.
  - intros c' Hc'. rewrite Hc in Hc'. by injection Hc' as <-.
  - by exists r, r'.
Qed.

Lemma wake_spec s me r t c : inv (sch s) → cpus (sch s) !! me = Some r → tctx (sch s) t = Some c → state c = TS_WAITING →
  type c ≠ TYPE_IDLE → current r ≠ t →
  wph (on_sch (upd_ctx t (with_state TS_INTER)) ;; n <- on_sch (sched_enqueue ops me t) ;; BUG_ON (negb (n =? 0))) (λ _, woken me t s) s.
Proof.
  intros I Hr Hc Hs Ht Hcur. set (s1 := put_ctx t (with_state TS_INTER) (sch s)).
  eapply wph_step; [apply on_sch_ok; by eapply upd_ctx_ok|].
  assert (inv s1) as I1 by (apply (sc_update ops inv (sch s) me r t c); [done..|by rewrite Hs|done|done]).
  eapply wph_mono; [by apply (enqueue_wakes (with_sch s1 s) me r t _ I1 Hr (with_fold_ctx _ _ _ Hc _)); [|left|]|].
  intros _ s2 (x & f & -> & Ix & HC & HR & Ho & Hk & HW). exists x, (λ u c, f u (at_thread t (with_state TS_INTER) u c)).
  split_and!; try done.
  - eapply changes_trans; [apply changes_put_ctx|exact HC].
  - intros c' Hc'. rewrite Hc in Hc'. injection Hc' as <-. unfold at_thread. rewrite decide_True by done. apply HR. by apply with_fold_ctx.
  - intros u cu Nu. rewrite Ho by done. unfold at_thread. by rewrite decide_False.
  - intros u cu. destruct (Hk u (at_thread t (with_state TS_INTER) u cu)) as (-> & -> & -> & ->). unfold at_thread. by case_decide.
Qed.

Lemma woken_waiting me t s s' u : woken me t s s' → u ≠ t → is_waiting s u → is_waiting s' u.
Proof.
  intros (x & f & -> & _ & HC & _ & Ho & Hk & _) Nu (c & Hc & Hs & Ht). exists (f u c).
  split; [exact (changes_tctx _ _ _ _ _ HC Hc)|]. rewrite Ho by done. by destruct (Hk u c) as [-> _].
Qed.

(** A change of the scheduler state in which no thread but [t], which is off every
    notification and does not sleep, stops to wait. *)
Lemma world_sch skip t s x : world skip s → inv x → waiting t s = false →
  (∀ z, sleep s !! t = Some z → skip ≠ Some t → cb z ≠ Some SLEEP_TIMER_CB) →
  (∀ u, u ≠ t → is_waiting s u → is_waiting (with_sch x s) u) → world skip (with_sch x s).
Proof.
  intros [W1 W2 W3 [C1 C2]] Ix Nw Ncb Hw. pose proof (proj1 (waiting_false s t) Nw) as Out. destruct W3 as [N1 N2 N3].
  split; [done|by apply (lists_ok_same s)| |].
  - split; [done| |done]. intros n y u Hn Hu. destruct (N2 n y u Hn Hu) as [H1 H2]. split; [|done].
    apply Hw; [|done]. intros ->. by apply (Out n y).
  - split; [|done]. intros u z Hz Nu Hc. destruct (C1 u z Hz Nu Hc) as [H1 H2]. split; [|done].
    apply Hw; [|done]. intros ->. by apply (Ncb z).
Qed.

Lemma world_woken skip me t s s' : world skip s → waiting t s = false → (∀ z, sleep s !! t = Some z → skip ≠ Some t → cb z ≠ Some SLEEP_TIMER_CB) →
  woken me t s s' → world skip s'.
Proof.
  intros W Nw Ncb Hw. pose proof Hw as (x & f & -> & Ix & _). apply (world_sch skip t); try done.
  intros u Nu. by eapply woken_waiting.
Qed.

(** A thread that does not wait is neither on a notification nor asleep. *)
Lemma not_waiting skip s t : world skip s → ¬ is_waiting s t → waiting t s = false ∧
  ∀ z, sleep s !! t = Some z → skip ≠ Some t → cb z ≠ Some SLEEP_TIMER_CB.
Proof.
  intros [_ _ W3 [C1 _]] Nw. split.
  - apply waiting_false. intros n y Hn Ht. by destruct (no_waiter s W3 n y t Hn Ht).
  - intros z Hz Hk Hc. by destruct (C1 t z Hz Hk Hc).
Qed.

(** [t] leaves its sleep list. *)
Lemma world_dequeue s s' t z z' d : world (Some t) s → sleep s !! t = Some z → times s !! sleep_cpu z = Some d →
  times s' = <[sleep_cpu z := drop_sleeper t d]> (times s) → sleep s' = <[t := z']> (sleep s) → cb z' = None →
  sch s' = sch s → notifs s' = notifs s → world None s'.
Proof.
  intros [W1 W2 [N1 N2 N3] [C1 C2]] Hz Hd Et Es Hc' Eh En.
  assert (∀ u zu, <[t := z']> (sleep s) !! u = Some zu → is_Some (cb zu) → u ≠ t ∧ sleep s !! u = Some zu) as HS.
  { intros u zu [[<- <-]|[Nu Hu]]%lookup_insert_Some Hcb; [rewrite Hc' in Hcb; by destruct Hcb|done]. }
  assert (∀ u, is_waiting s u → is_waiting s' u) as Hw by (intros u (c & Hu & Hs); exists c; by rewrite Eh).
  split; [by rewrite Eh| | |].
  - by eapply (dequeued_lists s s' t z z' d).
  - split; rewrite En; try done. intros m y u Hm Hu. destruct (N2 m y u Hm Hu) as [H1 H2]. split; [by apply Hw|].
    rewrite Es. destruct (decide (t = u)) as [<-|Nu]; [rewrite lookup_insert_eq; by eexists|by rewrite lookup_insert_ne].
  - split; rewrite Es, ?En; intros u zu Hu _ Hc; destruct (HS u zu Hu) as [Nu Hu']; try (by rewrite Hc).
    + destruct (C1 u zu) as [H1 H2]; [done|congruence|done|]. split; [by apply Hw|]. rewrite <- H2. unfold waiting. by rewrite En.
    + apply (C2 u zu); [done|congruence|done].
Qed.

Lemma try_remove_timeout_spec s t n z : world (Some t) s → t ≠ 0 → sleep s !! t = Some z → (is_Some (cb z) → pending_notific z = n) →
  ∃ s', try_remove_timeout t n s = Done tt s' ∧ world None s' ∧ sch s' = sch s ∧ notifs s' = notifs s ∧
  ∃ z', sleep s' !! t = Some z' ∧ cb z' = None.
Proof.
  intros W Nt Hz Hp. pose proof W as [W1 W2 W3 [C1 C2]]. unfold try_remove_timeout. rewrite (proj2 (Z.eqb_neq t 0)) by done.
  erewrite bind_Done by (by apply sleep_at_ok). destruct (decide (cb z = None)) as [Ec|Ec].
  { rewrite bool_decide_eq_true_2 by done. exists s. split; [done|]. split; [|split; [done|split; [done|by exists z]]]. split; [done..|]. split.
    - intros u zu Hu _ Hc. apply (C1 u zu Hu); [intros [= ->]; congruence|done].
    - intros u zu Hu _ Hc. apply (C2 u zu Hu); [intros [= ->]; congruence|done]. }
  rewrite bool_decide_eq_false_2 by done. assert (is_Some (cb z)) as Hs by (by destruct (cb z); [eexists|]).
  destruct (sleep_del_spec s t z W2 Hz Hs) as (x & Hx & Hin & E).
  erewrite bind_Done. 2: { unfold try_dequeue_sleeper. rewrite (proj2 (Z.eqb_neq t 0)) by done. erewrite bind_Done by reflexivity.
    erewrite bind_Done by (by apply sleep_at_ok). erewrite bind_Done by (by apply time_at_ok).
    rewrite bool_decide_eq_false_2 by done. erewrite bind_Done by exact E. erewrite bind_Done by (by apply upd_sleep_ok). reflexivity. }
  erewrite bind_Done by (apply sleep_at_ok; apply lookup_insert_eq). cbn [pending_notific with_cb].
  rewrite (Hp Hs), (Z.eqb_refl n), andb_false_r. erewrite bind_Done by reflexivity. eexists.
  split; [apply upd_sleep_ok; apply lookup_insert_eq|].
  split; [|split; [done|split; [done|eexists; split; [apply lookup_insert_eq|done]]]].
  apply (world_dequeue s _ t z (with_pending 0 (with_cb None z)) x); try done. simpl. by rewrite insert_insert_eq.
Qed.

(** A waiting thread is taken off its notification. *)
Lemma world_removed s n y y' t : world None s → notifs s !! n = Some y → t ∈ waiting_threads y → notific_ok y' →
  (∀ u, u ∈ waiting_threads y' ↔ u ∈ waiting_threads y ∧ u ≠ t) →
  world (Some t) (with_notifs (<[n := y']>) s) ∧ waiting t (with_notifs (<[n := y']>) s) = false ∧ is_waiting s t ∧ t ≠ 0 ∧
  ∃ z, sleep s !! t = Some z ∧ (is_Some (cb z) → pending_notific z = n).
Proof.
  intros [W1 W2 W3 [C1 C2]] Hn Ht Hy' Hm. destruct (no_waiter s W3 n y t Hn Ht) as [Hw [z Hz]].
  assert (∀ m x u, <[n := y']> (notifs s) !! m = Some x → u ∈ waiting_threads x → u ≠ t ∧ ∃ x0, notifs s !! m = Some x0 ∧ u ∈ waiting_threads x0) as HU.
  { intros m x u [[<- <-]|[Nm Hx]]%lookup_insert_Some Hu.
    - apply Hm in Hu as [Hu Nu]. split; [done|]. by exists y.
    - split; [|by exists x]. intros ->. apply Nm. by apply (no_apart s W3 n m y x t). }
  split; [split|split; [|split; [done|split; [|exists z; split; [done|]]]]].
  - done.
  - by apply (lists_ok_same s).
  - apply (notifs_ok_put s _ n y y' W3 Hn); [done|done| |done]. intros u Hu%Hm. apply Hu.
  - split.
    + intros u zu Hu Nu Hc. destruct (C1 u zu Hu) as [H1 H2]; [done|done|]. split; [done|]. apply waiting_false. intros m x Hx Hin.
      destruct (HU m x u Hx Hin) as (_ & x0 & Hx0 & Hin0). by apply (proj1 (waiting_false s u) H2 m x0).
    + intros u zu Hu Nu Hc. destruct (C2 u zu Hu) as (x & Hx & Hin); [done|done|]. simpl. destruct (decide (pending_notific zu = n)) as [E|Ne].
      * rewrite E in *. rewrite lookup_insert_eq. exists y'. split; [done|]. apply Hm. rewrite Hn in Hx. injection Hx as <-. split; [done|congruence].
      * exists x. by rewrite lookup_insert_ne.
  - apply waiting_false. intros m x Hx Hin. by destruct (HU m x t Hx Hin).
  - intros ->. destruct Hw as (c & Hc & _). by rewrite (sc_null (sch s) W1) in Hc.
  - intros Hs. destruct (cb z) as [[]|] eqn:Ec; [| |by destruct Hs].
    + destruct (C1 t z Hz) as [_ Hf]; [done|done|]. by rewrite (waiting_true s t n y) in Hf.
    + destruct (C2 t z Hz) as (x & Hx & Hin); [done|done|]. by apply (no_apart s W3 _ n x y t).
Qed.

(** The first waiting thread. *)
Lemma world_taken s n y y' t q : world None s → notifs s !! n = Some y → waiting_threads y = t :: q → notific_ok y' →
  (∀ u, u ∈ waiting_threads y' ↔ u ∈ waiting_threads y ∧ Some u ≠ head (waiting_threads y)) →
  world (Some t) (with_notifs (<[n := y']>) s) ∧ waiting t (with_notifs (<[n := y']>) s) = false ∧ is_waiting s t ∧ t ≠ 0 ∧
  ∃ z, sleep s !! t = Some z ∧ (is_Some (cb z) → pending_notific z = n).
Proof.
  intros W Hn Eq Hy' Hm. apply (world_removed s n y y' t); try done; [rewrite Eq; by left|]. intros u. rewrite Hm, Eq. simpl.
  split; intros [H1 H2]; split; congruence.
Qed.

Lemma world_set s n y y' : world None s → notifs s !! n = Some y → waiting_threads y' = waiting_threads y → notific_ok y' →
  world None (with_notifs (<[n := y']>) s).
Proof.
  intros [W1 W2 W3 [C1 C2]] Hn Ew Hy'. split; [done|by apply (lists_ok_same s)| |].
  - apply (notifs_ok_put s _ n y y' W3 Hn); [done|done|by rewrite Ew|done].
  - split.
    + intros u zu Hu Nu Hc. destruct (C1 u zu Hu Nu Hc) as [H1 H2]. split; [done|]. apply waiting_false.
      simpl. intros m x [[<- <-]|[_ Hx]]%lookup_insert_Some; [rewrite Ew|]; by eapply (proj1 (waiting_false s u) H2).
    + intros u zu Hu Nu Hc. destruct (C2 u zu Hu Nu Hc) as (x & Hx & Hin). simpl. destruct (decide (pending_notific zu = n)) as [E|Ne].
      * rewrite E in *. rewrite lookup_insert_eq. exists y'. split; [done|]. rewrite Ew. congruence.
      * exists x. by rewrite lookup_insert_ne.
Qed.

(** ** The operations *)

Lemma signal_spec s me r n y : world None s → cpus (sch s) !! me = Some r → ¬ is_waiting s (current r) → notifs s !! n = Some y →
  wph (signal_notific N ops me n false) (λ v s', v = 0 ∧ world None s' ∧
    (∃ y', notifs s' = <[n := y']> (notifs s) ∧ abs y' = sem_signal (abs y)) ∧
    match waiting_threads y with
    | [] => sch s' = sch s
    | t :: _ => ∃ c, tctx (sch s') t = Some c ∧ state c = TS_READY
    end) s.
Proof.
  intros W Hr Hcur Hn. destruct (take_waiter_spec s n y (w_notifs _ _ W) Hn) as (y' & E & Hy' & Habs & Hm). unfold signal_notific.
  eapply wph_step; [exact E|]. clear E. destruct (waiting_threads y) as [|t q] eqn:Eq.
  { eapply wph_Done; [reflexivity|]. split; [done|]. split; [|split; [by exists y'|done]].
    eapply world_set; [done|done| |done]. rewrite Eq. unfold abs, sem_signal in Habs. simpl in Habs. rewrite Eq in Habs. by injection Habs. }
  change (default 0 (head (t :: q))) with t. destruct (world_taken s n y y' t q W Hn Eq Hy') as (W1 & Nw & Hw & Nt & z & Hz & Hp); [by rewrite Eq|].
  set (s1 := with_notifs _ s) in *. rewrite (proj2 (Z.eqb_neq t 0)) by done. pose proof Hw as (c & Hc & Hs & Hty).
  eapply wph_step; [apply on_sch_ok; by apply ctx_of_ok|]. cbn [andb]. eapply wph_step; [reflexivity|].
  change (with_sch (sch s1) s1) with s1.
  assert (current r ≠ t) as Nc by (intros <-; done).
  eapply wph_then; [by apply (wake_spec s1 me r t c (w_inv _ _ W1) Hr Hc Hs Hty Nc)|]. intros s2 HW.
  pose proof (world_woken (Some t) me t s1 s2 W1 Nw ltac:(done) HW) as W2. pose proof HW as (x & f & -> & _ & HC & HR & _).
  destruct (try_remove_timeout_spec _ t n z W2 Nt Hz Hp) as (s3 & E3 & W3 & Es & En & _). eapply wph_step; [exact E3|].
  eapply wph_Done; [reflexivity|]. split; [done|]. split; [done|]. split; [exists y'; by rewrite En|].
  exists (f t c). rewrite Es. split; [exact (changes_tctx _ _ _ _ _ HC Hc)|by apply HR].
Qed.

(** A switch to [t], which waits on nothing, and the return to it. *)
Lemma switch_away s me r t c v : world None s → cpus (sch s) !! me = Some r → 0 ≤ me < N → current r ≠ 0 → current r ≠ THREAD_ITSELF → current r ≠ t →
  tctx (sch s) t = Some c → t ≠ 0 → state c ≠ TS_READY → tvm (sch s) t = Some v → (has_vmspace c = true → v ≠ 0) →
  waiting t s = false → (∀ z, sleep s !! t = Some z → cb z ≠ Some SLEEP_TIMER_CB) →
  ∃ x r' c', (n <- on_sch (switch_to_thread me t) ;; BUG_ON (negb (n =? 0)) ;; on_sch (eret_to_thread N me)) s = Away (with_sch x s) ∧
  world None (with_sch x s) ∧ cpus x !! me = Some r' ∧ current r' = t ∧ tctx x t = Some c' ∧ state c' = TS_RUNNING.
Proof.
  intros W Hr Hme Nc Ni Nct Hc Nt Hs Hv Nv Nw Ncb. pose proof (w_inv _ _ W) as I.
  destruct (switch_to_thread_spec (sch s) me r t c Hr Hc Nt Hs) as (x & E & Ea & Er & Eh & Ec & HT & HP & HV); [intros _; by eapply sc_current|].
  pose proof (sc_switch _ _ _ _ _ _ I Hr Hc Hs E) as Ix.
  assert (cpus x !! me = Some (switched_cpu t c r)) as Hrx by (rewrite Ec; apply lookup_insert_eq).
  assert (current (switched_cpu t c r) = t) as Hcur by (unfold switched_cpu; by rewrite decide_False).
  destruct (sc_current _ _ _ I Hr Nc) as [co Hco].
  destruct (eret_spec N x me _ (switched me t r t c) (current r) v Hrx) as (x2 & E2 & Er2 & _ & Ec2 & HC2); rewrite ?Hcur; try done.
  { rewrite HT, Hc. done. }
  { rewrite HP, decide_True by done. by rewrite decide_False. }
  { by rewrite HV. }
  { intros H. apply Nv. revert H. unfold switched. by repeat case_decide. }
  { intros _. rewrite HT, Hco. by eexists. }
  assert (no_prev (current r) = false) as En by (unfold no_prev; rewrite !(proj2 (Z.eqb_neq _ _)) by done; done).
  rewrite En in HC2. exists x2, (if negb (current r =? THREAD_ITSELF) && has_vmspace (switched me t r t c) then with_ttbr0 v (switched_cpu t c r) else switched_cpu t c r),
    (switched me t r t c). split.
  { erewrite bind_Done by (apply on_sch_ok; exact E). erewrite bind_Done by reflexivity. unfold on_sch, zoom. simpl. by rewrite E2. }
  assert (tctx x2 t = Some (switched me t r t c)) as Ht2.
  { rewrite (changes_tctx _ _ _ t (switched me t r t c) HC2) by (by rewrite HT, Hc). unfold at_thread. by rewrite decide_False. }
  split; [|split_and!; [rewrite Ec2; apply lookup_insert_eq|by destruct (_ && _)|done|unfold switched; rewrite (decide_False (P := t = current r)), decide_True by done; done]].
  apply (world_sch None t s x2 W); try done.
  - apply (sc_same x x2 me (switched_cpu t c r) _ (at_thread (current r) (with_stack_state KS_FREE)) Ix Hrx Ec2); [destruct (_ && _); [right; by eexists|by left]|done|apply HC2| |].
    + intros u cu Hu. unfold at_thread. by destruct (decide (u = current r)).
    + intros u cu. unfold at_thread. by destruct (decide (u = current r)).
  - intros z Hz _. by apply Ncb.
  - intros u Nu (cu & Hu & Hsu & Htu). eexists. split; [apply (changes_tctx _ _ _ u (switched me t r u cu) HC2); by rewrite HT, Hu|].
    unfold switched, at_thread. rewrite (decide_False (P := t = current r)), (decide_False (P := u = t)) by congruence.
    destruct (decide (u = current r ∧ _)), (decide (u = current r)); done.
Qed.

(** The current thread leaves the CPU and stays ready. *)
Lemma leave_current_spec skip s me r cc : world skip s → cpus (sch s) !! me = Some r → tctx (sch s) (current r) = Some cc →
  state cc = TS_RUNNING → type cc ≠ TYPE_IDLE → affinity cc = NO_AFF →
  wph (leave_current ops me) (λ _ s', ∃ x f r', s' = with_sch x s ∧ world skip s' ∧ changes (sch s) x f ∧ state (f (current r) cc) = TS_READY ∧
    (∀ u c, u ≠ current r → state (f u c) = state c ∧ type (f u c) = type c) ∧
    cpus x !! me = Some r' ∧ current r' = current r) s.
Proof.
  intros W Hr Hcc Hs Ht Ha. unfold leave_current. eapply wph_step; [apply on_sch_ok; by apply current_thread_ok|].
  rewrite with_sch_id. set (g := with_ec (<[X0 := 0]>)). set (x1 := put_ctx (current r) g (sch s)).
  eapply wph_step; [apply on_sch_ok; unfold arch_set_thread_return, set_reg; by eapply upd_ctx_ok|]. fold g x1.
  assert (¬ is_waiting s (current r)) as Nw by (intros (c & Hc & Hw & _); congruence).
  destruct (not_waiting skip s (current r) W Nw) as [Nw1 Ncb].
  assert (inv x1) as I1 by (apply (sc_update ops inv (sch s) me r (current r) cc); [apply W|done|done|by rewrite Hs|simpl; by rewrite Hs|done]).
  assert (∀ u, u ≠ current r → is_waiting s u → is_waiting (with_sch x1 s) u) as K1.
  { intros u Nu (c & Hc & Hw). exists c. split; [|done]. simpl. unfold x1. by rewrite tctx_put_ctx, decide_False. }
  pose proof (world_sch skip (current r) s x1 W I1 Nw1 Ncb K1) as W1.
  eapply wph_mono; [apply (enqueue_wakes (with_sch x1 s) me r (current r) (g cc) I1 Hr (with_fold_ctx _ _ _ Hcc g)); [by simpl; rewrite Hs|by right|done]|].
  intros ? s2 HW. cbv beta in HW. pose proof (world_woken skip me (current r) (with_sch x1 s) s2 W1 Nw1 Ncb HW) as W2.
  destruct HW as (x & f & -> & Ix & HC & HR & Ho & Hk & r0 & r' & Hr0 & Hr' & Ecur). exists x, (λ u c, f u (at_thread (current r) g u c)), r'.
  split; [done|]. split; [done|]. split; [eapply changes_trans; [apply changes_put_ctx|exact HC]|].
  split; [unfold at_thread; rewrite decide_True by done; apply HR; by apply with_fold_ctx|]. split.
  - intros u c Nu. unfold at_thread. rewrite decide_False by done. split; [by apply Ho|by destruct (Hk u c)].
  - split; [rewrite Hr'; apply lookup_insert_eq|]. rewrite Ecur. simpl in Hr0. congruence.
Qed.

Lemma signal_direct_spec s me r n y t q c cc v : world None s → cpus (sch s) !! me = Some r → 0 ≤ me < N →
  current r ≠ 0 → current r ≠ THREAD_ITSELF → tctx (sch s) (current r) = Some cc → state cc = TS_RUNNING → type cc ≠ TYPE_IDLE →
  affinity cc = NO_AFF → notifs s !! n = Some y → waiting_threads y = t :: q → tctx (sch s) t = Some c →
  affinity c = NO_AFF ∨ affinity c = me → tvm (sch s) t = Some v → (has_vmspace c = true → v ≠ 0) →
  signal_notific N ops me n true s = Halt ∨ ∃ s', signal_notific N ops me n true s = Away s' ∧ world None s' ∧
    (∃ y', notifs s' = <[n := y']> (notifs s) ∧ abs y' = sem_signal (abs y)) ∧
    (∃ r' c', cpus (sch s') !! me = Some r' ∧ current r' = t ∧ tctx (sch s') t = Some c' ∧ state c' = TS_RUNNING).
Proof.
  intros W Hr Hme Nc Ni Hcc Hsc Htc Hac Hn Eq Hc Hac' Hv Nv.
  destruct (take_waiter_spec s n y (w_notifs _ _ W) Hn) as (y' & E & Hy' & Habs & Hm). unfold signal_notific.
  erewrite bind_Done by exact E. rewrite Eq. change (default 0 (head (t :: q))) with t.
  destruct (world_taken s n y y' t q W Hn Eq Hy' Hm) as (W1 & Nw & Hw & Nt & z & Hz & Hp). set (s1 := with_notifs _ s) in *.
  rewrite (proj2 (Z.eqb_neq t 0)) by done. pose proof Hw as (c0 & Hc0 & Hs & Hty). assert (c0 = c) as -> by congruence.
  assert (current r ≠ t) as Nct by (intros E0; rewrite E0 in Hcc; congruence).
  erewrite bind_Done by (apply on_sch_ok; by apply ctx_of_ok). change (with_sch (sch s1) s1) with s1.
  assert (true && ((affinity c =? NO_AFF) || (affinity c =? me)) = true) as -> by (destruct Hac' as [->| ->]; rewrite Z.eqb_refl, ?orb_true_r; done).
  pose proof (leave_current_spec (Some t) s1 me r cc W1 Hr Hcc Hsc Htc Hac) as [EL|([] & s2 & EL & x & f & r' & -> & W2 & HC & _ & Hf & Hr' & Ecur)]%wph_or.
  { left. apply bind_Halt. by apply bind_Halt. }
  destruct (try_remove_timeout_spec _ t n z W2 Nt Hz Hp) as (s3 & E3 & W3 & Es & En & z' & Hz' & Ecb).
  destruct (Hf t c) as [Hfs Hft]; [congruence|].
  destruct (switch_away s3 me r' t (f t c) v W3) as (x4 & r4 & c4 & E4 & W4 & Hr4 & Hcur4 & Hc4 & Hs4); rewrite ?Es, ?Ecur; try done.
  - exact (changes_tctx _ _ _ _ _ HC Hc0).
  - by rewrite Hfs, Hs.
  - simpl. destruct HC as (_ & _ & ->). done.
  - unfold has_vmspace. by rewrite Hft.
  - rewrite <- Nw. unfold waiting. by rewrite En.
  - intros z2 Hz2. rewrite Hz' in Hz2. injection Hz2 as <-. by rewrite Ecb.
  - right. exists (with_sch x4 s3). split.
    { unfold bind at 1. unfold bind at 1. rewrite EL. unfold direct_switch. erewrite bind_Done by exact E3. by rewrite E4. }
    split; [done|]. split; [exists y'; split; [exact En|done]|]. by exists r4, c4.
Qed.

(** A field of a sleep state that the lists do not depend on changes. *)
Lemma lists_ok_sleep s s' t z z' : lists_ok s → sleep s !! t = Some z → times s' = times s → sleep s' = <[t := z']> (sleep s) →
  wakeup_tick z' = wakeup_tick z → cb z' = cb z → sleep_cpu z' = sleep_cpu z → lists_ok s'.
Proof.
  intros [L1 L2 L3] Hz Et Es H1 H2 H3.
  assert (∀ u, wk s' u = wk s u) as Ew.
  { intros u. unfold wk. rewrite Es. destruct (decide (t = u)) as [<-|Nu]; [by rewrite lookup_insert_eq, Hz; simpl; rewrite H1|by rewrite lookup_insert_ne]. }
  split; rewrite Et, ?Es.
  - intros d x Hx. destruct (L1 d x Hx) as [ND HS]. split; [done|]. eapply sorted_ext; [|exact HS]. intros a b _ _. by rewrite !Ew.
  - intros d x u Hx Hu. destruct (L2 d x u Hx Hu) as (zu & Hzu & Hd & Hc). destruct (decide (t = u)) as [<-|Nu].
    + exists z'. rewrite lookup_insert_eq. assert (zu = z) as -> by congruence. by rewrite H2, H3.
    + exists zu. by rewrite lookup_insert_ne.
  - intros u zu [[<- <-]|[Nu Hu]]%lookup_insert_Some Hc; [rewrite H3; rewrite H2 in Hc; by apply (L3 t z)|by apply (L3 u zu)].
Qed.

(** A thread that waits on nothing joins a notification with no signal left. *)
Lemma world_join s n y t z x f : world None s → notifs s !! n = Some y → not_delivered_notifc_count y = 0 → ¬ is_waiting s t →
  sleep s !! t = Some z → cb z = None → waiting_threads_count y + 1 < 2 ^ 32 → inv x → (∀ u, tctx x u = f u <$> tctx (sch s) u) →
  (∀ u c, u ≠ t → f u c = c) → is_waiting (with_sch x s) t →
  let y' := mk_notific 0 (u32 (waiting_threads_count y + 1)) (waiting_threads y ++ [t]) in
  world None (with_notifs (<[n := y']>) (with_sch x s)).
Proof.
  intros W Hn H0 Nw Hz Hc Hlen Ix HT Hf Hwt y'. destruct (not_waiting None s t W Nw) as [Nw1 _]. pose proof (proj1 (waiting_false s t) Nw1) as Out.
  destruct W as [W1 W2 [N1 N2 N3] [C1 C2]]. destruct (N1 n y Hn) as (K1 & K2 & K3 & K4 & K5).
  assert (∀ u, u ≠ t → is_waiting s u → is_waiting (with_sch x s) u) as Hw.
  { intros u Nu (c & Hu & Hs). exists c. split; [|done]. simpl. rewrite HT, Hu. simpl. by rewrite Hf. }
  assert (∀ m k u, <[n := y']> (notifs s) !! m = Some k → u ∈ waiting_threads k → u = t ∧ m = n ∨ ∃ k0, notifs s !! m = Some k0 ∧ u ∈ waiting_threads k0 ∧ u ≠ t) as HU.
  { intros m k u [[<- <-]|[Nm Hk]]%lookup_insert_Some Hu; simpl in Hu.
    - apply elem_of_app in Hu as [Hu|Hu%list_elem_of_singleton]; [right|left; done]. exists y. split; [done|]. split; [done|]. intros ->. by apply (Out n y).
    - right. exists k. split; [done|]. split; [done|]. intros ->. by apply (Out m k). }
  split; [done|by apply (lists_ok_same s)| |].
  - split; simpl.
    + intros m k [[<- <-]|[_ Hk]]%lookup_insert_Some; [|by apply (N1 m)]. simpl. rewrite length_app. simpl. rewrite u32_id by (unfold is_u32; lia).
      split_and!; try done; try lia. apply NoDup_app. split_and!; [done| |apply NoDup_singleton]. intros u Hu ->%list_elem_of_singleton. by apply (Out n y).
    + intros m k u Hk Hu. destruct (HU m k u Hk Hu) as [[-> _]|(k0 & Hk0 & Hu0 & Nu)]; [split; [done|by exists z]|].
      destruct (N2 m k0 u Hk0 Hu0). split; [by apply Hw|done].
    + intros m k a b u Ha Hb Hua Hub.
      destruct (HU m a u Ha Hua) as [[E1 ->]|(a0 & Ha0 & Hu0 & Nu)], (HU k b u Hb Hub) as [[E ->]|(b0 & Hb0 & Hu1 & Nu1)]; try done.
      by apply (N3 m k a0 b0 u).
  - split; simpl.
    + intros u zu Hu Nu Hcb. destruct (C1 u zu Hu Nu Hcb) as [H1 H2]. assert (u ≠ t) as Nut by (intros ->; congruence).
      split; [by apply Hw|]. apply waiting_false. intros m k Hk Hin. destruct (HU m k u Hk Hin) as [[-> _]|(k0 & Hk0 & Hu0 & _)]; [done|].
      by apply (proj1 (waiting_false s u) H2 m k0).
    + intros u zu Hu Nu Hcb. destruct (C2 u zu Hu Nu Hcb) as (k & Hk & Hin). destruct (decide (pending_notific zu = n)) as [E|Ne].
      * rewrite E in *. rewrite lookup_insert_eq. exists y'. split; [done|]. simpl. apply elem_of_app. left. congruence.
      * exists k. by rewrite lookup_insert_ne.
Qed.

Lemma enqueued_world me t ts s s' d z n y : world None s → sleep s !! t = Some z → cb z = None → pending_notific z = n → notifs s !! n = Some y →
  t ∈ waiting_threads y → times s !! me = Some d → enqueued_sleeper me t ts NOTIFIC_TIMER_CB d z s s' → world None s'.
Proof.
  intros [W1 W2 [N1 N2 N3] [C1 C2]] Hz Hc Hp Hn Ht Hd HE. pose proof (enqueued_lists _ _ _ _ _ _ _ _ W2 Hz Hc Hd HE) as L'.
  destruct HE as (l1 & l2 & _ & _ & _ & _ & Es & Eh & En & _).
  assert (∀ u, is_waiting s u → is_waiting s' u) as Hw by (intros u (c & Hu & Hs); exists c; by rewrite Eh).
  split; [by rewrite Eh|done| |].
  - split; rewrite En; try done. intros m k u Hk Hu. destruct (N2 m k u Hk Hu) as [H1 H2]. split; [by apply Hw|]. rewrite Es.
    destruct (decide (t = u)) as [<-|Nu]; [rewrite lookup_insert_eq; by eexists|by rewrite lookup_insert_ne].
  - split; rewrite Es, ?En.
    + intros u zu [[<- <-]|[Nu Hu]]%lookup_insert_Some _ Hcb; [done|]. destruct (C1 u zu Hu) as [H1 H2]; [done|done|]. split; [by apply Hw|].
      rewrite <- H2. unfold waiting. by rewrite En.
    + intros u zu [[<- <-]|[Nu Hu]]%lookup_insert_Some _ Hcb; [|by apply (C2 u zu Hu)]. simpl. rewrite Hp. by exists y.
Qed.

(** The current thread blocks on a notification with no signal left. *)
Lemma block_spec s me r n y cc z ts : world None s → cpus (sch s) !! me = Some r → tctx (sch s) (current r) = Some cc →
  state cc = TS_RUNNING → type cc ≠ TYPE_IDLE → notifs s !! n = Some y → not_delivered_notifc_count y = 0 →
  waiting_threads_count y + 1 < 2 ^ 32 → sleep s !! current r = Some z → cb z = None → (is_Some ts → is_Some (times s !! me)) →
  ∃ s' y', block_on tick_per_us tick me n ts s = Done tt s' ∧ world None s' ∧ notifs s' = <[n := y']> (notifs s) ∧
  abs y' = sem_wait (current r) (abs y) ∧ is_waiting s' (current r).
Proof.
  intros W Hr Hcc Hs Hty Hn H0 Hlen Hz Hcb Hts. assert (¬ is_waiting s (current r)) as Nw by (intros (c & Hc & Hw & _); congruence).
  destruct (not_waiting None s (current r) W Nw) as [Nw1 _]. set (t := current r) in *.
  set (g := with_ec (<[X0 := 0]>)). set (x1 := put_ctx t (with_state TS_WAITING) (sch s)). set (x2 := put_ctx t g x1).
  assert (tctx x1 t = Some (with_state TS_WAITING cc)) as Hc1 by (by apply with_fold_ctx).
  assert (tctx x2 t = Some (g (with_state TS_WAITING cc))) as Hc2 by (by apply with_fold_ctx).
  assert (inv x1) as I1 by (apply (sc_update ops inv (sch s) me r t cc); [apply W|done|done|by rewrite Hs|done|done]).
  assert (inv x2) as I2 by (by apply (sc_update ops inv x1 me r t (with_state TS_WAITING cc))).
  set (y' := mk_notific 0 (u32 (waiting_threads_count y + 1)) (waiting_threads y ++ [t])).
  assert (is_waiting (with_sch x2 s) t) as Hwt by (by eexists).
  assert (world None (with_notifs (<[n := y']>) (with_sch x2 s))) as W1.
  { apply (world_join s n y t z x2 (λ u c, at_thread t g u (at_thread t (with_state TS_WAITING) u c))); try done.
    - eapply (changes_trans (sch s) x1 x2); apply changes_put_ctx.
    - intros u c Nu. unfold at_thread. by rewrite !decide_False. }
  unfold block_on. erewrite bind_Done by (apply on_sch_ok; by apply current_thread_ok). rewrite with_sch_id. fold t.
  erewrite bind_Done by reflexivity. rewrite Nw1. erewrite bind_Done by reflexivity. erewrite bind_Done by (by apply notific_at_ok).
  erewrite bind_Done by (apply on_sch_ok; by eapply upd_ctx_ok). erewrite bind_Done by reflexivity. rewrite H0. fold y'.
  erewrite bind_Done by (apply on_sch_ok; unfold arch_set_thread_return, set_reg; by eapply upd_ctx_ok). cbv beta. fold g.
  change (with_sch _ (with_notifs _ _)) with (with_notifs (<[n := y']>) (with_sch x2 s)).
  assert (abs y' = sem_wait t (abs y)) as Habs by (unfold abs, sem_wait; simpl; by rewrite H0).
  destruct ts as [ts|]; [|eexists _, y'; split; [reflexivity|done]].
  destruct (Hts ltac:(by eexists)) as [d Hd]. erewrite bind_Done by (by apply upd_sleep_ok). set (s2 := with_sleep _ _).
  assert (world None s2) as W2.
  { destruct W1 as [A1 A2 [B1 B2 B3] [D1 D2]]. split; [done|by eapply (lists_ok_sleep _ s2 t z)| |].
    - split; [done| |done]. intros m k u Hk Hu. destruct (B2 m k u Hk Hu) as [H1 H2]. split; [done|]. simpl.
      destruct (decide (t = u)) as [<-|Nu]; [rewrite lookup_insert_eq; by eexists|by rewrite lookup_insert_ne].
    - split; simpl; intros u zu [[<- <-]|[Nu Hu]]%lookup_insert_Some Hk Hc; try (simpl in Hc; congruence); [by apply (D1 u zu)|by apply (D2 u zu)]. }
  assert (sleep s2 !! t = Some (with_pending n z)) as Hz2 by apply lookup_insert_eq.
  assert (notifs s2 !! n = Some y') as Hn2 by apply lookup_insert_eq.
  destruct (enqueue_sleeper_spec me t ts NOTIFIC_TIMER_CB s2 d (with_pending n z) (w_lists _ _ W2) Hz2 Hcb Hd) as (s3 & E3 & HE).
  erewrite bind_Done by exact E3. exists s3, y'. split; [done|].
  split; [eapply (enqueued_world me t ts s2 s3 d (with_pending n z) n y'); try done; simpl; apply elem_of_app; right; by left|].
  destruct HE as (l1 & l2 & _ & _ & _ & _ & Es & Eh & En & _). rewrite En. split; [done|]. split; [done|].
  destruct Hwt as (c & Hc & Hw). exists c. by rewrite Eh.
Qed.

(** ** The timer interrupt *)

Lemma world_skip t s : world None s → world (Some t) s.
Proof. intros [W1 W2 W3 [C1 C2]]. split; try done. split; intros u z Hz _; [by apply C1|by apply C2]. Qed.

Lemma notifs_ok_frame s s' : notifs_ok s → notifs s' = notifs s → sch s' = sch s →
  (∀ t, is_Some (sleep s !! t) → is_Some (sleep s' !! t)) → notifs_ok s'.
Proof.
  intros [N1 N2 N3] En Eh Hs. split; rewrite En; try done. intros n y t Hn Ht. destruct (N2 n y t Hn Ht) as [(c & Hc) H2].
  split; [exists c; by rewrite Eh|by apply Hs].
Qed.

(** A notification without one of its waiting threads. *)
Lemma drop_ok y t : notific_ok y → t ∈ waiting_threads y →
  notific_ok (mk_notific (not_delivered_notifc_count y) (u32 (waiting_threads_count y - 1)) (filter (λ u, u ≠ t) (waiting_threads y))).
Proof.
  intros (K1 & K2 & K3 & K4 & K5) Ht. destruct (proj1 (elem_of_Permutation _ _) Ht) as [l Hl].
  assert (t ∉ l) as Nl by (rewrite Hl in K3; by apply NoDup_cons in K3 as [? _]).
  assert (filter (λ u, u ≠ t) (waiting_threads y) ≡ₚ l) as Hf.
  { rewrite Hl, filter_cons, decide_False by (intros H; by apply H). by rewrite filter_notin. }
  assert (length (waiting_threads y) = S (length l)) as HL by (by rewrite Hl).
  pose proof (Permutation_length Hf) as HF.
  unfold notific_ok. cbn [waiting_threads_count waiting_threads not_delivered_notifc_count]. rewrite u32_id by (unfold is_u32; lia). split_and!; try done; try lia.
  - by apply NoDup_filter.
  - destruct K5 as [K5|K5]; [by left|]. rewrite K5 in Ht. by apply not_elem_of_nil in Ht.
Qed.

(** A sleeper leaves its list and is made ready; a thread that waited on a
    notification gets -EAGAIN. *)
Definition fired (me t : Z) (z : sleep_state) (d : time_state) (r : cpu) s s' : Prop :=
  times s' = <[sleep_cpu z := drop_sleeper t d]> (times s) ∧ (∃ z', sleep s' = <[t := z']> (sleep s)) ∧ reads s' = reads s ∧
  (∃ f, changes (sch s) (sch s') f ∧ (∀ c, tctx (sch s) t = Some c → state (f t c) = TS_READY ∧
      (cb z = Some NOTIFIC_TIMER_CB → ec (f t c) !! X0 = Some (u64 (- EAGAIN)))) ∧
    (∀ u c, u ≠ t → state (f u c) = state c) ∧ ∀ u c, type (f u c) = type c ∧ sc (f u c) = sc c ∧ budget (f u c) = budget c) ∧
  ∃ r', cpus (sch s') !! me = Some r' ∧ current r' = current r.

Lemma sleep_fires s me r t z d : world None s → cpus (sch s) !! me = Some r → ¬ is_waiting s (current r) →
  sleep s !! t = Some z → cb z = Some SLEEP_TIMER_CB → times s !! sleep_cpu z = Some d →
  wph (wake_sleeper ops me t z) (λ _ s', world None s' ∧ fired me t z d r s s') s.
Proof.
  intros W Hr Hcur Hz Hcb Hd. pose proof W as [W1 W2 W3 [C1 C2]]. destruct (C1 t z Hz ltac:(done) Hcb) as [Hw Nw].
  destruct (sleep_del_spec s t z W2 Hz ltac:(by rewrite Hcb)) as (d' & Hd' & Hin & E). assert (d' = d) as -> by congruence.
  pose proof Hw as (c & Hc & Hs & Hty). assert (current r ≠ t) as Nct by (intros <-; done).
  unfold wake_sleeper. eapply wph_step; [exact E|]. set (s1 := with_times _ s). rewrite Hcb, bool_decide_eq_true_2 by done.
  eapply wph_step. { erewrite bind_Done by (apply on_sch_ok; by apply ctx_of_ok). by rewrite bool_decide_eq_false_2 by (intros H; by apply H). }
  change (with_sch (sch s1) s1) with s1. apply wph_bind. eapply wph_mono; [by apply (wake_spec s1 me r t c)|].
  intros ? s2 (x & f & -> & Ix & HC & HR & Ho & Hk & r0 & r' & Hr0 & Hr' & Ecur). eapply wph_Done; [by apply upd_sleep_ok|].
  assert (world (Some t) (with_sch x s)) as WS.
  { apply (world_sch (Some t) t); [by apply world_skip|done|done|done|]. intros u Nu (cu & Hu & Hsu & Htu). exists (f u cu).
    split; [exact (changes_tctx _ _ _ _ _ HC Hu)|]. rewrite Ho by done. by destruct (Hk u cu) as [-> _]. }
  split; [by apply (world_dequeue (with_sch x s) _ t z (with_cb None z) d)|].
  split; [done|]. split; [by eexists|]. split; [done|]. split.
  - exists f. split; [done|]. split; [|split; [done|intros u cu; by destruct (Hk u cu) as (? & _ & ? & ?)]]. intros c' Hc'. split; [by apply HR|]. by rewrite Hcb.
  - exists r'. simpl. rewrite Hr'. split; [apply lookup_insert_eq|]. rewrite Ecur. simpl in Hr0. congruence.
Qed.

Lemma notific_fires s me r t z d : world None s → cpus (sch s) !! me = Some r → ¬ is_waiting s (current r) →
  sleep s !! t = Some z → cb z = Some NOTIFIC_TIMER_CB → times s !! sleep_cpu z = Some d →
  wph (wake_sleeper ops me t z) (λ _ s', world None s' ∧ fired me t z d r s s') s.
Proof.
  intros W Hr Hcur Hz Hcb Hd. pose proof W as [W1 W2 W3 [C1 C2]]. destruct (C2 t z Hz ltac:(done) Hcb) as (y & Hy & Ht).
  destruct (no_waiter s W3 _ y t Hy Ht) as [Hw _]. pose proof (no_count s W3 _ y Hy) as (K1 & K2 & K3 & K4 & K5).
  destruct (sleep_del_spec s t z W2 Hz ltac:(by rewrite Hcb)) as (d' & Hd' & Hin & E). assert (d' = d) as -> by congruence.
  pose proof Hw as (c & Hc & Hs & Hty). assert (current r ≠ t) as Nct by (intros <-; done). set (n := pending_notific z) in *.
  unfold wake_sleeper. eapply wph_step; [exact E|]. rewrite Hcb, bool_decide_eq_false_2 by done. eapply wph_step; [reflexivity|].
  unfold run_cb, notific_timer_cb. apply wph_bind. eapply wph_step; [by apply sleep_at_ok|]. cbv zeta. fold n.
  eapply wph_step; [by apply upd_sleep_ok|]. eapply wph_step; [by apply notific_at_ok|]. set (s2 := with_sleep _ _).
  eapply wph_step; [apply on_sch_ok; by apply ctx_of_ok|]. change (with_sch (sch s2) s2) with s2.
  rewrite bool_decide_eq_false_2 by (intros H; by apply H).
  assert (notifs_ok s2) as N2.
  { apply (notifs_ok_frame s); try done. intros u Hu. simpl. destruct (decide (t = u)) as [<-|Nu]; [rewrite lookup_insert_eq; by eexists|by rewrite lookup_insert_ne]. }
  eapply wph_step; [by apply (wait_del_spec s2 n y t)|]. eapply wph_step; [apply notific_at_ok; apply lookup_insert_eq|].
  assert (0 < length (waiting_threads y))%nat as Hlen by (destruct (waiting_threads y); [by apply not_elem_of_nil in Ht|simpl; lia]).
  cbn [waiting_threads_count drop_waiter not_delivered_notifc_count waiting_threads].
  rewrite (proj2 (Z.leb_gt (waiting_threads_count y) 0)) by lia. eapply wph_step; [reflexivity|]. eapply wph_step; [reflexivity|].
  set (y' := mk_notific _ _ _). set (g := with_ec (<[X0 := u64 (- EAGAIN)]>)). set (x1 := put_ctx t g (sch s)).
  eapply wph_step; [apply on_sch_ok; unfold arch_set_thread_return, set_reg; by eapply upd_ctx_ok|]. cbv beta. fold g.
  assert (inv x1) as I1 by (apply (sc_update ops inv (sch s) me r t c); [done..|by rewrite Hs|simpl; by rewrite Hs|done]).
  match goal with |- wph _ _ ?st => set (s3 := st) end.
  eapply wph_mono; [apply (wake_spec s3 me r t (g c) I1 Hr (with_fold_ctx _ _ _ Hc g) Hs Hty Nct)|].
  intros ? s4 (x & f & -> & Ix & HC & HR & Ho & Hk & r0 & r' & Hr0 & Hr' & Ecur). eapply wph_Done; [apply upd_sleep_ok; apply lookup_insert_eq|].
  destruct (world_removed s n y y' t W Hy Ht) as (WS & Nw & _ & _ & _).
  { apply (drop_ok y t); [exact (no_count s W3 _ y Hy)|done]. }
  { intros u. simpl. rewrite list_elem_of_filter. tauto. }
  assert (world (Some t) (with_sch x (with_notifs (<[n := y']>) s))) as WX.
  { apply (world_sch (Some t) t); [done|done|done|done|]. intros u Nu (cu & Hu & Hsu & Htu). exists (f u cu).
    split; [apply (changes_tctx _ _ _ _ _ HC); simpl; unfold x1; by rewrite tctx_put_ctx, decide_False|].
    rewrite Ho by done. by destruct (Hk u cu) as [-> _]. }
  split; [apply (world_dequeue (with_sch x (with_notifs (<[n := y']>) s)) _ t z (with_cb None (with_pending 0 z)) d); try done; simpl; by rewrite insert_insert_eq|].
  split; [done|]. split; [eexists; simpl; by rewrite insert_insert_eq|]. split; [done|]. split.
  - exists (λ u c, f u (at_thread t g u c)). split; [eapply (changes_trans (sch s) x1 x); [apply changes_put_ctx|exact HC]|].
    split; [|split].
    + intros c' Hc'. assert (c' = c) as -> by congruence. unfold at_thread. rewrite decide_True by done. split; [apply HR; by apply with_fold_ctx|].
      intros _. destruct (Hk t (g c)) as (_ & -> & _). simpl. apply lookup_insert_eq.
    + intros u cu Nu. unfold at_thread. rewrite decide_False by done. by apply Ho.
    + intros u cu. destruct (Hk u (at_thread t g u cu)) as (-> & _ & -> & ->). unfold at_thread. by destruct (decide (u = t)).
  - exists r'. simpl. rewrite Hr'. split; [apply lookup_insert_eq|]. rewrite Ecur. simpl in Hr0. congruence.
Qed.

Lemma wake_sleeper_spec s me r t z d : world None s → cpus (sch s) !! me = Some r → ¬ is_waiting s (current r) →
  sleep s !! t = Some z → is_Some (cb z) → times s !! sleep_cpu z = Some d →
  wph (wake_sleeper ops me t z) (λ _ s', world None s' ∧ fired me t z d r s s') s.
Proof. intros W Hr Hw Hz [[] Hc] Hd; [by apply sleep_fires|by apply notific_fires]. Qed.

Lemma filter_forall (P : Z → Prop) `{!∀ x, Decision (P x)} (l : list Z) : Forall P l → filter P l = l.
Proof. induction 1 as [|x l Hx HF IH]; [done|]. rewrite filter_cons, decide_True by done. by rewrite IH. Qed.

Lemma filter_cong (P Q : Z → Prop) `{!∀ x, Decision (P x), !∀ x, Decision (Q x)} (l : list Z) :
  (∀ x, x ∈ l → P x ↔ Q x) → filter P l = filter Q l.
Proof.
  induction l as [|x l IH]; intros HPQ; [done|]. rewrite !filter_cons, IH by (intros; apply HPQ; by right).
  pose proof (HPQ x ltac:(by left)) as HX. destruct (decide (P x)), (decide (Q x)); tauto.
Qed.

(** The threads of [l] whose tick is before [now] wake up. *)
Definition all_fired (me now : Z) (l : list Z) (d : time_state) (r : cpu) s s' : Prop :=
  (∃ d', times s' = <[me := d']> (times s) ∧ next_expire d' = next_expire d ∧ sleep_list d' = filter (λ t, now ≤ wk s t) l) ∧
  reads s' = reads s ∧ (∃ r', cpus (sch s') !! me = Some r' ∧ current r' = current r) ∧
  ∃ f, changes (sch s) (sch s') f ∧ (∀ u c, type (f u c) = type c ∧ sc (f u c) = sc c ∧ budget (f u c) = budget c) ∧
    ∀ u c, tctx (sch s) u = Some c → state (f u c) = if decide (u ∈ l ∧ wk s u < now) then TS_READY else state c.

Lemma wake_loop_spec me now l : ∀ s r d, world None s → cpus (sch s) !! me = Some r → ¬ is_waiting s (current r) →
  times s !! me = Some d → sleep_list d = l →
  wph (wake_sleepers ops me now l) (λ _ s', world None s' ∧ all_fired me now l d r s s') s.
Proof.
  induction l as [|t l IH]; intros s r d W Hr Hcur Hd El.
  { eapply wph_Done; [reflexivity|]. split; [done|]. split; [exists d; by rewrite insert_id|]. split; [done|]. split; [by exists r|].
    exists (λ _ c, c). split; [apply changes_refl|]. split; [done|]. intros u c _. rewrite decide_False; [done|]. intros [?%not_elem_of_nil _]. done. }
  pose proof (w_lists _ _ W) as L. destruct (lo_list s L me d Hd) as [ND HS]. rewrite El in ND, HS.
  destruct (lo_in s L me d t Hd) as (z & Hz & Hme & Hcb); [rewrite El; by left|]. apply NoDup_cons in ND as [Nt ND].
  assert (wk s t = wakeup_tick z) as Ewk by (unfold wk; by rewrite Hz). cbn [wake_sleepers]. eapply wph_step; [by apply sleep_at_ok|].
  destruct (Z.ltb_spec (wakeup_tick z) now) as [Hlt|Hge].
  2: { eapply wph_Done; [reflexivity|]. apply StronglySorted_inv in HS as [_ HF].
    assert (Forall (λ u, now ≤ wk s u) (t :: l)) as HA by (constructor; [lia|eapply Forall_impl; [exact HF|]; intros u Hu; simpl in *; lia]).
    split; [done|]. split; [exists d; rewrite insert_id by done; split; [done|]; split; [done|]; by rewrite filter_forall|]. split; [done|].
    split; [by exists r|]. exists (λ _ c, c). split; [apply changes_refl|]. split; [done|]. intros u c _. rewrite decide_False; [done|].
    intros [Hu Hu']. pose proof (proj1 (Forall_forall _ _) HA u Hu) as Hge'. simpl in Hge'. lia. }
  apply wph_bind. eapply wph_mono; [apply (wake_sleeper_spec s me r t z d W Hr Hcur Hz Hcb); by rewrite Hme|].
  intros ? s1 (W1 & Et & (z' & Es) & Er & (f & HC & Hft & Hfo & Hty) & r1 & Hr1 & Ecur). rewrite Hme in Et.
  assert (sleep_list (drop_sleeper t d) = l) as El1.
  { simpl. rewrite El, filter_cons, decide_False by (intros H; by apply H). by apply filter_notin. }
  assert (∀ u, u ≠ t → wk s1 u = wk s u) as Hwk by (intros u Hu; by eapply wk_other).
  assert (∀ u, u ∈ l → wk s1 u = wk s u) as Hwl by (intros u Hu; apply Hwk; intros ->; done).
  eapply wph_mono; [apply (IH s1 r1 (drop_sleeper t d) W1 Hr1); [|rewrite Et; apply lookup_insert_eq|done]|].
  { rewrite Ecur. intros (c1 & Hc1 & Hs1 & Ht1). destruct HC as (HT & _). rewrite HT in Hc1.
    destruct (tctx (sch s) (current r)) as [c0|] eqn:Hc0; [|done]. injection Hc1 as <-. destruct (decide (current r = t)) as [E|Ne].
    - rewrite E in Hc0, Hs1. destruct (Hft c0 Hc0) as [H _]. congruence.
    - apply Hcur. exists c0. rewrite Hfo in Hs1 by done. by rewrite (proj1 (Hty _ _)) in Ht1. }
  intros ? s2 (W2 & (d2 & Et2 & En2 & El2) & Er2 & (r2 & Hr2 & Ecur2) & g & HC2 & Hty2 & Hg). split; [done|]. split; [|split; [congruence|split]].
  - exists d2. split; [by rewrite Et2, Et, insert_insert_eq|]. split; [done|]. rewrite El2, filter_cons, decide_False by lia.
    apply filter_cong. intros u Hu. by rewrite Hwl.
  - exists r2. by rewrite Ecur2.
  - exists (λ u c, g u (f u c)). split; [by eapply changes_trans|]. split; [intros u c; by destruct (Hty2 u (f u c)) as (-> & -> & ->), (Hty u c) as (-> & -> & ->)|]. intros u c Hc.
    rewrite (Hg u (f u c)) by (by rewrite (changes_tctx _ _ _ _ _ HC Hc)). destruct (decide (u = t)) as [->|Nu].
    + rewrite decide_False by (intros [? _]; done). rewrite decide_True by (split; [by left|lia]). by apply Hft.
    + rewrite Hfo by done. destruct (decide (u ∈ l ∧ wk s1 u < now)) as [[Hu Hu']|Nu'].
      * rewrite decide_True; [done|]. split; [by right|]. by rewrite <- Hwl.
      * rewrite decide_False; [done|]. intros [[->|Hu]%elem_of_cons Hlt']; [done|]. apply Nu'. split; [done|]. by rewrite Hwl.
Qed.

(** The default time to the next interrupt. *)
Definition default_tick : Z := TICK_MS * 1000 * tick_per_us.

(** The next interrupt comes within the default time, and at the tick of the
    first sleeper if that is not past. *)
Definition next_tick (now : Z) (l : list Z) s (delta : Z) : Prop :=
  0 < delta ≤ default_tick ∧ match l with [] => delta = default_tick | t :: _ => now < wk s t → now + delta ≤ wk s t end.

Lemma tick_delta_spec s me d : lists_ok s → times s !! me = Some d → 0 < default_tick → is_u64 (tick (reads s)) →
  tick (reads s) + default_tick < 2 ^ 64 →
  ∃ delta k, get_next_tick_delta tick_per_us tick me s = Done delta (mk_tstate (sch s) (sleep s) (times s) (notifs s) k (timer s)) ∧
  next_tick (tick (reads s)) (sleep_list d) s delta.
Proof.
  intros L Hd H0 [Ht0 Ht] Hsum. unfold get_next_tick_delta. fold default_tick. rewrite (u64_id default_tick) by (unfold is_u64; lia). cbv zeta.
  erewrite bind_Done by (by apply time_at_ok). destruct (sleep_list d) as [|t l] eqn:El.
  { exists default_tick, (reads s). split; [by destruct s|]. unfold next_tick. split; [lia|done]. }
  destruct (lo_in s L me d t Hd) as (z & Hz & _); [rewrite El; by left|].
  erewrite bind_Done by (unfold plat_get_current_tick; by erewrite bind_Done by reflexivity). erewrite bind_Done by (apply sleep_at_ok; exact Hz).
  assert (wk s t = wakeup_tick z) as Ew by (unfold wk; by rewrite Hz). rewrite (u64_id (tick (reads s) + default_tick)) by (unfold is_u64; lia).
  unfold next_tick. rewrite Ew.
  destruct (Z.ltb_spec (wakeup_tick z) (tick (reads s) + default_tick)), (Z.ltb_spec (tick (reads s)) (wakeup_tick z)); cbn [andb];
    eexists _, (S (reads s)); (split; [reflexivity|]); rewrite ?u64_id by (unfold is_u64; lia); lia.
Qed.

Lemma world_times s s' me d d' : world None s → times s !! me = Some d → times s' = <[me := d']> (times s) → sleep_list d' = sleep_list d →
  sleep s' = sleep s → sch s' = sch s → notifs s' = notifs s → world None s'.
Proof.
  intros [W1 [L1 L2 L3] W3 [C1 C2]] Hd Et Ed Es Eh En.
  assert (∀ e x, times s' !! e = Some x → ∃ x0, times s !! e = Some x0 ∧ sleep_list x = sleep_list x0) as HT.
  { intros e x. rewrite Et. intros [[<- <-]|[_ Hx]]%lookup_insert_Some; [by exists d|by exists x]. }
  assert (∀ u, is_waiting s u → is_waiting s' u) as Hw by (intros u (c & Hu & Hs); exists c; by rewrite Eh).
  split; [by rewrite Eh| | |].
  - split.
    + intros e x Hx. destruct (HT e x Hx) as (x0 & Hx0 & ->). unfold wk. rewrite Es. by apply (L1 e).
    + intros e x t Hx. destruct (HT e x Hx) as (x0 & Hx0 & ->). rewrite Es. by apply L2.
    + intros t z. rewrite Es. intros Hz Hc. destruct (L3 t z Hz Hc) as (x & Hx & Hin). rewrite Et. destruct (decide (me = sleep_cpu z)) as [E|Ne].
      * rewrite <- E in *. exists d'. rewrite lookup_insert_eq, Ed. split; [done|]. congruence.
      * exists x. by rewrite lookup_insert_ne.
  - apply (notifs_ok_frame s); try done. by rewrite Es.
  - split; rewrite Es, ?En; [|done]. intros t z Hz Hk Hc. destruct (C1 t z Hz Hk Hc) as [H1 H2]. split; [by apply Hw|].
    rewrite <- H2. unfold waiting. by rewrite En.
Qed.

(** The current thread uses up a tick of its scheduling context, which other threads
    may share. *)
Definition tick_used (cur : option thread_ctx) (c : thread_ctx) : thread_ctx :=
  match cur with Some cc => charged (sc cc) (u32 (budget cc - 1)) c | None => c end.

Lemma tick_used_state cur c : state (tick_used cur c) = state c.
Proof. destruct cur as [cc|]; [|done]. by destruct (charged_cases (sc cc) (u32 (budget cc - 1)) c) as [E|E]; simpl; rewrite E. Qed.

Lemma charge_spec s me r : world None s → cpus (sch s) !! me = Some r → (∀ c, tctx (sch s) (current r) = Some c → state c = TS_RUNNING) →
  wph (charge_current me) (λ _ s', ∃ x, s' = with_sch x s ∧ world None s' ∧ changes (sch s) x (λ _, tick_used (tctx (sch s) (current r))) ∧
    ∀ c, tctx (sch s) (current r) = Some c → budget c ≠ 0) s.
Proof.
  intros W Hr Hrun. unfold charge_current. eapply wph_step; [apply on_sch_ok; by apply current_thread_ok|]. rewrite with_sch_id.
  destruct (Z.eqb_spec (current r) 0) as [E0|N0].
  { eapply wph_Done; [reflexivity|]. exists (sch s). rewrite with_sch_id, E0, (sc_null _ (w_inv _ _ W)). split; [done|]. split; [done|].
    split; [apply changes_refl|done]. }
  destruct (sc_current _ _ _ (w_inv _ _ W) Hr N0) as [c Hc]. pose proof (Hrun c Hc) as Hs.
  eapply wph_step; [apply on_sch_ok; by apply ctx_of_ok|]. rewrite with_sch_id. destruct (Z.eqb_spec (sc c) 0); [done|].
  eapply wph_step; [reflexivity|]. destruct (Z.eqb_spec (budget c) 0) as [|Nb]; [done|]. eapply wph_step; [reflexivity|].
  destruct (set_budget_ok (sch s) (current r) c (u32 (budget c - 1)) Hc ltac:(done)) as (x & E & HC & Er & Ec & _).
  eapply wph_Done; [apply on_sch_ok; exact E|]. assert (∀ c', state (charged (sc c) (u32 (budget c - 1)) c') = state c') as Hst.
  { intros c'. by destruct (charged_cases (sc c) (u32 (budget c - 1)) c') as [-> | ->]. }
  rewrite Hc. exists x. split; [done|]. split; [|split; [exact HC|intros c' Hc'; congruence]].
  assert (¬ is_waiting s (current r)) as Nw by (intros (c' & Hc' & Hw & _); congruence). destruct (not_waiting None s (current r) W Nw).
  apply (world_sch None (current r)); try done.
  - apply (sc_same (sch s) x me r r (λ _, charged (sc c) (u32 (budget c - 1)))); [apply W|done|by rewrite Ec, insert_id|by left|done|apply HC| |].
    + intros u c' _. by rewrite Hst.
    + intros u c'. by destruct (charged_cases (sc c) (u32 (budget c - 1)) c') as [-> | ->].
  - intros u Nu (c' & Hc' & Hw & Hty). exists (charged (sc c) (u32 (budget c - 1)) c'). simpl. destruct HC as (HT & _). rewrite HT, Hc'.
    split; [done|]. rewrite Hst. split; [done|]. by destruct (charged_cases (sc c) (u32 (budget c - 1)) c') as [-> | ->].
Qed.

(** The tick counter of the machine does not overflow. *)
Definition ticks_ok : Prop := 0 < default_tick ∧ ∀ i, is_u64 (tick i) ∧ tick i + default_tick < 2 ^ 64.

Definition running s (r : cpu) : Prop := ∀ c, tctx (sch s) (current r) = Some c → state c = TS_RUNNING.

Lemma running_not_waiting s r : running s r → ¬ is_waiting s (current r).
Proof. intros H (c & Hc & Hw & _). apply H in Hc. congruence. Qed.

(** A thread on a sleep list waits. *)
Lemma sleeper_waits s d x t : world None s → times s !! d = Some x → t ∈ sleep_list x → is_waiting s t.
Proof.
  intros W Hd Ht. destruct (lo_in s (w_lists _ _ W) d x t Hd Ht) as (z & Hz & _ & [[] Hcb]).
  - by destruct (cb_sleep _ _ (w_cbs _ _ W) _ z Hz ltac:(done) Hcb).
  - destruct (cb_notific _ _ (w_cbs _ _ W) _ z Hz ltac:(done) Hcb) as (y & Hy & Hin). by destruct (no_waiter _ (w_notifs _ _ W) _ y _ Hy Hin).
Qed.

(** ** The theorems *)

(** [enqueue_sleeper] inserts the thread into the sleep list of its CPU behind
    every sleeper that wakes up no later and before the first that wakes up
    later, sets its callback, and moves the next timer interrupt forward if it
    would come too late; the lists stay sorted and duplicate free. *)
Theorem enqueue_sleeper_ok me t ts f s x z : lists_ok s → sleep s !! t = Some z → cb z = None → times s !! me = Some x →
  ∃ s', enqueue_sleeper tick_per_us tick me t ts f s = Done 0 s' ∧ enqueued_sleeper me t ts f x z s s' ∧ lists_ok s'.
Proof.
  intros L Hz Hc Hx. destruct (enqueue_sleeper_spec me t ts f s x z L Hz Hc Hx) as (s' & E & HE). exists s'.
  split; [done|]. split; [done|]. by eapply enqueued_lists.
Qed.

(** C28: The timer interrupt makes ready exactly the sleepers whose tick is past,
    takes exactly these off the list, in order, leaves the state of every other
    thread as it is, and programs the next interrupt.  The scheduling context of the
    current thread, whose budget was not used up, loses one tick, and no other budget
    changes.  It keeps the invariants of sleepers, notifications and scheduler, or
    stops at a [BUG_ON]. *)
Theorem handle_timer_irq_ok s me r d : world None s → cpus (sch s) !! me = Some r → running s r → times s !! me = Some d → ticks_ok →
  let now := tick (reads s) in
  handle_timer_irq tick_per_us tick ops me s = Halt ∨
  ∃ s' d' delta, handle_timer_irq tick_per_us tick ops me s = Done tt s' ∧ world None s' ∧ times s' !! me = Some d' ∧
    sleep_list d' = filter (λ t, now ≤ wk s t) (sleep_list d) ∧ next_expire d' = u64 (now + delta) ∧ timer s' !! me = Some delta ∧
    0 < delta ≤ default_tick ∧
    (∀ t, state <$> tctx (sch s') t =
      if decide (t ∈ sleep_list d ∧ wk s t < now) then (λ _, TS_READY) <$> tctx (sch s) t else state <$> tctx (sch s) t) ∧
    (∀ cur, tctx (sch s) (current r) = Some cur → budget cur ≠ 0) ∧
    ∀ t c, tctx (sch s) t = Some c → budget <$> tctx (sch s') t = Some (match tctx (sch s) (current r) with
      | Some cur => if sc c =? sc cur then u32 (budget cur - 1) else budget c | None => budget c end).
Proof.
  intros W Hr Hrun Hd [Hdef Htick] now.
  enough (wph (handle_timer_irq tick_per_us tick ops me) (λ _ s', ∃ d' delta, world None s' ∧ times s' !! me = Some d' ∧
    sleep_list d' = filter (λ t, now ≤ wk s t) (sleep_list d) ∧ next_expire d' = u64 (now + delta) ∧ timer s' !! me = Some delta ∧
    0 < delta ≤ default_tick ∧ (∀ t, state <$> tctx (sch s') t =
      if decide (t ∈ sleep_list d ∧ wk s t < now) then (λ _, TS_READY) <$> tctx (sch s) t else state <$> tctx (sch s) t) ∧
    (∀ cur, tctx (sch s) (current r) = Some cur → budget cur ≠ 0) ∧
    ∀ t c, tctx (sch s) t = Some c → budget <$> tctx (sch s') t = Some (match tctx (sch s) (current r) with
      | Some cur => if sc c =? sc cur then u32 (budget cur - 1) else budget c | None => budget c end)) s)
    as [H|([] & s' & E & d' & delta & H)]%wph_or; [by left|right; by exists s', d', delta|].
  unfold handle_timer_irq. eapply wph_step; [unfold plat_get_current_tick; by erewrite bind_Done by reflexivity|].
  set (s0 := mk_tstate _ _ _ _ _ _). eapply wph_step; [by apply time_at_ok|].
  assert (world None s0) as W0 by (apply (world_times s s0 me d d W Hd); try done; simpl; by rewrite insert_id).
  apply wph_bind. eapply wph_mono; [apply (wake_loop_spec me now (sleep_list d) s0 r d W0 Hr); [by apply (running_not_waiting s)|done|done]|].
  intros ? s1 (W1 & (d1 & Et1 & En1 & El1) & Er1 & (r1 & Hr1 & Ecur1) & f & HC & Hk & Hf).
  assert (times s1 !! me = Some d1) as Hd1 by (rewrite Et1; apply lookup_insert_eq).
  destruct (tick_delta_spec s1 me d1 (w_lists _ _ W1) Hd1 Hdef) as (delta & k & E2 & HB & _); [apply Htick|apply Htick|].
  eapply wph_step; [exact E2|]. eapply wph_step; [by apply upd_time_ok|]. eapply wph_step; [reflexivity|]. set (s2 := with_timer _ _).
  assert (world None s2) as W2 by (by apply (world_times s1 s2 me d1 (mk_time (u64 (now + delta)) (sleep_list d1)) W1 Hd1)).
  assert (∀ t, state <$> tctx (sch s1) t =
    if decide (t ∈ sleep_list d ∧ wk s t < now) then (λ _, TS_READY) <$> tctx (sch s) t else state <$> tctx (sch s) t) as HS.
  { intros t. destruct HC as (HT & _). rewrite HT. change (tctx (sch s0) t) with (tctx (sch s) t).
    destruct (tctx (sch s) t) as [c|] eqn:Hc; [|by destruct (decide _)]. simpl. rewrite (Hf t c) by exact Hc. by destruct (decide _). }
  assert (running s2 r1) as Hrun2.
  { intros c Hc. rewrite Ecur1 in Hc. pose proof (HS (current r)) as H. change (sch s2) with (sch s1) in Hc. rewrite Hc in H.
    destruct (decide _) as [[Hin _]|_].
    - exfalso. apply (running_not_waiting s r Hrun). by eapply sleeper_waits.
    - destruct (tctx (sch s) (current r)) as [c0|] eqn:Hc0; [|done]. simpl in H. injection H as H. rewrite H. by apply Hrun. }
  eapply wph_mono; [by apply (charge_spec s2 me r1 W2 Hr1 Hrun2)|]. intros ? s3 (x & -> & W3 & HC3 & Hb).
  exists (mk_time (u64 (now + delta)) (sleep_list d1)), delta. split; [done|]. split; [apply lookup_insert_eq|]. split; [exact El1|]. split; [done|].
  split; [apply lookup_insert_eq|]. split; [done|]. destruct HC3 as (HT3 & _), HC as (HT & _). simpl. change (sch s2) with (sch s1) in *.
  change (sch s0) with (sch s) in HT. rewrite Ecur1 in *. split; [|split].
  - intros t. rewrite <- HS, HT3. destruct (tctx (sch s1) t); [|done]. simpl. by rewrite tick_used_state.
  - intros cur Hcur. rewrite <- (proj2 (proj2 (Hk (current r) cur))). apply Hb. by rewrite HT, Hcur.
  - intros t c Hc. rewrite HT3, !HT, Hc. destruct (Hk t c) as (_ & Es & Eb). destruct (tctx (sch s) (current r)) as [cur|] eqn:Hcur; simpl; [|by rewrite Eb].
    destruct (Hk (current r) cur) as (_ & Esc & Ebc). unfold charged. rewrite Es, Esc, Ebc. destruct (_ =? _); [done|]. by rewrite Eb.
Qed.

(** The time to the next timer interrupt is positive and at most the default
    tick, and it does not pass the tick of the first sleeper unless that is past
    already. *)
Theorem tick_delta_bounds s me d : lists_ok s → times s !! me = Some d → ticks_ok →
  ∃ delta s', get_next_tick_delta tick_per_us tick me s = Done delta s' ∧ next_tick (tick (reads s)) (sleep_list d) s delta.
Proof.
  intros L Hd [H0 Ht]. destruct (tick_delta_spec s me d L Hd H0) as (delta & k & E & H); [apply Ht|apply Ht|]. by eexists delta, _.
Qed.

(** C29: Notifications are counting semaphores: [signal_notific] without a direct
    switch counts the signal if no thread waits, and else wakes up the thread
    that waits longest and removes its timeout; no other notification changes.
    It returns 0 with every invariant kept, or stops at a [BUG_ON]. *)
Theorem signal_notific_ok s me r n y : world None s → cpus (sch s) !! me = Some r → running s r → notifs s !! n = Some y →
  signal_notific N ops me n false s = Halt ∨
  ∃ s' y', signal_notific N ops me n false s = Done 0 s' ∧ world None s' ∧ notifs s' = <[n := y']> (notifs s) ∧ abs y' = sem_signal (abs y) ∧
    match waiting_threads y with
    | [] => sch s' = sch s
    | t :: _ => ∃ c, tctx (sch s') t = Some c ∧ state c = TS_READY
    end.
Proof.
  intros W Hr Hrun Hn.
  destruct (proj1 (wph_or _ _ _) (signal_spec s me r n y W Hr (running_not_waiting s r Hrun) Hn)) as [E|(v & s' & E & -> & W' & (y' & En & Ha) & H)];
    [by left|right]. by exists s', y'.
Qed.

(** [signal_notific] with a direct switch puts the current thread, if it may
    run on any CPU, back into a ready queue and returns to the thread that
    waited longest, if it may run on this CPU; the semaphore and the invariants
    are as in the other mode. *)
Theorem signal_switch_ok s me r n y t q c cc v : world None s → cpus (sch s) !! me = Some r → 0 ≤ me < N →
  current r ≠ 0 → current r ≠ THREAD_ITSELF → tctx (sch s) (current r) = Some cc → state cc = TS_RUNNING → type cc ≠ TYPE_IDLE →
  affinity cc = NO_AFF → notifs s !! n = Some y → waiting_threads y = t :: q → tctx (sch s) t = Some c →
  affinity c = NO_AFF ∨ affinity c = me → tvm (sch s) t = Some v → (has_vmspace c = true → v ≠ 0) →
  signal_notific N ops me n true s = Halt ∨ ∃ s', signal_notific N ops me n true s = Away s' ∧ world None s' ∧
    (∃ y', notifs s' = <[n := y']> (notifs s) ∧ abs y' = sem_signal (abs y)) ∧
    (∃ r' c', cpus (sch s') !! me = Some r' ∧ current r' = t ∧ tctx (sch s') t = Some c' ∧ state c' = TS_RUNNING).
Proof. apply signal_direct_spec. Qed.

(** C30: [wait_notific] takes a signal if there is one; else it returns -EAGAIN
    without effect, or, when it may block, appends the current thread to the
    waiting threads, with its timeout, and passes the CPU on to the scheduler. *)
Theorem wait_notific_ok s me r n y cc z is_block ts : world None s → cpus (sch s) !! me = Some r → tctx (sch s) (current r) = Some cc →
  state cc = TS_RUNNING → type cc ≠ TYPE_IDLE → notifs s !! n = Some y →
  waiting_threads_count y + 1 < 2 ^ 32 → sleep s !! current r = Some z → cb z = None → (is_Some ts → is_Some (times s !! me)) →
  if (0 <? not_delivered_notifc_count y) || is_block then
    ∃ s' y', world None s' ∧ notifs s' = <[n := y']> (notifs s) ∧ abs y' = sem_wait (current r) (abs y) ∧
    if 0 <? not_delivered_notifc_count y then wait_notific N tick_per_us tick ops me n is_block ts s = Done 0 s' ∧ sch s' = sch s
    else is_waiting s' (current r) ∧ wait_notific N tick_per_us tick ops me n is_block ts s =
           (on_sch (sched ops me) ;; on_sch (eret_to_thread N me) ;; ret 0) s'
  else wait_notific N tick_per_us tick ops me n is_block ts s = Done (- EAGAIN) s.
Proof.
  intros W Hr Hcc Hs Hty Hn Hlen Hz Hcb Hts. destruct (no_count s (w_notifs _ _ W) n y Hn) as (K1 & K2 & K3 & K4 & K5).
  unfold wait_notific. destruct (Z.ltb_spec 0 (not_delivered_notifc_count y)) as [Hp|Hp]; cbn [orb].
  - destruct K5 as [K5|K5]; [lia|].
    exists (with_notifs (<[n := mk_notific (not_delivered_notifc_count y - 1) (waiting_threads_count y) (waiting_threads y)]>) s), (mk_notific (not_delivered_notifc_count y - 1) (waiting_threads_count y) (waiting_threads y)).
    split; [|split; [done|split; [unfold abs, sem_wait; simpl; by rewrite (proj2 (Z.ltb_lt _ _) Hp)|split; [|done]]]].
    + apply (world_set s n y _ W Hn); [done|]. unfold notific_ok. simpl. split_and!; try done; try lia. by right.
    + erewrite bind_Done by (by apply notific_at_ok). by rewrite (proj2 (Z.ltb_lt _ _) Hp).
  - destruct is_block; [|erewrite bind_Done by (by apply notific_at_ok); by rewrite (proj2 (Z.ltb_ge _ _) Hp)].
    destruct (block_spec s me r n y cc z ts W Hr Hcc Hs Hty Hn ltac:(lia) Hlen Hz Hcb Hts) as (s' & y' & E & W' & En & Ha & Hw).
    exists s', y'. split_and!; try done. erewrite bind_Done by (by apply notific_at_ok). rewrite (proj2 (Z.ltb_ge _ _) Hp). by erewrite bind_Done by exact E.
Qed.

End spec.

(** ** A small system

    Thread 10 runs on CPU 0; thread 20 waits on notification 500 until tick 50,
    thread 30 sleeps until tick 40. *)
Module NDemo.

Definition ctxs : gmap Z thread :=
  list_to_map [(1, mk_thread (Some (Demo.idle_ctx 0 TS_INTER)) 0 90 80); (2, mk_thread (Some (Demo.idle_ctx 1 TS_RUNNING)) 0 90 80);
               (10, mk_thread (Some (Demo.user TS_RUNNING 5 KS_LOCKED)) 0 100 80);
               (20, mk_thread (Some (Demo.user TS_WAITING 0 KS_FREE)) 0 100 80); (30, mk_thread (Some (Demo.user TS_WAITING 9 KS_FREE)) 0 101 80)].
Definition sch0 : sstate Z Z := mk_sstate 1048576 ctxs Demo.demo_cpus (list_to_map [(0, []); (1, [])]) ∅.
Definition sleep0 : gmap Z sleep_state :=
  {[10 := mk_sleep 0 0 0 None; 20 := mk_sleep 50 0 500 (Some NOTIFIC_TIMER_CB); 30 := mk_sleep 40 0 0 (Some SLEEP_TIMER_CB)]}.
Definition times0 : gmap Z time_state := {[0 := mk_time 1000 [30; 20]; 1 := mk_time 1000 []]}.
Definition notifs0 : gmap Z notification := {[500 := mk_notific 0 1 [20]; 501 := mk_notific 2 0 []]}.
Definition w0 : tstate Z Z := mk_tstate sch0 sleep0 times0 notifs0 0 ∅.
Definition tick0 (i : nat) : Z := 45.
Abbreviation inv0 := (RR.rr_inv 2 RR.RRDemo.idle Demo.want None).
Abbreviation ops0 := (RR.rr 2 RR.RRDemo.idle).

Lemma notific_rr_inv : inv0 sch0.
Proof.
  split; [split|].
  - apply ready_ok_check.
    + unfold sch0, tctx. simpl ready. simpl threads. check_map.
    + unfold sch0. simpl ready. simpl threads. check_map.
  - apply fpu_ok_check; unfold sch0, tctx; simpl cpus; simpl threads; check_map.
  - intros k Hk. assert (k = 0 ∨ k = 1) as [-> | ->] by (unfold RR.valid_cpu in Hk; lia); by eexists.
  - assert (∀ d r, cpus sch0 !! d = Some r → (0 ≤ d < 2) ∧ (current r ≠ 0 → is_Some (tctx sch0 (current r)))) as H; [|exact H].
    unfold sch0. simpl cpus. check_map.
  - intros d Hd. assert (d = 0 ∨ d = 1) as [-> | ->] by lia; by eexists.
Qed.

Lemma sleep0_inv t z : sleep0 !! t = Some z → t = 10 ∧ z = mk_sleep 0 0 0 None ∨ t = 20 ∧ z = mk_sleep 50 0 500 (Some NOTIFIC_TIMER_CB) ∨
  t = 30 ∧ z = mk_sleep 40 0 0 (Some SLEEP_TIMER_CB).
Proof.
  unfold sleep0. intros [[<- <-]|[_ [[<- <-]|[_ [<- <-]%lookup_singleton_Some]]%lookup_insert_Some]]%lookup_insert_Some; auto.
Qed.
Lemma times0_inv d x : times0 !! d = Some x → d = 0 ∧ x = mk_time 1000 [30; 20] ∨ d = 1 ∧ x = mk_time 1000 [].
Proof. unfold times0. intros [[<- <-]|[_ [<- <-]%lookup_singleton_Some]]%lookup_insert_Some; auto. Qed.
Lemma notifs0_inv n y : notifs0 !! n = Some y → n = 500 ∧ y = mk_notific 0 1 [20] ∨ n = 501 ∧ y = mk_notific 2 0 [].
Proof. unfold notifs0. intros [[<- <-]|[_ [<- <-]%lookup_singleton_Some]]%lookup_insert_Some; auto. Qed.

Lemma demo_lists : lists_ok w0.
Proof.
  split; simpl.
  - intros d x [[-> ->]|[-> ->]]%times0_inv; (split; [apply (bool_decide_unpack (NoDup _)); exact I|]); repeat constructor; simpl; vm_compute; discriminate.
  - intros d x t [[-> ->]|[-> ->]]%times0_inv Ht; [|by apply not_elem_of_nil in Ht]. simpl in Ht.
    assert (t = 30 ∨ t = 20) as [-> | ->] by set_solver; (eexists; split; [reflexivity|]); split; [done|by eexists|done|by eexists].
  - intros t z [[-> ->]|[[-> ->]|[-> ->]]]%sleep0_inv Hc; [by destruct Hc| |]; (eexists; split; [reflexivity|]; simpl; set_solver).
Qed.

Lemma demo_world : world inv0 None w0.
Proof.
  assert (is_waiting w0 20 ∧ is_waiting w0 30) as [H20 H30] by (split; (eexists; split; [reflexivity|done])).
  split; [apply notific_rr_inv|apply demo_lists| |].
  - split; simpl.
    + intros n y [[-> ->]|[-> ->]]%notifs0_inv; (split_and!; try done; [apply (bool_decide_unpack (NoDup _)); exact I|]); [by left|by right].
    + intros n y t [[-> ->]|[-> ->]]%notifs0_inv Ht; [|by apply not_elem_of_nil in Ht]. simpl in Ht. apply list_elem_of_singleton in Ht as ->. split; [done|by eexists].
    + intros n m y x t [[-> ->]|[-> ->]]%notifs0_inv [[-> ->]|[-> ->]]%notifs0_inv H1 H2; try done; by apply not_elem_of_nil in H1 || by apply not_elem_of_nil in H2.
  - split; simpl.
    + intros t z [[-> ->]|[[-> ->]|[-> ->]]]%sleep0_inv _ Hc; try done.
    + intros t z [[-> ->]|[[-> ->]|[-> ->]]]%sleep0_inv _ Hc; try done. eexists. split; [reflexivity|]. by left.
Qed.

Lemma demo_running : ∀ r, cpus sch0 !! 0 = Some r → running w0 r.
Proof. intros r [= <-] c Hc. vm_compute in Hc. by injection Hc as <-. Qed.

Lemma demo_ticks : ticks_ok 1 tick0.
Proof. split; [done|]. intros i. unfold tick0. done. Qed.

End NDemo.

Import NDemo.
#[local] Existing Instance RR.rr_scheduler.

Lemma enqueue_sleeper_ok_witness : ∃ s', enqueue_sleeper 1 tick0 0 10 (mk_timespec 0 1000) SLEEP_TIMER_CB w0 = Done 0 s' ∧ lists_ok s'.
Proof.
  destruct (enqueue_sleeper_ok 1 tick0 0 10 (mk_timespec 0 1000) SLEEP_TIMER_CB w0 (mk_time 1000 [30; 20]) (mk_sleep 0 0 0 None) demo_lists)
    as (s' & E & _ & L); [reflexivity|reflexivity|reflexivity|exists s'; split; [exact E|exact L]].
Defined.

Lemma handle_timer_irq_ok_witness : ∃ s' d', handle_timer_irq 1 tick0 ops0 0 w0 = Done tt s' ∧ world inv0 None s' ∧
  times s' !! 0 = Some d' ∧ sleep_list d' = [20] ∧ budget <$> tctx (sch s') 10 = Some 0.
Proof.
  destruct (handle_timer_irq_ok 1 tick0 ops0 inv0 w0 0 (mk_cpu 10 20 true true 7 44 100) (mk_time 1000 [30; 20]) demo_world)
    as [E|(s' & d' & delta & E & W & Hd & Hl & _ & _ & _ & _ & _ & HB)]; [reflexivity|by apply demo_running|reflexivity|exact demo_ticks|vm_compute in E; discriminate E|].
  exists s', d'. split; [exact E|]. split; [exact W|]. split; [exact Hd|]. split; [rewrite Hl; vm_compute; reflexivity|].
  rewrite (HB 10 _ eq_refl). vm_compute. reflexivity.
Defined.

Lemma tick_delta_bounds_witness : ∃ delta s', get_next_tick_delta 1 tick0 0 w0 = Done delta s' ∧ 0 < delta ≤ 10000.
Proof.
  destruct (tick_delta_bounds 1 tick0 w0 0 (mk_time 1000 [30; 20]) demo_lists) as (delta & s' & E & H & _); [reflexivity|exact demo_ticks|].
  exists delta, s'. split; [exact E|exact H].
Defined.

Lemma signal_notific_ok_witness : ∃ s' y', signal_notific 2 ops0 0 500 false w0 = Done 0 s' ∧ world inv0 None s' ∧
  notifs s' = <[500 := y']> (notifs w0) ∧ abs y' = (0, []).
Proof.
  destruct (signal_notific_ok 2 ops0 inv0 w0 0 (mk_cpu 10 20 true true 7 44 100) 500 (mk_notific 0 1 [20]) demo_world)
    as [E|(s' & y' & E & W & Hn & Ha & _)]; [reflexivity|by apply demo_running|reflexivity|vm_compute in E; discriminate E|].
  exists s', y'. split; [exact E|]. split; [exact W|]. split; [exact Hn|exact Ha].
Defined.

Lemma signal_switch_ok_witness : ∃ s' r', signal_notific 2 ops0 0 500 true w0 = Away s' ∧ world inv0 None s' ∧
  cpus (sch s') !! 0 = Some r' ∧ current r' = 20.
Proof.
  destruct (signal_switch_ok 2 ops0 inv0 w0 0 (mk_cpu 10 20 true true 7 44 100) 500 (mk_notific 0 1 [20]) 20 []
    (Demo.user TS_WAITING 0 KS_FREE) (Demo.user TS_RUNNING 5 KS_LOCKED) 100 demo_world) as [E|(s' & E & W & _ & r' & c' & Hr & Hc & _)];
    [reflexivity|lia|discriminate|discriminate|reflexivity|reflexivity|discriminate|reflexivity|reflexivity|reflexivity|reflexivity
    |left; reflexivity|reflexivity|discriminate|vm_compute in E; discriminate E|].
  exists s', r'. split; [exact E|]. split; [exact W|]. split; [exact Hr|exact Hc].
Defined.

Lemma wait_notific_ok_witness : ∃ s' y', world inv0 None s' ∧ notifs s' = <[500 := y']> (notifs w0) ∧ abs y' = (0, [20; 10]) ∧
  wait_notific 2 1 tick0 ops0 0 500 true (Some (mk_timespec 0 1000)) w0 = (on_sch (sched ops0 0) ;; on_sch (eret_to_thread 2 0) ;; ret 0) s'.
Proof.
  destruct (wait_notific_ok 2 1 tick0 ops0 inv0 w0 0 (mk_cpu 10 20 true true 7 44 100) 500 (mk_notific 0 1 [20])
    (Demo.user TS_RUNNING 5 KS_LOCKED) (mk_sleep 0 0 0 None) true (Some (mk_timespec 0 1000)) demo_world) as (s' & y' & W & Hn & Ha & _ & E);
    [reflexivity|reflexivity|reflexivity|discriminate|reflexivity|reflexivity|reflexivity|reflexivity|intros _; by eexists|].
  exists s', y'. split; [exact W|]. split; [exact Hn|]. split; [exact Ha|exact E].
Defined.

(** A race.  Thread 20 has its timeout on CPU 1.  CPU 0 signals with a direct switch
    and has just released the notification; the timeout fires on CPU 1 before
    the signal can cancel it.  The thread is still [TS_WAITING], so the callback
    deletes it from the waiting threads a second time. *)
Definition w1 : tstate Z Z :=
  mk_tstate sch0 (<[20 := mk_sleep 50 1 500 (Some NOTIFIC_TIMER_CB)]> sleep0) {[0 := mk_time 1000 [30]; 1 := mk_time 1000 [20]]} notifs0 0 ∅.

Example signal_timeout_race : (take_waiter 500 ;; leave_current ops0 0 ;; handle_timer_irq 1 (λ _, 60) ops0 1) w1 = Fault.
Proof. vm_compute. reflexivity. Qed.

End Notific.
