(* ===== verification/Memory.v ===== *)
(** * Memory system calls (kernel/object/memory.c)

    Memory objects and mappings as user processes see them: creating, reading,
    writing, mapping and unmapping memory objects, the heap ([brk]), [mmap] and
    its relatives, and System V shared memory.  The functions combine the
    capabilities of Capability.v with the address spaces of VmRegion.v and the
    current thread of Sched.v.

    The state is that of Capability.v, whose payload holds the threads, the
    address spaces with the memory objects, the shared memory segments and a log
    of what was copied between the kernel and user memory.  [me] is the CPU. *)

From S2P Require Import Prelude Bitops Buddy Allocator Uaccess Capability PageTable VmRegion Sched.

Module Memory.

Import Allocator Uaccess Bitops(ROUND_DOWN) Buddy(ROUND_UP).
Import PageTable(VMR_READ, VMR_WRITE, VMR_EXEC).
Import VmRegion(vstate, PMO_ANONYM, PMO_DATA, PMO_FILE, PMO_SHM, PMO_DEVICE).
Import Sched(sstate).

Definition EPERM : Z := 1.
Definition EAGAIN : Z := 11.
Definition ENOMEM : Z := 12.
Definition EACCES : Z := 13.
Definition EEXIST : Z := 17.
Definition EINVAL : Z := 22.

Definition MAX_CNT : Z := 32.
Definition WRITE : Z := 0.
Definition READ : Z := 1.

Definition MAP_SHARED : Z := 1.
Definition MAP_PRIVATE : Z := 2.
Definition MAP_ANONYMOUS : Z := 0x20.
Definition PROT_READ : Z := 1.
Definition PROT_WRITE : Z := 2.
Definition PROT_EXEC : Z := 4.
Definition PROT_CHECK_MASK : Z := Z.lnot 7.

Definition IPC_CREAT : Z := 0x200.
Definition IPC_EXCL : Z := 0x400.
Definition SHM_RDONLY : Z := 0x1000.
Definition SHM_RND : Z := 0x2000.
Definition SHM_REMAP : Z := 0x4000.
Definition SHM_EXEC : Z := 0x8000.

Definition SIZEOF_PMO : Z := 40.
Definition SIZEOF_PMO_REQUEST : Z := 24.
Definition SIZEOF_PMO_MAP_REQUEST : Z := 32.
Definition SIZEOF_SHM_RECORD : Z := 40.

Record pmo_request := mk_request { r_size : Z; r_type : Z }.
Record pmo_map_request := mk_map_request { r_pmo_cap : Z; r_addr : Z; r_perm : Z }.
Record shm_record := mk_shm { key : Z; shmid : Z; shm_size : Z; shm_pmo : Z }.

(** The log: words written to user memory, and bytes copied between user memory
    and the kernel address [kva]. *)
Inductive copy :=
| ToUser (user_buf : Z) (words : list Z)
| Bytes (op_type kva user_buf size : Z).

(** The conversion of a word to an [int] and its tests. *)
Definition bits (x mask : Z) : bool := negb (Z.land x mask =? 0).

Definition get_vmr_prot (prot : Z) : Z :=
  let r := 0 in
  let r := if bits prot PROT_READ then Z.lor r VMR_READ else r in
  let r := if bits prot PROT_WRITE then Z.lor r VMR_WRITE else r in
  if bits prot PROT_EXEC then Z.lor r VMR_EXEC else r.

Definition valid_prot (vmr_prot target_prot : Z) : Z :=
  if bits target_prot PROT_READ && negb (bits vmr_prot PROT_READ) then -1
  else if bits target_prot PROT_WRITE && negb (bits vmr_prot PROT_WRITE) then -1
  else if bits target_prot PROT_EXEC && negb (bits vmr_prot PROT_EXEC) then -1
  else 0.


(** ** Permissions, bit by bit *)

Lemma bits_pow x k : 0 ≤ k → bits x (2 ^ k) = Z.testbit x k.
Proof.
  intros Hk. unfold bits. destruct (Z.testbit x k) eqn:E.
  - rewrite (proj2 (Z.eqb_neq _ 0)); [done|]. intros H0. apply (f_equal (λ z, Z.testbit z k)) in H0.
    rewrite Z.land_spec, Z.pow2_bits_true, E, Z.bits_0 in H0 by done. done.
  - rewrite (proj2 (Z.eqb_eq _ 0)); [done|]. apply Z.bits_inj'. intros j Hj. rewrite Z.land_spec, Z.bits_0.
    destruct (decide (j = k)) as [->|N]; [by rewrite E|]. rewrite Z.pow2_bits_false by done. apply andb_false_r.
Qed.

(** The low three bits decide. *)
Lemma low_bits x y : Z.land x 7 = Z.land y 7 ↔
  Z.testbit x 0 = Z.testbit y 0 ∧ Z.testbit x 1 = Z.testbit y 1 ∧ Z.testbit x 2 = Z.testbit y 2.
Proof.
  split.
  - intros E. split_and!; [apply (f_equal (λ z, Z.testbit z 0)) in E|apply (f_equal (λ z, Z.testbit z 1)) in E|apply (f_equal (λ z, Z.testbit z 2)) in E];
      rewrite !Z.land_spec in E; by rewrite !andb_true_r in E.
  - intros (E0 & E1 & E2). apply Z.bits_inj'. intros j Hj. rewrite !Z.land_spec.
    assert (j = 0 ∨ j = 1 ∨ j = 2 ∨ 3 ≤ j) as [->|[->|[->|L]]] by lia; [by rewrite E0|by rewrite E1|by rewrite E2|].
    rewrite (Z.bits_above_log2 7 j) by (try lia; simpl; lia). by rewrite !andb_false_r.
Qed.

Lemma get_vmr_prot_low prot : get_vmr_prot prot = Z.land prot 7.
Proof.
  unfold get_vmr_prot. change PROT_READ with (2 ^ 0). change PROT_WRITE with (2 ^ 1). change PROT_EXEC with (2 ^ 2). rewrite !bits_pow by lia.
  destruct (Z.testbit prot 0) eqn:E0, (Z.testbit prot 1) eqn:E1, (Z.testbit prot 2) eqn:E2; symmetry;
    match goal with |- _ = ?z => transitivity (Z.land z 7); [|reflexivity] end; apply low_bits; rewrite E0, E1, E2; done.
Qed.

Lemma valid_prot_spec v t : valid_prot v t = if Z.ldiff (Z.land t 7) v =? 0 then 0 else -1.
Proof.
  assert (Z.ldiff (Z.land t 7) v = Z.land (Z.ldiff t v) 7) as ->.
  { apply Z.bits_inj'. intros j Hj. rewrite Z.ldiff_spec, !Z.land_spec, Z.ldiff_spec. by destruct (Z.testbit t j), (Z.testbit 7 j), (Z.testbit v j). }
  unfold valid_prot. change PROT_READ with (2 ^ 0). change PROT_WRITE with (2 ^ 1). change PROT_EXEC with (2 ^ 2). rewrite !bits_pow by lia.
  pose proof (low_bits (Z.ldiff t v) 0) as L. rewrite !Z.ldiff_spec, !Z.bits_0 in L. change (Z.land 0 7) with 0 in L.
  destruct (Z.eqb_spec (Z.land (Z.ldiff t v) 7) 0) as [E|N].
  - destruct (proj1 L E) as (-> & -> & ->). done.
  - destruct (Z.testbit t 0 && _); [done|]. destruct (Z.testbit t 1 && _); [done|]. destruct (Z.testbit t 2 && _); [done|]. by destruct (N (proj2 L (conj eq_refl (conj eq_refl eq_refl)))).
Qed.

(** The bit-by-bit code for permissions computes set operations on the three
    low bits: the permissions of a region are the low bits of those the user
    gives, and the test of [mprotect] accepts exactly the subsets of the
    permissions the region has. *)
Theorem prot_equiv prot v :
  get_vmr_prot prot = Z.land prot 7 ∧
  valid_prot v (get_vmr_prot prot) = if Z.ldiff (Z.land prot 7) v =? 0 then 0 else -1.
Proof.
  split; [apply get_vmr_prot_low|]. rewrite valid_prot_spec, get_vmr_prot_low, <- Z.land_assoc. done.
Qed.

Section mem.
Context {A H B : Type} `{!Allocator A, !Allocator H, !Allocator B, !PageAllocator B}.
Context {K : Type} `{!EqDecision K, !Countable K}.
Context (oob : Z → Z).

Record mstate := mk_mstate {
  sch : sstate H K;
  vm : vstate B;
  (** [global_shm_info], as the list of the records, and [global_shm_id] *)
  global_shm_info : list shm_record;
  global_shm_id : Z;
  copies : list copy
}.

Definition with_sch (x : sstate H K) (s : mstate) : mstate :=
  mk_mstate x (vm s) (global_shm_info s) (global_shm_id s) (copies s).
Definition with_vm (x : vstate B) (s : mstate) : mstate :=
  mk_mstate (sch s) x (global_shm_info s) (global_shm_id s) (copies s).
Definition with_shm (l : list shm_record) (n : Z) (s : mstate) : mstate :=
  mk_mstate (sch s) (vm s) l n (copies s).
Definition logged (c : copy) (s : mstate) : mstate :=
  mk_mstate (sch s) (vm s) (global_shm_info s) (global_shm_id s) (copies s ++ [c]).

Abbreviation MK := (M (Capability.kstate (A := A) (E := mstate))).
Import Capability(obj_alloc, cap_alloc, cap_copy, obj_free, obj_get, obj_put, on_ext, TYPE_PMO, TYPE_CAP_GROUP, TYPE_VMSPACE, VMSPACE_OBJ_ID, ECAPBILITY).

(** The deinitialisers of objects ([obj_deinit_tbl]). *)
Context (obj_deinit : Z → Z → M mstate unit).

Definition on_sch {X} (m : M (sstate H K) X) : MK X := on_ext (zoom sch with_sch m).
Definition on_vm {X} (m : M (vstate B) X) : MK X := on_ext (zoom vm with_vm m).
Definition log (c : copy) : MK unit := on_ext (modify (logged c)).

Definition current_thread (me : Z) : MK Sched.thread := on_sch (t <- Sched.current_thread me ;; Sched.thread_at t).
Definition current_cap_group (me : Z) : MK Z := th <- current_thread me ;; ret (Sched.cap_group th).

Definition pmo_of (p : Z) : MK VmRegion.pmobject := on_vm (VmRegion.pmo_at p).

Definition sys_create_device_pmo (me paddr size : Z) : MK Z :=
  BUG_ON (size =? 0) ;;
  pmo <- obj_alloc TYPE_PMO SIZEOF_PMO ;;
  if pmo =? 0 then ret (- ENOMEM)
  else
    on_vm (VmRegion.pmo_init pmo PMO_DEVICE size paddr) ;;
    g <- current_cap_group me ;;
    cap <- cap_alloc oob g pmo 0 ;;
    if cap <? 0 then obj_free obj_deinit pmo ;; ret cap else ret cap.

Definition sys_create_pmo (me size type : Z) : MK Z :=
  BUG_ON (size =? 0) ;;
  pmo <- obj_alloc TYPE_PMO SIZEOF_PMO ;;
  if pmo =? 0 then ret (- ENOMEM)
  else
    on_vm (VmRegion.pmo_init pmo type size 0) ;;
    g <- current_cap_group me ;;
    cap <- cap_alloc oob g pmo 0 ;;
    if cap <? 0 then obj_free obj_deinit pmo ;; ret cap else ret cap.

(** What is written back of a request. *)
Definition request_words (r : pmo_request) (cap : Z) : list Z := [r_size r; r_type r; u64 cap].
Fixpoint create_pmos (me : Z) (l : list pmo_request) : MK (list Z) :=
  match l with
  | [] => ret []
  | r :: l' =>
      cap <- sys_create_pmo me (r_size r) (r_type r) ;;
      ws <- create_pmos me l' ;;
      ret (request_words r cap ++ ws)
  end.

(** [reqs] is what the user has at [user_buf], [cnt] requests. *)
Definition sys_create_pmos (me user_buf : Z) (reqs : list pmo_request) : MK Z :=
  let cnt := Z.of_nat (length reqs) in
  if MAX_CNT <? cnt then ret (- EINVAL)
  else
    requests <- Capability.on_al (al_alloc (SIZEOF_PMO_REQUEST * cnt)) ;;
    if requests =? 0 then ret (- EAGAIN)
    else
      l <- copy_from_user user_buf reqs ;;
      ws <- create_pmos me l ;;
      copy_to_user user_buf (log (ToUser user_buf ws)) ;;
      Capability.on_al (al_free requests) ;;
      ret 0.

(** The page of an anonymous memory object for [index], as a kernel address. *)
Definition anonymous_page (pmo index : Z) : M (vstate B) Z :=
  pa <- VmRegion.get_page_from_pmo pmo index ;;
  if pa =? 0 then
    kva <- VmRegion.on_al get_page ;;
    BUG_ON (kva =? 0) ;;
    VmRegion.clear_page kva ;;
    VmRegion.commit_page_to_pmo pmo index (virt_to_phys kva) ;;
    ret kva
  else ret (phys_to_virt pa).

(** The kernel address of an anonymous object is that of the page of [offset]. *)
Definition read_write_pmo (me pmo_cap offset user_buf size op_type : Z) : MK Z :=
  g <- current_cap_group me ;;
  pmo <- obj_get g (s32 pmo_cap) TYPE_PMO ;;
  if pmo =? 0 then ret (- ECAPBILITY)
  else
    o <- pmo_of pmo ;;
    if negb (VmRegion.p_type o =? PMO_DATA) && negb (VmRegion.p_type o =? PMO_ANONYM) then obj_put pmo ;; ret (- EINVAL)
    else if (u64 (offset + size) <? offset) || (VmRegion.p_size o <? u64 (offset + size)) then obj_put pmo ;; ret (- EINVAL)
    else
      kva <- (if VmRegion.p_type o =? PMO_DATA then ret (u64 (phys_to_virt (VmRegion.p_start o) + offset))
              else on_vm (anonymous_page pmo (ROUND_DOWN offset PAGE_SIZE / PAGE_SIZE))) ;;
      (if op_type =? WRITE then copy_from_user user_buf tt ;; log (Bytes WRITE kva user_buf size)
       else if op_type =? READ then copy_to_user user_buf (log (Bytes READ kva user_buf size)) ;; ret tt
       else halt) ;;
      obj_put pmo ;;
      ret 0.

Definition sys_write_pmo (me pmo_cap offset user_ptr len : Z) : MK Z := read_write_pmo me pmo_cap offset user_ptr len WRITE.
Definition sys_read_pmo (me pmo_cap offset user_ptr len : Z) : MK Z := read_write_pmo me pmo_cap offset user_ptr len READ.

Definition sys_get_pmo_paddr (me pmo_cap user_buf : Z) : MK Z :=
  g <- current_cap_group me ;;
  pmo <- obj_get g (s32 pmo_cap) TYPE_PMO ;;
  if pmo =? 0 then ret (- ECAPBILITY)
  else
    o <- pmo_of pmo ;;
    if negb (VmRegion.p_type o =? PMO_DATA) then obj_put pmo ;; ret (- EINVAL)
    else
      copy_to_user user_buf (log (ToUser user_buf [VmRegion.p_start o])) ;;
      obj_put pmo ;;
      ret 0.

(** [query_in_pgtbl] in the address space of the current thread. *)
Definition query (me va : Z) : MK (Z + Z) :=
  th <- current_thread me ;;
  r <- on_vm (v <- VmRegion.vmspace_at (Sched.vmspace th) ;; VmRegion.on_pt (PageTable.query_in_pgtbl (VmRegion.pgtbl v) va)) ;;
  ret (match r with inl e => inl e | inr (pa, _) => inr pa end).

Definition sys_get_phys_addr (me va pa_buf : Z) : MK Z :=
  r <- query me va ;;
  match r with
  | inl e => ret e
  | inr pa => copy_to_user pa_buf (log (ToUser pa_buf [pa])) ;; ret 0
  end.

(** The kernel address, or the error. *)
Definition trans_uva_to_kva (me user_va : Z) : MK (Z + Z) :=
  r <- query me user_va ;;
  ret (match r with inl e => inl e | inr pa => inr (phys_to_virt pa) end).

Definition sys_map_pmo (me target_cap_group_cap pmo_cap addr perm : Z) : MK Z :=
  g <- current_cap_group me ;;
  pmo <- obj_get g (s32 pmo_cap) TYPE_PMO ;;
  if pmo =? 0 then ret (- ECAPBILITY)
  else
    target <- obj_get g (s32 target_cap_group_cap) TYPE_CAP_GROUP ;;
    if target =? 0 then obj_put pmo ;; ret (- ECAPBILITY)
    else
      vmspace <- obj_get target VMSPACE_OBJ_ID TYPE_VMSPACE ;;
      BUG_ON (vmspace =? 0) ;;
      o <- pmo_of pmo ;;
      r <- on_vm (VmRegion.vmspace_map_range vmspace addr (VmRegion.p_size o) perm pmo) ;;
      r <- (if negb (r =? 0) then ret (- EPERM)
            else if negb (target =? g) then cap_copy oob g target (s32 pmo_cap) false 0
            else ret 0) ;;
      obj_put vmspace ;;
      obj_put target ;;
      obj_put pmo ;;
      ret r.

Definition map_pmo_in_current_cap_group (me pmo_cap addr perm : Z) : MK Z :=
  g <- current_cap_group me ;;
  pmo <- obj_get g (s32 pmo_cap) TYPE_PMO ;;
  if pmo =? 0 then ret (- ECAPBILITY)
  else
    vmspace <- obj_get g VMSPACE_OBJ_ID TYPE_VMSPACE ;;
    BUG_ON (vmspace =? 0) ;;
    o <- pmo_of pmo ;;
    r <- on_vm (VmRegion.vmspace_map_range vmspace addr (VmRegion.p_size o) perm pmo) ;;
    obj_put vmspace ;;
    obj_put pmo ;;
    ret (if r =? 0 then 0 else - EPERM).

Definition map_request_words (r : pmo_map_request) (v : Z) : list Z := [r_pmo_cap r; r_addr r; r_perm r; u64 v].
Fixpoint map_pmos (me target_cap_group_cap : Z) (l : list pmo_map_request) : MK (list Z) :=
  match l with
  | [] => ret []
  | r :: l' =>
      v <- sys_map_pmo me target_cap_group_cap (r_pmo_cap r) (r_addr r) (r_perm r) ;;
      ws <- map_pmos me target_cap_group_cap l' ;;
      ret (map_request_words r v ++ ws)
  end.
Definition sys_map_pmos (me target_cap_group_cap user_buf : Z) (reqs : list pmo_map_request) : MK Z :=
  let cnt := Z.of_nat (length reqs) in
  if MAX_CNT <? cnt then ret (- EINVAL)
  else
    requests <- Capability.on_al (al_alloc (SIZEOF_PMO_MAP_REQUEST * cnt)) ;;
    if requests =? 0 then ret (- EAGAIN)
    else
      l <- copy_from_user user_buf reqs ;;
      ws <- map_pmos me target_cap_group_cap l ;;
      copy_to_user user_buf (log (ToUser user_buf ws)) ;;
      Capability.on_al (al_free requests) ;;
      ret 0.

Definition sys_unmap_pmo (me target_cap_group_cap pmo_cap addr : Z) : MK Z :=
  g <- current_cap_group me ;;
  pmo <- obj_get g (s32 pmo_cap) TYPE_PMO ;;
  if pmo =? 0 then ret (- EPERM)
  else
    target <- obj_get g (s32 target_cap_group_cap) TYPE_CAP_GROUP ;;
    if target =? 0 then obj_put pmo ;; ret (- EPERM)
    else
      vmspace <- obj_get target VMSPACE_OBJ_ID TYPE_VMSPACE ;;
      if vmspace =? 0 then obj_put target ;; obj_put pmo ;; ret (- EPERM)
      else
        o <- pmo_of pmo ;;
        r <- on_vm (VmRegion.vmspace_unmap_range vmspace addr (VmRegion.p_size o)) ;;
        obj_put vmspace ;;
        obj_put target ;;
        obj_put pmo ;;
        ret (if r =? 0 then 0 else - EPERM).

(** ** The heap *)

Definition with_heap_vmr (p : Z) (v : VmRegion.vmspace) : VmRegion.vmspace :=
  VmRegion.mk_vmspace (VmRegion.vmr_list v) (VmRegion.pgtbl v) (VmRegion.vmspace_lock v) (VmRegion.history_cpus v) p
    (VmRegion.user_current_heap v) (VmRegion.user_current_mmap_addr v).

(** [vmr->size += len; vmr->pmo->size += len] *)
Definition enlarge (vmr len : Z) : M (vstate B) unit :=
  v <- VmRegion.vmr_at vmr ;;
  VmRegion.set_vmr vmr (VmRegion.mk_vmr (VmRegion.start v) (u64 (VmRegion.size v + len)) (VmRegion.perm v) (VmRegion.pmo v)) ;;
  o <- VmRegion.pmo_at (VmRegion.pmo v) ;;
  modify (VmRegion.with_pmos (<[VmRegion.pmo v := VmRegion.mk_pmo (VmRegion.p_radix o) (VmRegion.p_start o)
    (u64 (VmRegion.p_size o + len)) (VmRegion.p_type o)]>)).

Definition sys_handle_brk (me addr : Z) : MK Z :=
  g <- current_cap_group me ;;
  sp <- obj_get g VMSPACE_OBJ_ID TYPE_VMSPACE ;;
  v <- on_vm (VmRegion.vmspace_at sp) ;;
  if addr =? 0 then
    let retval := VmRegion.user_current_heap v in
    pmo <- obj_alloc TYPE_PMO SIZEOF_PMO ;;
    BUG_ON (pmo =? 0) ;;
    on_vm (VmRegion.pmo_init pmo PMO_ANONYM 0 0) ;;
    cap <- cap_alloc oob g pmo 0 ;;
    BUG_ON (cap <? 0) ;;
    vmr <- on_vm (VmRegion.init_heap_vmr sp retval pmo) ;;
    on_vm (VmRegion.upd_space sp (with_heap_vmr vmr)) ;;
    obj_put sp ;;
    ret retval
  else
    let vmr := VmRegion.heap_vmr v in
    x <- on_vm (VmRegion.vmr_at vmr) ;;
    let brk := u64 (VmRegion.start x + VmRegion.size x) in
    BUG_ON (addr <? brk) ;;
    on_vm (enlarge vmr (u64 (addr - brk))) ;;
    obj_put sp ;;
    ret addr.

(** ** mmap *)

(** [(u64)(-1L)] *)
Definition MAP_FAILED : Z := 2 ^ 64 - 1.

Definition sys_handle_mmap (me addr length prot flags fd offset : Z) : MK Z :=
  if negb (fd =? -1) then halt
  else if bits prot PROT_CHECK_MASK then ret MAP_FAILED
  else if negb (flags =? Z.lor MAP_ANONYMOUS MAP_PRIVATE) then ret MAP_FAILED
  else
    let length := if negb (length mod PAGE_SIZE =? 0) then u64 (ROUND_UP length PAGE_SIZE) else length in
    pmo <- obj_alloc TYPE_PMO SIZEOF_PMO ;;
    BUG_ON (pmo =? 0) ;;
    on_vm (VmRegion.pmo_init pmo PMO_ANONYM length 0) ;;
    g <- current_cap_group me ;;
    new_pmo_cap <- cap_alloc oob g pmo 0 ;;
    BUG_ON (new_pmo_cap <? 0) ;;
    vmspace <- obj_get g VMSPACE_OBJ_ID TYPE_VMSPACE ;;
    map_addr <- on_vm (VmRegion.vmspace_mmap_with_pmo vmspace pmo length (get_vmr_prot prot)) ;;
    obj_put vmspace ;;
    ret map_addr.

Definition sys_handle_munmap (me addr length : Z) : MK Z :=
  if negb (addr mod PAGE_SIZE =? 0) || negb (length mod PAGE_SIZE =? 0) then ret (- EINVAL)
  else
    g <- current_cap_group me ;;
    vmspace <- obj_get g VMSPACE_OBJ_ID TYPE_VMSPACE ;;
    r <- on_vm (VmRegion.vmspace_munmap_with_addr vmspace addr length) ;;
    obj_put vmspace ;;
    ret r.

(** What the first loop of [sys_handle_mprotect] finds. *)
Inductive range_check := NoAccess | PartOfRegion | Covered (remaining : Z).

(** The loops; the fuel is the number of regions and one more. *)
Fixpoint check_range (fuel : nat) (sp va remaining target_prot : Z) : M (vstate B) range_check :=
  if remaining <=? 0 then ret (Covered remaining)
  else
    match fuel with
    | O => λ _, Spin
    | S fuel' =>
        vmr <- VmRegion.find_vmr_for_va sp va ;;
        if vmr =? 0 then ret NoAccess
        else
          v <- VmRegion.vmr_at vmr ;;
          if negb (valid_prot (VmRegion.perm v) target_prot =? 0) then ret NoAccess
          else if remaining <? VmRegion.size v then ret PartOfRegion
          else check_range fuel' sp (u64 (va + VmRegion.size v)) (s64 (remaining - VmRegion.size v)) target_prot
    end.

Fixpoint change_range (fuel : nat) (sp va remaining target_prot : Z) : M (vstate B) unit :=
  if remaining <=? 0 then ret tt
  else
    match fuel with
    | O => λ _, Spin
    | S fuel' =>
        vmr <- VmRegion.find_vmr_for_va sp va ;;
        v <- VmRegion.vmr_at vmr ;;
        VmRegion.set_vmr vmr (VmRegion.mk_vmr (VmRegion.start v) (VmRegion.size v) target_prot (VmRegion.pmo v)) ;;
        change_range fuel' sp (u64 (va + VmRegion.size v)) (s64 (remaining - VmRegion.size v)) target_prot
    end.

(** Under the lock of the address space. *)
Definition mprotect_regions (sp addr length target_prot : Z) : M (vstate B) Z :=
  v <- VmRegion.vmspace_at sp ;;
  let fuel := S (List.length (VmRegion.vmr_list v)) in
  c <- check_range fuel sp addr (s64 length) target_prot ;;
  match c with
  | NoAccess => ret (- EACCES)
  | PartOfRegion => ret 0
  | Covered remaining =>
      BUG_ON (negb (remaining =? 0)) ;;
      change_range fuel sp addr (s64 length) target_prot ;;
      VmRegion.on_pt (PageTable.mprotect_in_pgtbl (VmRegion.pgtbl v) addr length target_prot) ;;
      ret 0
  end.

(** The reference is given back before the lock is released. *)
Definition sys_handle_mprotect (me addr length prot : Z) : MK Z :=
  if negb (addr mod PAGE_SIZE =? 0) || negb (length mod PAGE_SIZE =? 0) then ret (- EINVAL)
  else if length =? 0 then ret 0
  else
    let target_prot := get_vmr_prot prot in
    g <- current_cap_group me ;;
    sp <- obj_get g VMSPACE_OBJ_ID TYPE_VMSPACE ;;
    on_vm (VmRegion.lock_space sp) ;;
    r <- on_vm (mprotect_regions sp addr length target_prot) ;;
    obj_put sp ;;
    on_vm (VmRegion.unlock_space sp) ;;
    ret r.

(** ** System V shared memory *)

Definition init_global_shm_namespace : MK unit := on_ext (modify (with_shm [] 0)).

Definition find_shm (p : shm_record → bool) : MK (option shm_record) :=
  on_ext (s <- get ;; ret (List.find p (global_shm_info s))).

(** The memory for the record is not tested; a record without an object is not
    freed. *)
Definition sys_shmget (k size flag : Z) : MK Z :=
  BUG_ON (negb (bits flag IPC_CREAT)) ;;
  record <- find_shm (λ r, key r =? k) ;;
  match record with
  | Some r => if bits flag IPC_EXCL then ret (- EEXIST) else ret (shmid r)
  | None =>
      let size := u64 (ROUND_UP size PAGE_SIZE) in
      p <- Capability.on_al (al_alloc SIZEOF_SHM_RECORD) ;;
      if p =? 0 then fault
      else
        s <- on_ext get ;;
        let id := s32 (global_shm_id s + 1) in
        on_ext (modify (λ s, with_shm (global_shm_info s) id s)) ;;
        pmo <- obj_alloc TYPE_PMO SIZEOF_PMO ;;
        if pmo =? 0 then ret (- ENOMEM)
        else
          on_vm (VmRegion.pmo_init pmo PMO_SHM size 0) ;;
          on_ext (modify (λ s, with_shm (mk_shm k id size pmo :: global_shm_info s) (global_shm_id s) s)) ;;
          ret id
  end.

Definition shm_perm (shmflg : Z) : Z :=
  if bits shmflg SHM_RDONLY then VMR_READ
  else if bits shmflg SHM_EXEC then Z.lor (Z.lor VMR_READ VMR_WRITE) VMR_EXEC
  else Z.lor VMR_READ VMR_WRITE.

Definition sys_shmat (me id shmaddr shmflg : Z) : MK Z :=
  record <- find_shm (λ r, shmid r =? id) ;;
  match record with
  | None => ret (u64 (- EINVAL))
  | Some r =>
      if negb (shmaddr =? 0) && bits shmflg SHM_RND then ret (u64 (- EINVAL))
      else if bits shmflg SHM_REMAP then ret (u64 (- EINVAL))
      else
        g <- current_cap_group me ;;
        vmspace <- obj_get g VMSPACE_OBJ_ID TYPE_VMSPACE ;;
        a <- on_vm (VmRegion.vmspace_mmap_with_pmo vmspace (shm_pmo r) (shm_size r) (shm_perm shmflg)) ;;
        obj_put vmspace ;;
        ret a
  end.

Definition sys_shmdt (me shmaddr : Z) : MK Z :=
  g <- current_cap_group me ;;
  vmspace <- obj_get g VMSPACE_OBJ_ID TYPE_VMSPACE ;;
  r <- on_vm (VmRegion.vmspace_unmap_shm_vmr vmspace shmaddr) ;;
  obj_put vmspace ;;
  ret r.

Definition sys_shmctl (id cmd buf : Z) : MK Z := ret 0.

(** ** File mappings *)

(** The reference to the memory object is kept. *)
Definition sys_handle_fmap (me addr length prot flags translated_aarray_cap offset : Z) : MK Z :=
  if translated_aarray_cap =? 0 then ret (u64 (- EINVAL))
  else if bits prot PROT_CHECK_MASK then ret (u64 (- EINVAL))
  else if bits flags MAP_ANONYMOUS then ret (u64 (- EINVAL))
  else if negb (length mod PAGE_SIZE =? 0) then ret (u64 (- EINVAL))
  else
    g <- current_cap_group me ;;
    pmo <- obj_get g translated_aarray_cap TYPE_PMO ;;
    BUG_ON (pmo =? 0) ;;
    vmspace <- obj_get g VMSPACE_OBJ_ID TYPE_VMSPACE ;;
    map_addr <- on_vm (VmRegion.vmspace_mmap_with_pmo vmspace pmo length (get_vmr_prot prot)) ;;
    obj_put vmspace ;;
    ret map_addr.

(** The loop of [sys_translate_aarray] from index [i]; [vas i] is what the user
    has at entry [i] of the array.  The counter is an [int]: [count] is below 2^31. *)
Fixpoint translate (n : nat) (me aarray pmo i : Z) (vas : Z → Z) : MK unit :=
  match n with
  | O => ret tt
  | S n' =>
      va <- copy_from_user (u64 (aarray + 8 * i)) (vas i) ;;
      r <- query me va ;;
      match r with
      | inl _ => halt
      | inr pa => on_vm (VmRegion.commit_page_to_pmo pmo (u64 i) pa)
      end ;;
      translate n' me aarray pmo (i + 1) vas
  end.

(** [cap0] is what the user has at [pmo_p]. *)
Definition sys_translate_aarray (me aarray aarray_size offset count pmo_p cap0 : Z) (vas : Z → Z) : MK Z :=
  if count =? 0 then ret 0
  else if aarray_size <? u64 (u64 (offset + count) * 8) then ret (- EINVAL)
  else
    pmo_cap <- copy_from_user pmo_p cap0 ;;
    pmo_cap <- (if pmo_cap =? 0 then c <- sys_create_pmo me aarray_size PMO_FILE ;; BUG_ON (c =? 0) ;; ret c else ret pmo_cap) ;;
    g <- current_cap_group me ;;
    pmo <- obj_get g pmo_cap TYPE_PMO ;;
    BUG_ON (pmo =? 0) ;;
    translate (Z.to_nat count) me aarray pmo offset vas ;;
    copy_to_user pmo_p (log (ToUser pmo_p [pmo_cap])) ;;
    obj_put pmo ;;
    ret 0.

(** ** Steps on the parts of the state *)

Abbreviation kstate := (Capability.kstate (A := A) (E := mstate)).
Definition put_vm (x : vstate B) (s : kstate) : kstate := Capability.with_ext (with_vm x (Capability.ext s)) s.
Definition put_log (c : copy) (s : kstate) : kstate := Capability.with_ext (logged c (Capability.ext s)) s.

Lemma on_vm_Done {X} (m : M (vstate B) X) s a x : m (vm (Capability.ext s)) = Done a x → on_vm m s = Done a (put_vm x s).
Proof. intros E. unfold on_vm, on_ext, zoom. by rewrite E. Qed.

Lemma on_vm_Halt {X} (m : M (vstate B) X) (s : kstate) : m (vm (Capability.ext s)) = Halt → on_vm m s = Halt.
Proof. intros E. unfold on_vm, on_ext, zoom. by rewrite E. Qed.

Lemma put_vm_id (s : kstate) : put_vm (vm (Capability.ext s)) s = s.
Proof. by destruct s as [? ? ? ? [? ? ? ? ?]]. Qed.

Lemma on_vm_read {X} (m : M (vstate B) X) s a : m (vm (Capability.ext s)) = Done a (vm (Capability.ext s)) → on_vm m s = Done a s.
Proof. intros E. rewrite (on_vm_Done _ _ _ _ E). by rewrite put_vm_id. Qed.

(** The current thread of CPU [me] is of group [g]. *)
Definition in_group (s : kstate) (me g : Z) : Prop :=
  ∃ r th, Sched.cpus (sch (Capability.ext s)) !! me = Some r ∧ Sched.threads (sch (Capability.ext s)) !! Sched.current r = Some th ∧
    Sched.cap_group th = g.

Lemma current_cap_group_ok s me g : in_group s me g → current_cap_group me s = Done g s.
Proof.
  intros (r & th & Hr & Ht & <-). unfold current_cap_group, current_thread. erewrite bind_Done; [reflexivity|].
  unfold on_sch, on_ext, zoom. erewrite bind_Done by (by apply Sched.current_thread_ok). rewrite (Sched.thread_at_ok _ _ _ Ht).
  by destruct s as [? ? ? ? [? ? ? ? ?]].
Qed.

Lemma pmo_of_ok s p o : VmRegion.pmos (vm (Capability.ext s)) !! p = Some o → pmo_of p s = Done o s.
Proof. intros Ho. apply on_vm_read. by apply VmRegion.pmo_at_ok. Qed.

(** ** Mapping *)

(** What [vmspace_map_range] does in the address space [sp], as seen from a
    system call that fails with [e]; [s'] is the state after the call. *)
Definition map_effect (sp : Z) (own : gmap Z (Z * Z)) (D : gset Z) (x : vstate B) (V : VmRegion.vmspace) (n : VmRegion.vmregion)
    (o : VmRegion.pmobject) (e : Z) (r : Z) (x' : vstate B) : Prop :=
  (r = e ∧ VmRegion.space_ok false sp own D x' V ∧ VmRegion.vmrs x' = VmRegion.vmrs x) ∨
  (r = 0 ∧ ∃ own' D' q, (q ∉ VmRegion.vmr_list V) ∧ VmRegion.vmrs x' = <[q := n]> (VmRegion.vmrs x) ∧
    VmRegion.space_ok false sp own' D' x' (VmRegion.with_list (q :: VmRegion.vmr_list V) V) ∧
    if (VmRegion.p_type o =? PMO_DATA) || (VmRegion.p_type o =? PMO_DEVICE)
    then PageTable.mapped (VmRegion.start n / PAGE_SIZE) (PageTable.total_page_cnt (VmRegion.p_size o)) (VmRegion.p_start o) (VmRegion.perm n)
           (PageTable.pte_is own (VmRegion.pt x)) (PageTable.pte_is own' (VmRegion.pt x'))
    else ∀ w e, PageTable.pte_is own' (VmRegion.pt x') w e ↔ PageTable.pte_is own (VmRegion.pt x) w e).

Lemma map_effect_spec sp own D x V va len flags p o n : VmRegion.space_ok false sp own D x V → VmRegion.SIZEOF_VMREGION ≤ max_size →
  VmRegion.pmos x !! p = Some o → n = VmRegion.new_region va len flags p o → VmRegion.region_ok n →
  0 ≤ VmRegion.p_size o ≤ VmRegion.size n → 0 ≤ VmRegion.p_start o → VmRegion.p_start o + VmRegion.p_size o + PAGE_SIZE ≤ 2 ^ 48 →
  VmRegion.vmspace_map_range sp va len flags p x = Halt ∨
  ∃ r x', VmRegion.vmspace_map_range sp va len flags p x = Done r x' ∧ map_effect sp own D x V n o (- VmRegion.ENOMEM) r x'.
Proof.
  intros S HM Ho En Rn H1 H2 H3.
  destruct (VmRegion.vm_map_spec sp own D x V va len flags p o n S HM Ho En Rn H1 H2 H3)
    as [E|[(x' & E & HE)|(x' & own' & D' & q & E & HE)]]; [by left|right..]; eexists _, x'; (split; [exact E|]); [by left|right].
  split; [done|]. by exists own', D', q.
Qed.

(** The mapping is that of [vmspace_map_range], with every error as [-EPERM]. *)
Lemma map_pmo_run s me g pmo_cap addr perm pmo sp o :
  in_group s me g → Capability.caps_fine 2 s → Capability.has_cap s g (s32 pmo_cap) TYPE_PMO pmo →
  Capability.has_cap s g VMSPACE_OBJ_ID TYPE_VMSPACE sp → VmRegion.pmos (vm (Capability.ext s)) !! pmo = Some o →
  match VmRegion.vmspace_map_range sp addr (VmRegion.p_size o) perm pmo (vm (Capability.ext s)) with
  | Done r x => map_pmo_in_current_cap_group me pmo_cap addr perm s = Done (if r =? 0 then 0 else - EPERM) (put_vm x s)
  | Halt => map_pmo_in_current_cap_group me pmo_cap addr perm s = Halt
  | _ => True
  end.
Proof.
  intros Hg Hf Hp Hv Ho.
  destruct (Capability.obj_get_cap 2 s g (s32 pmo_cap) TYPE_PMO pmo Hf) as (s1 & E1 & F1 & X1 & C1 & P1 & _); [lia|done|].
  destruct (Capability.obj_get_cap (2 - 1) s1 g VMSPACE_OBJ_ID TYPE_VMSPACE sp F1) as (s2 & E2 & _ & X2 & _ & P2 & _); [lia|by apply C1|].
  rewrite X1 in X2. unfold map_pmo_in_current_cap_group. erewrite bind_Done by (by apply current_cap_group_ok).
  erewrite bind_Done by exact E1. rewrite (proj2 (Z.eqb_neq pmo 0)) by (exact (Capability.has_cap_nonzero _ s _ _ _ _ Hf Hp)).
  erewrite bind_Done by exact E2. rewrite (proj2 (Z.eqb_neq sp 0)) by (exact (Capability.has_cap_nonzero _ s _ _ _ _ Hf Hv)).
  erewrite bind_Done by reflexivity. erewrite bind_Done by (apply pmo_of_ok; by rewrite X2).
  destruct (VmRegion.vmspace_map_range _ _ _ _ _ _) as [r x| | | |] eqn:E; try done.
  - erewrite bind_Done by (apply on_vm_Done; rewrite X2; exact E). unfold put_vm at 1. rewrite X2.
    erewrite bind_Done by apply P2. by erewrite bind_Done by apply P1.
  - apply bind_Halt, on_vm_Halt. by rewrite X2.
Qed.

Lemma map_pmo_spec s me g pmo_cap addr perm pmo sp own D V o n :
  in_group s me g → Capability.caps_fine 2 s → Capability.has_cap s g (s32 pmo_cap) TYPE_PMO pmo →
  Capability.has_cap s g VMSPACE_OBJ_ID TYPE_VMSPACE sp →
  VmRegion.space_ok false sp own D (vm (Capability.ext s)) V → VmRegion.SIZEOF_VMREGION ≤ max_size (S := B) →
  VmRegion.pmos (vm (Capability.ext s)) !! pmo = Some o → n = VmRegion.new_region addr (VmRegion.p_size o) perm pmo o → VmRegion.region_ok n →
  0 ≤ VmRegion.p_size o ≤ VmRegion.size n → 0 ≤ VmRegion.p_start o → VmRegion.p_start o + VmRegion.p_size o + PAGE_SIZE ≤ 2 ^ 48 →
  map_pmo_in_current_cap_group me pmo_cap addr perm s = Halt ∨
  ∃ r x, map_pmo_in_current_cap_group me pmo_cap addr perm s = Done r (put_vm x s) ∧
    map_effect sp own D (vm (Capability.ext s)) V n o (- EPERM) r x.
Proof.
  intros Hg Hf Hp Hv S HM Ho En Rn H1 H2 H3. pose proof (map_pmo_run s me g pmo_cap addr perm pmo sp o Hg Hf Hp Hv Ho) as Hm.
  destruct (map_effect_spec sp own D _ V addr (VmRegion.p_size o) perm pmo o n S HM Ho En Rn H1 H2 H3) as [E|(r & x & E & HE)];
    rewrite E in Hm; [by left|right]. exists (if r =? 0 then 0 else - EPERM), x. split; [exact Hm|].
  destruct HE as [[-> HE]|[-> HE]]; [by left|by right].
Qed.

(** C5: mapping a memory object in the address space of the caller.  It panics
    (when the object cannot be mapped, the region overlaps another one, or the
    page tables cannot grow), or fails with [-EPERM] and adds nothing, or adds one
    region for the object to the address space of the caller's group, which stays
    well formed; whatever it returns, no capability and no reference count has
    changed. *)
Theorem map_pmo_ok s me g pmo_cap addr perm pmo sp own D V o n :
  in_group s me g → Capability.caps_fine 2 s → Capability.has_cap s g (s32 pmo_cap) TYPE_PMO pmo →
  Capability.has_cap s g VMSPACE_OBJ_ID TYPE_VMSPACE sp →
  VmRegion.space_ok false sp own D (vm (Capability.ext s)) V → VmRegion.SIZEOF_VMREGION ≤ max_size (S := B) →
  VmRegion.pmos (vm (Capability.ext s)) !! pmo = Some o → n = VmRegion.new_region addr (VmRegion.p_size o) perm pmo o → VmRegion.region_ok n →
  0 ≤ VmRegion.p_size o ≤ VmRegion.size n → 0 ≤ VmRegion.p_start o → VmRegion.p_start o + VmRegion.p_size o + PAGE_SIZE ≤ 2 ^ 48 →
  map_pmo_in_current_cap_group me pmo_cap addr perm s = Halt ∨
  ∃ r x, map_pmo_in_current_cap_group me pmo_cap addr perm s = Done r (put_vm x s) ∧
    map_effect sp own D (vm (Capability.ext s)) V n o (- EPERM) r x.
Proof. apply map_pmo_spec. Qed.

(** ** Reading and writing memory objects *)

(** The copy of [size] bytes at [offset] of a data object at [start]. *)
Definition data_copy (op_type start offset user_buf size : Z) : copy := Bytes op_type (KBASE + start + offset) user_buf size.

Lemma data_kva start offset size total : 0 ≤ start → 0 ≤ offset → 0 ≤ size → offset + size ≤ total → KBASE + start + total ≤ 2 ^ 64 → 0 < size →
  u64 (phys_to_virt start + offset) = KBASE + start + offset.
Proof.
  intros. unfold phys_to_virt, KBASE in *. rewrite (u64_id (start + _)) by (unfold is_u64; lia). rewrite u64_id by (unfold is_u64; lia). lia.
Qed.

(** [offset + size] as the program computes it is too large, or has wrapped
    around, exactly when the sum is too large. *)
Lemma bounds_test offset size total : is_u64 offset → is_u64 size → is_u64 total →
  (u64 (offset + size) <? offset) || (total <? u64 (offset + size)) = (total <? offset + size).
Proof.
  unfold is_u64, u64. intros Ho Hs Ht. assert (0 ≤ offset + size < 2 * 2 ^ 64) as Hr by lia.
  destruct (Z.lt_ge_cases (offset + size) (2 ^ 64)) as [L|L].
  - rewrite Z.mod_small by lia. rewrite (proj2 (Z.ltb_ge (offset + size) offset)) by lia. done.
  - rewrite (proj2 (Z.ltb_lt total (offset + size))) by lia. apply orb_true_iff. left. apply Z.ltb_lt.
    rewrite (Z.mod_eq (offset + size)) by lia. assert ((offset + size) / 2 ^ 64 = 1) as -> by (symmetry; apply (Z.div_unique _ _ 1 (offset + size - 2 ^ 64)); lia).
    lia.
Qed.

(** C7: reading or writing a data object.  A range that is not in the object, also
    one whose end wraps around, is refused with [-EINVAL] and nothing is copied.
    Otherwise exactly the bytes of the range are copied between the object, at its
    kernel address, and the user's buffer; the reference to the object is given
    back. *)
Theorem read_write_data_ok s me g pmo_cap offset user_buf size op_type pmo o :
  in_group s me g → Capability.caps_fine 1 s → Capability.has_cap s g (s32 pmo_cap) TYPE_PMO pmo →
  VmRegion.pmos (vm (Capability.ext s)) !! pmo = Some o → VmRegion.p_type o = PMO_DATA → is_u64 offset → is_u64 size → 0 < size →
  is_u64 (VmRegion.p_size o) → 0 ≤ VmRegion.p_start o → KBASE + VmRegion.p_start o + VmRegion.p_size o ≤ 2 ^ 64 → user_buf < KBASE →
  op_type = READ ∨ op_type = WRITE →
  read_write_pmo me pmo_cap offset user_buf size op_type s =
    if VmRegion.p_size o <? offset + size then Done (- EINVAL) s
    else Done 0 (put_log (data_copy op_type (VmRegion.p_start o) offset user_buf size) s).
Proof.
  intros Hg Hf Hp Ho Ht Iof Is Sp It H0 Hk Hu Hop.
  destruct (Capability.obj_get_cap 1 s g (s32 pmo_cap) TYPE_PMO pmo Hf) as (s1 & E1 & _ & X1 & _ & P1 & _); [lia|done|].
  unfold read_write_pmo. erewrite bind_Done by (by apply current_cap_group_ok). erewrite bind_Done by exact E1.
  rewrite (proj2 (Z.eqb_neq pmo 0)) by (exact (Capability.has_cap_nonzero _ s _ _ _ _ Hf Hp)).
  erewrite bind_Done by (apply pmo_of_ok; by rewrite X1). rewrite Ht. cbn [negb andb Z.eqb Pos.eqb PMO_DATA]. rewrite bounds_test by done.
  pose proof (P1 (Capability.ext s1)) as P1'. rewrite Capability.with_ext_id, X1, Capability.with_ext_id in P1'.
  destruct (Z.ltb_spec (VmRegion.p_size o) (offset + size)) as [L|L]; [by erewrite bind_Done by exact P1'|].
  erewrite bind_Done by reflexivity. rewrite (data_kva _ _ size (VmRegion.p_size o)) by (unfold is_u64 in *; lia).
  assert (∀ c, obj_put pmo (put_log c s1) = Done tt (put_log c s)) as P by (intros c; unfold put_log; by rewrite P1, X1).
  destruct Hop as [-> | ->]; cbn [Z.eqb Pos.eqb READ WRITE].
  - erewrite bind_Done; [by erewrite bind_Done by apply P|]. erewrite bind_Done; [reflexivity|]. unfold copy_to_user.
    by rewrite (proj2 (Z.leb_gt KBASE user_buf)) by done.
  - erewrite bind_Done; [by erewrite bind_Done by apply P|]. by erewrite bind_Done by (by apply copy_from_user_ok).
Qed.

(** ** Changing permissions *)


Definition with_perm (t : Z) (v : VmRegion.vmregion) : VmRegion.vmregion := VmRegion.mk_vmr (VmRegion.start v) (VmRegion.size v) t (VmRegion.pmo v).
Definition reperm (t q : Z) (x : vstate B) : vstate B := VmRegion.with_vmrs (alter (with_perm t) q) x.

(** The loops, started with [rem] bytes to go at [va], visit the regions [qs]. *)
Fixpoint visits (x : vstate B) (l : list Z) (va rem : Z) (qs : list Z) : Prop :=
  match qs with
  | [] => rem = 0
  | q :: qs' => q ∈ l ∧ ∃ v, VmRegion.vmrs x !! q = Some v ∧ VmRegion.inside v va ∧ VmRegion.size v ≤ rem ∧
      visits x l (va + VmRegion.size v) (rem - VmRegion.size v) qs'
  end.

Definition allowed (x : vstate B) (t q : Z) : Prop := ∃ v, VmRegion.vmrs x !! q = Some v ∧ valid_prot (VmRegion.perm v) t = 0.

(** An address of the range that is in no region with the permissions. *)
Definition refused (x : vstate B) (l : list Z) (va rem t : Z) : Prop :=
  ∃ a, va ≤ a < va + rem ∧ ∀ q v, q ∈ l → VmRegion.vmrs x !! q = Some v → VmRegion.inside v a → valid_prot (VmRegion.perm v) t ≠ 0.

(** A region that the range ends in. *)
Definition ends_inside (x : vstate B) (l : list Z) (va rem : Z) : Prop :=
  ∃ a q v, va ≤ a < va + rem ∧ q ∈ l ∧ VmRegion.vmrs x !! q = Some v ∧ VmRegion.inside v a ∧ va + rem - a < VmRegion.size v.

Lemma check_range_spec b sp own D x V t : VmRegion.space_ok b sp own D x V → ∀ fuel va rem l, 0 ≤ va → 0 ≤ rem < 2 ^ 63 →
  (∀ q v, q ∈ VmRegion.vmr_list V → VmRegion.vmrs x !! q = Some v → va < VmRegion.start v + VmRegion.size v → q ∈ l) → (length l < fuel)%nat →
  ∃ c, check_range fuel sp va rem t x = Done c x ∧
  match c with
  | NoAccess => refused x (VmRegion.vmr_list V) va rem t
  | PartOfRegion => ends_inside x (VmRegion.vmr_list V) va rem
  | Covered r => r = 0 ∧ ∃ qs, visits x (VmRegion.vmr_list V) va rem qs ∧ Forall (allowed x t) qs ∧ (length qs ≤ length l)%nat
  end.
Proof.
  intros S. induction fuel as [|fuel IH]; intros va rem l Hva Hrem Hl Hf; [lia|]. cbn [check_range].
  destruct (Z.leb_spec rem 0) as [L|L].
  { exists (Covered rem). split; [done|]. split; [lia|]. exists []. split; [simpl; lia|]. split; [constructor|simpl; lia]. }
  destruct (VmRegion.find_vmr_spec b sp own D x V va S (VmRegion.zero_not_owned _ _ _ _ _ _ S)) as (p & E & [[-> HN]|(Np & Hp & v & Hv & Iv)]);
    erewrite bind_Done by exact E.
  { exists NoAccess. split; [done|]. exists va. split; [lia|]. intros q v Hq Hv Iv. by destruct (HN q v Hq Hv). }
  rewrite (proj2 (Z.eqb_neq p 0)) by done. erewrite bind_Done by (by apply VmRegion.vmr_at_ok).
  destruct (VmRegion.rg_region _ _ _ (VmRegion.sk_regions _ _ _ _ _ _ S) p Hp) as (_ & v' & Hv' & R). rewrite Hv in Hv'. injection Hv' as <-.
  destruct R as (_ & _ & R1 & R2 & R3). pose proof Iv as [I1 I2].
  destruct (Z.eqb_spec (valid_prot (VmRegion.perm v) t) 0) as [Ev|Nv]; cbn [negb].
  2: { exists NoAccess. split; [done|]. exists va. split; [lia|]. intros q w Hq Hw Iw.
    assert (q = p) as -> by (by apply (VmRegion.rg_apart _ _ _ (VmRegion.sk_regions _ _ _ _ _ _ S) q p w v va)). congruence. }
  destruct (Z.ltb_spec rem (VmRegion.size v)) as [Ls|Ls].
  { exists PartOfRegion. split; [done|]. exists va, p, v. split_and!; try done; lia. }
  rewrite s64_id, u64_id by (unfold is_u64; lia).
  destruct (IH (va + VmRegion.size v) (rem - VmRegion.size v) (filter (λ q, q ≠ p) l)) as (c & Ec & Hc); [lia|lia| | |].
  { intros q w Hq Hw Hlt. apply list_elem_of_filter. split; [|apply (Hl q w Hq Hw); lia]. intros ->. rewrite Hv in Hw. injection Hw as <-. lia. }
  { assert (length (filter (λ q, q ≠ p) l) < length l)%nat; [|lia]. apply (length_filter_lt _ l p); [|intros Hx; by apply Hx]. apply (Hl p v Hp Hv). lia. }
  exists c. split; [exact Ec|]. destruct c as [| |r].
  - destruct Hc as (a & Ha & H0). exists a. split; [lia|done].
  - destruct Hc as (a & q & w & Ha & Hq & Hw & Iw & Hlt). exists a, q, w. split_and!; try done; lia.
  - destruct Hc as (-> & qs & HC & HA & Hlen). split; [done|]. exists (p :: qs). split; [|split].
    + split; [done|]. by exists v.
    + constructor; [by exists v|done].
    + assert (length (filter (λ q, q ≠ p) l) < length l)%nat; [|simpl; lia]. apply (length_filter_lt _ l p); [|intros Hx; by apply Hx]. apply (Hl p v Hp Hv). lia.
Qed.

Lemma reperm_lookup t q x p v : VmRegion.vmrs (reperm t q x) !! p = Some v → ∃ w, VmRegion.vmrs x !! p = Some w ∧
  VmRegion.start v = VmRegion.start w ∧ VmRegion.size v = VmRegion.size w.
Proof.
  simpl. destruct (decide (q = p)) as [->|N]; [rewrite lookup_alter_eq|rewrite lookup_alter_ne by done; by exists v].
  destruct (VmRegion.vmrs x !! p) as [w|]; [|done]. intros [= <-]. by exists w.
Qed.

Lemma reperm_region t q x p w : VmRegion.vmrs x !! p = Some w → ∃ v, VmRegion.vmrs (reperm t q x) !! p = Some v ∧
  VmRegion.start v = VmRegion.start w ∧ VmRegion.size v = VmRegion.size w.
Proof.
  intros Hw. simpl. destruct (decide (q = p)) as [->|N]; [rewrite lookup_alter_eq, Hw; by eexists|].
  rewrite lookup_alter_ne by done. by exists w.
Qed.

Lemma reperm_ok b sp own D x V t q : VmRegion.space_ok b sp own D x V → VmRegion.space_ok b sp own D (reperm t q x) V.
Proof.
  intros [S1 S2 [R1 R2 R3] S4]. split; [done|done| |done]. split; [done|..].
  - intros p Hp. destruct (R2 p Hp) as (Dp & w & Hw & Rw). split; [done|]. destruct (reperm_region t q x p w Hw) as (v & Hv & E1 & E2).
    exists v. split; [done|]. unfold VmRegion.region_ok. by rewrite E1, E2.
  - intros p p' v v' a Hp Hp' (w & Hw & E1 & E2)%reperm_lookup (w' & Hw' & E3 & E4)%reperm_lookup. unfold VmRegion.inside.
    rewrite E1, E2, E3, E4. by apply R3.
Qed.

Lemma visits_reperm x l t q qs : ∀ va rem, visits x l va rem qs → visits (reperm t q x) l va rem qs.
Proof.
  induction qs as [|p qs IH]; intros va rem; [done|]. intros [Hp (w & Hw & Iw & Hs & HV)]. split; [done|].
  destruct (reperm_region t q x p w Hw) as (v & Hv & E1 & E2). exists v. unfold VmRegion.inside in *. rewrite E1, E2.
  split; [done|]. split; [done|]. split; [done|]. by apply IH.
Qed.

Lemma change_range_spec b sp own D V t qs : ∀ x fuel va rem, VmRegion.space_ok b sp own D x V → 0 ≤ va → 0 ≤ rem < 2 ^ 63 →
  visits x (VmRegion.vmr_list V) va rem qs → (length qs < fuel)%nat →
  change_range fuel sp va rem t x = Done tt (foldl (λ y q, reperm t q y) x qs).
Proof.
  induction qs as [|q qs IH]; intros x fuel va rem S Hva Hrem HV Hf; (destruct fuel as [|fuel]; [simpl in Hf; lia|]); cbn [change_range].
  { simpl in HV. by rewrite (proj2 (Z.leb_le rem 0)) by lia. }
  destruct HV as [Hq (v & Hv & Iv & Hs & HV)]. pose proof Iv as [I1 I2]. rewrite (proj2 (Z.leb_gt rem 0)) by lia.
  destruct (VmRegion.rg_region _ _ _ (VmRegion.sk_regions _ _ _ _ _ _ S) q Hq) as (_ & v' & Hv' & (_ & _ & R1 & R2 & R3)).
  rewrite Hv in Hv'. injection Hv' as <-.
  destruct (VmRegion.find_vmr_spec b sp own D x V va S (VmRegion.zero_not_owned _ _ _ _ _ _ S)) as (p & E & [[-> HN]|(Np & Hp & w & Hw & Iw)]);
    [by destruct (HN q v Hq Hv)|].
  assert (p = q) as -> by (by apply (VmRegion.rg_apart _ _ _ (VmRegion.sk_regions _ _ _ _ _ _ S) p q w v va)).
  clear w Hw Iw. erewrite bind_Done by exact E. erewrite bind_Done by (by apply VmRegion.vmr_at_ok). rewrite s64_id, u64_id by (unfold is_u64; lia).
  erewrite bind_Done. 2: { unfold VmRegion.set_vmr, modify. fold (with_perm t v). unfold VmRegion.with_vmrs.
    rewrite (Sched.insert_alter _ _ _ (with_perm t) Hv). fold (VmRegion.with_vmrs (alter (with_perm t) q) x). reflexivity. }
  rewrite (IH (reperm t q x)); [done|by apply reperm_ok|lia|lia|by apply visits_reperm|simpl in Hf; lia].
Qed.

(** Starting at the start of a region, the visited regions are the range. *)
Definition at_start (x : vstate B) (l : list Z) (va : Z) : Prop :=
  ∀ q v, q ∈ l → VmRegion.vmrs x !! q = Some v → VmRegion.inside v va → VmRegion.start v = va.

Lemma visits_tile b sp own D x V qs : VmRegion.space_ok b sp own D x V → ∀ va rem, visits x (VmRegion.vmr_list V) va rem qs →
  at_start x (VmRegion.vmr_list V) va → NoDup qs ∧ qs ⊆ VmRegion.vmr_list V ∧
  ∀ a, va ≤ a < va + rem ↔ ∃ q v, q ∈ qs ∧ VmRegion.vmrs x !! q = Some v ∧ VmRegion.inside v a.
Proof.
  intros S. induction qs as [|q qs IH]; intros va rem HV HS.
  { simpl in HV. subst rem. split; [constructor|]. split; [by intros ? ?%not_elem_of_nil|]. intros a. split; [lia|]. by intros (? & ? & ?%not_elem_of_nil & _). }
  destruct HV as [Hq (v & Hv & Iv & Hs & HV)]. pose proof (HS q v Hq Hv Iv) as Es. pose proof Iv as [I1 I2].
  destruct (IH (va + VmRegion.size v) (rem - VmRegion.size v) HV) as (N1 & N2 & N3).
  { intros p w Hp Hw Iw. pose proof Iw as [J1 J2]. destruct (Z.eq_dec (VmRegion.start w) (va + VmRegion.size v)) as [|Nw]; [done|exfalso].
    assert (p = q) as ->; [|rewrite Hv in Hw; injection Hw as <-; lia].
    apply (VmRegion.rg_apart _ _ _ (VmRegion.sk_regions _ _ _ _ _ _ S) p q w v (va + VmRegion.size v - 1)); try done; unfold VmRegion.inside; lia. }
  split_and!.
  - constructor; [|done]. intros Hin. assert (va + VmRegion.size v ≤ va < va + VmRegion.size v + (rem - VmRegion.size v)) as ?; [|lia].
    apply N3. by exists q, v.
  - intros p [->|Hp]%elem_of_cons; [done|by apply N2].
  - intros a. split.
    + intros Ha. destruct (Z.lt_ge_cases a (va + VmRegion.size v)) as [L|L].
      * exists q, v. split; [by left|]. split; [done|]. unfold VmRegion.inside. lia.
      * destruct (proj1 (N3 a)) as (p & w & Hp & Hw & Iw); [lia|]. exists p, w. split; [by right|done].
    + intros (p & w & [->|Hp]%elem_of_cons & Hw & Iw); [rewrite Hv in Hw; injection Hw as <-; unfold VmRegion.inside in Iw; lia|].
      assert (va + VmRegion.size v ≤ a < va + VmRegion.size v + (rem - VmRegion.size v)) as ?; [|lia]. apply N3. by exists p, w.
Qed.

Lemma reperms_lookup t qs : ∀ x, NoDup qs → ∀ q, VmRegion.vmrs (foldl (λ y q, reperm t q y) x qs) !! q =
  (if bool_decide (q ∈ qs) then with_perm t <$> VmRegion.vmrs x !! q else VmRegion.vmrs x !! q).
Proof.
  induction qs as [|p qs IH]; intros x HN q; [by rewrite bool_decide_eq_false_2 by (by intros ?%not_elem_of_nil)|].
  apply NoDup_cons in HN as [Np HN]. cbn [foldl]. rewrite IH by done. simpl. destruct (decide (q = p)) as [->|Nq].
  - rewrite bool_decide_eq_false_2 by done. rewrite bool_decide_eq_true_2 by (by left). by rewrite lookup_alter_eq.
  - rewrite lookup_alter_ne by done. erewrite (bool_decide_ext (q ∈ p :: qs) (q ∈ qs)); [done|].
    split; [intros [Eq|Hq]%elem_of_cons; [by destruct (Nq Eq)|exact Hq]|intros Hq; by right].
Qed.

Lemma reperms_ok b sp own D V t qs : ∀ x, VmRegion.space_ok b sp own D x V → VmRegion.space_ok b sp own D (foldl (λ y q, reperm t q y) x qs) V ∧
  VmRegion.pt (foldl (λ y q, reperm t q y) x qs) = VmRegion.pt x.
Proof.
  induction qs as [|q qs IH]; intros x S; [done|]. cbn [foldl]. destruct (IH (reperm t q x)) as [S' E]; [by apply reperm_ok|]. done.
Qed.

(** The visited regions get the permissions [t], and so do their pages. *)
Definition protected (own : gmap Z (Z * Z)) (x : vstate B) (addr len t : Z) (qs : list Z) (x' : vstate B) : Prop :=
  (∀ a, addr ≤ a < addr + len ↔ ∃ q v, q ∈ qs ∧ VmRegion.vmrs x !! q = Some v ∧ VmRegion.inside v a) ∧
  Forall (allowed x t) qs ∧
  (∀ q, VmRegion.vmrs x' !! q = if bool_decide (q ∈ qs) then with_perm t <$> VmRegion.vmrs x !! q else VmRegion.vmrs x !! q) ∧
  (∀ w e, PageTable.pte_is own (VmRegion.pt x) w e → ∃ e', PageTable.pte_is own (VmRegion.pt x') w e' ∧
     PageTable.GET_PADDR_IN_PTE e' = PageTable.GET_PADDR_IN_PTE e ∧
     (e' = e ∨ (addr / PAGE_SIZE ≤ w < addr / PAGE_SIZE + PageTable.total_page_cnt len ∧ e' = PageTable.flags_set t e))) ∧
  ∀ w e', PageTable.pte_is own (VmRegion.pt x') w e' → ∃ e, PageTable.pte_is own (VmRegion.pt x) w e.

Lemma pages_fit addr len : 0 ≤ addr → addr mod PAGE_SIZE = 0 → 0 ≤ len → len mod PAGE_SIZE = 0 → addr + len ≤ 2 ^ 48 →
  addr / PAGE_SIZE + PageTable.total_page_cnt len ≤ PageTable.VPAGES.
Proof.
  intros Ha Ma Hl Ml Hs. unfold PageTable.total_page_cnt. rewrite Ml. cbn [Z.ltb Z.compare]. unfold PageTable.VPAGES.
  pose proof (Z.div_mod addr PAGE_SIZE ltac:(done)). pose proof (Z.div_mod len PAGE_SIZE ltac:(done)). unfold PAGE_SIZE in *. lia.
Qed.

Lemma mprotect_regions_spec sp own D x V addr len t : VmRegion.space_ok true sp own D x V → 0 ≤ addr → addr mod PAGE_SIZE = 0 →
  0 < len < 2 ^ 63 → len mod PAGE_SIZE = 0 → at_start x (VmRegion.vmr_list V) addr →
  ∃ r x', mprotect_regions sp addr len t x = Done r x' ∧ VmRegion.space_ok true sp own D x' V ∧
  ((r = - EACCES ∧ x' = x ∧ refused x (VmRegion.vmr_list V) addr len t) ∨
   (r = 0 ∧ x' = x ∧ ends_inside x (VmRegion.vmr_list V) addr len) ∨
   (r = 0 ∧ ∃ qs, protected own x addr len t qs x')).
Proof.
  intros S Ha Ma Hl Ml HS. unfold mprotect_regions. erewrite bind_Done by (apply VmRegion.vmspace_at_ok, S). rewrite s64_id by lia.
  destruct (check_range_spec true sp own D x V t S (Datatypes.S (length (VmRegion.vmr_list V))) addr len (VmRegion.vmr_list V)) as (c & Ec & Hc);
    [lia|lia|done|lia|]. erewrite bind_Done by exact Ec. destruct c as [| |r].
  { exists (- EACCES), x. split; [done|]. split; [done|]. by left. }
  { exists 0, x. split; [done|]. split; [done|]. right. by left. }
  destruct Hc as (-> & qs & HV & HA & Hlen). destruct (visits_tile true sp own D x V qs S addr len HV HS) as (ND & Sub & HT).
  cbn [Z.eqb negb]. erewrite bind_Done by reflexivity.
  erewrite bind_Done by (eapply change_range_spec; [exact S|lia|lia|exact HV|lia]).
  destruct (reperms_ok true sp own D V t qs x S) as [S1 E1]. pose proof (reperms_lookup t qs x ND) as HL. set (y := foldl _ x qs) in S1, E1, HL |- *.
  destruct (PageTable.mprotect_ok (VmRegion.pgtbl V) own D (VmRegion.pt y) addr len t) as (p & Ep & Pp & _ & Hp & Hq & _);
    [apply S1|lia|lia| |].
  { apply pages_fit; try lia. destruct (proj1 (HT (addr + len - 1))) as (q & v & Hq & Hv & Iv); [lia|].
    destruct (VmRegion.rg_region _ _ _ (VmRegion.sk_regions _ _ _ _ _ _ S) q (Sub q Hq)) as (_ & w & Hw & (_ & _ & _ & _ & R)).
    rewrite Hv in Hw. injection Hw as <-. unfold VmRegion.inside in Iv. lia. }
  exists 0, (VmRegion.with_pt p y). split; [|split].
  - erewrite bind_Done; [reflexivity|]. unfold VmRegion.on_pt. by erewrite zoom_Done by exact Ep.
  - by eapply VmRegion.space_ok_pt.
  - right. right. split; [done|]. exists qs. rewrite E1 in Hp, Hq. by split_and!.
Qed.

(** The system call, around a body that keeps the address space: [obj_get], the
    lock, and their release. *)
Lemma mprotect_call s me g sp own D V addr len prot : in_group s me g → Capability.caps_fine 1 s →
  Capability.has_cap s g VMSPACE_OBJ_ID TYPE_VMSPACE sp → VmRegion.space_ok false sp own D (vm (Capability.ext s)) V →
  addr mod PAGE_SIZE = 0 → len mod PAGE_SIZE = 0 → len ≠ 0 →
  let x := VmRegion.with_spaces (<[sp := VmRegion.with_lock true V]>) (vm (Capability.ext s)) in
  VmRegion.space_ok true sp own D x (VmRegion.with_lock true V) ∧
  (mprotect_regions sp addr len (get_vmr_prot prot) x = Halt → sys_handle_mprotect me addr len prot s = Halt) ∧
  ∀ r x', mprotect_regions sp addr len (get_vmr_prot prot) x = Done r x' → VmRegion.space_ok true sp own D x' (VmRegion.with_lock true V) →
    ∃ y, sys_handle_mprotect me addr len prot s = Done r (put_vm y s) ∧ VmRegion.space_ok false sp own D y V ∧
    VmRegion.vmrs y = VmRegion.vmrs x' ∧ VmRegion.pt y = VmRegion.pt x'.
Proof.
  intros Hg Hf Hv S Ma Ml Nl x. pose proof (VmRegion.space_ok_upd _ true _ _ _ _ _ (VmRegion.with_lock true) S eq_refl eq_refl eq_refl) as Sl.
  destruct (Capability.obj_get_cap 1 s g VMSPACE_OBJ_ID TYPE_VMSPACE sp Hf) as (s1 & E1 & _ & X1 & _ & P1 & _); [lia|done|].
  assert (sys_handle_mprotect me addr len prot s =
    (r <- on_vm (mprotect_regions sp addr len (get_vmr_prot prot)) ;; obj_put sp ;; on_vm (VmRegion.unlock_space sp) ;; ret r) (put_vm x s1)) as HK.
  { unfold sys_handle_mprotect. rewrite Ma, Ml. cbn [negb orb Z.eqb]. rewrite (proj2 (Z.eqb_neq len 0)) by done. cbv zeta.
    erewrite bind_Done by (by apply current_cap_group_ok). erewrite bind_Done by exact E1.
    erewrite bind_Done by (apply on_vm_Done; rewrite X1; apply VmRegion.lock_space_ok; apply S). done. }
  split; [exact Sl|]. split.
  - intros E. rewrite HK. by apply bind_Halt, on_vm_Halt.
  - intros r x' E S'. exists (VmRegion.with_spaces (<[sp := VmRegion.with_lock false (VmRegion.with_lock true V)]>) x'). split; [|split; [|done]].
    + rewrite HK. erewrite bind_Done by (apply on_vm_Done; exact E). erewrite bind_Done by apply P1.
      erewrite bind_Done by (apply on_vm_Done, VmRegion.upd_space_ok, S'). unfold put_vm. simpl. by rewrite X1.
    + pose proof (VmRegion.space_ok_upd _ false _ _ _ _ _ (VmRegion.with_lock false) S' eq_refl eq_refl eq_refl) as H1.
      assert (VmRegion.with_lock false (VmRegion.with_lock true V) = V) as Ev by (pose proof (VmRegion.sk_lock _ _ _ _ _ _ S) as El; destruct V; simpl in *; by subst).
      by rewrite Ev in H1 |- *.
Qed.

(** C6: [mprotect] from the start of a region always returns, with the address
    space unlocked and well formed and the capabilities as before.  It fails with
    [-EACCES], changing nothing, when an address of the range is in no region that
    has the permissions; it does nothing when the range ends inside a region; and
    otherwise the regions that make up the range, and only they, get the
    permissions, and their pages stay where they are, with flags changed for pages
    of the range only. *)
Theorem mprotect_call_ok s me g sp own D V addr len prot : in_group s me g → Capability.caps_fine 1 s →
  Capability.has_cap s g VMSPACE_OBJ_ID TYPE_VMSPACE sp → VmRegion.space_ok false sp own D (vm (Capability.ext s)) V →
  0 ≤ addr → addr mod PAGE_SIZE = 0 → 0 < len < 2 ^ 63 → len mod PAGE_SIZE = 0 →
  at_start (vm (Capability.ext s)) (VmRegion.vmr_list V) addr →
  ∃ r y, sys_handle_mprotect me addr len prot s = Done r (put_vm y s) ∧ VmRegion.space_ok false sp own D y V ∧
  let x := vm (Capability.ext s) in
  let same := VmRegion.vmrs y = VmRegion.vmrs x ∧ VmRegion.pt y = VmRegion.pt x in
  ((r = - EACCES ∧ same ∧ refused x (VmRegion.vmr_list V) addr len (get_vmr_prot prot)) ∨
   (r = 0 ∧ same ∧ ends_inside x (VmRegion.vmr_list V) addr len) ∨
   (r = 0 ∧ ∃ qs, protected own x addr len (get_vmr_prot prot) qs y)).
Proof.
  intros Hg Hf Hv S Ha Ma Hl Ml HS. destruct (mprotect_call s me g sp own D V addr len prot Hg Hf Hv S Ma Ml) as (Sl & _ & HC); [lia|].
  destruct (mprotect_regions_spec sp own D _ _ addr len (get_vmr_prot prot) Sl Ha Ma Hl Ml HS) as (r & x' & E & S' & HR).
  destruct (HC r x' E S') as (y & Ey & Sy & E1 & E2). exists r, y. split; [exact Ey|]. split; [exact Sy|].
  destruct HR as [(-> & -> & HR)|[(-> & -> & HR)|(-> & qs & HR)]]; [left; by split_and!|right; left; by split_and!|].
  right. right. split; [done|]. exists qs. destruct HR as (H1 & H2 & H3 & H4 & H5). unfold protected. rewrite E1, E2. by split_and!.
Qed.

(** A length of 2^63 or more, which is negative as a [s64], stops the kernel. *)
Lemma mprotect_huge s me g sp own D V addr len prot : in_group s me g → Capability.caps_fine 1 s →
  Capability.has_cap s g VMSPACE_OBJ_ID TYPE_VMSPACE sp → VmRegion.space_ok false sp own D (vm (Capability.ext s)) V →
  addr mod PAGE_SIZE = 0 → 2 ^ 63 ≤ len < 2 ^ 64 → len mod PAGE_SIZE = 0 → sys_handle_mprotect me addr len prot s = Halt.
Proof.
  intros Hg Hf Hv S Ma Hl Ml. destruct (mprotect_call s me g sp own D V addr len prot Hg Hf Hv S Ma Ml) as (Sl & HH & _); [lia|].
  apply HH. unfold mprotect_regions. erewrite bind_Done by (apply VmRegion.vmspace_at_ok, Sl).
  assert (s64 len = len - 2 ^ 64) as E.
  { unfold s64. rewrite (Z.mod_eq (len + 2 ^ 63)) by lia.
    assert ((len + 2 ^ 63) / 2 ^ 64 = 1) as -> by (symmetry; apply (Z.div_unique _ _ 1 (len - 2 ^ 63)); lia). lia. }
  erewrite bind_Done by (cbn [check_range]; rewrite (proj2 (Z.leb_le (s64 len) 0)) by lia; reflexivity).
  cbv beta iota. by rewrite (proj2 (Z.eqb_neq (s64 len) 0)) by lia.
Qed.

End mem.

(** ** A small system

    CPU 0 runs thread 500 of the group of [Capability.Sample], whose capabilities
    are for a connection (0), the address space of [VmRegion.VMDemo] (1), a thread
    (2) and a data object of one page (3). *)
Module MDemo.

Definition ty (o : Z) : Z :=
  if o =? 2000 then Capability.TYPE_CONNECTION else if o =? 2200 then Capability.TYPE_VMSPACE
  else if o =? 2400 then Capability.TYPE_THREAD else Capability.TYPE_PMO.
Definition caps {E} (e : E) : Capability.kstate (A := Z) (E := E) := Capability.retype e (Capability.Sample.full tt ty).

Lemma demo_fine {E} (e : E) n : n ≤ 100 → Capability.caps_fine n (caps e).
Proof. intros Hn. apply Capability.retype_fine. eapply Capability.caps_fine_le; [apply Capability.Sample.full_fine|done]. Qed.

Lemma demo_cap {E} (e : E) i : 0 ≤ i < 4 →
  Capability.has_cap (caps e) 1048 i (ty (2000 + 200 * i)) (2048 + 200 * i).
Proof.
  intros Hi. apply Capability.retype_cap. pose proof (Capability.Sample.full_cap tt ty i Hi) as Hc.
  replace (2048 + 200 * i) with (Capability.opaque (Capability.Sample.object_addr i)); [exact Hc|].
  unfold Capability.opaque, Capability.Sample.object_addr, Capability.SIZEOF_OBJECT. lia.
Qed.

Definition user (st : Sched.thread_state) (k : Sched.thread_special_state) (regs : gmap Z Z) : Sched.thread_ctx :=
  Sched.mk_ctx regs 1000 2000 0 77 3000 2 Sched.TYPE_USER st 10 Sched.NO_AFF 0 k.
Definition sch0 : sstate Z Z := Sched.mk_sstate 1048576
  {[500 := Sched.mk_thread (Some (user Sched.TS_RUNNING Sched.KS_LOCKED {[Sched.X0 := 5]})) 0 100 1048;
    2448 := Sched.mk_thread (Some (user Sched.TS_WAITING Sched.KS_FREE {[Sched.ELR_EL1 := 4096; Sched.SP_EL0 := 8192]})) 0 2248 1048]}
  {[0 := Sched.mk_cpu 500 0 true true 7 44 100]} ∅ ∅.
Definition vm0 : vstate Z := VmRegion.VMDemo.vstate0 2248 {[2648 := VmRegion.VMDemo.o1]}.
Definition mem0 : mstate (H := Z) (B := Z) (K := Z) := mk_mstate sch0 vm0 [] 0 [].

Lemma demo_group : in_group (caps mem0) 0 1048.
Proof. eexists _, _. split; [reflexivity|]. split; reflexivity. Qed.

End MDemo.

Lemma map_pmo_ok_witness : ∃ r x, map_pmo_in_current_cap_group 0 3 131072 1 (MDemo.caps MDemo.mem0) = Done r (put_vm x (MDemo.caps MDemo.mem0)) ∧
  map_effect 2248 PageTable.PTDemo.own0 {[4096]} MDemo.vm0 VmRegion.VMDemo.V0 (VmRegion.mk_vmr 131072 4096 1 2648) VmRegion.VMDemo.o1 (- EPERM) r x.
Proof.
  destruct (map_pmo_ok (MDemo.caps MDemo.mem0) 0 1048 3 131072 1 2648 2248 PageTable.PTDemo.own0 {[4096]} VmRegion.VMDemo.V0 VmRegion.VMDemo.o1
    (VmRegion.mk_vmr 131072 4096 1 2648)) as [E|HE].
  - exact MDemo.demo_group.
  - apply MDemo.demo_fine. lia.
  - apply (MDemo.demo_cap MDemo.mem0 3). lia.
  - apply (MDemo.demo_cap MDemo.mem0 1). lia.
  - apply VmRegion.VMDemo.vstate0_ok.
  - vm_compute. discriminate.
  - reflexivity.
  - reflexivity.
  - vm_compute. repeat split; discriminate.
  - vm_compute. split; discriminate.
  - vm_compute. discriminate.
  - vm_compute. discriminate.
  - vm_compute in E. discriminate E.
  - exact HE.
Defined.

Lemma read_write_data_ok_witness : read_write_pmo 0 3 16 65536 32 READ (MDemo.caps MDemo.mem0) =
  Done 0 (put_log (Bytes READ (KBASE + 40976) 65536 32) (MDemo.caps MDemo.mem0)).
Proof.
  apply (read_write_data_ok (MDemo.caps MDemo.mem0) 0 1048 3 16 65536 32 READ 2648 VmRegion.VMDemo.o1).
  - exact MDemo.demo_group.
  - apply MDemo.demo_fine. lia.
  - apply (MDemo.demo_cap MDemo.mem0 3). lia.
  - reflexivity.
  - reflexivity.
  - vm_compute. split; [discriminate|reflexivity].
  - vm_compute. split; [discriminate|reflexivity].
  - reflexivity.
  - vm_compute. split; [discriminate|reflexivity].
  - vm_compute. discriminate.
  - vm_compute. discriminate.
  - reflexivity.
  - left. reflexivity.
Defined.

Lemma mprotect_call_ok_witness : ∃ r y, sys_handle_mprotect 0 65536 8192 2 (MDemo.caps MDemo.mem0) = Done r (put_vm y (MDemo.caps MDemo.mem0)) ∧
  VmRegion.space_ok false 2248 PageTable.PTDemo.own0 {[4096]} y VmRegion.VMDemo.V0.
Proof.
  destruct (mprotect_call_ok (MDemo.caps MDemo.mem0) 0 1048 2248 PageTable.PTDemo.own0 {[4096]} VmRegion.VMDemo.V0 65536 8192 2) as (r & y & E & S & _).
  - exact MDemo.demo_group.
  - apply MDemo.demo_fine. lia.
  - apply (MDemo.demo_cap MDemo.mem0 1). lia.
  - apply VmRegion.VMDemo.vstate0_ok.
  - lia.
  - reflexivity.
  - lia.
  - reflexivity.
  - intros q v ->%list_elem_of_singleton [= <-] _. reflexivity.
  - exists r, y. split; [exact E|exact S].
Defined.

(** ** Executions that show defects *)

(** [MDemo.mem0] with an anonymous object of two pages as capability 3. *)
Definition anon0 : mstate (H := Z) (B := Z) (K := Z) :=
  mk_mstate MDemo.sch0 (VmRegion.VMDemo.vstate0 2248 {[2648 := VmRegion.VMDemo.o0]}) [] 0 [].
Definition log_of {E} (f : E → list copy) {X} (r : outcome (Capability.kstate (A := Z) (E := E)) X) : option (list copy) :=
  match r with Done _ s => Some (f (Capability.ext s)) | _ => None end.

(** Reads of an anonymous object at 0 and at 100 copy from the same kernel address,
    the start of the page. *)
Example anonymous_offset_ignored :
  log_of copies (sys_read_pmo 0 3 100 65536 200 (MDemo.caps anon0)) = log_of copies (sys_read_pmo 0 3 0 65536 200 (MDemo.caps anon0)) ∧
  is_Some (log_of copies (sys_read_pmo 0 3 100 65536 200 (MDemo.caps anon0))).
Proof. split; [vm_compute; reflexivity|]. vm_compute. eexists. reflexivity. Qed.

(** A write of two pages goes to one page and the memory after it. *)
Example anonymous_overrun :
  log_of copies (sys_write_pmo 0 3 0 65536 8192 (MDemo.caps anon0)) = Some [Bytes WRITE (KBASE + 4096) 65536 8192].
Proof. vm_compute. reflexivity. Qed.

(** [mprotect] of two pages from the middle of a region of two pages changes the
    permissions of the whole region, whose first page is not in the range. *)
Example mprotect_middle :
  match sys_handle_mprotect 0 69632 8192 0 (MDemo.caps MDemo.mem0) with
  | Done r s => r = 0 ∧ VmRegion.vmrs (vm (Capability.ext s)) !! 4096 = Some (VmRegion.mk_vmr 65536 8192 0 7)
  | _ => False
  end.
Proof. vm_compute. split; reflexivity. Qed.

(** [brk] of an address before [brk(0)] dereferences NULL. *)
Example brk_first : sys_handle_brk Capability.Sample.no_oob 0 4096 (MDemo.caps MDemo.mem0) = Fault.
Proof. vm_compute. reflexivity. Qed.

End Memory.
