(* ===== verification/Exception.v ===== *)
(** * Exceptions (kernel/arch/aarch64/irq/irq_entry.c, pgfault.c)

    The dispatcher of synchronous exceptions and the page fault entry, over the
    scheduler (for the lazy FPU) and the page fault handler of VmRegion.v.  The
    syndrome register [esr] and the fault address [far] are arguments.  Returning
    from [handle_entry_c] resumes what was interrupted.  [handle_irq] is in Sched.v. *)

From S2P Require Import Prelude Allocator Radix PageTable VmRegion Sched Memory.

Module Exception.

Import Allocator.
Import Memory(mstate).
Import VmRegion(vstate).

(** Values of irq_entry.h and esr.h *)
Definition SYNC_EL1h : Z := 4.
Definition SYNC_EL0_64 : Z := 8.
Definition ESR_EL1_EC_WFI_WFE : Z := 0x01.
Definition ESR_EL1_EC_ENFP : Z := 0x07.
Definition ESR_EL1_EC_IABT_LEL : Z := 0x20.
Definition ESR_EL1_EC_DABT_LEL : Z := 0x24.
Definition ESR_EL1_EC_DABT_CEL : Z := 0x25.
Definition DFSC_TRANS_FAULT_L0 : Z := 0x04.
Definition DFSC_TRANS_FAULT_L3 : Z := 0x07.

Definition GET_ESR_EL1_EC (esr : Z) : Z := Z.land (Z.shiftr esr 26) 63.
Definition GET_ESR_EL1_FSC (esr : Z) : Z := Z.land esr 63.

Section entry.
Context {H B : Type} `{!Allocator H, !Allocator B, !PageAllocator B}.
Context {K : Type} `{!EqDecision K, !Countable K}.
Abbreviation mst := (mstate (H := H) (B := B) (K := K)).
Implicit Types s : mst.

Definition on_sch {X} (m : M (Sched.sstate H K) X) : M mst X := zoom Memory.sch Memory.with_sch m.
Definition on_vm {X} (m : M (vstate B) X) : M mst X := zoom Memory.vm Memory.with_vm m.

(** Translation faults of the levels 0 to 3 are served; all other fault codes, and
    an address without a region, stop the kernel. *)
Definition do_page_fault (me esr far : Z) : M mst unit :=
  let fsc := GET_ESR_EL1_FSC esr in
  if (DFSC_TRANS_FAULT_L0 <=? fsc) && (fsc <=? DFSC_TRANS_FAULT_L3) then
    t <- on_sch (Sched.current_thread me) ;;
    th <- on_sch (Sched.thread_at t) ;;
    r <- on_vm (VmRegion.handle_trans_fault (Sched.vmspace th) far) ;;
    BUG_ON (negb (r =? 0))
  else halt.

Definition handle_entry_c (me type esr far : Z) : M mst unit :=
  let esr_ec := GET_ESR_EL1_EC esr in
  BUG_ON ((type <? SYNC_EL0_64) && negb (esr_ec =? ESR_EL1_EC_DABT_CEL)) ;;
  if esr_ec =? ESR_EL1_EC_WFI_WFE then ret tt
  else if esr_ec =? ESR_EL1_EC_ENFP then on_sch (Sched.change_fpu_owner me)
  else if (esr_ec =? ESR_EL1_EC_IABT_LEL) || (esr_ec =? ESR_EL1_EC_DABT_LEL) || (esr_ec =? ESR_EL1_EC_DABT_CEL) then do_page_fault me esr far
  else halt.

(** The thread on CPU [me] has the address space [sp]. *)
Definition runs_in s (me sp : Z) : Prop :=
  ∃ r th, Sched.cpus (Memory.sch s) !! me = Some r ∧ Sched.threads (Memory.sch s) !! Sched.current r = Some th ∧ Sched.vmspace th = sp.

Lemma do_page_fault_run s me esr far sp : runs_in s me sp → DFSC_TRANS_FAULT_L0 ≤ GET_ESR_EL1_FSC esr ≤ DFSC_TRANS_FAULT_L3 →
  do_page_fault me esr far s = (r <- on_vm (VmRegion.handle_trans_fault sp far) ;; BUG_ON (negb (r =? 0))) s.
Proof.
  intros (r & th & Hr & Ht & <-) HF. unfold do_page_fault. rewrite (proj2 (Z.leb_le _ _) (proj1 HF)), (proj2 (Z.leb_le _ _) (proj2 HF)). cbn [andb].
  assert (∀ X (f : M (Sched.sstate H K) X) v, f (Memory.sch s) = Done v (Memory.sch s) → on_sch f s = Done v s) as Rd.
  { intros X f v Ef. unfold on_sch. erewrite zoom_Done by exact Ef. by destruct s. }
  erewrite bind_Done by (apply Rd; by apply Sched.current_thread_ok). by erewrite bind_Done by (apply Rd; by apply Sched.thread_at_ok).
Qed.

(** A fault that is served maps a page; its other outcomes are those of
    [handle_trans_fault]. *)
Definition served s sp far own D V (e : outcome mst unit) : Prop :=
  ∀ p v o x P, p ∈ VmRegion.vmr_list V → VmRegion.vmrs (Memory.vm s) !! p = Some v → VmRegion.inside v far →
  VmRegion.pmos (Memory.vm s) !! VmRegion.pmo v = Some o → VmRegion.tree_ok own D (Memory.vm s) (VmRegion.p_radix o) x P →
  let index := (far / PAGE_SIZE * PAGE_SIZE - VmRegion.start v) / PAGE_SIZE in
  VmRegion.page_of (Memory.vm s) x P index = 0 ∨ VmRegion.frame (VmRegion.page_of (Memory.vm s) x P index) →
  match VmRegion.handle_trans_fault sp far (Memory.vm s) with
  | Done r y => r = 0 ∧ e = Done tt (Memory.with_vm y s) ∧ VmRegion.fault_ok sp far v o own (Memory.vm s) V x P y
  | Fault => e = Fault ∧ ∃ a, get_page (PageTable.al (VmRegion.pt (Memory.vm s))) = Done 0 a
  | Halt => e = Halt
  | _ => False
  end.

Lemma page_fault_served s me esr far sp own D V : runs_in s me sp → DFSC_TRANS_FAULT_L0 ≤ GET_ESR_EL1_FSC esr ≤ DFSC_TRANS_FAULT_L3 →
  VmRegion.space_ok false sp own D (Memory.vm s) V → Radix.SIZEOF_RADIX_NODE ≤ max_size (S := B) → is_u64 far →
  served s sp far own D V (do_page_fault me esr far s).
Proof.
  intros HR HF HS HM Hu p v o x P Hp Hv Iv Ho Htr index Hf. rewrite (do_page_fault_run s me esr far sp HR HF).
  destruct (VmRegion.fault_spec sp own D (Memory.vm s) V p v o x P far HS HM Hu Hp Hv Iv Ho Htr Hf) as [E|[(E & _ & Ha)|(y & E & Hy)]]; rewrite E.
  - apply bind_Halt. by apply zoom_Halt.
  - split; [|done]. unfold bind, on_vm, zoom. by rewrite E.
  - split; [done|]. split; [|done]. by erewrite bind_Done by (by apply zoom_Done).
Qed.

Lemma page_fault_stray s me esr far sp own D V : runs_in s me sp → DFSC_TRANS_FAULT_L0 ≤ GET_ESR_EL1_FSC esr ≤ DFSC_TRANS_FAULT_L3 →
  VmRegion.space_ok false sp own D (Memory.vm s) V →
  (∀ q v, q ∈ VmRegion.vmr_list V → VmRegion.vmrs (Memory.vm s) !! q = Some v → ¬ VmRegion.inside v far) →
  do_page_fault me esr far s = Halt.
Proof.
  intros HR HF HS HN. rewrite (do_page_fault_run s me esr far sp HR HF).
  destruct (VmRegion.fault_keeps_lock sp own D (Memory.vm s) V far HS HN) as (y & E & _). by erewrite bind_Done by (by apply zoom_Done).
Qed.

(** C38: What the exception entry does with every synchronous exception, by the class
    (bits 26 to 31 of the syndrome), the fault code (bits 0 to 5) and the vector it came
    through.  The aborts are those of a user program (instruction 0x20, data 0x24) and,
    through any vector, a data abort of the kernel (0x25).  An abort with the code of a
    translation fault (4 to 7) at an address inside a region of the current address
    space is served: the entry has the outcome of [handle_trans_fault]; it returns with
    the page of the memory object mapped, a fresh zeroed one if there was none, and
    the scheduler not touched, it stops when the handler does, and it dereferences NULL
    only when no page is left.  At an address without a region, and with any other
    code, an abort stops the kernel.  The FPU trap (7) of a user program is the
    change of the owner, a trapped WFI or WFE (1) of one is ignored, and everything
    else stops the kernel. *)
Theorem exception_entry_ok s me type esr far sp own D V : runs_in s me sp → VmRegion.space_ok false sp own D (Memory.vm s) V →
  Radix.SIZEOF_RADIX_NODE ≤ max_size (S := B) → is_u64 far →
  let ec := esr / 2 ^ 26 mod 64 in
  let fsc := esr mod 64 in
  let e := handle_entry_c me type esr far s in
  if decide (ec = 0x25 ∨ 8 ≤ type ∧ (ec = 0x20 ∨ ec = 0x24)) then
    if decide (4 ≤ fsc ≤ 7) then served s sp far own D V e ∧
      ((∀ q v, q ∈ VmRegion.vmr_list V → VmRegion.vmrs (Memory.vm s) !! q = Some v → ¬ VmRegion.inside v far) → e = Halt)
    else e = Halt
  else if decide (8 ≤ type ∧ ec = 7) then e = on_sch (Sched.change_fpu_owner me) s
  else if decide (8 ≤ type ∧ ec = 1) then e = Done tt s
  else e = Halt.
Proof.
  intros HR HS HM Hu ec fsc e. assert (GET_ESR_EL1_EC esr = ec) as EC.
  { unfold GET_ESR_EL1_EC, ec. change 63 with (Z.ones 6). by rewrite Z.land_ones, Z.shiftr_div_pow2 by lia. }
  assert (GET_ESR_EL1_FSC esr = fsc) as EF by (unfold GET_ESR_EL1_FSC, fsc; change 63 with (Z.ones 6); by rewrite Z.land_ones by lia).
  assert (e = if decide (ec = 0x25 ∨ 8 ≤ type ∧ (ec = 0x20 ∨ ec = 0x24)) then do_page_fault me esr far s
    else if decide (8 ≤ type ∧ ec = 7) then on_sch (Sched.change_fpu_owner me) s
    else if decide (8 ≤ type ∧ ec = 1) then Done tt s else Halt) as Ee.
  { unfold e, handle_entry_c, SYNC_EL0_64. rewrite EC. clear EC EF. destruct (Z.ltb_spec type 8) as [Lt|Ge]; cbn [andb].
    - destruct (Z.eqb_spec ec ESR_EL1_EC_DABT_CEL) as [->|N]; [by rewrite decide_True by (by left)|].
      rewrite !decide_False by (unfold ESR_EL1_EC_DABT_CEL in N; lia). done.
    - unfold ESR_EL1_EC_WFI_WFE, ESR_EL1_EC_ENFP, ESR_EL1_EC_IABT_LEL, ESR_EL1_EC_DABT_LEL, ESR_EL1_EC_DABT_CEL.
      repeat case_decide; destruct (Z.eqb_spec ec 1), (Z.eqb_spec ec 7), (Z.eqb_spec ec 0x20), (Z.eqb_spec ec 0x24), (Z.eqb_spec ec 0x25); try lia; done. }
  destruct (decide (ec = 0x25 ∨ _)); [|by repeat case_decide]. destruct (decide (4 ≤ fsc ≤ 7)) as [Hf|Nf]; rewrite Ee.
  - split; [|intros HN; eapply page_fault_stray; [done..|by rewrite EF|done|done]]. eapply page_fault_served; [done|by rewrite EF|done..].
  - unfold do_page_fault, DFSC_TRANS_FAULT_L0, DFSC_TRANS_FAULT_L3. rewrite EF. destruct (Z.leb_spec 4 fsc), (Z.leb_spec fsc 7); cbn [andb]; try lia; done.
Qed.

(** The FPU trap in the kernel is fatal, although the dispatcher has a case for it. *)
Lemma fpu_trap_entry s me esr far : GET_ESR_EL1_EC esr = ESR_EL1_EC_ENFP → handle_entry_c me SYNC_EL1h esr far s = Halt.
Proof. intros E. unfold handle_entry_c. by rewrite E. Qed.

End entry.

Definition demo_sch : Sched.sstate Z Z := Sched.mk_sstate 4096 {[10 := Sched.mk_thread None 0 16 0]} {[0 := Sched.mk_cpu 10 0 true true 7 44 100]} ∅ ∅.
Definition demo : mstate (H := Z) (B := Z) (K := Z) := Memory.mk_mstate demo_sch VmRegion.VMDemo.t0 [] 0 [].

(** The three kinds of aborts, with the four levels, at an address of the anonymous
    object; the syndromes. *)
Definition aborts : list (Z * Z) :=
  (SYNC_EL0_64, 0x80000004) :: (SYNC_EL0_64, 0x80000005) :: (SYNC_EL0_64, 0x92000006) :: (SYNC_EL0_64, 0x92000047) :: (SYNC_EL1h, 0x96000004) :: (SYNC_EL1h, 0x96000047) :: [].

Lemma demo_serves : match VmRegion.handle_trans_fault 16 70000 (Memory.vm demo) with Done _ _ => True | _ => False end.
Proof. vm_compute. exact I. Qed.

Lemma exception_entry_ok_witness : Forall (λ x, ∃ y, handle_entry_c 0 x.1 x.2 70000 demo = Done tt (Memory.with_vm y demo)) aborts.
Proof.
  assert (runs_in demo 0 16) as HR by (eexists _, _; split_and!; reflexivity).
  unfold aborts. repeat (constructor; [|]); [..|constructor].
  all: match goal with |- ∃ y, handle_entry_c _ ?ty ?es _ _ = _ =>
    destruct (exception_entry_ok demo 0 ty es 70000 16 PageTable.PTDemo.own0 {[4096]} VmRegion.VMDemo.V0 HR VmRegion.VMDemo.demo_space_ok
      ltac:(vm_compute; discriminate) ltac:(vm_compute; split; [discriminate|reflexivity])) as [HV _] end.
  all: specialize (HV 4096 VmRegion.VMDemo.v0 VmRegion.VMDemo.o0 VmRegion.VMDemo.x0 ∅ ltac:(left) eq_refl
    ltac:(vm_compute; split; [discriminate|reflexivity]) eq_refl VmRegion.VMDemo.demo_tree_ok ltac:(left; vm_compute; reflexivity)).
  all: pose proof demo_serves as HD; destruct (VmRegion.handle_trans_fault 16 70000 (Memory.vm demo)) as [r y| | | |]; try destruct HD.
  all: exists y; exact (proj1 (proj2 HV)).
Defined.

End Exception.
