(* ===== verification/Ipc.v ===== *)
(** * Inter-process communication (kernel/ipc/connection.c)

    A server thread declares a service with a thread that answers registrations;
    a client registers and gets a connection to a handler thread of the server;
    a call switches from the client to the handler on the same CPU, with the
    client's scheduling context, and the return switches back.

    The state adds to that of Memory.v the field [general_ipc_config] of the
    threads, the three kinds of structures it can point to, and the connections.
    The source casts the pointer to the kind it expects: here a structure of
    another kind at the address is a fault.  The two locks that are taken in one
    system call and released in another are fields; the loops that wait for the
    kernel stack of a thread are [Spin] when it is not free.

    [garbage] is what uninitialised memory holds. *)

From S2P Require Import Prelude Allocator Uaccess Capability PageTable VmRegion Sched Memory.

Module Ipc.

Import Allocator Uaccess.
Import PageTable(VMR_READ, VMR_WRITE).
Import Sched(sstate, TS_WAITING, KS_FREE).
Import Memory(mstate, copy, ToUser, EAGAIN, EINVAL, ENOMEM).

#[local] Existing Instance Sched.thread_special_state_eq_dec.

Definition MAX_CAP_TRANSFER : Z := 8.

Definition SIZEOF_SERVER_CONFIG : Z := 16.
Definition SIZEOF_REGISTER_CB_CONFIG : Z := 40.
Definition SIZEOF_HANDLER_CONFIG : Z := 32.
Definition SIZEOF_CONNECTION : Z := 56.
(** [offsetof(struct ipc_msg, cap_slots_offset)] *)
Definition CAP_SLOTS_OFFSET : Z := 32.

Record ipc_server_handler_config := mk_handler {
  ipc_lock : bool; ipc_routine_entry : Z; ipc_routine_stack : Z; active_conn : Z }.
Record ipc_server_register_cb_config := mk_register_cb {
  register_lock : bool; register_cb_entry : Z; register_cb_stack : Z;
  conn_cap_in_client : Z; conn_cap_in_server : Z; shm_cap_in_server : Z }.
Record ipc_server_config := mk_server { register_cb_thread : Z; declared_ipc_routine_entry : Z }.
Record shm_for_ipc_connection := mk_conn_shm { client_shm_uaddr : Z; server_shm_uaddr : Z; shm_size : Z }.
Record ipc_connection := mk_conn {
  current_client_thread : Z; server_handler_thread : Z; client_badge : Z; user_ipc_msg : Z; shm : shm_for_ipc_connection }.
Record client_connection_result := mk_result {
  client_conn_cap : Z; server_conn_cap : Z; server_shm_cap : Z; conn : Z }.
Record client_shm_config := mk_shm_config { shm_cap : Z; shm_addr : Z }.

Definition with_ipc_lock (b : bool) (h : ipc_server_handler_config) : ipc_server_handler_config :=
  mk_handler b (ipc_routine_entry h) (ipc_routine_stack h) (active_conn h).
Definition with_active_conn (c : Z) (h : ipc_server_handler_config) : ipc_server_handler_config :=
  mk_handler (ipc_lock h) (ipc_routine_entry h) (ipc_routine_stack h) c.
Definition with_register_lock (b : bool) (r : ipc_server_register_cb_config) : ipc_server_register_cb_config :=
  mk_register_cb b (register_cb_entry r) (register_cb_stack r) (conn_cap_in_client r) (conn_cap_in_server r) (shm_cap_in_server r).
Definition with_conn_caps (r : client_connection_result) (c : ipc_server_register_cb_config) : ipc_server_register_cb_config :=
  mk_register_cb (register_lock c) (register_cb_entry c) (register_cb_stack c) (client_conn_cap r) (server_conn_cap r) (server_shm_cap r).
Definition with_client (t : Z) (c : ipc_connection) : ipc_connection :=
  mk_conn t (server_handler_thread c) (client_badge c) (user_ipc_msg c) (shm c).
Definition with_msg (m : Z) (c : ipc_connection) : ipc_connection :=
  mk_conn (current_client_thread c) (server_handler_thread c) (client_badge c) m (shm c).
Definition with_sc (p n : Z) (c : Sched.thread_ctx) : Sched.thread_ctx :=
  Sched.mk_ctx (Sched.ec c) (Sched.kernel_stack c) (Sched.fpu_state c) (Sched.fpu_area c) (Sched.tls_base c) p n (Sched.type c)
    (Sched.state c) (Sched.prio c) (Sched.affinity c) (Sched.cpuid c) (Sched.kernel_stack_state c).

(** What the user has in an IPC message: [cap_slots_offset], and the capability
    ids there. *)
Record message := mk_message { cap_slots_offset : Z; cap_slots : nat → Z }.

Section ipc.
Context {A H B : Type} `{!Allocator A, !Allocator H, !Allocator B, !PageAllocator B}.
Context {K : Type} `{!EqDecision K, !Countable K}.
Context (oob : Z → Z) (garbage PLAT_CPU_NUM : Z).

Record ipc_state := mk_ipc {
  ms : mstate (H := H) (B := B) (K := K);
  general_ipc_config : gmap Z Z;
  servers : gmap Z ipc_server_config;
  register_cbs : gmap Z ipc_server_register_cb_config;
  handlers : gmap Z ipc_server_handler_config;
  conns : gmap Z ipc_connection
}.

Definition with_ms (x : mstate) (s : ipc_state) : ipc_state :=
  mk_ipc x (general_ipc_config s) (servers s) (register_cbs s) (handlers s) (conns s).
Definition with_config (t p : Z) (s : ipc_state) : ipc_state :=
  mk_ipc (ms s) (<[t := p]> (general_ipc_config s)) (servers s) (register_cbs s) (handlers s) (conns s).
Definition with_server (p : Z) (c : ipc_server_config) (s : ipc_state) : ipc_state :=
  mk_ipc (ms s) (general_ipc_config s) (<[p := c]> (servers s)) (register_cbs s) (handlers s) (conns s).
Definition with_register_cb (p : Z) (c : ipc_server_register_cb_config) (s : ipc_state) : ipc_state :=
  mk_ipc (ms s) (general_ipc_config s) (servers s) (<[p := c]> (register_cbs s)) (handlers s) (conns s).
Definition with_handler (p : Z) (c : ipc_server_handler_config) (s : ipc_state) : ipc_state :=
  mk_ipc (ms s) (general_ipc_config s) (servers s) (register_cbs s) (<[p := c]> (handlers s)) (conns s).
Definition with_conn (p : Z) (c : ipc_connection) (s : ipc_state) : ipc_state :=
  mk_ipc (ms s) (general_ipc_config s) (servers s) (register_cbs s) (handlers s) (<[p := c]> (conns s)).

Abbreviation kstate := (Capability.kstate (A := A) (E := ipc_state)).
Abbreviation MI := (M kstate).
Import Capability(obj_alloc, cap_alloc, cap_copy, cap_free, obj_free, obj_get, obj_put, on_ext, TYPE_PMO, TYPE_THREAD, TYPE_CONNECTION, ECAPBILITY).

(** The deinitialisers of objects ([obj_deinit_tbl]). *)
Context (obj_deinit : Z → Z → M ipc_state unit).

(** Code of Memory.v and of Sched.v. *)
Definition on_ms {X} (m : M (Capability.kstate (A := A) (E := mstate)) X) : MI X :=
  zoom (λ s, Capability.mk_kstate (Capability.al s) (Capability.objects s) (Capability.slotmem s) (Capability.groups s) (ms (Capability.ext s)))
    (λ k s, Capability.mk_kstate (Capability.al k) (Capability.objects k) (Capability.slotmem k) (Capability.groups k)
       (with_ms (Capability.ext k) (Capability.ext s))) m.
Definition on_sch {X} (m : M (sstate H K) X) : MI X :=
  on_ext (zoom (λ e, Memory.sch (ms e)) (λ x e, with_ms (Memory.with_sch x (ms e)) e) m).

Definition current_thread (me : Z) : MI Z := on_sch (Sched.current_thread me).
(** [thread->cap_group]; [current_cap_group] is that of the current thread. *)
Definition group_of (t : Z) : MI Z := on_sch (th <- Sched.thread_at t ;; ret (Sched.cap_group th)).
Definition current_cap_group (me : Z) : MI Z := t <- current_thread me ;; group_of t.

(** [thread->general_ipc_config], NULL if it was never set. *)
Definition config_of (t : Z) : MI Z :=
  on_sch (Sched.thread_at t) ;; s <- on_ext get ;; ret (default 0 (general_ipc_config s !! t)).
Definition server_at (p : Z) : MI ipc_server_config := s <- on_ext get ;; need (servers s !! p).
Definition register_cb_at (p : Z) : MI ipc_server_register_cb_config := s <- on_ext get ;; need (register_cbs s !! p).
Definition handler_at (p : Z) : MI ipc_server_handler_config := s <- on_ext get ;; need (handlers s !! p).
Definition conn_at (p : Z) : MI ipc_connection := s <- on_ext get ;; need (conns s !! p).

Definition upd_handler (p : Z) (f : ipc_server_handler_config → ipc_server_handler_config) : MI unit :=
  h <- handler_at p ;; on_ext (modify (with_handler p (f h))).
Definition upd_register_cb (p : Z) (f : ipc_server_register_cb_config → ipc_server_register_cb_config) : MI unit :=
  c <- register_cb_at p ;; on_ext (modify (with_register_cb p (f c))).
Definition upd_conn (p : Z) (f : ipc_connection → ipc_connection) : MI unit :=
  c <- conn_at p ;; on_ext (modify (with_conn p (f c))).

(** [while (thread->thread_ctx->kernel_stack_state != KS_FREE) ;] *)
Definition wait_stack (t : Z) : MI unit :=
  c <- on_sch (Sched.ctx_of t) ;; if bool_decide (Sched.kernel_stack_state c = KS_FREE) then ret tt else λ _, Spin.

(** [kmalloc] of a structure that is used without a test for NULL. *)
Definition kmalloc_used (size : Z) : MI Z := p <- Capability.on_al (al_alloc size) ;; if p =? 0 then fault else ret p.

(** [switch_to_thread(target); eret_to_thread(switch_context())] *)
Definition switch_and_eret (me target : Z) : MI unit :=
  on_sch (Sched.switch_to_thread me target) ;; on_sch (Sched.eret_to_thread PLAT_CPU_NUM me).

(** ** Registration *)

Definition register_server (me server ipc_routine register_thread_cap : Z) : MI Z :=
  BUG_ON (server =? 0) ;;
  old <- config_of server ;;
  BUG_ON (negb (old =? 0)) ;;
  config <- kmalloc_used SIZEOF_SERVER_CONFIG ;;
  g <- current_cap_group me ;;
  register_cb_thread <- obj_get g (s32 register_thread_cap) TYPE_THREAD ;;
  BUG_ON (register_cb_thread =? 0) ;;
  on_ext (modify (with_server config (mk_server register_cb_thread ipc_routine))) ;;
  register_cb_config <- kmalloc_used SIZEOF_REGISTER_CB_CONFIG ;;
  on_ext (modify (with_config register_cb_thread register_cb_config)) ;;
  ip <- on_sch (Sched.arch_get_thread_next_ip register_cb_thread) ;;
  sp <- on_sch (Sched.arch_get_thread_stack register_cb_thread) ;;
  on_ext (modify (with_register_cb register_cb_config (mk_register_cb false ip sp garbage garbage garbage))) ;;
  obj_put register_cb_thread ;;
  on_ext (modify (with_config server config)) ;;
  ret 0.

(** The errors are [inl]. *)
Definition client_connection (me client server shm_cap_client shm_addr_client : Z) : MI (Z + client_connection_result) :=
  BUG_ON ((client =? 0) || (server =? 0)) ;;
  g <- current_cap_group me ;;
  pmo <- obj_get g shm_cap_client TYPE_PMO ;;
  BUG_ON (pmo =? 0) ;;
  sg <- group_of server ;;
  shm_cap_server <- cap_copy oob g sg shm_cap_client false 0 ;;
  conn <- obj_alloc TYPE_CONNECTION SIZEOF_CONNECTION ;;
  if conn =? 0 then obj_put pmo ;; ret (inl (- ENOMEM))
  else
    on_ext (modify (with_conn conn (mk_conn 0 0 0 0 (mk_conn_shm 0 0 0)))) ;;
    conn_cap <- cap_alloc oob g conn 0 ;;
    if conn_cap <? 0 then obj_free obj_deinit conn ;; obj_put pmo ;; ret (inl conn_cap)
    else
      server_conn_cap <- cap_copy oob g sg conn_cap false 0 ;;
      if server_conn_cap <? 0 then obj_free obj_deinit conn ;; obj_put pmo ;; ret (inl server_conn_cap)
      else
        cg <- Capability.group_at g ;;
        o <- on_ms (Memory.pmo_of pmo) ;;
        upd_conn conn (λ c, mk_conn client 0 (Capability.badge cg) (user_ipc_msg c)
          (mk_conn_shm shm_addr_client (server_shm_uaddr (shm c)) (VmRegion.p_size o))) ;;
        ret (inr (mk_result conn_cap server_conn_cap shm_cap_server conn)).

(** ** Calls *)

Definition grab_ipc_lock (conn : Z) : MI Z :=
  c <- conn_at conn ;;
  let target := server_handler_thread c in
  handler_config <- config_of target ;;
  h <- handler_at handler_config ;;
  if ipc_lock h then ret (- EAGAIN)
  else
    upd_handler handler_config (with_ipc_lock true) ;;
    wait_stack target ;;
    ret 0.

Definition thread_migrate_to_server (me conn arg : Z) : MI unit :=
  c <- conn_at conn ;;
  let target := server_handler_thread c in
  handler_config <- config_of target ;;
  upd_handler handler_config (with_active_conn conn) ;;
  cur <- current_thread me ;;
  upd_conn conn (with_client cur) ;;
  on_sch (Sched.upd_ctx cur (Sched.with_state TS_WAITING)) ;;
  cc <- on_sch (Sched.ctx_of cur) ;;
  on_sch (Sched.upd_ctx target (with_sc (Sched.sc cc) (Sched.budget cc))) ;;
  h <- handler_at handler_config ;;
  on_sch (Sched.arch_set_thread_stack target (ipc_routine_stack h)) ;;
  on_sch (Sched.arch_set_thread_next_ip target (ipc_routine_entry h)) ;;
  on_sch (Sched.arch_set_thread_arg target arg) ;;
  on_sch (Sched.arch_set_thread_badge_arg target (client_badge c)) ;;
  obj_put conn ;;
  switch_and_eret me target ;;
  halt.

Definition thread_migrate_to_client (me client ret_value : Z) : MI unit :=
  on_sch (Sched.arch_set_thread_return client ret_value) ;;
  switch_and_eret me client ;;
  halt.

(** ** System calls *)

Definition sys_register_server (me ipc_routine register_thread_cap : Z) : MI Z :=
  t <- current_thread me ;; register_server me t ipc_routine register_thread_cap.

(** The registration proper, with the lock of the registration thread held;
    [config] is what the user has at [shm_config_ptr]. *)
Definition connect (me client server server_config cb_thread cb_config shm_config_ptr : Z) (config : client_shm_config) : MI Z :=
  shm_config <- copy_from_user shm_config_ptr config ;;
  r <- on_ms (Memory.map_pmo_in_current_cap_group me (shm_cap shm_config) (shm_addr shm_config) (Z.lor VMR_READ VMR_WRITE)) ;;
  BUG_ON (negb (r =? 0)) ;;
  res <- client_connection me client server (shm_cap shm_config) (shm_addr shm_config) ;;
  match res with
  | inl _ => halt
  | inr res =>
      upd_register_cb cb_config (with_conn_caps res) ;;
      on_sch (Sched.upd_ctx client (Sched.with_state TS_WAITING)) ;;
      sc <- server_at server_config ;;
      cb <- register_cb_at cb_config ;;
      on_sch (Sched.arch_set_thread_arg cb_thread (declared_ipc_routine_entry sc)) ;;
      on_sch (Sched.arch_set_thread_stack cb_thread (register_cb_stack cb)) ;;
      on_sch (Sched.arch_set_thread_next_ip cb_thread (register_cb_entry cb)) ;;
      obj_put server ;;
      cc <- on_sch (Sched.ctx_of client) ;;
      on_sch (Sched.upd_ctx cb_thread (with_sc (Sched.sc cc) (Sched.budget cc))) ;;
      switch_and_eret me cb_thread ;;
      halt
  end.

(** Also a NULL [server] is given back on failure. *)
Definition sys_register_client (me server_cap shm_config_ptr : Z) (config : client_shm_config) : MI Z :=
  client <- current_thread me ;;
  g <- current_cap_group me ;;
  server <- obj_get g (s32 server_cap) TYPE_THREAD ;;
  if server =? 0 then obj_put server ;; ret (- ECAPBILITY)
  else
    server_config <- config_of server ;;
    if server_config =? 0 then obj_put server ;; ret (- EAGAIN)
    else
      sc <- server_at server_config ;;
      let cb_thread := register_cb_thread sc in
      cb_config <- config_of cb_thread ;;
      cb <- register_cb_at cb_config ;;
      if register_lock cb then obj_put server ;; ret (- EAGAIN)
      else
        upd_register_cb cb_config (with_register_lock true) ;;
        wait_stack cb_thread ;;
        connect me client server server_config cb_thread cb_config shm_config_ptr config.

(** The loop of [ipc_send_cap] over the buffer; [dest_cap] is unsigned, so the
    test for an error never holds.  The result is the buffer so far, and whether
    the loop stopped. *)
Fixpoint send_caps (g target_group : Z) (caps : list Z) : MI (list Z * bool) :=
  match caps with
  | [] => ret ([], false)
  | cap :: caps' =>
      r <- cap_copy oob g target_group (s32 cap) false 0 ;;
      let dest_cap := u64 r in
      if dest_cap <? 0 then ret ([], true)
      else
        rest <- send_caps g target_group caps' ;;
        ret (dest_cap :: rest.1, rest.2)
  end.
Fixpoint free_caps (target_group : Z) (caps : list Z) : MI unit :=
  match caps with
  | [] => ret tt
  | cap :: caps' => free_caps target_group caps' ;; cap_free obj_deinit target_group (s32 cap) ;; ret tt
  end.

Definition ipc_send_cap (me conn ipc_msg cap_num : Z) (msg : message) : MI Z :=
  if cap_num =? 0 then ret 0
  else if MAX_CAP_TRANSFER <=? cap_num then ret (- EINVAL)
  else
    offset <- copy_from_user (u64 (ipc_msg + CAP_SLOTS_OFFSET)) (cap_slots_offset msg) ;;
    cap_buf <- Capability.on_al (al_alloc (8 * cap_num)) ;;
    if cap_buf =? 0 then ret (- ENOMEM)
    else
      let user_buf := u64 (ipc_msg + offset) in
      caps <- copy_from_user user_buf (map (cap_slots msg) (seq 0 (Z.to_nat cap_num))) ;;
      g <- current_cap_group me ;;
      c <- conn_at conn ;;
      tg <- group_of (server_handler_thread c) ;;
      sent <- send_caps g tg caps ;;
      if sent.2 then
        free_caps tg sent.1 ;; Capability.on_al (al_free cap_buf) ;; ret 0
      else
        copy_to_user user_buf (on_ms (Memory.log (ToUser user_buf sent.1))) ;;
        Capability.on_al (al_free cap_buf) ;;
        ret 0.

(** The server's address of a message at [msg] in the client. *)
Definition msg_in_server (c : ipc_connection) (msg : Z) : Z := u64 (msg - client_shm_uaddr (shm c) + server_shm_uaddr (shm c)).

(** [cap_slots_offset] is read twice, from memory the client and the server share:
    [again] is what the second read finds. *)
Definition ipc_send_cap_to_client (me conn cap_num : Z) (msg : message) (again : Z) : MI unit :=
  c <- conn_at conn ;;
  let server_ipc_msg := msg_in_server c (user_ipc_msg c) in
  if cap_num =? 1 then
    let user_buf := u64 (server_ipc_msg + cap_slots_offset msg) in
    ret_cap <- copy_from_user user_buf (s32 (cap_slots msg 0)) ;;
    g <- current_cap_group me ;;
    cg <- group_of (current_client_thread c) ;;
    ret_cap <- cap_copy oob g cg ret_cap false 0 ;;
    BUG_ON (ret_cap <? 0) ;;
    let user_buf := u64 (server_ipc_msg + again) in
    copy_to_user user_buf (on_ms (Memory.log (ToUser user_buf [ret_cap]))) ;;
    ret tt
  else ret tt.

Definition sys_ipc_call (me conn_cap ipc_msg_in_client cap_num : Z) (msg : message) : MI Z :=
  g <- current_cap_group me ;;
  conn <- obj_get g (s32 conn_cap) TYPE_CONNECTION ;;
  BUG_ON (conn =? 0) ;;
  r <- grab_ipc_lock conn ;;
  if negb (r =? 0) then obj_put conn ;; ret r
  else
    (if ipc_msg_in_client =? 0 then thread_migrate_to_server me conn 0 ;; halt else ret tt) ;;
    r <- (if negb (cap_num =? 0) then ipc_send_cap me conn ipc_msg_in_client cap_num msg else ret 0) ;;
    if r <? 0 then obj_put conn ;; ret r
    else
      upd_conn conn (with_msg ipc_msg_in_client) ;;
      c <- conn_at conn ;;
      thread_migrate_to_server me conn (msg_in_server c ipc_msg_in_client) ;;
      halt.

Definition sys_ipc_return (me retval cap_num : Z) (msg : message) (again : Z) : MI unit :=
  cur <- current_thread me ;;
  handler_config <- config_of cur ;;
  h <- handler_at handler_config ;;
  let conn := active_conn h in
  BUG_ON (conn =? 0) ;;
  upd_handler handler_config (with_active_conn 0) ;;
  c <- conn_at conn ;;
  let client := current_client_thread c in
  (if negb (cap_num =? 0) then ipc_send_cap_to_client me conn cap_num msg again else ret tt) ;;
  upd_handler handler_config (with_ipc_lock false) ;;
  thread_migrate_to_client me client retval ;;
  halt.

Definition sys_ipc_register_cb_return (me server_handler_thread_cap server_shm_addr : Z) : MI unit :=
  cur <- current_thread me ;;
  config <- config_of cur ;;
  g <- current_cap_group me ;;
  cb <- register_cb_at config ;;
  conn <- obj_get g (conn_cap_in_server cb) TYPE_CONNECTION ;;
  BUG_ON (conn =? 0) ;;
  c <- conn_at conn ;;
  let client_thread := current_client_thread c in
  on_sch (Sched.arch_set_thread_return client_thread (u64 (conn_cap_in_client cb))) ;;
  handler <- obj_get g (s32 server_handler_thread_cap) TYPE_THREAD ;;
  BUG_ON (handler =? 0) ;;
  handler_config <- kmalloc_used SIZEOF_HANDLER_CONFIG ;;
  on_ext (modify (with_config handler handler_config)) ;;
  ip <- on_sch (Sched.arch_get_thread_next_ip handler) ;;
  sp <- on_sch (Sched.arch_get_thread_stack handler) ;;
  on_ext (modify (with_handler handler_config (mk_handler false ip sp garbage))) ;;
  obj_put handler ;;
  cb <- register_cb_at config ;;
  r <- on_ms (Memory.map_pmo_in_current_cap_group me (shm_cap_in_server cb) server_shm_addr (Z.lor VMR_READ VMR_WRITE)) ;;
  BUG_ON (negb (r =? 0)) ;;
  upd_conn conn (λ c, mk_conn 0 handler (client_badge c) (user_ipc_msg c)
    (mk_conn_shm (client_shm_uaddr (shm c)) server_shm_addr (shm_size (shm c)))) ;;
  obj_put conn ;;
  upd_register_cb config (with_register_lock false) ;;
  switch_and_eret me client_thread.

Definition transfer_cap (me conn send_cap : Z) : MI Z :=
  c <- conn_at conn ;;
  g <- current_cap_group me ;;
  tg <- group_of (server_handler_thread c) ;;
  cap <- cap_copy oob g tg (s32 send_cap) false 0 ;;
  if cap <? 0 then ret cap
  else thread_migrate_to_server me conn cap ;; ret 0.

(** Neither error path gives the reference back. *)
Definition sys_ipc_send_cap (me conn_cap send_cap : Z) : MI Z :=
  g <- current_cap_group me ;;
  conn <- obj_get g (s32 conn_cap) TYPE_CONNECTION ;;
  if conn =? 0 then ret (- ECAPBILITY)
  else
    r <- grab_ipc_lock conn ;;
    if negb (r =? 0) then ret r else transfer_cap me conn send_cap.

(** ** Steps on the parts of the state *)

Definition sch_of (s : kstate) : sstate H K := Memory.sch (ms (Capability.ext s)).
Definition put_ext (f : ipc_state → ipc_state) (s : kstate) : kstate := Capability.with_ext (f (Capability.ext s)) s.
Definition with_threads_of (x : sstate H K) (e : ipc_state) : ipc_state := with_ms (Memory.with_sch x (ms e)) e.

Lemma on_sch_Done {X} (m : M (sstate H K) X) s a x : m (sch_of s) = Done a x → on_sch m s = Done a (put_ext (with_threads_of x) s).
Proof. intros E. unfold on_sch, on_ext, zoom. fold (sch_of s). by rewrite E. Qed.

Lemma on_sch_Away {X} (m : M (sstate H K) X) s x : m (sch_of s) = Away x → on_sch m s = Away (put_ext (with_threads_of x) s).
Proof. intros E. unfold on_sch, on_ext, zoom. fold (sch_of s). by rewrite E. Qed.

Lemma with_threads_id (s : kstate) : put_ext (with_threads_of (sch_of s)) s = s.
Proof. by destruct s as [? ? ? ? [[? ? ? ? ?] ? ? ? ? ?]]. Qed.

Lemma on_sch_read {X} (m : M (sstate H K) X) s a : m (sch_of s) = Done a (sch_of s) → on_sch m s = Done a s.
Proof. intros E. rewrite (on_sch_Done _ _ _ _ E). by rewrite with_threads_id. Qed.

Lemma put_ext_caps f (s : kstate) : Capability.with_ext (Capability.ext s) (put_ext f s) = s.
Proof. by destruct s. Qed.

Lemma get_ext (s : kstate) : on_ext get s = Done (Capability.ext s) s.
Proof. by destruct s. Qed.

Lemma modify_ext f (s : kstate) : on_ext (modify f) s = Done tt (put_ext f s).
Proof. done. Qed.

Lemma handler_at_ok s p h : handlers (Capability.ext s) !! p = Some h → handler_at p s = Done h s.
Proof. intros E. unfold handler_at. erewrite bind_Done by apply get_ext. by rewrite E. Qed.

Lemma conn_at_ok s p c : conns (Capability.ext s) !! p = Some c → conn_at p s = Done c s.
Proof. intros E. unfold conn_at. erewrite bind_Done by apply get_ext. by rewrite E. Qed.

Lemma upd_handler_ok s p h f : handlers (Capability.ext s) !! p = Some h → upd_handler p f s = Done tt (put_ext (with_handler p (f h)) s).
Proof. intros E. unfold upd_handler. by erewrite bind_Done by (by apply handler_at_ok). Qed.

Lemma upd_conn_ok s p c f : conns (Capability.ext s) !! p = Some c → upd_conn p f s = Done tt (put_ext (with_conn p (f c)) s).
Proof. intros E. unfold upd_conn. by erewrite bind_Done by (by apply conn_at_ok). Qed.

Lemma thread_of_ctx (x : sstate H K) t c : Sched.tctx x t = Some c → is_Some (Sched.threads x !! t).
Proof. intros (th & Ht & _)%Sched.tctx_Some. by eexists. Qed.

Lemma config_of_ok s t p : is_Some (Sched.threads (sch_of s) !! t) → general_ipc_config (Capability.ext s) !! t = Some p →
  config_of t s = Done p s.
Proof.
  intros [th Ht] Hp. unfold config_of. erewrite bind_Done by (apply on_sch_read; by apply Sched.thread_at_ok).
  erewrite bind_Done by apply get_ext. by rewrite Hp.
Qed.

Lemma cur_thread_ok s me r : Sched.cpus (sch_of s) !! me = Some r → current_thread me s = Done (Sched.current r) s.
Proof. intros E. apply on_sch_read. by apply Sched.current_thread_ok. Qed.

Definition tgroup (x : sstate H K) (t : Z) : option Z := Sched.cap_group <$> Sched.threads x !! t.

Lemma group_of_ok s t g : tgroup (sch_of s) t = Some g → group_of t s = Done g s.
Proof.
  unfold tgroup. intros E. destruct (_ !! t) as [th|] eqn:Ht; [|done]. injection E as <-.
  apply on_sch_read. by erewrite bind_Done by (by apply Sched.thread_at_ok).
Qed.

Lemma current_group_ok s me r g : Sched.cpus (sch_of s) !! me = Some r → tgroup (sch_of s) (Sched.current r) = Some g →
  current_cap_group me s = Done g s.
Proof. intros Hr Hg. unfold current_cap_group. erewrite bind_Done by (by apply cur_thread_ok). by apply group_of_ok. Qed.

(** [x] is the context of thread [t], with the changes of the registers. *)
Lemma upd_ctx_step s t c f : Sched.tctx (sch_of s) t = Some c →
  on_sch (Sched.upd_ctx t f) s = Done tt (put_ext (with_threads_of (Sched.put_ctx t f (sch_of s))) s).
Proof. intros E. apply on_sch_Done. by eapply Sched.upd_ctx_ok. Qed.

(** ** Switching between a client and a server *)

(** CPU [me], with the registers [r], runs a thread whose context is [c]. *)
Record on_cpu (x : sstate H K) (me : Z) (r : Sched.cpu) (c : Sched.thread_ctx) : Prop := {
  oc_cpu : Sched.cpus x !! me = Some r;
  oc_me : 0 ≤ me < PLAT_CPU_NUM;
  oc_fpu : Sched.fpu_disable r = Sched.fpu_trap r;
  oc_null : Sched.current r ≠ 0;
  oc_itself : Sched.current r ≠ Sched.THREAD_ITSELF;
  oc_ctx : Sched.tctx x (Sched.current r) = Some c
}.

(** [t] is a user thread that is not queued, in address space [v]. *)
Record can_run (x : sstate H K) (t : Z) (c : Sched.thread_ctx) (v : Z) : Prop := {
  cr_ctx : Sched.tctx x t = Some c;
  cr_null : t ≠ 0;
  cr_itself : t ≠ Sched.THREAD_ITSELF;
  cr_state : Sched.state c ≠ Sched.TS_READY;
  cr_type : Sched.type c = Sched.TYPE_USER ∨ Sched.type c = Sched.TYPE_SHADOW;
  cr_vm : Sched.tvm x t = Some v;
  cr_space : v ≠ 0
}.

(** The CPU has been handed over to [t]. *)
Record handed (x y : sstate H K) (me : Z) (r : Sched.cpu) (t : Z) (c : Sched.thread_ctx) (v : Z) (old : Sched.thread_ctx) : Prop := {
  hd_cpus : Sched.cpus y = <[me := Sched.mk_cpu t (Sched.fpu_owner r) true true (Sched.fpu_regs r) (Sched.tls_base c) v]> (Sched.cpus x);
  hd_ready : Sched.ready y = Sched.ready x;
  hd_al : Sched.al y = Sched.al x;
  hd_new : Sched.tctx y t = Some (Sched.entered me c);
  hd_old : Sched.tctx y (Sched.current r) = Some (Sched.left_by r old);
  hd_others : ∀ u, u ≠ t → u ≠ Sched.current r → Sched.tctx y u = Sched.tctx x u;
  hd_vm : ∀ u, Sched.tvm y u = Sched.tvm x u
}.

Lemma switch_and_eret_spec s me r old t c v : on_cpu (sch_of s) me r old → can_run (sch_of s) t c v → t ≠ Sched.current r →
  ∃ x, switch_and_eret me t s = Away (put_ext (with_threads_of x) s) ∧ handed (sch_of s) x me r t c v old.
Proof.
  intros [O1 O2 O3 O4 O5 O6] [C1 C2 C3 C4 C5 C6 C7] N.
  destruct (Sched.switch_return_full PLAT_CPU_NUM (sch_of s) me r t c v O1 O2 O3 C1 C2 N C4 C5 C6 C7 O4 O5 old O6)
    as (x & E & H1 & H2 & H3 & H4 & H5 & H6 & H7).
  exists x. split; [|by split]. apply on_sch_Away in E. rewrite <- E. unfold switch_and_eret, on_sch, on_ext, zoom, bind.
  simpl. by destruct (Sched.switch_to_thread _ _ _).
Qed.

(** The context of the handler thread when it starts to serve a call of a thread
    whose context is [ct]. *)
Definition serving_ctx (h : ipc_server_handler_config) (arg badge : Z) (ct cs : Sched.thread_ctx) : Sched.thread_ctx :=
  Sched.with_ec (λ regs, <[Sched.X1 := badge]> (<[Sched.X0 := arg]> (<[Sched.ELR_EL1 := ipc_routine_entry h]>
    (<[Sched.SP_EL0 := ipc_routine_stack h]> regs)))) (with_sc (Sched.sc ct) (Sched.budget ct) cs).

Lemma put_ctx_self x t f c : Sched.tctx x t = Some c → Sched.tctx (Sched.put_ctx (K := K) (A := H) t f x) t = Some (f c).
Proof. intros E. by rewrite Sched.tctx_put_ctx, decide_True, E. Qed.

Lemma put_ctx_other x t f u : u ≠ t → Sched.tctx (Sched.put_ctx (K := K) (A := H) t f x) u = Sched.tctx x u.
Proof. intros N. by rewrite Sched.tctx_put_ctx, decide_False. Qed.

(** The threads after the stores of [thread_migrate_to_server]. *)
Definition migrating (cur target arg : Z) (h : ipc_server_handler_config) (badge : Z) (ct : Sched.thread_ctx) (x : sstate H K) : sstate H K :=
  Sched.put_ctx target (Sched.with_ec (<[Sched.X1 := badge]>)) (Sched.put_ctx target (Sched.with_ec (<[Sched.X0 := arg]>))
    (Sched.put_ctx target (Sched.with_ec (<[Sched.ELR_EL1 := ipc_routine_entry h]>))
      (Sched.put_ctx target (Sched.with_ec (<[Sched.SP_EL0 := ipc_routine_stack h]>))
        (Sched.put_ctx target (with_sc (Sched.sc ct) (Sched.budget ct)) (Sched.put_ctx cur (Sched.with_state TS_WAITING) x))))).

Lemma migrating_tctx cur target arg h badge ct x cs cc : target ≠ cur → Sched.tctx x target = Some cs → Sched.tctx x cur = Some cc →
  Sched.tctx (migrating cur target arg h badge ct x) target = Some (serving_ctx h arg badge ct cs) ∧
  Sched.tctx (migrating cur target arg h badge ct x) cur = Some (Sched.with_state TS_WAITING cc) ∧
  ∀ u, u ≠ target → u ≠ cur → Sched.tctx (migrating cur target arg h badge ct x) u = Sched.tctx x u.
Proof.
  intros N E Ec. unfold migrating. split_and!.
  - rewrite !Sched.tctx_put_ctx, !(decide_True (P := target = target)), decide_False by done. by rewrite E.
  - rewrite !put_ctx_other by done. by apply put_ctx_self.
  - intros u Nu Nc. by rewrite !put_ctx_other.
Qed.

(** With a reference to the connection, which [obj_put] gives back. *)
Lemma thread_migrate_spec s s0 me r ct conn c arg p h cs v :
  on_cpu (sch_of s) me r ct → conns (Capability.ext s) !! conn = Some c →
  general_ipc_config (Capability.ext s) !! server_handler_thread c = Some p → handlers (Capability.ext s) !! p = Some h →
  can_run (sch_of s) (server_handler_thread c) cs v → server_handler_thread c ≠ Sched.current r →
  (∀ e, obj_put conn (Capability.with_ext e s) = Done tt (Capability.with_ext e s0)) →
  let e := with_conn conn (with_client (Sched.current r) c) (with_handler p (with_active_conn conn h) (Capability.ext s)) in
  ∃ x, thread_migrate_to_server me conn arg s = Away (Capability.with_ext (with_threads_of x e) s0) ∧
  handed (sch_of s) x me r (server_handler_thread c) (serving_ctx h arg (client_badge c) ct cs) v (Sched.with_state TS_WAITING ct).
Proof.
  intros O Hc Hp Hh C N Hput e. pose proof (oc_ctx _ _ _ _ O) as Hct. pose proof (cr_ctx _ _ _ _ C) as Hcs.
  set (t := Sched.current r) in *. set (target := server_handler_thread c) in *.
  destruct (migrating_tctx t target arg h (client_badge c) (Sched.with_state TS_WAITING ct) (sch_of s) cs ct N Hcs Hct) as (M1 & M2 & M3).
  set (x := migrating _ _ _ _ _ _ _) in *.
  set (s1 := Capability.with_ext (with_threads_of x e) s0).
  destruct (switch_and_eret_spec s1 me r (Sched.with_state TS_WAITING ct) target (serving_ctx h arg (client_badge c) ct cs) v)
    as (y & E & [Y1 Y2 Y3 Y4 Y5 Y6 Y7]); [by destruct O; split| |done|].
  { destruct C as [_ C2 C3 C4 C5 C6 C7]. split; try done.
    change (Sched.tvm x target = Some v). unfold x, migrating. by rewrite !Sched.tvm_put_ctx. }
  exists y. split.
  - unfold thread_migrate_to_server. erewrite bind_Done by (by apply conn_at_ok).
    erewrite bind_Done by (apply config_of_ok; [exact (thread_of_ctx _ _ _ Hcs)|exact Hp]).
    erewrite bind_Done by (by apply upd_handler_ok). erewrite bind_Done by (apply cur_thread_ok, O).
    erewrite bind_Done by (by apply upd_conn_ok). erewrite bind_Done by (by eapply upd_ctx_step).
    erewrite bind_Done by (apply on_sch_read, Sched.ctx_of_ok; by apply put_ctx_self).
    erewrite bind_Done by (eapply upd_ctx_step; exact (eq_trans (put_ctx_other _ _ _ _ N) Hcs)).
    erewrite bind_Done by (apply handler_at_ok; simpl; apply lookup_insert_eq). fold target.
    do 4 (erewrite bind_Done by (eapply upd_ctx_step; repeat eapply put_ctx_self; exact (eq_trans (put_ctx_other _ _ _ _ N) Hcs))).
    erewrite bind_Done by apply Hput. by apply bind_Away.
  - split; [exact Y1|done|done|done|done| |].
    + intros u Nu Nc. rewrite Y6 by done. by apply M3.
    + intros u. rewrite Y7. change (Sched.tvm x u = Sched.tvm (sch_of s) u). unfold x, migrating. by rewrite !Sched.tvm_put_ctx.
Qed.

(** A store to the context of the thread that is switched to. *)
Lemma put_ctx_run x t f c v : can_run x t c v → Sched.state (f c) = Sched.state c → Sched.type (f c) = Sched.type c →
  can_run (Sched.put_ctx t f x) t (f c) v.
Proof.
  intros [C1 C2 C3 C4 C5 C6 C7] Es Et. split; [by apply put_ctx_self|done|done|by rewrite Es|by rewrite Et| |done].
  exact (eq_trans (Sched.tvm_put_ctx _ _ _ _) C6).
Qed.

Lemma put_ctx_cpu x t f me r c : on_cpu x me r c → t ≠ Sched.current r → on_cpu (Sched.put_ctx t f x) me r c.
Proof. intros [O1 O2 O3 O4 O5 O6] N. split; try done. exact (eq_trans (put_ctx_other _ _ _ _ (not_eq_sym N)) O6). Qed.

Lemma handed_put_ctx x y me r t f c v old : handed (Sched.put_ctx t f x) y me r t c v old → handed x y me r t c v old.
Proof.
  intros [Y1 Y2 Y3 Y4 Y5 Y6 Y7]. split; try done.
  - intros u Nu Nr. rewrite Y6 by done. by apply put_ctx_other.
  - intros u. rewrite Y7. apply Sched.tvm_put_ctx.
Qed.

(** ** The states of a connection *)

(** A connection [conn] that is established: its handler thread has the
    configuration [p]. *)
Record established (s : kstate) (conn : Z) (c : ipc_connection) (p : Z) (h : ipc_server_handler_config) : Prop := {
  es_conn : conns (Capability.ext s) !! conn = Some c;
  es_config : general_ipc_config (Capability.ext s) !! server_handler_thread c = Some p;
  es_handler : handlers (Capability.ext s) !! p = Some h
}.

(** The handler thread waits for a call; its context is [cs]. *)
Record idle (s : kstate) (conn : Z) (c : ipc_connection) (p : Z) (h : ipc_server_handler_config) (cs : Sched.thread_ctx) (v : Z) : Prop := {
  id_est : established s conn c p h;
  id_free : ipc_lock h = false;
  id_stack : Sched.kernel_stack_state cs = KS_FREE;
  id_run : can_run (sch_of s) (server_handler_thread c) cs v
}.

(** The handler thread serves a call of a thread with the context [ct], in
    address space [v]. *)
Record serving (s : kstate) (conn : Z) (c : ipc_connection) (p : Z) (h : ipc_server_handler_config) (ct : Sched.thread_ctx) (v : Z) : Prop := {
  sv_est : established s conn c p h;
  sv_null : conn ≠ 0;
  sv_locked : ipc_lock h = true;
  sv_active : active_conn h = conn;
  sv_run : can_run (sch_of s) (current_client_thread c) ct v
}.

Lemma grab_idle s conn c p h cs v : idle s conn c p h cs v →
  grab_ipc_lock conn s = Done 0 (put_ext (with_handler p (with_ipc_lock true h)) s).
Proof.
  intros [[Hc Hp Hh] Hf Hk Hr]. pose proof (cr_ctx _ _ _ _ Hr) as Hcs. unfold grab_ipc_lock.
  erewrite bind_Done by (by apply conn_at_ok). erewrite bind_Done by (apply config_of_ok; [exact (thread_of_ctx _ _ _ Hcs)|exact Hp]).
  erewrite bind_Done by (by apply handler_at_ok). rewrite Hf. erewrite bind_Done by (by apply upd_handler_ok).
  unfold wait_stack. erewrite bind_Done; [reflexivity|]. erewrite bind_Done by (apply on_sch_read; by apply Sched.ctx_of_ok).
  by rewrite bool_decide_eq_true_2.
Qed.

Lemma grab_busy s conn c p h : established s conn c p h → is_Some (Sched.threads (sch_of s) !! server_handler_thread c) →
  ipc_lock h = true → grab_ipc_lock conn s = Done (- EAGAIN) s.
Proof.
  intros [Hc Hp Hh] Ht Hl. unfold grab_ipc_lock. erewrite bind_Done by (by apply conn_at_ok).
  erewrite bind_Done by (by apply config_of_ok). erewrite bind_Done by (by apply handler_at_ok). by rewrite Hl.
Qed.

(** The error of [cap_copy] is not seen: the loop never stops early. *)
Lemma send_caps_unchecked g tg caps : ∀ s l b s', send_caps g tg caps s = Done (l, b) s' → b = false.
Proof.
  induction caps as [|cap caps IH]; intros s l b s' E; simpl in E; [by injection E|].
  apply bind_inv in E as (r & s1 & _ & E). rewrite (proj2 (Z.ltb_ge (u64 r) 0)) in E by (apply u64_range).
  apply bind_inv in E as ([l' b'] & s2 & E2 & E). injection E as _ <- _. by eapply IH.
Qed.

(** ** Calls *)

(** What the call stores in the connection, and the argument of the routine. *)
Definition called_conn (t ipc_msg : Z) (c : ipc_connection) : ipc_connection :=
  with_client t (if ipc_msg =? 0 then c else with_msg ipc_msg c).
Definition call_arg (ipc_msg : Z) (c : ipc_connection) : Z := if ipc_msg =? 0 then 0 else msg_in_server c ipc_msg.
Definition busy (conn : Z) (h : ipc_server_handler_config) : ipc_server_handler_config :=
  mk_handler true (ipc_routine_entry h) (ipc_routine_stack h) conn.
Definition released (h : ipc_server_handler_config) : ipc_server_handler_config :=
  mk_handler false (ipc_routine_entry h) (ipc_routine_stack h) 0.

(** The current thread of [me] has a capability for the connection. *)
Definition holds_conn (s : kstate) (r : Sched.cpu) (conn_cap conn : Z) : Prop :=
  ∃ g, tgroup (sch_of s) (Sched.current r) = Some g ∧ Capability.caps_fine 1 s ∧
    Capability.has_cap s g (s32 conn_cap) TYPE_CONNECTION conn.

Lemma get_conn s me r conn_cap conn : Sched.cpus (sch_of s) !! me = Some r → holds_conn s r conn_cap conn →
  conn ≠ 0 ∧ ∃ s1, Capability.ext s1 = Capability.ext s ∧
  (∀ e, obj_put conn (Capability.with_ext e s1) = Done tt (Capability.with_ext e s)) ∧
  ∀ X (k : Z → MI X), (g <- current_cap_group me ;; conn <- obj_get g (s32 conn_cap) TYPE_CONNECTION ;; k conn) s = k conn s1.
Proof.
  intros Hr (g & Hg & Hf & Hc). split; [exact (Capability.has_cap_nonzero 1 s g _ _ conn Hf Hc)|].
  destruct (Capability.obj_get_cap 1 s g (s32 conn_cap) TYPE_CONNECTION conn Hf) as (s1 & E1 & _ & Ee & _ & Hput & _); [lia|done|].
  exists s1. split_and!; try done. intros X k. erewrite bind_Done by (by eapply current_group_ok). by erewrite bind_Done by exact E1.
Qed.

Lemma ext_same {s s1 : kstate} : Capability.ext s1 = Capability.ext s → sch_of s1 = sch_of s.
Proof. intros E. unfold sch_of. by rewrite E. Qed.

Lemma established_ext s s1 conn c p h : Capability.ext s1 = Capability.ext s → established s conn c p h → established s1 conn c p h.
Proof. intros E [? ? ?]. split; by rewrite E. Qed.

Lemma idle_ext s s1 conn c p h cs v : Capability.ext s1 = Capability.ext s → idle s conn c p h cs v → idle s1 conn c p h cs v.
Proof. intros E [He ? ? ?]. split; [by eapply established_ext|done|done|]. by rewrite (ext_same E). Qed.

(** The call has no message, and then no capability is looked at, or it transfers
    none. *)
Lemma ipc_call_spec s me r ct conn_cap ipc_msg cap_num msg conn c p h cs v :
  idle s conn c p h cs v → on_cpu (sch_of s) me r ct → server_handler_thread c ≠ Sched.current r → holds_conn s r conn_cap conn →
  ipc_msg = 0 ∨ cap_num = 0 →
  let e := with_conn conn (called_conn (Sched.current r) ipc_msg c) (with_handler p (busy conn h) (Capability.ext s)) in
  ∃ x, sys_ipc_call me conn_cap ipc_msg cap_num msg s = Away (put_ext (λ _, with_threads_of x e) s) ∧
  handed (sch_of s) x me r (server_handler_thread c) (serving_ctx h (call_arg ipc_msg c) (client_badge c) ct cs) v (Sched.with_state TS_WAITING ct).
Proof.
  intros I O N Hc Hn e. destruct (get_conn s me r conn_cap conn (oc_cpu _ _ _ _ O) Hc) as (Nc & s1 & Ee & Hput & Eget).
  unfold sys_ipc_call. rewrite Eget. rewrite (proj2 (Z.eqb_neq _ 0)) by done. erewrite bind_Done by reflexivity.
  pose proof (idle_ext s s1 _ _ _ _ _ _ Ee I) as I1. erewrite bind_Done by (by eapply grab_idle).
  cbn [negb Z.eqb]. destruct I1 as [[Hcn Hp Hh] Hf Hk Hr].
  set (s2 := put_ext (with_handler p (with_ipc_lock true h)) s1). rewrite <- (ext_same Ee) in O. rewrite <- (ext_same Ee).
  destruct (Z.eqb_spec ipc_msg 0) as [->|Nm].
  - destruct (thread_migrate_spec s2 s me r ct conn c 0 p (with_ipc_lock true h) cs v) as (x & E & Hx);
      [exact O|exact Hcn|exact Hp|apply lookup_insert_eq|exact Hr|exact N|exact Hput|].
    exists x. split; [|exact Hx]. apply bind_Away, bind_Away. rewrite E. unfold e, s2, put_ext, with_conn, with_handler. simpl.
    by rewrite Ee, insert_insert_eq.
  - destruct Hn as [?| ->]; [done|]. set (s3 := put_ext (with_conn conn (with_msg ipc_msg c)) s2).
    destruct (thread_migrate_spec s3 s me r ct conn (with_msg ipc_msg c) (msg_in_server c ipc_msg) p (with_ipc_lock true h) cs v) as (x & E & Hx);
      [exact O|apply lookup_insert_eq|exact Hp|apply lookup_insert_eq|exact Hr|exact N|exact Hput|].
    exists x. split.
    + erewrite bind_Done by reflexivity. erewrite bind_Done by reflexivity. cbn [Z.ltb Z.compare].
      erewrite bind_Done by (apply upd_conn_ok; exact Hcn). erewrite bind_Done by (apply conn_at_ok, lookup_insert_eq).
      apply bind_Away. etransitivity; [exact E|]. unfold e, s3, s2, put_ext, with_conn, with_handler, called_conn. simpl.
      by rewrite Ee, !insert_insert_eq, (proj2 (Z.eqb_neq ipc_msg 0)).
    + unfold call_arg. rewrite (proj2 (Z.eqb_neq ipc_msg 0)) by done. exact Hx.
Qed.

(** Only a return with one capability transfers it. *)
Lemma send_none me conn cap_num msg again c s : conns (Capability.ext s) !! conn = Some c → cap_num ≠ 1 →
  (if negb (cap_num =? 0) then ipc_send_cap_to_client me conn cap_num msg again else ret tt) s = Done tt s.
Proof.
  intros Hc Nn. destruct (negb _); [|done]. unfold ipc_send_cap_to_client. erewrite bind_Done by (by apply conn_at_ok).
  by rewrite (proj2 (Z.eqb_neq cap_num 1)).
Qed.

Lemma ipc_return_spec s me r cs retval cap_num msg again conn c p h ct v :
  serving s conn c p h ct v → on_cpu (sch_of s) me r cs → Sched.current r = server_handler_thread c →
  current_client_thread c ≠ server_handler_thread c → cap_num ≠ 1 →
  ∃ x, sys_ipc_return me retval cap_num msg again s = Away (put_ext (λ e, with_threads_of x (with_handler p (released h) e)) s) ∧
  handed (sch_of s) x me r (current_client_thread c) (Sched.with_ec (<[Sched.X0 := retval]>) ct) v cs.
Proof.
  intros [[Hc Hp Hh] Nc Hl Ha Hr] O Er N Nn. rewrite <- Er in *.
  set (x := Sched.put_ctx (current_client_thread c) (Sched.with_ec (<[Sched.X0 := retval]>)) (sch_of s)).
  set (s1 := put_ext (λ e, with_threads_of x (with_handler p (released h) e)) s).
  destruct (switch_and_eret_spec s1 me r cs (current_client_thread c) (Sched.with_ec (<[Sched.X0 := retval]>) ct) v)
    as (y & E & HD); [by apply put_ctx_cpu|by apply put_ctx_run|done|].
  exists y. split.
  - unfold sys_ipc_return. erewrite bind_Done by (apply cur_thread_ok, O).
    erewrite bind_Done by (apply config_of_ok; [exact (thread_of_ctx _ _ _ (oc_ctx _ _ _ _ O))|exact Hp]).
    erewrite bind_Done by (by apply handler_at_ok). rewrite Ha, (proj2 (Z.eqb_neq conn 0)) by done. erewrite bind_Done by reflexivity.
    erewrite bind_Done by (by apply upd_handler_ok). erewrite bind_Done by (apply conn_at_ok; exact Hc).
    erewrite bind_Done by (eapply send_none; [exact Hc|done]). erewrite bind_Done by (apply upd_handler_ok, lookup_insert_eq).
    apply bind_Away. unfold thread_migrate_to_client.
    erewrite bind_Done by (eapply upd_ctx_step; exact (cr_ctx _ _ _ _ Hr)). apply bind_Away. etransitivity; [|exact E].
    unfold s1, put_ext, with_handler. simpl. by rewrite insert_insert_eq.
  - exact (handed_put_ctx _ _ _ _ _ _ _ _ _ HD).
Qed.

(** Thread [t], with the context [c], is a user thread in address space [v]. *)
Record in_space (x : sstate H K) (t : Z) (c : Sched.thread_ctx) (v : Z) : Prop := {
  is_type : Sched.type c = Sched.TYPE_USER ∨ Sched.type c = Sched.TYPE_SHADOW;
  is_vm : Sched.tvm x t = Some v;
  is_space : v ≠ 0
}.

Lemma left_type r c : Sched.type (Sched.left_by r c) = Sched.type c.
Proof. unfold Sched.left_by. by destruct (Sched.is_user c). Qed.
Lemma left_state r c : Sched.state (Sched.left_by r c) = Sched.state c.
Proof. unfold Sched.left_by. by destruct (Sched.is_user c). Qed.
Lemma left_stack r c : Sched.kernel_stack_state (Sched.left_by r c) = KS_FREE.
Proof. done. Qed.

(** The thread that was left can run again. *)
Lemma left_can_run x y me r t c v old c0 v' : handed x y me r t c v old → on_cpu x me r c0 → in_space x (Sched.current r) old v' →
  Sched.state old ≠ Sched.TS_READY → can_run y (Sched.current r) (Sched.left_by r old) v'.
Proof.
  intros HD O [I1 I2 I3] Hs. split; [apply HD|apply O|apply O|by rewrite left_state|by rewrite left_type| |done].
  by rewrite (hd_vm _ _ _ _ _ _ _ _ HD).
Qed.

(** The CPU runs the new thread. *)
Lemma handed_on_cpu x y me r t c v old c0 : handed x y me r t c v old → on_cpu x me r c0 → t ≠ 0 → t ≠ Sched.THREAD_ITSELF →
  on_cpu y me (Sched.mk_cpu t (Sched.fpu_owner r) true true (Sched.fpu_regs r) (Sched.tls_base c) v) (Sched.entered me c).
Proof.
  intros HD O N0 N1. split; try done; [|apply O|apply HD]. by rewrite (hd_cpus _ _ _ _ _ _ _ _ HD), lookup_insert_eq.
Qed.

Lemma ipc_call_serves s me r ct conn_cap ipc_msg cap_num msg conn c p h cs v vc :
  idle s conn c p h cs v → on_cpu (sch_of s) me r ct → in_space (sch_of s) (Sched.current r) ct vc →
  server_handler_thread c ≠ Sched.current r → holds_conn s r conn_cap conn → ipc_msg = 0 ∨ cap_num = 0 →
  ∃ s', sys_ipc_call me conn_cap ipc_msg cap_num msg s = Away s' ∧ Capability.with_ext (Capability.ext s) s' = s ∧
  serving s' conn (called_conn (Sched.current r) ipc_msg c) p (busy conn h) (Sched.left_by r (Sched.with_state TS_WAITING ct)) vc ∧
  handed (sch_of s) (sch_of s') me r (server_handler_thread c) (serving_ctx h (call_arg ipc_msg c) (client_badge c) ct cs) v
    (Sched.with_state TS_WAITING ct).
Proof.
  intros I O S N Hc Hn. destruct (ipc_call_spec s me r ct conn_cap ipc_msg cap_num msg conn c p h cs v I O N Hc Hn) as (x & E & HD).
  eexists. split; [exact E|]. split; [apply put_ext_caps|]. split; [|exact HD].
  destruct (get_conn s me r conn_cap conn (oc_cpu _ _ _ _ O) Hc) as (Nc & _). destruct I as [[H1 H2 H3] _ _ _].
  split; [|done|done|done|].
  - split; simpl; [apply lookup_insert_eq| |apply lookup_insert_eq]. unfold called_conn. by destruct (ipc_msg =? 0).
  - change (can_run x (Sched.current r) (Sched.left_by r (Sched.with_state TS_WAITING ct)) vc).
    eapply left_can_run; [exact HD|exact O|by destruct S|done].
Qed.

Lemma ipc_return_idles s me r cs retval cap_num msg again conn c p h ct v vs :
  serving s conn c p h ct v → on_cpu (sch_of s) me r cs → in_space (sch_of s) (Sched.current r) cs vs → Sched.state cs ≠ Sched.TS_READY →
  Sched.current r = server_handler_thread c → current_client_thread c ≠ server_handler_thread c → cap_num ≠ 1 →
  ∃ s', sys_ipc_return me retval cap_num msg again s = Away s' ∧ Capability.with_ext (Capability.ext s) s' = s ∧
  idle s' conn c p (released h) (Sched.left_by r cs) vs ∧
  handed (sch_of s) (sch_of s') me r (current_client_thread c) (Sched.with_ec (<[Sched.X0 := retval]>) ct) v cs.
Proof.
  intros V O S Hs Er N Nn. destruct (ipc_return_spec s me r cs retval cap_num msg again conn c p h ct v V O Er N Nn) as (x & E & HD).
  eexists. split; [exact E|]. split; [apply put_ext_caps|]. split; [|exact HD]. destruct V as [[H1 H2 H3] _ _ _ _].
  split; [|done|done|].
  - split; simpl; [done|done|apply lookup_insert_eq].
  - rewrite <- Er. exact (left_can_run _ _ _ _ _ _ _ _ _ _ HD O S Hs).
Qed.

(** The reference to the connection is given back. *)
Lemma put_back (s s1 : kstate) conn f : Capability.ext s1 = Capability.ext s →
  (∀ e, obj_put conn (Capability.with_ext e s1) = Done tt (Capability.with_ext e s)) →
  obj_put conn (put_ext f s1) = Done tt (put_ext f s).
Proof. intros E Hp. unfold put_ext. by rewrite Hp, E. Qed.

Lemma put_ext_id (s : kstate) : put_ext (λ e, e) s = s.
Proof. by destruct s. Qed.

Lemma ipc_call_busy s me r conn_cap ipc_msg cap_num msg conn c p h :
  established s conn c p h → is_Some (Sched.threads (sch_of s) !! server_handler_thread c) → ipc_lock h = true →
  Sched.cpus (sch_of s) !! me = Some r → holds_conn s r conn_cap conn →
  sys_ipc_call me conn_cap ipc_msg cap_num msg s = Done (- EAGAIN) s.
Proof.
  intros He Ht Hl Hr Hc. destruct (get_conn s me r conn_cap conn Hr Hc) as (Nc & s1 & Ee & Hput & Eget).
  unfold sys_ipc_call. rewrite Eget, (proj2 (Z.eqb_neq _ 0)) by done. erewrite bind_Done by reflexivity.
  erewrite bind_Done by (eapply grab_busy; [by eapply established_ext|by rewrite (ext_same Ee)|done]).
  change (negb (- EAGAIN =? 0)) with true. cbv iota. pose proof (put_back s s1 conn (λ e, e) Ee Hput) as Ep. rewrite !put_ext_id in Ep. by erewrite bind_Done by exact Ep.
Qed.

Lemma ipc_call_too_many s me r conn_cap ipc_msg cap_num msg conn c p h cs v :
  idle s conn c p h cs v → Sched.cpus (sch_of s) !! me = Some r → holds_conn s r conn_cap conn → ipc_msg ≠ 0 → MAX_CAP_TRANSFER ≤ cap_num →
  sys_ipc_call me conn_cap ipc_msg cap_num msg s = Done (- EINVAL) (put_ext (with_handler p (with_ipc_lock true h)) s).
Proof.
  intros I Hr Hc Nm Hn. unfold MAX_CAP_TRANSFER in Hn. destruct (get_conn s me r conn_cap conn Hr Hc) as (Nc & s1 & Ee & Hput & Eget).
  unfold sys_ipc_call. rewrite Eget, (proj2 (Z.eqb_neq _ 0)) by done. erewrite bind_Done by reflexivity.
  erewrite bind_Done by (eapply grab_idle; by eapply idle_ext). cbn [negb Z.eqb]. rewrite (proj2 (Z.eqb_neq ipc_msg 0)) by done.
  erewrite bind_Done by reflexivity. unfold ipc_send_cap. rewrite (proj2 (Z.eqb_neq cap_num 0)) by lia. cbn [negb].
  rewrite (proj2 (Z.leb_le MAX_CAP_TRANSFER cap_num)) by (unfold MAX_CAP_TRANSFER; lia). erewrite bind_Done by reflexivity.
  change (- EINVAL <? 0) with true. cbv iota. by erewrite bind_Done by (by apply put_back).
Qed.

(** ** Registration *)

Definition vm_of (s : kstate) : VmRegion.vstate B := Memory.vm (ms (Capability.ext s)).
Definition with_vm_of (x : VmRegion.vstate B) (e : ipc_state) : ipc_state := with_ms (Memory.with_vm x (ms e)) e.

Lemma on_ms_Halt {X} (m : M (Capability.kstate (A := A) (E := mstate)) X) s :
  m (Capability.retype (ms (Capability.ext s)) s) = Halt → on_ms m s = Halt.
Proof. intros E. unfold on_ms, zoom. fold (Capability.retype (ms (Capability.ext s)) s). by rewrite E. Qed.

Lemma on_ms_vm {X} (m : M (Capability.kstate (A := A) (E := mstate)) X) s a x :
  m (Capability.retype (ms (Capability.ext s)) s) = Done a (Memory.put_vm x (Capability.retype (ms (Capability.ext s)) s)) →
  on_ms m s = Done a (put_ext (with_vm_of x) s).
Proof. intros E. unfold on_ms, zoom. fold (Capability.retype (ms (Capability.ext s)) s). by rewrite E. Qed.

Lemma register_cb_at_ok s p c : register_cbs (Capability.ext s) !! p = Some c → register_cb_at p s = Done c s.
Proof. intros E. unfold register_cb_at. erewrite bind_Done by apply get_ext. by rewrite E. Qed.

Lemma upd_register_cb_ok s p c f : register_cbs (Capability.ext s) !! p = Some c →
  upd_register_cb p f s = Done tt (put_ext (with_register_cb p (f c)) s).
Proof. intros E. unfold upd_register_cb. by erewrite bind_Done by (by apply register_cb_at_ok). Qed.

Lemma kmalloc_used_spec n (s s' : kstate) size : Capability.caps_fine n s → 0 ≤ size ≤ max_size (S := A) → Capability.al s' = Capability.al s →
  match al_alloc size (Capability.al s) with
  | Halt => kmalloc_used size s' = Halt
  | Done p a => if p =? 0 then kmalloc_used size s' = Fault
      else kmalloc_used size s' = Done p (Capability.with_al a s') ∧ Capability.caps_fine n (Capability.with_al a s)
  | _ => False
  end.
Proof.
  intros Hf Hs Ea. unfold kmalloc_used, bind, Capability.on_al, zoom. rewrite Ea.
  destruct (Capability.kmalloc_fine n s size Hf Hs) as [E|(p & a & E & Hf')]; unfold Capability.on_al, zoom in E;
    destruct (al_alloc size (Capability.al s)) as [q a'| | | |]; try done.
  injection E as -> Ea'. destruct (p =? 0); [done|]. split; [done|]. by rewrite Ea'.
Qed.

(** The register [i] of a thread. *)
Definition reg (i : Z) (c : Sched.thread_ctx) : Z := default 0 (Sched.ec c !! i).

(** The registration thread answers: CPU [me] runs it, its configuration is
    [config], the connection is for the client [current_client_thread c], and [hd]
    is the thread that will serve the calls. *)
Record registering (s : kstate) (me : Z) (r : Sched.cpu) (cs : Sched.thread_ctx) (config : Z) (cb : ipc_server_register_cb_config)
    (conn : Z) (c : ipc_connection) (handler_cap hd : Z) (ch ct : Sched.thread_ctx) (v g : Z) : Prop := {
  rg_cpu : on_cpu (sch_of s) me r cs;
  rg_group : tgroup (sch_of s) (Sched.current r) = Some g;
  rg_config : general_ipc_config (Capability.ext s) !! Sched.current r = Some config;
  rg_cb : register_cbs (Capability.ext s) !! config = Some cb;
  rg_conn : conns (Capability.ext s) !! conn = Some c;
  rg_client : can_run (sch_of s) (current_client_thread c) ct v;
  rg_other : current_client_thread c ≠ Sched.current r;
  rg_handler : Sched.tctx (sch_of s) hd = Some ch;
  rg_apart : hd ≠ current_client_thread c;
  rg_fine : Capability.caps_fine 3 s;
  rg_conn_cap : Capability.has_cap s g (conn_cap_in_server cb) TYPE_CONNECTION conn;
  rg_handler_cap : Capability.has_cap s g (s32 handler_cap) TYPE_THREAD hd
}.

(** The connection and the handler's configuration after the registration. *)
Definition finished (addr hd : Z) (c : ipc_connection) : ipc_connection :=
  mk_conn 0 hd (client_badge c) (user_ipc_msg c) (mk_conn_shm (client_shm_uaddr (shm c)) addr (shm_size (shm c))).
Definition new_handler (ch : Sched.thread_ctx) : ipc_server_handler_config :=
  mk_handler false (reg Sched.ELR_EL1 ch) (reg Sched.SP_EL0 ch) garbage.

(** Up to the mapping of the shared memory; [s3] is the state then, and [obj_put]
    of the connection leads to [s4] from there. *)
Lemma register_handler s me r cs config cb conn c handler_cap hd ch ct v g addr :
  registering s me r cs config cb conn c handler_cap hd ch ct v g → SIZEOF_HANDLER_CONFIG ≤ max_size (S := A) →
  let x := Sched.put_ctx (current_client_thread c) (Sched.with_ec (<[Sched.X0 := u64 (conn_cap_in_client cb)]>)) (sch_of s) in
  let m := sys_ipc_register_cb_return me handler_cap addr in
  match al_alloc SIZEOF_HANDLER_CONFIG (Capability.al s) with
  | Halt => m s = Halt
  | Done p a => if p =? 0 then m s = Fault else ∃ s1,
  let e := with_handler p (new_handler ch) (with_config hd p (with_threads_of x (Capability.ext s))) in
  let s3 := Capability.with_al a (Capability.with_ext e s1) in
  Capability.caps_fine 2 s3 ∧ (∀ g' i' ty' x', Capability.has_cap s g' i' ty' x' → Capability.has_cap s3 g' i' ty' x') ∧
  (∀ e', obj_put conn (Capability.with_ext e' s3) = Done tt (Capability.with_al a (Capability.with_ext e' s))) ∧
  m s = (cb <- register_cb_at config ;;
    r <- on_ms (Memory.map_pmo_in_current_cap_group me (shm_cap_in_server cb) addr (Z.lor VMR_READ VMR_WRITE)) ;;
    BUG_ON (negb (r =? 0)) ;;
    upd_conn conn (finished addr hd) ;;
    obj_put conn ;;
    upd_register_cb config (with_register_lock false) ;;
    switch_and_eret me (current_client_thread c)) s3
  | _ => False
  end.
Proof.
  intros [O Hg Hcf Hcb Hc Hct Nc Hh Nh Hf C1 C2] HM x m. unfold m, sys_ipc_register_cb_return.
  erewrite bind_Done by (apply cur_thread_ok, O).
  erewrite bind_Done by (apply config_of_ok; [exact (thread_of_ctx _ _ _ (oc_ctx _ _ _ _ O))|exact Hcf]).
  erewrite bind_Done by (eapply current_group_ok; [apply O|exact Hg]). erewrite bind_Done by (by apply register_cb_at_ok).
  destruct (Capability.obj_get_cap 3 s g (conn_cap_in_server cb) TYPE_CONNECTION conn Hf) as (s1 & E1 & F1 & X1 & K1 & _ & P1 & A1); [lia|exact C1|].
  erewrite bind_Done by exact E1. rewrite (proj2 (Z.eqb_neq conn 0)) by (exact (Capability.has_cap_nonzero _ s _ _ _ _ Hf C1)).
  erewrite bind_Done by reflexivity. erewrite bind_Done by (apply conn_at_ok; by rewrite X1).
  erewrite bind_Done by (eapply upd_ctx_step; rewrite (ext_same X1); exact (cr_ctx _ _ _ _ Hct)). rewrite (ext_same X1). fold x.
  set (s1' := put_ext (with_threads_of x) s1).
  assert (Capability.caps_fine (3 - 1) s1') as F1' by (by apply Capability.caps_fine_ext).
  destruct (Capability.obj_get_cap (3 - 1) s1' g (s32 handler_cap) TYPE_THREAD hd F1') as (s2 & E2 & F2 & X2 & K2 & _ & P2 & A2);
    [lia|by apply K1|].
  erewrite bind_Done by exact E2. rewrite (proj2 (Z.eqb_neq hd 0)) by (exact (Capability.has_cap_nonzero _ s _ _ _ _ Hf C2)).
  erewrite bind_Done by reflexivity.
  pose proof (kmalloc_used_spec _ s1' s2 SIZEOF_HANDLER_CONFIG F1' ltac:(done) A2) as HK.
  change (Capability.al s1') with (Capability.al s1) in HK. rewrite A1 in HK.
  destruct (al_alloc SIZEOF_HANDLER_CONFIG (Capability.al s)) as [p a| | | |]; try done; [|by apply bind_Halt].
  destruct (p =? 0); [unfold bind; by rewrite HK|]. destruct HK as [E F3].
  erewrite bind_Done by exact E. exists s1. split; [exact (Capability.caps_fine_ext _ (Capability.with_al a s1') _ F3)|].
  split; [intros; by apply K1|].
  split; [intros e'; exact (P1 a e')|].
  erewrite bind_Done by apply modify_ext.
  assert (∀ i, on_sch (Sched.get_reg hd i) (put_ext (with_config hd p) (Capability.with_al a s2)) =
    Done (reg i ch) (put_ext (with_config hd p) (Capability.with_al a s2))) as HR.
  { intros i. apply on_sch_read. unfold Sched.get_reg. erewrite bind_Done; [reflexivity|]. apply Sched.ctx_of_ok.
    unfold sch_of. simpl. rewrite X2. exact (eq_trans (put_ctx_other _ _ _ _ Nh) Hh). }
  erewrite bind_Done by apply HR. erewrite bind_Done by apply HR. erewrite bind_Done by apply modify_ext.
  erewrite bind_Done by exact (P2 a (with_handler p (new_handler ch) (with_config hd p (Capability.ext s2)))).
  rewrite X2. unfold s1', put_ext. simpl. by rewrite X1.
Qed.

Lemma register_cb_return_spec s me r cs config cb conn c handler_cap hd ch ct v g addr pmo sp own D V o n :
  registering s me r cs config cb conn c handler_cap hd ch ct v g → SIZEOF_HANDLER_CONFIG ≤ max_size (S := A) →
  Capability.has_cap s g (s32 (shm_cap_in_server cb)) TYPE_PMO pmo → Capability.has_cap s g Capability.VMSPACE_OBJ_ID Capability.TYPE_VMSPACE sp →
  VmRegion.space_ok false sp own D (vm_of s) V → VmRegion.SIZEOF_VMREGION ≤ max_size (S := B) →
  VmRegion.pmos (vm_of s) !! pmo = Some o → n = VmRegion.new_region addr (VmRegion.p_size o) (Z.lor VMR_READ VMR_WRITE) pmo o → VmRegion.region_ok n →
  0 ≤ VmRegion.p_size o ≤ VmRegion.size n → 0 ≤ VmRegion.p_start o → VmRegion.p_start o + VmRegion.p_size o + PAGE_SIZE ≤ 2 ^ 48 →
  let m := sys_ipc_register_cb_return me handler_cap addr in
  match al_alloc SIZEOF_HANDLER_CONFIG (Capability.al s) with
  | Halt => m s = Halt
  | Done p a => if p =? 0 then m s = Fault else
      match VmRegion.vmspace_map_range sp addr (VmRegion.p_size o) (Z.lor VMR_READ VMR_WRITE) pmo (vm_of s) with
      | Halt => m s = Halt
      | Done ret y => if negb (ret =? 0) then m s = Halt else ∃ s', m s = Away s' ∧ Capability.with_ext (Capability.ext s) s' = Capability.with_al a s ∧
          established s' conn (finished addr hd c) p (new_handler ch) ∧
          register_cbs (Capability.ext s') !! config = Some (with_register_lock false cb) ∧
          vm_of s' = y ∧ Memory.map_effect sp own D (vm_of s) V n o (- Memory.EPERM) 0 y ∧
          handed (sch_of s) (sch_of s') me r (current_client_thread c) (Sched.with_ec (<[Sched.X0 := u64 (conn_cap_in_client cb)]>) ct) v cs
      | _ => False
      end
  | _ => False
  end.
Proof.
  intros R HM Hpc Hvc S HB Ho En Rn H1 H2 H3 m.
  pose proof (register_handler s me r cs config cb conn c handler_cap hd ch ct v g addr R HM) as HR. fold m in HR.
  destruct (al_alloc _ _) as [p a| | | |]; try done. destruct (p =? 0); [done|]. destruct HR as (s1 & F3 & K3 & P3 & E).
  destruct R as [O Hg Hcf Hcb Hc Hct Nc Hh Nh Hf C1 C2].
  set (x := Sched.put_ctx (current_client_thread c) _ (sch_of s)) in *. set (s3 := Capability.with_al a _) in *.
  erewrite bind_Done in E by (apply register_cb_at_ok; exact Hcb).
  pose proof (Memory.map_pmo_run (Capability.retype (ms (Capability.ext s3)) s3) me g (shm_cap_in_server cb) addr (Z.lor VMR_READ VMR_WRITE) pmo sp o) as HM3.
  change (Memory.vm (Capability.ext (Capability.retype (ms (Capability.ext s3)) s3))) with (vm_of s) in HM3.
  assert (Memory.in_group (Capability.retype (ms (Capability.ext s3)) s3) me g) as Hin.
  { unfold tgroup in Hg. destruct (_ !! Sched.current r) as [th|] eqn:Et; [|done]. injection Hg as <-. exists r, th.
    split; [apply O|]. split; [|done]. exact (eq_trans (lookup_alter_ne _ _ _ _ Nc) Et). }
  specialize (HM3 Hin ltac:(by apply Capability.retype_fine) ltac:(by apply Capability.retype_cap, K3) ltac:(by apply Capability.retype_cap, K3) Ho).
  destruct (Memory.map_effect_spec sp own D _ V addr (VmRegion.p_size o) _ pmo o n S HB Ho En Rn H1 H2 H3) as [Em|(ret & y & Em & HE)];
    rewrite Em in HM3 |- *; [rewrite E; by apply bind_Halt, on_ms_Halt|].
  erewrite bind_Done in E by (by apply on_ms_vm). destruct (Z.eqb_spec ret 0) as [->|N3]; [|by rewrite E].
  erewrite bind_Done in E by reflexivity. erewrite bind_Done in E by (apply upd_conn_ok; exact Hc).
  erewrite bind_Done in E by apply P3. erewrite bind_Done in E by (apply upd_register_cb_ok; exact Hcb).
  match type of E with _ = switch_and_eret _ _ ?s4 => destruct (switch_and_eret_spec s4 me r cs (current_client_thread c)
    (Sched.with_ec (<[Sched.X0 := u64 (conn_cap_in_client cb)]>) ct) v) as (z & Ez & HD) end;
    [by apply put_ctx_cpu|by apply put_ctx_run|done|].
  rewrite Ez in E. eexists. split; [exact E|]. split; [by destruct s|]. split; [split; simpl; apply lookup_insert_eq|].
  split; [apply lookup_insert_eq|]. split; [done|]. split; [|exact (handed_put_ctx _ _ _ _ _ _ _ _ _ HD)].
  destruct HE as [[? _]|[_ HE]]; [done|]. by right.
Qed.

(** C2: a call on an idle connection by a thread that has a capability for it.
    With [MAX_CAP_TRANSFER] or more capabilities and a message it returns [-EINVAL],
    and the lock of the handler thread, which it took, stays held.  A call without a
    message, or with a message and no capabilities, goes to the handler thread: the
    CPU runs that thread in the address space of the server, from the routine's entry
    and on its stack, with the address of the message in the server and the badge of
    the client as arguments and with the client's scheduling context; the client
    waits; the handler is marked busy with this connection and this client; the
    capabilities and all other threads are as before.  (Calls that transfer one to
    seven capabilities are not covered.) *)
Theorem ipc_call_ok s me r ct conn_cap ipc_msg cap_num msg conn c p h cs v vc :
  idle s conn c p h cs v → on_cpu (sch_of s) me r ct → in_space (sch_of s) (Sched.current r) ct vc →
  server_handler_thread c ≠ Sched.current r → holds_conn s r conn_cap conn → ipc_msg = 0 ∨ cap_num = 0 ∨ MAX_CAP_TRANSFER ≤ cap_num →
  if decide (ipc_msg ≠ 0 ∧ MAX_CAP_TRANSFER ≤ cap_num)
  then sys_ipc_call me conn_cap ipc_msg cap_num msg s = Done (- EINVAL) (put_ext (with_handler p (with_ipc_lock true h)) s)
  else ∃ s', sys_ipc_call me conn_cap ipc_msg cap_num msg s = Away s' ∧ Capability.with_ext (Capability.ext s) s' = s ∧
    serving s' conn (called_conn (Sched.current r) ipc_msg c) p (busy conn h) (Sched.left_by r (Sched.with_state TS_WAITING ct)) vc ∧
    handed (sch_of s) (sch_of s') me r (server_handler_thread c) (serving_ctx h (call_arg ipc_msg c) (client_badge c) ct cs) v
      (Sched.with_state TS_WAITING ct).
Proof.
  intros I O S N Hc Hn. destruct (decide _) as [[Nm L]|Nd].
  - eapply ipc_call_too_many; [exact I|apply O|done..].
  - apply ipc_call_serves; try done. unfold MAX_CAP_TRANSFER in *. destruct (decide (ipc_msg = 0)); [by left|right]. destruct Hn as [?|[?|?]]; [done|done|]. by destruct Nd.
Qed.

(** What the time between a call and its return must leave alone: the connection, the
    handler's configuration and the waiting client.  Registers and memory of the
    server, the capabilities, other threads and other CPUs may change. *)
Record undisturbed (s s' : kstate) (conn hd p client : Z) : Prop := {
  ud_conn : conns (Capability.ext s') !! conn = conns (Capability.ext s) !! conn;
  ud_config : general_ipc_config (Capability.ext s') !! hd = general_ipc_config (Capability.ext s) !! hd;
  ud_handler : handlers (Capability.ext s') !! p = handlers (Capability.ext s) !! p;
  ud_client : Sched.tctx (sch_of s') client = Sched.tctx (sch_of s) client;
  ud_space : Sched.tvm (sch_of s') client = Sched.tvm (sch_of s) client
}.

(** The context of a client that called on a CPU with the registers [r], when it runs
    again on CPU [me] with the result [v]. *)
Definition resumed (me v : Z) (r : Sched.cpu) (c : Sched.thread_ctx) : Sched.thread_ctx :=
  Sched.mk_ctx (<[Sched.X0 := v]> (Sched.ec c)) (Sched.kernel_stack c) (Sched.fpu_state c) (Sched.fpu_area c) (Sched.tpidr r)
    (Sched.sc c) (Sched.budget c) (Sched.type c) Sched.TS_RUNNING (Sched.prio c) (Sched.affinity c) me Sched.KS_LOCKED.

Lemma serving_undisturbed s s' conn c p h ct v : serving s conn c p h ct v →
  undisturbed s s' conn (server_handler_thread c) p (current_client_thread c) → serving s' conn c p h ct v.
Proof.
  intros [[H1 H2 H3] H4 H5 H6 [R1 R2 R3 R4 R5 R6 R7]] [U1 U2 U3 U4 U5].
  split; [split; congruence|done|done|done|split; congruence].
Qed.

Lemma entered_resumed me v r ct x : Sched.type ct = Sched.TYPE_USER ∨ Sched.type ct = Sched.TYPE_SHADOW →
  Sched.entered me (Sched.with_ec (<[Sched.X0 := v]>) (Sched.left_by r (Sched.with_state x ct))) = resumed me v r ct.
Proof.
  intros Ht. unfold Sched.left_by. assert (Sched.is_user (Sched.with_state x ct) = true) as -> by (unfold Sched.is_user; simpl; by destruct Ht as [-> | ->]).
  done.
Qed.

(** C1: a call that transfers no capabilities (or has no message) and the return of the
    handler thread.  After the call the CPU runs the handler thread.  Whatever the
    system does then, as long as the connection, the handler's configuration and the
    waiting client are left alone: when the handler thread, on this or another CPU,
    returns without a capability (any count but 1 transfers none), that CPU goes back
    to the client, in its address space and with its TLS base; the context of the
    client is the one it called with, except for the result in its first register, the
    CPU and the saved TLS base, and it runs.  The connection is idle again, so that the
    next call succeeds; neither the call nor the return changes the capabilities or
    another thread. *)
Theorem ipc_roundtrip s me r ct conn_cap ipc_msg cap_num msg conn c p h cs v vc :
  idle s conn c p h cs v → on_cpu (sch_of s) me r ct → in_space (sch_of s) (Sched.current r) ct vc →
  server_handler_thread c ≠ Sched.current r → holds_conn s r conn_cap conn → ipc_msg = 0 ∨ cap_num = 0 →
  ∃ s1, sys_ipc_call me conn_cap ipc_msg cap_num msg s = Away s1 ∧ Capability.with_ext (Capability.ext s) s1 = s ∧
  on_cpu (sch_of s1) me (Sched.mk_cpu (server_handler_thread c) (Sched.fpu_owner r) true true (Sched.fpu_regs r) (Sched.tls_base cs) v)
    (Sched.entered me (serving_ctx h (call_arg ipc_msg c) (client_badge c) ct cs)) ∧
  (∀ u, u ≠ server_handler_thread c → u ≠ Sched.current r → Sched.tctx (sch_of s1) u = Sched.tctx (sch_of s) u) ∧
  ∀ s1' me' r' cs' v' retval cap_num' msg' again, undisturbed s1 s1' conn (server_handler_thread c) p (Sched.current r) →
  on_cpu (sch_of s1') me' r' cs' → Sched.current r' = server_handler_thread c → in_space (sch_of s1') (server_handler_thread c) cs' v' →
  Sched.state cs' ≠ Sched.TS_READY → cap_num' ≠ 1 →
  ∃ s2, sys_ipc_return me' retval cap_num' msg' again s1' = Away s2 ∧ Capability.with_ext (Capability.ext s1') s2 = s1' ∧
  idle s2 conn (called_conn (Sched.current r) ipc_msg c) p (released h) (Sched.left_by r' cs') v' ∧
  on_cpu (sch_of s2) me' (Sched.mk_cpu (Sched.current r) (Sched.fpu_owner r') true true (Sched.fpu_regs r') (Sched.tpidr r) vc) (resumed me' retval r ct) ∧
  ∀ u, u ≠ server_handler_thread c → u ≠ Sched.current r → Sched.tctx (sch_of s2) u = Sched.tctx (sch_of s1') u.
Proof.
  intros I O S N Hc Hn. destruct (ipc_call_serves s me r ct conn_cap ipc_msg cap_num msg conn c p h cs v vc I O S N Hc Hn) as (s1 & E1 & X1 & V & HD).
  pose proof (id_run _ _ _ _ _ _ _ I) as [_ R2 R3 _ _ _ _]. exists s1. split; [done|]. split; [done|].
  split; [exact (handed_on_cpu _ _ _ _ _ _ _ _ ct HD O R2 R3)|]. split; [exact (hd_others _ _ _ _ _ _ _ _ HD)|].
  intros s1' me' r' cs' v' retval cap_num' msg' again U O1 Er S1 Ns Nn. set (c1 := called_conn _ _ c) in *.
  assert (server_handler_thread c1 = server_handler_thread c) as Ec1 by (unfold c1, called_conn; by destruct (ipc_msg =? 0)).
  assert (current_client_thread c1 = Sched.current r) as Ec2 by (unfold c1, called_conn; by destruct (ipc_msg =? 0)).
  apply (serving_undisturbed s1 s1') in V; [|by rewrite Ec1, Ec2]. rewrite <- Er in S1.
  destruct (ipc_return_idles s1' me' r' cs' retval cap_num' msg' again conn c1 p (busy conn h) _ vc v' V O1 S1 Ns) as (s2 & E2 & X2 & I2 & HD2);
    [by rewrite Ec1|by rewrite Ec1, Ec2|done|]. rewrite Ec2 in HD2.
  exists s2. split; [done|]. split; [done|]. split; [done|]. split.
  - pose proof (handed_on_cpu _ _ _ _ _ _ _ _ _ HD2 O1 (oc_null _ _ _ _ O) (oc_itself _ _ _ _ O)) as O2.
    pose proof (is_type _ _ _ _ S) as Ht. rewrite (entered_resumed me' retval r ct TS_WAITING Ht) in O2.
    change (Sched.tpidr r) with (Sched.tls_base (resumed me' retval r ct)). rewrite <- (entered_resumed me' retval r ct TS_WAITING Ht) at 1. exact O2.
  - intros u Nu Nr. apply (hd_others _ _ _ _ _ _ _ _ HD2); [done|by rewrite Er].
Qed.

(** When the handler thread returns, the CPU runs the client again, with the
    result in its first register; the connection is idle, with the handler at
    rest where it was left. *)
Theorem ipc_return_ok s me r cs retval cap_num msg again conn c p h ct v vs :
  serving s conn c p h ct v → on_cpu (sch_of s) me r cs → in_space (sch_of s) (Sched.current r) cs vs → Sched.state cs ≠ Sched.TS_READY →
  Sched.current r = server_handler_thread c → current_client_thread c ≠ server_handler_thread c → cap_num ≠ 1 →
  ∃ s', sys_ipc_return me retval cap_num msg again s = Away s' ∧ Capability.with_ext (Capability.ext s) s' = s ∧
  idle s' conn c p (released h) (Sched.left_by r cs) vs ∧
  handed (sch_of s) (sch_of s') me r (current_client_thread c) (Sched.with_ec (<[Sched.X0 := retval]>) ct) v cs.
Proof. apply ipc_return_idles. Qed.

(** C3: while a call is served, every other call for the same handler thread, on
    this or another connection and from any CPU, returns [-EAGAIN] and changes
    nothing, not even a reference count. *)
Theorem ipc_call_excluded s conn c p h ct v me r conn_cap ipc_msg cap_num msg conn' c' :
  serving s conn c p h ct v → conns (Capability.ext s) !! conn' = Some c' → server_handler_thread c' = server_handler_thread c →
  is_Some (Sched.threads (sch_of s) !! server_handler_thread c) → Sched.cpus (sch_of s) !! me = Some r → holds_conn s r conn_cap conn' →
  sys_ipc_call me conn_cap ipc_msg cap_num msg s = Done (- EAGAIN) s.
Proof.
  intros [[H1 H2 H3] _ Hl _ _] Hc' Eh Ht Hr Hc. apply (ipc_call_busy s me r conn_cap ipc_msg cap_num msg conn' c' p h); [|by rewrite Eh|done..].
  split; [done|by rewrite Eh|done].
Qed.

(** A call with [MAX_CAP_TRANSFER] or more capabilities returns [-EINVAL] and
    leaves the lock of the handler thread held, although nothing serves the call:
    from then on every call of the connection returns [-EAGAIN] and changes
    nothing. *)
Theorem ipc_call_wedged s me r conn_cap ipc_msg cap_num msg conn c p h cs v :
  idle s conn c p h cs v → Sched.cpus (sch_of s) !! me = Some r → holds_conn s r conn_cap conn → ipc_msg ≠ 0 → MAX_CAP_TRANSFER ≤ cap_num →
  ∃ s', sys_ipc_call me conn_cap ipc_msg cap_num msg s = Done (- EINVAL) s' ∧
  handlers (Capability.ext s') !! p = Some (with_ipc_lock true h) ∧
  ∀ me' r' conn_cap' ipc_msg' cap_num' msg', Sched.cpus (sch_of s') !! me' = Some r' → holds_conn s' r' conn_cap' conn →
    sys_ipc_call me' conn_cap' ipc_msg' cap_num' msg' s' = Done (- EAGAIN) s'.
Proof.
  intros I Hr Hc Nm Hn. eexists. split; [by eapply ipc_call_too_many|]. split; [apply lookup_insert_eq|].
  intros me' r' conn_cap' ipc_msg' cap_num' msg' Hr' Hc'. destruct I as [[H1 H2 H3] _ _ Hrun].
  apply (ipc_call_busy _ me' r' conn_cap' ipc_msg' cap_num' msg' conn c p (with_ipc_lock true h)); [|exact (thread_of_ctx _ _ _ (cr_ctx _ _ _ _ Hrun))|done|done|done].
  split; [done|done|apply lookup_insert_eq].
Qed.

(** C4: the registration thread answers a client.  The call stops only when the
    allocator does, or when [vmspace_map_range] of the shared memory in the server
    panics or fails (the panic the source asks for), and dereferences NULL only when
    the allocator has no memory for the handler's configuration.  Otherwise the
    connection is established: its handler is the thread the server named, with its
    current program counter and stack as the entry and stack of every call and with
    its lock free; the shared memory is mapped in the server, which
    [vmspace_map_range] did; the lock of the registration is free; capabilities and
    reference counts are as before; and the client runs again, with its capability
    for the connection as the result. *)
Theorem register_cb_return_ok s me r cs config cb conn c handler_cap hd ch ct v g addr pmo sp own D V o n :
  registering s me r cs config cb conn c handler_cap hd ch ct v g → SIZEOF_HANDLER_CONFIG ≤ max_size (S := A) →
  Capability.has_cap s g (s32 (shm_cap_in_server cb)) TYPE_PMO pmo → Capability.has_cap s g Capability.VMSPACE_OBJ_ID Capability.TYPE_VMSPACE sp →
  VmRegion.space_ok false sp own D (vm_of s) V → VmRegion.SIZEOF_VMREGION ≤ max_size (S := B) →
  VmRegion.pmos (vm_of s) !! pmo = Some o → n = VmRegion.new_region addr (VmRegion.p_size o) (Z.lor VMR_READ VMR_WRITE) pmo o → VmRegion.region_ok n →
  0 ≤ VmRegion.p_size o ≤ VmRegion.size n → 0 ≤ VmRegion.p_start o → VmRegion.p_start o + VmRegion.p_size o + PAGE_SIZE ≤ 2 ^ 48 →
  let m := sys_ipc_register_cb_return me handler_cap addr in
  match al_alloc SIZEOF_HANDLER_CONFIG (Capability.al s) with
  | Halt => m s = Halt
  | Done p a => if p =? 0 then m s = Fault else
      match VmRegion.vmspace_map_range sp addr (VmRegion.p_size o) (Z.lor VMR_READ VMR_WRITE) pmo (vm_of s) with
      | Halt => m s = Halt
      | Done ret y => if negb (ret =? 0) then m s = Halt else ∃ s', m s = Away s' ∧ Capability.with_ext (Capability.ext s) s' = Capability.with_al a s ∧
          established s' conn (finished addr hd c) p (new_handler ch) ∧
          register_cbs (Capability.ext s') !! config = Some (with_register_lock false cb) ∧
          vm_of s' = y ∧ Memory.map_effect sp own D (vm_of s) V n o (- Memory.EPERM) 0 y ∧
          handed (sch_of s) (sch_of s') me r (current_client_thread c) (Sched.with_ec (<[Sched.X0 := u64 (conn_cap_in_client cb)]>) ct) v cs
      | _ => False
      end
  | _ => False
  end.
Proof. apply register_cb_return_spec. Qed.

End ipc.

(** ** Small systems

    On [Memory.MDemo]: the client is thread 500, the handler thread 2448 with the
    configuration at 9000, and the registration thread 600 with that at 9100. *)
Module IpcDemo.

Import Memory.MDemo(caps, user, vm0, mem0).

Definition client_cpu : Sched.cpu := Sched.mk_cpu 500 0 true true 7 44 100.
Definition client : Sched.thread_ctx := user Sched.TS_RUNNING Sched.KS_LOCKED {[Sched.X0 := 5]}.
Definition rest_client : Sched.thread_ctx := user Sched.TS_WAITING Sched.KS_FREE {[Sched.X0 := 5]}.
Definition handler (st : Sched.thread_state) (k : Sched.thread_special_state) : Sched.thread_ctx :=
  user st k {[Sched.ELR_EL1 := 4096; Sched.SP_EL0 := 8192]}.
Definition conn0 (t : Z) : ipc_connection := mk_conn t 2448 7 0 (mk_conn_shm 4096 8192 4096).
Definition free_handler : ipc_server_handler_config := mk_handler false 4096 8192 0.
Definition msg0 : message := mk_message 0 (λ _, 0).
Definition no_deinit (ty obj : Z) : M (ipc_state (H := Z) (B := Z) (K := Z)) unit := λ e, Done tt e.

Definition idle0 : ipc_state (H := Z) (B := Z) (K := Z) :=
  mk_ipc mem0 {[2448 := 9000]} ∅ ∅ {[9000 := free_handler]} {[2048 := conn0 0]}.

Definition server_cpu : Sched.cpu := Sched.mk_cpu 2448 0 true true 7 44 2248.
Definition serving_sch : sstate Z Z := Sched.mk_sstate 1048576
  {[500 := Sched.mk_thread (Some rest_client) 0 100 1048; 2448 := Sched.mk_thread (Some (handler Sched.TS_RUNNING Sched.KS_LOCKED)) 500 2248 1048]}
  {[0 := server_cpu]} ∅ ∅.
Definition serving0 : ipc_state :=
  mk_ipc (Memory.mk_mstate serving_sch vm0 [] 0 []) {[2448 := 9000]} ∅ ∅ {[9000 := busy 2048 free_handler]} {[2048 := conn0 500]}.

Definition cb_cpu : Sched.cpu := Sched.mk_cpu 600 0 true true 7 44 2248.
Definition registering_sch : sstate Z Z := Sched.mk_sstate 1048576
  {[500 := Sched.mk_thread (Some rest_client) 0 100 1048; 600 := Sched.mk_thread (Some client) 500 2248 1048;
    2448 := Sched.mk_thread (Some (handler Sched.TS_WAITING Sched.KS_FREE)) 0 2248 1048]} {[0 := cb_cpu]} ∅ ∅.
Definition cb0 : ipc_server_register_cb_config := mk_register_cb true 64 128 55 0 3.
Definition new_conn : ipc_connection := mk_conn 500 0 7 0 (mk_conn_shm 4096 0 4096).
Definition registering0 : ipc_state :=
  mk_ipc (Memory.mk_mstate registering_sch vm0 [] 0 []) {[600 := 9100]} ∅ {[9100 := cb0]} ∅ {[2048 := new_conn]}.

Lemma demo_idle : idle (caps idle0) 2048 (conn0 0) 9000 free_handler (handler Sched.TS_WAITING Sched.KS_FREE) 2248.
Proof. split; [by split|done|done|]. split; try done. by left. Qed.

Lemma demo_client_cpu : on_cpu 4 (sch_of (caps idle0)) 0 client_cpu client.
Proof. by split. Qed.

Lemma demo_client_space : in_space (sch_of (caps idle0)) 500 client 100.
Proof. split; [by left|done|done]. Qed.

Lemma demo_holds (e : ipc_state (H := Z) (B := Z) (K := Z)) r : tgroup (sch_of (caps e)) (Sched.current r) = Some 1048 → holds_conn (caps e) r 0 2048.
Proof. intros Hg. exists 1048. split; [done|]. split; [by apply Memory.MDemo.demo_fine|]. apply (Memory.MDemo.demo_cap e 0). lia. Qed.

Lemma demo_serving : serving (caps serving0) 2048 (conn0 500) 9000 (busy 2048 free_handler) rest_client 100.
Proof. split; [by split|done|done|done|]. split; try done. by left. Qed.

Lemma demo_registering : registering 4 (caps registering0) 0 cb_cpu client 9100 cb0 2048 new_conn 2 2448
  (handler Sched.TS_WAITING Sched.KS_FREE) rest_client 100 1048.
Proof.
  split; [by split|done|done|done|done| |done|done|done|by apply Memory.MDemo.demo_fine| |].
  - split; try done. by left.
  - apply (Memory.MDemo.demo_cap registering0 0). lia.
  - apply (Memory.MDemo.demo_cap registering0 2). lia.
Qed.

End IpcDemo.

Import IpcDemo.

Lemma ipc_call_ok_witness : ∃ s', sys_ipc_call Capability.Sample.no_oob 4 no_deinit 0 0 4112 0 msg0 (Memory.MDemo.caps idle0) = Away s' ∧
  serving s' 2048 (called_conn 500 4112 (conn0 0)) 9000 (busy 2048 free_handler) (Sched.left_by client_cpu (Sched.with_state TS_WAITING client)) 100.
Proof.
  destruct (ipc_call_ok Capability.Sample.no_oob 4 no_deinit (Memory.MDemo.caps idle0) 0 client_cpu client 0 4112 0 msg0 2048 (conn0 0) 9000 free_handler
    (handler Sched.TS_WAITING Sched.KS_FREE) 2248 100) as (s' & E & _ & V & _).
  - exact demo_idle.
  - exact demo_client_cpu.
  - exact demo_client_space.
  - discriminate.
  - apply demo_holds. reflexivity.
  - right. left. reflexivity.
  - exists s'. split; [exact E|exact V].
Defined.

(** The handler answers on CPU 0 at once. *)
Lemma ipc_roundtrip_witness : ∃ s1 s2, sys_ipc_call Capability.Sample.no_oob 4 no_deinit 0 0 4112 0 msg0 (Memory.MDemo.caps idle0) = Away s1 ∧
  sys_ipc_return Capability.Sample.no_oob 4 0 33 2 msg0 0 s1 = Away s2 ∧ Sched.tctx (sch_of s2) 500 = Some (resumed 0 33 client_cpu client) ∧
  Sched.tctx (sch_of s2) 1 = None.
Proof.
  destruct (ipc_roundtrip Capability.Sample.no_oob 4 no_deinit (Memory.MDemo.caps idle0) 0 client_cpu client 0 4112 0 msg0 2048 (conn0 0) 9000
    free_handler (handler Sched.TS_WAITING Sched.KS_FREE) 2248 100) as (s1 & E1 & _ & O1 & HU1 & HR).
  - exact demo_idle.
  - exact demo_client_cpu.
  - exact demo_client_space.
  - discriminate.
  - apply demo_holds. reflexivity.
  - right. reflexivity.
  - assert (Sched.tvm (sch_of s1) 2448 = Some 2248) as Hv by (vm_compute in E1; injection E1 as <-; reflexivity).
    destruct (HR s1 0 _ _ 2248 33 2 msg0 0 ltac:(split; reflexivity) O1) as (s2 & E2 & _ & _ & O2 & HU2).
    + reflexivity.
    + split; [left; reflexivity|exact Hv|discriminate].
    + discriminate.
    + discriminate.
    + exists s1, s2. split; [exact E1|]. split; [exact E2|]. split; [exact (oc_ctx _ _ _ _ _ O2)|].
      rewrite HU2, HU1 by discriminate. reflexivity.
Defined.

Lemma ipc_return_ok_witness : ∃ s', sys_ipc_return Capability.Sample.no_oob 4 0 33 0 msg0 0 (Memory.MDemo.caps serving0) = Away s' ∧
  idle s' 2048 (conn0 500) 9000 (released free_handler) (Sched.left_by server_cpu (handler Sched.TS_RUNNING Sched.KS_LOCKED)) 2248.
Proof.
  destruct (ipc_return_ok Capability.Sample.no_oob 4 (Memory.MDemo.caps serving0) 0 server_cpu (handler Sched.TS_RUNNING Sched.KS_LOCKED) 33 0 msg0 0 2048
    (conn0 500) 9000 (busy 2048 free_handler) rest_client 100 2248) as (s' & E & _ & I & _).
  - exact demo_serving.
  - split; try reflexivity; try discriminate. split; [discriminate|reflexivity].
  - split; [left; reflexivity|reflexivity|discriminate].
  - discriminate.
  - reflexivity.
  - discriminate.
  - discriminate.
  - exists s'. split; [exact E|exact I].
Defined.

Lemma ipc_call_excluded_witness :
  sys_ipc_call Capability.Sample.no_oob 4 no_deinit 0 0 4112 3 msg0 (Memory.MDemo.caps serving0) = Done (- EAGAIN) (Memory.MDemo.caps serving0).
Proof.
  apply (ipc_call_excluded Capability.Sample.no_oob 4 no_deinit (Memory.MDemo.caps serving0) 2048 (conn0 500) 9000 (busy 2048 free_handler) rest_client 100
    0 server_cpu 0 4112 3 msg0 2048 (conn0 500)).
  - exact demo_serving.
  - reflexivity.
  - reflexivity.
  - eexists. reflexivity.
  - reflexivity.
  - apply demo_holds. reflexivity.
Defined.

Lemma ipc_call_wedged_witness : ∃ s', sys_ipc_call Capability.Sample.no_oob 4 no_deinit 0 0 4112 8 msg0 (Memory.MDemo.caps idle0) = Done (- EINVAL) s' ∧
  handlers (Capability.ext s') !! 9000 = Some (with_ipc_lock true free_handler).
Proof.
  destruct (ipc_call_wedged Capability.Sample.no_oob 4 no_deinit (Memory.MDemo.caps idle0) 0 client_cpu 0 4112 8 msg0 2048 (conn0 0) 9000 free_handler
    (handler Sched.TS_WAITING Sched.KS_FREE) 2248) as (s' & E & HH & _).
  - exact demo_idle.
  - reflexivity.
  - apply demo_holds. reflexivity.
  - discriminate.
  - discriminate.
  - exists s'. split; [exact E|exact HH].
Defined.

Lemma register_cb_return_ok_witness : ∃ s' p, sys_ipc_register_cb_return 77 4 0 2 131072 (Memory.MDemo.caps registering0) = Away s' ∧
  established s' 2048 (finished 131072 2448 new_conn) p (new_handler 77 (handler Sched.TS_WAITING Sched.KS_FREE)).
Proof.
  assert (VmRegion.region_ok (VmRegion.mk_vmr 131072 4096 3 2648)) as Rn by (vm_compute; repeat split; discriminate).
  pose proof (register_cb_return_ok 77 4 (Memory.MDemo.caps registering0) 0 cb_cpu client 9100 cb0 2048 new_conn 2 2448
    (handler Sched.TS_WAITING Sched.KS_FREE) rest_client 100 1048 131072 2648 2248 PageTable.PTDemo.own0 {[4096]} VmRegion.VMDemo.V0 VmRegion.VMDemo.o1
    (VmRegion.mk_vmr 131072 4096 3 2648) demo_registering ltac:(vm_compute; discriminate)
    (Memory.MDemo.demo_cap registering0 3 ltac:(lia)) (Memory.MDemo.demo_cap registering0 1 ltac:(lia)) (VmRegion.VMDemo.vstate0_ok _ _)
    ltac:(vm_compute; discriminate) eq_refl eq_refl Rn ltac:(vm_compute; split; discriminate) ltac:(vm_compute; discriminate) ltac:(vm_compute; discriminate)) as HR.
  cbv zeta in HR. destruct (al_alloc SIZEOF_HANDLER_CONFIG _) as [p a| | | |] eqn:Ea; try (vm_compute in Ea; discriminate Ea).
  destruct (p =? 0) eqn:Ep; [vm_compute in Ea; injection Ea as <- _; discriminate Ep|].
  destruct (VmRegion.vmspace_map_range _ _ _ _ _ _) as [x y| | | |] eqn:Em; try (vm_compute in Em; discriminate Em).
  destruct (negb (x =? 0)) eqn:Ex; [vm_compute in Em; injection Em as <- _; discriminate Ex|].
  destruct HR as (s' & E & _ & HE & _). exists s', p. split; [exact E|exact HE].
Defined.

(** ** Executions that show defects *)

(** The client of a server that does not exist: [obj_put(NULL)]. *)
Example register_client_null :
  sys_register_client Capability.Sample.no_oob 4 no_deinit 0 40 65536 (mk_shm_config 3 131072) (Memory.MDemo.caps idle0) = Fault.
Proof. vm_compute. reflexivity. Qed.

(** A return by a thread that serves no call, here the client. *)
Example return_without_call : sys_ipc_return Capability.Sample.no_oob 4 0 33 0 msg0 0 (Memory.MDemo.caps idle0) = Fault.
Proof. vm_compute. reflexivity. Qed.

(** A call on a connection the server has not accepted yet. *)
Example call_before_accept : sys_ipc_call Capability.Sample.no_oob 4 no_deinit 0 0 4112 0 msg0 (Memory.MDemo.caps registering0) = Fault.
Proof. vm_compute. reflexivity. Qed.

End Ipc.
