(* ===== verification/Recycle.v ===== *)
(** * Exit of processes (kernel/object/recycle.c, user/procmgr/recycle.c)

    When a process exits the kernel puts a message into a ring buffer, one page
    it shares with the process manager, and signals a notification; a thread of
    the process manager takes the messages out.  Both sides are modelled here, on
    the words of the page: an access outside of it is a fault.  The page is named
    by its kernel address on both sides.

    The state adds the variables of recycle.c to those of Notific.v and Memory.v,
    which share one scheduler state.  The list of messages that did not fit is the
    sequence of its nodes.  The loop over it loads [node.next] of a node it has
    freed; as in VmRegion.v a freed block keeps its contents, since [kfree] writes
    only the first word of it, [node.prev]. *)

From S2P Require Import Prelude Allocator Capability Sched PolicyRR Notific Memory.

Module Recycle.

Import Allocator.
Import Notific(istate, tstate).
Import Memory(mstate, EPERM).

Definition START_OFFSET : Z := 16.
Definition END_OFFSET : Z := 4096.
Definition MSG_SIZE : Z := 16.
Definition SIZEOF_MSG_NODE : Z := 32.

Record recycle_msg := mk_msg { badge : Z; exitcode : Z }.

(** ** The page

    8-byte words by address, and the [int] in the low half of a word. *)
Abbreviation wordmem := (gmap Z Z).

Definition load (a : Z) : M wordmem Z := m <- get ;; need (m !! a).
Definition store (a v : Z) : M wordmem unit := load a ;; modify (<[a := v]>).
Definition load_int (a : Z) : M wordmem Z := w <- load a ;; ret (s32 w).
Definition store_int (a v : Z) : M wordmem unit := w <- load a ;; store a (2 ^ 32 * (w / 2 ^ 32) + u32 v).

Section ring.
Context (recycle_msg_buffer : Z).

Definition get_consumer_offset : M wordmem Z := load recycle_msg_buffer.
Definition set_consumer_offset (val : Z) : M wordmem unit := store recycle_msg_buffer val.
Definition get_producer_offset : M wordmem Z := load (u64 (recycle_msg_buffer + 8)).
Definition set_producer_offset (val : Z) : M wordmem unit := store (u64 (recycle_msg_buffer + 8)) val.

Definition set_msg (off b e : Z) : M wordmem unit :=
  let msg := u64 (recycle_msg_buffer + off) in
  store msg b ;; store_int (u64 (msg + 8)) e.

Definition get_free_slot_in_msg_buffer : M wordmem Z :=
  p_off <- get_producer_offset ;;
  c_off <- get_consumer_offset ;;
  if (c_off <=? p_off) && (p_off <? END_OFFSET) then set_producer_offset (u64 (p_off + MSG_SIZE)) ;; ret p_off
  else if (p_off =? END_OFFSET) && (START_OFFSET <? c_off) then set_producer_offset (START_OFFSET + MSG_SIZE) ;; ret START_OFFSET
  else if p_off <? c_off then set_producer_offset (u64 (p_off + MSG_SIZE)) ;; ret p_off
  else ret 0.

(** *** The process manager's side *)

(** NULL is [None]. *)
Definition retrieve_one_msg : M wordmem (option Z) :=
  p_off <- get_producer_offset ;;
  c_off <- get_consumer_offset ;;
  ret (if negb (p_off =? c_off) then Some (u64 (c_off + recycle_msg_buffer)) else None).

(** In the last case only the local variable is set. *)
Definition increase_consumer_offset (msg : Z) : M wordmem unit :=
  let c_off := u64 (msg - recycle_msg_buffer) in
  if c_off <? END_OFFSET then set_consumer_offset (u64 (c_off + MSG_SIZE))
  else if c_off =? END_OFFSET then ret tt else halt.

End ring.

Section recycle.
Context {A H B : Type} `{!Allocator A, !Allocator H, !Allocator B, !PageAllocator B}.
Context {K : Type} `{!EqDecision K, !Countable K}.
Context (PLAT_CPU_NUM : Z) (ops : Sched.sched_ops H K).

(** The scheduler state is that of [irqs]; [mem] is used with it. *)
Record rstate := mk_rstate {
  irqs : istate (H := H) (K := K);
  mem : mstate (H := H) (B := B) (K := K);
  recycle_notification : Z;
  recycle_msg_buffer : Z;
  recycle_msg_head : list (Z * recycle_msg);
  words : wordmem
}.

Definition with_irqs (x : istate) (s : rstate) : rstate :=
  mk_rstate x (mem s) (recycle_notification s) (recycle_msg_buffer s) (recycle_msg_head s) (words s).
Definition with_notification (n : Z) (s : rstate) : rstate :=
  mk_rstate (irqs s) (mem s) n (recycle_msg_buffer s) (recycle_msg_head s) (words s).
Definition with_buffer (b : Z) (s : rstate) : rstate :=
  mk_rstate (irqs s) (mem s) (recycle_notification s) b (recycle_msg_head s) (words s).
Definition with_msgs (l : list (Z * recycle_msg)) (s : rstate) : rstate :=
  mk_rstate (irqs s) (mem s) (recycle_notification s) (recycle_msg_buffer s) l (words s).
Definition with_words (m : wordmem) (s : rstate) : rstate :=
  mk_rstate (irqs s) (mem s) (recycle_notification s) (recycle_msg_buffer s) (recycle_msg_head s) m.

Definition with_ts (t : tstate H K) (x : istate (H := H) (K := K)) : istate :=
  Notific.mk_istate t (Notific.irq_notifcs x) (Notific.irq_handle_type x) (Notific.intr_vector x).
Definition sched_state (s : rstate) : Sched.sstate H K := Notific.sch (Notific.ts (irqs s)).
Definition with_sched (x : Sched.sstate H K) (s : rstate) : rstate :=
  with_irqs (with_ts (Notific.with_sch x (Notific.ts (irqs s))) (irqs s)) s.
(** The state of Memory.v, and back. *)
Definition mem_state (s : rstate) : mstate := Memory.with_sch (sched_state s) (mem s).
Definition with_mem (m : mstate) (s : rstate) : rstate :=
  with_sched (Memory.sch m)
    (mk_rstate (irqs s) m (recycle_notification s) (recycle_msg_buffer s) (recycle_msg_head s) (words s)).

Abbreviation kstate := (Capability.kstate (A := A) (E := rstate)).
Abbreviation MR := (M kstate).
Import Capability(obj_get, on_ext, on_al, TYPE_NOTIFICATION, TYPE_CAP_GROUP, PROCMGR_BADGE).

Definition on_sch {X} (m : M (Sched.sstate H K) X) : MR X := on_ext (zoom sched_state with_sched m).
Definition on_notific {X} (m : M (tstate H K) X) : MR X :=
  on_ext (zoom (λ s, Notific.ts (irqs s)) (λ t s, with_irqs (with_ts t (irqs s)) s) m).
Definition on_mem {X} (m : M (Capability.kstate (A := A) (E := mstate)) X) : MR X :=
  zoom (λ s, Capability.mk_kstate (Capability.al s) (Capability.objects s) (Capability.slotmem s) (Capability.groups s) (mem_state (Capability.ext s)))
    (λ k s, Capability.mk_kstate (Capability.al k) (Capability.objects k) (Capability.slotmem k) (Capability.groups k)
       (with_mem (Capability.ext k) (Capability.ext s))) m.
(** Code on the page, with the address of the buffer. *)
Definition on_page {X} (m : Z → M wordmem X) : MR X :=
  s <- on_ext get ;; on_ext (zoom words with_words (m (recycle_msg_buffer s))).

Definition current_cap_group (me : Z) : MR Z :=
  on_sch (t <- Sched.current_thread me ;; th <- Sched.thread_at t ;; ret (Sched.cap_group th)).

Definition sys_register_recycle (me notifc_cap msg_buffer : Z) : MR Z :=
  g <- current_cap_group me ;;
  cg <- Capability.group_at g ;;
  if negb (Capability.badge cg =? PROCMGR_BADGE) then ret (- EPERM)
  else
    n <- obj_get g notifc_cap TYPE_NOTIFICATION ;;
    on_ext (modify (with_notification n)) ;;
    BUG_ON (n =? 0) ;;
    r <- on_mem (Memory.trans_uva_to_kva me msg_buffer) ;;
    match r with
    | inl _ => halt
    | inr kva => on_ext (modify (with_buffer kva)) ;; on_ext (modify (with_msgs [])) ;; ret 0
    end.

(** The message goes to the front of the list; [kmalloc] is not tested for NULL. *)
Definition save_msg (m : recycle_msg) : MR unit :=
  msg <- on_al (al_alloc SIZEOF_MSG_NODE) ;;
  if msg =? 0 then fault else on_ext (modify (λ s, with_msgs ((msg, m) :: recycle_msg_head s) s)).

(** The loop over the saved messages, from the node it has come to. *)
Fixpoint put_saved (l : list (Z * recycle_msg)) : MR unit :=
  match l with
  | [] => ret tt
  | (msg, m) :: l' =>
      off <- on_page get_free_slot_in_msg_buffer ;;
      if negb (off =? 0) then
        on_ext (modify (with_msgs l')) ;;
        on_page (λ b, set_msg b off (badge m) (exitcode m)) ;;
        on_al (al_free msg) ;;
        put_saved l'
      else ret tt
  end.

Definition notify_user_recycler (me proc_badge code : Z) : MR unit :=
  buffer_off <- on_page get_free_slot_in_msg_buffer ;;
  (if buffer_off =? 0 then save_msg (mk_msg proc_badge code)
   else on_page (λ b, set_msg b buffer_off proc_badge code) ;; s <- on_ext get ;; put_saved (recycle_msg_head s)) ;;
  if negb (buffer_off =? 0) then
    s <- on_ext get ;;
    on_notific (Notific.signal_notific PLAT_CPU_NUM ops me (recycle_notification s) false) ;;
    ret tt
  else ret tt.

(** [__sync_val_compare_and_swap(&cap_group->notify_recycler, 0, 1)] *)
Definition cas_notify_recycler (g : Z) : MR Z :=
  cg <- Capability.group_at g ;;
  let old := Capability.notify_recycler cg in
  (if old =? 0
   then modify (λ s, Capability.with_groups (<[g := Capability.mk_cap_group (Capability.slot_tbl cg) (Capability.badge cg) 1]> (Capability.groups s)) s)
   else ret tt) ;;
  ret old.

(** [current_thread = NULL; sched(); eret_to_thread(switch_context())] *)
Definition leave (me : Z) : MR unit :=
  on_sch (Sched.upd_cpu me (Sched.with_current 0) ;; Sched.sched ops me ;; Sched.eret_to_thread PLAT_CPU_NUM me).

Definition sys_exit_group (me code : Z) : MR unit :=
  t <- on_sch (Sched.current_thread me) ;;
  on_sch (Sched.upd_ctx t (Sched.with_state Sched.TS_EXIT)) ;;
  g <- current_cap_group me ;;
  old <- cas_notify_recycler g ;;
  (if old =? 1 then cg <- Capability.group_at g ;; notify_user_recycler me (Capability.badge cg) code else ret tt) ;;
  leave me.

(** The code that recycles is disabled in the source; the reference is kept. *)
Definition sys_cap_group_recycle (me cap_group_cap : Z) : MR Z :=
  g <- current_cap_group me ;;
  cap_group <- obj_get g cap_group_cap TYPE_CAP_GROUP ;;
  BUG_ON (cap_group =? 0) ;;
  ret 0.

(** ** The recycle thread of the process manager

    [procs] is [badge2proc], with the fields of [struct proc_node] it uses;
    [exited] is [state == PROC_STATE_EXIT]. *)
Record proc_node := mk_proc { proc_cap : Z; exited : bool; exitstatus : Z }.
Record mgr_state := mk_mgr { kern : kstate; procs : gmap Z proc_node }.
Abbreviation MP := (M mgr_state).

Definition on_kern {X} (m : MR X) : MP X := zoom kern (λ k s, mk_mgr k (procs s)) m.

(** The argument is an [int], the key a [u64]. *)
Definition procmgr_find_client_proc (client_badge : Z) : MP proc_node :=
  s <- get ;; match procs s !! u64 (s32 client_badge) with None => halt | Some p => ret p end.
Definition set_proc (client_badge : Z) (p : proc_node) : MP unit :=
  modify (λ s, mk_mgr (kern s) (<[u64 (s32 client_badge) := p]> (procs s))).

(** The body of the inner loop of [recycle_routine]; [buf] is the page.  The
    result of the system call is never [-EAGAIN], so it is made once. *)
Definition recycle_one (me buf msg : Z) : MP unit :=
  let on_buf {X} (m : M wordmem X) : MP X := on_kern (on_ext (zoom words with_words m)) in
  b <- on_buf (load msg) ;;
  p <- procmgr_find_client_proc b ;;
  e <- on_buf (load_int (u64 (msg + 8))) ;;
  set_proc b (mk_proc (proc_cap p) true e) ;;
  on_kern (sys_cap_group_recycle me (proc_cap p)) ;;
  on_buf (increase_consumer_offset buf msg).

(** The inner loop. *)
Fixpoint recycle_all (fuel : nat) (me buf : Z) : MP unit :=
  match fuel with
  | O => λ _, Spin
  | S fuel' =>
      r <- on_kern (on_ext (zoom words with_words (retrieve_one_msg buf))) ;;
      match r with
      | None => ret tt
      | Some msg => recycle_one me buf msg ;; recycle_all fuel' me buf
      end
  end.

End recycle.

(** ** The ring before it wraps around

    [ring buf m k q]: the page [m] at [buf] has had [k] messages taken out and
    holds the messages [q]. *)
Record ring (buf : Z) (m : wordmem) (k : nat) (q : list recycle_msg) : Prop := {
  rg_buf : 0 ≤ buf ∧ buf + END_OFFSET < 2 ^ 64;
  rg_size : (k + length q ≤ 255)%nat;
  rg_consumer : m !! buf = Some (16 + 16 * Z.of_nat k);
  rg_producer : m !! (buf + 8) = Some (16 + 16 * Z.of_nat (k + length q));
  rg_cells : ∀ i, 0 ≤ i < 255 → is_Some (m !! (buf + 16 + 16 * i)) ∧ is_Some (m !! (buf + 24 + 16 * i));
  rg_msgs : ∀ i x, q !! i = Some x → m !! (buf + 16 + 16 * Z.of_nat (k + i)) = Some (badge x) ∧
    ∃ w, m !! (buf + 24 + 16 * Z.of_nat (k + i)) = Some w ∧ s32 w = exitcode x
}.

Lemma ring_load_ok (m : wordmem) a v : m !! a = Some v → load a m = Done v m.
Proof. intros H. unfold load, bind, get. by rewrite H. Qed.
Lemma ring_store_ok (m : wordmem) a v : is_Some (m !! a) → store a v m = Done tt (<[a := v]> m).
Proof. intros [w H]. unfold store. by erewrite bind_Done by (by apply ring_load_ok). Qed.
Lemma store_int_ok (m : wordmem) a v : is_Some (m !! a) → - 2 ^ 31 ≤ v < 2 ^ 31 →
  ∃ w, store_int a v m = Done tt (<[a := w]> m) ∧ s32 w = v.
Proof.
  intros [w H] Hv. unfold store_int. erewrite bind_Done by (by apply ring_load_ok). eexists. split; [by apply ring_store_ok|].
  unfold s32, u32. replace (2 ^ 32 * (w / 2 ^ 32) + v mod 2 ^ 32 + 2 ^ 31) with (v mod 2 ^ 32 + 2 ^ 31 + w / 2 ^ 32 * 2 ^ 32) by lia.
  rewrite Z.mod_add, Zplus_mod_idemp_l, Z.mod_small by lia. lia.
Qed.

Lemma u64_page buf x : 0 ≤ buf ∧ buf + END_OFFSET < 2 ^ 64 → 0 ≤ x ≤ END_OFFSET → u64 (buf + x) = buf + x.
Proof. intros Hb Hx. apply u64_id. unfold is_u64. lia. Qed.

(** The offsets, read. *)
Lemma ring_offsets buf m k q : ring buf m k q →
  get_producer_offset buf m = Done (16 + 16 * Z.of_nat (k + length q)) m ∧ get_consumer_offset buf m = Done (16 + 16 * Z.of_nat k) m.
Proof.
  intros R. unfold get_producer_offset, get_consumer_offset. rewrite (u64_page buf 8) by (apply R || done).
  split; apply ring_load_ok; apply R.
Qed.

Lemma ring_post buf m k q x : ring buf m k q → (k + length q < 255)%nat → - 2 ^ 31 ≤ exitcode x < 2 ^ 31 →
  ∃ off m1 m2, off ≠ 0 ∧ get_free_slot_in_msg_buffer buf m = Done off m1 ∧ set_msg buf off (badge x) (exitcode x) m1 = Done tt m2 ∧
  ring buf m2 k (q ++ [x]).
Proof.
  intros R Hk Hx. destruct (ring_offsets _ _ _ _ R) as [Ep Ec]. destruct R as [Hb Hs Rc Rp Rs Rm].
  set (n := Z.of_nat (k + length q)) in *. exists (16 + 16 * n), (<[buf + 8 := 32 + 16 * n]> m). unfold END_OFFSET in Hb.
  destruct (Rs n ltac:(lia)) as [C1 C2].
  destruct (store_int_ok (<[buf + 16 + 16 * n := badge x]> (<[buf + 8 := 32 + 16 * n]> m)) (buf + 24 + 16 * n) (exitcode x)) as (w & Ew & Hw);
    [rewrite !lookup_insert_ne by lia; done|done|].
  eexists. split; [lia|]. split; [|split].
  - unfold get_free_slot_in_msg_buffer. erewrite bind_Done by exact Ep. erewrite bind_Done by exact Ec.
    rewrite (proj2 (Z.leb_le _ _)), (proj2 (Z.ltb_lt _ END_OFFSET)) by (unfold END_OFFSET; lia). cbn [andb].
    unfold set_producer_offset. rewrite (u64_page buf 8) by done. erewrite bind_Done by (apply ring_store_ok; by eexists).
    rewrite u64_id by (unfold is_u64, MSG_SIZE; lia). unfold ret. do 2 f_equal. unfold MSG_SIZE. lia.
  - unfold set_msg. rewrite (u64_page buf (16 + 16 * n)) by (unfold END_OFFSET; lia).
    replace (buf + (16 + 16 * n) + 8) with (buf + (24 + 16 * n)) by lia. rewrite (u64_page buf (24 + 16 * n)) by (unfold END_OFFSET; lia).
    rewrite !Z.add_assoc. erewrite bind_Done; [exact Ew|]. apply ring_store_ok. by rewrite lookup_insert_ne by lia.
  - assert (length (q ++ [x]) = S (length q)) as El by (rewrite length_app; simpl; lia). split.
    + done.
    + lia.
    + rewrite !lookup_insert_ne by lia. done.
    + rewrite !lookup_insert_ne, lookup_insert_eq by lia. f_equal. lia.
    + intros i Hi. destruct (Rs i Hi) as [H1 H2]. by split; rewrite !lookup_insert_is_Some'; auto.
    + intros i y [Hy|[Hl Hy]]%lookup_app_Some.
      * pose proof (lookup_lt_Some _ _ _ Hy). destruct (Rm i y Hy) as (H1 & v & H2 & H3).
        rewrite !lookup_insert_ne by lia. split; [done|]. by exists v.
      * apply list_lookup_singleton_Some in Hy as [Hi <-]. replace (Z.of_nat (k + i)) with n by lia. split.
        -- by rewrite lookup_insert_ne, lookup_insert_eq by lia.
        -- exists w. by rewrite lookup_insert_eq.
Qed.

Lemma ring_empty buf m k : ring buf m k [] → retrieve_one_msg buf m = Done None m.
Proof.
  intros R. destruct (ring_offsets _ _ _ _ R) as [Ep Ec]. unfold retrieve_one_msg.
  erewrite bind_Done by exact Ep. erewrite bind_Done by exact Ec. simpl length. by rewrite Nat.add_0_r, Z.eqb_refl.
Qed.

Lemma ring_take buf m k x q : ring buf m k (x :: q) → ∃ p m', retrieve_one_msg buf m = Done (Some p) m ∧
  load p m = Done (badge x) m ∧ load_int (u64 (p + 8)) m = Done (exitcode x) m ∧
  increase_consumer_offset buf p m = Done tt m' ∧ ring buf m' (S k) q.
Proof.
  intros R. destruct (ring_offsets _ _ _ _ R) as [Ep Ec]. destruct R as [Hb Hs Rc Rp Rs Rm]. simpl length in *. unfold END_OFFSET in Hb.
  destruct (Rm O x eq_refl) as (H1 & w & H2 & H3). rewrite Nat.add_0_r in *.
  exists (buf + 16 + 16 * Z.of_nat k), (<[buf := 16 + 16 * Z.of_nat (S k)]> m). split_and!.
  - unfold retrieve_one_msg. erewrite bind_Done by exact Ep. erewrite bind_Done by exact Ec.
    rewrite (proj2 (Z.eqb_neq _ _)) by lia. cbn [negb]. unfold ret. do 2 f_equal. rewrite u64_id by (unfold is_u64; lia). lia.
  - by apply ring_load_ok.
  - replace (buf + 16 + 16 * Z.of_nat k + 8) with (buf + 24 + 16 * Z.of_nat k) by lia. rewrite u64_id by (unfold is_u64; lia).
    unfold load_int. erewrite bind_Done by (by apply ring_load_ok). by rewrite H3.
  - unfold increase_consumer_offset. rewrite u64_id by (unfold is_u64; lia). rewrite (proj2 (Z.ltb_lt _ END_OFFSET)) by (unfold END_OFFSET; lia).
    unfold set_consumer_offset. rewrite ring_store_ok by (by eexists). rewrite u64_id by (unfold is_u64, MSG_SIZE; lia). do 2 f_equal. unfold MSG_SIZE. lia.
  - split.
    + done.
    + lia.
    + by rewrite lookup_insert_eq.
    + rewrite lookup_insert_ne by lia. rewrite Rp. do 3 f_equal. lia.
    + intros i Hi. destruct (Rs i Hi) as [C1 C2]. by split; rewrite lookup_insert_is_Some'; auto.
    + intros i y Hy. destruct (Rm (S i) y Hy) as (E1 & v & E2 & E3). rewrite !lookup_insert_ne by lia.
      replace (S k + i)%nat with (k + S i)%nat by lia. split; [done|]. by exists v.
Qed.

(** *** Sequences of operations, against a queue *)
Inductive ring_op := Post (x : recycle_msg) | Take.

(** One message in, or one out. *)
Definition ring_step (buf : Z) (op : ring_op) : M wordmem (option recycle_msg) :=
  match op with
  | Post x => off <- get_free_slot_in_msg_buffer buf ;;
      (if off =? 0 then ret tt else set_msg buf off (badge x) (exitcode x)) ;; ret None
  | Take => r <- retrieve_one_msg buf ;;
      match r with
      | None => ret None
      | Some p => b <- load p ;; e <- load_int (u64 (p + 8)) ;; increase_consumer_offset buf p ;; ret (Some (mk_msg b e))
      end
  end.
Fixpoint ring_run (buf : Z) (l : list ring_op) : M wordmem (list (option recycle_msg)) :=
  match l with
  | [] => ret []
  | op :: l' => r <- ring_step buf op ;; rs <- ring_run buf l' ;; ret (r :: rs)
  end.

Definition queue_step (op : ring_op) (q : list recycle_msg) : option recycle_msg * list recycle_msg :=
  match op, q with
  | Post x, _ => (None, q ++ [x])
  | Take, [] => (None, [])
  | Take, x :: q' => (Some x, q')
  end.
Fixpoint queue_run (l : list ring_op) (q : list recycle_msg) : list (option recycle_msg) :=
  match l with
  | [] => []
  | op :: l' => (queue_step op q).1 :: queue_run l' (queue_step op q).2
  end.

Fixpoint posts (l : list ring_op) : nat :=
  match l with [] => O | Post _ :: l' => S (posts l') | Take :: l' => posts l' end.
Definition int_code (op : ring_op) : Prop := match op with Post x => - 2 ^ 31 ≤ exitcode x < 2 ^ 31 | Take => True end.

Lemma ring_step_spec buf m k q op : ring buf m k q → (k + length q + posts [op] ≤ 255)%nat → int_code op →
  ∃ m' k', ring_step buf op m = Done (queue_step op q).1 m' ∧ ring buf m' k' (queue_step op q).2 ∧
  (k' + length (queue_step op q).2 = k + length q + posts [op])%nat.
Proof.
  intros R Hk Hc. destruct op as [x|]; [|destruct q as [|x q]].
  - change (posts [Post x]) with 1%nat in *. destruct (ring_post buf m k q x R ltac:(lia) Hc) as (off & m1 & m2 & N & E1 & E2 & R2).
    exists m2, k. simpl. rewrite length_app. simpl length. split_and!; [|done|lia].
    erewrite bind_Done by exact E1. rewrite (proj2 (Z.eqb_neq _ _)) by done. by erewrite bind_Done by exact E2.
  - exists m, k. simpl. split_and!; [|done|lia]. by rewrite (bind_Done _ _ _ _ _ (ring_empty _ _ _ R)).
  - destruct (ring_take _ _ _ _ _ R) as (p & m' & E1 & E2 & E3 & E4 & R'). exists m', (S k).
    change (posts [Take]) with O. simpl. split_and!; [|done|lia]. erewrite bind_Done by exact E1. cbv beta iota. erewrite bind_Done by exact E2.
    erewrite bind_Done by exact E3. erewrite bind_Done by exact E4. by destruct x.
Qed.

(** C8: The ring buffer that the kernel and the process manager share is a queue:
    until 255 messages have been put in, every sequence of puts and takes, in any
    order, gives each message exactly once, unchanged and in the order of the puts,
    and nothing when all have been taken. *)
Theorem ring_fifo buf l : ∀ m k q, ring buf m k q → (k + length q + posts l ≤ 255)%nat → Forall int_code l →
  ∃ m', ring_run buf l m = Done (queue_run l q) m'.
Proof.
  induction l as [|op l IH]; intros m k q R Hk HF; [by eexists|]. apply Forall_cons in HF as [Hop HF].
  assert (posts (op :: l) = posts [op] + posts l)%nat as E by (by destruct op).
  destruct (ring_step_spec buf m k q op R ltac:(lia) Hop) as (m1 & k1 & E1 & R1 & H1).
  destruct (IH m1 k1 _ R1 ltac:(lia) HF) as (m2 & E2). exists m2. simpl.
  erewrite bind_Done by exact E1. by erewrite bind_Done by exact E2.
Qed.

(** The 256th message is lost: it goes to the start of the page, and the process
    manager looks for it behind the end of the page, now and ever after. *)
Lemma ring_wrap buf m b e : ring buf m 255 [] → - 2 ^ 31 ≤ e < 2 ^ 31 →
  ∃ m1 m2, get_free_slot_in_msg_buffer buf m = Done START_OFFSET m1 ∧ set_msg buf START_OFFSET b e m1 = Done tt m2 ∧
  retrieve_one_msg buf m2 = Done (Some (buf + END_OFFSET)) m2 ∧ increase_consumer_offset buf (buf + END_OFFSET) m2 = Done tt m2.
Proof.
  intros R He. destruct (ring_offsets _ _ _ _ R) as [Ep Ec]. simpl in Ep, Ec. destruct R as [Hb _ Rc Rp Rs _].
  destruct (Rs 0 ltac:(lia)) as [C1 C2]. replace (buf + 16 + 16 * 0) with (buf + 16) in C1 by lia. replace (buf + 24 + 16 * 0) with (buf + 24) in C2 by lia.
  destruct (store_int_ok (<[buf + 16 := b]> (<[buf + 8 := 32]> m)) (buf + 24) e) as (w & Ew & _); [rewrite !lookup_insert_ne by lia; done|done|].
  eexists _, _. split; [|split; [|split]].
  - unfold get_free_slot_in_msg_buffer. erewrite bind_Done by exact Ep. erewrite bind_Done by exact Ec. simpl.
    unfold set_producer_offset. rewrite (u64_page buf 8) by done. by erewrite bind_Done by (apply ring_store_ok; by eexists).
  - unfold set_msg. rewrite (u64_page buf START_OFFSET) by done. change START_OFFSET with 16. rewrite <- Z.add_assoc.
    rewrite (u64_page buf (16 + 8)) by done. erewrite bind_Done; [exact Ew|]. apply ring_store_ok. by rewrite lookup_insert_ne by lia.
  - unfold retrieve_one_msg, get_producer_offset, get_consumer_offset. rewrite (u64_page buf 8) by done.
    erewrite bind_Done by (apply ring_load_ok; by rewrite !lookup_insert_ne, lookup_insert_eq by lia).
    erewrite bind_Done by (apply ring_load_ok; rewrite !lookup_insert_ne by lia; exact Rc).
    unfold ret. simpl. do 2 f_equal. rewrite Z.add_comm. by apply u64_page.
  - unfold increase_consumer_offset. replace (buf + END_OFFSET - buf) with END_OFFSET by lia. done.
Qed.

(** ** The system calls *)
Section spec.
Context {A H B : Type} `{!Allocator A, !Allocator H, !Allocator B, !PageAllocator B}.
Context {K : Type} `{!EqDecision K, !Countable K}.
Context (N : Z) (ops : Sched.sched_ops H K) (inv : Sched.sstate H K → Prop) `{!Sched.Scheduler ops inv}.
Abbreviation rst := (rstate (H := H) (B := B) (K := K)).
Abbreviation kst := (Capability.kstate (A := A) (E := rst)).
Implicit Types s : kst.

Definition put_words (m : wordmem) s : kst := Capability.with_ext (with_words m (Capability.ext s)) s.
Definition put_ts (t : tstate H K) s : kst :=
  Capability.with_ext (with_irqs (with_ts t (irqs (Capability.ext s))) (Capability.ext s)) s.
Definition tst s : tstate H K := Notific.ts (irqs (Capability.ext s)).

Lemma on_page_ok {X} (f : Z → M wordmem X) s x m :
  f (recycle_msg_buffer (Capability.ext s)) (words (Capability.ext s)) = Done x m → on_page f s = Done x (put_words m s).
Proof.
  intros E. unfold on_page. erewrite bind_Done by reflexivity. destruct s as [a o sm g e]. simpl in *.
  unfold Capability.on_ext. apply (zoom_Done Capability.ext Capability.with_ext _ (Capability.mk_kstate a o sm g e)). by apply zoom_Done.
Qed.

Lemma recycle_notific_ok {X} (f : M (tstate H K) X) s x t : f (tst s) = Done x t → on_notific f s = Done x (put_ts t s).
Proof. intros E. unfold on_notific, Capability.on_ext. erewrite zoom_Done by (by apply zoom_Done). done. Qed.

Lemma notify_spec s me r y k q b e : Notific.world inv None (tst s) → Sched.cpus (sched_state (Capability.ext s)) !! me = Some r →
  ¬ Notific.is_waiting (tst s) (Sched.current r) → Notific.notifs (tst s) !! recycle_notification (Capability.ext s) = Some y →
  recycle_msg_head (Capability.ext s) = [] → ring (recycle_msg_buffer (Capability.ext s)) (words (Capability.ext s)) k q →
  (k + length q < 255)%nat → - 2 ^ 31 ≤ e < 2 ^ 31 →
  notify_user_recycler N ops me b e s = Halt ∨
  ∃ m t y', notify_user_recycler N ops me b e s = Done tt (put_ts t (put_words m s)) ∧
    ring (recycle_msg_buffer (Capability.ext s)) m k (q ++ [mk_msg b e]) ∧ Notific.world inv None t ∧
    Notific.notifs t = <[recycle_notification (Capability.ext s) := y']> (Notific.notifs (tst s)) ∧ Notific.abs y' = Notific.sem_signal (Notific.abs y).
Proof.
  intros W Hr Hc Hy Hl R Hk He. destruct (ring_post _ _ _ _ (mk_msg b e) R Hk He) as (off & m1 & m2 & No & E1 & E2 & R2).
  unfold notify_user_recycler. erewrite (bind_Done _ _ s) by (by apply on_page_ok).
  rewrite (proj2 (Z.eqb_neq _ _) No). cbn [negb].
  erewrite (bind_Done (bind _ _)); [|erewrite bind_Done by (apply (on_page_ok _ (put_words m1 s)); exact E2);
    erewrite bind_Done by reflexivity; simpl; rewrite Hl; reflexivity].
  erewrite bind_Done by reflexivity.
  destruct (proj1 (wph_or _ _ _) (Notific.signal_spec N ops inv (tst s) me r _ y W Hr Hc Hy)) as [E|(v & t & E & -> & W' & (y' & En & Ha) & _)].
  - left. apply bind_Halt. unfold on_notific, Capability.on_ext. apply zoom_Halt. by apply zoom_Halt.
  - right. exists m2, t, y'. split_and!; try done. erewrite bind_Done by (apply recycle_notific_ok; exact E). done.
Qed.

Definition put_sched (x : Sched.sstate H K) s : kst := Capability.with_ext (with_sched x (Capability.ext s)) s.
Definition sst s : Sched.sstate H K := sched_state (Capability.ext s).

Lemma on_sch_done {X} (f : M (Sched.sstate H K) X) s x t : f (sst s) = Done x t → on_sch f s = Done x (put_sched t s).
Proof. intros E. unfold on_sch, Capability.on_ext. erewrite zoom_Done by (by apply zoom_Done). done. Qed.
Lemma put_sched_id s : put_sched (sst s) s = s.
Proof. destruct s as [a o sm g [[[sc sl ti no re tm] i1 i2 i3] m n b l w]]. done. Qed.

(** Thread [t] of group [g] runs on CPU [me]. *)
Definition runs s (me t g : Z) (c : Sched.thread_ctx) : Prop :=
  ∃ r th, Sched.cpus (sst s) !! me = Some r ∧ Sched.current r = t ∧ Sched.threads (sst s) !! t = Some th ∧
  Sched.ctx th = Some c ∧ Sched.cap_group th = g.

Lemma runs_thread s me t g c : runs s me t g c → on_sch (Sched.current_thread me) s = Done t s ∧ Sched.tctx (sst s) t = Some c.
Proof.
  intros (r & th & Hr & <- & Ht & Hc & _). split; [|unfold Sched.tctx; by rewrite Ht].
  rewrite <- (put_sched_id s) at 2. apply on_sch_done. by apply Sched.current_thread_ok.
Qed.
Lemma runs_group s me t g c : runs s me t g c → current_cap_group me s = Done g s.
Proof.
  intros (r & th & Hr & <- & Ht & _ & <-). rewrite <- (put_sched_id s) at 2. apply on_sch_done.
  erewrite bind_Done by (by apply Sched.current_thread_ok). by erewrite bind_Done by (by apply Sched.thread_at_ok).
Qed.
Lemma runs_put_ctx s me t g c f : runs s me t g c → runs (put_sched (Sched.put_ctx t f (sst s)) s) me t g (f c).
Proof.
  intros (r & th & Hr & Et & Ht & Hc & Hg). eexists r, _. split_and!; [exact Hr|done| | |]; simpl.
  - by rewrite lookup_alter_eq, Ht.
  - simpl. by rewrite Hc.
  - done.
Qed.

(** The state in which a thread that exits leaves the CPU: [t] is [TS_EXIT] and
    its group has [notify_recycler] set. *)
Definition exiting (t g : Z) (cg : Capability.cap_group) s : kst :=
  Capability.with_groups (<[g := Capability.mk_cap_group (Capability.slot_tbl cg) (Capability.badge cg) 1]> (Capability.groups s))
    (put_sched (Sched.put_ctx t (Sched.with_state Sched.TS_EXIT) (sst s)) s).

Lemma exit_prefix s me t g c cg code : runs s me t g c → Capability.groups s !! g = Some cg →
  Capability.notify_recycler cg = 0 ∨ Capability.notify_recycler cg = 1 →
  sys_exit_group N ops me code s =
  ((if Capability.notify_recycler cg =? 1 then notify_user_recycler N ops me (Capability.badge cg) code else ret tt) ;; leave N ops me) (exiting t g cg s).
Proof.
  intros Hr Hg Hn. destruct (runs_thread _ _ _ _ _ Hr) as [E1 Hc]. pose proof (runs_put_ctx _ _ _ _ _ (Sched.with_state Sched.TS_EXIT) Hr) as Hr1.
  unfold sys_exit_group. erewrite bind_Done by exact E1. erewrite bind_Done by (apply on_sch_done; by eapply Sched.upd_ctx_ok).
  erewrite bind_Done by (by eapply runs_group). set (s1 := put_sched _ s) in *.
  assert (cas_notify_recycler g s1 = Done (Capability.notify_recycler cg) (exiting t g cg s)) as Ecas.
  { unfold cas_notify_recycler, Capability.group_at. rewrite (bind_Done _ _ s1 cg s1) by (unfold bind, get; simpl; by rewrite Hg).
    destruct Hn as [En|En]; rewrite En; simpl; [done|]. unfold bind, ret, exiting. fold s1. f_equal.
    rewrite insert_id; [by destruct s|]. rewrite Hg. destruct cg. simpl in *. by rewrite En. }
  rewrite (bind_Done _ _ _ _ _ Ecas).
  destruct Hn as [En|En]; rewrite En; simpl; [done|]. unfold Capability.group_at, bind, get, need. simpl.
  by rewrite lookup_insert_eq.
Qed.

Lemma exiting_world s me t g c cg : Notific.world inv None (tst s) → runs s me t g c → Sched.state c = Sched.TS_RUNNING →
  Notific.world inv None (tst (exiting t g cg s)) ∧ ¬ Notific.is_waiting (tst (exiting t g cg s)) t.
Proof.
  intros W Hr Hs. destruct (runs_thread _ _ _ _ _ Hr) as [_ Hc]. pose proof Hr as (r & th & Hr' & Et & _).
  assert (¬ Notific.is_waiting (tst s) t) as Nw by (intros (c' & Hc' & Hw & _); unfold sst, sched_state, tst in *; congruence).
  destruct (Notific.not_waiting inv None (tst s) t W Nw) as [Nw1 Nw2]. split.
  - apply (Notific.world_sch inv None t (tst s) _ W); [|done|intros z Hz _; by eapply Nw2|].
    + eapply (Sched.sc_update ops inv (sst s) me r t c); [apply W|done|done|by rewrite Hs|done|by intros u x].
    + intros u Nu (cu & Hu & Hw & Hi). exists cu. simpl. by rewrite Sched.tctx_put_ctx, decide_False.
  - intros (c' & Hc' & Hw & _). simpl in Hc'. rewrite Sched.tctx_put_ctx, decide_True in Hc' by done.
    fold (sst s) in Hc'. rewrite Hc in Hc'. injection Hc' as <-. done.
Qed.

(** What runs on the scheduler state alone leaves the rest as it is. *)
Lemma leave_frame s s' me : leave N ops me s = Away s' → ∃ x, s' = put_sched x s.
Proof.
  unfold leave, on_sch, Capability.on_ext, zoom. destruct (bind _ _ _) as [? x|x| | |]; try done.
  intros [= <-]. by exists x.
Qed.

(** And does not return. *)
Lemma leave_not_done s me x : leave N ops me s ≠ Done tt x.
Proof.
  unfold leave, on_sch, Capability.on_ext, zoom. destruct (bind _ _ _) as [? y|y| | |] eqn:E; try done. exfalso.
  do 2 (apply bind_inv in E as (? & ? & _ & E)). unfold Sched.eret_to_thread in E. by do 2 (apply bind_inv in E as (? & ? & _ & E)).
Qed.

(** [sys_exit_group] makes the thread [TS_EXIT], sets [notify_recycler] and
    leaves for another thread.  It sends the message with the badge and the exit
    code only if [notify_recycler] was set before: the first exit of a process,
    the one that should tell the process manager, sends nothing. *)
Theorem exit_group_ok s me t g c cg y k q code : Notific.world inv None (tst s) → runs s me t g c → Sched.state c = Sched.TS_RUNNING →
  Capability.groups s !! g = Some cg → Capability.notify_recycler cg = 0 ∨ Capability.notify_recycler cg = 1 →
  Notific.notifs (tst s) !! recycle_notification (Capability.ext s) = Some y → recycle_msg_head (Capability.ext s) = [] →
  ring (recycle_msg_buffer (Capability.ext s)) (words (Capability.ext s)) k q → (k + length q < 255)%nat → - 2 ^ 31 ≤ code < 2 ^ 31 →
  if Capability.notify_recycler cg =? 0 then
    sys_exit_group N ops me code s = leave N ops me (exiting t g cg s) ∧
    ∀ s', sys_exit_group N ops me code s = Away s' → words (Capability.ext s') = words (Capability.ext s) ∧
      Notific.notifs (tst s') = Notific.notifs (tst s)
  else
    sys_exit_group N ops me code s = Halt ∨
    ∃ m u y', sys_exit_group N ops me code s = leave N ops me (put_ts u (put_words m (exiting t g cg s))) ∧
      ring (recycle_msg_buffer (Capability.ext s)) m k (q ++ [mk_msg (Capability.badge cg) code]) ∧ Notific.world inv None u ∧
      Notific.notifs u = <[recycle_notification (Capability.ext s) := y']> (Notific.notifs (tst s)) ∧ Notific.abs y' = Notific.sem_signal (Notific.abs y).
Proof.
  intros W Hr Hs Hg Hn Hy Hl R Hk Hcode. rewrite (exit_prefix s me t g c cg code Hr Hg Hn).
  destruct Hn as [En|En]; rewrite En; cbn [Z.eqb Pos.eqb].
  - rewrite (bind_Done _ _ _ tt (exiting t g cg s)) by done. split; [done|]. intros s' (x & ->)%leave_frame. done.
  - destruct (exiting_world s me t g c cg W Hr Hs) as [W1 Nw]. destruct Hr as (r & th & Hr & <- & _).
    destruct (notify_spec (exiting (Sched.current r) g cg s) me r y k q (Capability.badge cg) code W1 Hr Nw Hy Hl R Hk Hcode) as [E|(m & u & y' & E & H1)].
    + left. by apply bind_Halt.
    + right. exists m, u, y'. split; [by rewrite (bind_Done _ _ _ _ _ E)|exact H1].
Qed.

(** *** The process manager *)

(** The process of a message. *)
Definition proc_key (x : recycle_msg) : Z := u64 (s32 (badge x)).
Definition exit_proc (x : recycle_msg) (m : gmap Z proc_node) : gmap Z proc_node :=
  alter (λ p, mk_proc (proc_cap p) true (exitcode x)) (proc_key x) m.
Definition exit_procs (q : list recycle_msg) (m : gmap Z proc_node) : gmap Z proc_node := fold_left (λ m x, exit_proc x m) q m.

Lemma exit_procs_out q : ∀ m j, j ∉ map proc_key q → exit_procs q m !! j = m !! j.
Proof.
  induction q as [|x q IH]; intros m j Hj; [done|]. simpl in Hj. apply not_elem_of_cons in Hj as [N1 N2].
  unfold exit_procs. simpl. fold (exit_procs q (exit_proc x m)). rewrite IH by done. by apply lookup_alter_ne.
Qed.
(** A process that has exited stays so. *)
Lemma exit_procs_stay q : ∀ m j p, m !! j = Some p → exited p = true → ∃ p', exit_procs q m !! j = Some p' ∧ exited p' = true.
Proof.
  induction q as [|x q IH]; intros m j p Hp He; [by exists p|]. unfold exit_procs. simpl. fold (exit_procs q (exit_proc x m)).
  destruct (decide (proc_key x = j)) as [<-|Nj].
  - eapply (IH (exit_proc x m)); [unfold exit_proc; by rewrite lookup_alter_eq, Hp|done].
  - apply (IH _ _ p); [unfold exit_proc; by rewrite lookup_alter_ne|done].
Qed.
Lemma exit_procs_in q : ∀ m, Forall (λ x, is_Some (m !! proc_key x)) q →
  ∀ x, x ∈ q → ∃ p, exit_procs q m !! proc_key x = Some p ∧ exited p = true.
Proof.
  induction q as [|y q IH]; intros m HF x Hx; [by apply not_elem_of_nil in Hx|]. apply Forall_cons in HF as [[p Hp] HF].
  unfold exit_procs. simpl. fold (exit_procs q (exit_proc y m)). apply elem_of_cons in Hx as [->|Hx].
  - eapply exit_procs_stay; [unfold exit_proc; by rewrite lookup_alter_eq, Hp|done].
  - apply IH; [|done]. eapply Forall_impl; [exact HF|]. intros z [pz Hz]. unfold exit_proc.
    destruct (decide (proc_key y = proc_key z)) as [->|Nz]; [rewrite lookup_alter_eq, Hz|rewrite lookup_alter_ne by done]; by eexists.
Qed.

(** Every message is about a process the manager knows and has a capability for. *)
Definition known s (g : Z) (q : list recycle_msg) (m : gmap Z proc_node) : Prop :=
  Forall (λ x, ∃ p cg, m !! proc_key x = Some p ∧ Capability.has_cap s g (proc_cap p) Capability.TYPE_CAP_GROUP cg) q.

Lemma known_exit s s' g x q m : (∀ g' i' ty' x', Capability.has_cap s g' i' ty' x' → Capability.has_cap s' g' i' ty' x') →
  known s g q m → known s' g q (exit_proc x m).
Proof.
  intros Hs Hk. eapply Forall_impl; [exact Hk|]. intros z (p & cg & Hp & Hc). unfold exit_proc. destruct (decide (proc_key x = proc_key z)) as [->|Nz].
  - eexists _, cg. rewrite lookup_alter_eq, Hp. split; [done|]. by apply Hs.
  - exists p, cg. rewrite lookup_alter_ne by done. auto.
Qed.

(** The call does nothing but keep a reference. *)
Lemma cap_group_recycle_keeps s n me t g c i cg : runs s me t g c → Capability.caps_fine n s → 1 ≤ n →
  Capability.has_cap s g i Capability.TYPE_CAP_GROUP cg →
  ∃ o ob, cg = Capability.opaque o ∧ Capability.objects s !! o = Some ob ∧
  sys_cap_group_recycle me i s = Done 0 (Capability.referenced o ob s) ∧ Capability.caps_fine (n - 1) (Capability.referenced o ob s).
Proof.
  intros Hr F Hn Hc. destruct (Capability.obj_get_ref n s g i _ cg F Hn Hc) as (o & ob & Ec & Ho & _ & _ & E & F1). exists o, ob.
  split; [exact Ec|]. split; [exact Ho|]. split; [|exact F1].
  unfold sys_cap_group_recycle. erewrite bind_Done by (by eapply runs_group). erewrite bind_Done by exact E.
  rewrite (proj2 (Z.eqb_neq _ _)) by (exact (Capability.has_cap_nonzero n s g i _ cg F Hc)). done.
Qed.

Lemma on_buf_ok {X} (f : M wordmem X) s P x m : f (words (Capability.ext s)) = Done x m →
  on_kern (Capability.on_ext (zoom words with_words f)) (mk_mgr s P) = Done x (mk_mgr (put_words m s) P).
Proof. intros E. unfold on_kern, Capability.on_ext. erewrite zoom_Done; [reflexivity|]. erewrite zoom_Done by (by apply zoom_Done). done. Qed.
Lemma put_words_id s : put_words (words (Capability.ext s)) s = s.
Proof. destruct s as [a o sm g [i m n b l w]]. done. Qed.

Lemma recycle_one_spec s n me t g c buf k x q P : ring buf (words (Capability.ext s)) k (x :: q) → runs s me t g c →
  Capability.caps_fine n s → 1 ≤ n → known s g (x :: q) P →
  ∃ p s', retrieve_one_msg buf (words (Capability.ext s)) = Done (Some p) (words (Capability.ext s)) ∧
  recycle_one me buf p (mk_mgr s P) = Done tt (mk_mgr s' (exit_proc x P)) ∧
  ring buf (words (Capability.ext s')) (S k) q ∧ runs s' me t g c ∧ Capability.caps_fine (n - 1) s' ∧ known s' g q (exit_proc x P).
Proof.
  intros R Hr F Hn Hk. apply Forall_cons in Hk as [(p & cg & Hp & Hc) Hk].
  destruct (ring_take _ _ _ _ _ R) as (a & m & E1 & E2 & E3 & E4 & R'). destruct (cap_group_recycle_keeps s n me t g c _ cg Hr F Hn Hc) as (o & ob & _ & Ho & E5 & F1).
  assert (∀ g' i' ty' x', Capability.has_cap s g' i' ty' x' → Capability.has_cap (Capability.referenced o ob s) g' i' ty' x') as Hcap
    by (intros; by apply Capability.has_cap_ref).
  assert (Capability.ext (Capability.referenced o ob s) = Capability.ext s) as Ee by done. set (s1 := Capability.referenced o ob s) in *. clearbody s1.
  exists a, (put_words m s1). split; [exact E1|]. split; [|split_and!].
  - unfold recycle_one. cbv zeta. erewrite bind_Done by (apply on_buf_ok; exact E2). rewrite put_words_id.
    rewrite (bind_Done _ _ _ p (mk_mgr s P)) by (unfold procmgr_find_client_proc, bind, get; simpl; unfold proc_key in Hp; by rewrite Hp).
    erewrite bind_Done by (apply on_buf_ok; exact E3). rewrite put_words_id. erewrite bind_Done by reflexivity. cbn [kern procs].
    erewrite bind_Done by (unfold on_kern; apply zoom_Done; exact E5). cbn [procs].
    erewrite on_buf_ok by (rewrite Ee; exact E4). unfold exit_proc. do 2 f_equal. exact (Sched.insert_alter P _ p (λ p, mk_proc (proc_cap p) true (exitcode x)) Hp).
  - done.
  - unfold runs, sst in *. simpl. by rewrite Ee.
  - by apply Capability.caps_fine_ext.
  - eapply known_exit; [|exact Hk]. intros. apply Capability.has_cap_ext. auto.
Qed.

Lemma recycle_all_spec me t g c buf : ∀ q k s n P fuel, ring buf (words (Capability.ext s)) k q → runs s me t g c →
  Capability.caps_fine n s → Z.of_nat (length q) ≤ n → known s g q P → (length q < fuel)%nat →
  ∃ s', recycle_all fuel me buf (mk_mgr s P) = Done tt (mk_mgr s' (exit_procs q P)) ∧
  ring buf (words (Capability.ext s')) (k + length q) [] ∧ Capability.caps_fine (n - Z.of_nat (length q)) s'.
Proof.
  induction q as [|x q IH]; intros k s n P fuel R Hr F Hn Hk Hf; (destruct fuel as [|fuel]; [simpl in Hf; lia|]).
  - exists s. simpl length. rewrite Nat.add_0_r, Z.sub_0_r. split_and!; [|done|done]. simpl.
    erewrite bind_Done by (apply on_buf_ok; by eapply ring_empty). cbv beta iota. by rewrite put_words_id.
  - simpl length in *. destruct (recycle_one_spec s n me t g c buf k x q P R Hr F ltac:(lia) Hk) as (p & s1 & E1 & E2 & R1 & Hr1 & F1 & Hk1).
    destruct (IH (S k) s1 (n - 1) (exit_proc x P) fuel R1 Hr1 F1 ltac:(lia) Hk1 ltac:(lia)) as (s' & E & R' & F').
    exists s'. split_and!.
    + simpl recycle_all. erewrite bind_Done by (apply on_buf_ok; exact E1). cbv beta iota. rewrite put_words_id.
      erewrite bind_Done by exact E2. exact E.
    + by replace (k + S (length q))%nat with (S k + length q)%nat by lia.
    + eapply Capability.caps_fine_le; [exact F'|lia].
Qed.

(** C9: The recycle thread of the process manager empties the ring and returns to
    waiting: it marks the process of every message as exited, with the exit code
    of its last message, and leaves the others as they are.  Room for one more
    reference per message is needed. *)
Theorem recycle_all_ok s n me t g c buf k q P : ring buf (words (Capability.ext s)) k q → runs s me t g c →
  Capability.caps_fine n s → Z.of_nat (length q) ≤ n → known s g q P →
  ∃ s', recycle_all (S (length q)) me buf (mk_mgr s P) = Done tt (mk_mgr s' (exit_procs q P)) ∧
  ring buf (words (Capability.ext s')) (k + length q) [] ∧ Capability.caps_fine (n - Z.of_nat (length q)) s' ∧
  (∀ x, x ∈ q → ∃ p, exit_procs q P !! proc_key x = Some p ∧ exited p = true) ∧
  (∀ j, j ∉ map proc_key q → exit_procs q P !! j = P !! j).
Proof.
  intros R Hr F Hn Hk. destruct (recycle_all_spec me t g c buf q k s n P (S (length q)) R Hr F Hn Hk ltac:(lia)) as (s' & E & R' & F').
  exists s'. split_and!; [done..| |].
  - apply exit_procs_in. eapply Forall_impl; [exact Hk|]. intros x (p & _ & Hp & _). by eexists.
  - apply exit_procs_out.
Qed.

Lemma register_recycle_denied s me t g c cg cap buf : runs s me t g c → Capability.groups s !! g = Some cg →
  Capability.badge cg ≠ Capability.PROCMGR_BADGE → sys_register_recycle me cap buf s = Done (- EPERM) s.
Proof.
  intros Hr Hg Hb. unfold sys_register_recycle. erewrite bind_Done by (by eapply runs_group).
  rewrite (bind_Done _ _ s cg s) by (unfold Capability.group_at, bind, get; by rewrite Hg).
  by rewrite (proj2 (Z.eqb_neq _ _) Hb).
Qed.

End spec.

(** ** A small system

    Thread 10 of process 7 runs; the page is at 40960, notification 501 is that of
    the process manager, thread 500 with the group 1048, which has the process of
    badge 7 as its capability 0. *)
Module RecycleDemo.

Definition zero_words : list (Z * Z) := map (λ i, (40960 + 8 * i, 0)) (seqZ 0 512).
Definition ring_page (c p : Z) : wordmem := <[40960 := c]> (<[40968 := p]> (list_to_map zero_words)).

Lemma page_cells (m : wordmem) : bool_decide (Forall (λ i, is_Some (m !! (40960 + 16 + 16 * i)) ∧ is_Some (m !! (40960 + 24 + 16 * i))) (seqZ 0 255)) = true →
  ∀ i, 0 ≤ i < 255 → is_Some (m !! (40960 + 16 + 16 * i)) ∧ is_Some (m !! (40960 + 24 + 16 * i)).
Proof. intros HF i Hi. apply bool_decide_eq_true in HF. apply (proj1 (Forall_forall _ _) HF). apply elem_of_seqZ. lia. Qed.

Lemma ring0 : ring 40960 (ring_page 16 16) 0 [].
Proof. split; [done|simpl; lia|done|done|apply page_cells; by vm_compute|done]. Qed.
Definition one_msg : wordmem := <[40976 := 7]> (<[40984 := 3]> (ring_page 16 32)).
Lemma ring1 : ring 40960 one_msg 0 [mk_msg 7 3].
Proof.
  split; [done|simpl; lia|done|done|apply page_cells; by vm_compute|].
  intros i x [-> <-]%list_lookup_singleton_Some. split; [done|]. by exists 3.
Qed.
Lemma ring_full : ring 40960 (ring_page 4096 4096) 255 [].
Proof. split; [done|simpl; lia|done|done|apply page_cells; by vm_compute|done]. Qed.

Definition rs (w : wordmem) (t : tstate Z Z) : rstate (H := Z) (B := Z) (K := Z) :=
  mk_rstate (Notific.mk_istate t ∅ ∅ ∅) Memory.MDemo.mem0 501 40960 [] w.
Definition exit0 (flag : Z) : Capability.kstate (A := Z) (E := rstate (H := Z) (B := Z) (K := Z)) :=
  Capability.mk_kstate 0 ∅ ∅ {[80 := Capability.mk_cap_group Capability.Sample.table0 7 flag]} (rs (ring_page 16 16) Notific.NDemo.w0).
Lemma runs0 flag : runs (exit0 flag) 0 10 80 (Sched.Demo.user Sched.TS_RUNNING 5 Sched.KS_LOCKED).
Proof. eexists _, _. by split_and!. Qed.

Definition mgr_type (o : Z) : Z := if o =? 2000 then Capability.TYPE_CAP_GROUP else Capability.TYPE_PMO.
Definition mgr0 : Capability.kstate (A := Z) (E := rstate (H := Z) (B := Z) (K := Z)) :=
  Capability.retype (rs one_msg (Notific.mk_tstate Memory.MDemo.sch0 ∅ ∅ ∅ 0 ∅)) (Capability.Sample.full tt mgr_type).
Definition procs0 : gmap Z proc_node := {[7 := mk_proc 0 false 0; 8 := mk_proc 1 false 0]}.
Lemma mgr_cap : Capability.has_cap mgr0 1048 0 Capability.TYPE_CAP_GROUP 2048.
Proof. apply Capability.retype_cap. apply (Capability.Sample.full_cap tt mgr_type 0). lia. Qed.
Lemma mgr_fine : Capability.caps_fine 1 mgr0.
Proof. apply Capability.retype_fine. eapply Capability.caps_fine_le; [apply Capability.Sample.full_fine|lia]. Qed.

End RecycleDemo.

Import RecycleDemo.
#[local] Existing Instance RR.rr_scheduler.

Lemma ring_fifo_witness : ∃ m', ring_run 40960 [Take; Post (mk_msg 7 3); Post (mk_msg 8 (-1)); Take; Take; Take] (ring_page 16 16) =
  Done [None; None; None; Some (mk_msg 7 3); Some (mk_msg 8 (-1)); None] m'.
Proof.
  apply (ring_fifo 40960 [Take; Post (mk_msg 7 3); Post (mk_msg 8 (-1)); Take; Take; Take] _ 0 [] ring0).
  - simpl. lia.
  - repeat constructor; simpl; lia.
Defined.

Lemma exit_group_ok_witness : sys_exit_group 2 Notific.NDemo.ops0 0 3 (exit0 0) =
  leave 2 Notific.NDemo.ops0 0 (exiting 10 80 (Capability.mk_cap_group Capability.Sample.table0 7 0) (exit0 0)).
Proof.
  refine (proj1 (exit_group_ok 2 Notific.NDemo.ops0 Notific.NDemo.inv0 (exit0 0) 0 10 80 _ (Capability.mk_cap_group Capability.Sample.table0 7 0) (Notific.mk_notific 2 0 []) 0 [] 3 _ (runs0 0) _ _ _ _ _ ring0 _ _)).
  - exact Notific.NDemo.demo_world.
  - reflexivity.
  - reflexivity.
  - left. reflexivity.
  - reflexivity.
  - reflexivity.
  - simpl. lia.
  - lia.
Defined.

Lemma recycle_all_ok_witness : ∃ s', recycle_all 2 0 40960 (mk_mgr mgr0 procs0) = Done tt (mk_mgr s' (exit_procs [mk_msg 7 3] procs0)).
Proof.
  destruct (recycle_all_ok mgr0 1 0 500 1048 (Memory.MDemo.user Sched.TS_RUNNING Sched.KS_LOCKED {[Sched.X0 := 5]}) 40960 0 [mk_msg 7 3] procs0) as (s' & E & _).
  - exact ring1.
  - eexists _, _. split_and!; reflexivity.
  - exact mgr_fine.
  - simpl. lia.
  - constructor; [|constructor]. exists (mk_proc 0 false 0), 2048. split; [reflexivity|exact mgr_cap].
  - exists s'. exact E.
Defined.

(** An unread message is overwritten: 255 messages fill the page, one is taken, and
    of the next two the second goes where the second oldest one is. *)
Example ring_overwrites :
  match ring_run 40960 [Take; Post (mk_msg 100 0); Post (mk_msg 101 0); Take] (<[40992 := 2]> (<[40976 := 1]> (ring_page 16 4096))) with
  | Done l _ => l = [Some (mk_msg 1 0); None; None; Some (mk_msg 101 0)]
  | _ => False
  end.
Proof. vm_compute. reflexivity. Qed.

(** Saved messages go behind the new one, the one that was saved last first. *)
Example saved_messages_put : match notify_user_recycler 2 Notific.NDemo.ops0 0 8 0
    (Capability.with_ext (with_msgs [(9000, mk_msg 7 3); (9100, mk_msg 6 2)] (rs (ring_page 16 16) Notific.NDemo.w0)) (exit0 1)) with
  | Done _ s => recycle_msg_head (Capability.ext s) = [] ∧ (λ a, words (Capability.ext s) !! a) <$> [40976; 40992; 41008] = [Some 8; Some 7; Some 6]
  | _ => False
  end.
Proof. vm_compute. split; reflexivity. Qed.

End Recycle.
