(* ===== verification/Thread.v ===== *)
(** * Threads (kernel/object/thread.c)

    Creation, exit and affinity of threads.  The state adds to that of Recycle.v
    the list and the count of the threads of each group, and the field
    [general_ipc_config] of the threads.  A group that never had a thread has the
    empty list and the count 0, as [cap_group_init] leaves them.

    The code of thread.c that starts the first process is in Root.v. *)

From S2P Require Import Prelude Allocator Uaccess Capability Sched PolicyRR Notific Memory Recycle.

Module Thread.

Import Allocator Uaccess.
Import Sched(sstate, TS_INTER, TS_WAITING, TS_EXIT, TS_EXITING, TS_RUNNING, TS_READY, NO_AFF, TYPE_USER, TYPE_SHADOW).
Import Recycle(rstate).

#[local] Existing Instance Sched.thread_state_eq_dec.

Definition EINVAL : Z := 22.
Definition ENOMEM : Z := 12.

(** [struct thread_args] *)
Record thread_args := mk_args {
  a_cap_group_cap : Z; a_stack : Z; a_pc : Z; a_arg : Z; a_prio : Z; a_tls : Z; a_is_shadow : Z }.

Section thread.
Context {A H B : Type} `{!Allocator A, !Allocator H, !Allocator B, !PageAllocator B}.
Context {K : Type} `{!EqDecision K, !Countable K}.
Context (oob : Z → Z) (PLAT_CPU_NUM SIZEOF_THREAD : Z) (ops : Sched.sched_ops H K).

Record thstate := mk_thstate {
  rs : rstate (H := H) (B := B) (K := K);
  thread_list : gmap Z (list Z);
  thread_cnt : gmap Z Z;
  ipc_config : gmap Z Z
}.

Definition with_rs (x : rstate) (s : thstate) : thstate := mk_thstate x (thread_list s) (thread_cnt s) (ipc_config s).
Definition with_list (g : Z) (l : list Z) (s : thstate) : thstate :=
  mk_thstate (rs s) (<[g := l]> (thread_list s)) (thread_cnt s) (ipc_config s).
Definition with_cnt (g n : Z) (s : thstate) : thstate :=
  mk_thstate (rs s) (thread_list s) (<[g := n]> (thread_cnt s)) (ipc_config s).
Definition with_ipc_config (t p : Z) (s : thstate) : thstate :=
  mk_thstate (rs s) (thread_list s) (thread_cnt s) (<[t := p]> (ipc_config s)).

Definition list_of (g : Z) (s : thstate) : list Z := default [] (thread_list s !! g).
Definition cnt_of (g : Z) (s : thstate) : Z := default 0 (thread_cnt s !! g).

Abbreviation kstate := (Capability.kstate (A := A) (E := thstate)).
Abbreviation MT := (M kstate).
Import Capability(obj_alloc, obj_free, obj_get, obj_put, cap_alloc, cap_copy, on_ext, TYPE_THREAD, TYPE_CAP_GROUP, TYPE_VMSPACE,
  CAP_GROUP_OBJ_ID, VMSPACE_OBJ_ID, ECAPBILITY).

(** Code of Recycle.v, of Notific.v and of Sched.v. *)
Definition on_rs {X} (m : M (Capability.kstate (A := A) (E := rstate)) X) : MT X :=
  zoom (λ s, Capability.mk_kstate (Capability.al s) (Capability.objects s) (Capability.slotmem s) (Capability.groups s) (rs (Capability.ext s)))
    (λ k s, Capability.mk_kstate (Capability.al k) (Capability.objects k) (Capability.slotmem k) (Capability.groups k)
       (with_rs (Capability.ext k) (Capability.ext s))) m.
Definition sch_of (s : thstate) : sstate H K := Recycle.sched_state (rs s).
Definition with_sch (x : sstate H K) (s : thstate) : thstate := with_rs (Recycle.with_sched x (rs s)) s.
Definition on_sched {X} (m : M (sstate H K) X) : M thstate X := zoom sch_of with_sch m.
Definition on_sch {X} (m : M (sstate H K) X) : MT X := on_ext (on_sched m).
Definition on_notific {X} (m : M (Notific.tstate H K) X) : MT X := on_rs (Recycle.on_notific m).

Definition current_thread (me : Z) : MT Z := on_sch (Sched.current_thread me).
Definition current_cap_group (me : Z) : MT Z :=
  t <- current_thread me ;; th <- on_sch (Sched.thread_at t) ;; ret (Sched.cap_group th).

(** Stores to the fields of a thread. *)
Definition set_cap_group (t g : Z) : MT unit :=
  on_sch (th <- Sched.thread_at t ;; Sched.set_thread t (Sched.mk_thread (Sched.ctx th) (Sched.prev_thread th) (Sched.vmspace th) g)).
Definition set_vmspace (t v : Z) : MT unit :=
  on_sch (th <- Sched.thread_at t ;; Sched.set_thread t (Sched.mk_thread (Sched.ctx th) (Sched.prev_thread th) v (Sched.cap_group th))).
Definition set_ctx (t : Z) (c : option Sched.thread_ctx) : MT unit :=
  on_sch (th <- Sched.thread_at t ;; Sched.set_thread t (Sched.mk_thread c (Sched.prev_thread th) (Sched.vmspace th) (Sched.cap_group th))).

(** [obj_alloc(TYPE_THREAD, sizeof( *thread))]: the memory is zeroed. *)
Definition alloc_thread : MT Z :=
  t <- obj_alloc TYPE_THREAD SIZEOF_THREAD ;;
  if t =? 0 then ret 0
  else
    on_sch (Sched.set_thread t (Sched.mk_thread None 0 0 0)) ;;
    on_notific (modify (Notific.with_sleep (<[t := Notific.mk_sleep 0 0 0 None]>))) ;;
    on_ext (modify (with_ipc_config t 0)) ;;
    ret t.

(** [aff % PLAT_CPU_NUM] on [int]s. *)
Definition thread_init (t g stack pc prio type aff : Z) : MT Z :=
  cg <- obj_get g CAP_GROUP_OBJ_ID TYPE_CAP_GROUP ;;
  set_cap_group t cg ;;
  vm <- obj_get g VMSPACE_OBJ_ID TYPE_VMSPACE ;;
  set_vmspace t vm ;;
  obj_put cg ;;
  obj_put vm ;;
  c <- on_sch Sched.create_thread_ctx ;;
  set_ctx t c ;;
  match c with
  | None => ret (- ENOMEM)
  | Some _ =>
      on_sch (Sched.init_thread_ctx t stack pc prio type (Z.rem aff PLAT_CPU_NUM)) ;;
      on_sch (Sched.set_prev t 0) ;;
      on_ext (modify (with_ipc_config t 0)) ;;
      on_notific (Notific.upd_sleep t (Notific.with_cb None)) ;;
      ret 0
  end.

(** [list_del(&thread->node)]; a node that is on no list is a fault. *)
Definition node_del (t g : Z) : M thstate unit :=
  s <- get ;; if bool_decide (t ∈ list_of g s) then modify (with_list g (filter (λ u, u ≠ t) (list_of g s))) else fault.

Definition thread_deinit (t : Z) : M thstate unit :=
  c <- on_sched (Sched.ctx_of t) ;;
  if bool_decide (Sched.state c = TS_RUNNING) then halt
  else
    (if bool_decide (Sched.state c = TS_READY) then on_sched (Sched.sched_dequeue ops t) ;; ret tt else ret tt) ;;
    th <- on_sched (Sched.thread_at t) ;;
    node_del t (Sched.cap_group th) ;;
    on_sched (Sched.destroy_thread_ctx t).

(** [obj_deinit_tbl], with that of the interrupts. *)
Definition obj_deinit (ty p : Z) : M thstate unit :=
  if ty =? TYPE_THREAD then thread_deinit p
  else if ty =? Capability.TYPE_IRQ then
    zoom rs with_rs (zoom Recycle.irqs Recycle.with_irqs (Notific.irq_deinit p))
  else ret tt.

(** The object is used by nobody else: the last reference goes, and then the
    kernel stops in any case. *)
Definition handle_pending_exit (me : Z) : MT unit :=
  t <- current_thread me ;;
  if t =? 0 then ret tt
  else
    c <- on_sch (Sched.ctx_of t) ;;
    if bool_decide (Sched.state c = TS_EXITING) then
      on_sch (Sched.upd_ctx t (Sched.with_state TS_EXIT)) ;;
      ob <- Capability.object_at (Capability.container_of t) ;;
      BUG_ON (negb (Capability.refcount ob =? 1)) ;;
      obj_put t ;;
      on_sch (Sched.upd_cpu me (Sched.with_current 0)) ;;
      halt
    else ret tt.

(** [list_add(&thread->node, &cap_group->thread_list)] and the count. *)
Definition join_group (t g : Z) : MT unit :=
  s <- on_ext get ;;
  (if bool_decide (t ∈ list_of g s) then fault else on_ext (modify (with_list g (t :: list_of g s)))) ;;
  on_ext (modify (with_cnt g (s32 (cnt_of g s + 1)))).

Definition create_thread (me g stack pc arg prio type tls : Z) : MT Z :=
  if g =? 0 then ret (- ECAPBILITY)
  else
    t <- alloc_thread ;;
    if t =? 0 then obj_put g ;; ret (- ENOMEM)
    else
      r <- thread_init t g stack pc prio type NO_AFF ;;
      if negb (r =? 0) then obj_free obj_deinit t ;; obj_put g ;; ret r
      else
        join_group t g ;;
        on_sch (Sched.arch_set_thread_arg t arg) ;;
        on_sch (Sched.arch_set_thread_tls t tls) ;;
        cap <- cap_alloc oob g t 0 ;;
        if cap <? 0 then obj_free obj_deinit t ;; obj_put g ;; ret cap
        else
          cur <- current_cap_group me ;;
          cap <- cap_copy oob g cur cap false 0 ;;
          (if type =? TYPE_USER then
             on_sch (Sched.upd_ctx t (Sched.with_state TS_INTER)) ;;
             r <- on_sch (Sched.sched_enqueue ops me t) ;;
             BUG_ON (negb (r =? 0))
           else if type =? TYPE_SHADOW then on_sch (Sched.upd_ctx t (Sched.with_state TS_WAITING))
           else ret tt) ;;
          ret cap.

(** [a] is what the user has at [thread_args_p]. *)
Definition sys_create_thread (me thread_args_p : Z) (a : thread_args) : MT Z :=
  args <- copy_from_user thread_args_p a ;;
  g <- current_cap_group me ;;
  cap_group <- obj_get g (s32 (a_cap_group_cap args)) TYPE_CAP_GROUP ;;
  let type := if a_is_shadow args =? 1 then TYPE_SHADOW else TYPE_USER in
  thread_cap <- create_thread me cap_group (a_stack args) (a_pc args) (a_arg args) (a_prio args) type (a_tls args) ;;
  obj_put cap_group ;;
  ret thread_cap.

(** [sys_exit_group] does not return. *)
Definition sys_thread_exit (me : Z) : MT unit :=
  t <- current_thread me ;;
  on_sch (Sched.upd_ctx t (Sched.with_state TS_EXIT)) ;;
  g <- current_cap_group me ;;
  s <- on_ext get ;;
  let cnt := s32 (cnt_of g s - 1) in
  on_ext (modify (with_cnt g cnt)) ;;
  (if cnt =? 0 then on_rs (Recycle.sys_exit_group PLAT_CPU_NUM ops me 0) else ret tt) ;;
  on_rs (Recycle.leave PLAT_CPU_NUM ops me).

(** The thread of [sys_set_affinity] and [sys_get_affinity]: -1 is the current one. *)
Definition SELF : Z := u64 (-1).
Definition affinity_thread (me thread_cap : Z) : MT Z :=
  if thread_cap =? SELF then t <- current_thread me ;; BUG_ON (t =? 0) ;; ret t
  else g <- current_cap_group me ;; obj_get g (s32 thread_cap) TYPE_THREAD.

Definition sys_set_affinity (me thread_cap aff : Z) : MT Z :=
  t <- affinity_thread me thread_cap ;;
  if t =? 0 then ret (- ECAPBILITY)
  else
    r <- (if PLAT_CPU_NUM <=? aff then ret (- EINVAL)
          else on_sch (Sched.upd_ctx t (Sched.with_affinity aff)) ;; ret 0) ;;
    (if negb (thread_cap =? SELF) then obj_put t else ret tt) ;;
    ret r.

Definition sys_get_affinity (me thread_cap : Z) : MT Z :=
  t <- affinity_thread me thread_cap ;;
  if t =? 0 then ret (- ECAPBILITY)
  else
    c <- on_sch (Sched.ctx_of t) ;;
    (if negb (thread_cap =? SELF) then obj_put t else ret tt) ;;
    ret (Sched.affinity c).

End thread.

Section spec.
Context {A H B : Type} `{!Allocator A, !Allocator H, !Allocator B, !PageAllocator B}.
Context {K : Type} `{!EqDecision K, !Countable K}.
Context (N : Z) (ops : Sched.sched_ops H K).
Abbreviation tht := (thstate (H := H) (B := B) (K := K)).
Abbreviation kst := (Capability.kstate (A := A) (E := tht)).
Implicit Types s : kst.

Definition sst s : sstate H K := sch_of (Capability.ext s).
Definition put_sch (x : sstate H K) s : kst := Capability.with_ext (with_sch x (Capability.ext s)) s.
Definition put_thread (t : Z) (f : Sched.thread_ctx → Sched.thread_ctx) s : kst := put_sch (Sched.put_ctx t f (sst s)) s.

Lemma thread_sch_ok {X} (f : M (sstate H K) X) s x y : f (sst s) = Done x y → on_sch f s = Done x (put_sch y s).
Proof. intros E. unfold on_sch, Capability.on_ext, on_sched. erewrite zoom_Done by (by apply zoom_Done). done. Qed.
Lemma put_sch_id s : put_sch (sst s) s = s.
Proof. by destruct s as [a o sm g [[[[sc sl ti no re tm] i1 i2 i3] m n b l w] tl tc ic]]. Qed.
Lemma thread_sch_read {X} (f : M (sstate H K) X) s x : f (sst s) = Done x (sst s) → on_sch f s = Done x s.
Proof. intros E. rewrite <- (put_sch_id s) at 2. by apply thread_sch_ok. Qed.

(** A thread of group [g] runs on CPU [me]. *)
Definition runs s (me t g : Z) : Prop :=
  ∃ r th, Sched.cpus (sst s) !! me = Some r ∧ Sched.current r = t ∧ Sched.threads (sst s) !! t = Some th ∧ Sched.cap_group th = g.

Lemma this_thread_ok s me t g : runs s me t g → current_thread me s = Done t s.
Proof. intros (r & th & Hr & <- & _). apply thread_sch_read. by apply Sched.current_thread_ok. Qed.
Lemma this_group_ok s me t g : runs s me t g → current_cap_group me s = Done g s.
Proof.
  intros R. unfold current_cap_group. erewrite bind_Done by (by eapply this_thread_ok). destruct R as (r & th & _ & _ & Ht & <-).
  by erewrite bind_Done by (apply thread_sch_read; by apply Sched.thread_at_ok).
Qed.
Lemma runs_put s me t g u f : runs s me t g → runs (put_thread u f s) me t g.
Proof.
  intros (r & th & Hr & Et & Ht & Hg). destruct (decide (u = t)) as [->|Nu].
  - eexists r, _. split_and!; [exact Hr|done|simpl; by rewrite lookup_alter_eq, Ht|done].
  - exists r, th. split_and!; [exact Hr|done|simpl; by rewrite lookup_alter_ne|done].
Qed.

(** ** Affinity *)

(** [thread_cap] names thread [t]: the current one or one of the caller's. *)
Definition names s (me thread_cap t : Z) : Prop :=
  t ≠ 0 ∧ ∃ u g, runs s me u g ∧
  if thread_cap =? SELF then u = t
  else Capability.caps_fine 1 s ∧ Capability.has_cap s g (s32 thread_cap) Capability.TYPE_THREAD t.

Lemma names_put s me cap t u f : names s me cap t → names (put_thread u f s) me cap t.
Proof.
  intros (Nt & v & g & R & Hn). split; [done|]. exists v, g. split; [by apply runs_put|]. destruct (cap =? SELF); [done|].
  destruct Hn as [F Hc]. split; [by apply Capability.caps_fine_ext|by apply Capability.has_cap_ext].
Qed.

(** The thread, and the reference to it given back. *)
Lemma affinity_thread_spec s me cap t : names s me cap t → ∃ s1, affinity_thread me cap s = Done t s1 ∧ Capability.ext s1 = Capability.ext s ∧
  ∀ e, (if negb (cap =? SELF) then Capability.obj_put t else ret tt) (Capability.with_ext e s1) = Done tt (Capability.with_ext e s).
Proof.
  intros (Nt & u & g & R & Hn). unfold affinity_thread. destruct (cap =? SELF).
  - subst u. exists s. split; [|done]. erewrite bind_Done by (by eapply this_thread_ok). by rewrite (proj2 (Z.eqb_neq _ _) Nt).
  - destruct Hn as [F Hc]. destruct (Capability.obj_get_cap 1 s g _ _ t F ltac:(lia) Hc) as (s1 & E & _ & Ee & _ & Hp & _).
    exists s1. split; [|done]. by erewrite bind_Done by (by eapply this_group_ok).
Qed.

Lemma get_affinity_spec s me cap t c : names s me cap t → Sched.tctx (sst s) t = Some c → sys_get_affinity me cap s = Done (Sched.affinity c) s.
Proof.
  intros Hn Hc. destruct (affinity_thread_spec s me cap t Hn) as (s1 & E & Ee & Hp). unfold sys_get_affinity.
  erewrite bind_Done by exact E. rewrite (proj2 (Z.eqb_neq _ _) (proj1 Hn)).
  assert (Sched.tctx (sst s1) t = Some c) as Hc1 by (unfold sst; by rewrite Ee).
  erewrite bind_Done by (apply thread_sch_read; by apply Sched.ctx_of_ok).
  specialize (Hp (Capability.ext s)). rewrite (bind_Done _ _ s1 tt s); [done|]. rewrite <- Ee in Hp at 1. destruct s1, s. exact Hp.
Qed.

(** [sys_set_affinity] refuses CPU numbers that do not exist, without effect;
    else it changes the affinity of exactly the thread it names and no reference
    count, and [sys_get_affinity] gives back what was set. *)
Theorem affinity_roundtrip s me cap t c aff : names s me cap t → Sched.tctx (sst s) t = Some c →
  if N <=? aff then sys_set_affinity N me cap aff s = Done (- EINVAL) s ∧ sys_get_affinity me cap s = Done (Sched.affinity c) s
  else sys_set_affinity N me cap aff s = Done 0 (put_thread t (Sched.with_affinity aff) s) ∧
    sys_get_affinity me cap (put_thread t (Sched.with_affinity aff) s) = Done aff (put_thread t (Sched.with_affinity aff) s).
Proof.
  intros Hn Hc. destruct (affinity_thread_spec s me cap t Hn) as (s1 & E & Ee & Hp). unfold sys_set_affinity.
  erewrite bind_Done by exact E. rewrite (proj2 (Z.eqb_neq _ _) (proj1 Hn)). destruct (N <=? aff).
  - split; [|by eapply get_affinity_spec]. erewrite bind_Done by reflexivity. specialize (Hp (Capability.ext s)).
    rewrite (bind_Done _ _ s1 tt s); [done|]. rewrite <- Ee in Hp at 1. destruct s1, s. exact Hp.
  - split.
    + erewrite bind_Done by (erewrite bind_Done by (apply thread_sch_ok; unfold sst; rewrite Ee; by eapply Sched.upd_ctx_ok); reflexivity).
      unfold put_sch. rewrite Ee. by erewrite bind_Done by apply Hp.
    + eapply (get_affinity_spec _ _ _ _ (Sched.with_affinity aff c)); [by apply names_put|].
      exact (Sched.with_fold_ctx (sst s) t c Hc (Sched.with_affinity aff)).
Qed.

(** ** Exit *)

Definition put_cnt (g n : Z) s : kst := Capability.with_ext (with_cnt g n (Capability.ext s)) s.

Lemma exit_group_not_done s u code (x : Capability.kstate) : on_rs (Recycle.sys_exit_group N ops u code) s ≠ Done tt x.
Proof.
  unfold on_rs, zoom. destruct (Recycle.sys_exit_group _ _ _ _ _) as [[] y|y| | |] eqn:E; try done. exfalso. unfold Recycle.sys_exit_group in E.
  do 5 (apply bind_inv in E as (? & ? & _ & E)). by eapply Recycle.leave_not_done.
Qed.

(** [sys_thread_exit] makes the thread [TS_EXIT], counts it out of its group,
    and ends the process with exit code 0 exactly if it was the last one; else only
    the CPU goes on to another thread. *)
Theorem thread_exit_ok s me t g c : runs s me t g → Sched.tctx (sst s) t = Some c → 0 < cnt_of g (Capability.ext s) < 2 ^ 31 →
  let s' := put_cnt g (cnt_of g (Capability.ext s) - 1) (put_thread t (Sched.with_state TS_EXIT) s) in
  sys_thread_exit N ops me s =
    if cnt_of g (Capability.ext s) =? 1 then on_rs (Recycle.sys_exit_group N ops me 0) s' else on_rs (Recycle.leave N ops me) s'.
Proof.
  intros R Hc Hn s'. unfold sys_thread_exit. erewrite bind_Done by (by eapply this_thread_ok).
  erewrite bind_Done by (apply thread_sch_ok; by eapply Sched.upd_ctx_ok). fold (put_thread t (Sched.with_state TS_EXIT) s).
  erewrite bind_Done by (eapply this_group_ok; by apply runs_put). erewrite bind_Done by reflexivity.
  change (cnt_of g (Capability.ext (put_thread t (Sched.with_state TS_EXIT) s))) with (cnt_of g (Capability.ext s)).
  rewrite s32_id by lia. rewrite (bind_Done _ _ _ tt s') by reflexivity. replace (cnt_of g (Capability.ext s) - 1 =? 0) with (cnt_of g (Capability.ext s) =? 1) by lia.
  destruct (_ =? 1); [|done]. unfold bind. destruct (on_rs _ s') as [[] x| | | |] eqn:E; try done. by destruct (exit_group_not_done s' me 0 x).
Qed.

(** ** Initialisation *)

Definition new_ctx (stack pc prio type aff p q r : Z) : Sched.thread_ctx :=
  Sched.mk_ctx (<[Sched.SPSR_EL1 := Sched.SPSR_EL1_EL0t]> (<[Sched.ELR_EL1 := pc]> (<[Sched.SP_EL0 := stack]> ∅)))
    p q 0 0 r Sched.DEFAULT_BUDGET type Sched.TS_INIT prio aff 0 Sched.KS_FREE.

(** The kernel heap serves the three requests for a thread context. *)
Definition heap_for_ctx (a a' : H) (p q r : Z) : Prop :=
  p ≠ 0 ∧ q ≠ 0 ∧ r ≠ 0 ∧ ∃ a1 a2, al_zalloc Sched.DEFAULT_KERNEL_STACK_SZ a = Done p a1 ∧ al_zalloc Sched.SIZEOF_FPU_AREA a1 = Done q a2 ∧
  al_alloc Sched.SIZEOF_SCHED_CONT a2 = Done r a'.

(** The context of a thread, created and initialised. *)
Lemma ctx_run (x : sstate H K) t pv v g stack pc prio type aff a p q r :
  Sched.threads x !! t = Some (Sched.mk_thread None pv v g) → heap_for_ctx (Sched.al x) a p q r →
  ∃ x1 c, Sched.create_thread_ctx x = Done (Some c) x1 ∧ Sched.threads x1 = Sched.threads x ∧
  (Sched.set_thread t (Sched.mk_thread (Some c) pv v g) ;; Sched.init_thread_ctx t stack pc prio type aff ;; Sched.set_prev t 0) x1 =
  Done tt (Sched.mk_sstate a (<[t := Sched.mk_thread (Some (new_ctx stack pc prio type aff p q r)) 0 v g]> (Sched.threads x))
    (Sched.cpus x) (Sched.ready x) (Sched.history x)).
Proof.
  intros Ht (Np & Nq & Nr & a1 & a2 & E1 & E2 & E3). destruct x as [al th cp rd hi]. simpl in *. eexists _, _. split; [|split].
  - unfold Sched.create_thread_ctx, Sched.arch_init_thread_fpu, Sched.on_al, zoom, bind. simpl. rewrite E1, (proj2 (Z.eqb_neq _ _) Np). simpl.
    rewrite E2, (proj2 (Z.eqb_neq _ _) Nq). reflexivity.
  - done.
  - unfold Sched.init_thread_ctx, Sched.set_reg, Sched.upd_ctx, Sched.set_prev, Sched.thread_at, Sched.set_thread, Sched.with_threads, Sched.on_al,
      need, zoom, modify, bind, get, ret. simpl. repeat (rewrite lookup_insert_eq; simpl). rewrite E3, (proj2 (Z.eqb_neq _ _) Nr). simpl.
    repeat (rewrite lookup_insert_eq; simpl). by rewrite !insert_insert_eq.
Qed.

Definition tst s : Notific.tstate H K := Notific.ts (Recycle.irqs (rs (Capability.ext s))).
Definition put_ts (u : Notific.tstate H K) s : kst :=
  let e := Capability.ext s in
  Capability.with_ext (with_rs (Recycle.with_irqs (Recycle.with_ts u (Recycle.irqs (rs e))) (rs e)) e) s.

Lemma thread_notific_ok {X} (f : M (Notific.tstate H K) X) s x u : f (tst s) = Done x u → on_notific f s = Done x (put_ts u s).
Proof.
  intros E. unfold on_notific, on_rs, Recycle.on_notific, Capability.on_ext.
  erewrite zoom_Done; [|apply (zoom_Done Capability.ext Capability.with_ext); apply zoom_Done; exact E]. done.
Qed.

(** The stores to fields. *)
Lemma set_cap_group_ok s t th g : Sched.threads (sst s) !! t = Some th → set_cap_group t g s =
  Done tt (put_sch (Sched.with_threads (<[t := Sched.mk_thread (Sched.ctx th) (Sched.prev_thread th) (Sched.vmspace th) g]>) (sst s)) s).
Proof. intros Ht. apply thread_sch_ok. by erewrite bind_Done by (by apply Sched.thread_at_ok). Qed.
Lemma set_vmspace_ok s t th v : Sched.threads (sst s) !! t = Some th → set_vmspace t v s =
  Done tt (put_sch (Sched.with_threads (<[t := Sched.mk_thread (Sched.ctx th) (Sched.prev_thread th) v (Sched.cap_group th)]>) (sst s)) s).
Proof. intros Ht. apply thread_sch_ok. by erewrite bind_Done by (by apply Sched.thread_at_ok). Qed.

Lemma sch_with_sch (x : sstate H K) (e : tht) : sch_of (with_sch x e) = x.
Proof. done. Qed.
Lemma with_threads_twice (x : sstate H K) t u v :
  Sched.with_threads (<[t := u]>) (Sched.with_threads (<[t := v]>) x) = Sched.with_threads (<[t := u]>) x.
Proof. unfold Sched.with_threads. simpl. by rewrite insert_insert_eq. Qed.

(** What follows the two references. *)
Lemma init_tail s t v g stack pc prio type aff a p q r z :
  Sched.threads (sst s) !! t = Some (Sched.mk_thread None 0 v g) → Notific.sleep (tst s) !! t = Some z → heap_for_ctx (Sched.al (sst s)) a p q r →
  ∃ e, (c <- on_sch Sched.create_thread_ctx ;; set_ctx t c ;;
    match c with
    | None => ret (- ENOMEM)
    | Some _ => on_sch (Sched.init_thread_ctx t stack pc prio type aff) ;; on_sch (Sched.set_prev t 0) ;;
        Capability.on_ext (modify (with_ipc_config t 0)) ;; on_notific (Notific.upd_sleep t (Notific.with_cb None)) ;; ret 0
    end) s = Done 0 (Capability.with_ext e s) ∧
  sch_of e = Sched.mk_sstate a (<[t := Sched.mk_thread (Some (new_ctx stack pc prio type aff p q r)) 0 v g]> (Sched.threads (sst s)))
    (Sched.cpus (sst s)) (Sched.ready (sst s)) (Sched.history (sst s)) ∧
  thread_list e = thread_list (Capability.ext s) ∧ thread_cnt e = thread_cnt (Capability.ext s).
Proof.
  intros Ht Hz Hh. destruct (ctx_run (sst s) t 0 v g stack pc prio type aff a p q r Ht Hh) as (x1 & c & E1 & Et & E).
  apply bind_inv in E as ([] & y1 & E2 & E). apply bind_inv in E as ([] & y2 & E3 & E4).
  assert (Sched.threads x1 !! t = Some (Sched.mk_thread None 0 v g)) as Ht1 by (by rewrite Et).
  erewrite bind_Done by (apply thread_sch_ok; exact E1). cbv beta.
  erewrite bind_Done by (apply thread_sch_ok; erewrite bind_Done by (apply Sched.thread_at_ok; exact Ht1); exact E2).
  erewrite bind_Done by (apply thread_sch_ok; exact E3). erewrite bind_Done by (apply thread_sch_ok; exact E4). erewrite bind_Done by reflexivity.
  erewrite bind_Done by (apply thread_notific_ok; by apply Notific.upd_sleep_ok). eexists. split; [reflexivity|]. done.
Qed.

(** C10: [thread_init] gives the thread the group and the address space of the
    capabilities 0 and 1 of the group, without keeping a reference, and a context
    with the stack, entry point, priority, type and affinity (the remainder by the
    number of CPUs) it is given; every other thread stays as it is. *)
Theorem thread_init_ok s t g cg vm stack pc prio type aff a p q r z :
  Capability.caps_fine 2 s → Capability.has_cap s g 0 Capability.TYPE_CAP_GROUP cg → Capability.has_cap s g 1 Capability.TYPE_VMSPACE vm →
  Sched.threads (sst s) !! t = Some (Sched.mk_thread None 0 0 0) → Notific.sleep (tst s) !! t = Some z → heap_for_ctx (Sched.al (sst s)) a p q r →
  ∃ e, thread_init N t g stack pc prio type aff s = Done 0 (Capability.with_ext e s) ∧
  sch_of e = Sched.mk_sstate a (<[t := Sched.mk_thread (Some (new_ctx stack pc prio type (Z.rem aff N) p q r)) 0 vm cg]> (Sched.threads (sst s)))
    (Sched.cpus (sst s)) (Sched.ready (sst s)) (Sched.history (sst s)) ∧
  thread_list e = thread_list (Capability.ext s) ∧ thread_cnt e = thread_cnt (Capability.ext s).
Proof.
  intros F Hg Hv Ht Hz Hh. assert (cg ≠ vm) as Ncv by (intros <-; by pose proof (Capability.has_cap_type _ _ _ _ _ _ _ _ Hg Hv)).
  destruct (Capability.obj_get_two 2 s g 0 _ cg g 1 _ vm F ltac:(lia) Hg Hv Ncv) as (s1 & E1 & Ee1 & H2).
  assert (Sched.threads (sst s1) !! t = Some (Sched.mk_thread None 0 0 0)) as Ht1 by (unfold sst; by rewrite Ee1).
  unfold thread_init. erewrite bind_Done by exact E1. erewrite bind_Done by (by apply (set_cap_group_ok _ _ _ _ Ht1)).
  destruct (H2 (with_sch (Sched.with_threads (<[t := Sched.mk_thread None 0 0 cg]>) (sst s1)) (Capability.ext s1))) as (s2 & E2 & Ee2 & H3).
  erewrite bind_Done by exact E2.
  assert (Sched.threads (sst s2) !! t = Some (Sched.mk_thread None 0 0 cg)) as Ht2 by (unfold sst; rewrite Ee2; apply lookup_insert_eq).
  erewrite bind_Done by (by apply (set_vmspace_ok _ _ _ _ Ht2)). cbn [Sched.ctx Sched.prev_thread Sched.cap_group].
  set (e3 := with_sch (Sched.with_threads (<[t := Sched.mk_thread None 0 vm cg]>) (sst s2)) (Capability.ext s2)). specialize (H3 e3). apply bind_inv in H3 as ([] & s3 & P1 & P2).
  change (put_sch (Sched.with_threads (<[t := Sched.mk_thread None 0 vm cg]>) (sst s2)) s2) with (Capability.with_ext e3 s2).
  erewrite bind_Done by exact P1. erewrite bind_Done by exact P2.
  assert (sst (Capability.with_ext e3 s) = Sched.with_threads (<[t := Sched.mk_thread None 0 vm cg]>) (sst s)) as Es.
  { change (sst (Capability.with_ext e3 s)) with (sch_of e3). unfold e3. rewrite sch_with_sch. unfold sst at 1. rewrite Ee2, sch_with_sch, with_threads_twice. unfold sst. by rewrite Ee1. }
  assert (Notific.sleep (tst (Capability.with_ext e3 s)) !! t = Some z) as Hz3 by (unfold tst, e3; rewrite Ee2, Ee1; exact Hz).
  destruct (init_tail (Capability.with_ext e3 s) t vm cg stack pc prio type (Z.rem aff N) a p q r z) as (e & E & Es' & El & Ec);
    [rewrite Es; apply lookup_insert_eq|exact Hz3|by rewrite Es|].
  exists e. split; [exact E|]. split; [|rewrite El, Ec; unfold e3; rewrite Ee2, Ee1; done].
  rewrite Es', Es. unfold Sched.with_threads. cbn [Sched.threads Sched.cpus Sched.ready Sched.history]. by rewrite insert_insert_eq.
Qed.

(** A capability that does not name a group is fatal: the NULL pointer is given back. *)
Lemma create_thread_no_group oob size s me t g p a s1 : runs s me t g → p < KBASE →
  Capability.obj_get g (s32 (a_cap_group_cap a)) Capability.TYPE_CAP_GROUP s = Done 0 s1 →
  Capability.objects s1 !! Capability.container_of 0 = None → sys_create_thread oob N size ops me p a s = Fault.
Proof.
  intros R Hp E Ho. unfold sys_create_thread, copy_from_user. rewrite (proj2 (Z.leb_gt _ _) Hp).
  erewrite bind_Done by reflexivity. erewrite bind_Done by (by eapply this_group_ok). erewrite bind_Done by exact E.
  erewrite bind_Done by reflexivity. unfold Capability.obj_put, Capability.ref_sub, Capability.object_at, bind, get.
  by rewrite Ho.
Qed.

(** Without memory for the thread the group is given back twice. *)
Lemma create_thread_double_put oob size s me t g p a x s1 s2 : runs s me t g → p < KBASE → x ≠ 0 →
  Capability.obj_get g (s32 (a_cap_group_cap a)) Capability.TYPE_CAP_GROUP s = Done x s1 →
  Capability.obj_alloc Capability.TYPE_THREAD size s1 = Done 0 s2 →
  sys_create_thread oob N size ops me p a s = (Capability.obj_put x ;; Capability.obj_put x ;; ret (- ENOMEM)) s2.
Proof.
  intros R Hp Nx E E2. unfold sys_create_thread. erewrite bind_Done by (by apply copy_from_user_ok).
  erewrite bind_Done by (by eapply this_group_ok). erewrite bind_Done by exact E.
  unfold create_thread, alloc_thread. rewrite (proj2 (Z.eqb_neq _ _) Nx). unfold bind at 1 2 3. rewrite E2. simpl. unfold bind.
  by destruct (Capability.obj_put x s2).
Qed.

(** ** The end of a thread *)

Definition heap_of_ctx (c : Sched.thread_ctx) (L : gmap Z Z) : Prop :=
  NoDup [Sched.fpu_state c; Sched.sc c; Sched.kernel_stack c] ∧
  is_Some (L !! Sched.fpu_state c) ∧ is_Some (L !! Sched.sc c) ∧ is_Some (L !! Sched.kernel_stack c).

Lemma destroy_spec (x : sstate H K) t c L : Sched.tctx x t = Some c → owns (Sched.al x) L → heap_of_ctx c L →
  ∃ a, Sched.destroy_thread_ctx t x = Done tt (Sched.mk_sstate a (Sched.threads x) (Sched.cpus x) (Sched.ready x) (Sched.history x)) ∧
  owns a (delete (Sched.kernel_stack c) (delete (Sched.sc c) (delete (Sched.fpu_state c) L))).
Proof.
  intros Hc HL (Nd & [n1 H1] & [n2 H2] & [n3 H3]).
  apply NoDup_cons in Nd as [N1 [N2 _]%NoDup_cons]. rewrite !not_elem_of_cons in N1. rewrite !not_elem_of_cons in N2. destruct N1 as (D1 & D2 & _), N2 as (D3 & _).
  destruct (al_free_ok _ _ _ _ HL H1) as (a1 & E1 & L1). destruct (al_free_ok a1 _ (Sched.sc c) n2 L1) as (a2 & E2 & L2); [by rewrite lookup_delete_ne|].
  destruct (al_free_ok a2 _ (Sched.kernel_stack c) n3 L2) as (a3 & E3 & L3); [by rewrite !lookup_delete_ne|].
  exists a3. split; [|done]. unfold Sched.destroy_thread_ctx. erewrite bind_Done by (by apply Sched.ctx_of_ok).
  unfold Sched.arch_free_thread_fpu, Sched.on_al. erewrite bind_Done by (apply zoom_Done; exact E1).
  erewrite bind_Done by (apply zoom_Done; exact E2). erewrite zoom_Done by exact E3. done.
Qed.

(** [thread_deinit] of a thread that neither runs nor is ready takes it off
    the list of its group and frees exactly the three blocks of its context. *)
Theorem thread_deinit_ok (e : tht) t th c L : Sched.threads (sch_of e) !! t = Some th → Sched.ctx th = Some c →
  Sched.state c ≠ TS_RUNNING → Sched.state c ≠ TS_READY → t ∈ list_of (Sched.cap_group th) e →
  owns (Sched.al (sch_of e)) L → heap_of_ctx c L →
  ∃ e', thread_deinit ops t e = Done tt e' ∧ thread_list e' = <[Sched.cap_group th := filter (λ u, u ≠ t) (list_of (Sched.cap_group th) e)]> (thread_list e) ∧
  owns (Sched.al (sch_of e')) (delete (Sched.kernel_stack c) (delete (Sched.sc c) (delete (Sched.fpu_state c) L))) ∧
  Sched.threads (sch_of e') = Sched.threads (sch_of e) ∧ Sched.ready (sch_of e') = Sched.ready (sch_of e) ∧ thread_cnt e' = thread_cnt e.
Proof.
  intros Ht Hc N1 N2 Hin HL Hh. assert (Sched.tctx (sch_of e) t = Some c) as Hc' by (unfold Sched.tctx; by rewrite Ht).
  assert (∀ X (f : M (sstate H K) X) v, f (sch_of e) = Done v (sch_of e) → on_sched f e = Done v e) as Rd.
  { intros X f v E. unfold on_sched. erewrite zoom_Done by exact E. by destruct e as [[[[sc sl ti no re tm] i1 i2 i3] m n b l w] tl tc ic]. }
  unfold thread_deinit. erewrite bind_Done by (apply Rd; by apply Sched.ctx_of_ok).
  rewrite (bool_decide_eq_false_2 _ N1), (bool_decide_eq_false_2 _ N2). erewrite bind_Done by reflexivity.
  erewrite bind_Done by (apply Rd; by apply Sched.thread_at_ok).
  erewrite bind_Done by (unfold node_del; erewrite bind_Done by reflexivity; rewrite (bool_decide_eq_true_2 _ Hin); reflexivity).
  destruct (destroy_spec (sch_of e) t c L Hc' HL Hh) as (a & E & La). unfold on_sched.
  erewrite zoom_Done by exact E. eexists. split; [reflexivity|]. done.
Qed.

End spec.

(** ** A small system

    Thread 500 of group 1048 runs; the group has itself as capability 0, an
    address space as capability 1 and thread 2448 as capability 2. *)
Module ThreadDemo.

Definition ty (o : Z) : Z :=
  if o =? 2000 then Capability.TYPE_CAP_GROUP else if o =? 2200 then Capability.TYPE_VMSPACE
  else if o =? 2400 then Capability.TYPE_THREAD else Capability.TYPE_PMO.
Definition running : Sched.thread_ctx := Memory.MDemo.user TS_RUNNING Sched.KS_LOCKED ∅.
Definition waiting : Sched.thread_ctx := Sched.mk_ctx ∅ 4096 8192 0 77 12288 2 TYPE_USER TS_WAITING 10 NO_AFF 0 Sched.KS_FREE.
Definition sch0 : sstate Z Z := Sched.mk_sstate 1048576
  {[500 := Sched.mk_thread (Some running) 0 100 1048; 2448 := Sched.mk_thread (Some waiting) 0 2248 1048; 3048 := Sched.mk_thread None 0 0 0]}
  {[0 := Sched.mk_cpu 500 0 true true 7 44 100]} {[0 := []]} ∅.
Definition e0 : thstate (H := Z) (B := Z) (K := Z) := mk_thstate
  (Recycle.RecycleDemo.rs ∅ (Notific.mk_tstate sch0 {[3048 := Notific.mk_sleep 0 0 0 None]} ∅ ∅ 0 ∅))
  {[1048 := [2448; 500]]} {[1048 := 2]} ∅.
Definition s0 : Capability.kstate (A := Z) (E := thstate (H := Z) (B := Z) (K := Z)) := Capability.retype e0 (Capability.Sample.full tt ty).

Lemma fine0 n : n ≤ 100 → Capability.caps_fine n s0.
Proof. intros Hn. apply Capability.retype_fine. eapply Capability.caps_fine_le; [apply Capability.Sample.full_fine|done]. Qed.
Lemma cap0 i : 0 ≤ i < 4 → Capability.has_cap s0 1048 i (ty (2000 + 200 * i)) (2048 + 200 * i).
Proof.
  intros Hi. apply Capability.retype_cap. pose proof (Capability.Sample.full_cap tt ty i Hi) as Hc.
  replace (2048 + 200 * i) with (Capability.opaque (Capability.Sample.object_addr i)); [exact Hc|].
  unfold Capability.opaque, Capability.Sample.object_addr, Capability.SIZEOF_OBJECT. lia.
Qed.
Lemma thread_runs0 : runs s0 0 500 1048.
Proof. eexists _, _. split_and!; reflexivity. Qed.

End ThreadDemo.

Import ThreadDemo.

Lemma affinity_roundtrip_witness : sys_set_affinity 4 0 2 3 s0 = Done 0 (put_thread 2448 (Sched.with_affinity 3) s0) ∧
  sys_get_affinity 0 2 (put_thread 2448 (Sched.with_affinity 3) s0) = Done 3 (put_thread 2448 (Sched.with_affinity 3) s0).
Proof.
  apply (affinity_roundtrip 4 s0 0 2 2448 waiting 3).
  - split; [lia|]. exists 500, 1048. split; [exact thread_runs0|]. split; [apply fine0; lia|]. apply (cap0 2). lia.
  - reflexivity.
Defined.

Lemma thread_exit_ok_witness : sys_thread_exit 4 Notific.NDemo.ops0 0 s0 =
  on_rs (Recycle.leave 4 Notific.NDemo.ops0 0) (put_cnt 1048 1 (put_thread 500 (Sched.with_state TS_EXIT) s0)).
Proof.
  apply (thread_exit_ok 4 Notific.NDemo.ops0 s0 0 500 1048 running).
  - exact thread_runs0.
  - reflexivity.
  - vm_compute. split; reflexivity.
Defined.

(** Capability 2 is the only reference to thread 2448, which waits: the thread goes, with
    its context.  Capability 3, for a memory object, is revoked. *)
Lemma cap_free_ok_witness : ∃ s, Capability.cap_free (obj_deinit Notific.NDemo.ops0) 1048 2 s0 = Done 0 s ∧
  Capability.cap_view s 1048 2 = None ∧ Capability.objects s !! 2400 = None ∧ list_of 1048 (Capability.ext s) = [500].
Proof.
  destruct (fine0 1 ltac:(lia)) as [(held & W & C) _]. destruct (cap0 2 ltac:(lia)) as (cg & o & rt & ob & Hg & Hi & _ & Hv & Ho & Ht & _).
  assert (∀ o' rt' ob', Capability.cap_view s0 1048 2 = Some (o', rt') → Capability.objects s0 !! o' = Some ob' → Capability.may_drop ob') as Md.
  { intros o' rt' ob' Hv' Ho'. rewrite Hv in Hv'. injection Hv' as <- <-. rewrite Ho in Ho'. injection Ho' as <-. left. rewrite Ht. discriminate. }
  pose proof (Capability.cap_free_ok (obj_deinit Notific.NDemo.ops0) s0 held W 1048 cg 2 C Hg Hi Md) as H. rewrite Hv in H.
  destruct H as (ob' & Ho' & H). rewrite Ho in Ho'. injection Ho' as <-. vm_compute in Hv. injection Hv as <- <-. vm_compute in Ho. injection Ho as <-.
  match type of H with match ?x with _ => _ end => let v := eval vm_compute in x in change x with v in H end.
  destruct H as (s & E & Ee & _ & Eo & HV). exists s. split; [exact E|]. split; [by rewrite HV|].
  split; [rewrite Eo; vm_compute; reflexivity|]. rewrite Ee. vm_compute. reflexivity.
Defined.

Lemma cap_revoke_ok_witness : ∃ s, Capability.cap_revoke (obj_deinit Notific.NDemo.ops0) 1048 3 s0 = Done 0 s ∧
  ∀ h j, Capability.cap_view s h j = Capability.without 2600 (Capability.cap_view s0 h j).
Proof.
  destruct (fine0 1 ltac:(lia)) as [(held & W & C) Cn]. destruct (cap0 3 ltac:(lia)) as (cg & o & rt & ob & Hg & Hi & Hl & Hv & Ho & Ht & _).
  assert (∀ o' rt' ob', Capability.cap_view s0 1048 3 = Some (o', rt') → Capability.objects s0 !! o' = Some ob' → Capability.may_revoke held o' ob') as Md.
  { intros o' rt' ob' Hv' Ho'. rewrite Hv in Hv'. injection Hv' as <- <-. rewrite Ho in Ho'. injection Ho' as <-. left. rewrite Ht. discriminate. }
  pose proof (Capability.cap_revoke_ok (obj_deinit Notific.NDemo.ops0) s0 held W 1048 cg 3 C Cn Hg Hi Md) as H.
  rewrite (proj2 (Z.leb_gt _ _) Hl), Hv in H. destruct H as (ob' & s & _ & E & _ & HV & _). vm_compute in Hv. injection Hv as <- <-.
  exists s. split; [exact E|exact HV].
Defined.

Lemma thread_init_ok_witness : ∃ e, thread_init 4 3048 1048 65536 4096 10 TYPE_USER NO_AFF s0 = Done 0 (Capability.with_ext e s0).
Proof.
  destruct (thread_init_ok 4 s0 3048 1048 2048 2248 65536 4096 10 TYPE_USER NO_AFF
    (match al_alloc Sched.SIZEOF_SCHED_CONT (1048576 + 4096 + 520) with Done _ a => a | _ => 0 end) 1048576 (1048576 + 4096) (1048576 + 4096 + 520)
    (Notific.mk_sleep 0 0 0 None)) as (e & E & _).
  - apply fine0. lia.
  - apply (cap0 0). lia.
  - apply (cap0 1). lia.
  - reflexivity.
  - reflexivity.
  - split; [lia|]. split; [lia|]. split; [lia|]. eexists _, _. split_and!; reflexivity.
  - exists e. exact E.
Defined.

Lemma thread_deinit_ok_witness : ∃ e', thread_deinit Notific.NDemo.ops0 2448 (with_sch (Sched.mk_sstate 20000 (Sched.threads sch0) (Sched.cpus sch0) ∅ ∅) e0) = Done tt e' ∧
  list_of 1048 e' = [500].
Proof.
  destruct (thread_deinit_ok Notific.NDemo.ops0 (with_sch (Sched.mk_sstate 20000 (Sched.threads sch0) (Sched.cpus sch0) ∅ ∅) e0) 2448
    (Sched.mk_thread (Some waiting) 0 2248 1048) waiting {[4096 := 4096; 8192 := 520; 12288 := 64]}) as (e' & E & El & _).
  - reflexivity.
  - reflexivity.
  - discriminate.
  - discriminate.
  - by left.
  - split; [done|]. split; [check_map|]. intros p n q m x Hp Hq Hx Hy. assert (p = q ∨ p + n ≤ q ∨ q + m ≤ p); [|lia].
    clear Hx Hy. revert q m Hq. revert p n Hp. apply (map_check (λ p n, map_Forall (λ q m, p = q ∨ p + n ≤ q ∨ q + m ≤ p) _)). vm_compute. reflexivity.
  - split; [apply (bool_decide_unpack (NoDup _)); exact I|]. split_and!; by eexists.
  - exists e'. split; [exact E|]. unfold list_of. rewrite El. reflexivity.
Defined.

(** A thread is created in group 1048: its capability there and that of the caller,
    in the same group, are 4 and 5, and it is ready. *)
Example create_thread_runs :
  match create_thread Capability.Sample.no_oob 4 200 Notific.NDemo.ops0 0 1048 65536 4096 5 10 TYPE_USER 77 s0 with
  | Done r s => r = 5 ∧ cnt_of 1048 (Capability.ext s) = 3 ∧ Sched.ready (sst s) !! 0 = Some [hd 0 (list_of 1048 (Capability.ext s))]
  | _ => False
  end.
Proof. vm_compute. split_and!; reflexivity. Qed.

End Thread.
