(* ===== verification/ByteMem.v ===== *)
(** * Bytes of kernel memory (kernel/include/common/util.h,
    kernel/arch/aarch64/mm/memset.c, kernel/include/common/endianness.h)

    The code that starts the first process reads a file archive and an ELF image
    and writes the stack of a thread byte by byte.  Its memory is a map from
    addresses to bytes; an address that is not mapped is a [Fault].  A state with
    such a memory is an instance of [HasBytes].

    A C string that is compared with is given as the list of its characters; the
    other operand is in memory.  Characters are unsigned, as on aarch64. *)

From S2P Require Import Prelude.

Module ByteMem.

Abbreviation bmem := (gmap Z Z).

Class HasBytes (S : Type) := {
  bytes : S → bmem;
  with_bytes : bmem → S → S;
  bytes_with m s : bytes (with_bytes m s) = m;
  with_with m m' s : with_bytes m (with_bytes m' s) = with_bytes m s;
  with_same s : with_bytes (bytes s) s = s
}.

#[export] Instance bmem_bytes : HasBytes bmem.
Proof. by refine (Build_HasBytes _ (λ m, m) (λ m _, m) _ _ _). Defined.

Section ops.
Context {S : Type} `{!HasBytes S}.

Definition ld8 (a : Z) : M S Z := s <- get ;; need (bytes s !! a).
Definition st8 (a v : Z) : M S unit :=
  s <- get ;; need (bytes s !! a) ;; put (with_bytes (<[a := v `mod` 256]> (bytes s)) s).

(** [n] bytes from [a], and the number they are in the byte order of the CPU. *)
Fixpoint ldn (n : nat) (a : Z) : M S (list Z) :=
  match n with
  | O => ret []
  | Datatypes.S k => v <- ld8 a ;; l <- ldn k (a + 1) ;; ret (v :: l)
  end.
Definition ld16 (a : Z) : M S Z := l <- ldn 2 a ;; ret (little_endian_to_Z 8 l).
Definition ld32 (a : Z) : M S Z := l <- ldn 4 a ;; ret (little_endian_to_Z 8 l).
Definition ld64 (a : Z) : M S Z := l <- ldn 8 a ;; ret (little_endian_to_Z 8 l).

Fixpoint stn (a : Z) (l : list Z) : M S unit :=
  match l with
  | [] => ret tt
  | v :: l' => st8 a v ;; stn (a + 1) l'
  end.
Definition st64 (a v : Z) : M S unit := stn a (Z_to_little_endian 8 8 v).

Fixpoint memset (dst ch : Z) (size : nat) : M S unit :=
  match size with
  | O => ret tt
  | Datatypes.S k => st8 dst ch ;; memset (dst + 1) ch k
  end.

(** The regions must not overlap, so that the order does not matter. *)
Definition memcpy (dst src : Z) (size : nat) : M S unit := l <- ldn size src ;; stn dst l.

Fixpoint strcmp (src : Z) (dst : list Z) : M S Z :=
  c <- ld8 src ;;
  match dst with
  | [] => ret (if c =? 0 then 0 else 1)
  | d :: dst' => if c =? 0 then ret (-1) else if c =? d then strcmp (src + 1) dst' else ret (c - d)
  end.

Fixpoint strncmp (src : Z) (dst : list Z) (size : nat) : M S Z :=
  match size with
  | O => ret 0
  | Datatypes.S k =>
      c <- ld8 src ;;
      let d := hd 0 dst in
      if (c =? 0) || negb (c =? d) then ret (c - d) else strncmp (src + 1) (tl dst) k
  end.

End ops.

(** The conversions of endianness.h; [x] has 16, 32 and 64 bits. *)
Definition be16_to_cpu (x : Z) : Z := Z.lor (Z.shiftl (Z.land x 0xff) 8) (Z.land (Z.shiftr x 8) 0xff).
Definition be32_to_cpu (x : Z) : Z := Z.lor (Z.shiftl (be16_to_cpu x) 16) (be16_to_cpu (Z.shiftr x 16)).
Definition be64_to_cpu (x : Z) : Z := Z.lor (Z.shiftl (be32_to_cpu x) 32) (be32_to_cpu (Z.shiftr x 32)).

(** ** What is in memory *)

Definition is_byte (v : Z) : Prop := 0 ≤ v < 256.

(** The bytes [l] are at address [a]; and the same for tables of other values. *)
Fixpoint bytes_at {V} (m : gmap Z V) (a : Z) (l : list V) : Prop :=
  match l with
  | [] => True
  | v :: l' => m !! a = Some v ∧ bytes_at m (a + 1) l'
  end.

#[export] Instance bytes_at_dec {V} `{!EqDecision V} (m : gmap Z V) a l : Decision (bytes_at m a l).
Proof. revert a. induction l as [|v l IH]; intros a; simpl; apply _. Defined.

(** The characters [l] and the NUL behind them. *)
Definition string_at (m : bmem) (a : Z) (l : list Z) : Prop := bytes_at m a (l ++ [0]) ∧ 0 ∉ l.

(** Memory after writing [l] at [a]. *)
Fixpoint blit {V} (a : Z) (l : list V) (m : gmap Z V) : gmap Z V :=
  match l with
  | [] => m
  | v :: l' => blit (a + 1) l' (<[a := v]> m)
  end.

Definition mapped {V} (m : gmap Z V) (a : Z) (n : nat) : Prop := ∀ i, a ≤ i < a + Z.of_nat n → is_Some (m !! i).

Lemma bytes_at_app {V} (m : gmap Z V) a l1 l2 : bytes_at m a (l1 ++ l2) ↔ bytes_at m a l1 ∧ bytes_at m (a + Z.of_nat (length l1)) l2.
Proof.
  revert a. induction l1 as [|v l1 IH]; intros a; simpl; [rewrite Z.add_0_r; tauto|]. rewrite IH.
  replace (a + 1 + Z.of_nat (length l1)) with (a + Z.of_nat (S (length l1))) by lia. tauto.
Qed.

Lemma bytes_at_lookup {V} (m : gmap Z V) a l : bytes_at m a l ↔ ∀ i v, l !! i = Some v → m !! (a + Z.of_nat i) = Some v.
Proof.
  revert a. induction l as [|w l IH]; intros a; simpl; [split; [done|done]|]. rewrite IH. split.
  - intros [H1 H2] [|i] v Hv; simpl in Hv; [injection Hv as <-; by rewrite Z.add_0_r|].
    replace (a + Z.of_nat (S i)) with (a + 1 + Z.of_nat i) by lia. by apply H2.
  - intros H. split; [rewrite <- (Z.add_0_r a); by apply (H 0%nat)|]. intros i v Hv.
    replace (a + 1 + Z.of_nat i) with (a + Z.of_nat (S i)) by lia. by apply H.
Qed.

Lemma bytes_at_mapped {V} (m : gmap Z V) a l : bytes_at m a l → mapped m a (length l).
Proof.
  rewrite bytes_at_lookup. intros H i Hi. destruct (lookup_lt_is_Some_2 l (Z.to_nat (i - a))) as [v Hv]; [lia|].
  exists v. apply H in Hv. by replace (a + Z.of_nat (Z.to_nat (i - a))) with i in Hv by lia.
Qed.

Lemma blit_out {V} (m : gmap Z V) a l i : ¬ (a ≤ i < a + Z.of_nat (length l)) → blit a l m !! i = m !! i.
Proof.
  revert a m. induction l as [|v l IH]; intros a m Hi; simpl in *; [done|]. rewrite IH by lia. apply lookup_insert_ne. lia.
Qed.

Lemma blit_at {V} (m : gmap Z V) a l : bytes_at (blit a l m) a l.
Proof.
  revert a m. induction l as [|v l IH]; intros a m; simpl; [done|]. split; [|apply IH]. rewrite blit_out by lia. apply lookup_insert_eq.
Qed.

(** What is elsewhere stays. *)
Lemma blit_frame {V} (m : gmap Z V) a l b k : a + Z.of_nat (length l) ≤ b ∨ b + Z.of_nat (length k) ≤ a → bytes_at m b k → bytes_at (blit a l m) b k.
Proof.
  rewrite !bytes_at_lookup. intros Ho H i v Hv. pose proof (lookup_lt_Some _ _ _ Hv). rewrite blit_out by lia. by apply H.
Qed.

Lemma blit_mapped {V} (m : gmap Z V) a l b n : mapped m b n → mapped (blit a l m) b n.
Proof.
  intros H i Hi. destruct (decide (a ≤ i < a + Z.of_nat (length l))) as [Hin|Hout]; [|rewrite blit_out by done; by apply H].
  apply (bytes_at_mapped _ a l); [apply blit_at|done].
Qed.

Lemma blit_app {V} (m : gmap Z V) a l1 l2 : blit a (l1 ++ l2) m = blit (a + Z.of_nat (length l1)) l2 (blit a l1 m).
Proof.
  revert a m. induction l1 as [|v l1 IH]; intros a m; simpl; [by rewrite Z.add_0_r|]. rewrite IH. f_equal. lia.
Qed.

(** ** The operations *)

Section spec.
Context {S : Type} `{!HasBytes S}.
Implicit Types s : S.

Lemma ld8_ok s a v : bytes s !! a = Some v → ld8 a s = Done v s.
Proof. intros H. unfold ld8, bind, get. by rewrite H. Qed.

Lemma ldn_ok s a l : bytes_at (bytes s) a l → ldn (length l) a s = Done l s.
Proof.
  revert a. induction l as [|v l IH]; intros a; simpl; [done|]. intros [H1 H2]. erewrite bind_Done by (by apply ld8_ok).
  by erewrite bind_Done by (by apply IH).
Qed.

(** A field in memory: [n] bytes that are the number [x]. *)
Definition field_at (m : bmem) (n : Z) (a x : Z) : Prop := bytes_at m a (Z_to_little_endian n 8 x).

Lemma field_read s n a x : 0 ≤ n → 0 ≤ x < 2 ^ (n * 8) → field_at (bytes s) n a x →
  (l <- ldn (Z.to_nat n) a ;; ret (little_endian_to_Z 8 l)) s = Done x s.
Proof.
  intros Hn Hx H. rewrite <- (length_Z_to_little_endian n 8 x) by lia. rewrite Nat2Z.id. erewrite bind_Done by (by apply ldn_ok).
  unfold ret. by rewrite little_endian_to_Z_to_little_endian, Z.mod_small by lia.
Qed.

Lemma st8_ok s a v : is_byte v → is_Some (bytes s !! a) → st8 a v s = Done tt (with_bytes (<[a := v]> (bytes s)) s).
Proof. intros Hv [w Hw]. unfold st8, bind, get. rewrite Hw. simpl. unfold put. by rewrite Z.mod_small. Qed.

Lemma stn_ok s a l : Forall is_byte l → mapped (bytes s) a (length l) → stn a l s = Done tt (with_bytes (blit a l (bytes s)) s).
Proof.
  revert a s. induction l as [|v l IH]; intros a s HF Hm; simpl in *; [by rewrite with_same|]. apply Forall_cons in HF as [Hv HF].
  erewrite bind_Done by (apply st8_ok; [done|apply Hm; lia]). rewrite IH; [by rewrite bytes_with, with_with|done|].
  rewrite bytes_with. apply (blit_mapped _ a [v]). intros i Hi. apply Hm. lia.
Qed.

Lemma to_le_bytes n x : 0 ≤ n → Forall is_byte (Z_to_little_endian n 8 x).
Proof. intros Hn. eapply Forall_impl; [apply Z_to_little_endian_bound; lia|]. done. Qed.

Lemma st64_ok s a v : mapped (bytes s) a 8 → st64 a v s = Done tt (with_bytes (blit a (Z_to_little_endian 8 8 v) (bytes s)) s).
Proof.
  intros H. apply stn_ok; [apply to_le_bytes; lia|exact H].
Qed.

Lemma memset_spec s a ch n : memset a ch n s = stn a (replicate n ch) s.
Proof.
  revert a s. induction n as [|n IH]; intros a s; simpl; [done|]. unfold bind. destruct (st8 a ch s); [apply IH|done..].
Qed.

Lemma memset_ok s a ch n : is_byte ch → mapped (bytes s) a n →
  memset a ch n s = Done tt (with_bytes (blit a (replicate n ch) (bytes s)) s).
Proof. intros Hc Hm. rewrite memset_spec. apply stn_ok; [by apply Forall_replicate|by rewrite length_replicate]. Qed.

Lemma memcpy_ok s dst src l : Forall is_byte l → bytes_at (bytes s) src l → mapped (bytes s) dst (length l) →
  memcpy dst src (length l) s = Done tt (with_bytes (blit dst l (bytes s)) s).
Proof. intros HF Hl Hm. unfold memcpy. erewrite bind_Done by (by apply ldn_ok). by apply stn_ok. Qed.

(** [strcmp] returns 0 for equal strings only. *)
Lemma strcmp_ok s a l dst : string_at (bytes s) a l → (0 ∉ dst) → ∃ r, strcmp a dst s = Done r s ∧ (r = 0 ↔ l = dst).
Proof.
  revert a l. induction dst as [|d dst IH]; intros a l [H N] Nd; cbn [strcmp].
  - destruct l as [|c l]; simpl in H; destruct H as [H _]; (erewrite bind_Done by (by apply ld8_ok)); [by exists 0|].
    exists 1. rewrite not_elem_of_cons in N. rewrite (proj2 (Z.eqb_neq c 0)) by (intros ->; tauto). done.
  - rewrite not_elem_of_cons in Nd. destruct l as [|c l]; simpl in H; destruct H as [H H']; (erewrite bind_Done by (by apply ld8_ok)); [by exists (-1)|].
    rewrite not_elem_of_cons in N. destruct N as [Nc Nl]. rewrite (proj2 (Z.eqb_neq c 0)) by done.
    destruct (Z.eqb_spec c d) as [->|Ncd]; [|exists (c - d); split; [done|]; split; [lia|congruence]].
    destruct (IH (a + 1) l) as (r & E & Hr); [done|tauto|]. exists r. split; [exact E|]. rewrite Hr. split; [by intros ->|congruence].
Qed.

Lemma strncmp_same s a l : bytes_at (bytes s) a l → (0 ∉ l) → strncmp a l (length l) s = Done 0 s.
Proof.
  revert a. induction l as [|c l IH]; intros a; cbn [strncmp length]; [done|]. intros [H H'] N. rewrite not_elem_of_cons in N.
  erewrite bind_Done by (by apply ld8_ok). simpl. rewrite (proj2 (Z.eqb_neq c 0)) by (intros ->; tauto). rewrite Z.eqb_refl. simpl. apply IH; tauto.
Qed.

End spec.

(** ** Byte order *)

Lemma lor_shiftl x y n : 0 ≤ n → 0 ≤ y < 2 ^ n → Z.lor (Z.shiftl x n) y = x * 2 ^ n + y.
Proof.
  intros Hn Hy. rewrite <- Z.add_nocarry_lor; [by rewrite Z.shiftl_mul_pow2|]. apply Z.bits_inj'. intros i Hi. rewrite Z.land_spec, Z.bits_0.
  destruct (decide (i < n)) as [Hl|Hg]; [by rewrite Z.shiftl_spec_low|]. apply andb_false_intro2.
  destruct (decide (y = 0)) as [->|Ny]; [apply Z.bits_0|]. apply Z.bits_above_log2; [lia|]. apply Z.log2_lt_pow2; [lia|].
  eapply Z.lt_le_trans; [apply Hy|]. apply Z.pow_le_mono_r; lia.
Qed.

Lemma be16_value x : be16_to_cpu x = x `mod` 256 * 256 + (x / 256) `mod` 256.
Proof.
  unfold be16_to_cpu. change 255 with (Z.ones 8). rewrite !Z.land_ones, Z.shiftr_div_pow2 by lia. change (2 ^ 8) with 256.
  rewrite lor_shiftl; [done|lia|]. apply Z.mod_pos_bound. lia.
Qed.
Lemma be16_bound x : 0 ≤ be16_to_cpu x < 2 ^ 16.
Proof.
  rewrite be16_value. pose proof (Z.mod_pos_bound x 256). pose proof (Z.mod_pos_bound (x / 256) 256). change (2 ^ 16) with 65536. lia.
Qed.
Lemma be32_value x : be32_to_cpu x = be16_to_cpu x * 2 ^ 16 + be16_to_cpu (x / 2 ^ 16).
Proof. unfold be32_to_cpu. rewrite Z.shiftr_div_pow2 by lia. apply lor_shiftl; [lia|]. apply be16_bound. Qed.
Lemma be32_bound x : 0 ≤ be32_to_cpu x < 2 ^ 32.
Proof. rewrite be32_value. pose proof (be16_bound x). pose proof (be16_bound (x / 2 ^ 16)). lia. Qed.
Lemma be64_value x : be64_to_cpu x = be32_to_cpu x * 2 ^ 32 + be32_to_cpu (x / 2 ^ 32).
Proof. unfold be64_to_cpu. rewrite Z.shiftr_div_pow2 by lia. apply lor_shiftl; [lia|]. apply be32_bound. Qed.

(** Only the low bits count. *)
Lemma be16_low x y : be16_to_cpu (x + 2 ^ 16 * y) = be16_to_cpu x.
Proof.
  rewrite !be16_value. replace (x + 2 ^ 16 * y) with (x + 256 * y * 256) by lia. rewrite Z.mod_add, Z.div_add by lia.
  replace (x / 256 + 256 * y) with (x / 256 + y * 256) by lia. by rewrite Z.mod_add by lia.
Qed.
Lemma be32_low x y : be32_to_cpu (x + 2 ^ 32 * y) = be32_to_cpu x.
Proof.
  rewrite !be32_value. replace (x + 2 ^ 32 * y) with (x + 2 ^ 16 * (2 ^ 16 * y)) by lia. rewrite be16_low. f_equal.
  replace (x + 2 ^ 16 * (2 ^ 16 * y)) with (x + 2 ^ 16 * y * 2 ^ 16) by lia. rewrite Z.div_add by lia. apply be16_low.
Qed.

(** The value of a number written with the most significant byte first. *)
Definition big_endian (l : list Z) : Z := little_endian_to_Z 8 (rev l).

Lemma le_cons b l : is_byte b → little_endian_to_Z 8 (b :: l) = b + 256 * little_endian_to_Z 8 l.
Proof. intros Hb. simpl. rewrite Z.lor_comm, lor_shiftl; [lia|lia|exact Hb]. Qed.

Lemma le_app l1 l2 : Forall is_byte l1 →
  little_endian_to_Z 8 (l1 ++ l2) = little_endian_to_Z 8 l1 + 256 ^ Z.of_nat (length l1) * little_endian_to_Z 8 l2.
Proof.
  induction 1 as [|b l1 Hb HF IH]; [simpl; lia|]. rewrite <- app_comm_cons, !le_cons, IH by done.
  cbn [length]. rewrite Nat2Z.inj_succ, Z.pow_succ_r by lia. lia.
Qed.

Lemma le_bytes l : Forall is_byte l → 0 ≤ little_endian_to_Z 8 l < 2 ^ (Z.of_nat (length l) * 8).
Proof. intros H. by apply little_endian_to_Z_bound. Qed.

Lemma be16_le l : Forall is_byte l → length l = 2%nat → be16_to_cpu (little_endian_to_Z 8 l) = big_endian l.
Proof.
  intros HF Hl. destruct l as [|a [|b [|? ?]]]; try done. rewrite !Forall_cons in HF. destruct HF as (Ha & Hb & _).
  unfold big_endian. simpl rev. rewrite !le_cons by done. change (little_endian_to_Z 8 []) with 0. unfold is_byte in *. rewrite be16_value.
  replace (a + 256 * (b + 256 * 0)) with (a + b * 256) by lia. rewrite Z.mod_add, Z.div_add, (Z.mod_small a), (Z.div_small a), Z.add_0_l, Z.mod_small by lia. lia.
Qed.

(** A number of twice the width. *)
Lemma be_double (be be' : Z → Z) (n : nat) l : (∀ x, be' x = be x * 2 ^ (Z.of_nat n * 8) + be (x / 2 ^ (Z.of_nat n * 8))) →
  (∀ x y, be (x + 2 ^ (Z.of_nat n * 8) * y) = be x) →
  (∀ l, Forall is_byte l → length l = n → be (little_endian_to_Z 8 l) = big_endian l) →
  Forall is_byte l → length l = (n + n)%nat → be' (little_endian_to_Z 8 l) = big_endian l.
Proof.
  intros HV HL HB HF Hl. rewrite <- (take_drop n l) in *. apply Forall_app in HF as [HF1 HF2].
  assert (length (take n l) = n) as L1 by (rewrite length_take; rewrite length_app, length_take, length_drop in Hl; lia).
  assert (length (drop n l) = n) as L2 by (rewrite length_app in Hl; lia).
  pose proof (le_bytes _ HF1) as Hb. rewrite L1 in Hb. unfold big_endian. rewrite rev_app_distr, !le_app; [|by apply Forall_rev|done].
  rewrite length_rev, L1, L2. replace (256 ^ Z.of_nat n) with (2 ^ (Z.of_nat n * 8)) by (rewrite Z.mul_comm, Z.pow_mul_r by lia; done).
  rewrite HV, HL. rewrite (Z.mul_comm (2 ^ _)), Z.div_add, Z.div_small, Z.add_0_l by lia. rewrite !HB by done. unfold big_endian. lia.
Qed.

Lemma be32_le l : Forall is_byte l → length l = 4%nat → be32_to_cpu (little_endian_to_Z 8 l) = big_endian l.
Proof. apply (be_double be16_to_cpu be32_to_cpu 2); [apply be32_value|apply be16_low|apply be16_le]. Qed.
Lemma be64_le l : Forall is_byte l → length l = 8%nat → be64_to_cpu (little_endian_to_Z 8 l) = big_endian l.
Proof. apply (be_double be32_to_cpu be64_to_cpu 4); [apply be64_value|apply be32_low|apply be32_le]. Qed.

(** The low 64 bits of a number of 96 bits. *)
Definition be96ptr_to_cpu_lo {S} `{!HasBytes S} (x : Z) : M S Z :=
  a <- ld32 (x + 4) ;; b <- ld32 x ;; ret (Z.lor (Z.shiftl (be32_to_cpu a) 32) (be32_to_cpu (u32 (b + 2)))).

(** The last word is read from the wrong place: 2 is added to a word and not to
    the pointer. *)
Example be96_wrong : let l := [1; 2; 3; 4; 5; 6; 7; 8; 9; 10; 11; 12] in
  be96ptr_to_cpu_lo 0 (blit 0 l ∅) = Done (big_endian [5; 6; 7; 8; 3; 2; 3; 4]) (blit 0 l ∅).
Proof. vm_compute. reflexivity. Qed.

End ByteMem.
