(* ===== verification/Cpio.v ===== *)
(** * File archives (kernel/lib/cpio/cpio.c)

    The kernel reads the first program from an archive in the newc format that is
    part of its image.  A file in the archive has a header of 110 characters, whose
    numbers are written with eight hexadecimal digits, its name and its contents,
    each padded to a multiple of four bytes; a file with the name TRAILER!!! ends
    the archive.

    [archive_at] says what a well-formed archive is.  [cpio_extract_single] then
    finds the first file with the name, and [cpio_extract] makes the list of all
    files; [fuel] bounds the number of files. *)

From S2P Require Import Prelude Allocator ByteMem.

Module Cpio.

Import ByteMem.
Import Allocator.

Definition ENOENT : Z := 2.
(** [ERR_PTR], as the value of the pointer *)
Definition ERR_PTR (err : Z) : Z := u64 err.

(** Characters *)
Definition MAGIC : list Z := [0x30; 0x37; 0x30; 0x37; 0x30; 0x31].
Definition TRAILER : list Z := [0x54; 0x52; 0x41; 0x49; 0x4c; 0x45; 0x52; 0x21; 0x21; 0x21].

(** One digit: upper case letters, and all else as a decimal digit. *)
Definition hex_digit (c : Z) : Z := if (0x41 <=? c) && (c <=? 0x46) then c - 0x41 + 10 else c - 0x30.
Definition hex8_u64 (s : list Z) : Z := fold_left (λ u c, u64 (u64 (Z.shiftl u 4) + hex_digit c)) s 0.

Record cpio_header := mk_header {
  c_ino : Z; c_mode : Z; c_uid : Z; c_gid : Z; c_nlink : Z; c_mtime : Z; c_filesize : Z; c_devmajor : Z; c_devminor : Z;
  c_rdevmajor : Z; c_rdevminor : Z; c_namesize : Z; c_check : Z }.

Definition SIZEOF_NEWC_HEADER : Z := 110.
Definition ALIGN4_UP (x : Z) : Z := u64 (Z.land x (Z.lnot 3) + (if Z.land x 3 =? 0 then 0 else 4)).

Section extract.
Context {S : Type} `{!HasBytes S}.

Definition hex8_at (a : Z) : M S Z := l <- ldn 8 a ;; ret (hex8_u64 l).

Definition cpio_parse_header (addr : Z) : M S cpio_header :=
  r <- strncmp addr MAGIC 6 ;;
  BUG_ON (negb (r =? 0)) ;;
  ino <- hex8_at (addr + 6) ;;
  mode <- hex8_at (addr + 14) ;;
  uid <- hex8_at (addr + 22) ;;
  gid <- hex8_at (addr + 30) ;;
  nlink <- hex8_at (addr + 38) ;;
  mtime <- hex8_at (addr + 46) ;;
  filesize <- hex8_at (addr + 54) ;;
  devmajor <- hex8_at (addr + 62) ;;
  devminor <- hex8_at (addr + 70) ;;
  rdevmajor <- hex8_at (addr + 78) ;;
  rdevminor <- hex8_at (addr + 86) ;;
  namesize <- hex8_at (addr + 94) ;;
  check <- hex8_at (addr + 102) ;;
  ret (mk_header ino mode uid gid nlink mtime filesize devmajor devminor rdevmajor rdevminor namesize check).

(** The loop of [cpio_extract_single]; [target] is without the leading '/'. *)
Fixpoint find_file (fuel : nat) (filler : Z → Z → M S Z) (p : Z) (target : list Z) : M S Z :=
  match fuel with
  | O => λ _, Spin
  | Datatypes.S k =>
      header <- cpio_parse_header p ;;
      let p := u64 (p + SIZEOF_NEWC_HEADER) in
      r <- strcmp p TRAILER ;;
      if r =? 0 then ret (ERR_PTR (- ENOENT))
      else
        let filename := p in
        let p := ALIGN4_UP (u64 (p + c_namesize header)) in
        r <- strcmp filename target ;;
        if r =? 0 then filler p (c_filesize header)
        else find_file k filler (ALIGN4_UP (u64 (p + c_filesize header))) target
  end.

Definition cpio_extract_single (fuel : nat) (addr : Z) (target : list Z) (filler : Z → Z → M S Z) : M S Z :=
  match target with
  | [] => fault
  | _ :: target => find_file fuel filler addr target
  end.

End extract.

(** ** The list of files

    [g_files] is a list linked from a head; [tail] is the node that ends it, [None]
    for the head. *)
Record cpio_file := mk_file { f_header : cpio_header; f_name : Z; f_data : Z; f_next : Z }.

Section files.
Context {A : Type} `{!Allocator A}.

Record fstate := mk_fstate { f_al : A; f_bytes : bmem; f_nodes : gmap Z cpio_file; head_next : Z; tail : option Z }.

#[export] Instance fstate_bytes : HasBytes fstate.
Proof.
  refine (Build_HasBytes _ f_bytes (λ m s, mk_fstate (f_al s) m (f_nodes s) (head_next s) (tail s)) _ _ _).
  - done.
  - done.
  - by intros [].
Defined.

Definition with_nodes (f : gmap Z cpio_file → gmap Z cpio_file) (s : fstate) : fstate :=
  mk_fstate (f_al s) (f_bytes s) (f (f_nodes s)) (head_next s) (tail s).
Definition with_f_al (a : A) (s : fstate) : fstate := mk_fstate a (f_bytes s) (f_nodes s) (head_next s) (tail s).
Definition set_f_next (n : Z) (f : cpio_file) : cpio_file := mk_file (f_header f) (f_name f) (f_data f) n.

Definition SIZEOF_CPIO_FILE : Z := 136.

Definition cpio_init_g_files : M fstate unit := modify (λ s, mk_fstate (f_al s) (f_bytes s) (f_nodes s) 0 None).

(** [cpio_zalloc]: the new node is zeroed. *)
Definition cpio_alloc_file : M fstate Z :=
  p <- zoom f_al with_f_al (al_zalloc SIZEOF_CPIO_FILE) ;;
  if p =? 0 then ret 0
  else modify (with_nodes (<[p := mk_file (mk_header 0 0 0 0 0 0 0 0 0 0 0 0 0) 0 0 0]>)) ;; ret p.

Definition cpio_free (p : Z) : M fstate unit := modify (with_nodes (delete p)) ;; zoom f_al with_f_al (al_free p).

Definition upd_file (p : Z) (g : cpio_file → cpio_file) : M fstate unit :=
  s <- get ;; need (f_nodes s !! p) ;; modify (with_nodes (alter g p)).

Definition cpio_add_file (f : Z) : M fstate unit :=
  upd_file f (set_f_next 0) ;;
  s <- get ;;
  match tail s with
  | None => put (mk_fstate (f_al s) (f_bytes s) (f_nodes s) f (tail s))
  | Some t => upd_file t (set_f_next f)
  end ;;
  modify (λ s, mk_fstate (f_al s) (f_bytes s) (f_nodes s) (head_next s) (Some f)).

Fixpoint cpio_extract (fuel : nat) (p : Z) : M fstate unit :=
  match fuel with
  | O => λ _, Spin
  | S k =>
      f <- cpio_alloc_file ;;
      if f =? 0 then ret tt
      else
        header <- cpio_parse_header p ;;
        upd_file f (λ x, mk_file header (f_name x) (f_data x) (f_next x)) ;;
        let p := u64 (p + SIZEOF_NEWC_HEADER) in
        r <- strcmp p TRAILER ;;
        if r =? 0 then cpio_free f
        else
          upd_file f (λ x, mk_file (f_header x) p (f_data x) (f_next x)) ;;
          let p := ALIGN4_UP (u64 (p + c_namesize header)) in
          upd_file f (λ x, mk_file (f_header x) (f_name x) p (f_next x)) ;;
          let p := ALIGN4_UP (u64 (p + c_filesize header)) in
          cpio_add_file f ;;
          cpio_extract k p
  end.

End files.
Arguments fstate A : clear implicits.

(** ** Archives *)

Definition hex_char (d : Z) : Z := if d <? 10 then 0x30 + d else 0x41 + (d - 10).
(** [%08X] *)
Definition hex8 (n : Z) : list Z := map (λ i, hex_char ((n / 16 ^ i) `mod` 16)) [7; 6; 5; 4; 3; 2; 1; 0].

Definition fields (h : cpio_header) : list Z :=
  [c_ino h; c_mode h; c_uid h; c_gid h; c_nlink h; c_mtime h; c_filesize h; c_devmajor h; c_devminor h; c_rdevmajor h; c_rdevminor h;
   c_namesize h; c_check h].
Definition encode_header (h : cpio_header) : list Z := MAGIC ++ concat (map hex8 (fields h)).

Definition header_at (m : bmem) (a : Z) (h : cpio_header) : Prop := bytes_at m a (encode_header h) ∧ Forall is_u32 (fields h).

Record entry := mk_entry { e_header : cpio_header; e_name : list Z; e_data : list Z }.

Definition up4 (x : Z) : Z := (x + 3) / 4 * 4.
(** Where the contents of a file start whose header is at [a], and the next header. *)
Definition data_addr (a : Z) (e : entry) : Z := up4 (a + SIZEOF_NEWC_HEADER + c_namesize (e_header e)).
Definition next_addr (a : Z) (e : entry) : Z := up4 (data_addr a e + c_filesize (e_header e)).

Record entry_at (m : bmem) (a : Z) (e : entry) : Prop := {
  ea_header : header_at m a (e_header e);
  ea_name : string_at m (a + SIZEOF_NEWC_HEADER) (e_name e);
  ea_namesize : c_namesize (e_header e) = Z.of_nat (length (e_name e)) + 1;
  ea_data : bytes_at m (data_addr a e) (e_data e);
  ea_filesize : c_filesize (e_header e) = Z.of_nat (length (e_data e))
}.

Fixpoint archive_at (m : bmem) (a : Z) (es : list entry) : Prop :=
  match es with
  | [] => a + SIZEOF_NEWC_HEADER < 2 ^ 64 ∧ ∃ h, header_at m a h ∧ string_at m (a + SIZEOF_NEWC_HEADER) TRAILER
  | e :: es' => next_addr a e < 2 ^ 64 ∧ entry_at m a e ∧ e_name e ≠ TRAILER ∧ archive_at m (next_addr a e) es'
  end.

(** The first file called [name]: the address of its contents and the file. *)
Fixpoint locate (a : Z) (es : list entry) (name : list Z) : option (Z * entry) :=
  match es with
  | [] => None
  | e :: es' => if decide (e_name e = name) then Some (data_addr a e, e) else locate (next_addr a e) es' name
  end.

(** ** Numbers and headers *)

Lemma hex_char_digit d : 0 ≤ d < 16 → hex_digit (hex_char d) = d.
Proof. intros H. unfold hex_digit, hex_char. repeat case_match; lia. Qed.

(** The digits that were read are the number without its last digits. *)
Lemma hex8_step n u i : is_u32 n → 0 ≤ i < 8 → u = n / 16 ^ (i + 1) →
  u64 (u64 (Z.shiftl u 4) + hex_digit (hex_char ((n / 16 ^ i) `mod` 16))) = n / 16 ^ i.
Proof.
  intros Hn Hi ->. rewrite hex_char_digit by (apply Z.mod_pos_bound; lia). rewrite Z.shiftl_mul_pow2 by lia. change (2 ^ 4) with 16.
  rewrite (Z.pow_add_r 16 i 1), <- Z.div_div by lia. change (16 ^ 1) with 16. set (q := n / 16 ^ i).
  assert (0 ≤ q < 2 ^ 32) as Hq.
  { unfold is_u32 in Hn. pose proof (Z.pow_pos_nonneg 16 i). split; [apply Z.div_pos; lia|]. apply Z.div_lt_upper_bound; nia. }
  pose proof (Z.div_mod q 16). pose proof (Z.mod_pos_bound q 16). rewrite (u64_id (_ * 16)) by (unfold is_u64; lia). rewrite u64_id; [lia|unfold is_u64; lia].
Qed.

(** [hex8_u64] reads what [%08X] prints. *)
Lemma hex8_roundtrip n : is_u32 n → hex8_u64 (hex8 n) = n.
Proof.
  intros H. unfold hex8_u64, hex8. cbn [map fold_left].
  rewrite (hex8_step n 0 7 H); [|lia|symmetry; apply Z.div_small; exact H].
  rewrite (hex8_step n _ 6 H), (hex8_step n _ 5 H), (hex8_step n _ 4 H), (hex8_step n _ 3 H), (hex8_step n _ 2 H), (hex8_step n _ 1 H), (hex8_step n _ 0 H)
    by first [lia|reflexivity]. apply Z.div_1_r.
Qed.

Lemma length_hex8 n : length (hex8 n) = 8%nat.
Proof. done. Qed.

Lemma hex8_field {S} `{!HasBytes S} (s : S) a n : is_u32 n → bytes_at (bytes s) a (hex8 n) → hex8_at a s = Done n s.
Proof.
  intros Hn H. unfold hex8_at. erewrite bind_Done by (apply (ldn_ok s a (hex8 n)); exact H). unfold ret. by rewrite hex8_roundtrip.
Qed.

Lemma parse_header_ok {S} `{!HasBytes S} (s : S) a h : header_at (bytes s) a h → cpio_parse_header a s = Done h s.
Proof.
  intros [H HF]. unfold encode_header, fields in *. cbn [map concat] in H. rewrite !bytes_at_app, !length_hex8 in H.
  change (Z.of_nat (length MAGIC)) with 6 in H. change (Z.of_nat 8) with 8 in H.
  rewrite !Forall_cons in HF. destruct H as (H0 & H). unfold cpio_parse_header.
  erewrite bind_Done by (apply (strncmp_same s a MAGIC); [exact H0|by apply (bool_decide_unpack (0 ∉ MAGIC))]).
  erewrite bind_Done by reflexivity. rewrite <- !Z.add_assoc in H.
  destruct H as (H1 & H2 & H3 & H4 & H5 & H6 & H7 & H8 & H9 & H10 & H11 & H12 & H13 & _), HF as (F1 & F2 & F3 & F4 & F5 & F6 & F7 & F8 & F9 & F10 & F11 & F12 & F13 & _).
  repeat (erewrite bind_Done by (eapply hex8_field; [|eassumption]; eassumption)). by destruct h.
Qed.

(** Lower case digits are not read as such. *)
Example hex8_lower_case : hex8_u64 [0x30; 0x30; 0x30; 0x30; 0x30; 0x30; 0x30; 0x61] = 49.
Proof. reflexivity. Qed.

(** ** Finding a file *)

Lemma ALIGN4_UP_ok x : 0 ≤ x → up4 x < 2 ^ 64 → ALIGN4_UP x = up4 x.
Proof.
  intros Hx Hu. unfold ALIGN4_UP, up4 in *. change 3 with (Z.ones 2). rewrite <- Z.ldiff_land, Z.ldiff_ones_r, Z.shiftr_div_pow2, Z.shiftl_mul_pow2, Z.land_ones by lia.
  change (2 ^ 2) with 4. change (Z.ones 2) with 3 in *. pose proof (Z.div_mod x 4). pose proof (Z.mod_pos_bound x 4).
  assert ((x + 3) / 4 = x / 4 + (if x `mod` 4 =? 0 then 0 else 1)) as E.
  { symmetry. apply Z.div_unique with (if x `mod` 4 =? 0 then 3 else x `mod` 4 - 1); destruct (Z.eqb_spec (x `mod` 4) 0); lia. }
  rewrite u64_id; [|unfold is_u64]; destruct (Z.eqb_spec (x `mod` 4) 0); lia.
Qed.

Lemma up4_ge x : x ≤ up4 x.
Proof. unfold up4. pose proof (Z.div_mod (x + 3) 4). pose proof (Z.mod_pos_bound (x + 3) 4). lia. Qed.

Lemma up4_mod x : up4 x `mod` 4 = 0.
Proof. unfold up4. apply Z.mod_mul. lia. Qed.

Section find.
Context {S : Type} `{!HasBytes S}.
Implicit Types s : S.

(** The addresses of one round of the loops. *)
Lemma entry_addrs m a e : 0 ≤ a → entry_at m a e → next_addr a e < 2 ^ 64 →
  u64 (a + SIZEOF_NEWC_HEADER) = a + SIZEOF_NEWC_HEADER ∧
  ALIGN4_UP (u64 (a + SIZEOF_NEWC_HEADER + c_namesize (e_header e))) = data_addr a e ∧
  ALIGN4_UP (u64 (data_addr a e + c_filesize (e_header e))) = next_addr a e ∧ a < next_addr a e.
Proof.
  intros Ha E Hn. destruct E as [_ _ E1 _ E2]. unfold next_addr in *. pose proof (up4_ge (data_addr a e + c_filesize (e_header e))) as G1.
  unfold data_addr in *. pose proof (up4_ge (a + SIZEOF_NEWC_HEADER + c_namesize (e_header e))) as G2. unfold SIZEOF_NEWC_HEADER in *.
  split_and!; [apply u64_id; unfold is_u64; lia| | |lia].
  - rewrite u64_id by (unfold is_u64; lia). apply ALIGN4_UP_ok; lia.
  - rewrite u64_id by (unfold is_u64; lia). apply ALIGN4_UP_ok; lia.
Qed.

Lemma find_file_spec s es fuel filler a target : archive_at (bytes s) a es → 0 ≤ a → (length es < fuel)%nat → (0 ∉ target) →
  find_file fuel filler a target s =
    match locate a es target with
    | Some (p, e) => filler p (c_filesize (e_header e)) s
    | None => Done (ERR_PTR (- ENOENT)) s
    end.
Proof.
  revert fuel a. induction es as [|e es IH]; intros [|fuel] a HA Ha Hf Nt; cbn [length] in Hf; try lia; cbn [find_file].
  - destruct HA as (Hb & h & Hh & Ht). erewrite bind_Done by (by apply parse_header_ok). cbv zeta.
    rewrite u64_id by (unfold is_u64, SIZEOF_NEWC_HEADER in *; lia).
    destruct (strcmp_ok s _ _ TRAILER Ht (proj2 Ht)) as (r & E & Hr). erewrite bind_Done by exact E. by rewrite (proj2 Hr eq_refl).
  - destruct HA as (Hb & HE & Nn & HA). destruct (entry_addrs _ _ _ Ha HE Hb) as (E1 & E2 & E3 & Hlt). pose proof (ea_name _ _ _ HE) as HN.
    erewrite bind_Done by (apply parse_header_ok; apply HE). cbv zeta. rewrite E1, E2, E3.
    destruct (strcmp_ok s _ _ TRAILER HN) as (r & E & Hr); [by apply (bool_decide_unpack (0 ∉ TRAILER))|]. erewrite bind_Done by exact E.
    rewrite (proj2 (Z.eqb_neq r 0)) by (rewrite Hr; done).
    destruct (strcmp_ok s _ _ target HN Nt) as (r' & E' & Hr'). erewrite bind_Done by exact E'. cbn [locate].
    destruct (decide (e_name e = target)) as [Et|Et]; [by rewrite (proj2 Hr' Et)|].
    rewrite (proj2 (Z.eqb_neq r' 0)) by (rewrite Hr'; done). apply IH; [done|lia|lia|done].
Qed.

(** What is located has the name, is the first such file and has its contents in memory. *)
Lemma locate_ok m es a name p e : archive_at m a es → locate a es name = Some (p, e) →
  ∃ es1 es2, es = es1 ++ e :: es2 ∧ e_name e = name ∧ Forall (λ x, e_name x ≠ name) es1 ∧ bytes_at m p (e_data e) ∧
  c_filesize (e_header e) = Z.of_nat (length (e_data e)).
Proof.
  revert a. induction es as [|x es IH]; intros a HA HL; [done|]. destruct HA as (_ & HE & _ & HA). cbn [locate] in HL.
  destruct (decide (e_name x = name)) as [En|En].
  - injection HL as <- <-. exists [], es. split_and!; [done|done|constructor|apply HE|apply HE].
  - destruct (IH _ HA HL) as (es1 & es2 & -> & H1 & H2 & H3). exists (x :: es1), es2. split_and!; [done|done|by constructor|apply H3..].
Qed.
Lemma locate_None es a name : locate a es name = None ↔ Forall (λ x, e_name x ≠ name) es.
Proof.
  revert a. induction es as [|x es IH]; intros a; cbn [locate]; [by split|]. rewrite Forall_cons.
  destruct (decide (e_name x = name)) as [En|En]; [by split; [|intros []]|]. rewrite IH. tauto.
Qed.

(** C37: In a well-formed archive [cpio_extract_single] hands the filler the contents
    and the size of the first file with the name that follows the leading '/'; when
    no file has the name it returns [-ENOENT] without effect; it always returns from
    its loop. *)
Theorem cpio_extract_single_ok s es fuel filler a c target : archive_at (bytes s) a es → 0 ≤ a → (length es < fuel)%nat → (0 ∉ target) →
  (Forall (λ x, e_name x ≠ target) es ∧ cpio_extract_single fuel a (c :: target) filler s = Done (ERR_PTR (- ENOENT)) s) ∨
  ∃ p e es1 es2, es = es1 ++ e :: es2 ∧ e_name e = target ∧ Forall (λ x, e_name x ≠ target) es1 ∧ bytes_at (bytes s) p (e_data e) ∧
    cpio_extract_single fuel a (c :: target) filler s = filler p (Z.of_nat (length (e_data e))) s.
Proof.
  intros HA Ha Hf Nt. unfold cpio_extract_single. rewrite (find_file_spec s es fuel filler a target HA Ha Hf Nt).
  destruct (locate a es target) as [[p e]|] eqn:E; [right|left; split; [by eapply locate_None|done]].
  destruct (locate_ok _ _ _ _ _ _ HA E) as (es1 & es2 & H1 & H2 & H3 & H4 & H5). exists p, e, es1, es2. by rewrite H5.
Qed.

End find.

(** ** The list of all files *)

Section all.
Context {A : Type} `{!Allocator A}.
Implicit Types s : fstate A.

(** From [p] on the nodes are linked in the order of [l]. *)
Fixpoint links (N : gmap Z cpio_file) (p : Z) (l : list Z) : Prop :=
  match l with
  | [] => p = 0
  | q :: l' => p = q ∧ ∃ f, N !! q = Some f ∧ links N (f_next f) l'
  end.

Record files_list s (l : list Z) : Prop := {
  fl_links : links (f_nodes s) (head_next s) l;
  fl_tail : tail s = last l;
  fl_nodup : NoDup l
}.

(** The nodes [l] describe the files [es] of the archive at [a]. *)
Fixpoint describe (N : gmap Z cpio_file) (a : Z) (es : list entry) (l : list Z) : Prop :=
  match es, l with
  | [], [] => True
  | e :: es', p :: l' => (∃ n, N !! p = Some (mk_file (e_header e) (a + SIZEOF_NEWC_HEADER) (data_addr a e) n)) ∧ describe N (next_addr a e) es' l'
  | _, _ => False
  end.

(** The node [f] behind the last of [l]. *)
Definition append (f : Z) (x : cpio_file) (l : list Z) (N : gmap Z cpio_file) : gmap Z cpio_file :=
  match last l with Some t => alter (set_f_next f) t (<[f := set_f_next 0 x]> N) | None => <[f := set_f_next 0 x]> N end.

Lemma append_new f x l N : f ∉ l → append f x l N !! f = Some (set_f_next 0 x).
Proof.
  intros Hf. unfold append. destruct (last l) as [t|] eqn:Et; [|apply lookup_insert_eq].
  rewrite lookup_alter_ne; [apply lookup_insert_eq|]. intros ->. apply Hf. apply last_Some in Et as [l' ->]. apply elem_of_app. right. by left.
Qed.
(** Of the other nodes only a link can change. *)
Lemma append_old f x l N q y : q ≠ f → N !! q = Some y → ∃ n, append f x l N !! q = Some (mk_file (f_header y) (f_name y) (f_data y) n).
Proof.
  intros Nq Hq. assert (<[f := set_f_next 0 x]> N !! q = Some y) as H by (by rewrite lookup_insert_ne). unfold append.
  destruct (last l) as [t|]; [destruct (decide (q = t)) as [->|Nt]|].
  - rewrite lookup_alter_eq, H. by exists f.
  - rewrite lookup_alter_ne, H by done. exists (f_next y). by destruct y.
  - rewrite H. exists (f_next y). by destruct y.
Qed.
Lemma append_same f x l N q : q ≠ f → last l ≠ Some q → append f x l N !! q = N !! q.
Proof.
  intros Nq Nl. unfold append. destruct (last l) as [t|]; [rewrite lookup_alter_ne by congruence|]; by rewrite lookup_insert_ne.
Qed.

Lemma links_append f x l N p : links N p l → NoDup l → f ∉ l → l ≠ [] → links (append f x l N) p (l ++ [f]).
Proof.
  intros HL HN Hf Hne. revert p HL. assert (∀ k l', l = k ++ l' → l' ≠ [] → ∀ p, links N p l' → links (append f x l N) p (l' ++ [f])) as G; [|by apply (G [] l)].
  intros k l'. revert k. induction l' as [|q l' IH]; intros k El Hl p HL; [done|]. destruct HL as [-> (y & Hy & HL)]. split; [done|].
  assert (q ∈ l) as Hq by (rewrite El; apply elem_of_mid). destruct l' as [|r l'].
  - assert (last l = Some q) as Hla by (by rewrite El, last_snoc). exists (set_f_next f y). split; [|split; [done|]].
    + unfold append. rewrite Hla, lookup_alter_eq, lookup_insert_ne by (intros ->; done). by rewrite Hy.
    + exists (set_f_next 0 x). split; [by apply append_new|done].
  - exists y. split; [|apply (IH (k ++ [q])); [by rewrite El, <- app_assoc|done|exact HL]].
    rewrite append_same; [done|by intros ->|]. intros Hla. rewrite El in HN, Hla. apply NoDup_app in HN as (_ & _ & HN). apply NoDup_cons in HN as [HN _].
    apply HN. rewrite last_app, last_cons in Hla. destruct (last (r :: l')) as [z|] eqn:Ez; [|by apply last_None in Ez]. injection Hla as ->.
    apply last_Some in Ez as [l1 ->]. apply elem_of_app. right. by left.
Qed.

Lemma alter_as_insert (N : gmap Z cpio_file) p x g : N !! p = Some x → alter g p N = <[p := g x]> N.
Proof.
  intros H. apply map_eq. intros i. destruct (decide (i = p)) as [->|Ni]; [by rewrite lookup_alter_eq, lookup_insert_eq, H|].
  by rewrite lookup_alter_ne, lookup_insert_ne.
Qed.

Lemma upd_file_ok s p x g : f_nodes s !! p = Some x → upd_file p g s = Done tt (with_nodes (<[p := g x]>) s).
Proof.
  intros H. unfold upd_file, bind, get. rewrite H. simpl. unfold modify. f_equal. unfold with_nodes. f_equal. by apply alter_as_insert.
Qed.

Lemma cpio_add_file_ok s l f x : files_list s l → f ∉ l → f_nodes s !! f = Some x →
  ∃ s', cpio_add_file f s = Done tt s' ∧ files_list s' (l ++ [f]) ∧ f_nodes s' = append f x l (f_nodes s) ∧ f_al s' = f_al s ∧ f_bytes s' = f_bytes s.
Proof.
  intros [HL HT HN] Hf Hx. unfold cpio_add_file. erewrite bind_Done by (by apply upd_file_ok). erewrite bind_Done by reflexivity. simpl tail.
  assert (NoDup (l ++ [f])) as HN' by (apply NoDup_app; split_and!; [done|set_solver|apply NoDup_singleton]).
  destruct (tail s) as [t|] eqn:Et; symmetry in HT.
  - assert (t ∈ l) as Htl by (apply last_Some in HT as [l' ->]; set_solver). assert (t ≠ f) as Ntf by (by intros ->).
    assert (∃ y, f_nodes s !! t = Some y) as [y Hy].
    { clear -HL Htl. revert HL. generalize (head_next s). induction l as [|q l IH]; intros p HL; [by apply elem_of_nil in Htl|].
      destruct HL as [-> (z & Hz & HL)]. apply elem_of_cons in Htl as [->|Htl]; [by exists z|by eapply IH]. }
    erewrite bind_Done by (apply upd_file_ok; simpl; rewrite lookup_insert_ne by done; exact Hy). eexists. split; [reflexivity|].
    assert (∀ N, N !! t = Some y → <[t := set_f_next f y]> N = alter (set_f_next f) t N) as EA by (intros N HNt; by rewrite (alter_as_insert N t y)).
    assert (<[f := set_f_next 0 x]> (f_nodes s) !! t = Some y) as Hy' by (by rewrite lookup_insert_ne).
    split_and!; [|simpl; rewrite (EA _ Hy'); unfold append; by rewrite HT|done|done].
    split; simpl; [|by rewrite last_snoc|done]. rewrite (EA _ Hy').
    pose proof (links_append f x l (f_nodes s) (head_next s) HL HN Hf ltac:(by intros ->)) as G. unfold append in G. by rewrite HT in G.
  - apply last_None in HT as ->. erewrite bind_Done by reflexivity. eexists. split; [reflexivity|]. split_and!; [|done..].
    split; simpl; [|done|done]. split; [done|]. exists (set_f_next 0 x). split; [apply lookup_insert_eq|done].
Qed.

(** The list is [l], and the heap owns its nodes. *)
Record files_ok s (l : list Z) (L : gmap Z Z) : Prop := {
  fo_list : files_list s l;
  fo_heap : owns (f_al s) L;
  fo_owned : ∀ q, is_Some (f_nodes s !! q) → is_Some (L !! q)
}.

(** The files of before are there, with other links at most. *)
Definition kept (N N' : gmap Z cpio_file) : Prop :=
  ∀ q y, N !! q = Some y → ∃ n, N' !! q = Some (mk_file (f_header y) (f_name y) (f_data y) n).

Lemma kept_trans N1 N2 N3 : kept N1 N2 → kept N2 N3 → kept N1 N3.
Proof. intros H1 H2 q y Hq. destruct (H1 q y Hq) as [n Hn]. by destruct (H2 q _ Hn) as [k Hk]; exists k. Qed.

Lemma links_nodes N p l q : links N p l → q ∈ l → is_Some (N !! q).
Proof.
  revert p. induction l as [|r l IH]; intros p HL Hq; [by apply elem_of_nil in Hq|]. destruct HL as [-> (z & Hz & HL)].
  apply elem_of_cons in Hq as [->|Hq]; [by exists z|by eapply IH].
Qed.

Definition zero_file : cpio_file := mk_file (mk_header 0 0 0 0 0 0 0 0 0 0 0 0 0) 0 0 0.

Lemma cpio_alloc_file_ok s l L : files_ok s l L → SIZEOF_CPIO_FILE ≤ max_size (S := A) → cpio_alloc_file s = Halt ∨
  (∃ a', cpio_alloc_file s = Done 0 (with_f_al a' s) ∧ owns a' L ∧ al_zalloc SIZEOF_CPIO_FILE (f_al s) = Done 0 a') ∨
  ∃ p n a', p ≠ 0 ∧ L !! p = None ∧ owns a' (<[p := n]> L) ∧
    cpio_alloc_file s = Done p (with_nodes (<[p := zero_file]>) (with_f_al a' s)).
Proof.
  intros [_ HO _] Hm. unfold cpio_alloc_file.
  destruct (al_zalloc_ok (f_al s) L SIZEOF_CPIO_FILE HO) as [E|(p & a' & E & [[-> H]|(n & Hp & Hn & _ & H)])]; [split; [done|exact Hm]| | |].
  - left. apply bind_Halt. by apply zoom_Halt.
  - right. left. exists a'. by erewrite bind_Done by (by apply zoom_Done).
  - right. right. exists p, n, a'. split_and!; [done..|]. erewrite bind_Done by (by apply zoom_Done). by rewrite (proj2 (Z.eqb_neq _ _) Hp).
Qed.

(** One round on a file: a node that describes it is appended. *)
Lemma file_round s l L p n a' e a : files_ok s l L → p ≠ 0 → L !! p = None → owns a' (<[p := n]> L) →
  let x := mk_file (e_header e) (a + SIZEOF_NEWC_HEADER) (data_addr a e) 0 in
  ∃ s', cpio_add_file p (with_nodes (<[p := x]>) (with_f_al a' s)) = Done tt s' ∧ files_ok s' (l ++ [p]) (<[p := n]> L) ∧
  f_bytes s' = f_bytes s ∧ f_nodes s' !! p = Some x ∧ kept (f_nodes s) (f_nodes s').
Proof.
  intros [HL HO HD] Np HLp HO' x. assert (f_nodes s !! p = None) as Hp.
  { destruct (f_nodes s !! p) eqn:E; [|done]. destruct (HD p ltac:(by rewrite E)) as [m Hm]. congruence. }
  assert (p ∉ l) as Hpl. { intros H. apply (links_nodes _ _ _ _ (fl_links _ _ HL)) in H as [y Hy]. congruence. }
  assert (files_list (with_nodes (<[p := x]>) (with_f_al a' s)) l) as HL'.
  { destruct HL as [H1 H2 H3]. split; [|done|done]. simpl. clear -H1 Hpl. revert H1. generalize (head_next s).
    induction l as [|q l IH]; intros r H; [done|]. rewrite not_elem_of_cons in Hpl. destruct H as [-> (z & Hz & H)]. split; [done|]. exists z.
    rewrite lookup_insert_ne by (intros ->; tauto). split; [done|]. apply IH; tauto. }
  destruct (cpio_add_file_ok _ l p x HL' Hpl (lookup_insert_eq _ _ _)) as (s' & E & HL2 & EN & EA & EB). simpl in EN.
  assert (kept (f_nodes s) (f_nodes s')) as HK.
  { intros q y Hq. rewrite EN. apply append_old; [by intros ->; congruence|]. rewrite lookup_insert_ne by (intros ->; congruence). exact Hq. }
  exists s'. split_and!; [exact E| |done|rewrite EN; by apply (append_new p x)|exact HK]. split; [done|by rewrite EA|].
  intros q Hq. destruct (decide (q = p)) as [->|Nq]; [rewrite lookup_insert_eq; eauto|]. rewrite lookup_insert_ne by done. apply HD.
  rewrite EN in Hq. unfold append in Hq. destruct (last l) as [t|]; [|by rewrite !lookup_insert_ne in Hq].
  destruct (decide (q = t)) as [->|Nt]; [rewrite lookup_alter_eq, !lookup_insert_ne, fmap_is_Some in Hq by done; done|].
  by rewrite lookup_alter_ne, !lookup_insert_ne in Hq.
Qed.

Definition extracted s l a es s' : Prop := ∃ l' es1 es2 L', es = es1 ++ es2 ∧ files_ok s' (l ++ l') L' ∧ describe (f_nodes s') a es1 l' ∧
  kept (f_nodes s) (f_nodes s') ∧ (es2 = [] ∨ ∃ x y : A, al_zalloc SIZEOF_CPIO_FILE x = Done 0 y).

(** No memory for a node: the rest of the archive is left out. *)
Lemma extracted_none s l L a a' es : files_ok s l L → owns a' L → (es = [] ∨ ∃ x y : A, al_zalloc SIZEOF_CPIO_FILE x = Done 0 y) →
  extracted s l a es (with_f_al a' s).
Proof.
  intros [[H1 H2 H3] _ HD] HO He. exists [], [], es, L. rewrite app_nil_r. split_and!; [done| |done| |done]; [split; [by split|done|done]|].
  intros q y Hq. exists (f_next y). simpl. rewrite Hq. by destruct y.
Qed.

Lemma extract_end s l L a p n a' fuel : files_ok s l L → L !! p = None → owns a' (<[p := n]> L) → p ≠ 0 → 0 ≤ a → archive_at (f_bytes s) a [] →
  cpio_alloc_file s = Done p (with_nodes (<[p := zero_file]>) (with_f_al a' s)) →
  ∃ a2, cpio_extract (S fuel) a s = Done tt (with_f_al a2 s) ∧ owns a2 L.
Proof.
  intros [HL HO HD] HLp HO' Np Ha (Hb & h & Hh & Ht) E. cbn [cpio_extract]. erewrite bind_Done by exact E. rewrite (proj2 (Z.eqb_neq _ _) Np).
  erewrite bind_Done by (apply parse_header_ok; exact Hh). erewrite bind_Done by (apply upd_file_ok; apply lookup_insert_eq). cbv zeta.
  rewrite u64_id by (unfold is_u64, SIZEOF_NEWC_HEADER in *; lia).
  destruct (strcmp_ok (with_nodes (<[p := mk_file h 0 0 0]>) (with_nodes (<[p := zero_file]>) (with_f_al a' s)))
    (a + SIZEOF_NEWC_HEADER) TRAILER TRAILER) as (r & Es & Hr); [exact Ht|exact (proj2 Ht)|].
  erewrite bind_Done by exact Es. rewrite (proj2 Hr eq_refl). change (0 =? 0) with true. cbv iota. destruct (al_free_ok a' _ p n HO' (lookup_insert_eq _ _ _)) as (a2 & Ef & HO2).
  exists a2. unfold cpio_free. erewrite bind_Done by reflexivity. erewrite zoom_Done by exact Ef.
  rewrite delete_insert_id in HO2 by done. split; [|exact HO2]. f_equal. unfold with_nodes, with_f_al. simpl. f_equal.
  assert (f_nodes s !! p = None). { destruct (f_nodes s !! p) eqn:Ep; [|done]. destruct (HD p ltac:(by rewrite Ep)). congruence. }
  by rewrite insert_insert_eq, delete_insert_id.
Qed.

Lemma extract_file s a p a' e fuel : p ≠ 0 → 0 ≤ a → next_addr a e < 2 ^ 64 → entry_at (f_bytes s) a e → e_name e ≠ TRAILER →
  cpio_alloc_file s = Done p (with_nodes (<[p := zero_file]>) (with_f_al a' s)) →
  cpio_extract (S fuel) a s = (cpio_add_file p ;; cpio_extract fuel (next_addr a e))
    (with_nodes (<[p := mk_file (e_header e) (a + SIZEOF_NEWC_HEADER) (data_addr a e) 0]>) (with_f_al a' s)).
Proof.
  intros Np Ha Hb HE Nn E. destruct (entry_addrs _ _ _ Ha HE Hb) as (E1 & E2 & E3 & _). cbn [cpio_extract]. erewrite bind_Done by exact E.
  rewrite (proj2 (Z.eqb_neq _ _) Np). erewrite bind_Done by (apply parse_header_ok; apply HE).
  erewrite bind_Done by (apply upd_file_ok; apply lookup_insert_eq). cbv zeta. rewrite E1, E2, E3.
  edestruct (strcmp_ok (with_nodes (<[p := mk_file (e_header e) 0 0 0]>) (with_nodes (<[p := zero_file]>) (with_f_al a' s)))
    (a + SIZEOF_NEWC_HEADER) (e_name e) TRAILER) as (r & Es & Hr);
    [apply HE|by apply (bool_decide_unpack (0 ∉ TRAILER))|].
  erewrite bind_Done by exact Es. rewrite (proj2 (Z.eqb_neq r 0)) by (rewrite Hr; done).
  do 2 (erewrite bind_Done by (apply upd_file_ok; apply lookup_insert_eq)). unfold with_nodes, with_f_al. simpl. by rewrite !insert_insert_eq.
Qed.

Lemma extract_spec s l L es fuel a : files_ok s l L → SIZEOF_CPIO_FILE ≤ max_size (S := A) → archive_at (f_bytes s) a es → 0 ≤ a → (length es < fuel)%nat →
  wph (cpio_extract fuel a) (λ _ s', extracted s l a es s') s.
Proof.
  revert fuel a s l L. induction es as [|e es IH]; intros [|fuel] a s l L HO Hm HA Ha Hf; cbn [length] in Hf; try lia;
    (destruct (cpio_alloc_file_ok s l L HO Hm) as [E|[(a' & E & HO' & Hz)|(p & n & a' & Np & HLp & HO' & E)]];
     [unfold wph; cbn [cpio_extract]; by rewrite (bind_Halt _ _ _ E)
     |eapply wph_Done; [cbn [cpio_extract]; erewrite bind_Done by exact E; reflexivity|]; eapply extracted_none; eauto|]).
  - destruct (extract_end s l L a p n a' fuel HO HLp HO' Np Ha HA E) as (a2 & E2 & HO2). eapply wph_Done; [exact E2|]. eapply extracted_none; eauto.
  - destruct HA as (Hb & HE & Nn & HA). pose proof (entry_addrs _ _ _ Ha HE Hb) as (_ & _ & _ & Hlt). unfold wph.
    rewrite (extract_file s a p a' e fuel Np Ha Hb HE Nn E). destruct (file_round s l L p n a' e a HO Np HLp HO') as (s1 & E1 & HO1 & EB & Hp & HK).
    erewrite bind_Done by exact E1. eapply (wph_mono _ _ _ s1); [apply (IH fuel (next_addr a e) s1 _ _ HO1 Hm); [by rewrite EB|lia|lia]|].
    intros _ s2 (l' & es1 & es2 & L2 & -> & HO2 & HD & HK2 & He). exists (p :: l'), (e :: es1), es2, L2.
    split_and!; [done|by rewrite <- app_assoc in HO2| |by eapply kept_trans|done]. split; [|done]. by destruct (HK2 p _ Hp) as [k Hk]; exists k.
Qed.

(** [cpio_extract] appends to the list one node for each file of the archive, in
    order, with the header, the name and the contents of the file; it stops early
    only for lack of memory. *)
Theorem cpio_extract_ok s l L es fuel a : files_ok s l L → SIZEOF_CPIO_FILE ≤ max_size (S := A) → archive_at (f_bytes s) a es → 0 ≤ a → (length es < fuel)%nat →
  cpio_extract fuel a s = Halt ∨ ∃ s', cpio_extract fuel a s = Done tt s' ∧ extracted s l a es s'.
Proof. intros HO Hm HA Ha Hf. pose proof (extract_spec s l L es fuel a HO Hm HA Ha Hf) as H. apply wph_or in H as [H|([] & s' & H)]; eauto. Qed.

End all.
(** ** Writing archives *)

Definition pad (n : Z) : list Z := replicate (Z.to_nat ((- n) `mod` 4)) 0.
Definition encode_entry (e : entry) : list Z :=
  encode_header (e_header e) ++ (e_name e ++ [0]) ++ pad (SIZEOF_NEWC_HEADER + Z.of_nat (length (e_name e)) + 1) ++
  e_data e ++ pad (Z.of_nat (length (e_data e))).
Definition trailer : entry := mk_entry (mk_header 0 0 0 0 1 0 0 0 0 0 0 11 0) TRAILER [].
Definition encode_archive (es : list entry) : list Z := concat (map encode_entry es) ++ encode_entry trailer.

Record entry_fine (e : entry) : Prop := {
  ef_fields : Forall is_u32 (fields (e_header e));
  ef_name : 0 ∉ e_name e;
  ef_namesize : c_namesize (e_header e) = Z.of_nat (length (e_name e)) + 1;
  ef_filesize : c_filesize (e_header e) = Z.of_nat (length (e_data e))
}.

Lemma pad_up4 a n : a `mod` 4 = 0 → a + n + Z.of_nat (length (pad n)) = up4 (a + n).
Proof.
  intros Ha. unfold pad, up4. rewrite length_replicate, Z2Nat.id by (apply Z.mod_pos_bound; lia).
  pose proof (Z.div_mod a 4). pose proof (Z.div_mod (- n) 4). pose proof (Z.mod_pos_bound (- n) 4).
  pose proof (Z.div_mod (a + n + 3) 4). pose proof (Z.mod_pos_bound (a + n + 3) 4). lia.
Qed.

Lemma length_encode_header h : length (encode_header h) = 110%nat.
Proof. done. Qed.

Lemma encode_entry_at m a e : a `mod` 4 = 0 → entry_fine e → bytes_at m a (encode_entry e) →
  entry_at m a e ∧ next_addr a e = a + Z.of_nat (length (encode_entry e)) ∧ next_addr a e `mod` 4 = 0.
Proof.
  intros Ha [H1 H2 H3 H4] H. pose proof (pad_up4 a (SIZEOF_NEWC_HEADER + Z.of_nat (length (e_name e)) + 1) Ha) as E1.
  assert (data_addr a e = a + (SIZEOF_NEWC_HEADER + Z.of_nat (length (e_name e)) + 1) +
    Z.of_nat (length (pad (SIZEOF_NEWC_HEADER + Z.of_nat (length (e_name e)) + 1)))) as ED by (rewrite E1; unfold data_addr; rewrite H3; f_equal; lia).
  pose proof (pad_up4 (data_addr a e) (Z.of_nat (length (e_data e))) (up4_mod _)) as E2.
  assert (next_addr a e = data_addr a e + Z.of_nat (length (e_data e)) + Z.of_nat (length (pad (Z.of_nat (length (e_data e)))))) as EN
    by (rewrite E2; unfold next_addr; by rewrite H4).
  unfold encode_entry in *. apply bytes_at_app in H as [HH H]. apply bytes_at_app in H as [HN H]. apply bytes_at_app in H as [_ H]. apply bytes_at_app in H as [HD _].
  rewrite !length_app, length_encode_header in *. cbn [length] in *. unfold SIZEOF_NEWC_HEADER in *. split_and!; [|lia|apply up4_mod].
  split; [by split|by split|done| |done]. replace (data_addr a e) with (a + Z.of_nat 110 + Z.of_nat (length (e_name e) + 1) +
    Z.of_nat (length (pad (110 + Z.of_nat (length (e_name e)) + 1)))) by lia. exact HD.
Qed.

(** What is written is an archive of these files. *)
Lemma encode_archive_at m a es : a `mod` 4 = 0 → 0 ≤ a → a + Z.of_nat (length (encode_archive es)) < 2 ^ 64 →
  Forall (λ e, entry_fine e ∧ e_name e ≠ TRAILER) es → bytes_at m a (encode_archive es) → archive_at m a es.
Proof.
  intros Ha H0 Hb HF. revert a Ha H0 Hb. induction HF as [|e es [HE Nn] HF IH]; intros a Ha H0 Hb H; unfold encode_archive in *.
  - cbn [map concat app archive_at] in *. destruct (encode_entry_at m a trailer Ha) as ([H1 H2 _ _ _] & _); [|exact H|].
    + split; [|by apply (bool_decide_unpack (0 ∉ TRAILER))|done|done]. unfold is_u32. repeat constructor; done.
    + split; [unfold SIZEOF_NEWC_HEADER; change (Z.of_nat (length (encode_entry trailer))) with 124 in Hb; lia|]. eexists. split; [exact H1|exact H2].
  - cbn [map concat archive_at] in *. rewrite <- app_assoc in *. rewrite length_app in Hb. apply bytes_at_app in H as [HA HB].
    destruct (encode_entry_at m a e Ha HE HA) as (G1 & G2 & G3). rewrite <- G2 in HB. split_and!; [lia|done|done|]. apply IH; [done|lia|lia|done].
Qed.

(** The contents of a file that was written are found. *)
Definition demo_header (name data : list Z) : cpio_header := mk_header 7 0x81a4 0 0 1 0x5f000000 (Z.of_nat (length data)) 8 1 0 0 (Z.of_nat (length name) + 1) 0.
Definition demo_entry (name data : list Z) : entry := mk_entry (demo_header name data) name data.
(** a, with five bytes, and init.bin with three *)
Definition demo_files : list entry := [demo_entry [0x61] [1; 2; 3; 4; 5]; demo_entry [0x69; 0x6e; 0x69; 0x74; 0x2e; 0x62; 0x69; 0x6e] [9; 8; 7]].
Definition demo_mem : bmem := blit 4096 (encode_archive demo_files) ∅.

Lemma demo_archive : archive_at demo_mem 4096 demo_files.
Proof.
  apply encode_archive_at; [done|done|vm_compute; done| |apply blit_at]. unfold demo_files.
  repeat constructor; try done; try (by apply (bool_decide_unpack (0 ∉ _))); unfold is_u32; simpl; try lia; by apply (bool_decide_unpack (_ ≠ _)).
Qed.

Lemma cpio_extract_single_ok_witness : ∃ p e, cpio_extract_single 3 4096 [0x2f; 0x69; 0x6e; 0x69; 0x74; 0x2e; 0x62; 0x69; 0x6e] (λ p n, ret p) demo_mem = Done p demo_mem ∧
  bytes_at demo_mem p (e_data e) ∧ e_name e = [0x69; 0x6e; 0x69; 0x74; 0x2e; 0x62; 0x69; 0x6e].
Proof.
  destruct (cpio_extract_single_ok demo_mem demo_files 3 (λ p n, ret p) 4096 0x2f [0x69; 0x6e; 0x69; 0x74; 0x2e; 0x62; 0x69; 0x6e])
    as [[HF _]|(p & e & es1 & es2 & _ & Hn & _ & Hd & E)].
  - exact demo_archive.
  - lia.
  - simpl. lia.
  - apply (bool_decide_unpack (0 ∉ _)). exact I.
  - exfalso. apply Forall_cons in HF as [_ HF]. apply Forall_cons in HF as [HF _]. apply HF. reflexivity.
  - exists p, e. split; [exact E|]. split; [exact Hd|exact Hn].
Defined.

Lemma cpio_extract_ok_witness : ∃ s', cpio_extract 3 4096 (mk_fstate 100000 demo_mem ∅ 0 None) = Done tt s' ∧
  extracted (mk_fstate 100000 demo_mem ∅ 0 None) [] 4096 demo_files s'.
Proof.
  destruct (cpio_extract_ok (mk_fstate 100000 demo_mem ∅ 0 None) [] ∅ demo_files 3 4096) as [E|(s' & E & H)].
  - split; [split; [done|done|constructor]|by apply Allocator.bump_empty|]. intros q [x Hx]. simpl in Hx. by rewrite lookup_empty in Hx.
  - vm_compute. discriminate.
  - exact demo_archive.
  - lia.
  - simpl. lia.
  - exfalso. vm_compute in E. discriminate.
  - exists s'. split; [exact E|exact H].
Defined.

End Cpio.
