(* ===== verification/Elf.v ===== *)
(** * ELF images (kernel/lib/elf.c, kernel/include/lib/elf.h)

    [elf_parse_file] copies the headers of an image in memory into structures on
    the kernel heap, whatever the byte order and the word size of the image.  The
    four variants of each parser in the C code differ in the conversion functions
    and in the offsets of the fields; the conversions are an argument here.

    The structures the parser makes are typed: an [elf_file], and tables of program
    and section headers in blocks of a number of bytes.  Storing an entry that does
    not fit into its block is a [Fault].  The image is bytes (ByteMem.v). *)

From S2P Require Import Prelude Allocator ByteMem.

Module Elf.

Import Allocator ByteMem.

Definition EINVAL : Z := 22.
Definition ENOMEM : Z := 12.
Definition ERR_PTR (err : Z) : Z := u64 err.

Definition PT_LOAD : Z := 1.
Definition PF_X : Z := 1.
Definition PF_W : Z := 2.
Definition PF_R : Z := 4.

(** [struct elf_indent] is its 16 bytes. *)
Record elf_header := mk_eheader {
  e_indent : list Z; e_type : Z; e_machine : Z; e_version : Z; e_entry : Z; e_phoff : Z; e_shoff : Z; e_flags : Z; e_ehsize : Z;
  e_phentsize : Z; e_phnum : Z; e_shentsize : Z; e_shnum : Z; e_shstrndx : Z }.
Record elf_program_header := mk_pheader {
  p_type : Z; p_flags : Z; p_offset : Z; p_vaddr : Z; p_paddr : Z; p_filesz : Z; p_memsz : Z; p_align : Z }.
Record elf_section_header := mk_sheader {
  sh_name : Z; sh_type : Z; sh_flags : Z; sh_addr : Z; sh_offset : Z; sh_size : Z; sh_link : Z; sh_info : Z; sh_addralign : Z; sh_entsize : Z }.
Record elf_file := mk_elf { header : elf_header; p_headers : Z; s_headers : Z }.

Definition SIZEOF_ELF_FILE : Z := 80.
Definition SIZEOF_PHEADER : Z := 56.
Definition SIZEOF_SHEADER : Z := 64.

Definition is_elf_magic (indent : list Z) : bool := bool_decide (take 4 indent = [0x7f; 0x45; 0x4c; 0x46]).
Definition ei_class (indent : list Z) : Z := nth 4 indent 0.
Definition ei_data (indent : list Z) : Z := nth 5 indent 0.

(** The conversions of one byte order. *)
Record conv := mk_conv { to16 : Z → Z; to32 : Z → Z; to64 : Z → Z }.
Definition le_conv : conv := mk_conv id id id.
Definition be_conv : conv := mk_conv be16_to_cpu be32_to_cpu be64_to_cpu.

Section parse.
Context {S : Type} `{!HasBytes S}.

Definition rd16 (c : conv) (a : Z) : M S Z := v <- ld16 a ;; ret (to16 c v).
Definition rd32 (c : conv) (a : Z) : M S Z := v <- ld32 a ;; ret (to32 c v).
Definition rd64 (c : conv) (a : Z) : M S Z := v <- ld64 a ;; ret (to64 c v).

(** The branch of one byte order in [parse_elf_header]. *)
Definition parse_header_fields (c : conv) (code : Z) (indent : list Z) : M S (Z + elf_header) :=
  ty <- rd16 c (code + 16) ;;
  machine <- rd16 c (code + 18) ;;
  version <- rd32 c (code + 20) ;;
  if ei_class indent =? 1 then
    entry <- rd32 c (code + 24) ;;
    phoff <- rd32 c (code + 28) ;;
    shoff <- rd32 c (code + 32) ;;
    flags <- rd32 c (code + 36) ;;
    ehsize <- rd16 c (code + 40) ;;
    phentsize <- rd16 c (code + 42) ;;
    phnum <- rd16 c (code + 44) ;;
    shentsize <- rd16 c (code + 46) ;;
    shnum <- rd16 c (code + 48) ;;
    shstrndx <- rd16 c (code + 50) ;;
    ret (inr (mk_eheader indent ty machine version entry phoff shoff flags ehsize phentsize phnum shentsize shnum shstrndx))
  else if ei_class indent =? 2 then
    entry <- rd64 c (code + 24) ;;
    phoff <- rd64 c (code + 32) ;;
    shoff <- rd64 c (code + 40) ;;
    flags <- rd32 c (code + 48) ;;
    ehsize <- rd16 c (code + 52) ;;
    phentsize <- rd16 c (code + 54) ;;
    phnum <- rd16 c (code + 56) ;;
    shentsize <- rd16 c (code + 58) ;;
    shnum <- rd16 c (code + 60) ;;
    shstrndx <- rd16 c (code + 62) ;;
    ret (inr (mk_eheader indent ty machine version entry phoff shoff flags ehsize phentsize phnum shentsize shnum shstrndx))
  else ret (inl (- EINVAL)).

Definition parse_elf_header (code : Z) : M S (Z + elf_header) :=
  magic <- ldn 4 code ;;
  if negb (is_elf_magic magic) then ret (inl (- EINVAL))
  else
    indent <- ldn 16 code ;;
    if ei_data indent =? 1 then parse_header_fields le_conv code indent
    else if ei_data indent =? 2 then parse_header_fields be_conv code indent
    else ret (inl (- EINVAL)).

Definition parse_pheader_fields (c : conv) (code : Z) (indent : list Z) : M S (Z + elf_program_header) :=
  if ei_class indent =? 1 then
    ty <- rd32 c code ;;
    flags <- rd32 c (code + 24) ;;
    offset <- rd32 c (code + 4) ;;
    vaddr <- rd32 c (code + 8) ;;
    paddr <- rd32 c (code + 12) ;;
    filesz <- rd32 c (code + 16) ;;
    memsz <- rd32 c (code + 20) ;;
    align <- rd32 c (code + 28) ;;
    ret (inr (mk_pheader ty flags offset vaddr paddr filesz memsz align))
  else if ei_class indent =? 2 then
    ty <- rd32 c code ;;
    flags <- rd32 c (code + 4) ;;
    offset <- rd64 c (code + 8) ;;
    vaddr <- rd64 c (code + 16) ;;
    paddr <- rd64 c (code + 24) ;;
    filesz <- rd64 c (code + 32) ;;
    memsz <- rd64 c (code + 40) ;;
    align <- rd64 c (code + 48) ;;
    ret (inr (mk_pheader ty flags offset vaddr paddr filesz memsz align))
  else ret (inl (- EINVAL)).

Definition parse_elf_program_header (code : Z) (elf : elf_header) : M S (Z + elf_program_header) :=
  if ei_data (e_indent elf) =? 1 then parse_pheader_fields le_conv code (e_indent elf)
  else if ei_data (e_indent elf) =? 2 then parse_pheader_fields be_conv code (e_indent elf)
  else ret (inl (- EINVAL)).

Definition parse_sheader_fields (c : conv) (code : Z) (indent : list Z) : M S (Z + elf_section_header) :=
  if ei_class indent =? 1 then
    name <- rd32 c code ;;
    ty <- rd32 c (code + 4) ;;
    flags <- rd32 c (code + 8) ;;
    addr <- rd32 c (code + 12) ;;
    offset <- rd32 c (code + 16) ;;
    size <- rd32 c (code + 20) ;;
    link <- rd32 c (code + 24) ;;
    info <- rd32 c (code + 28) ;;
    addralign <- rd32 c (code + 32) ;;
    entsize <- rd32 c (code + 36) ;;
    ret (inr (mk_sheader name ty flags addr offset size link info addralign entsize))
  else if ei_class indent =? 2 then
    name <- rd32 c code ;;
    ty <- rd32 c (code + 4) ;;
    flags <- rd64 c (code + 8) ;;
    addr <- rd64 c (code + 16) ;;
    offset <- rd64 c (code + 24) ;;
    size <- rd64 c (code + 32) ;;
    link <- rd32 c (code + 40) ;;
    info <- rd32 c (code + 44) ;;
    addralign <- rd64 c (code + 48) ;;
    entsize <- rd64 c (code + 56) ;;
    ret (inr (mk_sheader name ty flags addr offset size link info addralign entsize))
  else ret (inl (- EINVAL)).

Definition parse_elf_section_header (code : Z) (elf : elf_header) : M S (Z + elf_section_header) :=
  if ei_data (e_indent elf) =? 1 then parse_sheader_fields le_conv code (e_indent elf)
  else if ei_data (e_indent elf) =? 2 then parse_sheader_fields be_conv code (e_indent elf)
  else ret (inl (- EINVAL)).

End parse.

Section file.
Context {A : Type} `{!Allocator A}.

(** A table in a block of [t_size] bytes. *)
Record table (V : Type) := mk_table { t_size : Z; t_entries : gmap Z V }.
#[global] Arguments mk_table {V} t_size t_entries.
#[global] Arguments t_size {V} t.
#[global] Arguments t_entries {V} t.

Record estate := mk_estate {
  e_al : A;
  e_bytes : bmem;
  elfs : gmap Z elf_file;
  ptabs : gmap Z (table elf_program_header);
  stabs : gmap Z (table elf_section_header)
}.

#[export] Instance estate_bytes : HasBytes estate.
Proof.
  refine (Build_HasBytes _ e_bytes (λ m s, mk_estate (e_al s) m (elfs s) (ptabs s) (stabs s)) _ _ _).
  - done.
  - done.
  - by intros [].
Defined.

Definition with_e_al (a : A) (s : estate) : estate := mk_estate a (e_bytes s) (elfs s) (ptabs s) (stabs s).
Definition with_elfs (f : gmap Z elf_file → gmap Z elf_file) (s : estate) : estate := mk_estate (e_al s) (e_bytes s) (f (elfs s)) (ptabs s) (stabs s).
Definition with_ptabs (f : gmap Z (table elf_program_header) → gmap Z (table elf_program_header)) (s : estate) : estate :=
  mk_estate (e_al s) (e_bytes s) (elfs s) (f (ptabs s)) (stabs s).
Definition with_stabs (f : gmap Z (table elf_section_header) → gmap Z (table elf_section_header)) (s : estate) : estate :=
  mk_estate (e_al s) (e_bytes s) (elfs s) (ptabs s) (f (stabs s)).

(** [kmalloc] of a block, and the structure that is put there. *)
Definition e_malloc (size : Z) (new : Z → estate → estate) : M estate Z :=
  p <- zoom e_al with_e_al (al_alloc size) ;;
  if p =? 0 then ret 0 else modify (new p) ;; ret p.
Definition e_free (p : Z) : M estate unit :=
  modify (λ s, with_elfs (delete p) (with_ptabs (delete p) (with_stabs (delete p) s))) ;;
  zoom e_al with_e_al (al_free p).

Definition elf_at (p : Z) : M estate elf_file := s <- get ;; need (elfs s !! p).

(** [elf->p_headers[i] = h] and [elf->s_headers[i] = h] *)
Definition set_pheader (p i : Z) (h : elf_program_header) : M estate unit :=
  s <- get ;;
  t <- need (ptabs s !! p) ;;
  if (i + 1) * SIZEOF_PHEADER <=? t_size t then modify (with_ptabs (<[p := mk_table (t_size t) (<[i := h]> (t_entries t))]>)) else fault.
Definition set_sheader (p i : Z) (h : elf_section_header) : M estate unit :=
  s <- get ;;
  t <- need (stabs s !! p) ;;
  if (i + 1) * SIZEOF_SHEADER <=? t_size t then modify (with_stabs (<[p := mk_table (t_size t) (<[i := h]> (t_entries t))]>)) else fault.

(** The loops over the headers: [n] are left, from [i] on.  The result is [err]. *)
Fixpoint parse_pheaders (n : nat) (i code : Z) (h : elf_header) (p : Z) : M estate Z :=
  match n with
  | O => ret 0
  | S k =>
      r <- parse_elf_program_header (u64 (code + e_phoff h + s32 (e_phentsize h * i))) h ;;
      match r with
      | inl err => ret err
      | inr x => set_pheader p i x ;; parse_pheaders k (i + 1) code h p
      end
  end.
Fixpoint parse_sheaders (n : nat) (i code : Z) (h : elf_header) (p : Z) : M estate Z :=
  match n with
  | O => ret 0
  | S k =>
      r <- parse_elf_section_header (u64 (code + e_shoff h + s32 (e_shentsize h * i))) h ;;
      match r with
      | inl err => ret err
      | inr x => set_sheader p i x ;; parse_sheaders k (i + 1) code h p
      end
  end.

Definition elf_free (elf : Z) : M estate unit :=
  e <- elf_at elf ;;
  (if negb (s_headers e =? 0) then e_free (s_headers e) else ret tt) ;;
  (if negb (p_headers e =? 0) then e_free (p_headers e) else ret tt) ;;
  e_free elf.

(** The product of two [u16] is an [int]. *)
Definition table_size (entsize num : Z) : Z := u64 (s32 (entsize * num)).

Definition elf_parse_file (code : Z) : M estate Z :=
  elf <- e_malloc SIZEOF_ELF_FILE (λ _ s, s) ;;
  if elf =? 0 then ret (ERR_PTR (- ENOMEM))
  else
    r <- parse_elf_header code ;;
    match r with
    | inl err => e_free elf ;; ret (ERR_PTR err)
    | inr h =>
        let psize := table_size (e_phentsize h) (e_phnum h) in
        let ssize := table_size (e_shentsize h) (e_shnum h) in
        p <- e_malloc psize (λ p, with_ptabs (<[p := mk_table psize ∅]>)) ;;
        if p =? 0 then e_free elf ;; ret (ERR_PTR (- ENOMEM))
        else
          q <- e_malloc ssize (λ q, with_stabs (<[q := mk_table ssize ∅]>)) ;;
          if q =? 0 then e_free p ;; e_free elf ;; ret (ERR_PTR (- ENOMEM))
          else
            modify (with_elfs (<[elf := mk_elf h p q]>)) ;;
            err <- parse_pheaders (Z.to_nat (e_phnum h)) 0 code h p ;;
            if negb (err =? 0) then e_free q ;; e_free p ;; e_free elf ;; ret (ERR_PTR err)
            else
              err <- parse_sheaders (Z.to_nat (e_shnum h)) 0 code h q ;;
              if negb (err =? 0) then e_free q ;; e_free p ;; e_free elf ;; ret (ERR_PTR err)
              else ret elf
    end.

End file.
Arguments estate A : clear implicits.

(** ** Images *)

(** The [n] bytes of [x] in the byte order of the image. *)
Definition encode (be : bool) (n x : Z) : list Z :=
  let l := Z_to_little_endian n 8 x in if be then rev l else l.
Definition conv_of (be : bool) : conv := if be then be_conv else le_conv.

(** Fields of given widths one after the other. *)
Fixpoint fields_at (m : bmem) (be : bool) (a : Z) (l : list (Z * Z)) : Prop :=
  match l with
  | [] => True
  | (n, x) :: l' => bytes_at m a (encode be n x) ∧ 0 ≤ x < 2 ^ (n * 8) ∧ fields_at m be (a + n) l'
  end.

#[export] Instance fields_at_dec m be a l : Decision (fields_at m be a l).
Proof. revert a. induction l as [|[n x] l IH]; intros a; simpl; apply _. Defined.

(** The layouts of the format; [w] is the width of an address. *)
Definition header_layout (w : Z) (h : elf_header) : list (Z * Z) :=
  [(2, e_type h); (2, e_machine h); (4, e_version h); (w, e_entry h); (w, e_phoff h); (w, e_shoff h); (4, e_flags h); (2, e_ehsize h);
   (2, e_phentsize h); (2, e_phnum h); (2, e_shentsize h); (2, e_shnum h); (2, e_shstrndx h)].
Definition pheader_layout (w : Z) (x : elf_program_header) : list (Z * Z) :=
  if w =? 4 then [(4, p_type x); (4, p_offset x); (4, p_vaddr x); (4, p_paddr x); (4, p_filesz x); (4, p_memsz x); (4, p_flags x); (4, p_align x)]
  else [(4, p_type x); (4, p_flags x); (8, p_offset x); (8, p_vaddr x); (8, p_paddr x); (8, p_filesz x); (8, p_memsz x); (8, p_align x)].
Definition sheader_layout (w : Z) (x : elf_section_header) : list (Z * Z) :=
  [(4, sh_name x); (4, sh_type x); (w, sh_flags x); (w, sh_addr x); (w, sh_offset x); (w, sh_size x); (4, sh_link x); (4, sh_info x);
   (w, sh_addralign x); (w, sh_entsize x)].

(** The first 16 bytes say byte order and width. *)
Record indent_ok (be : bool) (w : Z) (l : list Z) : Prop := {
  in_length : length l = 16%nat;
  in_magic : is_elf_magic l = true;
  in_data : ei_data l = if be then 2 else 1;
  in_class : (ei_class l = 1 ∧ w = 4) ∨ (ei_class l = 2 ∧ w = 8)
}.

Record header_at (m : bmem) (be : bool) (w a : Z) (h : elf_header) : Prop := {
  ha_indent : indent_ok be w (e_indent h);
  ha_bytes : bytes_at m a (e_indent h);
  ha_fields : fields_at m be (a + 16) (header_layout w h)
}.

Section spec.
Context {S : Type} `{!HasBytes S}.
Implicit Types s : S.

Lemma encode_bytes be n x : 0 ≤ n → Forall is_byte (encode be n x) ∧ length (encode be n x) = Z.to_nat n.
Proof.
  intros Hn. assert (Forall is_byte (Z_to_little_endian n 8 x)) as H by (by apply to_le_bytes).
  assert (length (Z_to_little_endian n 8 x) = Z.to_nat n) as HL by (pose proof (length_Z_to_little_endian n 8 x Hn); lia).
  unfold encode. destruct be; [|done]. rewrite length_rev. split; [by apply Forall_rev|done].
Qed.

(** What the conversions make of the bytes read. *)
Lemma encode_value (be : bool) n x : 0 ≤ n → 0 ≤ x < 2 ^ (n * 8) →
  (if be then big_endian (encode be n x) else little_endian_to_Z 8 (encode be n x)) = x.
Proof.
  intros Hn Hx. unfold encode, big_endian. destruct be; [rewrite rev_involutive|];
    by rewrite little_endian_to_Z_to_little_endian, Z.mod_small by lia.
Qed.

(** Reading a field of [n] bytes with the conversion for its width. *)
Lemma rd_ok s be (n : nat) (to : Z → Z) a x : bytes_at (bytes s) a (encode be (Z.of_nat n) x) → 0 ≤ x < 2 ^ (Z.of_nat n * 8) →
  (∀ l, Forall is_byte l → length l = n → to (little_endian_to_Z 8 l) = if be then big_endian l else little_endian_to_Z 8 l) →
  (v <- (l <- ldn n a ;; ret (little_endian_to_Z 8 l)) ;; ret (to v)) s = Done x s.
Proof.
  intros H Hx HT. destruct (encode_bytes be (Z.of_nat n) x ltac:(lia)) as [HB HL]. rewrite Nat2Z.id in HL.
  apply ldn_ok in H. rewrite HL in H. erewrite bind_Done by (erewrite bind_Done by exact H; reflexivity).
  unfold ret. by rewrite HT, encode_value by (done || lia).
Qed.

Lemma rd16_ok s be a x : bytes_at (bytes s) a (encode be 2 x) → 0 ≤ x < 2 ^ (2 * 8) → rd16 (conv_of be) a s = Done x s.
Proof. intros H Hx. apply (rd_ok s be 2); [done|done|]. destruct be; [apply be16_le|done]. Qed.
Lemma rd32_ok s be a x : bytes_at (bytes s) a (encode be 4 x) → 0 ≤ x < 2 ^ (4 * 8) → rd32 (conv_of be) a s = Done x s.
Proof. intros H Hx. apply (rd_ok s be 4); [done|done|]. destruct be; [apply be32_le|done]. Qed.
Lemma rd64_ok s be a x : bytes_at (bytes s) a (encode be 8 x) → 0 ≤ x < 2 ^ (8 * 8) → rd64 (conv_of be) a s = Done x s.
Proof. intros H Hx. apply (rd_ok s be 8); [done|done|]. destruct be; [apply be64_le|done]. Qed.

(** Reads the fields one after the other. *)
Ltac read_fields H :=
  cbn [fields_at] in H; rewrite <- ?Z.add_assoc in H;
  repeat (let H1 := fresh "F" in let H2 := fresh "R" in destruct H as (H1 & H2 & H));
  repeat first [erewrite bind_Done by (first [eapply rd16_ok | eapply rd32_ok | eapply rd64_ok]; [eassumption|eassumption])
    | progress cbn [Z.eqb Pos.eqb]].

Lemma parse_header_fields_ok s be w a h : header_at (bytes s) be w a h →
  parse_header_fields (conv_of be) a (e_indent h) s = Done (inr h) s.
Proof.
  intros [[_ _ _ HC] _ H]. unfold parse_header_fields, header_layout in *. destruct HC as [[-> ->]|[-> ->]]; read_fields H.
  - by destruct h.
  - by destruct h.
Qed.

Lemma parse_elf_header_spec s be w a h : header_at (bytes s) be w a h → parse_elf_header a s = Done (inr h) s.
Proof.
  intros HH. pose proof (parse_header_fields_ok s be w a h HH) as E. destruct HH as [[HL HM HD _] HB _]. unfold parse_elf_header.
  assert (bytes_at (bytes s) a (take 4 (e_indent h))) as HT by (rewrite <- (take_drop 4 (e_indent h)), bytes_at_app in HB; apply HB).
  apply ldn_ok in HT. rewrite length_take, HL in HT. erewrite bind_Done by exact HT. unfold is_elf_magic in *. rewrite take_take, Nat.min_id, HM.
  cbn [negb]. apply ldn_ok in HB. rewrite HL in HB. erewrite bind_Done by exact HB. rewrite HD. by destruct be.
Qed.

Lemma parse_header_bad s a indent : bytes_at (bytes s) a indent → length indent = 16%nat →
  is_elf_magic indent = false ∨ (ei_data indent ≠ 1 ∧ ei_data indent ≠ 2) → parse_elf_header a s = Done (inl (- EINVAL)) s.
Proof.
  intros HB HL Hbad. unfold parse_elf_header.
  assert (bytes_at (bytes s) a (take 4 indent)) as HT by (rewrite <- (take_drop 4 indent), bytes_at_app in HB; apply HB).
  apply ldn_ok in HT. rewrite length_take, HL in HT. erewrite bind_Done by exact HT. unfold is_elf_magic in *. rewrite take_take, Nat.min_id.
  destruct (bool_decide _); [|done]. destruct Hbad as [|[N1 N2]]; [done|]. cbn [negb]. apply ldn_ok in HB. rewrite HL in HB. erewrite bind_Done by exact HB.
  by rewrite (proj2 (Z.eqb_neq _ _) N1), (proj2 (Z.eqb_neq _ _) N2).
Qed.

Lemma parse_pheader_ok s be w a h x : indent_ok be w (e_indent h) → fields_at (bytes s) be a (pheader_layout w x) →
  parse_elf_program_header a h s = Done (inr x) s.
Proof.
  intros [_ _ HD HC] H. assert (parse_pheader_fields (conv_of be) a (e_indent h) s = Done (inr x) s) as E.
  { unfold parse_pheader_fields, pheader_layout in *. destruct HC as [[-> ->]|[-> ->]]; cbn [Z.eqb Pos.eqb] in *; read_fields H; by destruct x. }
  unfold parse_elf_program_header. rewrite HD. by destruct be.
Qed.

Lemma parse_sheader_ok s be w a h x : indent_ok be w (e_indent h) → fields_at (bytes s) be a (sheader_layout w x) →
  parse_elf_section_header a h s = Done (inr x) s.
Proof.
  intros [_ _ HD HC] H. assert (parse_sheader_fields (conv_of be) a (e_indent h) s = Done (inr x) s) as E.
  { unfold parse_sheader_fields, sheader_layout in *. destruct HC as [[-> ->]|[-> ->]]; cbn [Z.eqb Pos.eqb] in *; read_fields H; by destruct x. }
  unfold parse_elf_section_header. rewrite HD. by destruct be.
Qed.

End spec.

(** ** Whole files *)

Record image_at (m : bmem) (be : bool) (w code : Z) (h : elf_header) (ps : list elf_program_header) (ss : list elf_section_header) : Prop := {
  im_header : header_at m be w code h;
  im_phnum : e_phnum h = Z.of_nat (length ps);
  im_shnum : e_shnum h = Z.of_nat (length ss);
  im_pheaders : ∀ i x, ps !! i = Some x → fields_at m be (code + e_phoff h + e_phentsize h * Z.of_nat i) (pheader_layout w x);
  im_sheaders : ∀ i x, ss !! i = Some x → fields_at m be (code + e_shoff h + e_shentsize h * Z.of_nat i) (sheader_layout w x)
}.

(** No overflow in the sizes and the addresses. *)
Record sizes_ok (code : Z) (h : elf_header) : Prop := {
  so_code : 0 ≤ code;
  so_p : 0 ≤ e_phentsize h ∧ 0 ≤ e_phnum h ∧ e_phentsize h * e_phnum h < 2 ^ 31 ∧ 0 ≤ e_phoff h ∧ code + e_phoff h + e_phentsize h * e_phnum h < 2 ^ 64;
  so_s : 0 ≤ e_shentsize h ∧ 0 ≤ e_shnum h ∧ e_shentsize h * e_shnum h < 2 ^ 31 ∧ 0 ≤ e_shoff h ∧ code + e_shoff h + e_shentsize h * e_shnum h < 2 ^ 64
}.

Section whole.
Context {A : Type} `{!Allocator A}.
Implicit Types s : estate A.

Lemma e_malloc_ok s L size new : owns (e_al s) L → 0 ≤ size ≤ max_size → (al_alloc size (e_al s) = Halt ∧ e_malloc size new s = Halt) ∨
  (∃ a', al_alloc size (e_al s) = Done 0 a' ∧ e_malloc size new s = Done 0 (with_e_al a' s) ∧ owns a' L) ∨
  ∃ p n a', al_alloc size (e_al s) = Done p a' ∧ p ≠ 0 ∧ L !! p = None ∧ owns a' (<[p := n]> L) ∧ e_malloc size new s = Done p (new p (with_e_al a' s)).
Proof.
  intros HO Hs. unfold e_malloc. destruct (al_alloc_ok (e_al s) L size HO Hs) as [E|(p & a' & E & [[-> H]|(n & Hp & Hn & _ & H)])].
  - left. split; [done|]. apply bind_Halt. by apply zoom_Halt.
  - right. left. exists a'. split; [done|]. by erewrite bind_Done by (by apply zoom_Done).
  - right. right. exists p, n, a'. split_and!; [done..|]. erewrite bind_Done by (by apply zoom_Done). by rewrite (proj2 (Z.eqb_neq _ _) Hp).
Qed.

(** Three allocations in a row, as far as they succeed. *)
Definition three_blocks (n1 n2 n3 : Z) : M A (option (Z * Z * Z)) :=
  p1 <- al_alloc n1 ;; if p1 =? 0 then ret None
  else p2 <- al_alloc n2 ;; if p2 =? 0 then ret None
  else p3 <- al_alloc n3 ;; if p3 =? 0 then ret None else ret (Some (p1, p2, p3)).

Definition drop_block (p : Z) (a : A) s : estate A := mk_estate a (e_bytes s) (delete p (elfs s)) (delete p (ptabs s)) (delete p (stabs s)).

Lemma e_free_ok s L p n : owns (e_al s) (<[p := n]> L) → L !! p = None → ∃ a', e_free p s = Done tt (drop_block p a' s) ∧ owns a' L.
Proof.
  intros HO HL. destruct (al_free_ok _ _ p n HO (lookup_insert_eq _ _ _)) as (a' & E & H). rewrite delete_insert_id in H by done.
  exists a'. split; [|done]. unfold e_free. erewrite bind_Done by reflexivity. by erewrite zoom_Done by exact E.
Qed.

(** The structures of the parser are in blocks of the heap. *)
Record heap_ok s (L : gmap Z Z) : Prop := {
  ho_owns : owns (e_al s) L;
  ho_elfs : ∀ p, L !! p = None → elfs s !! p = None;
  ho_ptabs : ∀ p, L !! p = None → ptabs s !! p = None;
  ho_stabs : ∀ p, L !! p = None → stabs s !! p = None
}.

Lemma drop_fresh s L p a : heap_ok s L → L !! p = None → drop_block p a s = with_e_al a s.
Proof. intros [_ H1 H2 H3] HL. unfold drop_block. by rewrite !delete_id by auto. Qed.

(** ** The loops *)

Lemma set_pheader_ok s p i x size t : ptabs s !! p = Some (mk_table size t) → (i + 1) * SIZEOF_PHEADER ≤ size →
  set_pheader p i x s = Done tt (with_ptabs (<[p := mk_table size (<[i := x]> t)]>) s).
Proof. intros Hp Hi. unfold set_pheader, bind, get. rewrite Hp. simpl. by rewrite (proj2 (Z.leb_le _ _) Hi). Qed.
Lemma set_sheader_ok s p i x size t : stabs s !! p = Some (mk_table size t) → (i + 1) * SIZEOF_SHEADER ≤ size →
  set_sheader p i x s = Done tt (with_stabs (<[p := mk_table size (<[i := x]> t)]>) s).
Proof. intros Hp Hi. unfold set_sheader, bind, get. rewrite Hp. simpl. by rewrite (proj2 (Z.leb_le _ _) Hi). Qed.

(** The address of entry [i] of a table. *)
Lemma entry_addr code off size n i : 0 ≤ code → 0 ≤ off → 0 ≤ size → 0 ≤ i < n → size * n < 2 ^ 31 → code + off + size * n < 2 ^ 64 →
  u64 (code + off + s32 (size * i)) = code + off + size * i.
Proof.
  intros Hc Ho Hs Hi Hn Hb. assert (0 ≤ size * i ≤ size * n) by nia. rewrite s32_id by lia. apply u64_id. unfold is_u64. lia.
Qed.

Lemma parse_pheaders_ok s be w code h p size ps t i : indent_ok be w (e_indent h) → sizes_ok code h → 0 ≤ i → i + Z.of_nat (length ps) = e_phnum h →
  (∀ j x, ps !! j = Some x → fields_at (e_bytes s) be (code + e_phoff h + e_phentsize h * (i + Z.of_nat j)) (pheader_layout w x)) →
  e_phnum h * SIZEOF_PHEADER ≤ size → ptabs s !! p = Some (mk_table size t) →
  parse_pheaders (length ps) i code h p s = Done 0 (with_ptabs (<[p := mk_table size (blit i ps t)]>) s).
Proof.
  intros HI HS. revert s i t. induction ps as [|x ps IH]; intros s i t Hi Hn HP Hsz Hp; cbn [parse_pheaders length blit] in *.
  - unfold ret, with_ptabs. rewrite insert_id by done. by destruct s.
  - destruct HS as [S1 (S2 & S3 & S4 & S5 & S6) _]. rewrite (entry_addr _ _ _ (e_phnum h)) by lia.
    erewrite bind_Done by (eapply parse_pheader_ok; [exact HI|]; specialize (HP 0%nat x eq_refl); by rewrite Z.add_0_r in HP). cbv beta iota.
    erewrite bind_Done by (apply set_pheader_ok; [exact Hp|unfold SIZEOF_PHEADER in *; nia]).
    rewrite (IH _ (i + 1) (<[i := x]> t)); [|lia|lia| |done|apply lookup_insert_eq].
    + unfold with_ptabs. simpl. by rewrite insert_insert_eq.
    + intros j y Hj. replace (i + 1 + Z.of_nat j) with (i + Z.of_nat (S j)) by lia. by apply (HP (S j)).
Qed.
Lemma parse_sheaders_ok s be w code h p size ss t i : indent_ok be w (e_indent h) → sizes_ok code h → 0 ≤ i → i + Z.of_nat (length ss) = e_shnum h →
  (∀ j x, ss !! j = Some x → fields_at (e_bytes s) be (code + e_shoff h + e_shentsize h * (i + Z.of_nat j)) (sheader_layout w x)) →
  e_shnum h * SIZEOF_SHEADER ≤ size → stabs s !! p = Some (mk_table size t) →
  parse_sheaders (length ss) i code h p s = Done 0 (with_stabs (<[p := mk_table size (blit i ss t)]>) s).
Proof.
  intros HI HS. revert s i t. induction ss as [|x ss IH]; intros s i t Hi Hn HP Hsz Hp; cbn [parse_sheaders length blit] in *.
  - unfold ret, with_stabs. rewrite insert_id by done. by destruct s.
  - destruct HS as [S1 _ (S2 & S3 & S4 & S5 & S6)]. rewrite (entry_addr _ _ _ (e_shnum h)) by lia.
    erewrite bind_Done by (eapply parse_sheader_ok; [exact HI|]; specialize (HP 0%nat x eq_refl); by rewrite Z.add_0_r in HP). cbv beta iota.
    erewrite bind_Done by (apply set_sheader_ok; [exact Hp|unfold SIZEOF_SHEADER in *; nia]).
    rewrite (IH _ (i + 1) (<[i := x]> t)); [|lia|lia| |done|apply lookup_insert_eq].
    + unfold with_stabs. simpl. by rewrite insert_insert_eq.
    + intros j y Hj. replace (i + 1 + Z.of_nat j) with (i + Z.of_nat (S j)) by lia. by apply (HP (S j)).
Qed.

(** ** The parser *)

(** The structures of a parsed file, beside those of before. *)
Definition parsed s (h : elf_header) (ps : list elf_program_header) (ss : list elf_section_header) (elf p q : Z) s' : Prop :=
  p ≠ 0 ∧ q ≠ 0 ∧ elf ≠ 0 ∧ e_bytes s' = e_bytes s ∧ elfs s' = <[elf := mk_elf h p q]> (elfs s) ∧
  ptabs s' = <[p := mk_table (e_phentsize h * e_phnum h) (blit 0 ps ∅)]> (ptabs s) ∧
  stabs s' = <[q := mk_table (e_shentsize h * e_shnum h) (blit 0 ss ∅)]> (stabs s).

Lemma table_size_ok x n : 0 ≤ x * n < 2 ^ 31 → table_size x n = x * n.
Proof. intros H. unfold table_size. rewrite s32_id by lia. apply u64_id. unfold is_u64. lia. Qed.

Lemma drop_three {V} (E : gmap Z V) k x a b c : k = a ∨ k = b ∨ k = c → E !! a = None → E !! b = None → E !! c = None →
  delete a (delete b (delete c (<[k := x]> E))) = E.
Proof.
  intros Hk Ha Hb Hc. apply map_eq. intros i. destruct (decide (i = a)) as [->|Na]; [by rewrite lookup_delete_eq|]. rewrite lookup_delete_ne by done.
  destruct (decide (i = b)) as [->|Nb]; [by rewrite lookup_delete_eq|]. rewrite lookup_delete_ne by done.
  destruct (decide (i = c)) as [->|Nc]; [by rewrite lookup_delete_eq|]. rewrite lookup_delete_ne, lookup_insert_ne by naive_solver. done.
Qed.

(** Freeing the three blocks, in the order of [elf_free]. *)
Lemma free_three s L a m elf p q n1 n2 n3 h tp tq : heap_ok s L → L !! elf = None → <[elf := n1]> L !! p = None → <[p := n2]> (<[elf := n1]> L) !! q = None →
  owns a (<[q := n3]> (<[p := n2]> (<[elf := n1]> L))) → p ≠ 0 → q ≠ 0 →
  ∃ a', elf_free elf (mk_estate a m (<[elf := mk_elf h p q]> (elfs s)) (<[p := tp]> (ptabs s)) (<[q := tq]> (stabs s))) =
    Done tt (mk_estate a' m (elfs s) (ptabs s) (stabs s)) ∧ owns a' L.
Proof.
  intros HH H1 H2 H3 HO Np Nq. unfold elf_free, elf_at. erewrite bind_Done by (unfold bind, get; simpl; rewrite lookup_insert_eq; reflexivity).
  cbn [s_headers p_headers]. rewrite (proj2 (Z.eqb_neq _ _) Np), (proj2 (Z.eqb_neq _ _) Nq). cbn [negb].
  pose (x := mk_estate a m (<[elf := mk_elf h p q]> (elfs s)) (<[p := tp]> (ptabs s)) (<[q := tq]> (stabs s))). fold x.
  destruct (e_free_ok x _ q n3 HO H3) as (a1 & E1 & O1). erewrite bind_Done by exact E1.
  destruct (e_free_ok (drop_block q a1 x) _ p n2 O1 H2) as (a2 & E2 & O2). erewrite bind_Done by exact E2.
  destruct (e_free_ok (drop_block p a2 (drop_block q a1 x)) _ elf n1 O2 H1) as (a3 & E3 & O3).
  exists a3. split; [|exact O3]. rewrite E3. unfold drop_block, x. simpl.
  apply lookup_insert_None in H2 as [H2 _]. apply lookup_insert_None in H3 as [[H3 _]%lookup_insert_None _]. destruct HH as [_ G1 G2 G3].
  rewrite !drop_three by auto. done.
Qed.

(** What the parser does once it has its three blocks. *)
Lemma parse_tables s be w code h ps ss elf p q a : image_at (e_bytes s) be w code h ps ss → sizes_ok code h →
  e_phnum h * SIZEOF_PHEADER ≤ e_phentsize h * e_phnum h → e_shnum h * SIZEOF_SHEADER ≤ e_shentsize h * e_shnum h →
  (modify (with_elfs (<[elf := mk_elf h p q]>)) ;;
   err <- parse_pheaders (Z.to_nat (e_phnum h)) 0 code h p ;;
   if negb (err =? 0) then e_free q ;; e_free p ;; e_free elf ;; ret (ERR_PTR err)
   else
     err <- parse_sheaders (Z.to_nat (e_shnum h)) 0 code h q ;;
     if negb (err =? 0) then e_free q ;; e_free p ;; e_free elf ;; ret (ERR_PTR err)
     else ret elf)
    (with_stabs (<[q := mk_table (e_shentsize h * e_shnum h) ∅]>) (with_ptabs (<[p := mk_table (e_phentsize h * e_phnum h) ∅]>) (with_e_al a s))) =
  Done elf (mk_estate a (e_bytes s) (<[elf := mk_elf h p q]> (elfs s)) (<[p := mk_table (e_phentsize h * e_phnum h) (blit 0 ps ∅)]> (ptabs s))
    (<[q := mk_table (e_shentsize h * e_shnum h) (blit 0 ss ∅)]> (stabs s))).
Proof.
  intros [HH HP HS IP IS] HZ Fp Fs. erewrite bind_Done by reflexivity.
  replace (Z.to_nat (e_phnum h)) with (length ps) by lia. replace (Z.to_nat (e_shnum h)) with (length ss) by lia.
  erewrite bind_Done by (eapply (parse_pheaders_ok _ be w code h p _ ps ∅ 0); [apply HH|exact HZ|lia|lia|exact IP|exact Fp|apply lookup_insert_eq]).
  change (0 =? 0) with true. cbn [negb].
  erewrite bind_Done by (eapply (parse_sheaders_ok _ be w code h q _ ss ∅ 0); [apply HH|exact HZ|lia|lia|exact IS|exact Fs|apply lookup_insert_eq]).
  change (0 =? 0) with true. cbn [negb]. unfold ret, with_stabs, with_ptabs, with_elfs, with_e_al. simpl. by rewrite !insert_insert_eq.
Qed.

(** The error paths: the blocks are given back. *)
Lemma give_back s L elf n1 a1 (r : Z) : heap_ok s L → L !! elf = None → owns a1 (<[elf := n1]> L) →
  ∃ a', (e_free elf ;; ret r) (with_e_al a1 s) = Done r (with_e_al a' s) ∧ owns a' L.
Proof.
  intros HH H1 O1. destruct (e_free_ok (with_e_al a1 s) L elf n1 O1 H1) as (a' & E & O). exists a'. split; [|done].
  erewrite bind_Done by exact E. change (drop_block elf a' (with_e_al a1 s)) with (drop_block elf a' s). by erewrite drop_fresh.
Qed.
Lemma give_back_two s L elf p n1 n2 a1 t (r : Z) : heap_ok s L → L !! elf = None → <[elf := n1]> L !! p = None → owns a1 (<[p := n2]> (<[elf := n1]> L)) →
  ∃ a', (e_free p ;; e_free elf ;; ret r) (with_e_al a1 (with_ptabs (<[p := t]>) s)) = Done r (with_e_al a' s) ∧ owns a' L.
Proof.
  intros HH H1 H2 O1. pose (x := with_e_al a1 (with_ptabs (<[p := t]>) s)). fold x. destruct (e_free_ok x _ p n2 O1 H2) as (a2 & E2 & O2).
  erewrite bind_Done by exact E2. apply lookup_insert_None in H2 as [H2 _].
  assert (drop_block p a2 x = with_e_al a2 s) as ->; [|by apply (give_back s L elf n1)]. destruct HH as [_ G1 G2 G3].
  unfold drop_block, x, with_e_al, with_ptabs. simpl. rewrite delete_insert_id, !delete_id by auto. done.
Qed.

(** C36: [elf_parse_file] on an image of either byte order whose tables have entries of
    at least the size of the 64-bit structures, as every 64-bit image has.  (The entries
    of a standard 32-bit image are smaller; it is not covered, see [elf_32_overflow].)
    If the three allocations for the file structure and the two tables succeed, the
    result is the first block, with exactly the headers that are in the image, and
    [elf_free] gives the blocks back; if one of them finds no memory the result is
    [-ENOMEM], and the heap has the blocks of before; the parser stops only when the
    allocator does. *)
Theorem elf_parse_file_ok s L be w code h ps ss : heap_ok s L → image_at (e_bytes s) be w code h ps ss → sizes_ok code h →
  e_phnum h * SIZEOF_PHEADER ≤ e_phentsize h * e_phnum h ≤ max_size (S := A) → e_shnum h * SIZEOF_SHEADER ≤ e_shentsize h * e_shnum h ≤ max_size (S := A) →
  SIZEOF_ELF_FILE ≤ max_size (S := A) →
  match three_blocks SIZEOF_ELF_FILE (e_phentsize h * e_phnum h) (e_shentsize h * e_shnum h) (e_al s) with
  | Done (Some (elf, p, q)) _ => ∃ s', elf_parse_file code s = Done elf s' ∧ parsed s h ps ss elf p q s' ∧
      ∃ a', elf_free elf s' = Done tt (with_e_al a' s) ∧ owns a' L
  | Done None _ => ∃ a', elf_parse_file code s = Done (ERR_PTR (- ENOMEM)) (with_e_al a' s) ∧ owns a' L
  | Halt => elf_parse_file code s = Halt
  | _ => False
  end.
Proof.
  intros HH HI HZ [Fp Mp] [Fs Ms] Me. unfold elf_parse_file, three_blocks.
  destruct (e_malloc_ok s L SIZEOF_ELF_FILE (λ _ s, s) (ho_owns _ _ HH)) as [[Ea E]|[(a1 & Ea & E & O1)|(elf & n1 & a1 & Ea & Ne & H1 & O1 & E)]];
    [split; [done|exact Me]|rewrite (bind_Halt _ _ _ Ea); by apply bind_Halt
    |erewrite bind_Done by exact Ea; exists a1; by erewrite bind_Done by exact E|].
  erewrite bind_Done by exact Ea. erewrite bind_Done by exact E. rewrite (proj2 (Z.eqb_neq _ _) Ne).
  erewrite (bind_Done (parse_elf_header _)) by (eapply parse_elf_header_spec; apply HI). cbv zeta iota.
  pose proof (so_p _ _ HZ) as S2. pose proof (so_s _ _ HZ) as S3. rewrite !table_size_ok by nia.
  destruct (e_malloc_ok (with_e_al a1 s) _ (e_phentsize h * e_phnum h) (λ p, with_ptabs (<[p := mk_table (e_phentsize h * e_phnum h) ∅]>)) O1)
    as [[Eb E2]|[(a2 & Eb & E2 & O2)|(p & n2 & a2 & Eb & Np & H2 & O2 & E2)]]; try cbn [e_al with_e_al] in Eb;
    [lia|rewrite (bind_Halt _ _ _ Eb); by apply bind_Halt|erewrite bind_Done by exact Eb; erewrite bind_Done by exact E2; by apply (give_back s L elf n1)|].
  erewrite bind_Done by exact Eb. erewrite bind_Done by exact E2. rewrite (proj2 (Z.eqb_neq _ _) Np).
  destruct (e_malloc_ok (with_ptabs (<[p := mk_table (e_phentsize h * e_phnum h) ∅]>) (with_e_al a2 (with_e_al a1 s))) _ (e_shentsize h * e_shnum h)
    (λ q, with_stabs (<[q := mk_table (e_shentsize h * e_shnum h) ∅]>)) O2) as [[Ec E3]|[(a3 & Ec & E3 & O3)|(q & n3 & a3 & Ec & Nq & H3 & O3 & E3)]];
    try cbn [e_al with_e_al with_ptabs] in Ec; [lia|rewrite (bind_Halt _ _ _ Ec); by apply bind_Halt
    |erewrite bind_Done by exact Ec; erewrite bind_Done by exact E3; by apply (give_back_two s L elf p n1 n2 a3)|].
  erewrite bind_Done by exact Ec. erewrite bind_Done by exact E3. rewrite (proj2 (Z.eqb_neq _ _) Nq). cbv iota.
  eexists. split; [exact (parse_tables s be w code h ps ss elf p q a3 HI HZ Fp Fs)|]. split; [by split_and!|].
  destruct (free_three s L a3 (e_bytes s) elf p q n1 n2 n3 h (mk_table (e_phentsize h * e_phnum h) (blit 0 ps ∅))
    (mk_table (e_shentsize h * e_shnum h) (blit 0 ss ∅)) HH H1 H2 H3 O3 Np Nq) as (a' & Ef & Of). by exists a'.
Qed.

(** What is not an image is refused, and nothing is kept. *)
Theorem elf_parse_file_bad s L code indent : heap_ok s L → bytes_at (e_bytes s) code indent → length indent = 16%nat →
  is_elf_magic indent = false ∨ (ei_data indent ≠ 1 ∧ ei_data indent ≠ 2) → SIZEOF_ELF_FILE ≤ max_size (S := A) →
  elf_parse_file code s = Halt ∨ ∃ r a', elf_parse_file code s = Done r (with_e_al a' s) ∧ owns a' L ∧ (r = ERR_PTR (- ENOMEM) ∨ r = ERR_PTR (- EINVAL)).
Proof.
  intros HH HB HL Hbad Me. unfold elf_parse_file.
  destruct (e_malloc_ok s L SIZEOF_ELF_FILE (λ _ s, s) (ho_owns _ _ HH)) as [[_ E]|[(a1 & _ & E & O1)|(elf & n1 & a1 & _ & Ne & H1 & O1 & E)]];
    [split; [done|exact Me]|left; by apply bind_Halt|right; exists (ERR_PTR (- ENOMEM)), a1; erewrite bind_Done by exact E; by split_and!; [..|left]|].
  right. erewrite bind_Done by exact E. rewrite (proj2 (Z.eqb_neq _ _) Ne).
  erewrite bind_Done by (apply (parse_header_bad (with_e_al a1 s) code indent); done). cbv iota.
  destruct (give_back s L elf n1 a1 (ERR_PTR (- EINVAL)) HH H1 O1) as (a' & Ef & Of). exists (ERR_PTR (- EINVAL)), a'. by split_and!; [..|right].
Qed.

End whole.

(** ** Images of one segment *)

Module ElfDemo.

Definition encode_fields (be : bool) (l : list (Z * Z)) : list Z := concat (map (λ f, encode be f.1 f.2) l).

Definition indent (be : bool) (w : Z) : list Z := [0x7f; 0x45; 0x4c; 0x46; if w =? 4 then 1 else 2; if be then 2 else 1; 1] ++ replicate 9 0.
(** The headers follow each other; an entry has the size the format gives it. *)
Definition eheader (be : bool) (w np ns : Z) : elf_header :=
  let eh := if w =? 4 then 52 else 64 in
  let pe := if w =? 4 then 32 else SIZEOF_PHEADER in
  let se := if w =? 4 then 40 else SIZEOF_SHEADER in
  mk_eheader (indent be w) 2 183 1 0x400010 eh (eh + pe * np) 0 eh pe np se ns 0.
Definition segment : elf_program_header := mk_pheader PT_LOAD (PF_R + PF_X) 184 0x400010 0x400010 8 24 4096.
Definition section : elf_section_header := mk_sheader 1 1 6 0x400010 184 8 0 0 16 0.
Definition image (be : bool) (w : Z) : list Z :=
  let h := eheader be w 1 1 in
  e_indent h ++ encode_fields be (header_layout w h) ++ encode_fields be (pheader_layout w segment) ++ encode_fields be (sheader_layout w section) ++
  [11; 12; 13; 14; 15; 16; 17; 18].
Definition start (be : bool) (w : Z) : estate Z := mk_estate 1000000 (blit 4096 (image be w) ∅) ∅ ∅ ∅.

Lemma start_heap be w : heap_ok (start be w) ∅.
Proof. split; [by apply bump_empty|done|done|done]. Qed.

Lemma demo_image (be : bool) : image_at (e_bytes (start be 8)) be 8 4096 (eheader be 8 1 1) [segment] [section].
Proof.
  split; [| done|done| |].
  - split; [split; [done|done|by destruct be|by right]|destruct be; by apply (bool_decide_unpack _); vm_compute|destruct be; by apply (bool_decide_unpack _); vm_compute].
  - intros [|i] x Hx; [injection Hx as <-|done]. destruct be; by apply (bool_decide_unpack _); vm_compute.
  - intros [|i] x Hx; [injection Hx as <-|done]. destruct be; by apply (bool_decide_unpack _); vm_compute.
Qed.

(** The entries of a 32-bit image are smaller than the structures they are copied to:
    the parser writes past its block. *)
Example elf_32_overflow : elf_parse_file 4096 (start false 4) = Fault ∧ elf_parse_file 4096 (start true 4) = Fault.
Proof. vm_compute. split; reflexivity. Qed.

End ElfDemo.

Import ElfDemo.

Lemma elf_parse_file_ok_witness : ∃ elf p q s', elf_parse_file 4096 (start true 8) = Done elf s' ∧ parsed (start true 8) (eheader true 8 1 1) [segment] [section] elf p q s'.
Proof.
  assert (sizes_ok 4096 (eheader true 8 1 1)) as HZ by (split; [lia|vm_compute; split_and!; done|vm_compute; split_and!; done]).
  pose proof (elf_parse_file_ok (start true 8) ∅ true 8 4096 (eheader true 8 1 1) [segment] [section] (start_heap _ _) (demo_image _) HZ
    ltac:(vm_compute; split; discriminate) ltac:(vm_compute; split; discriminate) ltac:(vm_compute; discriminate)) as H.
  destruct (three_blocks _ _ _ _) as [[[[elf p] q]|] a| | | |] eqn:Ea; try (vm_compute in Ea; discriminate Ea).
  destruct H as (s' & E & HP & _). exists elf, p, q, s'. split; [exact E|exact HP].
Defined.

Lemma elf_parse_file_bad_witness : ∃ r a', elf_parse_file 4100 (start false 8) = Done r (with_e_al a' (start false 8)) ∧ (r = ERR_PTR (- ENOMEM) ∨ r = ERR_PTR (- EINVAL)).
Proof.
  destruct (elf_parse_file_bad (start false 8) ∅ 4100 (take 16 (drop 4 (image false 8)))) as [E|(r & a' & E & _ & H)].
  - apply start_heap.
  - apply (bool_decide_unpack _). vm_compute. exact I.
  - reflexivity.
  - left. reflexivity.
  - vm_compute. discriminate.
  - exfalso. vm_compute in E. discriminate.
  - exists r, a'. split; [exact E|exact H].
Defined.

End Elf.
