(* ===== verification/Root.v ===== *)
(** * The first process (kernel/object/set_thread_env.c and the rest of
    kernel/object/thread.c)

    At boot the kernel copies the program init.bin out of the archive in its image,
    loads its segments into memory objects of a new process, builds the stack page
    that the C library of the program reads, and makes the first thread ready.

    The state adds to that of Thread.v the bytes of kernel memory, as far as the
    code here reads and writes them, and the structures of the ELF parser.  [meta0]
    is what an uninitialised [process_metadata] holds. *)

From S2P Require Import Prelude Bitops Buddy Allocator ByteMem Cpio Elf Capability PageTable VmRegion Sched PolicyRR Notific Memory Recycle Thread.

Module Root.

Import Allocator ByteMem.
Import Elf(elf_header, e_phoff, e_phentsize, e_phnum, e_flags, e_entry, elf_program_header, p_type, p_flags, p_offset, p_vaddr, p_filesz, p_memsz,
  PT_LOAD, PF_X, PF_W, PF_R, table, t_entries, elf_file).
Import Bitops(ROUND_DOWN).
Import Buddy(ROUND_UP).
Import PageTable(VMR_READ, VMR_WRITE, VMR_EXEC).
Import VmRegion(PMO_DATA, PMO_ANONYM, vstate).
Import Sched(TYPE_USER).
Import Thread(thstate).

Definition ENOMEM : Z := 12.

(** ** The stack page *)

Record process_metadata := mk_meta { phdr_addr : Z; phentsize : Z; phnum : Z; flags : Z; entry : Z }.

Definition ENV_SIZE_ON_STACK : Z := 0x1000.
Definition AT_NULL : Z := 0.
Definition AT_PHDR : Z := 3.
Definition AT_PHENT : Z := 4.
Definition AT_PHNUM : Z := 5.
Definition AT_PAGESZ : Z := 6.
Definition AT_FLAGS : Z := 8.
Definition AT_ENTRY : Z := 9.
Definition AT_UID : Z := 11.
Definition AT_EUID : Z := 12.
Definition AT_GID : Z := 13.
Definition AT_EGID : Z := 14.
Definition AT_PLATFORM : Z := 15.
Definition AT_HWCAP : Z := 16.
Definition AT_CLKTCK : Z := 17.
Definition AT_SECURE : Z := 23.
Definition AT_RANDOM : Z := 25.

(** [PLAT]: the build defines no macro [CHCORE_ARCH], so that both sides of the
    first comparison are 0 and the string is x86_64 on every machine. *)
Definition PLAT : list Z := [0x78; 0x38; 0x36; 0x5f; 0x36; 0x34].

(** The words from the bottom of the page: argc, argv, envp and the auxiliary vector. *)
Definition env_words (top_vaddr : Z) (meta : process_metadata) : list Z :=
  [1; u64 (top_vaddr - 64); 0] ++
  [u64 (-1); u64 (-1); 0] ++
  [AT_SECURE; 0; AT_PAGESZ; 0x1000; AT_PHDR; phdr_addr meta; AT_PHENT; phentsize meta; AT_PHNUM; phnum meta; AT_FLAGS; flags meta;
   AT_ENTRY; entry meta; AT_UID; 1000; AT_EUID; 1000; AT_GID; 1000; AT_EGID; 1000; AT_CLKTCK; 100; AT_HWCAP; 0;
   AT_PLATFORM; u64 (top_vaddr - 64 * 2); AT_RANDOM; u64 (top_vaddr - 64); AT_NULL; 0].

Section env.
Context {S : Type} `{!HasBytes S}.

Fixpoint store_words (buf : Z) (l : list Z) : M S unit :=
  match l with
  | [] => ret tt
  | v :: l' => st64 buf v ;; store_words (buf + 8) l'
  end.

(** The loops copy the characters before the NUL. *)
Definition prepare_env (env top_vaddr : Z) (meta : process_metadata) (name : list Z) : M S unit :=
  memset env 0 (Z.to_nat ENV_SIZE_ON_STACK) ;;
  stn (env + 0x1000 - 64) name ;;
  stn (env + 0x1000 - 2 * 64) PLAT ;;
  store_words env (env_words top_vaddr meta).

(** The two calls of [load_binary] that fill a segment. *)
Definition fill_segment (block size off src filesz : Z) : M S unit :=
  memset block 0 (Z.to_nat size) ;; memcpy (block + off) src (Z.to_nat filesz).

End env.

Definition OFFSET_MASK : Z := 0xFFF.
Definition seg_map_sz (x : elf_program_header) : Z :=
  u64 (u64 (ROUND_UP (u64 (p_memsz x + p_vaddr x)) PAGE_SIZE) - ROUND_DOWN (p_vaddr x) PAGE_SIZE).
Definition PFLAGS2VMRFLAGS (pf : Z) : Z :=
  Z.lor (Z.lor (if Z.land pf PF_X =? 0 then 0 else VMR_EXEC) (if Z.land pf PF_W =? 0 then 0 else VMR_WRITE))
    (if Z.land pf PF_R =? 0 then 0 else VMR_READ).

Definition ROOT_THREAD_STACK_BASE : Z := 0x500000000000.
Definition ROOT_THREAD_STACK_SIZE : Z := 0x800000.
Definition ROOT_THREAD_PRIO : Z := Sched.MAX_PRIO - 1.
(** /init.bin *)
Definition ROOT_NAME : list Z := [0x2f; 0x69; 0x6e; 0x69; 0x74; 0x2e; 0x62; 0x69; 0x6e].

Section root.
Context {A H B : Type} `{!Allocator A, !Allocator H, !Allocator B, !PageAllocator B}.
Context {K : Type} `{!EqDecision K, !Countable K}.
Context (oob : Z → Z) (PLAT_CPU_NUM SIZEOF_THREAD SIZEOF_CAP_GROUP SIZEOF_VMSPACE : Z) (ops : Sched.sched_ops H K).
Context (meta0 : process_metadata).

Record rootst := mk_root {
  ths : thstate (H := H) (B := B) (K := K);
  ram : bmem;
  r_elfs : gmap Z elf_file;
  r_ptabs : gmap Z (table elf_program_header);
  r_stabs : gmap Z (table Elf.elf_section_header)
}.

Abbreviation kstate := (Capability.kstate (A := A) (E := rootst)).
Abbreviation MR := (M kstate).
Import Capability(obj_alloc, obj_free, obj_get, obj_put, cap_alloc, cap_free, on_ext, TYPE_THREAD, TYPE_VMSPACE, TYPE_PMO, VMSPACE_OBJ_ID).

Definition with_ths (x : thstate) (s : rootst) : rootst := mk_root x (ram s) (r_elfs s) (r_ptabs s) (r_stabs s).
Definition with_ram (m : bmem) (s : rootst) : rootst := mk_root (ths s) m (r_elfs s) (r_ptabs s) (r_stabs s).

#[export] Instance root_bytes : HasBytes kstate.
Proof.
  refine (Build_HasBytes _ (λ s, ram (Capability.ext s)) (λ m s, Capability.with_ext (with_ram m (Capability.ext s)) s) _ _ _).
  - done.
  - done.
  - by intros [? ? ? ? []].
Defined.

(** Code of Thread.v, of VmRegion.v and of Elf.v, which allocates on the same heap. *)
Definition on_th {X} (m : M (Capability.kstate (A := A) (E := thstate (H := H) (B := B) (K := K))) X) : MR X :=
  zoom (λ s, Capability.mk_kstate (Capability.al s) (Capability.objects s) (Capability.slotmem s) (Capability.groups s) (ths (Capability.ext s)))
    (λ k s, Capability.mk_kstate (Capability.al k) (Capability.objects k) (Capability.slotmem k) (Capability.groups k)
       (with_ths (Capability.ext k) (Capability.ext s))) m.
Definition in_vm {X} (m : M (vstate B) X) : M rootst X :=
  zoom ths with_ths (zoom Thread.rs Thread.with_rs (zoom Recycle.mem_state Recycle.with_mem (zoom Memory.vm Memory.with_vm m))).
Definition on_vm {X} (m : M (vstate B) X) : MR X := on_ext (in_vm m).
Definition on_elf {X} (m : M (Elf.estate A) X) : MR X :=
  zoom (λ s, let e := Capability.ext s in Elf.mk_estate (Capability.al s) (ram e) (r_elfs e) (r_ptabs e) (r_stabs e))
    (λ x s, Capability.mk_kstate (Elf.e_al x) (Capability.objects s) (Capability.slotmem s) (Capability.groups s)
       (mk_root (ths (Capability.ext s)) (Elf.e_bytes x) (Elf.elfs x) (Elf.ptabs x) (Elf.stabs x))) m.

(** [obj_deinit_tbl] *)
Definition obj_deinit (ty p : Z) : M rootst unit := zoom ths with_ths (Thread.obj_deinit ops ty p).

(** [elf->p_headers[i]] *)
Definition pheader_at (p i : Z) : MR elf_program_header :=
  s <- on_ext get ;; t <- need (r_ptabs s !! p) ;; need (t_entries t !! i).

(** One segment: its memory object is created, filled and mapped.  The result is the
    capability, or the error after which [load_binary] cleans up. *)
Definition load_segment (g vm bin : Z) (x : elf_program_header) : MR (Z + Z) :=
  BUG_ON (p_memsz x <? p_filesz x) ;;
  pmo <- obj_alloc TYPE_PMO Memory.SIZEOF_PMO ;;
  if pmo =? 0 then ret (inl (- ENOMEM))
  else
    on_vm (VmRegion.pmo_init pmo PMO_DATA (seg_map_sz x) 0) ;;
    cap <- cap_alloc oob g pmo 0 ;;
    if cap <? 0 then obj_free obj_deinit pmo ;; ret (inl cap)
    else
      o <- on_vm (VmRegion.pmo_at pmo) ;;
      fill_segment (phys_to_virt (VmRegion.p_start o)) (VmRegion.p_size o) (Z.land (p_vaddr x) OFFSET_MASK) (u64 (bin + p_offset x)) (p_filesz x) ;;
      r <- on_vm (VmRegion.vmspace_map_range vm (ROUND_DOWN (p_vaddr x) PAGE_SIZE) (seg_map_sz x) (PFLAGS2VMRFLAGS (p_flags x)) pmo) ;;
      BUG_ON (negb (r =? 0)) ;;
      ret (inr cap).

(** The loop at [out_free_cap], from the last capability to the first. *)
Fixpoint free_caps (g : Z) (caps : list Z) : MR unit :=
  match caps with
  | [] => ret tt
  | c :: caps' => (if negb (c =? 0) then cap_free obj_deinit g c ;; ret tt else ret tt) ;; free_caps g caps'
  end.

(** The loop over the program headers: [n] are left, from [i] on; [caps] is
    [pmo_cap], the last entry first. *)
Fixpoint load_segments (n : nat) (i g vm bin p : Z) (caps : list Z) : MR Z :=
  match n with
  | O => ret 0
  | S k =>
      x <- pheader_at p i ;;
      if p_type x =? PT_LOAD then
        r <- load_segment g vm bin x ;;
        match r with
        | inl err => free_caps g caps ;; ret err
        | inr cap => load_segments k (i + 1) g vm bin p (cap :: caps)
        end
      else load_segments k (i + 1) g vm bin p (-1 :: caps)
  end.

(** The entry point, and the metadata unless there was an error; an error is
    returned as the entry point. *)
Definition load_binary (g vm bin : Z) : MR (Z * option process_metadata) :=
  elf <- on_elf (Elf.elf_parse_file bin) ;;
  e <- on_elf (Elf.elf_at elf) ;;
  let h := Elf.header e in
  pmo_cap <- Capability.on_al (al_alloc (e_phnum h * 4)) ;;
  if pmo_cap =? 0 then ret (u64 (- ENOMEM), None)
  else
    r <- load_segments (Z.to_nat (e_phnum h)) 0 g vm bin (Elf.p_headers e) [] ;;
    if negb (r =? 0) then ret (u64 r, None)
    else
      x <- pheader_at (Elf.p_headers e) 0 ;;
      let meta := mk_meta (u64 (p_vaddr x + e_phoff h)) (e_phentsize h) (e_phnum h) (e_flags h) (e_entry h) in
      Capability.on_al (al_free bin) ;;
      ret (e_entry h, Some meta).

(** The tail after the stack is mapped and the thread is allocated.  [bin_name] is
    the name of the program. *)
Definition start_root_thread (t g vm stack_pmo stack_pmo_cap stack_base stack_size prio type aff bin_start : Z) (bin_name : list Z) : MR Z :=
  r <- load_binary g vm bin_start ;;
  let pc := r.1 in
  let meta := default meta0 r.2 in
  let stack := u64 (stack_base + stack_size) in
  kva <- on_vm (VmRegion.on_al get_page) ;;
  BUG_ON (kva =? 0) ;;
  on_vm (VmRegion.commit_page_to_pmo stack_pmo (stack_size / PAGE_SIZE - 1) (virt_to_phys kva)) ;;
  prepare_env kva stack meta bin_name ;;
  let stack := u64 (stack - ENV_SIZE_ON_STACK) in
  r <- on_th (Thread.thread_init PLAT_CPU_NUM t g stack pc prio type aff) ;;
  BUG_ON (negb (r =? 0)) ;;
  on_th (Thread.join_group t g) ;;
  thread_cap <- cap_alloc oob g t 0 ;;
  if thread_cap <? 0 then
    obj_free obj_deinit t ;; cap_free obj_deinit g stack_pmo_cap ;; obj_free obj_deinit 0 ;; ret thread_cap
  else ret thread_cap.

Definition __create_root_thread (g stack_base stack_size prio type aff bin_start : Z) (bin_name : list Z) : MR Z :=
  vm <- obj_get g VMSPACE_OBJ_ID TYPE_VMSPACE ;;
  obj_put vm ;;
  stack_pmo <- obj_alloc TYPE_PMO Memory.SIZEOF_PMO ;;
  if stack_pmo =? 0 then ret (- ENOMEM)
  else
    on_vm (VmRegion.pmo_init stack_pmo PMO_ANONYM stack_size 0) ;;
    stack_pmo_cap <- cap_alloc oob g stack_pmo 0 ;;
    if stack_pmo_cap <? 0 then obj_free obj_deinit stack_pmo ;; ret stack_pmo_cap
    else
      r <- on_vm (VmRegion.vmspace_map_range vm stack_base stack_size (Z.lor VMR_READ VMR_WRITE) stack_pmo) ;;
      BUG_ON (negb (r =? 0)) ;;
      t <- on_th (Thread.alloc_thread SIZEOF_THREAD) ;;
      if t =? 0 then cap_free obj_deinit g stack_pmo_cap ;; obj_free obj_deinit 0 ;; ret (- ENOMEM)
      else start_root_thread t g vm stack_pmo stack_pmo_cap stack_base stack_size prio type aff bin_start bin_name.

Definition cpio_cb_file (start size : Z) : MR Z :=
  buff <- Capability.on_al (al_alloc size) ;;
  if buff =? 0 then ret (Cpio.ERR_PTR (- ENOMEM))
  else memcpy buff start (Z.to_nat size) ;; ret buff.

(** The result is 0 in any case; [*buf] is the second component. *)
Definition read_bin_from_fs (fuel : nat) (archive : Z) (path : list Z) : MR (Z * Z) :=
  buf <- Cpio.cpio_extract_single fuel archive path cpio_cb_file ;; ret (0, buf).

(** [create_root_cap_group] allocates the address space with [obj_alloc], zeroed. *)
Definition vmspace_init (v : Z) : M rootst unit :=
  in_vm (modify (VmRegion.with_spaces (<[v := VmRegion.mk_vmspace [] 0 false [] 0 0 0]>)) ;; VmRegion.vmspace_init PLAT_CPU_NUM v ;; ret tt).

Definition create_root_thread (fuel : nat) (archive me : Z) : MR unit :=
  r <- read_bin_from_fs fuel archive ROOT_NAME ;;
  BUG_ON (r.1 <? 0) ;;
  BUG_ON (r.2 =? 0) ;;
  g <- Capability.create_root_cap_group oob SIZEOF_CAP_GROUP SIZEOF_VMSPACE vmspace_init ;;
  thread_cap <- __create_root_thread g ROOT_THREAD_STACK_BASE ROOT_THREAD_STACK_SIZE ROOT_THREAD_PRIO TYPE_USER me r.2 ROOT_NAME ;;
  t <- obj_get g thread_cap TYPE_THREAD ;;
  r <- on_th (Thread.on_sch (Sched.sched_enqueue ops me t)) ;;
  BUG_ON (negb (r =? 0)) ;;
  obj_put t.

End root.
Arguments rootst H B K {EqDecision0 Countable0} : rename.

(** ** What the stack page holds *)

Section env_spec.
Context {S : Type} `{!HasBytes S}.
Implicit Types s : S.







Lemma zeros_lookup (m : bmem) a n i : a ≤ i < a + Z.of_nat n → blit a (replicate n 0) m !! i = Some 0.
Proof.
  intros Hi. pose proof (blit_at m a (replicate n 0)) as Hz. rewrite bytes_at_lookup in Hz.
  specialize (Hz (Z.to_nat (i - a)) 0). replace (a + Z.of_nat (Z.to_nat (i - a))) with i in Hz by lia. apply Hz. apply lookup_replicate. split; [done|lia].
Qed.





(** ** What a segment holds *)

(** No wrap-around, and no more in the file than in memory. *)
Definition segment_fine (x : elf_program_header) : Prop :=
  0 ≤ p_vaddr x ∧ 0 ≤ p_filesz x ≤ p_memsz x ∧ p_vaddr x + p_memsz x + PAGE_SIZE ≤ 2 ^ 64.

Lemma segment_fits x : segment_fine x → let base := ROUND_DOWN (p_vaddr x) PAGE_SIZE in
  base ≤ p_vaddr x ∧ Z.land (p_vaddr x) OFFSET_MASK = p_vaddr x - base ∧ p_vaddr x - base + p_memsz x ≤ seg_map_sz x ∧ seg_map_sz x `mod` PAGE_SIZE = 0.
Proof.
  intros (Hv & Hf & Hb). cbv zeta. unfold OFFSET_MASK, seg_map_sz. change 0xFFF with (Z.ones 12). rewrite Z.land_ones by lia. rewrite VmRegion.round_down_page.
  rewrite (u64_id (p_memsz x + p_vaddr x)) by (unfold is_u64, PAGE_SIZE in *; lia). destruct (Buddy.round_up_spec (p_memsz x + p_vaddr x)) as (HU & HM).
  change Buddy.BUDDY_PAGE_SIZE with PAGE_SIZE in *. unfold PAGE_SIZE in *. change (2 ^ 12) with 4096.
  pose proof (Z.div_mod (p_vaddr x) 4096). pose proof (Z.mod_pos_bound (p_vaddr x) 4096).
  rewrite (u64_id (ROUND_UP _ _)) by (unfold is_u64; lia). rewrite u64_id by (unfold is_u64; lia).
  split_and!; [lia|lia|lia|]. rewrite Zminus_mod, HM, Z.mod_mul by lia. done.
Qed.

(** C34: The memory object of a segment, which is a whole number of pages, holds the
    bytes of the file at the addresses the program expects them, and zeros in the
    rest of the segment and of the object; nothing else is written. *)
Theorem fill_segment_ok s x block src l : segment_fine x → bytes_at (bytes s) src l → Forall is_byte l → p_filesz x = Z.of_nat (length l) →
  mapped (bytes s) block (Z.to_nat (seg_map_sz x)) → src + p_filesz x ≤ block ∨ block + seg_map_sz x ≤ src →
  let base := ROUND_DOWN (p_vaddr x) PAGE_SIZE in
  ∃ m, fill_segment block (seg_map_sz x) (Z.land (p_vaddr x) OFFSET_MASK) src (p_filesz x) s = Done tt (with_bytes m s) ∧
  (∀ u, p_vaddr x ≤ u < p_vaddr x + p_memsz x → 0 ≤ u - base < seg_map_sz x) ∧
  (∀ u, 0 ≤ u - base < seg_map_sz x → m !! (block + (u - base)) = Some (if u <? p_vaddr x then 0 else default 0 (l !! Z.to_nat (u - p_vaddr x)))) ∧
  (∀ a, ¬ (block ≤ a < block + seg_map_sz x) → m !! a = bytes s !! a).
Proof.
  intros HS Hl HF HL Hm Ho base. destruct (segment_fits x HS) as (F1 & F2 & F3 & _). fold base in F1, F2, F3. destruct HS as (Hv & Hf & _).
  pose (m1 := blit block (replicate (Z.to_nat (seg_map_sz x)) 0) (bytes s)).
  exists (blit (block + (p_vaddr x - base)) l m1). split_and!.
  - unfold fill_segment. rewrite F2, HL, Nat2Z.id. erewrite bind_Done by (by apply memset_ok).
    rewrite (memcpy_ok _ _ src l); [by rewrite bytes_with, with_with|done|rewrite bytes_with; apply blit_frame; [rewrite length_replicate; lia|done]|].
    rewrite bytes_with. apply blit_mapped. intros i Hi. apply Hm. lia.
  - intros u Hu. lia.
  - intros u Hu. destruct (decide (p_vaddr x ≤ u < p_vaddr x + Z.of_nat (length l))) as [Hin|Hout].
    + rewrite (proj2 (Z.ltb_ge _ _)) by lia. destruct (lookup_lt_is_Some_2 l (Z.to_nat (u - p_vaddr x))) as [v E]; [lia|]. rewrite E. simpl.
      pose proof (proj1 (bytes_at_lookup _ _ _) (blit_at m1 (block + (p_vaddr x - base)) l) _ _ E) as G.
      by replace (block + (p_vaddr x - base) + Z.of_nat (Z.to_nat (u - p_vaddr x))) with (block + (u - base)) in G by lia.
    + rewrite blit_out by lia. unfold m1. rewrite zeros_lookup by lia. destruct (Z.ltb_spec u (p_vaddr x)); [done|].
      by rewrite lookup_ge_None_2 by lia.
  - intros a Ha. unfold m1. rewrite !blit_out; [done|rewrite ?length_replicate; lia..].
Qed.

End env_spec.

Section root_spec.
Context {A H B : Type} `{!Allocator A, !Allocator H, !Allocator B, !PageAllocator B}.
Context {K : Type} `{!EqDecision K, !Countable K}.
Context (oob : Z → Z).
Abbreviation rst := (Capability.kstate (A := A) (E := rootst H B K)).
Implicit Types s : rst.

(** ** The program file *)

(** The copy of the file is in the new buffer, and the rest of memory stays. *)
Theorem read_bin_ok s fuel a es c name p e buff a' : Cpio.archive_at (bytes s) a es → 0 ≤ a → (length es < fuel)%nat → (0 ∉ name) →
  Cpio.locate a es name = Some (p, e) → Forall is_byte (Cpio.e_data e) →
  al_alloc (Z.of_nat (length (Cpio.e_data e))) (Capability.al s) = Done buff a' → buff ≠ 0 → mapped (bytes s) buff (length (Cpio.e_data e)) →
  ∃ s', read_bin_from_fs fuel a (c :: name) s = Done (0, buff) s' ∧ bytes_at (bytes s') buff (Cpio.e_data e) ∧ Capability.al s' = a' ∧
  ∀ i, ¬ (buff ≤ i < buff + Z.of_nat (length (Cpio.e_data e))) → bytes s' !! i = bytes s !! i.
Proof.
  intros HA Ha Hf Nn HL HF Hal Nb Hm. destruct (Cpio.locate_ok _ _ _ _ _ _ HA HL) as (_ & _ & _ & _ & _ & Hd & Hs).
  unfold read_bin_from_fs, Cpio.cpio_extract_single. pose proof (Cpio.find_file_spec s es fuel cpio_cb_file a name HA Ha Hf Nn) as E. rewrite HL in E.
  unfold cpio_cb_file, Capability.on_al in E. rewrite Hs in E. erewrite bind_Done in E by (apply zoom_Done; exact Hal).
  rewrite (proj2 (Z.eqb_neq _ _) Nb), Nat2Z.id in E. erewrite bind_Done in E by (apply (memcpy_ok _ buff p (Cpio.e_data e)); done).
  eexists. split; [erewrite bind_Done by exact E; reflexivity|]. split; [apply blit_at|]. split; [done|]. intros i Hi. by apply blit_out.
Qed.

(** A missing file is not noticed: the result is 0 and the pointer is not NULL. *)
Lemma read_bin_missing s fuel a es c name : Cpio.archive_at (bytes s) a es → 0 ≤ a → (length es < fuel)%nat → (0 ∉ name) →
  Forall (λ e, Cpio.e_name e ≠ name) es → read_bin_from_fs fuel a (c :: name) s = Done (0, u64 (- Cpio.ENOENT)) s.
Proof.
  intros HA Ha Hf Nn HN. unfold read_bin_from_fs, Cpio.cpio_extract_single. pose proof (Cpio.find_file_spec s es fuel cpio_cb_file a name HA Ha Hf Nn) as E.
  rewrite (proj2 (Cpio.locate_None _ _ _) HN) in E. by erewrite bind_Done by exact E.
Qed.

(** An image that [elf_parse_file] refuses: the error is dereferenced. *)
Lemma load_binary_bad (ops : Sched.sched_ops H K) s g vm bin r s' : on_elf (Elf.elf_parse_file bin) s = Done r s' →
  r_elfs (Capability.ext s') !! r = None → load_binary oob ops g vm bin s = Fault.
Proof.
  intros E Hr. unfold load_binary. erewrite bind_Done by exact E. unfold on_elf, Elf.elf_at, zoom, bind, get. simpl. by rewrite Hr.
Qed.

End root_spec.

(** ** A small machine

    An archive with init.bin at 4096, the heap of the kernel from 1048576 and page
    frames from [KBASE] on. *)
Module RootDemo.

Definition init_bin : list Z := Elf.ElfDemo.image false 8.
Definition archive (name : list Z) : list Z := Cpio.encode_archive [Cpio.demo_entry name init_bin].
Definition machine (name : list Z) : bmem :=
  blit 4096 (archive name) (blit 1048576 (replicate 1024 0xaa) (blit KBASE (replicate (Z.to_nat (16 * PAGE_SIZE)) 0xaa) ∅)).
Definition sch0 : Sched.sstate Z Z := Sched.mk_sstate 8388608 ∅ {[0 := Sched.mk_cpu 0 0 true true 0 0 0]} {[0 := []; 1 := []]} ∅.
Definition vm0 : vstate Z := VmRegion.mk_vstate (PageTable.mk_pstate KBASE ∅ true) ∅ ∅ ∅ ∅ ∅ ∅.
Definition th0 : thstate (H := Z) (B := Z) (K := Z) := Thread.mk_thstate
  (Recycle.mk_rstate (Notific.mk_istate (Notific.mk_tstate sch0 ∅ ∅ ∅ 0 ∅) ∅ ∅ ∅) (Memory.mk_mstate sch0 vm0 [] 0 []) 0 0 [] ∅) ∅ ∅ ∅.
Definition boot (name : list Z) : Capability.kstate (A := Z) (E := rootst Z Z Z) :=
  Capability.mk_kstate 1048576 ∅ ∅ ∅ (mk_root th0 (machine name) ∅ ∅ ∅).

Definition run (name : list Z) := create_root_thread Capability.Sample.no_oob 2 200 100 100 Notific.NDemo.ops0 (mk_meta 0 0 0 0 0) 2 4096 0 (boot name).


(** Entry point, stack pointer and state of the thread that is ready. *)
Definition ready_thread (s : Capability.kstate (A := Z) (E := rootst Z Z Z)) : option (Z * Z * Sched.thread_state) :=
  let sc := Thread.sch_of (ths (Capability.ext s)) in
  match Sched.ready sc !! 0 with
  | Some [t] => c ← Sched.tctx sc t; pc ← Sched.ec c !! Sched.ELR_EL1; sp ← Sched.ec c !! Sched.SP_EL0; Some (pc, sp, Sched.state c)
  | _ => None
  end.
(** The first bytes of the memory objects that are in memory, and the regions. *)
Definition vm_of (s : Capability.kstate (A := Z) (E := rootst Z Z Z)) : vstate Z := Memory.vm (Recycle.mem (Thread.rs (ths (Capability.ext s)))).
Definition contents (n : nat) (s : Capability.kstate (A := Z) (E := rootst Z Z Z)) : list (option (list Z)) :=
  map (λ o, mapM (λ i, ram (Capability.ext s) !! (phys_to_virt (VmRegion.p_start o) + Z.of_nat i)) (seq 0 n))
    (filter (λ o, VmRegion.p_type o = PMO_DATA) (map snd (map_to_list (VmRegion.pmos (vm_of s))))).
Definition regions (s : Capability.kstate (A := Z) (E := rootst Z Z Z)) : list (Z * Z * Z) :=
  map (λ v, (VmRegion.start v, VmRegion.size v, VmRegion.perm v)) (map snd (map_to_list (VmRegion.vmrs (vm_of s)))).

End RootDemo.

Import RootDemo.

(** The whole start: the thread is ready at the entry point of the program with the
    stack page below its stack pointer's end; the segment and the stack are mapped,
    and the segment has its bytes at offset 16 of its page. *)
Example root_thread_starts : match run (tail ROOT_NAME) with
  | Done _ s => ready_thread s = Some (0x400010, ROOT_THREAD_STACK_BASE + ROOT_THREAD_STACK_SIZE - 4096, Sched.TS_READY) ∧
      contents 26 s = [Some (replicate 16 0 ++ [11; 12; 13; 14; 15; 16; 17; 18; 0; 0])] ∧
      regions s ≡ₚ [(0x400000, 4096, Z.lor VMR_READ VMR_EXEC); (ROOT_THREAD_STACK_BASE, ROOT_THREAD_STACK_SIZE, Z.lor VMR_READ VMR_WRITE)]
  | _ => False
  end.
Proof. vm_compute. split_and!; [reflexivity|reflexivity|]. first [reflexivity|constructor]. Qed.

(** Without the program the kernel goes on with an error for a pointer. *)
Example root_thread_missing : run [0x78] = Fault.
Proof. vm_compute. reflexivity. Qed.

(** The empty system, as the start finds it. *)
Definition empty0 : Capability.kstate (A := Z) (E := rootst Z Z Z) := Capability.mk_kstate 1048576 ∅ ∅ ∅ (mk_root th0 ∅ ∅ ∅ ∅).

Lemma empty_caps_ok : Capability.caps_ok empty0 (λ _, 0) ∅ None.
Proof.
  split; [split| |split| |]; try done.
  - exists ∅. split; [|done]. done.
  - intros p. split; [done|]. by intros [? ?].
  - intros p. split; [done|]. by intros [? ?].
  - intros p g. split; [done|]. by intros (? & ? & _).
Qed.

Lemma root_group_ok_witness : match Capability.create_root_cap_group Capability.Sample.no_oob 200 100 (vmspace_init 2) empty0 with
  | Done g s' => (∃ v held W', Capability.caps_ok s' held W' None ∧ Capability.cap_view s' g 1 = Some (Capability.container_of v, 0)) ∧
      Capability.cap_view s' g 0 = Some (Capability.container_of g, 0) ∧ Capability.cap_view s' g 2 = None
  | _ => False
  end.
Proof.
  destruct (Capability.create_root_cap_group _ _ _ _ empty0) as [g s'| | | |] eqn:Run.
  2-5: vm_compute in Run; discriminate.
  assert (g ≠ 0) as Ng by (vm_compute in Run; by injection Run as <- _).
  destruct (Capability.root_group_ok Capability.Sample.no_oob 200 100 (vmspace_init 2) empty0 _ _ g s' empty_caps_ok) as (v & _ & _ & _ & (W' & C) & V); [vm_compute; intros [=]..|exact Run|exact Ng|].
  clear Run.
  split; [exists v; eexists _, _; split; [exact C|]|split]; rewrite V.
  - rewrite decide_False by (intros [_ [=]]). by rewrite decide_True.
  - by rewrite decide_True.
  - rewrite decide_False by (intros [_ [=]]). rewrite decide_False by (intros [_ [=]]). reflexivity.
Defined.

(** A name of 70 characters runs over the end of the page. *)
Example prepare_env_overflow : match prepare_env 4096 65536 (mk_meta 0 0 0 0 0) (replicate 70 0x61) (blit 4096 (replicate 5000 0xaa) ∅) with
  | Done _ m => m !! (4096 + 4096) = Some 0x61
  | _ => False
  end.
Proof. vm_compute. reflexivity. Qed.

Lemma blank_mapped (m : bmem) a n : mapped (blit a (replicate n 0xaa) m) a n.
Proof. pose proof (bytes_at_mapped _ a (replicate n 0xaa) (blit_at m a _)) as H. by rewrite length_replicate in H. Qed.


Lemma fill_segment_ok_witness : ∃ m, fill_segment 8192 4096 16 184 8 (blit 184 [11; 12; 13; 14; 15; 16; 17; 18] (blit 8192 (replicate (Z.to_nat 4096) 0xaa) ∅)) = Done tt m ∧
  m !! (8192 + 0x11) = Some 12 ∧ m !! (8192 + 0x1f) = Some 0.
Proof.
  generalize (blit_mapped _ 184 [11; 12; 13; 14; 15; 16; 17; 18] _ _ (blank_mapped ∅ 8192 (Z.to_nat 4096))).
  generalize (blit_at (blit 8192 (replicate (Z.to_nat 4096) 0xaa) ∅) 184 [11; 12; 13; 14; 15; 16; 17; 18]).
  generalize (blit 184 [11; 12; 13; 14; 15; 16; 17; 18] (blit 8192 (replicate (Z.to_nat 4096) 0xaa) ∅)). intros m0 H0 H1.
  destruct (fill_segment_ok m0 Elf.ElfDemo.segment 8192 184 [11; 12; 13; 14; 15; 16; 17; 18]) as (m & E & _ & Hu & _).
  - split; [simpl; lia|]. split; [simpl; lia|]. vm_compute. discriminate.
  - exact H0.
  - apply (bool_decide_unpack (Forall _ _)). exact I.
  - reflexivity.
  - exact H1.
  - left. simpl. lia.
  - exists m. split; [exact E|]. split; [apply (Hu 0x400011)|apply (Hu 0x40001f)]; vm_compute; split; discriminate || reflexivity.
Defined.

End Root.
