(* ===== verification/Printk.v ===== *)
(** * Printing (kernel/lib/printk.c)

    The output is the list of characters that were sent to the UART.  The arguments
    of [printk] are a list; a number is the 64-bit value that was passed, of which
    the conversions for [int] use the low half.  The buffer of [printk_write_num]
    has 63 places for characters, filled from the back; a character more is a
    [Fault], and so is a missing argument and reading past the end of the format. *)

From S2P Require Import Prelude.

Module Printk.

Inductive arg := Num (v : Z) | Text (l : list Z).

Abbreviation MO := (M (list Z)).

Definition MAX_INT_BUFF_SIZE : nat := 64.

Definition uart_send (c : Z) : MO unit := modify (λ out, out ++ [c]).

Fixpoint printk_write_string (str : list Z) : MO unit :=
  match str with
  | [] => ret tt
  | c :: str' => uart_send c ;; printk_write_string str'
  end.

(** 0123456789abcdef *)
Definition hex (d : Z) : Z := if d <? 10 then 0x30 + d else 0x61 + (d - 10).

(** The loop that generates the digits in front of [acc]; [k] places are left. *)
Fixpoint write_digits (base : Z) (k : nat) (n : Z) (acc : list Z) : MO (nat * list Z) :=
  if n =? 0 then ret (k, acc)
  else
    match k with
    | O => fault
    | S k' => write_digits base k' (n / base) (hex (n mod base) :: acc)
    end.

Definition printk_write_num (base n neg : Z) : MO unit :=
  if n =? 0 then printk_write_string [0x30]
  else
    r <- write_digits base (MAX_INT_BUFF_SIZE - 1) n [] ;;
    s <- (if (base =? 10) && (neg =? 1) then match r.1 with O => fault | S _ => ret (0x2d :: r.2) end else ret r.2) ;;
    printk_write_string s.

(** [va_arg] *)
Definition next_num (args : list arg) : MO (Z * list arg) :=
  match args with Num v :: args' => ret (v, args') | _ => fault end.
Definition next_text (args : list arg) : MO (list Z * list arg) :=
  match args with Text l :: args' => ret (l, args') | _ => fault end.

(** The modifiers that are skipped: digits, '-' and '.'. *)
Definition skipped (c : Z) : bool := ((0x30 <=? c) && (c <=? 0x39)) || (c =? 0x2d) || (c =? 0x2e).

Fixpoint printk_format (format : list Z) (escape_mode : bool) (args : list arg) : MO unit :=
  match format with
  | [] => ret tt
  | c :: rest =>
      if negb escape_mode && negb (c =? 0x25) then
        (if c =? 0x0a then uart_send 0x0a ;; uart_send 0x0d else uart_send c) ;; printk_format rest escape_mode args
      else if c =? 0x25 then
        if negb escape_mode then printk_format rest true args
        else uart_send c ;; printk_format rest false args
      else if skipped c then printk_format rest escape_mode args
      else if c =? 0x73 then (* s *)
        a <- next_text args ;; printk_write_string a.1 ;; printk_format rest false a.2
      else if c =? 0x70 then (* p *)
        a <- next_num args ;; uart_send 0x30 ;; uart_send 0x78 ;; printk_write_num 16 a.1 0 ;; printk_format rest false a.2
      else if c =? 0x78 then (* x *)
        a <- next_num args ;; printk_write_num 16 (u64 (s32 a.1)) 0 ;; printk_format rest false a.2
      else if c =? 0x64 then (* d *)
        a <- next_num args ;;
        let d := s32 a.1 in
        (if 0 <=? d then printk_write_num 10 d 0 else printk_write_num 10 (u64 (s32 (- d))) 1) ;;
        printk_format rest false a.2
      else if c =? 0x75 then (* u *)
        a <- next_num args ;; printk_write_num 10 (u64 (s32 a.1)) 0 ;; printk_format rest false a.2
      else if c =? 0x62 then (* b *)
        a <- next_num args ;; printk_write_num 2 (u64 (s32 a.1)) 0 ;; printk_format rest false a.2
      else if c =? 0x63 then (* c *)
        a <- next_num args ;; uart_send (a.1 mod 256) ;; printk_format rest false a.2
      else if c =? 0x6c then (* l *)
        a <- next_num args ;;
        let l := s64 a.1 in
        match rest with
        | [] => uart_send 0x3f ;; fault
        | c2 :: rest' =>
            if c2 =? 0x64 then
              (if l <? 0 then printk_write_num 10 (u64 (s64 (- l))) 1 else printk_write_num 10 (u64 l) 0) ;; printk_format rest' false a.2
            else if c2 =? 0x75 then printk_write_num 10 (u64 l) 0 ;; printk_format rest' false a.2
            else if c2 =? 0x78 then printk_write_num 16 (u64 l) 0 ;; printk_format rest' false a.2
            else if c2 =? 0x62 then printk_write_num 2 (u64 l) 0 ;; printk_format rest' false a.2
            else uart_send 0x3f ;; printk_format rest' escape_mode a.2
        end
      else uart_send 0x3f ;; printk_format rest false args
  end.

Definition printk (fmt : list Z) (args : list arg) : MO unit := printk_format fmt false args.

(** ** Reading numbers *)

Definition digit_value (c : Z) : Z := if c <? 0x3a then c - 0x30 else c - 0x61 + 10.
Definition read_num (base : Z) (l : list Z) : Z := fold_left (λ v c, v * base + digit_value c) l 0.
(** With a sign. *)
Definition read_int (l : list Z) : Z := match l with 0x2d :: l' => - read_num 10 l' | _ => read_num 10 l end.

Lemma write_string_ok l out : printk_write_string l out = Done tt (out ++ l).
Proof.
  revert out. induction l as [|c l IH]; intros out; cbn [printk_write_string]; [by rewrite app_nil_r|].
  erewrite bind_Done by reflexivity. by rewrite IH, <- app_assoc.
Qed.

Lemma hex_value d : 0 ≤ d < 16 → digit_value (hex d) = d.
Proof. intros H. unfold digit_value, hex. repeat case_match; lia. Qed.

(** Digits are not signs, and all but the digit 0 are not the character 0. *)
Definition is_digit (c : Z) : Prop := 0x30 ≤ c.

Lemma write_digits_ok base k n acc out : 2 ≤ base ≤ 16 → 0 ≤ n < base ^ Z.of_nat k → ∃ l, write_digits base k n acc out = Done ((k - length l)%nat, l ++ acc) out ∧
  read_num base l = n ∧ Forall is_digit l ∧ (length l ≤ k)%nat ∧ (∀ j : nat, n < base ^ Z.of_nat j → (length l ≤ j)%nat).
Proof.
  intros Hb. revert n acc. induction k as [|k IH]; intros n acc Hn; cbn [write_digits].
  - assert (n = 0) as -> by (simpl in Hn; lia). exists []. by split_and!; [..|intros; simpl; lia].
  - destruct (Z.eqb_spec n 0) as [->|Nn]; [exists []; split_and!; [by rewrite Nat.sub_0_r|done|constructor|simpl; lia|intros; simpl; lia]|].
    destruct (IH (n / base) (hex (n `mod` base) :: acc)) as (l & E & Hr & HF & Hl & Hm).
    { rewrite Nat2Z.inj_succ, Z.pow_succ_r in Hn by lia. split; [apply Z.div_pos; lia|apply Z.div_lt_upper_bound; lia]. }
    exists (l ++ [hex (n `mod` base)]). pose proof (Z.mod_pos_bound n base). split_and!.
    + rewrite E, length_app, <- app_assoc. cbn [length app]. f_equal. f_equal. lia.
    + unfold read_num in *. rewrite fold_left_app, Hr. cbn [fold_left]. rewrite hex_value by lia. pose proof (Z.div_mod n base). lia.
    + apply Forall_app. split; [done|]. constructor; [|constructor]. unfold is_digit, hex. case_match; lia.
    + rewrite length_app. simpl. lia.
    + intros [|j] Hj; [simpl in Hj; lia|]. rewrite length_app. cbn [length]. assert (length l ≤ j)%nat; [|lia]. apply Hm.
      rewrite Nat2Z.inj_succ, Z.pow_succ_r in Hj by lia. apply Z.div_lt_upper_bound; lia.
Qed.

(** The bases that are used fit into the buffer, with a sign; of binary numbers
    only those below 2^63. *)
Definition fits (base n : Z) : Prop := (base = 2 ∧ 0 ≤ n < 2 ^ 63) ∨ ((base = 10 ∨ base = 16) ∧ 0 ≤ n < 2 ^ 64).

Lemma write_num_spec base n neg out : fits base n → ∃ l, printk_write_num base n neg out =
  Done tt (out ++ (if (base =? 10) && (neg =? 1) && negb (n =? 0) then 0x2d :: l else l)) ∧ read_num base l = n ∧ l ≠ [] ∧ Forall is_digit l.
Proof.
  intros HF. unfold printk_write_num. destruct (Z.eqb_spec n 0) as [->|Nn].
  - exists [0x30]. rewrite andb_false_r. split_and!; [apply write_string_ok|unfold read_num; cbn; lia|done|by repeat constructor].
  - rewrite andb_true_r. assert (2 ≤ base ≤ 16) as Hb by (destruct HF as [[-> _]|[[-> | ->] _]]; lia).
    destruct (write_digits_ok base (MAX_INT_BUFF_SIZE - 1) n [] out Hb) as (l & E & Hr & HD & Hl & Hm).
    { destruct HF as [[-> H]|[[-> | ->] H]]; [exact H|change (Z.of_nat (MAX_INT_BUFF_SIZE - 1)) with 63; lia..]. }
    exists l. rewrite app_nil_r in E. erewrite bind_Done by exact E. cbn [fst snd].
    assert (l ≠ []) as Nl by (intros ->; unfold read_num in Hr; simpl in Hr; lia).
    destruct ((base =? 10) && (neg =? 1)) eqn:Es; [|erewrite bind_Done by reflexivity; by rewrite write_string_ok].
    apply andb_true_iff in Es as [->%Z.eqb_eq _]. assert (length l ≤ 20)%nat as H20.
    { apply Hm. destruct HF as [[? _]|[_ H]]; [done|]. change (Z.of_nat 20) with 20. lia. }
    destruct (MAX_INT_BUFF_SIZE - 1 - length l)%nat as [|k] eqn:Ek; [unfold MAX_INT_BUFF_SIZE in Ek; lia|].
    erewrite bind_Done by reflexivity. by rewrite write_string_ok.
Qed.

(** ** Formats *)

(** What is sent for plain text. *)
Definition cooked (l : list Z) : list Z := concat (map (λ c, if c =? 0x0a then [0x0a; 0x0d] else [c]) l).

Lemma plain_ok pre rest args out : 0x25 ∉ pre → printk_format (pre ++ rest) false args out = printk_format rest false args (out ++ cooked pre).
Proof.
  revert out. induction pre as [|c pre IH]; intros out Hp; [by rewrite app_nil_r|]. rewrite not_elem_of_cons in Hp. destruct Hp as [Nc Hp].
  cbn [app printk_format]. rewrite (proj2 (Z.eqb_neq c 0x25)) by done. cbn [negb andb]. unfold cooked in *. cbn [map concat].
  destruct (c =? 0x0a).
  - erewrite bind_Done by (erewrite bind_Done by reflexivity; reflexivity). rewrite IH by done. by rewrite <- !app_assoc.
  - erewrite bind_Done by reflexivity. rewrite IH by done. by rewrite <- app_assoc.
Qed.

Lemma read_int_digits l : l ≠ [] → Forall is_digit l → read_int l = read_num 10 l.
Proof.
  intros Nl HF. destruct l as [|c l]; [done|]. apply Forall_cons in HF as [Hc _]. unfold is_digit in Hc. unfold read_int.
  repeat case_match; try done; lia.
Qed.

(** The digits of a number with its sign are read back. *)
Lemma write_signed n (neg : bool) out : 0 ≤ n < 2 ^ 64 → (neg = true → 0 < n) → ∃ l, printk_write_num 10 n (if neg then 1 else 0) out = Done tt (out ++ l) ∧
  read_int l = if neg then - n else n.
Proof.
  intros Hn Hs. destruct (write_num_spec 10 n (if neg then 1 else 0) out) as (l & E & Hr & Nl & HF); [right; split; [by left|done]|].
  destruct neg.
  - rewrite (proj2 (Z.eqb_neq n 0)) in E by (specialize (Hs eq_refl); lia). exists (0x2d :: l). split; [exact E|]. unfold read_int. by rewrite Hr.
  - exists l. split; [exact E|]. by rewrite read_int_digits, Hr.
Qed.


(** Round trip.  After any plain text, the digits that %d, %ld, %lu and %lx
    print are read back as the number that was passed, and the rest of the format
    follows; for %d the number must not be the smallest [int]. *)
Theorem printk_roundtrip pre post args v out : 0x25 ∉ pre →
  (- 2 ^ 31 < v < 2 ^ 31 → ∃ l, printk (pre ++ [0x25; 0x64] ++ post) (Num v :: args) out = printk post args (out ++ cooked pre ++ l) ∧ read_int l = v) ∧
  (- 2 ^ 63 ≤ v < 2 ^ 63 → ∃ l, printk (pre ++ [0x25; 0x6c; 0x64] ++ post) (Num v :: args) out = printk post args (out ++ cooked pre ++ l) ∧ read_int l = v) ∧
  (0 ≤ v < 2 ^ 64 → ∃ l, printk (pre ++ [0x25; 0x6c; 0x75] ++ post) (Num v :: args) out = printk post args (out ++ cooked pre ++ l) ∧ read_num 10 l = v) ∧
  (0 ≤ v < 2 ^ 64 → ∃ l, printk (pre ++ [0x25; 0x6c; 0x78] ++ post) (Num v :: args) out = printk post args (out ++ cooked pre ++ l) ∧ read_num 16 l = v).
Proof.
  intros Hp. unfold printk. split_and!; intros Hv; rewrite plain_ok by done; cbn [app printk_format];
    cbn [Z.eqb Pos.eqb negb andb orb skipped Z.leb Z.compare Pos.compare Pos.compare_cont]; erewrite bind_Done by reflexivity; cbn [fst snd].
  - rewrite s32_id by lia. destruct (Z.leb_spec 0 v) as [H0|H0].
    + destruct (write_signed v false (out ++ cooked pre)) as (l & E & Hr); [lia|done|]. exists l. rewrite app_assoc. by erewrite bind_Done by exact E.
    + rewrite s32_id, u64_id by (unfold is_u64; lia). destruct (write_signed (- v) true (out ++ cooked pre)) as (l & E & Hr); [lia|lia|].
      exists l. rewrite app_assoc. erewrite bind_Done by exact E. split; [done|lia].
  - rewrite s64_id by lia. destruct (Z.ltb_spec v 0) as [H0|H0].
    + assert (u64 (s64 (- v)) = - v) as -> by (apply u64_s64; lia). destruct (write_signed (- v) true (out ++ cooked pre)) as (l & E & Hr); [lia|lia|].
      exists l. rewrite app_assoc. erewrite bind_Done by exact E. split; [done|lia].
    + rewrite u64_id by (unfold is_u64; lia). destruct (write_signed v false (out ++ cooked pre)) as (l & E & Hr); [lia|done|].
      exists l. rewrite app_assoc. by erewrite bind_Done by exact E.
  - rewrite u64_s64 by done. destruct (write_num_spec 10 v 0 (out ++ cooked pre)) as (l & E & Hr & _); [right; split; [by left|done]|].
    exists l. rewrite app_assoc. by erewrite bind_Done by exact E.
  - rewrite u64_s64 by done. destruct (write_num_spec 16 v 0 (out ++ cooked pre)) as (l & E & Hr & _); [right; split; [by right|done]|].
    exists l. rewrite app_assoc. by erewrite bind_Done by exact E.
Qed.

Lemma printk_roundtrip_witness : ∃ l, printk [0x61; 0x0a; 0x25; 0x64; 0x2e] [Num (-2048)] [] = Done tt ([0x61; 0x0a; 0x0d] ++ l ++ [0x2e]) ∧ read_int l = -2048.
Proof.
  destruct (printk_roundtrip [0x61; 0x0a] [0x2e] [] (-2048) []) as (H & _).
  - apply (bool_decide_unpack (0x25 ∉ _)). exact I.
  - destruct H as (l & E & Hr); [lia|]. exists l. split; [|exact Hr]. etransitivity; [exact E|]. unfold printk. simpl. reflexivity.
Defined.

(** ** Numbers that are printed wrong *)

(** %u and %x extend the sign of their argument. *)
Example printk_u_sign : printk [0x25; 0x75] [Num (2 ^ 32 - 1)] [] = printk [0x25; 0x6c; 0x75] [Num (2 ^ 64 - 1)] [].
Proof. vm_compute. reflexivity. Qed.
Example printk_x_sign : printk [0x25; 0x78] [Num (2 ^ 32 - 1)] [] = Done tt (replicate 16 0x66).
Proof. vm_compute. reflexivity. Qed.
(** %b of a negative number has 64 digits, one more than the buffer. *)
Example printk_b_overflow : printk [0x25; 0x62] [Num (-1)] [] = Fault.
Proof. vm_compute. reflexivity. Qed.
(** The smallest [int] is printed as another number. *)
Example printk_d_min : printk [0x25; 0x64] [Num (- 2 ^ 31)] [] = printk [0x2d; 0x25; 0x6c; 0x75] [Num (2 ^ 64 - 2 ^ 31)] [].
Proof. vm_compute. reflexivity. Qed.
(** A format that ends with %l is read past its end. *)
Example printk_l_end : printk [0x25; 0x6c] [Num 1] [] = Fault.
Proof. reflexivity. Qed.

End Printk.
