(* ===== verification/URadix.v ===== *)
(** * Radix trees of user programs
    (user/musl-1.1.24/include/chcore/container/radix.h)

    The tree of the user-level library has nodes of 512 words on eight levels, and
    no lock.  Nothing else points into it, so that a node is its contents: a map
    from the indices that are not NULL, to nodes on the upper levels and to values
    on the leaf level.  [malloc] and its relatives belong to the C library; the
    class [Malloc] says what the code here relies on.

    The specification is a map from 64-bit keys to values, NULL meaning absent. *)

From stdpp Require Import sorting.
From S2P Require Import Prelude.

Module URadix.

(** [live]: the addresses the program has allocated; [room]: so many more
    allocations succeed. *)
Class Malloc (S : Type) := {
  live : S → gset Z → Prop;
  room : S → nat → Prop;
  malloc : Z → M S Z;
  free : Z → M S unit;
  malloc_ok s D size : live s D → ∃ p s', malloc size s = Done p s' ∧
    ((p = 0 ∧ live s' D) ∨ (0 < p ∧ (p ∉ D) ∧ live s' ({[p]} ∪ D)));
  malloc_room s size k p s' : room s (Datatypes.S k) → malloc size s = Done p s' → p ≠ 0 ∧ room s' k;
  room_less s k : room s (Datatypes.S k) → room s k;
  free_ok s D p : live s D → p ∈ D → ∃ s', free p s = Done tt s' ∧ live s' (D ∖ {[p]});
  free_null s : free 0 s = Done tt s;
  free_room s p k s' : room s k → free p s = Done tt s' → room s' k;
  live_pos s D p : live s D → p ∈ D → 0 < p
}.

Definition ENOMEM : Z := 12.
Definition EINVAL : Z := 22.
Definition RADIX_NODE_BITS : Z := 9.
Definition RADIX_NODE_SIZE : Z := 512.
(** The level of the root; the leaves are level 0. *)
Definition TOP : nat := 7.
Definition SIZEOF_RADIX_NODE : Z := RADIX_NODE_SIZE * 8.

Fixpoint tree (n : nat) : Type :=
  match n with
  | O => gmap Z Z
  | S m => gmap Z (tree m)
  end.
Definition new_node (n : nat) : tree n := match n with O => ∅ | S _ => ∅ end.

(** [index[n]] *)
Definition index (key : Z) (n : nat) : Z := Z.land (Z.shiftr key (RADIX_NODE_BITS * Z.of_nat n)) (RADIX_NODE_SIZE - 1).

(** [root], and whether there is a [value_deleter], which is [free] here. *)
Record radix := mk_radix { root : option (tree TOP); value_deleter : bool }.

Section radix.
Context {H : Type} `{!Malloc H}.

Definition init_radix_w_deleter : M H radix :=
  p <- malloc SIZEOF_RADIX_NODE ;; BUG_ON (p =? 0) ;; ret (mk_radix (Some (new_node TOP)) true).

(** The loops over the levels, from [n] down. *)
Fixpoint add_from (n : nat) : tree n → Z → Z → M H (Z * tree n) :=
  match n with
  | O => λ (t : gmap Z Z) key value, ret (0, <[index key 0 := value]> t)
  | S m => λ (t : gmap Z (tree m)) key value,
      let k := index key (S m) in
      match t !! k with
      | Some c => r <- add_from m c key value ;; ret (r.1, <[k := r.2]> t)
      | None =>
          new <- malloc SIZEOF_RADIX_NODE ;;
          if new =? 0 then ret (- ENOMEM, t)
          else r <- add_from m (new_node m) key value ;; ret (r.1, <[k := r.2]> t)
      end
  end.

Definition radix_add (r : radix) (key value : Z) : M H (Z * radix) :=
  match root r with
  | Some t => x <- add_from TOP t key value ;; ret (x.1, mk_radix (Some x.2) (value_deleter r))
  | None =>
      new <- malloc SIZEOF_RADIX_NODE ;;
      if new =? 0 then ret (- ENOMEM, r)
      else x <- add_from TOP (new_node TOP) key value ;; ret (x.1, mk_radix (Some x.2) (value_deleter r))
  end.

Fixpoint get_from (n : nat) : tree n → Z → Z :=
  match n with
  | O => λ (t : gmap Z Z) key, default 0 (t !! index key 0)
  | S m => λ (t : gmap Z (tree m)) key, match t !! index key (S m) with Some c => get_from m c key | None => 0 end
  end.

Definition radix_get (r : radix) (key : Z) : Z :=
  match root r with Some t => get_from TOP t key | None => 0 end.

(** The deleter is called on whatever the slot holds. *)
Fixpoint del_from (n : nat) (delete_value : bool) : tree n → Z → M H (Z * tree n) :=
  match n with
  | O => λ (t : gmap Z Z) key,
      (if delete_value then free (default 0 (t !! index key 0)) else ret tt) ;;
      ret (0, delete (index key 0) t)
  | S m => λ (t : gmap Z (tree m)) key,
      let k := index key (S m) in
      match t !! k with
      | Some c => r <- del_from m delete_value c key ;; ret (r.1, <[k := r.2]> t)
      | None => ret (-1, t)
      end
  end.

Definition radix_del (r : radix) (key : Z) (delete_value : bool) : M H (Z * radix) :=
  match root r with
  | Some t => x <- del_from TOP (value_deleter r && delete_value) t key ;; ret (x.1, mk_radix (Some x.2) (value_deleter r))
  | None => ret (-1, r)
  end.

(** The values that are not NULL, in the order of the loops of [radix_free_node] and
    [__radix_scan]. *)
Fixpoint values (n : nat) : tree n → list Z :=
  match n with
  | O => λ (t : gmap Z Z), filter (λ v, v ≠ 0) (omap (λ i, t !! i) (seqZ 0 RADIX_NODE_SIZE))
  | S m => λ (t : gmap Z (tree m)), omap (λ i, t !! i) (seqZ 0 RADIX_NODE_SIZE) ≫= values m
  end.

Fixpoint free_values (l : list Z) : M H unit :=
  match l with
  | [] => ret tt
  | v :: l' => free v ;; free_values l'
  end.

(** The nodes themselves are not freed, and [root] is not reset. *)
Definition radix_free (r : radix) : M H Z :=
  match root r with
  | None => ret (- EINVAL)
  | Some t => (if value_deleter r then free_values (values TOP t) else ret tt) ;; ret 0
  end.

(** [radix_scan] from key 0: [cb] is called until it returns an error. *)
Fixpoint scan_values {S} (l : list Z) (cb : Z → M S Z) : M S Z :=
  match l with
  | [] => ret 0
  | v :: l' => err <- cb v ;; if err =? 0 then scan_values l' cb else ret err
  end.
Definition radix_scan {S} (r : radix) (cb : Z → M S Z) : M S Z :=
  match root r with None => fault | Some t => scan_values (values TOP t) cb end.

End radix.

(** ** Keys *)

Lemma index_eq key n : 0 ≤ key → index key n = key / 512 ^ Z.of_nat n mod 512.
Proof.
  intros Hk. unfold index, RADIX_NODE_BITS. change (RADIX_NODE_SIZE - 1) with (Z.ones 9).
  rewrite Z.land_ones, Z.shiftr_div_pow2, Z.pow_mul_r by lia. reflexivity.
Qed.

Lemma index_range key n : 0 ≤ index key n < 512.
Proof. unfold index. change (RADIX_NODE_SIZE - 1) with (Z.ones 9). rewrite Z.land_ones by lia. exact (Z.mod_pos_bound _ 512 eq_refl). Qed.

Definition same_key (n : nat) (a b : Z) : Prop := ∀ i, (i ≤ n)%nat → index a i = index b i.

Lemma same_key_S n a b : same_key (S n) a b ↔ index a (S n) = index b (S n) ∧ same_key n a b.
Proof.
  split; [intros H; split; [by apply H|intros i Hi; apply H; lia]|].
  intros [H1 H2] i Hi. destruct (decide (i = S n)) as [->|]; [done|apply H2; lia].
Qed.
Lemma same_key_0 a b : same_key 0 a b ↔ index a 0 = index b 0.
Proof. split; [intros H; by apply H|]. intros H i Hi. by replace i with 0%nat by lia. Qed.

#[export] Instance same_key_dec n a b : Decision (same_key n a b).
Proof.
  induction n as [|n IH]; [refine (cast_if (decide (index a 0 = index b 0))); by rewrite same_key_0|].
  destruct (decide (index a (S n) = index b (S n))), IH; [left|right..]; rewrite same_key_S; tauto.
Defined.

Lemma same_key_mod n a b : 0 ≤ a → 0 ≤ b → same_key n a b ↔ a mod 512 ^ Z.of_nat (S n) = b mod 512 ^ Z.of_nat (S n).
Proof.
  intros Ha Hb. induction n as [|n IH].
  - rewrite same_key_0, !index_eq by done. change (512 ^ Z.of_nat 0) with 1. by rewrite !Z.div_1_r.
  - rewrite same_key_S, IH, !index_eq by done. set (p := 512 ^ Z.of_nat (S n)). assert (0 < p) by (apply Z.pow_pos_nonneg; lia).
    replace (512 ^ Z.of_nat (S (S n))) with (p * 512) by (unfold p; rewrite !Nat2Z.inj_succ, !Z.pow_succ_r by lia; lia).
    rewrite !Z.rem_mul_r by lia. pose proof (Z.mod_pos_bound a p). pose proof (Z.mod_pos_bound b p). split; [intros [-> ->]; done|]. intros E.
    assert (a mod p = b mod p) as E1 by (apply (f_equal (λ x, x mod p)) in E; rewrite !(Z.mul_comm p), !Z.mod_add, !Z.mod_mod in E by lia; done).
    split; [|done]. rewrite E1 in E. nia.
Qed.

(** The keys that the eight indices tell apart. *)
Definition is_key (k : Z) : Prop := 0 ≤ k < 2 ^ 72.

Lemma u64_key k : is_u64 k → is_key k.
Proof. unfold is_u64, is_key. lia. Qed.

Lemma ukey_ext a b : is_key a → is_key b → same_key TOP a b ↔ a = b.
Proof.
  intros Ha Hb. unfold is_key in *. rewrite same_key_mod by lia. change (512 ^ Z.of_nat (S TOP)) with (2 ^ 72).
  by rewrite !Z.mod_small.
Qed.

(** ** The map of a tree *)

Lemma get_new n key : get_from n (new_node n) key = 0.
Proof. by destruct n. Qed.

Section laws.
Context {H : Type} `{!Malloc H}.
Implicit Types h : H.

(** What an operation on the map [f] does when it sets [key] to [v]. *)
Definition updates (n : nat) (t t' : tree n) (key v : Z) : Prop :=
  ∀ b, get_from n t' b = if decide (same_key n key b) then v else get_from n t b.
Definition unchanged (n : nat) (t t' : tree n) : Prop := ∀ b, get_from n t' b = get_from n t b.

Lemma put_updates m (t : gmap Z (tree m)) (c c' : tree m) key v :
  (∀ b, index key (S m) = index b (S m) → get_from (S m) t b = get_from m c b) → updates m c c' key v → updates (S m) t (<[index key (S m) := c']> t) key v.
Proof.
  intros Hc Hu b. cbn [get_from]. destruct (decide (index key (S m) = index b (S m))) as [E|N].
  - rewrite E, lookup_insert_eq, Hu, <- (Hc b E). destruct (decide (same_key m key b)) as [S|S].
    + by rewrite decide_True by (by apply same_key_S).
    + rewrite decide_False by (intros [_ ?]%same_key_S; done). done.
  - rewrite lookup_insert_ne by done. by rewrite decide_False by (intros [? _]%same_key_S; done).
Qed.

Lemma put_unchanged m (t : gmap Z (tree m)) (c c' : tree m) key :
  (∀ b, index key (S m) = index b (S m) → get_from (S m) t b = get_from m c b) → unchanged m c c' → unchanged (S m) t (<[index key (S m) := c']> t).
Proof.
  intros Hc Hu b. cbn [get_from]. destruct (decide (index key (S m) = index b (S m))) as [E|N].
  - rewrite E, lookup_insert_eq, Hu, <- (Hc b E). done.
  - by rewrite lookup_insert_ne by done.
Qed.

Lemma add_from_spec n (t : tree n) key v h D : live h D → ∃ e t' h' D', add_from n t key v h = Done (e, t') h' ∧
  live h' D' ∧ D ⊆ D' ∧ ((e = 0 ∧ updates n t t' key v) ∨ (e = - ENOMEM ∧ unchanged n t t')) ∧
  (∀ k, room h (n + k) → e = 0 ∧ room h' k).
Proof.
  revert t h D. induction n as [|m IH]; intros t h D HD; cbn [add_from].
  - cbn [tree] in t. exists 0, (<[index key 0 := v]> t), h, D. split_and!; [done..| |intros k Hk; done]. left. split; [done|]. intros b. cbn [get_from].
    destruct (decide (same_key 0 key b)) as [S|S]; rewrite same_key_0 in S; [by rewrite S, lookup_insert_eq|by rewrite lookup_insert_ne].
  - cbv zeta. cbn [tree] in t. destruct (t !! index key (S m)) as [c|] eqn:Ec.
    + destruct (IH c h D HD) as (e & c' & h' & D' & E & HL & HS & Hc & Hr). erewrite bind_Done by exact E.
      assert (∀ b, index key (S m) = index b (S m) → get_from (S m) t b = get_from m c b) as HG by (intros b Eb; cbn [get_from]; by rewrite <- Eb, Ec).
      exists e, (<[index key (S m) := c']> t), h', D'. split_and!; [done..| |].
      * destruct Hc as [[-> Hc]|[-> Hc]]; [left|right]; (split; [done|]); [by eapply put_updates|by eapply put_unchanged].
      * intros k Hk. apply Hr, room_less, Hk.
    + assert (∀ b, index key (S m) = index b (S m) → get_from (S m) t b = get_from m (new_node m) b) as HG
        by (intros b Eb; cbn [get_from]; by rewrite <- Eb, Ec, get_new).
      destruct (malloc_ok h D SIZEOF_RADIX_NODE HD) as (p & h1 & E1 & [[-> H1]|(Hp & Np & H1)]); erewrite bind_Done by exact E1.
      * exists (- ENOMEM), t, h1, D. split_and!; [done..|right; by split; [|intros ?]|]. intros k Hk. by destruct (malloc_room _ _ _ _ _ Hk E1).
      * rewrite (proj2 (Z.eqb_neq _ _)) by lia. destruct (IH (new_node m) h1 _ H1) as (e & c' & h' & D' & E & HL & HS & Hc & Hr).
        erewrite bind_Done by exact E. exists e, (<[index key (S m) := c']> t), h', D'. split_and!; [done|done|set_solver| |].
        -- destruct Hc as [[-> Hc]|[-> Hc]]; [left|right]; (split; [done|]); [by eapply put_updates|by eapply put_unchanged].
        -- intros k Hk. apply Hr. by destruct (malloc_room _ _ _ _ _ Hk E1).
Qed.

Lemma del_from_spec n (t : tree n) key del h D : live h D → (get_from n t key = 0 ∨ get_from n t key ∈ D) →
  ∃ e t' h' D', del_from n del t key h = Done (e, t') h' ∧ live h' D' ∧ updates n t t' key 0 ∧ (get_from n t key ≠ 0 → e = 0) ∧
  D' = (if del then D ∖ {[get_from n t key]} else D) ∧ (∀ k, room h k → room h' k).
Proof.
  intros HD. revert t. induction n as [|m IH]; intros t Hv; cbn [del_from].
  - cbn [tree] in t. assert (∃ h', (if del then free (default 0 (t !! index key 0)) else ret tt) h = Done tt h' ∧
      live h' (if del then D ∖ {[get_from 0 t key]} else D) ∧ ∀ k, room h k → room h' k) as (h' & E & HL & Hr).
    { destruct del; [|by exists h]. cbn [get_from] in *. destruct Hv as [Hv|Hv].
      - exists h. rewrite Hv. split_and!; [apply free_null| |done]. assert (0 ∉ D) by (intros ?%(live_pos _ _ _ HD); lia).
        by replace (D ∖ {[0]}) with D by set_solver.
      - destruct (free_ok h D _ HD Hv) as (h' & E & HL). exists h'. split_and!; [done..|]. intros k Hk. by eapply free_room. }
    erewrite bind_Done by exact E. eexists 0, _, h', _. split_and!; [done|exact HL| |done|done|done].
    intros b. cbn [get_from]. destruct (decide (same_key 0 key b)) as [S|S]; rewrite same_key_0 in S; [by rewrite S, lookup_delete_eq|by rewrite lookup_delete_ne].
  - cbv zeta. cbn [tree] in t. cbn [get_from] in *. destruct (t !! index key (S m)) as [c|] eqn:Ec.
    + assert (∀ b, index key (S m) = index b (S m) → get_from (S m) t b = get_from m c b) as HG by (intros b Eb; cbn [get_from]; by rewrite <- Eb, Ec).
      destruct (IH c Hv) as (e & c' & h' & D' & E & HL & Hu & He & Hd & Hr). erewrite bind_Done by exact E.
      exists e, (<[index key (S m) := c']> t), h', D'. split_and!; [done|done|by eapply put_updates|done..].
    + exists (-1), t, h, D. split_and!; [done|done| |done| |done].
      * intros b. cbn [get_from]. destruct (decide (same_key (S m) key b)) as [[E _]%same_key_S|]; [by rewrite <- E, Ec|done].
      * destruct del; [|done]. assert (0 ∉ D) by (intros ?%(live_pos _ _ _ HD); lia). set_solver.
Qed.

(** The map a tree is. *)
Implicit Types r : radix.

Lemma uradix_add_ok r key v h D : is_key key → live h D → ∃ e r' h' D', radix_add r key v h = Done (e, r') h' ∧
  live h' D' ∧ D ⊆ D' ∧ value_deleter r' = value_deleter r ∧
  ((e = 0 ∧ ∀ b, is_key b → radix_get r' b = if decide (key = b) then v else radix_get r b) ∨
   (e = - ENOMEM ∧ ∀ b, is_key b → radix_get r' b = radix_get r b)) ∧
  (∀ k, room h (8 + k) → e = 0 ∧ room h' k).
Proof.
  intros Hk HD. assert (∀ t, root r = Some t ∨ (root r = None ∧ t = new_node TOP) → ∀ b, radix_get r b = get_from TOP t b) as HG.
  { intros t [E|[E ->]] b; unfold radix_get; by rewrite E, ?get_new. }
  assert (∀ t h1 D1, root r = Some t ∨ (root r = None ∧ t = new_node TOP) → live h1 D1 → D ⊆ D1 → (∀ k, room h (8 + k) → room h1 (7 + k)) →
    ∃ e r' h' D', (x <- add_from TOP t key v ;; ret (x.1, mk_radix (Some x.2) (value_deleter r))) h1 = Done (e, r') h' ∧
    live h' D' ∧ D ⊆ D' ∧ value_deleter r' = value_deleter r ∧
    ((e = 0 ∧ ∀ b, is_key b → radix_get r' b = if decide (key = b) then v else radix_get r b) ∨
     (e = - ENOMEM ∧ ∀ b, is_key b → radix_get r' b = radix_get r b)) ∧
    (∀ k, room h (8 + k) → e = 0 ∧ room h' k)) as Main.
  { intros t h1 D1 Ht HD1 HS1 Hr1. destruct (add_from_spec TOP t key v h1 D1 HD1) as (e & t' & h' & D' & E & HL & HS & Hc & Hr). erewrite bind_Done by exact E.
    eexists e, _, h', D'. split_and!; [reflexivity|exact HL|by transitivity D1|reflexivity| |exact (λ k Hk', Hr k (Hr1 k Hk'))].
    destruct Hc as [[-> Hc]|[-> Hc]]; [left|right]; (split; [done|]); intros b Hb; rewrite (HG t Ht b); unfold radix_get at 1; cbn [root]; rewrite Hc; [|done].
    apply decide_ext. by apply ukey_ext. }
  unfold radix_add. destruct (root r) as [t|] eqn:Er.
  - apply (Main t h D); [by left|done|done|intros k; apply room_less].
  - destruct (malloc_ok h D SIZEOF_RADIX_NODE HD) as (p & h1 & E1 & [[-> H1]|(Hp & Np & H1)]); erewrite bind_Done by exact E1.
    + exists (- ENOMEM), r, h1, D. split_and!; [done..|by right|]. intros k Hk'. by destruct (malloc_room _ _ _ _ _ Hk' E1).
    + rewrite (proj2 (Z.eqb_neq _ _)) by lia. apply (Main (new_node TOP) h1 ({[p]} ∪ D)); [by right|exact H1|apply union_subseteq_r|].
      intros k Hk'. by destruct (malloc_room _ _ _ _ _ Hk' E1).
Qed.

Lemma uradix_del_ok r key del h D : is_key key → live h D → (radix_get r key = 0 ∨ radix_get r key ∈ D) →
  ∃ e r' h' D', radix_del r key del h = Done (e, r') h' ∧ live h' D' ∧ value_deleter r' = value_deleter r ∧
  (∀ b, is_key b → radix_get r' b = if decide (key = b) then 0 else radix_get r b) ∧ (radix_get r key ≠ 0 → e = 0) ∧
  D' = (if value_deleter r && del then D ∖ {[radix_get r key]} else D) ∧ (∀ k, room h k → room h' k).
Proof.
  intros Hk HD. unfold radix_del, radix_get at 1 2. destruct (root r) as [t|] eqn:Er; intros Hv.
  - destruct (del_from_spec TOP t key (value_deleter r && del) h D HD Hv) as (e & t' & h' & D' & E & HL & Hu & He & HD' & Hr). erewrite bind_Done by exact E.
    exists e, (mk_radix (Some t') (value_deleter r)), h', D'. unfold radix_get. rewrite Er. cbn [root]. split_and!; [reflexivity|exact HL|reflexivity| |exact He|exact HD'|exact Hr]. intros b Hb. rewrite Hu. apply decide_ext. by apply ukey_ext.
  - exists (-1), r, h, D. unfold radix_get. rewrite Er. split_and!; [reflexivity|exact HD|reflexivity|intros b _; by case_decide|intros N; by destruct N| |done].
    assert (0 ∉ D) by (intros ?%(live_pos _ _ _ HD); lia). destruct (value_deleter r && del); set_solver.
Qed.

Lemma init_radix_ok h D : live h D → init_radix_w_deleter h = Halt ∨ ∃ r h' D', init_radix_w_deleter h = Done r h' ∧ live h' D' ∧ D ⊆ D' ∧
  value_deleter r = true ∧ (∀ b, radix_get r b = 0) ∧ ∀ k, room h (1 + k) → room h' k.
Proof.
  intros HD. unfold init_radix_w_deleter. destruct (malloc_ok h D SIZEOF_RADIX_NODE HD) as (p & h1 & E1 & [[-> H1]|(Hp & Np & H1)]);
    erewrite bind_Done by exact E1; [by left|right]. rewrite (proj2 (Z.eqb_neq _ _)) by lia.
  eexists _, h1, _. split_and!; [reflexivity|exact H1|apply union_subseteq_r|reflexivity|intros b; unfold radix_get; cbn [root]; apply get_new|].
  intros k Hk. by destruct (malloc_room _ _ _ _ _ Hk E1).
Qed.

End laws.

(** ** The order of the values *)

Lemma get_from_ext n (t : tree n) a b : same_key n a b → get_from n t a = get_from n t b.
Proof.
  induction n as [|m IH]; cbn [get_from]; [intros E; by rewrite (proj1 (same_key_0 a b) E)|].
  intros [-> Sm]%same_key_S. cbn [tree] in t. destruct (t !! index b (S m)); [by apply IH|done].
Qed.

Lemma index_top m i k : 0 ≤ i < 512 → 0 ≤ k < 512 ^ Z.of_nat (S m) → index (i * 512 ^ Z.of_nat (S m) + k) (S m) = i.
Proof.
  intros Hi Hk. rewrite index_eq by nia. rewrite Z.div_add_l by nia. rewrite (Z.div_small k) by done. rewrite Z.add_0_r. by apply Z.mod_small.
Qed.
Lemma same_low m i k : 0 ≤ i → 0 ≤ k → same_key m (i * 512 ^ Z.of_nat (S m) + k) k.
Proof. intros Hi Hk. apply same_key_mod; [nia|done|]. rewrite Z.add_comm. apply Z.mod_add. lia. Qed.

(** [ks] are the keys of the values [vs], in ascending order. *)
Definition enumerates (f : Z → Z) (lo hi : Z) (ks vs : list Z) : Prop :=
  StronglySorted Z.lt ks ∧ (∀ k, k ∈ ks → lo ≤ k < hi) ∧ vs = map f ks ∧ ∀ k, lo ≤ k < hi → f k ≠ 0 ↔ k ∈ ks.

Lemma enumerates_app f a b c ks ks' vs vs' : a ≤ b ≤ c → enumerates f a b ks vs → enumerates f b c ks' vs' → enumerates f a c (ks ++ ks') (vs ++ vs').
Proof.
  intros Hab (S1 & R1 & -> & I1) (S2 & R2 & -> & I2). split_and!.
  - apply StronglySorted_app_2; [|done|done]. intros x y ?%R1 ?%R2. lia.
  - intros k [?%R1|?%R2]%elem_of_app; lia.
  - by rewrite map_app.
  - intros k Hk. rewrite elem_of_app. destruct (decide (k < b)) as [L|L].
    + rewrite I1 by lia. split; [by left|intros [?|?%R2]; [done|lia]].
    + rewrite I2 by lia. split; [by right|intros [?%R1|?]; [lia|done]].
Qed.

Lemma enumerates_one f (k : Z) : enumerates f k (k + 1) (if decide (f k = 0) then [] else [k]) (if decide (f k = 0) then [] else [f k]).
Proof.
  case_decide as E; (split_and!; [repeat constructor| |done|]); intros k'.
  - set_solver.
  - intros ?. assert (k' = k) as -> by lia. set_solver.
  - intros ->%list_elem_of_singleton. lia.
  - intros ?. assert (k' = k) as -> by lia. set_solver.
Qed.

Lemma enumerates_nil f a b : a ≤ b → (∀ k, a ≤ k < b → f k = 0) → enumerates f a b [] [].
Proof. intros Hab Hf. split_and!; [constructor|set_solver|done|]. intros k Hk. rewrite (Hf k Hk). set_solver. Qed.

(** A child of index [i], whose keys start at [i * w]. *)
Lemma enumerates_shift f g w i ks vs : 0 ≤ i → (∀ k, 0 ≤ k < w → f (i * w + k) = g k) → enumerates g 0 w ks vs →
  enumerates f (i * w) ((i + 1) * w) (map (λ k, i * w + k) ks) vs.
Proof.
  intros Hi Hf (S1 & R1 & -> & I1). split_and!.
  - clear R1 I1. induction S1 as [|k ks _ IH F]; cbn [map]; constructor; [done|]. apply Forall_map. eapply Forall_impl; [exact F|]. cbn. lia.
  - intros k (k' & -> & ?%R1)%list_elem_of_fmap. lia.
  - rewrite map_map. apply map_ext_in. intros k Hk%list_elem_of_In. symmetry. by apply Hf, R1.
  - intros k Hk. replace k with (i * w + (k - i * w)) at 1 by lia. rewrite Hf, I1 by lia. rewrite list_elem_of_fmap. split.
    + intros ?. exists (k - i * w). split; [lia|done].
    + intros (k' & -> & ?). by replace (i * w + k' - i * w) with k' by lia.
Qed.

(** The loop over the children. *)
Lemma enumerates_loop f w (c : Z → list Z) (n : nat) i : 0 ≤ i → 0 < w → (∀ j, i ≤ j < i + Z.of_nat n → ∃ ks, enumerates f (j * w) ((j + 1) * w) ks (c j)) →
  ∃ ks, enumerates f (i * w) ((i + Z.of_nat n) * w) ks (seqZ i (Z.of_nat n) ≫= c).
Proof.
  intros Hi Hw. revert i Hi. induction n as [|n IH]; intros i Hi Hc.
  - exists []. replace (seqZ i (Z.of_nat 0)) with (@nil Z) by done. apply enumerates_nil; intros; lia.
  - rewrite Nat2Z.inj_succ, seqZ_cons by lia. replace (Z.pred (Z.succ (Z.of_nat n))) with (Z.of_nat n) by lia.
    destruct (Hc i) as (ks & E1); [lia|]. destruct (IH (Z.succ i)) as (ks' & E2); [lia|intros j Hj; apply Hc; lia|].
    exists (ks ++ ks'). cbn [mbind list_bind]. apply (enumerates_app f _ ((i + 1) * w)); [nia|done|].
    by replace ((i + Z.succ (Z.of_nat n)) * w) with ((Z.succ i + Z.of_nat n) * w) by lia.
Qed.

Lemma omap_bind {A B} (f : Z → option A) (g : A → list B) l : omap f l ≫= g = l ≫= (λ i, match f i with Some c => g c | None => [] end).
Proof. induction l as [|i l IH]; [done|]. cbn. destruct (f i); cbn; by rewrite <- IH. Qed.

Lemma values_spec n (t : tree n) : ∃ ks, enumerates (get_from n t) 0 (512 ^ Z.of_nat (S n)) ks (values n t).
Proof.
  induction n as [|m IH]; cbn [tree] in t; cbn [values].
  - assert (∀ l, filter (λ v, v ≠ 0) (omap (λ i, t !! i) l) = l ≫= (λ i, if decide (default 0 (t !! i) = 0) then [] else [default 0 (t !! i)])) as ->.
    { induction l as [|i l IH]; [done|]. rewrite bind_cons, <- IH. cbn [omap list_omap]. destruct (t !! i) as [v|]; [|done]. rewrite filter_cons. cbn [default]. by repeat case_decide. }
    destruct (enumerates_loop (get_from 0 t) 1 (λ i, if decide (default 0 (t !! i) = 0) then [] else [default 0 (t !! i)]) 512 0) as (ks & E); [lia..| |by exists ks].
    intros j Hj. pose proof (enumerates_one (get_from 0 t) j) as E1. assert (get_from 0 t j = default 0 (t !! j)) as Ej.
    { cbn [get_from]. rewrite index_eq by lia. change (512 ^ Z.of_nat 0) with 1. by rewrite Z.div_1_r, Z.mod_small by lia. }
    rewrite Ej in E1. exists (if decide (default 0 (t !! j) = 0) then [] else [j]). by rewrite !Z.mul_1_r.
  - rewrite omap_bind. pose (w := 512 ^ Z.of_nat (S m)). assert (0 < w) by (apply Z.pow_pos_nonneg; lia).
    destruct (enumerates_loop (get_from (S m) t) w (λ i, match t !! i with Some c => values m c | None => [] end) 512 0) as (ks & E); [lia|done| |].
    + intros j Hj. destruct (t !! j) as [c|] eqn:Ec.
      * destruct (IH c) as (ks & E). eexists. apply (enumerates_shift _ (get_from m c)); [lia| |exact E].
        intros k Hk. cbn [get_from]. unfold w. rewrite index_top, Ec by (done || lia). apply get_from_ext, same_low; lia.
      * exists []. apply enumerates_nil; [nia|]. intros k Hk. cbn [get_from]. replace k with (j * w + (k - j * w)) by lia.
        unfold w. rewrite index_top; [by rewrite Ec|lia|fold w; lia].
    + exists ks. replace (512 ^ Z.of_nat (S (S m))) with ((0 + Z.of_nat 512) * w); [done|].
      unfold w. rewrite !(Nat2Z.inj_succ), !Z.pow_succ_r by lia. lia.
Qed.

(** ** The whole tree *)

Section whole.
Context {H : Type} `{!Malloc H}.
Implicit Types h : H.

Lemma free_values_ok l h D : live h D → NoDup l → (∀ v, v ∈ l → v ∈ D) →
  ∃ h', free_values l h = Done tt h' ∧ live h' (D ∖ list_to_set l) ∧ ∀ k, room h k → room h' k.
Proof.
  revert h D. induction l as [|v l IH]; intros h D HD HN HS; cbn [free_values].
  - exists h. split_and!; [done| |done]. by replace (D ∖ list_to_set []) with D by set_solver.
  - apply NoDup_cons in HN as [Nv HN]. destruct (free_ok h D v HD) as (h1 & E1 & L1); [by apply HS, list_elem_of_here|].
    destruct (IH h1 _ L1 HN) as (h' & E & HL & Hr); [intros u Hu; specialize (HS u); set_solver|].
    exists h'. erewrite bind_Done by exact E1. split_and!; [done| |intros k Hk; by eapply Hr, free_room].
    by replace (D ∖ list_to_set (v :: l)) with (D ∖ {[v]} ∖ list_to_set l) by set_solver.
Qed.

(** The values of a tree, by their keys. *)
Definition values_of (r : radix) : list Z := match root r with Some t => values TOP t | None => [] end.

Lemma values_of_spec r : ∃ ks, enumerates (radix_get r) 0 (2 ^ 72) ks (values_of r).
Proof.
  unfold values_of, radix_get. destruct (root r) as [t|]; [|exists []; by apply enumerates_nil].
  destruct (values_spec TOP t) as (ks & E). by exists ks.
Qed.

Definition distinct (r : radix) : Prop := ∀ a b, is_key a → is_key b → radix_get r a ≠ 0 → radix_get r a = radix_get r b → a = b.

Lemma values_elem r v : v ∈ values_of r ↔ v ≠ 0 ∧ ∃ k, is_key k ∧ radix_get r k = v.
Proof.
  destruct (values_of_spec r) as (ks & _ & HR & -> & HI). rewrite list_elem_of_fmap. split.
  - intros (k & -> & Hk). split; [by apply HI; [apply HR|]|]. exists k. split; [by apply HR|done].
  - intros (Hv & k & Hk & <-). exists k. split; [done|by apply HI].
Qed.

Lemma values_nodup r : distinct r → NoDup (values_of r).
Proof.
  intros HD. destruct (values_of_spec r) as (ks & HS & HR & -> & HI). apply NoDup_fmap_2_strong.
  - intros a b Ha Hb E. apply HD; [by apply HR|by apply HR| |done]. by apply HI; [apply HR|].
  - clear HI HR. induction HS as [|k ks _ IH HF]; constructor; [|done]. intros Hk. rewrite Forall_forall in HF. apply HF in Hk. lia.
Qed.

(** [radix_free] frees the values, every one once, and nothing else. *)
Lemma uradix_free_ok r h D : root r ≠ None → value_deleter r = true → live h D → distinct r →
  (∀ k, is_key k → radix_get r k = 0 ∨ radix_get r k ∈ D) →
  ∃ h', radix_free r h = Done 0 h' ∧ live h' (D ∖ list_to_set (values_of r)) ∧ ∀ k, room h k → room h' k.
Proof.
  intros Hr Hd HD Hdi HV. unfold radix_free. pose proof (values_nodup r Hdi) as HN. pose proof (values_elem r) as HE.
  unfold values_of in *. destruct (root r) as [t|]; [|done]. rewrite Hd. destruct (free_values_ok (values TOP t) h D HD HN) as (h' & E & HL & Hro).
  - intros v (Hv & k & Hk & <-)%HE. by destruct (HV k Hk).
  - exists h'. by erewrite bind_Done by exact E.
Qed.

End whole.

(** A heap of [fst] to [snd], to run the clients on: it never reuses memory. *)
#[export] Instance arena : Malloc (Z * Z).
Proof.
  refine (Build_Malloc _ (λ s D, 0 < s.1 ∧ ∀ p, p ∈ D → 0 < p < s.1) (λ s k, 0 < s.1 ∧ s.1 + 2 ^ 13 * Z.of_nat k ≤ s.2)
    (λ size s, let n := Z.max 1 (Z.min size (2 ^ 13)) in if s.1 + n <=? s.2 then Done s.1 (s.1 + n, s.2) else Done 0 s)
    (λ p s, Done tt s) _ _ _ _ _ _ _).
  - intros [a b] D size [H1 H2]. cbn [fst snd] in *. cbv zeta. destruct (Z.leb_spec (a + Z.max 1 (Z.min size (2 ^ 13))) b) as [L|L].
    + eexists _, _. split; [done|right]. cbn [fst snd]. split_and!; [done|intros ?%H2; lia|lia|]. intros p [->%elem_of_singleton|?%H2]%elem_of_union; lia.
    + eexists _, _. split; [done|by left].
  - intros [a b] size k p s' [H0 H1] E. cbn [fst snd] in *. cbv zeta in E. destruct (Z.leb_spec (a + Z.max 1 (Z.min size (2 ^ 13))) b) as [L|L]; [|lia].
    simplify_eq. cbn [fst snd]. lia.
  - intros [a b] k [H0 H1]. cbn [fst snd] in *. lia.
  - intros [a b] D p [H1 H2] Hp. exists (a, b). split; [done|]. cbn [fst snd] in *. split; [done|]. intros q Hq. apply H2. set_solver.
  - done.
  - intros s p k s' Hr E. by simplify_eq.
  - intros s D p [_ H2] Hp. by apply H2.
Defined.

End URadix.
