(* ===== verification/TmpFile.v ===== *)
(** * Files of the memory file system (user/tmpfs/util.c, tmpfs.c)

    A file is an inode with a size and a radix tree of pages.  Offsets without a
    page read as zeros.  A page is a block of [PAGE_SIZE] bytes from [malloc], whose
    first contents [junk] are unknown.  File data that is passed in a buffer is the
    list of its bytes.

    [content] is the file as the list of its bytes; the theorems say how reading,
    writing and truncating act on it. *)

From S2P Require Import Prelude URadix.

Module TmpFile.

Import URadix(Malloc, live, room, malloc, free, radix, radix_get, is_key).

Definition PAGE_SIZE : Z := 4096.
Definition FS_REG : Z := 1.
Definition FS_DIR : Z := 2.
Definition FS_SYM : Z := 3.
Definition EBADF : Z := 9.
Definition EISDIR : Z := 21.
Definition EINVAL : Z := 22.
Definition ENOSPC : Z := 28.
Definition EOPNOTSUPP : Z := 95.

(** [nlinks], [mode] and the address array are not used here; the hash table of a
    directory, which shares its place with [data], is in the model of directories. *)
Record inode := mk_inode { refcnt : Z; type : Z; size : Z; data : radix }.

Definition with_refcnt (v : Z) (i : inode) : inode := mk_inode v (type i) (size i) (data i).
Definition with_size (v : Z) (i : inode) : inode := mk_inode (refcnt i) (type i) v (data i).
Definition with_data (d : radix) (i : inode) : inode := mk_inode (refcnt i) (type i) (size i) d.

Section files.
Context {H : Type} `{!Malloc H} (junk : Z → list Z).

Record state := mk_state { heap : H; pages : gmap Z (list Z); inodes : gmap Z inode }.

Abbreviation MF := (M state).

Definition with_heap (h : H) (s : state) : state := mk_state h (pages s) (inodes s).
Definition with_pages (f : gmap Z (list Z) → gmap Z (list Z)) (s : state) : state := mk_state (heap s) (f (pages s)) (inodes s).
Definition with_inodes (f : gmap Z inode → gmap Z inode) (s : state) : state := mk_state (heap s) (pages s) (f (inodes s)).

Definition on_heap {X} (m : M H X) : MF X := zoom heap with_heap m.
Definition inode_at (p : Z) : MF inode := s <- get ;; need (inodes s !! p).
Definition set_inode (p : Z) (f : inode → inode) : MF unit := i <- inode_at p ;; modify (with_inodes (<[p := f i]>)).

(** [malloc] and [aligned_alloc] of a page *)
Definition new_page : MF Z :=
  p <- on_heap (malloc PAGE_SIZE) ;;
  if p =? 0 then ret 0 else modify (with_pages (<[p := junk p]>)) ;; ret p.

(** [memcpy] and [memset] at [off] of a page *)
Definition page_store (page off : Z) (l : list Z) : MF unit :=
  s <- get ;;
  b <- need (pages s !! page) ;;
  if off + Z.of_nat (length l) <=? PAGE_SIZE then modify (with_pages (<[page := list_inserts (Z.to_nat off) l b]>)) else fault.
Definition page_load (page off n : Z) : MF (list Z) :=
  s <- get ;;
  b <- need (pages s !! page) ;;
  if off + n <=? PAGE_SIZE then ret (take (Z.to_nat n) (drop (Z.to_nat off) b)) else fault.

(** The operations on [inode->data]; the deleter of the tree frees pages. *)
Definition data_add (ino key page : Z) : MF Z :=
  i <- inode_at ino ;;
  x <- on_heap (URadix.radix_add (data i) key page) ;;
  set_inode ino (with_data x.2) ;; ret x.1.
Definition data_del (ino key : Z) (delete_value : bool) : MF Z :=
  i <- inode_at ino ;;
  x <- on_heap (URadix.radix_del (data i) key delete_value) ;;
  set_inode ino (with_data x.2) ;;
  modify (with_pages (if URadix.value_deleter (data i) && delete_value then delete (radix_get (data i) key) else id)) ;;
  ret x.1.
Definition data_free (ino : Z) : MF Z :=
  i <- inode_at ino ;;
  modify (with_pages (λ m, foldr delete m (URadix.values_of (data i)))) ;;
  on_heap (URadix.radix_free (data i)).
Definition data_init (ino : Z) : MF unit := d <- on_heap URadix.init_radix_w_deleter ;; set_inode ino (with_data d).

(** The page for [page_no]: the one in the tree, or else a new one. *)
Definition page_for (ino page_no : Z) : MF Z :=
  i <- inode_at ino ;;
  let page := radix_get (data i) page_no in
  if page =? 0 then
    page <- new_page ;;
    if page =? 0 then ret 0 else data_add ino page_no page ;; ret page
  else ret page.

(** The number of pages that [n] bytes from [off] on touch. *)
Definition npages (off n : Z) : nat := Z.to_nat ((off mod PAGE_SIZE + n + PAGE_SIZE - 1) / PAGE_SIZE).

(** The loop of [tfs_file_write]: [inl] for the return in the middle. *)
Fixpoint write_pages (fuel : nat) (ino cur_off : Z) (buf : list Z) (page : Z) : MF (Z + Z * Z) :=
  match buf with
  | [] => ret (inr (cur_off, page))
  | _ =>
      match fuel with
      | O => λ _, Spin
      | S k =>
          let page_no := cur_off / PAGE_SIZE in
          let page_off := cur_off mod PAGE_SIZE in
          page <- page_for ino page_no ;;
          if page =? 0 then ret (inl cur_off)
          else
            let to_write := Z.min (Z.of_nat (length buf)) (PAGE_SIZE - page_off) in
            page_store page page_off (take (Z.to_nat to_write) buf) ;;
            write_pages k ino (u64 (cur_off + to_write)) (drop (Z.to_nat to_write) buf) page
      end
  end.

(** The new end of the file: the rest of the last page is cleared. *)
Definition extend (ino cur page : Z) : MF unit :=
  i <- inode_at ino ;;
  if size i <? cur then
    set_inode ino (with_size cur) ;;
    let page_off := cur mod PAGE_SIZE in
    if negb (page_off =? 0) && negb (page =? 0) then page_store page page_off (replicate (Z.to_nat (PAGE_SIZE - page_off)) 0) else ret tt
  else ret tt.

Definition tfs_file_write (ino offset : Z) (buf : list Z) : MF Z :=
  i <- inode_at ino ;;
  BUG_ON (type i =? FS_DIR) ;;
  BUG_ON (size i <? u64 offset) ;;
  r <- write_pages (npages (u64 offset) (Z.of_nat (length buf))) ino (u64 offset) buf 0 ;;
  match r with
  | inl cur_off => ret (s64 (cur_off - offset))
  | inr (cur_off, page) =>
      extend ino cur_off page ;;
      ret (s64 (cur_off - offset))
  end.

(** The loop of [tfs_file_read]: what is stored in the buffer, and [cur_off]. *)
Fixpoint read_pages (fuel : nat) (ino cur_off n : Z) : MF (list Z * Z) :=
  i <- inode_at ino ;;
  if (0 <? n) && (cur_off <=? size i) then
    match fuel with
    | O => λ _, Spin
    | S k =>
        let page_no := cur_off / PAGE_SIZE in
        let page_off := cur_off mod PAGE_SIZE in
        let page := radix_get (data i) page_no in
        let to_read := Z.min n (PAGE_SIZE - page_off) in
        l <- (if page =? 0 then ret (replicate (Z.to_nat to_read) 0) else page_load page page_off to_read) ;;
        r <- read_pages k ino (u64 (cur_off + to_read)) (n - to_read) ;;
        ret (l ++ r.1, r.2)
    end
  else ret ([], cur_off).

(** The result and the bytes in the buffer. *)
Definition tfs_file_read (ino offset n : Z) : MF (Z * list Z) :=
  i <- inode_at ino ;;
  BUG_ON (type i =? FS_DIR) ;;
  if size i <=? u64 offset then ret (0, [])
  else
    let n := Z.min (size i - u64 offset) n in
    r <- read_pages (npages (u64 offset) n) ino (u64 offset) n ;;
    ret (s64 (r.2 - offset), r.1).

(** The loop of [tfs_truncate]. *)
Fixpoint drop_pages (fuel : nat) (ino cur_off : Z) : MF unit :=
  i <- inode_at ino ;;
  if cur_off <? size i then
    match fuel with
    | O => λ _, Spin
    | S k => data_del ino (cur_off / PAGE_SIZE) true ;; drop_pages k ino (cur_off + PAGE_SIZE)
    end
  else ret tt.

(** The branch of [tfs_truncate] for a smaller size: the rest of the last page is
    cleared, and the pages behind it are freed. *)
Definition shrink (ino : Z) (i : inode) (n : Z) : MF unit :=
  let page := radix_get (data i) (n / PAGE_SIZE) in
  let page_off := n mod PAGE_SIZE in
  let to_write := Z.min (size i - n) (PAGE_SIZE - page_off) in
  cur_off <- (if page_off =? 0 then ret n
              else if page =? 0 then ret n
              else page_store page page_off (replicate (Z.to_nat to_write) 0) ;; ret (n + to_write)) ;;
  drop_pages (npages 0 (size i)) ino cur_off.

Definition tfs_truncate (ino n : Z) : MF Z :=
  i <- inode_at ino ;;
  BUG_ON (negb (type i =? FS_REG)) ;;
  if n =? 0 then
    (data_free ino ;; data_init ino) ;; set_inode ino (with_size 0) ;; ret 0
  else if size i <? n then set_inode ino (with_size n) ;; ret 0
  else if n <? size i then
    shrink ino i n ;;
    set_inode ino (with_size n) ;; ret 0
  else ret 0.

(** The loop of [tfs_allocate]; the result is 0 or the error. *)
Fixpoint alloc_pages (fuel : nat) (ino cur_off end_off : Z) : MF Z :=
  if cur_off <? end_off then
    match fuel with
    | O => λ _, Spin
    | S k =>
        let page_no := cur_off / PAGE_SIZE in
        i <- inode_at ino ;;
        err <- (if radix_get (data i) page_no =? 0 then
                  page <- new_page ;;
                  if page =? 0 then ret (- ENOSPC)
                  else
                    err <- data_add ino page_no page ;;
                    if negb (err =? 0) then ret (- ENOSPC) else page_store page 0 (replicate (Z.to_nat PAGE_SIZE) 0) ;; ret 0
                else ret 0) ;;
        if negb (err =? 0) then ret err else alloc_pages k ino (u64 (cur_off + PAGE_SIZE)) end_off
    end
  else ret 0.

(** For a directory the loop takes its hash table for a tree. *)
Definition tfs_allocate (ino offset len : Z) (keep_size : bool) : MF Z :=
  i <- inode_at ino ;;
  BUG_ON (negb (type i =? FS_DIR) && negb (type i =? FS_REG)) ;;
  if (type i =? FS_DIR) && (u64 offset <? u64 (offset + len)) then fault
  else
    err <- alloc_pages (npages 0 len) ino (u64 offset) (u64 (offset + len)) ;;
    if negb (err =? 0) then ret err
    else
      i <- inode_at ino ;;
      (if (size i <? u64 (offset + len)) && negb keep_size then set_inode ino (with_size (u64 (offset + len))) else ret tt) ;;
      ret 0.

(** The loop of [fs_punch_hole]; [err] starts uninitialised. *)
Fixpoint punch_pages (fuel : nat) (ino cur_off len err : Z) : MF Z :=
  if 0 <? len then
    match fuel with
    | O => λ _, Spin
    | S k =>
        let page_no := cur_off / PAGE_SIZE in
        let page_off := cur_off mod PAGE_SIZE in
        let to_remove := Z.min len (PAGE_SIZE - page_off) in
        let cur_off := u64 (cur_off + to_remove) in
        i <- inode_at ino ;;
        let page := radix_get (data i) page_no in
        if page =? 0 then punch_pages k ino cur_off (len - to_remove) err
        else
          err <- (if (to_remove =? PAGE_SIZE) || (cur_off =? size i) then data_del ino page_no true
                  else page_store page page_off (replicate (Z.to_nat to_remove) 0) ;; ret err) ;;
          if negb (err =? 0) then ret err else punch_pages k ino cur_off (len - to_remove) err
    end
  else ret 0.
Definition fs_punch_hole (err0 ino offset len : Z) : MF Z := punch_pages (npages (u64 offset) len) ino (u64 offset) len err0.

(** The loop of [fs_zero_range]; -ENOSPC or 0, and [len] at its end. *)
Fixpoint zero_pages (fuel : nat) (ino cur_off len : Z) : MF Z :=
  if 0 <? len then
    match fuel with
    | O => λ _, Spin
    | S k =>
        let page_no := cur_off / PAGE_SIZE in
        let page_off := cur_off mod PAGE_SIZE in
        let to_zero := Z.min len (PAGE_SIZE - page_off) in
        let cur_off := u64 (cur_off + to_zero) in
        let len := len - to_zero in
        let to_zero := if len =? 0 then PAGE_SIZE else to_zero in
        page <- page_for ino page_no ;;
        if page =? 0 then ret (- ENOSPC)
        else page_store page page_off (replicate (Z.to_nat to_zero) 0) ;; zero_pages k ino cur_off len
    end
  else ret 0.
Definition FALLOC_FL_KEEP_SIZE : Z := 1.
Definition fs_zero_range (ino offset len mode : Z) : MF Z :=
  err <- zero_pages (npages (u64 offset) len) ino (u64 offset) len ;;
  if negb (err =? 0) then ret err
  else
    (* [len] is 0 after the loop *)
    i <- inode_at ino ;;
    (if (Z.land mode FALLOC_FL_KEEP_SIZE =? 0) && (size i <? u64 offset) then set_inode ino (with_size (u64 offset)) else ret tt) ;;
    ret 0.

(** The page of [page_no] is freed, if there is one, and replaced by that of
    [page_no2]. *)
Definition move_down (ino page_no1 page_no2 : Z) : MF Z :=
  i <- inode_at ino ;;
  let page1 := radix_get (data i) page_no1 in
  let page2 := radix_get (data i) page_no2 in
  err <- (if page1 =? 0 then ret 0 else data_del ino page_no1 true) ;;
  if negb (err =? 0) then ret err
  else if page2 =? 0 then ret 0
  else
    err <- data_add ino page_no1 page2 ;;
    if negb (err =? 0) then ret err else data_del ino page_no2 false.
Fixpoint collapse_pages (remain : nat) (ino page_no1 dist : Z) : MF Z :=
  match remain with
  | O => ret 0
  | S k =>
      err <- move_down ino page_no1 (u64 (page_no1 + dist)) ;;
      if negb (err =? 0) then ret err else collapse_pages k ino (page_no1 + 1) dist
  end.
Definition fs_collapse_range (ino offset len : Z) : MF Z :=
  if negb (offset mod PAGE_SIZE =? 0) || negb (len mod PAGE_SIZE =? 0) then ret (- EINVAL)
  else
    i <- inode_at ino ;;
    if size i <=? offset + len then ret (- EINVAL)
    else
      let remain := (size i + PAGE_SIZE - 1 - (offset + len)) / PAGE_SIZE in
      err <- collapse_pages (Z.to_nat remain) ino (offset / PAGE_SIZE) (s32 (len / PAGE_SIZE)) ;;
      if negb (err =? 0) then ret err
      else set_inode ino (λ i, with_size (u64 (size i - len)) i) ;; ret 0.

(** The loop of [fs_insert_range], downwards from [page_no1]. *)
Fixpoint insert_pages (fuel : nat) (ino page_no1 last dist : Z) : MF Z :=
  if last <=? page_no1 then
    match fuel with
    | O => λ _, Spin
    | S k =>
        let page_no2 := u64 (page_no1 + dist) in
        i <- inode_at ino ;;
        BUG_ON (negb (radix_get (data i) page_no2 =? 0)) ;;
        let page := radix_get (data i) page_no1 in
        err <- (if page =? 0 then ret 0
                else
                  err <- data_del ino page_no1 false ;;
                  if negb (err =? 0) then ret err else data_add ino page_no2 page) ;;
        if negb (err =? 0) then ret err else insert_pages k ino (u64 (page_no1 - 1)) last dist
    end
  else ret 0.
Definition fs_insert_range (fuel : nat) (ino offset len : Z) : MF Z :=
  if negb (offset mod PAGE_SIZE =? 0) || negb (len mod PAGE_SIZE =? 0) then ret (- EINVAL)
  else
    i <- inode_at ino ;;
    if size i <=? offset then ret (- EINVAL)
    else
      err <- insert_pages fuel ino ((size i + PAGE_SIZE - 1) / PAGE_SIZE) (offset / PAGE_SIZE) (s32 (len / PAGE_SIZE)) ;;
      if negb (err =? 0) then ret err
      else set_inode ino (λ i, with_size (u64 (size i + len)) i) ;; ret 0.

End files.
Arguments state H : clear implicits.

(** ** The bytes of a file *)

Section laws.
Context {H : Type} `{!Malloc H}.
Implicit Types s : state H.

(** The byte at [off] of a tree of pages. *)
Definition byte_in (pg : gmap Z (list Z)) (d : radix) (off : Z) : Z :=
  let p := radix_get d (off / PAGE_SIZE) in
  if p =? 0 then 0 else default 0 (pg !! p ≫= λ l, l !! Z.to_nat (off mod PAGE_SIZE)).
Definition byte s (ino off : Z) : Z :=
  match inodes s !! ino with Some i => byte_in (pages s) (data i) off | None => 0 end.

(** Every page belongs to one place of one file. *)
Record base_ok s (D : gset Z) : Prop := {
  b_live : live (heap s) D;
  b_pages : dom (pages s) ⊆ D;
  b_page : ∀ ino i k, inodes s !! ino = Some i → is_key k → radix_get (data i) k ≠ 0 →
    ∃ l, pages s !! radix_get (data i) k = Some l ∧ length l = Z.to_nat PAGE_SIZE;
  b_inj : ∀ ino i k ino' i' k', inodes s !! ino = Some i → inodes s !! ino' = Some i' → is_key k → is_key k' →
    radix_get (data i) k ≠ 0 → radix_get (data i) k = radix_get (data i') k' → ino = ino' ∧ k = k';
  b_tree : ∀ ino i, inodes s !! ino = Some i → type i ≠ FS_DIR → URadix.root (data i) ≠ None ∧ URadix.value_deleter (data i) = true
}.

Lemma room_drop (h : H) n k : room h (n + k) → room h k.
Proof. induction n as [|n IH]; [done|]. intros Hr. apply IH, URadix.room_less, Hr. Qed.

Lemma key_of off : is_u64 off → is_key (off / PAGE_SIZE).
Proof. unfold is_u64, is_key, PAGE_SIZE. intros Ho. split; [apply Z.div_pos; lia|]. apply Z.div_lt_upper_bound; lia. Qed.

Lemma inode_at_ok s p i : inodes s !! p = Some i → inode_at p s = Done i s.
Proof. intros Hi. unfold inode_at, bind, get, need. by rewrite Hi. Qed.

Lemma set_inode_ok s p i f : inodes s !! p = Some i → set_inode p f s = Done tt (with_inodes (<[p := f i]>) s).
Proof. intros Hi. unfold set_inode. by erewrite bind_Done by (by apply inode_at_ok). Qed.

Lemma byte_ext s s' ino off : (∀ i, inodes s !! ino = Some i → ∃ i', inodes s' !! ino = Some i' ∧
    radix_get (data i') (off / PAGE_SIZE) = radix_get (data i) (off / PAGE_SIZE) ∧
    (radix_get (data i) (off / PAGE_SIZE) ≠ 0 → pages s' !! radix_get (data i) (off / PAGE_SIZE) = pages s !! radix_get (data i) (off / PAGE_SIZE))) →
  (inodes s !! ino = None → inodes s' !! ino = None) → byte s' ino off = byte s ino off.
Proof.
  intros H1 H2. unfold byte. destruct (inodes s !! ino) as [i|]; [|by rewrite H2].
  destruct (H1 i eq_refl) as (i' & -> & E & HP). unfold byte_in. rewrite E. destruct (Z.eqb_spec (radix_get (data i) (off / PAGE_SIZE)) 0); [done|].
  by rewrite HP.
Qed.

(** Storing into a page changes the bytes at its place of its file. *)
Lemma page_store_ok s D ino i k off l : base_ok s D → inodes s !! ino = Some i → is_key k → radix_get (data i) k ≠ 0 →
  0 ≤ off → off + Z.of_nat (length l) ≤ PAGE_SIZE →
  ∃ s', page_store (radix_get (data i) k) off l s = Done tt s' ∧ base_ok s' D ∧ heap s' = heap s ∧ inodes s' = inodes s ∧
  dom (pages s') = dom (pages s) ∧
  ∀ ino' o, is_u64 o → byte s' ino' o =
    if decide (ino' = ino ∧ k * PAGE_SIZE + off ≤ o < k * PAGE_SIZE + off + Z.of_nat (length l))
    then default 0 (l !! Z.to_nat (o - (k * PAGE_SIZE + off))) else byte s ino' o.
Proof.
  intros B Hi Hk Hp Ho Hl. destruct (b_page s D B ino i k Hi Hk Hp) as (b & Hb & Lb). unfold page_store. unfold bind at 1, get. unfold bind at 1, need. rewrite Hb.
  rewrite (proj2 (Z.leb_le _ _) Hl). eexists. split; [reflexivity|]. set (p := radix_get (data i) k) in *.
  split_and!; [|done|done|cbn [with_pages pages]; rewrite dom_insert_lookup_L by eauto; done|].
  - destruct B as [B1 B2 B3 B4 B5]. split; cbn [with_pages heap pages inodes]; [done|rewrite dom_insert_lookup_L by eauto; done| |done|done].
    intros ino' i' k' Hi' Hk' Hp'. destruct (decide (radix_get (data i') k' = p)) as [->|N]; [rewrite lookup_insert_eq|rewrite lookup_insert_ne by done; by eapply B3].
    eexists. split; [done|]. by rewrite length_inserts.
  - intros ino' o Hou. unfold byte. cbn [with_pages inodes pages]. destruct (inodes s !! ino') as [i'|] eqn:Hi'; [|rewrite decide_False; [done|intros [-> _]; congruence]].
    unfold byte_in. pose proof (Z.div_mod o PAGE_SIZE ltac:(done)) as Eo. pose proof (Z.mod_pos_bound o PAGE_SIZE ltac:(done)) as Mo.
    destruct (Z.eqb_spec (radix_get (data i') (o / PAGE_SIZE)) 0) as [E0|N0].
    + rewrite decide_False; [done|]. intros [-> Hr]. assert (o / PAGE_SIZE = k) as Ek by (unfold PAGE_SIZE in *; lia). rewrite Ek in E0. rewrite Hi in Hi'. by injection Hi' as ->.
    + destruct (decide (radix_get (data i') (o / PAGE_SIZE) = p)) as [Ep|Np].
      * destruct (b_inj s D B ino' i' (o / PAGE_SIZE) ino i k Hi' Hi) as [-> Ek]; [by apply key_of|done|done|done|].
        rewrite Ep, lookup_insert_eq, Hb. cbn [mbind option_bind]. case_decide as Dr.
        -- f_equal. rewrite list_lookup_inserts by lia. f_equal. rewrite Ek in *. lia.
        -- f_equal. rewrite Ek in *. destruct (decide (o < k * PAGE_SIZE + off)); [apply list_lookup_inserts_lt|apply list_lookup_inserts_ge]; lia.
      * rewrite lookup_insert_ne by done. rewrite decide_False; [done|]. intros [-> Hr]. apply Np.
        assert (o / PAGE_SIZE = k) as -> by (unfold PAGE_SIZE in *; lia). rewrite Hi in Hi'. by injection Hi' as ->.
Qed.

(** A tree [d'] that has [p] at [k] and is [data i] elsewhere. *)
Definition links (d' d : radix) (k p : Z) : Prop :=
  radix_get d' k = p ∧ (∀ b, is_key b → b ≠ k → radix_get d' b = radix_get d b) ∧
  URadix.root d' ≠ None ∧ URadix.value_deleter d' = URadix.value_deleter d.

(** One round of the loops: to the end of the range or of the page. *)
Definition chunk (off n : Z) : Z := Z.min n (PAGE_SIZE - off mod PAGE_SIZE).

Lemma chunk_ok off n : 0 ≤ off → 0 < n → 0 < chunk off n ≤ n ∧ off mod PAGE_SIZE + chunk off n ≤ PAGE_SIZE ∧
  off = off / PAGE_SIZE * PAGE_SIZE + off mod PAGE_SIZE ∧ 0 ≤ off mod PAGE_SIZE < PAGE_SIZE ∧ 0 ≤ off / PAGE_SIZE.
Proof.
  intros Ho Hn. unfold chunk, PAGE_SIZE in *. pose proof (Z.mod_pos_bound off 4096 ltac:(lia)). pose proof (Z.div_mod off 4096 ltac:(lia)).
  pose proof (Z.div_pos off 4096 Ho ltac:(lia)). lia.
Qed.

(** After a round that is not the last the next page begins. *)
Lemma chunk_next off n : 0 ≤ off → 0 < n → chunk off n < n →
  off + chunk off n = (off / PAGE_SIZE + 1) * PAGE_SIZE ∧ npages off n = S (npages (off + chunk off n) (n - chunk off n)).
Proof.
  intros Ho Hn Hc. destruct (chunk_ok off n Ho Hn) as (C1 & C2 & C3 & C4 & C5).
  assert (chunk off n = PAGE_SIZE - off mod PAGE_SIZE) as Ec by (unfold chunk in *; lia). rewrite Ec in *. set (q := off / PAGE_SIZE) in *. set (m := off mod PAGE_SIZE) in *.
  split; [unfold PAGE_SIZE in *; lia|]. replace (off + (PAGE_SIZE - m)) with ((q + 1) * PAGE_SIZE) by lia. unfold npages. rewrite Z.mod_mul by done. fold m.
  replace (m + n + PAGE_SIZE - 1) with (0 + (n - (PAGE_SIZE - m)) + PAGE_SIZE - 1 + 1 * PAGE_SIZE) by lia. rewrite Z.div_add by done.
  rewrite Z2Nat.inj_add; [by rewrite Nat.add_1_r|apply Z.div_pos; unfold PAGE_SIZE in *; lia|lia].
Qed.

Lemma npages_pos off n : 0 ≤ off → 0 < n → (0 < npages off n)%nat.
Proof.
  intros Ho Hn. unfold npages, PAGE_SIZE in *. pose proof (Z.mod_pos_bound off 4096 ltac:(lia)).
  assert (1 ≤ (off mod 4096 + n + 4096 - 1) / 4096) by (apply Z.div_le_lower_bound; lia). lia.
Qed.

(** The pages of a range. *)
Definition touched (off n k : Z) : Prop := off / PAGE_SIZE ≤ k ∧ k * PAGE_SIZE < off + n.

Lemma touched_own o : 0 ≤ o → o / PAGE_SIZE * PAGE_SIZE ≤ o < (o / PAGE_SIZE + 1) * PAGE_SIZE.
Proof. intros Ho. unfold PAGE_SIZE. pose proof (Z.mod_pos_bound o 4096 ltac:(lia)). pose proof (Z.div_mod o 4096 ltac:(lia)). lia. Qed.

(** Behind the end of a file there are zeros. *)
Record fs_ok s (D : gset Z) : Prop := {
  o_base : base_ok s D;
  o_size : ∀ ino i, inodes s !! ino = Some i → 0 ≤ size i < 2 ^ 63;
  o_tail : ∀ ino i o, inodes s !! ino = Some i → type i ≠ FS_DIR → is_u64 o → size i ≤ o → byte s ino o = 0
}.

(** The write leaves no byte of a new page undefined: a page that is missing is
    covered from its start, to its end or to the new end of the file. *)
Definition gap_free (i : inode) (off n : Z) : Prop :=
  ∀ k, touched off n k → radix_get (data i) k = 0 → off ≤ k * PAGE_SIZE ∧ ((k + 1) * PAGE_SIZE ≤ off + n ∨ size i < off + n).

Lemma byte_size s ino i v ino' o : inodes s !! ino = Some i → byte (with_inodes (<[ino := with_size v i]>) s) ino' o = byte s ino' o.
Proof.
  intros Hi. unfold byte. cbn [with_inodes inodes pages]. destruct (decide (ino' = ino)) as [->|N]; [by rewrite lookup_insert_eq, Hi|by rewrite lookup_insert_ne].
Qed.

Lemma base_ok_size s D ino i v : base_ok s D → inodes s !! ino = Some i → base_ok (with_inodes (<[ino := with_size v i]>) s) D.
Proof.
  intros [B1 B2 B3 B4 B5] Hi.
  assert (∀ ino' i', <[ino := with_size v i]> (inodes s) !! ino' = Some i' → ∃ i0, inodes s !! ino' = Some i0 ∧ data i0 = data i' ∧ type i0 = type i') as HC.
  { intros ino' i' [[<- <-]|[N Hi']]%lookup_insert_Some; [by exists i|by exists i']. }
  split; cbn [with_inodes heap pages inodes]; [done|done| | |].
  - intros ino' i' k (i0 & H1 & H2 & _)%HC. rewrite <- H2. by apply B3 with ino'.
  - intros ia ia' ka ib ib' kb (i0 & H1 & H2 & _)%HC (i1 & H3 & H4 & _)%HC. rewrite <- H2, <- H4. by apply B4.
  - intros ino' i' (i0 & H1 & H2 & H3)%HC. rewrite <- H2, <- H3. by apply B5 with ino'.
Qed.

Lemma extend_ok s D ino i cur page : base_ok s D → inodes s !! ino = Some i → 0 ≤ cur < 2 ^ 63 →
  (size i < cur → page = radix_get (data i) ((cur - 1) / PAGE_SIZE) ∧ page ≠ 0) →
  ∃ s', extend ino cur page s = Done tt s' ∧ base_ok s' D ∧ heap s' = heap s ∧ inodes s' = <[ino := with_size (Z.max (size i) cur) i]> (inodes s) ∧
  ∀ ino' o, is_u64 o → byte s' ino' o = if decide (ino' = ino ∧ size i < cur ∧ cur ≤ o ∧ (o / PAGE_SIZE) * PAGE_SIZE < cur) then 0 else byte s ino' o.
Proof.
  intros B Hi Hc Hp. unfold extend. erewrite bind_Done by (by apply inode_at_ok). destruct (Z.ltb_spec (size i) cur) as [L|L].
  2: { exists s. rewrite Z.max_l by lia. split_and!; [done..|rewrite insert_id; [done|by destruct i]|]. intros ino' o Ho. by rewrite decide_False by lia. }
  destruct (Hp L) as [-> Np]. clear Hp. rewrite Z.max_r by lia. erewrite bind_Done by (by apply set_inode_ok). cbv zeta.
  pose proof (Z.mod_pos_bound cur PAGE_SIZE ltac:(done)) as Mc. pose proof (Z.div_mod cur PAGE_SIZE ltac:(done)) as Ec.
  set (s1 := with_inodes (<[ino := with_size cur i]>) s). assert (base_ok s1 D) as B1 by (by apply base_ok_size).
  rewrite (proj2 (Z.eqb_neq (radix_get _ _) 0)) by done. destruct (Z.eqb_spec (cur mod PAGE_SIZE) 0) as [Z0|N0]; cbn [negb andb].
  - exists s1. split_and!; [done..|]. intros ino' o Ho. unfold s1. rewrite (byte_size s ino i cur ino' o Hi). rewrite decide_False; [done|].
    intros (_ & _ & Hco & Hoc). pose proof (touched_own o ltac:(lia)). rewrite Z0 in Ec. unfold PAGE_SIZE in *. lia.
  - assert ((cur - 1) / PAGE_SIZE = cur / PAGE_SIZE) as Ek.
    { replace (cur - 1) with (cur / PAGE_SIZE * PAGE_SIZE + (cur mod PAGE_SIZE - 1)) by lia. rewrite Z.div_add_l by done. rewrite (Z.div_small (_ - 1)) by lia. lia. }
    rewrite Ek in *. set (k := cur / PAGE_SIZE) in *. set (po := cur mod PAGE_SIZE) in *.
    assert (inodes s1 !! ino = Some (with_size cur i)) as Hi1 by (unfold s1; cbn [with_inodes inodes]; by rewrite lookup_insert_eq).
    destruct (page_store_ok s1 D ino (with_size cur i) k po (replicate (Z.to_nat (PAGE_SIZE - po)) 0) B1 Hi1) as (s2 & E2 & B2 & T2 & I2 & _ & Y2).
    { apply key_of. unfold is_u64. lia. } { done. } { lia. } { rewrite length_replicate. lia. }
    exists s2. rewrite length_replicate in Y2. split_and!; [exact E2|done|by rewrite T2|by rewrite I2|].
    intros ino' o Ho. rewrite (Y2 ino' o Ho). unfold s1. rewrite (byte_size s ino i cur ino' o Hi). unfold is_u64 in Ho. pose proof (touched_own o ltac:(lia)) as To.
    destruct (decide (ino' = ino ∧ k * PAGE_SIZE + po ≤ o < k * PAGE_SIZE + po + Z.of_nat (Z.to_nat (PAGE_SIZE - po)))) as [[-> Hor]|Hor].
    + rewrite decide_True by (split_and!; [done|done|lia|unfold PAGE_SIZE in *; lia]). rewrite lookup_replicate_2 by lia. done.
    + rewrite decide_False; [done|]. intros (-> & _ & H1 & H2). apply Hor. split; [done|]. unfold PAGE_SIZE in *. lia.
Qed.

(** The invariant after a change of one file. *)
Lemma fs_ok_change s s' D D' ino i j : fs_ok s D → inodes s !! ino = Some i → base_ok s' D' → inodes s' = <[ino := j]> (inodes s) →
  0 ≤ size j < 2 ^ 63 → (∀ o, is_u64 o → size j ≤ o → byte s' ino o = 0) →
  (∀ ino' o, ino' ≠ ino → is_u64 o → byte s' ino' o = byte s ino' o) → fs_ok s' D'.
Proof.
  intros O Hi B' I' Hj Hz Y. split; [done| |].
  - intros ino' i'. rewrite I'. intros [[<- <-]|[N Hi']]%lookup_insert_Some; [done|by apply (o_size s D O) with ino'].
  - intros ino' i' o. rewrite I'. intros [[<- <-]|[N Hi']]%lookup_insert_Some Ht Ho Hso; [by apply Hz|]. rewrite Y by done. by apply (o_tail s D O ino' i').
Qed.

(** ** The file as a list of bytes *)

Definition content s (ino : Z) : list Z :=
  match inodes s !! ino with Some i => byte s ino <$> seqZ 0 (size i) | None => [] end.

Lemma content_lookup s ino i (j : nat) : inodes s !! ino = Some i →
  content s ino !! j = if decide (Z.of_nat j < size i) then Some (byte s ino (Z.of_nat j)) else None.
Proof.
  intros Hi. unfold content. rewrite Hi, list_lookup_fmap. case_decide as Dj.
  - rewrite lookup_seqZ_lt by lia. done.
  - by rewrite lookup_seqZ_ge by lia.
Qed.

Lemma content_length s ino i : inodes s !! ino = Some i → length (content s ino) = Z.to_nat (size i).
Proof. intros Hi. unfold content. by rewrite Hi, length_fmap, length_seqZ. Qed.

Lemma content_same s s' ino i i' : inodes s !! ino = Some i → inodes s' !! ino = Some i' → size i' = size i → 0 ≤ size i < 2 ^ 63 →
  (∀ o, is_u64 o → byte s' ino o = byte s ino o) → content s' ino = content s ino.
Proof.
  intros H1 H2 Hs Hb HY. apply list_eq. intros j. rewrite (content_lookup _ _ _ _ H1), (content_lookup _ _ _ _ H2), Hs.
  case_decide; [|done]. f_equal. apply HY. unfold is_u64. lia.
Qed.

Lemma content_splice s s' ino i i' off buf : inodes s !! ino = Some i → inodes s' !! ino = Some i' → let n := Z.of_nat (length buf) in
  0 ≤ off ≤ size i → off + n < 2 ^ 63 → 0 ≤ size i < 2 ^ 63 → size i' = Z.max (size i) (off + n) →
  (∀ o, is_u64 o → byte s' ino o = if decide (off ≤ o < off + n) then default 0 (buf !! Z.to_nat (o - off)) else byte s ino o) →
  content s' ino = take (Z.to_nat off) (content s ino) ++ buf ++ drop (Z.to_nat (off + n)) (content s ino).
Proof.
  intros H1 H2 n Ho Hn Hs Hs' HY. apply list_eq. intros j. rewrite (content_lookup _ _ _ _ H2).
  assert (length (take (Z.to_nat off) (content s ino)) = Z.to_nat off) as LT by (rewrite length_take, (content_length s ino i H1); lia).
  destruct (decide (Z.of_nat j < off)) as [L|L].
  { rewrite lookup_app_l by lia. rewrite lookup_take_lt by lia. rewrite (content_lookup _ _ _ _ H1), !decide_True by lia. f_equal.
    rewrite HY by (unfold is_u64; lia). by rewrite decide_False by lia. }
  rewrite lookup_app_r by lia. rewrite LT. destruct (decide (Z.of_nat j < off + n)) as [L2|L2].
  { rewrite lookup_app_l by lia. rewrite decide_True by lia. rewrite HY by (unfold is_u64; lia). rewrite decide_True by lia.
    destruct (lookup_lt_is_Some_2 buf (j - Z.to_nat off)) as [x Hx]; [lia|]. replace (Z.to_nat (Z.of_nat j - off)) with (j - Z.to_nat off)%nat by lia. by rewrite Hx. }
  rewrite lookup_app_r by lia. rewrite lookup_drop, (content_lookup _ _ _ _ H1).
  replace (Z.to_nat (off + n) + (j - Z.to_nat off - length buf))%nat with j by lia.
  destruct (decide (Z.of_nat j < size i')) as [L3|L3]; [rewrite decide_True by lia|by rewrite decide_False by lia]. f_equal.
  rewrite HY by (unfold is_u64; lia). by rewrite decide_False by lia.
Qed.

(** Nothing happens to the other files when one inode and its bytes change. *)
Lemma others_same s s' D ino j : fs_ok s D → inodes s' = <[ino := j]> (inodes s) →
  (∀ ino' o, ino' ≠ ino → is_u64 o → byte s' ino' o = byte s ino' o) →
  ∀ ino', ino' ≠ ino → inodes s' !! ino' = inodes s !! ino' ∧ content s' ino' = content s ino'.
Proof.
  intros O I' Y ino' N. rewrite I', lookup_insert_ne by done. split; [done|]. destruct (inodes s !! ino') as [i'|] eqn:Hi'.
  - apply (content_same s s' ino' i' i'); [done|by rewrite I', lookup_insert_ne|done|by apply (o_size s D O ino')|]. intros o. by apply Y.
  - unfold content. by rewrite I', lookup_insert_ne, Hi'.
Qed.

Lemma page_load_ok s D ino i k off m : base_ok s D → inodes s !! ino = Some i → is_key k → radix_get (data i) k ≠ 0 → 0 ≤ off → 0 ≤ m → off + m ≤ PAGE_SIZE →
  page_load (radix_get (data i) k) off m s = Done (byte s ino <$> seqZ (k * PAGE_SIZE + off) m) s.
Proof.
  intros B Hi Hk Hp Ho Hm Hl. destruct (b_page s D B ino i k Hi Hk Hp) as (b & Hb & Lb). unfold page_load, bind, get, need. rewrite Hb.
  rewrite (proj2 (Z.leb_le _ _) Hl). unfold ret. f_equal. apply list_eq. intros j. rewrite list_lookup_fmap. destruct (decide (Z.of_nat j < m)) as [L|L].
  - rewrite lookup_take_lt by lia. rewrite lookup_drop, lookup_seqZ_lt by lia. cbn [fmap option_fmap option_map]. unfold byte. rewrite Hi. unfold byte_in.
    replace (k * PAGE_SIZE + off + Z.of_nat j) with (off + Z.of_nat j + k * PAGE_SIZE) by lia.
    rewrite Z.div_add, Z.mod_add by done. rewrite Z.div_small, Z.mod_small by lia. change (0 + k) with k. rewrite (proj2 (Z.eqb_neq _ _) Hp), Hb. cbn [mbind option_bind].
    replace (Z.to_nat (off + Z.of_nat j)) with (Z.to_nat off + j)%nat by lia.
    destruct (lookup_lt_is_Some_2 b (Z.to_nat off + j)) as [x Hx]; [lia|]. by rewrite Hx.
  - rewrite lookup_take_ge by lia. by rewrite lookup_seqZ_ge by lia.
Qed.

Lemma read_pages_spec fuel s D ino i cur n : base_ok s D → inodes s !! ino = Some i → size i < 2 ^ 63 →
  0 ≤ cur → 0 ≤ n → cur + n ≤ size i → (0 < n → (npages cur n ≤ fuel)%nat) →
  read_pages fuel ino cur n s = Done (byte s ino <$> seqZ cur n, cur + n) s.
Proof.
  intros B Hi Hs. revert cur n. induction fuel as [|fuel IH]; intros cur n Hc Hn Hcn Hf; cbn [read_pages];
    erewrite bind_Done by (by apply inode_at_ok); rewrite (proj2 (Z.leb_le cur (size i))), andb_true_r by lia;
    destruct (Z.ltb_spec 0 n) as [L|L]; try (replace n with 0 by lia; by rewrite Z.add_0_r).
  { pose proof (npages_pos cur n Hc L). specialize (Hf L). lia. }
  specialize (Hf L). destruct (chunk_ok cur n Hc L) as (C1 & C2 & C3 & C4 & C5). cbv zeta.
  change (Z.min n (PAGE_SIZE - cur mod PAGE_SIZE)) with (chunk cur n). set (m := chunk cur n) in *. set (k := cur / PAGE_SIZE) in *. set (po := cur mod PAGE_SIZE) in *.
  assert (is_key k) as Hk by (apply key_of; unfold is_u64; lia).
  erewrite (bind_Done _ _ s (byte s ino <$> seqZ cur m)).
  2: { destruct (Z.eqb_spec (radix_get (data i) k) 0) as [E0|N0]; [|rewrite C3; apply (page_load_ok s D ino i k); [done|done|done|done|lia|lia|lia]].
       unfold ret. f_equal. apply list_eq. intros j. rewrite list_lookup_fmap. destruct (decide (Z.of_nat j < m)) as [Lj|Lj].
       - rewrite lookup_replicate_2, lookup_seqZ_lt by lia. cbn [fmap option_fmap option_map]. unfold byte. rewrite Hi. unfold byte_in.
         replace (cur + Z.of_nat j) with (po + Z.of_nat j + k * PAGE_SIZE) by lia. rewrite Z.div_add by done. rewrite Z.div_small by lia. change (0 + k) with k. by rewrite E0.
       - rewrite lookup_seqZ_ge by lia. apply lookup_ge_None. rewrite length_replicate. lia. }
  rewrite u64_id by (unfold is_u64; lia). erewrite bind_Done.
  2: { apply IH; [lia|lia|lia|]. intros Hm. destruct (chunk_next cur n Hc L) as [_ EN]; [fold m; lia|]. fold m in EN. lia. }
  unfold ret. cbn [fst snd]. f_equal. f_equal; [|lia]. rewrite <- fmap_app. f_equal. rewrite <- seqZ_app by lia. f_equal. lia.
Qed.

Lemma take_drop_content s ino i off n : inodes s !! ino = Some i → 0 ≤ off → 0 ≤ n → off + n ≤ size i →
  take (Z.to_nat n) (drop (Z.to_nat off) (content s ino)) = byte s ino <$> seqZ off n.
Proof.
  intros Hi Ho Hn Hl. apply list_eq. intros j. rewrite list_lookup_fmap. destruct (decide (Z.of_nat j < n)) as [L|L].
  - rewrite lookup_take_lt by lia. rewrite lookup_drop, (content_lookup _ _ _ _ Hi), lookup_seqZ_lt, decide_True by lia. cbn [fmap option_fmap option_map]. do 2 f_equal. lia.
  - rewrite lookup_take_ge by lia. by rewrite lookup_seqZ_ge by lia.
Qed.

(** Reading gives the bytes of the file from the offset on, as many as there are. *)
Theorem file_read_ok s D ino i off n : fs_ok s D → inodes s !! ino = Some i → type i ≠ FS_DIR → 0 ≤ off < 2 ^ 63 → 0 ≤ n →
  let l := take (Z.to_nat n) (drop (Z.to_nat off) (content s ino)) in tfs_file_read ino off n s = Done (Z.of_nat (length l), l) s.
Proof.
  intros O Hi Ht Ho Hn l. pose proof (o_size s D O ino i Hi) as Hs. unfold tfs_file_read. erewrite bind_Done by (by apply inode_at_ok).
  rewrite (proj2 (Z.eqb_neq _ _) Ht). cbn [BUG_ON]. unfold bind at 1, ret at 1. rewrite u64_id by (unfold is_u64; lia).
  destruct (Z.leb_spec (size i) off) as [L|L].
  - assert (l = []) as -> by (unfold l; rewrite drop_ge by (rewrite (content_length s ino i Hi); lia); by rewrite take_nil). done.
  - assert (l = byte s ino <$> seqZ off (Z.min (size i - off) n)) as ->.
    { unfold l. rewrite <- (take_drop_content s ino i) by (done || lia). destruct (Z.min_spec (size i - off) n) as [[Hm ->]|[Hm ->]]; [|done].
      rewrite !take_ge; [done|rewrite length_drop, (content_length s ino i Hi); lia..]. }
    cbv zeta. erewrite bind_Done by (apply (read_pages_spec _ s D ino i); [apply O|done|lia..|done]). unfold ret. cbn [fst snd].
    rewrite length_fmap, length_seqZ. f_equal. f_equal. rewrite s64_id; lia.
Qed.

(** ** Truncation *)

(** The pages [P] of a file are given back, and its tree becomes [d']. *)
Lemma base_ok_unlink s D h' D' ino i (P : gset Z) pg d' : base_ok s D → inodes s !! ino = Some i →
  live h' D' → dom pg ⊆ D' → (∀ p, p ∉ P → pg !! p = pages s !! p) →
  (∀ k, is_key k → radix_get d' k ≠ 0 → radix_get d' k = radix_get (data i) k ∧ radix_get d' k ∉ P) →
  (∀ p, p ∈ P → p = 0 ∨ ∃ k, is_key k ∧ radix_get (data i) k = p) →
  URadix.root d' ≠ None → URadix.value_deleter d' = true →
  base_ok (mk_state h' pg (<[ino := with_data d' i]> (inodes s))) D'.
Proof.
  intros [B1 B2 B3 B4 B5] Hi HL HD HP Hd HO Hro Hde.
  assert (∀ ino' i' k, <[ino := with_data d' i]> (inodes s) !! ino' = Some i' → is_key k → radix_get (data i') k ≠ 0 →
    (radix_get (data i') k ∉ P) ∧ ∃ i0, inodes s !! ino' = Some i0 ∧ radix_get (data i0) k = radix_get (data i') k) as HC.
  { intros ino' i' k [[<- <-]|[N Hi']]%lookup_insert_Some Hk Nk; cbn [with_data data] in *.
    - destruct (Hd k Hk Nk) as [E NP]. split; [done|]. by exists i.
    - split; [|by exists i']. intros [?|(k' & Hk' & E)]%HO; [done|]. destruct (B4 ino' i' k ino i k'); [done..|]. congruence. }
  split; cbn [heap pages inodes]; [done|done| | |].
  - intros ino' i' k Hi' Hk Nk. destruct (HC ino' i' k Hi' Hk Nk) as (NP & i0 & H1 & H2). rewrite (HP _ NP), <- H2. apply (B3 ino'); [done|done|congruence].
  - intros ia ia' ka ib ib' kb Ha Hb Ka Kb Na Eab. destruct (HC ia ia' ka Ha Ka Na) as (_ & i0 & H1 & H2). destruct (HC ib ib' kb Hb Kb) as (_ & i1 & H3 & H4); [congruence|].
    apply (B4 ia i0 ka ib i1 kb); [done|done|done|done|congruence|congruence].
  - intros ino' i' [[<- <-]|[N Hi']]%lookup_insert_Some Ht; [|by eapply B5]. done.
Qed.

(** The bytes after that: of the file they are those of the new tree. *)
Lemma byte_unlink s D h' ino i (P : gset Z) pg d' ino' o : base_ok s D → inodes s !! ino = Some i → is_u64 o →
  (∀ p, p ∉ P → pg !! p = pages s !! p) →
  (∀ k, is_key k → radix_get d' k ≠ 0 → radix_get d' k = radix_get (data i) k ∧ radix_get d' k ∉ P) →
  (∀ p, p ∈ P → p = 0 ∨ ∃ k, is_key k ∧ radix_get (data i) k = p) →
  byte (mk_state h' pg (<[ino := with_data d' i]> (inodes s))) ino' o =
    if decide (ino' = ino ∧ radix_get d' (o / PAGE_SIZE) = 0) then 0 else byte s ino' o.
Proof.
  intros B Hi Ho HP Hd HO. pose proof (key_of o Ho) as Hk. unfold byte. cbn [inodes pages]. destruct (decide (ino' = ino)) as [->|N].
  - rewrite lookup_insert_eq, Hi. unfold byte_in. cbn [with_data data]. destruct (decide (radix_get d' (o / PAGE_SIZE) = 0)) as [E|NE].
    + rewrite decide_True by done. by rewrite E.
    + rewrite decide_False by (intros [_ ?]; done). destruct (Hd _ Hk NE) as [E NP]. by rewrite <- E, (HP _ NP).
  - rewrite lookup_insert_ne by done. rewrite decide_False by (intros [? _]; done). destruct (inodes s !! ino') as [i'|] eqn:Hi'; [|done]. unfold byte_in.
    destruct (Z.eqb_spec (radix_get (data i') (o / PAGE_SIZE)) 0) as [|N0]; [done|]. rewrite HP; [done|].
    intros [?|(k' & Hk' & E)]%HO; [done|]. destruct (b_inj s D B ino' i' (o / PAGE_SIZE) ino i k'); [done..|]. done.
Qed.

Lemma zero_not_live s D : base_ok s D → 0 ∉ D.
Proof. intros B ?%(URadix.live_pos _ _ _ (b_live s D B)). lia. Qed.

Lemma page_live s D ino i k : base_ok s D → inodes s !! ino = Some i → is_key k → radix_get (data i) k = 0 ∨ radix_get (data i) k ∈ D.
Proof.
  intros B Hi Hk. destruct (decide (radix_get (data i) k = 0)) as [|N]; [by left|right]. destruct (b_page s D B ino i k Hi Hk N) as (l & Hl & _).
  apply (b_pages s D B), elem_of_dom. eauto.
Qed.

Lemma data_del_ok s D ino i k : base_ok s D → inodes s !! ino = Some i → type i ≠ FS_DIR → is_key k →
  ∃ e d' s' D', data_del ino k true s = Done e s' ∧ (radix_get (data i) k ≠ 0 → e = 0) ∧ base_ok s' D' ∧ D ∖ dom (pages s) ⊆ D' ∧ dom (pages s') ⊆ dom (pages s) ∧
  inodes s' = <[ino := with_data d' i]> (inodes s) ∧
  (∀ b, is_key b → radix_get d' b = if decide (k = b) then 0 else radix_get (data i) b) ∧
  (∀ r, room (heap s) r → room (heap s') r) ∧
  (∀ ino' o, is_u64 o → byte s' ino' o = if decide (ino' = ino ∧ o / PAGE_SIZE = k) then 0 else byte s ino' o).
Proof.
  intros B Hi Ht Hk. destruct (b_tree s D B ino i Hi Ht) as [Hro Hde]. pose proof (page_live s D ino i k B Hi Hk) as Hv. pose proof (zero_not_live s D B) as N0.
  destruct (URadix.uradix_del_ok (data i) k true (heap s) D Hk (b_live s D B) Hv) as (e & d' & h' & D' & E & HL & V & G & He & HD' & R).
  rewrite Hde in HD', V. cbn [andb] in HD'. set (p := radix_get (data i) k) in *.
  assert (URadix.root d' ≠ None) as Hro'.
  { unfold URadix.radix_del in E. destruct (URadix.root (data i)) as [t|]; [|done]. apply bind_inv in E as (x & h1 & _ & E). injection E as <- <- <-. done. }
  assert (∀ q : Z, q ∉ ({[p]} : gset Z) → delete p (pages s) !! q = pages s !! q) as HP by (intros q Hq; apply lookup_delete_ne; set_solver).
  assert (∀ b, is_key b → radix_get d' b ≠ 0 → radix_get d' b = radix_get (data i) b ∧ radix_get d' b ∉ ({[p]} : gset Z)) as Hd.
  { intros b Hb. rewrite (G b Hb). case_decide as Dk; [done|]. intros Nb. split; [done|]. rewrite elem_of_singleton. intros Ep.
    destruct (b_inj s D B ino i b ino i k); [done..|]. congruence. }
  assert (∀ q : Z, q ∈ ({[p]} : gset Z) → q = 0 ∨ ∃ b, is_key b ∧ radix_get (data i) b = q) as HO by (intros q ->%elem_of_singleton; right; by exists k).
  exists e, d', (mk_state h' (delete p (pages s)) (<[ino := with_data d' i]> (inodes s))), D'. cbn [pages inodes heap]. split_and!.
  - unfold data_del. erewrite bind_Done by (by apply inode_at_ok). erewrite bind_Done by (apply zoom_Done; exact E).
    erewrite bind_Done by (by apply (set_inode_ok _ ino i)). rewrite Hde. done.
  - exact He.
  - eapply base_ok_unlink; [done|done|done| |exact HP|exact Hd|exact HO|done|done]. rewrite dom_delete_L, HD'. pose proof (b_pages s D B). set_solver.
  - rewrite HD'. destruct Hv as [Hv|Hv]; [rewrite Hv; set_solver|]. intros q Hq. apply elem_of_difference in Hq as [Hq1 Hq2]. apply elem_of_difference. split; [done|].
    intros ->%elem_of_singleton. apply Hq2. destruct (b_page s D B ino i k Hi Hk) as (l & Hl & _); [intros E0; apply N0; fold p in E0; by rewrite E0 in Hv|].
    apply elem_of_dom. eauto.
  - rewrite dom_delete_L. set_solver.
  - done.
  - done.
  - done.
  - intros ino' o Ho. rewrite (byte_unlink s D h' ino i {[p]} _ d' ino' o B Hi Ho HP Hd HO). rewrite (G _ (key_of o Ho)).
    destruct (decide (ino' = ino ∧ o / PAGE_SIZE = k)) as [[-> Ek]|Nk].
    + rewrite decide_True; [done|]. by rewrite decide_True.
    + case_decide as Dz; [|done]. destruct Dz as [-> Ez]. rewrite decide_False in Ez by naive_solver. unfold byte. rewrite Hi. unfold byte_in. by rewrite Ez.
Qed.

Lemma drop_pages_spec fuel s D ino i q : base_ok s D → inodes s !! ino = Some i → type i ≠ FS_DIR → 0 ≤ q → size i < 2 ^ 63 →
  size i ≤ (q + Z.of_nat fuel) * PAGE_SIZE →
  ∃ d' s' D', drop_pages fuel ino (q * PAGE_SIZE) s = Done tt s' ∧ base_ok s' D' ∧ D ∖ dom (pages s) ⊆ D' ∧ dom (pages s') ⊆ dom (pages s) ∧
  inodes s' = <[ino := with_data d' i]> (inodes s) ∧ (∀ r, room (heap s) r → room (heap s') r) ∧
  (∀ ino' o, is_u64 o → byte s' ino' o = if decide (ino' = ino ∧ q * PAGE_SIZE ≤ o ∧ o / PAGE_SIZE * PAGE_SIZE < size i) then 0 else byte s ino' o).
Proof.
  revert s D i q. induction fuel as [|fuel IH]; intros s D i q B Hi Ht Hq Hs Hf; cbn [drop_pages]; erewrite bind_Done by (by apply inode_at_ok);
    destruct (Z.ltb_spec (q * PAGE_SIZE) (size i)) as [L|L].
  1: lia.
  1, 3: exists (data i), s, D; split_and!; [done|done|set_solver|done|rewrite insert_id; [done|by destruct i]|done|];
    intros ino' o Ho; rewrite decide_False; [done|]; intros (_ & H1 & H2); pose proof (touched_own o ltac:(unfold is_u64 in Ho; lia)); unfold PAGE_SIZE in *; lia.
  assert (is_key q) as Hk by (unfold is_key, PAGE_SIZE in *; lia).
  assert (q * PAGE_SIZE / PAGE_SIZE = q) as Eq by (by apply Z.div_mul). rewrite Eq.
  destruct (data_del_ok s D ino i q B Hi Ht Hk) as (e & d1 & s1 & D1 & E1 & _ & B1 & S1 & P1 & I1 & G1 & R1 & Y1). erewrite bind_Done by exact E1.
  destruct (IH s1 D1 (with_data d1 i) (q + 1) B1) as (d' & s' & D' & E2 & B2 & S2 & P2 & I2 & R2 & Y2);
    [by rewrite I1, lookup_insert_eq|done|lia|done|cbn [with_data size]; lia|].
  exists d', s', D'. replace (q * PAGE_SIZE + PAGE_SIZE) with ((q + 1) * PAGE_SIZE) by lia. split_and!.
  - done.
  - done.
  - clear Y1 Y2 G1. set_solver.
  - by transitivity (dom (pages s1)).
  - rewrite I2, I1, insert_insert_eq. done.
  - intros r Hr. by apply R2, R1.
  - intros ino' o Ho. rewrite (Y2 ino' o Ho), (Y1 ino' o Ho). cbn [with_data size]. pose proof (touched_own o ltac:(unfold is_u64 in Ho; lia)) as To. unfold PAGE_SIZE in *.
    destruct (decide (ino' = ino ∧ q * 4096 ≤ o ∧ o / 4096 * 4096 < size i)) as [(-> & H1 & H2)|N].
    + case_decide as D2; [done|]. rewrite decide_True; [done|]. split; [done|]. apply Decidable.not_and in D2 as [D2|D2]; [done|lia|unfold Decidable.decidable; tauto].
    + rewrite !decide_False; [done| |]; intros [-> ?]; apply N; (split; [done|lia]).
Qed.

Lemma content_trunc s s' ino i i' n : inodes s !! ino = Some i → inodes s' !! ino = Some i' → size i' = n → 0 ≤ n < 2 ^ 63 → 0 ≤ size i < 2 ^ 63 →
  (∀ o, is_u64 o → size i ≤ o → byte s ino o = 0) →
  (∀ o, is_u64 o → byte s' ino o = if decide (n ≤ o) then 0 else byte s ino o) →
  content s' ino = take (Z.to_nat n) (content s ino) ++ replicate (Z.to_nat n - length (content s ino)) 0.
Proof.
  intros H1 H2 Hs' Hn Hs HT HY. apply list_eq. intros j. rewrite (content_lookup _ _ _ _ H2), Hs'. pose proof (content_length s ino i H1) as LC.
  assert (length (take (Z.to_nat n) (content s ino)) = Nat.min (Z.to_nat n) (Z.to_nat (size i))) as LT by (rewrite length_take; lia).
  case_decide as Dj.
  - rewrite HY by (unfold is_u64; lia). rewrite decide_False by lia. destruct (decide (Z.of_nat j < size i)) as [L|L].
    + rewrite lookup_app_l by lia. rewrite lookup_take_lt by lia. by rewrite (content_lookup _ _ _ _ H1), decide_True.
    + rewrite lookup_app_r by lia. rewrite lookup_replicate_2 by lia. f_equal. apply HT; [unfold is_u64; lia|lia].
  - symmetry. apply lookup_ge_None. rewrite length_app, length_replicate. lia.
Qed.

Lemma lookup_foldr_delete (m : gmap Z (list Z)) l p : foldr delete m l !! p = if decide (p ∈ l) then None else m !! p.
Proof.
  induction l as [|q l IH]; cbn [foldr]; [done|]. destruct (decide (p = q)) as [->|N].
  - rewrite lookup_delete_eq. by rewrite decide_True by apply list_elem_of_here.
  - rewrite lookup_delete_ne by done. rewrite IH. apply decide_ext. rewrite elem_of_cons. naive_solver.
Qed.

(** The tree is freed with its pages, and a new one made. *)
Lemma data_reset_ok s D ino i r : base_ok s D → inodes s !! ino = Some i → type i ≠ FS_DIR → room (heap s) (1 + r) →
  ∃ d' s' D', (data_free ino ;; data_init ino) s = Done tt s' ∧ base_ok s' D' ∧ D ∖ dom (pages s) ⊆ D' ∧ room (heap s') r ∧
  inodes s' = <[ino := with_data d' i]> (inodes s) ∧
  (∀ ino' o, is_u64 o → byte s' ino' o = if decide (ino' = ino) then 0 else byte s ino' o).
Proof.
  intros B Hi Ht Hr. destruct (b_tree s D B ino i Hi Ht) as [Hro Hde].
  assert (URadix.distinct (data i)) as Hdi by (intros a b Ha Hb Na Eab; by destruct (b_inj s D B ino i a ino i b Hi Hi Ha Hb Na Eab)).
  destruct (URadix.uradix_free_ok (data i) (heap s) D Hro Hde (b_live s D B) Hdi) as (h1 & E1 & L1 & R1); [intros k Hk; by apply (page_live s D ino i)|].
  set (l := URadix.values_of (data i)) in *. set (pg := foldr delete (pages s) l).
  destruct (URadix.init_radix_ok h1 _ L1) as [Eh|(d' & h2 & D' & E2 & L2 & S2 & V2 & G2 & R2)].
  { exfalso. unfold URadix.init_radix_w_deleter in Eh. destruct (URadix.malloc_ok h1 _ URadix.SIZEOF_RADIX_NODE L1) as (p & h2 & E2 & _).
    erewrite bind_Done in Eh by exact E2. destruct (URadix.malloc_room _ _ _ _ _ (R1 _ Hr) E2) as [Np _]. by rewrite (proj2 (Z.eqb_neq _ _) Np) in Eh. }
  assert (∀ p : Z, p ∉ (list_to_set l : gset Z) → pg !! p = pages s !! p) as HP.
  { intros p Hp. unfold pg. rewrite lookup_foldr_delete. rewrite decide_False; [done|]. set_solver. }
  assert (∀ k, is_key k → radix_get d' k ≠ 0 → radix_get d' k = radix_get (data i) k ∧ radix_get d' k ∉ (list_to_set l : gset Z)) as Hd by (intros k _; by rewrite G2).
  assert (∀ p : Z, p ∈ (list_to_set l : gset Z) → p = 0 ∨ ∃ k, is_key k ∧ radix_get (data i) k = p) as HO.
  { intros p (_ & k & Hk & E)%elem_of_list_to_set%URadix.values_elem. right. by exists k. }
  assert (URadix.root d' ≠ None) as Hro'.
  { unfold URadix.init_radix_w_deleter in E2. apply bind_inv in E2 as (p & h3 & _ & E2). apply bind_inv in E2 as ([] & h4 & _ & E2). by injection E2 as <- <-. }
  exists d', (mk_state h2 pg (<[ino := with_data d' i]> (inodes s))), D'. cbn [heap inodes pages]. split_and!.
  - erewrite bind_Done.
    2: { unfold data_free. erewrite bind_Done by (by apply inode_at_ok). erewrite bind_Done by reflexivity. apply (zoom_Done heap with_heap _ _ 0 h1). exact E1. }
    unfold data_init. erewrite bind_Done by (apply zoom_Done; exact E2). by erewrite (set_inode_ok _ ino i) by done.
  - eapply base_ok_unlink; [done|done|done| |exact HP|exact Hd|exact HO|done|done].
    intros p [x Hx]%elem_of_dom. unfold pg in Hx. rewrite lookup_foldr_delete in Hx. case_decide as Dp; [done|]. apply S2, elem_of_difference. split; [|set_solver].
    apply (b_pages s D B), elem_of_dom. eauto.
  - intros p [Hp1 Hp2]%elem_of_difference. apply S2, elem_of_difference. split; [done|]. intros (Np & k & Hk & E)%elem_of_list_to_set%URadix.values_elem.
    destruct (b_page s D B ino i k Hi Hk) as (b & Hb & _); [by rewrite E|]. apply Hp2, elem_of_dom. exists b. by rewrite <- E.
  - apply R2, R1, Hr.
  - done.
  - intros ino' o Ho. rewrite (byte_unlink s D h2 ino i _ pg d' ino' o B Hi Ho HP Hd HO). rewrite G2. apply decide_ext. naive_solver.
Qed.

(** What [tfs_truncate] does to the pages when the file becomes shorter. *)
Lemma shrink_spec s D ino i n : fs_ok s D → inodes s !! ino = Some i → type i ≠ FS_DIR → 0 ≤ n < size i →
  n mod PAGE_SIZE = 0 ∨ radix_get (data i) (n / PAGE_SIZE) ≠ 0 →
  ∃ d' s' D', shrink ino i n s = Done tt s' ∧ base_ok s' D' ∧ D ∖ dom (pages s) ⊆ D' ∧ (∀ r, room (heap s) r → room (heap s') r) ∧
  inodes s' = <[ino := with_data d' i]> (inodes s) ∧
  ∀ ino' o, is_u64 o → byte s' ino' o = if decide (ino' = ino ∧ n ≤ o) then 0 else byte s ino' o.
Proof.
  intros O Hi Ht Hn HG. unfold shrink. cbv zeta. pose proof (o_size s D O ino i Hi) as Hs. pose proof (o_base s D O) as B. pose proof (touched_own n ltac:(lia)) as Tn.
  pose proof (Z.mod_pos_bound n PAGE_SIZE ltac:(done)) as Mn. pose proof (Z.div_mod n PAGE_SIZE ltac:(done)) as En. set (k := n / PAGE_SIZE) in *. set (po := n mod PAGE_SIZE) in *.
  assert (0 ≤ k) as Hk0 by (apply Z.div_pos; unfold PAGE_SIZE; lia).
  assert (∀ q, k ≤ q → size i ≤ (q + Z.of_nat (npages 0 (size i))) * PAGE_SIZE) as HF.
  { intros q Hq. unfold npages. rewrite Z.mod_0_l by done. pose proof (Z.div_mod (0 + size i + PAGE_SIZE - 1) PAGE_SIZE ltac:(done)) as E1.
    pose proof (Z.mod_pos_bound (0 + size i + PAGE_SIZE - 1) PAGE_SIZE ltac:(done)). rewrite Z2Nat.id by (apply Z.div_pos; unfold PAGE_SIZE; lia). unfold PAGE_SIZE in *. lia. }
  (* a byte of the file that stays although it is behind [n] is behind the old end, too *)
  assert (∀ o, is_u64 o → size i ≤ o → byte s ino o = 0) as HT by (intros o Ho; by apply (o_tail s D O ino i)).
  destruct (Z.eqb_spec po 0) as [E0|N0].
  { unfold bind at 1, ret at 1. replace n with (k * PAGE_SIZE) by lia.
    destruct (drop_pages_spec (npages 0 (size i)) s D ino i k B Hi Ht Hk0 ltac:(lia) (HF k ltac:(lia))) as (d' & s' & D' & E & B' & S' & _ & I' & R' & Y').
    exists d', s', D'. split_and!; [done..|]. intros ino' o Ho. rewrite (Y' ino' o Ho). pose proof (touched_own o ltac:(unfold is_u64 in Ho; lia)) as To.
    destruct (decide (ino' = ino ∧ k * PAGE_SIZE ≤ o)) as [[-> H1]|N]; [|rewrite decide_False; [done|naive_solver]].
    destruct (decide (o / PAGE_SIZE * PAGE_SIZE < size i)) as [L|L]; [by rewrite decide_True|]. rewrite decide_False by naive_solver. apply HT; [done|lia]. }
  destruct HG as [?|HG]; [done|]. rewrite (proj2 (Z.eqb_neq _ _) HG). set (tw := Z.min (size i - n) (PAGE_SIZE - po)). assert (0 < tw) by lia.
  assert (is_key k) as Hk by (apply key_of; unfold is_u64; lia).
  destruct (page_store_ok s D ino i k po (replicate (Z.to_nat tw) 0) B Hi Hk HG) as (s1 & E1 & B1 & T1 & I1 & P1 & Y1); [lia|rewrite length_replicate; lia|].
  rewrite length_replicate, Z2Nat.id in Y1 by lia. erewrite bind_Done by (by erewrite bind_Done by exact E1).
  assert (∀ ino' o, is_u64 o → byte s1 ino' o = if decide (ino' = ino ∧ n ≤ o ∧ o / PAGE_SIZE = k) then 0 else byte s ino' o) as Y1'.
  { intros ino' o Ho. rewrite (Y1 ino' o Ho). unfold is_u64 in Ho. pose proof (touched_own o ltac:(lia)) as To.
    destruct (decide (ino' = ino ∧ n ≤ o ∧ o / PAGE_SIZE = k)) as [(-> & H1 & H2)|N].
    - case_decide as D1; [rewrite lookup_replicate_2 by lia; done|]. apply HT; [done|]. rewrite H2 in To. unfold PAGE_SIZE in *. lia.
    - rewrite decide_False; [done|]. intros [-> H1]. apply N. split_and!; [done|lia|]. unfold PAGE_SIZE in *. lia. }
  destruct (decide (size i ≤ n + tw)) as [L|L].
  - exists (data i), s1, D. split_and!; [|done|set_solver|by rewrite T1|rewrite insert_id; [done|by destruct i]|].
    + destruct (npages 0 (size i)); cbn [drop_pages]; erewrite bind_Done by (apply inode_at_ok; by rewrite I1); by rewrite (proj2 (Z.ltb_ge _ _)).
    + intros ino' o Ho. rewrite (Y1' ino' o Ho). pose proof (touched_own o ltac:(unfold is_u64 in Ho; lia)) as To.
      destruct (decide (ino' = ino ∧ n ≤ o)) as [[-> H1]|N]; [|rewrite decide_False; [done|naive_solver]].
      destruct (decide (o / PAGE_SIZE = k)) as [Ek|Nk]; [by rewrite decide_True|]. rewrite decide_False by naive_solver. apply HT; [done|]. unfold PAGE_SIZE in *. lia.
  - assert (n + tw = (k + 1) * PAGE_SIZE) as -> by lia.
    destruct (drop_pages_spec (npages 0 (size i)) s1 D ino i (k + 1) B1 ltac:(by rewrite I1) Ht ltac:(lia) ltac:(lia) (HF (k + 1) ltac:(lia))) as (d' & s' & D' & E & B' & S' & _ & I' & R' & Y').
    exists d', s', D'. split_and!; [done|done|by rewrite <- P1|by rewrite <- T1|by rewrite I', I1|].
    intros ino' o Ho. rewrite (Y' ino' o Ho), (Y1' ino' o Ho). pose proof (touched_own o ltac:(unfold is_u64 in Ho; lia)) as To.
    destruct (decide (ino' = ino ∧ n ≤ o)) as [[-> H1]|N]; [|rewrite !decide_False; [done|naive_solver|]; intros (-> & H1 & _); apply N; split; [done|unfold PAGE_SIZE in *; lia]].
    case_decide as D1; [done|]. case_decide as D2; [done|]. apply HT; [done|]. unfold PAGE_SIZE in *.
    assert (o / 4096 ≠ k) by naive_solver. assert (¬ ((k + 1) * 4096 ≤ o ∧ o / 4096 * 4096 < size i)) by naive_solver. lia.
Qed.

Lemma truncate_spec s D ino i n r : fs_ok s D → inodes s !! ino = Some i → type i = FS_REG → 0 ≤ n < 2 ^ 63 →
  (n < size i → n mod PAGE_SIZE = 0 ∨ radix_get (data i) (n / PAGE_SIZE) ≠ 0) → room (heap s) (1 + r) →
  ∃ d' s' D', tfs_truncate ino n s = Done 0 s' ∧ base_ok s' D' ∧ D ∖ dom (pages s) ⊆ D' ∧ room (heap s') r ∧
  inodes s' = <[ino := mk_inode (refcnt i) (type i) n d']> (inodes s) ∧
  ∀ ino' o, is_u64 o → byte s' ino' o = if decide (ino' = ino ∧ n ≤ o) then 0 else byte s ino' o.
Proof.
  intros O Hi Ht Hn HG Hr. pose proof (o_size s D O ino i Hi) as Hs. pose proof (o_base s D O) as B. assert (type i ≠ FS_DIR) as Nd by (by rewrite Ht).
  unfold tfs_truncate. erewrite bind_Done by (by apply inode_at_ok). rewrite Ht. cbn [BUG_ON Z.eqb Pos.eqb FS_REG negb]. unfold bind at 1, ret at 1.
  destruct (Z.eqb_spec n 0) as [->|N0]; [|destruct (Z.ltb_spec (size i) n) as [L|L]; [|destruct (Z.ltb_spec n (size i)) as [L2|L2]]].
  - destruct (data_reset_ok s D ino i r B Hi Nd Hr) as (d' & s1 & D' & E1 & B1 & S1 & R1 & I1 & Y1). erewrite bind_Done by exact E1.
    assert (inodes s1 !! ino = Some (with_data d' i)) as Hi1 by (by rewrite I1, lookup_insert_eq).
    erewrite bind_Done by (by apply (set_inode_ok _ ino (with_data d' i))).
    exists d', (with_inodes (<[ino := with_size 0 (with_data d' i)]>) s1), D'. split_and!; [done|by apply base_ok_size|done|done| |].
    + cbn [with_inodes inodes]. rewrite I1, insert_insert_eq. by rewrite <- Ht.
    + intros ino' o Ho. rewrite (byte_size s1 ino _ _ ino' o Hi1), (Y1 ino' o Ho). apply decide_ext. unfold is_u64 in Ho. split; [intros ->; split; [done|lia]|naive_solver].
  - erewrite bind_Done by (by apply (set_inode_ok _ ino i)). exists (data i), (with_inodes (<[ino := with_size n i]>) s), D.
    split_and!; [done|by apply base_ok_size|set_solver|by apply URadix.room_less|cbn [with_inodes inodes]; by rewrite <- Ht|].
    intros ino' o Ho. rewrite (byte_size s ino _ _ ino' o Hi). case_decide as Do; [|done]. destruct Do as [-> Do]. apply (o_tail s D O ino i o); [done..|lia].
  - destruct (shrink_spec s D ino i n O Hi Nd ltac:(lia) (HG L2)) as (d' & s1 & D' & E1 & B1 & S1 & R1 & I1 & Y1). erewrite bind_Done by exact E1.
    assert (inodes s1 !! ino = Some (with_data d' i)) as Hi1 by (by rewrite I1, lookup_insert_eq).
    erewrite bind_Done by (by apply (set_inode_ok _ ino (with_data d' i))).
    exists d', (with_inodes (<[ino := with_size n (with_data d' i)]>) s1), D'. split_and!; [done|by apply base_ok_size|done|by apply URadix.room_less, R1| |].
    + cbn [with_inodes inodes]. rewrite I1, insert_insert_eq. by rewrite <- Ht.
    + intros ino' o Ho. by rewrite (byte_size s1 ino _ _ ino' o Hi1), (Y1 ino' o Ho).
  - exists (data i), s, D. split_and!; [done|done|set_solver|by apply URadix.room_less| |].
    + rewrite insert_id; [done|]. rewrite Hi. destruct i. cbn in *. do 2 f_equal; [done|lia].
    + intros ino' o Ho. case_decide as Do; [|done]. destruct Do as [-> Do]. apply (o_tail s D O ino i o); [done..|lia].
Qed.

(** Truncating cuts the file or appends zeros; no other file changes.  The page with
    the new end must not be missing. *)
Theorem truncate_ok s D ino i n r : fs_ok s D → inodes s !! ino = Some i → type i = FS_REG → 0 ≤ n < 2 ^ 63 →
  (n < size i → n mod PAGE_SIZE = 0 ∨ radix_get (data i) (n / PAGE_SIZE) ≠ 0) → room (heap s) (1 + r) →
  ∃ s' D', tfs_truncate ino n s = Done 0 s' ∧ fs_ok s' D' ∧ D ∖ dom (pages s) ⊆ D' ∧ room (heap s') r ∧
  content s' ino = take (Z.to_nat n) (content s ino) ++ replicate (Z.to_nat n - length (content s ino)) 0 ∧
  ∀ ino', ino' ≠ ino → inodes s' !! ino' = inodes s !! ino' ∧ content s' ino' = content s ino'.
Proof.
  intros O Hi Ht Hn HG Hr. destruct (truncate_spec s D ino i n r O Hi Ht Hn HG Hr) as (d' & s' & D' & E & B' & S' & R' & I' & Y).
  exists s', D'. split_and!; [done| |done|done| |].
  - eapply (fs_ok_change s s' D D' ino i); [done..| |].
    + intros o Ho Hso. rewrite (Y ino o Ho). by rewrite decide_True.
    + intros ino' o N Ho. rewrite (Y ino' o Ho). by rewrite decide_False by naive_solver.
  - eapply (content_trunc s s' ino i); [done|by rewrite I', lookup_insert_eq|done|done|by apply (o_size s D O ino)| |].
    + intros o Ho. apply (o_tail s D O ino i o Hi); [by rewrite Ht|done].
    + intros o Ho. rewrite (Y ino o Ho). apply decide_ext. naive_solver.
  - eapply (others_same s s' D ino); [done|done|]. intros ino' o N Hou. rewrite (Y ino' o Hou). by rewrite decide_False by naive_solver.
Qed.

(** ** Holes *)

Lemma punch_pages_spec fuel s D ino i cur n : base_ok s D → inodes s !! ino = Some i → type i ≠ FS_DIR → size i < 2 ^ 63 →
  0 ≤ cur → 0 ≤ n → cur + n < size i → (0 < n → (npages cur n ≤ fuel)%nat) →
  ∃ d' s' D', punch_pages fuel ino cur n 0 s = Done 0 s' ∧ base_ok s' D' ∧ D ∖ dom (pages s) ⊆ D' ∧ dom (pages s') ⊆ dom (pages s) ∧
  inodes s' = <[ino := with_data d' i]> (inodes s) ∧
  (∀ ino' o, is_u64 o → byte s' ino' o = if decide (ino' = ino ∧ cur ≤ o < cur + n) then 0 else byte s ino' o).
Proof.
  revert s D i cur n. induction fuel as [|fuel IH]; intros s D i cur n B Hi Ht Hs Hc Hn Hcn Hf; cbn [punch_pages]; destruct (Z.ltb_spec 0 n) as [L|L].
  1: pose proof (npages_pos cur n Hc L); specialize (Hf L); lia.
  1, 3: exists (data i), s, D; split_and!; [done|done|set_solver|done|rewrite insert_id; [done|by destruct i]|]; intros ino' o Ho; by rewrite decide_False by lia.
  specialize (Hf L). destruct (chunk_ok cur n Hc L) as (C1 & C2 & C3 & C4 & C5). cbv zeta.
  change (Z.min n (PAGE_SIZE - cur mod PAGE_SIZE)) with (chunk cur n). set (m := chunk cur n) in *. set (k := cur / PAGE_SIZE) in *. set (po := cur mod PAGE_SIZE) in *.
  assert (is_key k) as Hk by (apply key_of; unfold is_u64; lia). rewrite u64_id by (unfold is_u64; lia). erewrite bind_Done by (by apply inode_at_ok).
  (* one round: the bytes of the range in this page become zero *)
  assert (∃ d1 s1 D1, (if radix_get (data i) k =? 0 then ret 0
      else if (m =? PAGE_SIZE) || (cur + m =? size i) then data_del ino k true
      else page_store (radix_get (data i) k) po (replicate (Z.to_nat m) 0) ;; ret 0) s = Done 0 s1 ∧ base_ok s1 D1 ∧ D ∖ dom (pages s) ⊆ D1 ∧
      dom (pages s1) ⊆ dom (pages s) ∧ inodes s1 = <[ino := with_data d1 i]> (inodes s) ∧
      ∀ ino' o, is_u64 o → byte s1 ino' o = if decide (ino' = ino ∧ cur ≤ o < cur + m) then 0 else byte s ino' o) as (d1 & s1 & D1 & E1 & B1 & S1 & P1 & I1 & Y1).
  { rewrite (proj2 (Z.eqb_neq (cur + m) (size i))) by lia. rewrite orb_false_r. destruct (Z.eqb_spec (radix_get (data i) k) 0) as [E0|N0]; [|destruct (Z.eqb_spec m PAGE_SIZE) as [Em|Nm]].
    - exists (data i), s, D. split_and!; [done|done|set_solver|done|rewrite insert_id; [done|by destruct i]|]. intros ino' o Ho. case_decide as Dr; [|done]. destruct Dr as [-> Dr].
      unfold byte. rewrite Hi. unfold byte_in. pose proof (touched_own o ltac:(unfold is_u64 in Ho; lia)). assert (o / PAGE_SIZE = k) as -> by (unfold PAGE_SIZE in *; lia). by rewrite E0.
    - destruct (data_del_ok s D ino i k B Hi Ht Hk) as (e & d1 & s1 & D1 & E1 & He & B1 & S1 & P1 & I1 & G1 & _ & Y1). rewrite (He N0) in E1.
      exists d1, s1, D1. split_and!; [done..|]. intros ino' o Ho. rewrite (Y1 ino' o Ho). pose proof (touched_own o ltac:(unfold is_u64 in Ho; lia)). apply decide_ext.
      unfold PAGE_SIZE in *. split; (intros [-> ?]; split; [done|lia]).
    - destruct (page_store_ok s D ino i k po (replicate (Z.to_nat m) 0) B Hi Hk N0) as (s1 & E1 & B1 & T1 & I1 & P1 & Y1); [lia|rewrite length_replicate; lia|].
      rewrite length_replicate, Z2Nat.id in Y1 by lia. exists (data i), s1, D. split_and!; [by erewrite bind_Done by exact E1|done|set_solver|by rewrite P1|rewrite I1, insert_id; [done|by destruct i]|].
      intros ino' o Ho. rewrite (Y1 ino' o Ho). replace (k * PAGE_SIZE + po) with cur by lia. case_decide as Dr; [|done]. by rewrite lookup_replicate_2 by lia. }
  destruct (IH s1 D1 (with_data d1 i) (cur + m) (n - m) B1) as (d' & s' & D' & E2 & B2 & S2 & P2 & I2 & Y2); [by rewrite I1, lookup_insert_eq|done|done|lia|lia|cbn [with_data size]; lia| |].
  { intros Hm. destruct (chunk_next cur n Hc L) as [_ EN]; [fold m; lia|]. fold m in EN. lia. }
  exists d', s', D'. split_and!; [|done|clear Y1 Y2; set_solver|by transitivity (dom (pages s1))|by rewrite I2, I1, insert_insert_eq|].
  - destruct (radix_get (data i) k =? 0); [by injection E1 as <-|]. erewrite bind_Done by exact E1. exact E2.
  - intros ino' o Ho. rewrite (Y2 ino' o Ho), (Y1 ino' o Ho). destruct (decide (ino' = ino ∧ cur ≤ o < cur + n)) as [[-> Hor]|N].
    + case_decide as D2; [done|]. rewrite decide_True by lia. done.
    + rewrite !decide_False; [done|naive_solver lia|naive_solver lia].
Qed.

(** A hole inside of a file reads as zeros, and nothing else changes; [err] must have
    been 0 by accident. *)
Theorem punch_hole_ok s D ino i off n : fs_ok s D → inodes s !! ino = Some i → type i ≠ FS_DIR → 0 ≤ off → 0 ≤ n → off + n < size i →
  ∃ s' D', fs_punch_hole 0 ino off n s = Done 0 s' ∧ fs_ok s' D' ∧ D ∖ dom (pages s) ⊆ D' ∧
  content s' ino = take (Z.to_nat off) (content s ino) ++ replicate (Z.to_nat n) 0 ++ drop (Z.to_nat (off + n)) (content s ino) ∧
  ∀ ino', ino' ≠ ino → inodes s' !! ino' = inodes s !! ino' ∧ content s' ino' = content s ino'.
Proof.
  intros O Hi Ht Ho Hn Hon. pose proof (o_size s D O ino i Hi) as Hs. unfold fs_punch_hole. rewrite u64_id by (unfold is_u64; lia).
  destruct (punch_pages_spec (npages off n) s D ino i off n (o_base s D O) Hi Ht ltac:(lia) Ho Hn Hon ltac:(done)) as (d' & s' & D' & E & B' & S' & _ & I' & Y).
  exists s', D'. split_and!; [done| |done| |].
  - eapply (fs_ok_change s s' D D' ino i); [done|done|done|exact I'|done| |].
    + cbn [with_data size]. intros o Hou Hso. rewrite (Y ino o Hou). rewrite decide_False by lia. by apply (o_tail s D O ino i o).
    + intros ino' o N Hou. rewrite (Y ino' o Hou). by rewrite decide_False by naive_solver.
  - pose proof (content_splice s s' ino i (with_data d' i) off (replicate (Z.to_nat n) 0) Hi) as HC. rewrite length_replicate, Z2Nat.id in HC by done.
    apply HC; [by rewrite I', lookup_insert_eq|lia|lia|done|cbn [with_data size]; lia|].
    intros o Hou. rewrite (Y ino o Hou). destruct (decide (off ≤ o < off + n)) as [Hor|N]; [rewrite decide_True by done; by rewrite lookup_replicate_2 by lia|].
    by rewrite decide_False by naive_solver.
  - eapply (others_same s s' D ino); [done|exact I'|]. intros ino' o N Hou. rewrite (Y ino' o Hou). by rewrite decide_False by naive_solver.
Qed.

End laws.

(** ** Writing *)

Section writes.
Context {H : Type} `{!Malloc H} (junk : Z → list Z).
Hypothesis junk_len : ∀ p, length (junk p) = Z.to_nat PAGE_SIZE.
Implicit Types s : state H.

(** A new page gets its place. *)
Lemma base_ok_link s D D' h' ino i k p d' : base_ok s D → inodes s !! ino = Some i → is_key k → radix_get (data i) k = 0 →
  p ≠ 0 → (p ∉ D) → live h' D' → {[p]} ∪ D ⊆ D' → links d' (data i) k p →
  base_ok (mk_state h' (<[p := junk p]> (pages s)) (<[ino := with_data d' i]> (inodes s))) D'.
Proof.
  intros [B1 B2 B3 B4 B5] Hi Hk H0 Hp Np HL HS (E1 & E2 & E3 & E4). assert (pages s !! p = None) as Fp by (apply not_elem_of_dom; set_solver).
  assert (∀ ino' i' b, <[ino := with_data d' i]> (inodes s) !! ino' = Some i' → is_key b → radix_get (data i') b ≠ 0 →
    (ino' = ino ∧ b = k ∧ radix_get (data i') b = p) ∨
    (radix_get (data i') b ≠ p ∧ (ino' ≠ ino ∨ b ≠ k) ∧ ∃ i0, inodes s !! ino' = Some i0 ∧ radix_get (data i0) b = radix_get (data i') b)) as HC.
  { intros ino' i' b [[<- <-]|[N Hi']]%lookup_insert_Some Hb Nb; cbn [with_data data] in *.
    - destruct (decide (b = k)) as [->|Nk]; [by left|right]. rewrite (E2 b Hb Nk) in *. split_and!; [|by right|by exists i].
      intros Eb. destruct (B3 ino i b Hi Hb Nb) as (l & Hl & _). rewrite Eb in Hl. congruence.
    - right. split_and!; [|by left|by exists i']. intros Eb. destruct (B3 ino' i' b Hi' Hb Nb) as (l & Hl & _). rewrite Eb in Hl. congruence. }
  split; cbn [heap pages inodes]; [done|rewrite dom_insert_L; set_solver| | |].
  - intros ino' i' b Hi' Hb Nb. destruct (HC ino' i' b Hi' Hb Nb) as [(-> & -> & ->)|(N & _ & i0 & H1 & H2)].
    + rewrite lookup_insert_eq. eexists. split; [done|apply junk_len].
    + rewrite lookup_insert_ne by done. rewrite <- H2. apply (B3 ino' i0); [done|done|congruence].
  - intros ia ia' ka ib ib' kb Ha Hb Ka Kb Na Eab. assert (radix_get (data ib') kb ≠ 0) as Nb by congruence.
    destruct (HC ia ia' ka Ha Ka Na) as [(-> & -> & Ea)|(Npa & Dka & i0 & H1 & H2)]; destruct (HC ib ib' kb Hb Kb Nb) as [(-> & -> & Eb)|(Npb & Dkb & i1 & H3 & H4)].
    + done.
    + congruence.
    + congruence.
    + apply (B4 ia i0 ka ib i1 kb); [done|done|done|done|congruence|congruence].
  - intros ino' i' [[<- <-]|[N Hi']]%lookup_insert_Some Ht; [|by eapply B5]. cbn [with_data data type] in *. rewrite E4. split; [done|]. by apply (B5 ino i Hi Ht).
Qed.

(** A place without a page gets a new one. *)
Lemma new_page_ok s D ino i k r : base_ok s D → inodes s !! ino = Some i → is_key k → radix_get (data i) k = 0 → room (heap s) (9 + r) →
  ∃ d' s0 s' D', new_page junk s = Done (radix_get d' k) s0 ∧ data_add ino k (radix_get d' k) s0 = Done 0 s' ∧
  radix_get d' k ≠ 0 ∧ base_ok s' D' ∧ D ⊆ D' ∧ inodes s' = <[ino := with_data d' i]> (inodes s) ∧ room (heap s') r ∧
  (∀ b, is_key b → b ≠ k → radix_get d' b = radix_get (data i) b) ∧
  (∀ ino' o, is_u64 o → ino' ≠ ino ∨ o / PAGE_SIZE ≠ k → byte s' ino' o = byte s ino' o).
Proof.
  intros B Hi Hk E0 Hr.
  destruct (URadix.malloc_ok (heap s) D PAGE_SIZE (b_live s D B)) as (p & h1 & E1 & Hp).
  destruct (URadix.malloc_room _ _ _ _ _ Hr E1) as [Np R1]. destruct Hp as [[-> _]|(Pp & Fp & L1)]; [done|].
  pose (s1 := mk_state h1 (<[p := junk p]> (pages s)) (inodes s)).
  assert (new_page junk s = Done p s1) as En.
  { unfold new_page. erewrite bind_Done by (apply zoom_Done; exact E1). by rewrite (proj2 (Z.eqb_neq _ _) Np). }
  destruct (URadix.uradix_add_ok (data i) k p h1 _ Hk L1) as (e & d' & h2 & D' & E2 & L2 & S2 & V2 & C2 & R2).
  destruct (R2 r R1) as [-> R3]. destruct C2 as [[_ C2]|[C2 _]]; [|done].
  assert (data_add ino k p s1 = Done 0 (mk_state h2 (<[p := junk p]> (pages s)) (<[ino := with_data d' i]> (inodes s)))) as Ea.
  { unfold data_add. erewrite bind_Done by (by apply inode_at_ok). erewrite bind_Done by (apply zoom_Done; exact E2).
    by erewrite bind_Done by (by apply (set_inode_ok _ ino i)). }
  assert (radix_get d' k = p) as Ek by (rewrite C2 by done; by rewrite decide_True).
  assert (∀ b, is_key b → b ≠ k → radix_get d' b = radix_get (data i) b) as Ee by (intros b Hb Nb; rewrite C2 by done; by rewrite decide_False by congruence).
  assert (URadix.root d' ≠ None) as Rd by (intros E; unfold radix_get in Ek; by rewrite E in Ek).
  eexists d', s1, _, D'. rewrite Ek. split_and!; [exact En|exact Ea|done| |set_solver|done|done|done|].
  - eapply (base_ok_link s D D' h2 ino i k p d'); [done..|set_solver|by split_and!].
  - intros ino' o Ho HN. apply byte_ext; cbn [inodes pages].
    + intros i' Hi'. destruct (decide (ino' = ino)) as [->|N]; [|exists i'; rewrite lookup_insert_ne by done; split_and!; [done..|]].
      * rewrite Hi in Hi'. injection Hi' as <-. exists (with_data d' i). rewrite lookup_insert_eq. cbn [with_data data]. split; [done|].
        assert (o / PAGE_SIZE ≠ k) as Nk by naive_solver. pose proof (key_of o Ho). split; [by apply Ee|]. intros N1. apply lookup_insert_ne. intros ->.
        destruct (b_page s D B ino i _ Hi H0 N1) as (l & Hl & _). apply Fp, (b_pages s D B), elem_of_dom. eauto.
      * intros N1. apply lookup_insert_ne. intros ->. destruct (b_page s D B ino' i' _ Hi' (key_of o Ho) N1) as (l & Hl & _). apply Fp, (b_pages s D B), elem_of_dom. eauto.
    + intros Hn. rewrite lookup_insert_ne; [done|]. congruence.
Qed.

Lemma page_for_ok s D ino i k r : base_ok s D → inodes s !! ino = Some i → is_key k → room (heap s) (9 + r) →
  ∃ d' s' D', page_for junk ino k s = Done (radix_get d' k) s' ∧ radix_get d' k ≠ 0 ∧ base_ok s' D' ∧ D ⊆ D' ∧
  inodes s' = <[ino := with_data d' i]> (inodes s) ∧ room (heap s') r ∧
  (radix_get (data i) k ≠ 0 → radix_get d' k = radix_get (data i) k) ∧
  (∀ b, is_key b → b ≠ k → radix_get d' b = radix_get (data i) b) ∧
  (∀ ino' o, is_u64 o → ino' ≠ ino ∨ o / PAGE_SIZE ≠ k ∨ radix_get (data i) k ≠ 0 → byte s' ino' o = byte s ino' o).
Proof.
  intros B Hi Hk Hr. unfold page_for. erewrite bind_Done by (by apply inode_at_ok). cbv zeta.
  destruct (Z.eqb_spec (radix_get (data i) k) 0) as [E0|N0].
  - destruct (new_page_ok s D ino i k r B Hi Hk E0 Hr) as (d' & s0 & s' & D' & E1 & E2 & Np & B' & S' & I' & R' & G' & Y').
    exists d', s', D'. erewrite bind_Done by exact E1. rewrite (proj2 (Z.eqb_neq _ _) Np). erewrite bind_Done by exact E2.
    split_and!; [done..|]. intros ino' o Ho HN. apply Y'; naive_solver.
  - exists (data i), s, D. split_and!; [done|done|done|done| |by eapply (room_drop _ 9)|done|done|done].
    rewrite insert_id; [done|]. by destruct i.
Qed.

Lemma write_pages_spec fuel s D ino i cur buf page r : base_ok s D → inodes s !! ino = Some i → type i ≠ FS_DIR →
  let n := Z.of_nat (length buf) in
  0 ≤ cur → cur + n < 2 ^ 63 → (0 < n → (npages cur n ≤ fuel)%nat) → room (heap s) (9 * fuel + r) →
  ∃ d' s' D' page', write_pages junk fuel ino cur buf page s = Done (inr (cur + n, page')) s' ∧ base_ok s' D' ∧ D ⊆ D' ∧
  inodes s' = <[ino := with_data d' i]> (inodes s) ∧ room (heap s') r ∧
  (if decide (0 < n) then page' = radix_get d' ((cur + n - 1) / PAGE_SIZE) ∧ page' ≠ 0 else page' = page) ∧
  (∀ b, is_key b → radix_get (data i) b ≠ 0 ∨ ¬ touched cur n b → radix_get d' b = radix_get (data i) b) ∧
  (∀ ino' o, is_u64 o →
    if decide (ino' = ino ∧ cur ≤ o < cur + n) then byte s' ino' o = default 0 (buf !! Z.to_nat (o - cur))
    else ino' ≠ ino ∨ radix_get (data i) (o / PAGE_SIZE) ≠ 0 ∨ ¬ touched cur n (o / PAGE_SIZE) → byte s' ino' o = byte s ino' o).
Proof.
  revert s D i cur buf page. induction fuel as [|fuel IH]; intros s D i cur buf page B Hi Ht n H0 H1 Hf Hr.
  all: destruct (decide (buf = [])) as [->|Nb].
  1, 3: exists (data i), s, D, page; replace (cur + n) with cur by (unfold n; simpl; lia); split_and!;
    [done|done|done|rewrite insert_id; [done|by destruct i]|by eapply room_drop|done|done|];
    intros ino' o Ho; rewrite decide_False by lia; done.
  { assert (0 < n) as Hn by (unfold n; destruct buf; [done|simpl; lia]). pose proof (npages_pos cur n H0 Hn). specialize (Hf Hn). lia. }
  assert (0 < n) as Hn by (unfold n; destruct buf; [done|simpl; lia]). specialize (Hf Hn).
  destruct (chunk_ok cur n H0 Hn) as (C1 & C2 & C3 & C4 & C5). set (m := chunk cur n) in *. set (k := cur / PAGE_SIZE) in *. set (po := cur mod PAGE_SIZE) in *.
  assert (is_key k) as Hk by (apply key_of; unfold is_u64; lia).
  replace (9 * S fuel + r)%nat with (9 + (9 * fuel + r))%nat in Hr by lia.
  destruct (page_for_ok s D ino i k (9 * fuel + r) B Hi Hk Hr) as (d1 & s1 & D1 & E1 & N1 & B1 & S1 & I1 & R1 & K1 & G1 & Y1).
  assert (inodes s1 !! ino = Some (with_data d1 i)) as Hi1 by (by rewrite I1, lookup_insert_eq).
  assert (length (take (Z.to_nat m) buf) = Z.to_nat m) as Lm by (rewrite length_take; lia).
  destruct (page_store_ok s1 D1 ino (with_data d1 i) k po (take (Z.to_nat m) buf) B1 Hi1 Hk N1) as (s2 & E2 & B2 & T2 & I2 & _ & Y2); [lia|rewrite Lm; lia|].
  destruct (IH s2 D1 (with_data d1 i) (cur + m) (drop (Z.to_nat m) buf) (radix_get d1 k) B2) as (d' & s' & D' & page' & E3 & B3 & S3 & I3 & R3 & P3 & G3 & Y3).
  { by rewrite I2. } { done. } { lia. } { rewrite length_drop. lia. }
  { rewrite length_drop. intros Hm. destruct (chunk_next cur n H0 Hn) as [_ EN]; [fold m; lia|]. fold m in EN.
    replace (Z.of_nat (length buf - Z.to_nat m)) with (n - m) by lia. lia. }
  { by rewrite T2. }
  rewrite length_drop in *. replace (Z.of_nat (length buf - Z.to_nat m)) with (n - m) in * by lia. replace (cur + m + (n - m)) with (cur + n) in * by lia.
  assert (∀ b, touched (cur + m) (n - m) b → touched cur n b) as RT.
  { intros b [T1 T3]. split; [|lia]. etransitivity; [|exact T1]. apply Z.div_le_mono; unfold PAGE_SIZE; lia. }
  assert (∀ o, cur ≤ o < cur + m → o / PAGE_SIZE = k) as HK.
  { intros o Hom. replace o with (k * PAGE_SIZE + (o - k * PAGE_SIZE)) by lia. rewrite Z.div_add_l by done. rewrite Z.div_small by lia. lia. }
  exists d', s', D', page'. split_and!.
  - destruct buf as [|x buf0]; [done|]. cbn [write_pages]. cbv zeta. fold k po. erewrite bind_Done by exact E1. rewrite (proj2 (Z.eqb_neq _ _) N1).
    change (Z.min (Z.of_nat (length (x :: buf0))) (PAGE_SIZE - po)) with m. erewrite bind_Done by exact E2. rewrite u64_id by (unfold is_u64; lia). exact E3.
  - done.
  - by transitivity D1.
  - rewrite I3, I2, I1, insert_insert_eq. done.
  - done.
  - rewrite decide_True by done. destruct (decide (m = n)) as [Em|Nm]; [|by rewrite decide_True in P3 by lia].
    rewrite decide_False in P3 by lia. assert ((cur + n - 1) / PAGE_SIZE = k) as ->.
    { replace (cur + n - 1) with (k * PAGE_SIZE + (po + n - 1)) by lia. rewrite Z.div_add_l by done. rewrite Z.div_small by lia. lia. }
    rewrite (G3 k Hk) by (by left). by rewrite P3.
  - intros b Hb HT. destruct (decide (b = k)) as [->|Nk].
    + assert (radix_get (data i) k ≠ 0) as Nk by (destruct HT as [?|HT]; [done|destruct HT; split; fold k; lia]).
      rewrite (G3 k Hk) by (by left). by apply K1.
    + rewrite <- (G1 b Hb Nk) in *. apply G3; [done|]. destruct HT as [?|HT]; [by left|right]. by intros ?%RT.
  - intros ino' o Ho. specialize (Y3 ino' o Ho). specialize (Y2 ino' o Ho). specialize (Y1 ino' o Ho). rewrite Lm in Y2.
    destruct (decide (ino' = ino ∧ cur ≤ o < cur + n)) as [[-> Hor]|Hor].
    + destruct (decide (ino = ino ∧ cur + m ≤ o < cur + n)) as [[_ Hm]|Hm].
      * rewrite Y3, lookup_drop. do 2 f_equal. lia.
      * assert (o / PAGE_SIZE = k) as Eo by (apply HK; lia). rewrite Y3 by (right; left; by rewrite Eo). rewrite Y2, decide_True by lia.
        rewrite lookup_take_lt by lia. do 2 f_equal. lia.
    + intros HN. rewrite decide_False in Y3 by lia. rewrite decide_False in Y2 by lia. rewrite Y3, Y2, Y1; [done| |].
      * destruct HN as [?|HN]; [by left|right]. destruct (decide (o / PAGE_SIZE = k)) as [Eo|]; [right|by left].
        rewrite Eo in HN. destruct HN as [?|HN]; [done|]. destruct HN. split; fold k; lia.
      * destruct HN as [?|HN]; [by left|right]. cbn [with_data data]. destruct (decide (o / PAGE_SIZE = k)) as [Eo|No]; [left; by rewrite Eo|].
        rewrite (G1 _ (key_of o Ho) No). destruct HN as [?|HN]; [by left|right]. by intros ?%RT.
Qed.

Lemma write_spec s D ino i off buf r : fs_ok s D → inodes s !! ino = Some i → type i ≠ FS_DIR →
  let n := Z.of_nat (length buf) in
  0 ≤ off ≤ size i → off + n < 2 ^ 63 → gap_free i off n → room (heap s) (9 * npages off n + r) →
  ∃ d' s' D', tfs_file_write junk ino off buf s = Done n s' ∧ fs_ok s' D' ∧ D ⊆ D' ∧ room (heap s') r ∧
  inodes s' = <[ino := mk_inode (refcnt i) (type i) (Z.max (size i) (off + n)) d']> (inodes s) ∧
  ∀ ino' o, is_u64 o → byte s' ino' o = if decide (ino' = ino ∧ off ≤ o < off + n) then default 0 (buf !! Z.to_nat (o - off)) else byte s ino' o.
Proof.
  intros O Hi Ht n Ho Hn Hg Hr. pose proof (o_size s D O ino i Hi) as Hs.
  destruct (write_pages_spec (npages off n) s D ino i off buf 0 r (o_base s D O) Hi Ht) as (d' & s1 & D' & page' & E1 & B1 & S1 & I1 & R1 & P1 & G1 & Y1);
    [lia|done|done|done|]. fold n in E1, P1, G1, Y1.
  assert (inodes s1 !! ino = Some (with_data d' i)) as Hi1 by (by rewrite I1, lookup_insert_eq).
  destruct (extend_ok s1 D' ino (with_data d' i) (off + n) page' B1 Hi1) as (s2 & E2 & B2 & T2 & I2 & Y2);
    [lia|intros L; cbn [with_data size] in L; by rewrite decide_True in P1 by lia|]. cbn [with_data size] in I2, Y2.
  assert (∀ ino' o, is_u64 o → byte s2 ino' o = if decide (ino' = ino ∧ off ≤ o < off + n) then default 0 (buf !! Z.to_nat (o - off)) else byte s ino' o) as Y.
  { clear P1. intros ino' o Hou. specialize (Y1 ino' o Hou). specialize (Y2 ino' o Hou). rewrite Y2. clear Y2. unfold is_u64 in Hou. pose proof (touched_own o ltac:(lia)) as To.
    destruct (decide (ino' = ino ∧ off ≤ o < off + n)) as [[-> Hor]|Hor]; [rewrite decide_False by lia; exact Y1|].
    case_decide as Dt; [destruct Dt as (-> & L & H1 & H2); symmetry; by apply (o_tail s D O ino i o Hi Ht); [|lia]|].
    apply Y1. destruct (decide (ino' = ino)) as [->|]; [right|by left]. destruct (decide (radix_get (data i) (o / PAGE_SIZE) = 0)) as [E0|]; [right|by left].
    intros HT. destruct (Hg _ HT E0) as [G2 G3]. destruct HT as [_ HT]. apply Dt. split_and!; [done|lia|lia|done]. }
  exists d', s2, D'. split_and!; [| |done|by rewrite T2|by rewrite I2, I1, insert_insert_eq|done].
  - unfold tfs_file_write. erewrite bind_Done by (by apply inode_at_ok). rewrite (proj2 (Z.eqb_neq _ _) Ht). cbn [BUG_ON]. unfold bind at 1, ret at 1.
    rewrite u64_id by (unfold is_u64; lia). rewrite (proj2 (Z.ltb_ge _ _)) by lia. cbn [BUG_ON]. unfold bind at 1, ret at 1. fold n.
    erewrite bind_Done by exact E1. cbv beta iota. erewrite bind_Done by exact E2. unfold ret. f_equal. rewrite s64_id; lia.
  - eapply (fs_ok_change s s2 D D' ino i); [done|done|done|by rewrite I2, I1, insert_insert_eq|cbn [with_size size]; lia| |].
    + cbn [with_size size with_data]. intros o Hou Hso. rewrite (Y ino o Hou). rewrite decide_False by lia. apply (o_tail s D O ino i); [done..|lia].
    + intros ino' o N Hou. rewrite (Y ino' o Hou). by rewrite decide_False by naive_solver.
Qed.

(** Writing replaces the bytes of the range, and makes the file longer when it has
    to; no other file changes. *)
Theorem file_write_ok s D ino i off buf r : fs_ok s D → inodes s !! ino = Some i → type i ≠ FS_DIR →
  let n := Z.of_nat (length buf) in
  0 ≤ off ≤ size i → off + n < 2 ^ 63 → gap_free i off n → room (heap s) (9 * npages off n + r) →
  ∃ s' D', tfs_file_write junk ino off buf s = Done n s' ∧ fs_ok s' D' ∧ D ⊆ D' ∧ room (heap s') r ∧
  content s' ino = take (Z.to_nat off) (content s ino) ++ buf ++ drop (Z.to_nat (off + n)) (content s ino) ∧
  ∀ ino', ino' ≠ ino → inodes s' !! ino' = inodes s !! ino' ∧ content s' ino' = content s ino'.
Proof.
  intros O Hi Ht n Ho Hn Hg Hr. destruct (write_spec s D ino i off buf r O Hi Ht Ho Hn Hg Hr) as (d' & s' & D' & E & O' & S' & R' & I' & Y). fold n in E, I', Y.
  exists s', D'. split_and!; [done..| |].
  - eapply (content_splice s s' ino i); [done|by rewrite I', lookup_insert_eq|done|done|by apply (o_size s D O ino)|done|].
    intros o Hou. rewrite (Y ino o Hou). apply decide_ext. naive_solver.
  - eapply (others_same s s' D ino); [done|done|]. intros ino' o N Hou. rewrite (Y ino' o Hou). by rewrite decide_False by naive_solver.
Qed.

Lemma alloc_pages_spec fuel s D ino i cur stop r : base_ok s D → inodes s !! ino = Some i → 0 ≤ cur → 0 ≤ stop < 2 ^ 63 →
  stop ≤ cur + Z.of_nat fuel * PAGE_SIZE → room (heap s) (9 * fuel + r) →
  ∃ d' s' D', alloc_pages junk fuel ino cur stop s = Done 0 s' ∧ base_ok s' D' ∧ D ⊆ D' ∧ room (heap s') r ∧
  inodes s' = <[ino := with_data d' i]> (inodes s) ∧ (∀ ino' o, is_u64 o → byte s' ino' o = byte s ino' o).
Proof.
  revert s D i cur. induction fuel as [|fuel IH]; intros s D i cur B Hi Hc Hst Hf Hr; cbn [alloc_pages]; destruct (Z.ltb_spec cur stop) as [L|L].
  1: lia.
  1, 3: exists (data i), s, D; split_and!; [done|done|done|by eapply room_drop|rewrite insert_id; [done|by destruct i]|done].
  cbv zeta. set (k := cur / PAGE_SIZE). assert (is_key k) as Hk by (apply key_of; unfold is_u64; lia).
  replace (9 * S fuel + r)%nat with (9 + (9 * fuel + r))%nat in Hr by lia. erewrite bind_Done by (by apply inode_at_ok).
  rewrite u64_id by (unfold is_u64, PAGE_SIZE; lia). destruct (Z.eqb_spec (radix_get (data i) k) 0) as [E0|N0].
  - destruct (new_page_ok s D ino i k _ B Hi Hk E0 Hr) as (d1 & s0 & s1 & D1 & E1 & E2 & Np & B1 & S1 & I1 & R1 & G1 & Y1).
    assert (inodes s1 !! ino = Some (with_data d1 i)) as Hi1 by (by rewrite I1, lookup_insert_eq).
    destruct (page_store_ok s1 D1 ino (with_data d1 i) k 0 (replicate (Z.to_nat PAGE_SIZE) 0) B1 Hi1 Hk Np) as (s2 & E3 & B2 & T2 & I2 & _ & Y2); [done|by rewrite length_replicate|].
    rewrite length_replicate in Y2.
    destruct (IH s2 D1 (with_data d1 i) (cur + PAGE_SIZE) B2) as (d' & s' & D' & E4 & B3 & S3 & R3 & I3 & Y3); [by rewrite I2|unfold PAGE_SIZE; lia|done|lia|by rewrite T2|].
    exists d', s', D'. split_and!; [|done|by transitivity D1|done|by rewrite I3, I2, I1, insert_insert_eq|].
    + erewrite bind_Done.
      2: { erewrite bind_Done by exact E1. rewrite (proj2 (Z.eqb_neq _ _) Np). erewrite bind_Done by exact E2. cbn [Z.eqb negb]. by erewrite bind_Done by exact E3. }
      exact E4.
    + intros ino' o Ho. rewrite (Y3 ino' o Ho), (Y2 ino' o Ho). unfold is_u64 in Ho. pose proof (touched_own o ltac:(lia)) as To.
      case_decide as Dr; [destruct Dr as [-> Dr]|apply Y1; [done|]].
      * rewrite lookup_replicate_2 by lia. unfold byte. rewrite Hi. unfold byte_in. assert (o / PAGE_SIZE = k) as -> by (unfold PAGE_SIZE in *; lia). by rewrite E0.
      * destruct (decide (ino' = ino)) as [->|]; [right|by left]. intros Ek. apply Dr. split; [done|]. rewrite Ek in To. unfold PAGE_SIZE in *. lia.
  - destruct (IH s D i (cur + PAGE_SIZE) B Hi) as (d' & s' & D' & E4 & B3 & S3 & R3 & I3 & Y3); [unfold PAGE_SIZE; lia|done|lia|by eapply (room_drop _ 9)|].
    exists d', s', D'. by split_and!.
Qed.

(** Allocating space changes no byte and adds zeros at the end when the size is not
    kept. *)
Theorem allocate_ok s D ino i off len keep r : fs_ok s D → inodes s !! ino = Some i → type i = FS_REG → 0 ≤ off → 0 < len → off + len < 2 ^ 63 →
  room (heap s) (9 * npages 0 len + r) →
  ∃ s' D', tfs_allocate junk ino off len keep s = Done 0 s' ∧ fs_ok s' D' ∧ D ⊆ D' ∧ room (heap s') r ∧
  content s' ino = content s ino ++ (if keep : bool then [] else replicate (Z.to_nat (off + len) - length (content s ino)) 0) ∧
  ∀ ino', ino' ≠ ino → inodes s' !! ino' = inodes s !! ino' ∧ content s' ino' = content s ino'.
Proof.
  intros O Hi Ht Ho Hl Hol Hr. pose proof (o_size s D O ino i Hi) as Hs. unfold tfs_allocate. erewrite bind_Done by (by apply inode_at_ok). rewrite Ht.
  cbn [BUG_ON Z.eqb Pos.eqb FS_REG FS_DIR negb andb]. unfold bind at 1, ret at 1. rewrite !u64_id by (unfold is_u64; lia).
  destruct (alloc_pages_spec (npages 0 len) s D ino i off (off + len) r (o_base s D O) Hi Ho ltac:(lia)) as (d' & s1 & D' & E1 & B1 & S1 & R1 & I1 & Y1); [|done|].
  { unfold npages. rewrite Z.mod_0_l by done. pose proof (Z.div_mod (0 + len + PAGE_SIZE - 1) PAGE_SIZE ltac:(done)).
    pose proof (Z.mod_pos_bound (0 + len + PAGE_SIZE - 1) PAGE_SIZE ltac:(done)). rewrite Z2Nat.id by (apply Z.div_pos; unfold PAGE_SIZE; lia). unfold PAGE_SIZE in *. lia. }
  erewrite bind_Done by exact E1. cbn [Z.eqb negb]. assert (inodes s1 !! ino = Some (with_data d' i)) as Hi1 by (by rewrite I1, lookup_insert_eq).
  erewrite bind_Done by (by apply inode_at_ok). cbn [with_data size]. set (v := if keep then size i else Z.max (size i) (off + len)).
  exists (with_inodes (<[ino := with_size v (with_data d' i)]>) s1), D'. assert (∀ ino' o, is_u64 o → byte (with_inodes (<[ino := with_size v (with_data d' i)]>) s1) ino' o = byte s ino' o) as Y.
  { intros ino' o Hou. by rewrite (byte_size s1 ino _ _ ino' o Hi1), (Y1 ino' o Hou). }
  assert (inodes (with_inodes (<[ino := with_size v (with_data d' i)]>) s1) = <[ino := with_size v (with_data d' i)]> (inodes s)) as I' by (cbn [with_inodes inodes]; by rewrite I1, insert_insert_eq).
  assert (∀ o, is_u64 o → size i ≤ o → byte s ino o = 0) as HT by (intros o; apply (o_tail s D O ino i o Hi); by rewrite Ht).
  split_and!; [| |done|done| |].
  - destruct (Z.ltb_spec (size i) (off + len)) as [L|L]; destruct keep; cbn [andb negb]; unfold v; rewrite ?Z.max_r, ?Z.max_l by lia;
      [|by erewrite bind_Done by (by apply (set_inode_ok _ ino (with_data d' i)))| |]; unfold bind, ret, with_inodes; f_equal; destruct s1; cbn [inodes] in *;
      rewrite insert_id; try done; rewrite Hi1; by destruct i.
  - eapply (fs_ok_change s _ D D' ino i); [done|done|by apply base_ok_size|exact I'|cbn [with_size size]; unfold v; destruct keep; lia| |].
    + cbn [with_size size]. intros o Hou Hv. rewrite (Y ino o Hou). apply HT; [done|]. unfold v in Hv. destruct keep; lia.
    + intros ino' o _ Hou. by apply Y.
  - apply list_eq. intros j. rewrite (content_lookup _ ino (with_size v (with_data d' i))) by (by rewrite I', lookup_insert_eq). cbn [with_size size].
    pose proof (content_length s ino i Hi) as LC. destruct (decide (Z.of_nat j < size i)) as [L|L].
    + rewrite decide_True by (unfold v; destruct keep; lia). rewrite lookup_app_l by lia. rewrite (content_lookup _ _ _ _ Hi), decide_True by done. f_equal. apply Y. unfold is_u64. lia.
    + rewrite lookup_app_r by lia. unfold v. destruct keep; [by rewrite decide_False|]. case_decide as Dj.
      * rewrite lookup_replicate_2 by lia. f_equal. rewrite Y by (unfold is_u64; lia). apply HT; [unfold is_u64; lia|lia].
      * symmetry. apply lookup_ge_None. rewrite length_replicate. lia.
  - eapply (others_same s _ D ino); [done|exact I'|]. intros ino' o _ Hou. by apply Y.
Qed.

(** Round trip.  What is written is read back: the bytes of the range are the new
    ones, all others of the file the old ones, other files do not change, and a read
    at any place gives the bytes of the file there, as many as there are. *)
Theorem file_write_read s D ino i off buf : fs_ok s D → inodes s !! ino = Some i → type i ≠ FS_DIR →
  let n := Z.of_nat (length buf) in
  0 ≤ off ≤ size i → off + n < 2 ^ 63 → gap_free i off n → room (heap s) (9 * npages off n) →
  let c' := take (Z.to_nat off) (content s ino) ++ buf ++ drop (Z.to_nat (off + n)) (content s ino) in
  ∃ s' D', tfs_file_write junk ino off buf s = Done n s' ∧ fs_ok s' D' ∧ content s' ino = c' ∧ tfs_file_read ino off n s' = Done (n, buf) s' ∧
  (∀ off' n', 0 ≤ off' < 2 ^ 63 → 0 ≤ n' → let l := take (Z.to_nat n') (drop (Z.to_nat off') c') in tfs_file_read ino off' n' s' = Done (Z.of_nat (length l), l) s') ∧
  ∀ ino', ino' ≠ ino → content s' ino' = content s ino'.
Proof.
  intros O Hi Ht n Ho Hn Hg Hr c'. rewrite <- (Nat.add_0_r (9 * _)) in Hr.
  destruct (write_spec s D ino i off buf 0 O Hi Ht Ho Hn Hg Hr) as (d' & s2 & D2 & E & _ & _ & _ & I' & _).
  destruct (file_write_ok s D ino i off buf 0 O Hi Ht Ho Hn Hg Hr) as (s' & D' & E' & O' & _ & _ & HC & HO).
  fold n in E, E'. rewrite E' in E. injection E as <-. assert (inodes s' !! ino = Some (mk_inode (refcnt i) (type i) (Z.max (size i) (off + n)) d')) as Hi' by (by rewrite I', lookup_insert_eq).
  assert (∀ off' n', 0 ≤ off' < 2 ^ 63 → 0 ≤ n' → let l := take (Z.to_nat n') (drop (Z.to_nat off') c') in tfs_file_read ino off' n' s' = Done (Z.of_nat (length l), l) s') as HR.
  { intros off' n' H1 H2 l. unfold l, c', n. rewrite <- HC. by eapply file_read_ok. }
  exists s', D'. split_and!; [done|done|exact HC| |exact HR|intros ino' N; by apply HO].
  specialize (HR off n ltac:(lia) ltac:(lia)). cbv zeta in HR. rewrite HR. assert (length (take (Z.to_nat off) (content s ino)) = Z.to_nat off) as LT
    by (rewrite length_take, (content_length s ino i Hi); lia).
  assert (take (Z.to_nat n) (drop (Z.to_nat off) c') = buf) as ->; [|done]. unfold c'. rewrite <- LT at 1. rewrite drop_app_length.
  by rewrite take_app_length' by lia.
Qed.

End writes.

(** ** Runs *)

Module TmpFileDemo.

#[local] Existing Instance URadix.arena.

Definition junk (p : Z) : list Z := replicate (Z.to_nat PAGE_SIZE) 0xAA.
(** One empty file, and memory up to [top]. *)
Definition empty_file : inode := mk_inode 1 FS_REG 0 (URadix.mk_radix (Some (URadix.new_node URadix.TOP)) true).
Definition start (top : Z) : state (Z * Z) := mk_state (1000, top) ∅ {[1 := empty_file]}.

Lemma junk_length p : length (junk p) = Z.to_nat PAGE_SIZE.
Proof. apply length_replicate. Qed.

Lemma empty_get k : radix_get (data empty_file) k = 0.
Proof. apply URadix.get_new. Qed.

Lemma start_ok top : fs_ok (start top) ∅.
Proof.
  assert (∀ ino i, inodes (start top) !! ino = Some i → i = empty_file) as HI.
  { intros ino i Hi. cbn [start inodes] in Hi. by apply lookup_singleton_Some in Hi as [_ <-]. }
  split; [split|..].
  - split; [done|]. intros p Hp. set_solver.
  - set_solver.
  - intros ino i k ->%HI _ N. by rewrite empty_get in N.
  - intros ino i k ino' i' k' ->%HI _ _ _ N. by rewrite empty_get in N.
  - intros ino i ->%HI _. done.
  - intros ino i ->%HI. done.
  - intros ino i o Hi _ _ _. unfold byte. rewrite Hi. apply HI in Hi as ->. unfold byte_in. by rewrite empty_get.
Qed.

(** Afterwards the file is [l]. *)
Definition leaves {X} (m : M (state (Z * Z)) X) (top : Z) (f : X → Z → list Z → bool) : bool :=
  match m (start top) with
  | Done x s => f x (default 0 (size <$> inodes s !! 1)) (content s 1)
  | _ => false
  end.

(** Writing into a hole shows what was in memory before: the page of the hole is
    not cleared. *)
Example write_hole : leaves (tfs_truncate 1 5000 ;; tfs_file_write junk 1 100 [1]) (2 ^ 30)
  (λ _ _ c, bool_decide (c !! 99%nat = Some 0xAA) && bool_decide (c !! 100%nat = Some 1)) = true.
Proof. vm_compute. reflexivity. Qed.

(** When the page of the new end is missing, truncation leaves later pages in place:
    what was cut off comes back when the file grows. *)
Example truncate_hole : leaves (tfs_truncate 1 4096 ;; tfs_file_write junk 1 4096 (replicate 100 7) ;; tfs_truncate 1 200 ;; tfs_truncate 1 4196) (2 ^ 30)
  (λ _ _ c, bool_decide (c !! Z.to_nat 4100 = Some 7)) = true.
Proof. vm_compute. reflexivity. Qed.

(** Out of memory in the second page: 4096 bytes are reported as written, but the
    file is still empty. *)
Example write_short : leaves (tfs_file_write junk 1 0 (replicate (Z.to_nat 5000) 7)) (1000 + 8 * 4096)
  (λ r n _, bool_decide (r = 4096) && bool_decide (n = 0)) = true.
Proof. vm_compute. reflexivity. Qed.

(** Out of memory for a node of the tree: the write succeeds and its data is lost. *)
Example write_lost : leaves (tfs_file_write junk 1 0 [1; 2; 3]) (1000 + 3 * 4096)
  (λ r _ c, bool_decide (r = 3) && bool_decide (c = [0; 0; 0])) = true.
Proof. vm_compute. reflexivity. Qed.

(** A hole up to the end of the file takes the bytes before it in the page along. *)
Example punch_hole_end : leaves (tfs_file_write junk 1 0 (replicate 100 7) ;; fs_punch_hole 0 1 50 50) (2 ^ 30)
  (λ _ _ c, bool_decide (c !! 10%nat = Some 0)) = true.
Proof. vm_compute. reflexivity. Qed.

(** The last page of a range is cleared with [PAGE_SIZE] bytes from the offset in
    the page: past its end, and past the end of the range. *)
Example zero_range_overflow : (tfs_file_write junk 1 0 (replicate 200 7) ;; fs_zero_range junk 1 50 50 0) (start (2 ^ 30)) = Fault.
Proof. vm_compute. reflexivity. Qed.
Example zero_range_more : leaves (tfs_file_write junk 1 0 (replicate 200 7) ;; fs_zero_range junk 1 0 50 0) (2 ^ 30)
  (λ _ _ c, bool_decide (c !! 100%nat = Some 0)) = true.
Proof. vm_compute. reflexivity. Qed.

(** The removed pages that are not replaced stay in the tree: they come back when the
    file grows. *)
Example collapse_stale : leaves (tfs_file_write junk 1 0 (replicate (Z.to_nat 8193) 7) ;; fs_collapse_range 1 0 8192 ;; tfs_truncate 1 8192) (2 ^ 30)
  (λ _ _ c, bool_decide (c !! Z.to_nat 5000 = Some 7)) = true.
Proof. vm_compute. reflexivity. Qed.

End TmpFileDemo.

(** [fs_insert_range] at offset 0 never returns: the loop counts down below 0. *)
Lemma insert_at_zero {H} `{!Malloc H} fuel ino page_no dist s r s' : 0 ≤ page_no → insert_pages fuel ino page_no 0 dist s = Done r s' → r ≠ 0.
Proof.
  revert page_no s. induction fuel as [|fuel IH]; intros page_no s Hp; cbn [insert_pages]; rewrite (proj2 (Z.leb_le _ _) Hp); [done|].
  cbv zeta. intros E. apply bind_inv in E as (i & s1 & _ & E). apply bind_inv in E as ([] & s2 & _ & E). apply bind_inv in E as (e & s3 & _ & E).
  destruct (Z.eqb_spec e 0) as [->|Ne]; cbn [negb] in E; [|by injection E as <- <-]. eapply IH; [|exact E]. apply u64_range.
Qed.

End TmpFile.
