(* ===== verification/Idman.v ===== *)
(** * Identifiers (user/musl-1.1.24/include/chcore/idman.h)

    An id manager hands out numbers below [max_id].  The bit of a number is set in
    [bitmap], an array of 64-bit words, while it is in use; [curr_slot] is the word
    where the next search starts.  The length of the array stands for [nr_slots], and
    [max_id] is taken to be an int that is not negative and at most INT_MAX - 63.

    The specification is the set of the numbers in use. *)

From S2P Require Import Prelude.

Module Idman.

Definition ENOENT : Z := 2.
Definition ENOMEM : Z := 12.
Definition BITS_PER_U64 : Z := 64.

Record id_manager := mk_idman { max_id : Z; curr_slot : Z; bitmap : list Z }.

Definition nr_slots (m : id_manager) : Z := Z.of_nat (length (bitmap m)).
Definition with_slot (c : Z) (m : id_manager) : id_manager := mk_idman (max_id m) c (bitmap m).
Definition with_word (c w : Z) (m : id_manager) : id_manager := mk_idman (max_id m) (curr_slot m) (<[Z.to_nat c := w]> (bitmap m)).

Abbreviation MI := (M id_manager).

Definition __clear_bit (w bit : Z) : Z := Z.land w (Z.lnot (Z.shiftl 1 bit)).
Definition __set_bit (w bit : Z) : Z := Z.lor w (Z.shiftl 1 bit).
Definition __query_bit (w bit : Z) : Z := Z.land w (Z.shiftl 1 bit).

Definition word_at (c : Z) : MI Z := m <- get ;; need (bitmap m !! Z.to_nat c).

(** [room] says whether [malloc] finds memory for the array; without it [bitmap] is NULL. *)
Definition init_id_manager (room : bool) (max_id : Z) : MI Z :=
  let size := (max_id + BITS_PER_U64 - 1) / BITS_PER_U64 in
  if room then put (mk_idman max_id 0 (replicate (Z.to_nat size) 0)) ;; ret 0
  else put (mk_idman max_id 0 []) ;; ret (- ENOMEM).

(** The first clear bit from [i] on, [n] being left. *)
Fixpoint find_zero (n : nat) (i w : Z) : Z :=
  match n with
  | O => i
  | S k => if __query_bit w i =? 0 then i else find_zero k (i + 1) w
  end.
Definition __find_first_zero (w : Z) : Z := find_zero 64 0 w.

(** The loop of [alloc_id], with [tries] rounds left. *)
Fixpoint find_id (tries : nat) : MI Z :=
  match tries with
  | O => ret (- ENOMEM)
  | S k =>
      m <- get ;;
      let c := if nr_slots m <=? curr_slot m then 0 else curr_slot m in
      w <- word_at c ;;
      let bit := __find_first_zero w in
      let id := c * BITS_PER_U64 + bit in
      if (bit =? BITS_PER_U64) || (max_id m <=? id) then modify (with_slot (c + 1)) ;; find_id k
      else modify (λ m, with_word c (__set_bit w bit) (with_slot c m)) ;; ret id
  end.
Definition alloc_id : MI Z := m <- get ;; find_id (S (length (bitmap m))).

Definition query_id (id : Z) : MI Z :=
  m <- get ;;
  BUG_ON (negb ((0 <? id) && (id <? max_id m))) ;;
  w <- word_at (id / BITS_PER_U64) ;;
  ret (if __query_bit w (id mod BITS_PER_U64) =? 0 then - ENOENT else 0).

Definition free_id (id : Z) : MI Z :=
  m <- get ;;
  BUG_ON (negb ((0 <? id) && (id <? max_id m))) ;;
  let idx := id / BITS_PER_U64 in
  let bit := id mod BITS_PER_U64 in
  w <- word_at idx ;;
  if __query_bit w bit =? 0 then ret (- ENOENT)
  else modify (λ m, with_slot idx (with_word idx (__clear_bit w bit) m)) ;; ret 0.

(** ** The set of identifiers *)

Implicit Types m : id_manager.

Record idman_ok m : Prop := {
  im_slots : max_id m ≤ BITS_PER_U64 * nr_slots m;
  im_some : 0 < nr_slots m;
  im_curr : 0 ≤ curr_slot m
}.

Definition used m (id : Z) : bool := Z.testbit (default 0 (bitmap m !! Z.to_nat (id / BITS_PER_U64))) (id mod BITS_PER_U64).

Lemma query_bit w b : 0 ≤ b → (__query_bit w b =? 0) = negb (Z.testbit w b).
Proof.
  intros Hb. unfold __query_bit. rewrite Z.shiftl_1_l. destruct (Z.testbit w b) eqn:E; cbn [negb].
  - apply Z.eqb_neq. intros E0. apply (f_equal (λ x, Z.testbit x b)) in E0. rewrite Z.land_spec, E, Z.pow2_bits_true, Z.bits_0 in E0 by done. done.
  - apply Z.eqb_eq, Z.bits_inj'. intros j Hj. rewrite Z.land_spec, Z.pow2_bits_eqb, Z.bits_0 by done. destruct (Z.eqb_spec b j) as [<-|]; [by rewrite E|by rewrite andb_false_r].
Qed.
Lemma set_bit_spec w b j : 0 ≤ b → 0 ≤ j → Z.testbit (__set_bit w b) j = (b =? j) || Z.testbit w j.
Proof. intros Hb Hj. unfold __set_bit. rewrite Z.shiftl_1_l, Z.lor_spec, Z.pow2_bits_eqb by done. apply orb_comm. Qed.
Lemma clear_bit_spec w b j : 0 ≤ b → 0 ≤ j → Z.testbit (__clear_bit w b) j = negb (b =? j) && Z.testbit w j.
Proof. intros Hb Hj. unfold __clear_bit. rewrite Z.shiftl_1_l, Z.land_spec, Z.lnot_spec, Z.pow2_bits_eqb by done. apply andb_comm. Qed.

Lemma find_zero_spec n i w : 0 ≤ i → let r := find_zero n i w in i ≤ r ≤ i + Z.of_nat n ∧ (∀ j, i ≤ j < r → Z.testbit w j = true) ∧
  (r < i + Z.of_nat n → Z.testbit w r = false).
Proof.
  revert i. induction n as [|n IH]; intros i Hi; cbn [find_zero]; [split_and!; intros; lia|]. rewrite query_bit by done.
  destruct (Z.testbit w i) eqn:E; cbn [negb]; [|split_and!; [lia|lia|intros; lia|done]].
  destruct (IH (i + 1)) as ((H1 & H2) & H3 & H4); [lia|]. split_and!; [lia|lia| |intros; apply H4; lia].
  intros j Hj. destruct (decide (j = i)) as [->|]; [done|apply H3; lia].
Qed.

(** A word in which no number below [max_id] is free. *)
Definition full m (c : Z) : Prop := ∀ id, id / BITS_PER_U64 = c → id < max_id m → used m id = true.

Lemma word_at_ok m c w : bitmap m !! Z.to_nat c = Some w → word_at c m = Done w m.
Proof. intros Hw. unfold word_at, bind, get, need. by rewrite Hw. Qed.

(** What an allocation does. *)
Definition allocated m m' (id : Z) : Prop :=
  0 ≤ id < max_id m ∧ used m id = false ∧ max_id m' = max_id m ∧ idman_ok m' ∧ ∀ j, 0 ≤ j → used m' j = (id =? j) || used m j.

Lemma used_word m c w b : bitmap m !! Z.to_nat c = Some w → 0 ≤ c → 0 ≤ b < 64 → used m (c * 64 + b) = Z.testbit w b.
Proof.
  intros Hw Hc Hb. unfold used, BITS_PER_U64. rewrite Z.div_add_l by done. rewrite (Z.div_small b) by lia. rewrite Z.add_0_r, Hw.
  rewrite Z.add_comm, Z.mod_add by done. by rewrite Z.mod_small by lia.
Qed.

Lemma used_with_word m c v j : 0 ≤ c < nr_slots m → 0 ≤ j →
  used (with_word c v m) j = if decide (j / 64 = c) then Z.testbit v (j mod 64) else used m j.
Proof.
  intros Hc Hj. unfold used, nr_slots, BITS_PER_U64 in *. cbn [with_word bitmap]. pose proof (Z.div_pos j 64 Hj). destruct (decide (j / 64 = c)) as [E|N].
  - rewrite E, list_lookup_insert_eq by lia. done.
  - by rewrite list_lookup_insert_ne by lia.
Qed.

Lemma find_id_spec tries m : idman_ok m → let c0 := if nr_slots m <=? curr_slot m then 0 else curr_slot m in
  (∃ id m', find_id tries m = Done id m' ∧ allocated m m' id) ∨
  (∃ c', find_id tries m = Done (- ENOMEM) (with_slot c' m) ∧ 0 ≤ c' ∧ ∀ t, 0 ≤ t < Z.of_nat tries → full m ((c0 + t) mod nr_slots m)).
Proof.
  revert m. induction tries as [|k IH]; intros m O c0; cbn [find_id].
  { right. exists (curr_slot m). split_and!; [by destruct m|apply O|intros; lia]. }
  erewrite bind_Done by reflexivity. cbv zeta. fold c0. pose proof (im_some m O) as H1. pose proof (im_curr m O) as H2.
  assert (0 ≤ c0 < nr_slots m) as Hc by (unfold c0; destruct (Z.leb_spec (nr_slots m) (curr_slot m)); lia).
  destruct (lookup_lt_is_Some_2 (bitmap m) (Z.to_nat c0)) as [w Hw]; [unfold nr_slots in *; lia|]. erewrite bind_Done by (by apply word_at_ok).
  destruct (find_zero_spec 64 0 w ltac:(done)) as (F1 & F2 & F3). change (find_zero 64 0 w) with (__find_first_zero w) in F1, F2, F3. set (b := __find_first_zero w) in *.
  unfold BITS_PER_U64. destruct ((b =? 64) || (max_id m <=? c0 * 64 + b)) eqn:E.
  - assert (full m c0) as Hf.
    { intros id Hid Hm. unfold BITS_PER_U64 in Hid. pose proof (Z.mod_pos_bound id 64 ltac:(lia)). pose proof (Z.div_mod id 64 ltac:(lia)) as Ei.
      replace id with (c0 * 64 + id mod 64) by lia. rewrite (used_word m c0 w) by (done || lia). apply F2. apply orb_true_iff in E as [E%Z.eqb_eq|E%Z.leb_le]; lia. }
    erewrite bind_Done by reflexivity. assert (idman_ok (with_slot (c0 + 1) m)) as O' by (destruct O; split; cbn; [done|done|lia]).
    destruct (IH _ O') as [(id & m' & E' & HA)|(c' & E' & Hc' & HF)]; [left; exists id, m'; by split|right]. exists c'. split_and!; [exact E'|done|].
    intros t Ht. destruct (decide (t = 0)) as [->|Nt]; [rewrite Z.add_0_r, Z.mod_small by done; exact Hf|]. specialize (HF (t - 1) ltac:(lia)).
    change (full m (((if nr_slots m <=? c0 + 1 then 0 else c0 + 1) + (t - 1)) mod nr_slots m)) in HF. destruct (Z.leb_spec (nr_slots m) (c0 + 1)) as [L|L].
    + replace (c0 + t) with (0 + (t - 1) + 1 * nr_slots m) by lia. by rewrite Z.mod_add by lia.
    + by replace (c0 + t) with (c0 + 1 + (t - 1)) by lia.
  - apply orb_false_iff in E as [Nb%Z.eqb_neq Hm%Z.leb_gt]. left. eexists _, _. split; [reflexivity|]. specialize (F3 ltac:(lia)).
    split_and!; [lia|done|by rewrite (used_word m c0 w) by (done || lia)|done| |].
    + destruct O as [O1 O2 O3]. unfold nr_slots in *. split; unfold nr_slots; cbn [with_word with_slot bitmap max_id curr_slot]; rewrite ?length_insert; lia.
    + intros j Hj. change (used (with_word c0 (__set_bit w b) m) j = (c0 * 64 + b =? j) || used m j). rewrite used_with_word by done.
      pose proof (Z.mod_pos_bound j 64 ltac:(lia)). pose proof (Z.div_mod j 64 ltac:(lia)) as Ej. case_decide as Dj.
      * rewrite set_bit_spec by lia. assert (used m j = Z.testbit w (j mod 64)) as -> by (rewrite <- (used_word m c0 w) by (done || lia); f_equal; lia). f_equal.
        destruct (Z.eqb_spec b (j mod 64)), (Z.eqb_spec (c0 * 64 + b) j); lia.
      * destruct (Z.eqb_spec (c0 * 64 + b) j) as [Ee|]; [|done]. destruct Dj. rewrite <- Ee, Z.div_add_l by done. rewrite Z.div_small by lia. lia.
Qed.

(** [alloc_id] gives a number that is not in use, and only then fails when all are. *)
Theorem alloc_id_ok m : idman_ok m → (∃ id m', alloc_id m = Done id m' ∧ allocated m m' id) ∨
  (∃ c', alloc_id m = Done (- ENOMEM) (with_slot c' m) ∧ 0 ≤ c' ∧ ∀ id, 0 ≤ id < max_id m → used m id = true).
Proof.
  intros O. unfold alloc_id. erewrite bind_Done by reflexivity. destruct (find_id_spec (S (length (bitmap m))) m O) as [?|(c' & E & Hc & HF)]; [by left|right].
  exists c'. split_and!; [done..|]. intros id Hid. pose proof (im_some m O). pose proof (im_slots m O). set (c0 := if nr_slots m <=? curr_slot m then 0 else curr_slot m) in *.
  assert (0 ≤ c0 < nr_slots m) as Hc0 by (pose proof (im_curr m O); unfold c0; destruct (Z.leb_spec (nr_slots m) (curr_slot m)); lia).
  assert (0 ≤ id / 64 < nr_slots m) as Hs by (unfold BITS_PER_U64 in *; split; [apply Z.div_pos; lia|apply Z.div_lt_upper_bound; lia]).
  apply (HF ((id / 64 - c0) mod nr_slots m)); [|rewrite Z.add_mod_idemp_r by lia; replace (c0 + (id / 64 - c0)) with (id / 64) by lia; by rewrite Z.mod_small by done|lia].
  pose proof (Z.mod_pos_bound (id / 64 - c0) (nr_slots m)). unfold nr_slots in *. lia.
Qed.

Lemma id_word m id : idman_ok m → 0 < id < max_id m → ∃ w, bitmap m !! Z.to_nat (id / 64) = Some w ∧ 0 ≤ id / 64 < nr_slots m ∧ used m id = Z.testbit w (id mod 64).
Proof.
  intros O Hid. pose proof (im_slots m O) as Hs. unfold BITS_PER_U64 in Hs.
  assert (0 ≤ id / 64 < nr_slots m) as Hc by (split; [apply Z.div_pos; lia|apply Z.div_lt_upper_bound; lia]).
  destruct (lookup_lt_is_Some_2 (bitmap m) (Z.to_nat (id / 64))) as [w Hw]; [unfold nr_slots in *; lia|]. exists w. split_and!; [done|lia|lia|].
  unfold used, BITS_PER_U64. by rewrite Hw.
Qed.

Lemma in_range_guard m id : 0 < id < max_id m → negb ((0 <? id) && (id <? max_id m)) = false.
Proof. intros Hid. by rewrite (proj2 (Z.ltb_lt 0 id)), (proj2 (Z.ltb_lt id _)) by lia. Qed.

Theorem query_id_ok m id : idman_ok m → 0 < id < max_id m → query_id id m = Done (if used m id then 0 else - ENOENT) m.
Proof.
  intros O Hid. unfold query_id. erewrite bind_Done by reflexivity. rewrite in_range_guard by done. cbn [BUG_ON]. erewrite bind_Done by reflexivity.
  destruct (id_word m id O Hid) as (w & Hw & _ & Hu). erewrite bind_Done by (by apply word_at_ok). unfold BITS_PER_U64.
  rewrite query_bit, Hu by (by apply Z.mod_pos_bound). by destruct (Z.testbit w (id mod 64)).
Qed.

(** [free_id] takes exactly its argument out, and says when it was not in use. *)
Theorem free_id_ok m id : idman_ok m → 0 < id < max_id m →
  if used m id then ∃ m', free_id id m = Done 0 m' ∧ idman_ok m' ∧ max_id m' = max_id m ∧ ∀ j, 0 ≤ j → used m' j = negb (id =? j) && used m j
  else free_id id m = Done (- ENOENT) m.
Proof.
  intros O Hid. unfold free_id. erewrite bind_Done by reflexivity. rewrite in_range_guard by done. cbn [BUG_ON]. erewrite bind_Done by reflexivity.
  destruct (id_word m id O Hid) as (w & Hw & Hc & Hu). cbv zeta. unfold BITS_PER_U64. erewrite bind_Done by (by apply word_at_ok).
  pose proof (Z.mod_pos_bound id 64 ltac:(lia)) as Mi. pose proof (Z.div_mod id 64 ltac:(lia)) as Ei. rewrite query_bit by lia. rewrite Hu.
  destruct (Z.testbit w (id mod 64)) eqn:Eb; cbn [negb]; [|done]. eexists. split; [reflexivity|]. split_and!; [|done|].
  - destruct O as [O1 O2 O3]. unfold nr_slots in *. split; unfold nr_slots; cbn [with_word with_slot bitmap max_id curr_slot]; rewrite ?length_insert; lia.
  - intros j Hj. change (used (with_word (id / 64) (__clear_bit w (id mod 64)) m) j = negb (id =? j) && used m j). rewrite used_with_word by done.
    pose proof (Z.mod_pos_bound j 64 ltac:(lia)). pose proof (Z.div_mod j 64 ltac:(lia)) as Ej. case_decide as Dj.
    + rewrite clear_bit_spec by lia. assert (used m j = Z.testbit w (j mod 64)) as -> by (rewrite <- (used_word m (id / 64) w) by (done || lia); f_equal; lia). f_equal. f_equal.
      destruct (Z.eqb_spec (id mod 64) (j mod 64)), (Z.eqb_spec id j); lia.
    + destruct (Z.eqb_spec id j) as [->|]; [done|done].
Qed.

(** A new manager has no number in use. *)
Theorem init_id_manager_ok n m0 : 0 < n → ∃ m, init_id_manager true n m0 = Done 0 m ∧ idman_ok m ∧ max_id m = n ∧ ∀ j, used m j = false.
Proof.
  intros Hn. unfold init_id_manager, BITS_PER_U64. pose proof (Z.div_mod (n + 64 - 1) 64 ltac:(lia)). pose proof (Z.mod_pos_bound (n + 64 - 1) 64 ltac:(lia)).
  eexists. split; [reflexivity|]. split_and!; [|done|].
  - split; unfold nr_slots, BITS_PER_U64; cbn [bitmap max_id curr_slot]; rewrite ?length_replicate; lia.
  - intros j. unfold used. cbn [bitmap]. destruct (replicate _ 0 !! _) as [w|] eqn:E; cbn [default]; [apply lookup_replicate in E as [-> _]|]; apply Z.bits_0.
Qed.

End Idman.
