(* ===== verification/TmpFid.v ===== *)
(** * Open files of the memory file system (user/tmpfs/util.h, tmpfs.c)

    A descriptor is a number of the id manager [fidman] and a record of the array
    [fid_records]: the inode, the flags and the offset.  The record's path, which only
    [fs_getcwd] reads, is left out.  The requests below come from clients with the
    number of a descriptor.

    The specification of the descriptors is the partial map [opened] from numbers to
    records; what a request does to the file is said with [TmpFile.content]. *)

From S2P Require Import Prelude URadix TmpFile Idman.

Module TmpFid.

Import URadix(Malloc, live, room, malloc, free, radix, radix_get).
Import TmpFile.
Import Idman(id_manager, max_id, idman_ok, used, alloc_id, query_id, free_id).

Definition MAX_NR_FID_RECORDS : Z := 1024.
Definition EACCES : Z := 13.
Definition EEXIST : Z := 17.
Definition ENOTDIR : Z := 20.
Definition SEEK_SET : Z := 0.
Definition SEEK_CUR : Z := 1.
Definition SEEK_END : Z := 2.
Definition O_WRONLY : Z := 1.
Definition O_RDWR : Z := 2.
Definition O_CREAT : Z := 0x40.
Definition O_EXCL : Z := 0x80.
Definition O_NOCTTY : Z := 0x100.
Definition O_TRUNC : Z := 0x200.
Definition O_APPEND : Z := 0x400.
Definition O_DIRECTORY : Z := 0x4000.
Definition O_NOFOLLOW : Z := 0x8000.
Definition O_CLOEXEC : Z := 0x80000.
Definition O_PATH : Z := 0x200000.
Definition O_TTY_INIT : Z := 0.
Definition O_ACCMODE : Z := Z.lor 3 O_PATH.
Definition F_GETFL : Z := 3.
Definition F_SETFL : Z := 4.
Definition FALLOC_FL_PUNCH_HOLE : Z := 0x02.
Definition FALLOC_FL_COLLAPSE_RANGE : Z := 0x08.
Definition FALLOC_FL_ZERO_RANGE : Z := 0x10.
Definition FALLOC_FL_INSERT_RANGE : Z := 0x20.

(** [inode] is 0 for NULL. *)
Record fid_record := mk_fid { f_inode : Z; f_flags : Z; f_offset : Z }.

Definition with_f_inode (v : Z) (r : fid_record) : fid_record := mk_fid v (f_flags r) (f_offset r).
Definition with_f_flags (v : Z) (r : fid_record) : fid_record := mk_fid (f_inode r) v (f_offset r).
Definition with_f_offset (v : Z) (r : fid_record) : fid_record := mk_fid (f_inode r) (f_flags r) v.
Definition null_record : fid_record := mk_fid 0 0 0.

(** Whether a flag of [m] is set. *)
Definition has (flags m : Z) : bool := negb (Z.land flags m =? 0).

Section fids.
Context {H : Type} `{!Malloc H} (junk : Z → list Z).

Record tmpfs := mk_tmpfs { files : TmpFile.state H; fidman : id_manager; fid_records : list fid_record }.

Abbreviation MT := (M tmpfs).

Definition with_files (f : TmpFile.state H) (s : tmpfs) : tmpfs := mk_tmpfs f (fidman s) (fid_records s).
Definition with_fidman (m : id_manager) (s : tmpfs) : tmpfs := mk_tmpfs (files s) m (fid_records s).
Definition with_records (l : list fid_record) (s : tmpfs) : tmpfs := mk_tmpfs (files s) (fidman s) l.

Definition on_files {X} (m : M (TmpFile.state H) X) : MT X := zoom files with_files m.
Definition on_ids {X} (m : M id_manager X) : MT X := zoom fidman with_fidman m.

(** [fid_records[fd]]. *)
Definition rec_at (fd : Z) : MT fid_record := s <- get ;; need (if 0 <=? fd then fid_records s !! Z.to_nat fd else None).
Definition set_rec (fd : Z) (f : fid_record → fid_record) : MT unit :=
  r <- rec_at fd ;; modify (λ s, with_records (<[Z.to_nat fd := f r]> (fid_records s)) s).

(** What [init_tmpfs] does for descriptors: 0 is taken. *)
Definition init_fidman (room : bool) : MT unit :=
  on_ids (Idman.init_id_manager room MAX_NR_FID_RECORDS) ;;
  id <- on_ids alloc_id ;;
  BUG_ON (negb (id =? 0)).

Definition new_fid_record (ino : Z) : MT Z :=
  id <- on_ids alloc_id ;;
  BUG_ON (negb (0 <? id)) ;;
  set_rec id (with_f_inode ino) ;;
  ret id.

(** The address of the record is the number of the descriptor. *)
Definition get_fid_record (fid : Z) : MT (option Z) :=
  if fid =? 0 then ret None
  else
    err <- on_ids (query_id fid) ;;
    ret (if negb (err =? 0) then None else Some fid).

Definition del_fid_record (fid : Z) : MT Z :=
  if fid =? 0 then ret (- EBADF)
  else
    err <- on_ids (query_id fid) ;;
    if negb (err =? 0) then ret (- EBADF)
    else
      set_rec fid (λ _, null_record) ;;
      err <- on_ids (free_id fid) ;;
      BUG_ON (negb (err =? 0)) ;;
      ret 0.
Definition fs_close (fd : Z) : MT Z := del_fid_record fd.

(** The bytes are what is stored in the message. *)
Definition tmpfs_read (fd count : Z) : MT (Z * list Z) :=
  r <- rec_at fd ;;
  x <- (if f_inode r =? 0 then ret (0, []) else on_files (tfs_file_read (f_inode r) (f_offset r) count)) ;;
  let res := s32 x.1 in
  set_rec fd (λ r, with_f_offset (s64 (f_offset r + res)) r) ;;
  ret (res, x.2).

Definition tmpfs_write (fd : Z) (buf : list Z) : MT Z :=
  r <- rec_at fd ;;
  x <- (if f_inode r =? 0 then ret 0 else on_files (tfs_file_write junk (f_inode r) (f_offset r) buf)) ;;
  let res := s32 x in
  set_rec fd (λ r, with_f_offset (s64 (f_offset r + res)) r) ;;
  ret res.

(** An unknown [whence] ends the server. *)
Definition tmpfs_lseek (fd offset whence : Z) : MT Z :=
  r <- rec_at fd ;;
  (if whence =? SEEK_SET then set_rec fd (with_f_offset offset)
   else if whence =? SEEK_CUR then set_rec fd (with_f_offset (s64 (f_offset r + offset)))
   else if whence =? SEEK_END then
     i <- on_files (inode_at (f_inode r)) ;;
     set_rec fd (with_f_offset (s64 (size i + offset)))
   else halt) ;;
  r <- rec_at fd ;;
  ret (f_offset r).

Definition fs_fchdir (fd : Z) : MT Z :=
  r <- rec_at fd ;;
  i <- on_files (inode_at (f_inode r)) ;;
  ret (if type i =? FS_DIR then 0 else - ENOTDIR).

(** [c && f(inode->type)]: the inode is read only when [c] holds. *)
Definition and_type (c : bool) (ino : Z) (f : Z → bool) : MT bool :=
  if c then i <- on_files (inode_at ino) ;; ret (f (type i)) else ret false.

(** [fs_open] after the walk, which has found the inode [target], 0 for NULL when the
    path ends with a slash; the result is the error or the descriptor that the answer
    carries. *)
Definition fs_open_found (target flags : Z) : MT (Z + Z) :=
  let writes := has flags (Z.lor O_RDWR O_WRONLY) in
  if negb (target =? 0) && has flags O_CREAT && has flags O_EXCL then ret (inl (- EEXIST))
  else
    b <- and_type (has flags O_DIRECTORY) target (λ t, negb (t =? FS_DIR)) ;;
    if b then ret (inl (- ENOTDIR))
    else
      b <- and_type writes target (λ t, t =? FS_DIR) ;;
      if b then ret (inl (- EISDIR))
      else if negb writes && has flags (Z.lor O_TRUNC O_APPEND) then ret (inl (- EACCES))
      else
        fid <- new_fid_record target ;;
        set_rec fid (with_f_flags (u64 flags)) ;;
        set_rec fid (with_f_offset 0) ;;
        b <- and_type (has flags O_TRUNC) target (λ t, t =? FS_REG) ;;
        (if b then on_files (tfs_truncate target 0) ;; ret tt else ret tt) ;;
        b <- and_type (has flags O_APPEND) target (λ t, t =? FS_REG) ;;
        (if b then i <- on_files (inode_at target) ;; set_rec fid (with_f_offset (s64 (size i))) else ret tt) ;;
        ret (inr fid).

Definition fs_ftruncate (fd len : Z) : MT Z :=
  r <- rec_at fd ;;
  if len <? 0 then ret (- EINVAL)
  else
    i <- on_files (inode_at (f_inode r)) ;;
    if type i =? FS_DIR then ret (- EISDIR)
    else if negb (type i =? FS_REG) then ret (- EINVAL)
    else on_files (tfs_truncate (f_inode r) len).

(** [err0] is what [err] of [fs_punch_hole] happens to hold, [fuel] bounds the loop of
    [fs_insert_range]. *)
Definition fs_fallocate (err0 : Z) (fuel : nat) (fd mode offset len : Z) : MT Z :=
  r <- rec_at fd ;;
  let ino := f_inode r in
  if (offset <? 0) || (len <=? 0) then ret (- EINVAL)
  else if has mode (Z.lnot (Z.lor FALLOC_FL_KEEP_SIZE (Z.lor FALLOC_FL_PUNCH_HOLE (Z.lor FALLOC_FL_COLLAPSE_RANGE
                             (Z.lor FALLOC_FL_ZERO_RANGE FALLOC_FL_INSERT_RANGE))))) then ret (- EOPNOTSUPP)
  else if has mode FALLOC_FL_PUNCH_HOLE then on_files (fs_punch_hole err0 ino offset len)
  else if has mode FALLOC_FL_COLLAPSE_RANGE then on_files (fs_collapse_range ino offset len)
  else if has mode FALLOC_FL_ZERO_RANGE then on_files (fs_zero_range junk ino offset len mode)
  else if has mode FALLOC_FL_INSERT_RANGE then on_files (fs_insert_range fuel ino offset len)
  else on_files (tfs_allocate junk ino offset len (has mode FALLOC_FL_KEEP_SIZE)).

(** The flags that [F_SETFL] changes. *)
Definition effective_bits : Z :=
  Z.land (Z.lnot O_ACCMODE) (Z.land (Z.lnot O_CLOEXEC) (Z.land (Z.lnot O_CREAT) (Z.land (Z.lnot O_DIRECTORY) (Z.land (Z.lnot O_EXCL)
    (Z.land (Z.lnot O_NOCTTY) (Z.land (Z.lnot O_NOFOLLOW) (Z.land (Z.lnot O_TRUNC) (Z.lnot O_TTY_INIT)))))))).

Definition fs_fcntl (fd cmd arg : Z) : MT Z :=
  fid <- get_fid_record fd ;;
  match fid with
  | None => ret (- EBADF)
  | Some fid =>
      if cmd =? F_GETFL then r <- rec_at fid ;; ret (s32 (f_flags r))
      else if cmd =? F_SETFL then
        set_rec fid (λ r, with_f_flags (Z.lor (u64 (Z.land arg effective_bits)) (Z.land (f_flags r) (u64 (Z.lnot effective_bits)))) r) ;;
        ret 0
      else ret (-1)
  end.

End fids.

(** ** Descriptors as a partial map *)

Section laws.
Context {H : Type} `{!Malloc H}.

Implicit Types s : tmpfs (H := H).

Definition is_fid (fd : Z) : Prop := 0 < fd < MAX_NR_FID_RECORDS.

(** The records of free descriptors are cleared. *)
Record fids_ok s : Prop := {
  fo_ids : idman_ok (fidman s);
  fo_max : max_id (fidman s) = MAX_NR_FID_RECORDS;
  fo_zero : used (fidman s) 0 = true;
  fo_len : length (fid_records s) = Z.to_nat MAX_NR_FID_RECORDS;
  fo_free : ∀ fd, is_fid fd → used (fidman s) fd = false → fid_records s !! Z.to_nat fd = Some null_record
}.

Definition opened s (fd : Z) : option fid_record :=
  if (0 <? fd) && (fd <? MAX_NR_FID_RECORDS) && used (fidman s) fd then fid_records s !! Z.to_nat fd else None.

Lemma opened_fid s fd : is_fid fd → opened s fd = if used (fidman s) fd then fid_records s !! Z.to_nat fd else None.
Proof. intros Hf. unfold opened, is_fid in *. by rewrite (proj2 (Z.ltb_lt 0 fd)), (proj2 (Z.ltb_lt fd _)) by lia. Qed.

Lemma opened_Some s fd r : opened s fd = Some r → is_fid fd ∧ used (fidman s) fd = true ∧ fid_records s !! Z.to_nat fd = Some r.
Proof.
  unfold opened, is_fid. destruct (Z.ltb_spec 0 fd), (Z.ltb_spec fd MAX_NR_FID_RECORDS), (used (fidman s) fd); cbn [andb]; intros E; [by split_and!|done..].
Qed.

Lemma opened_ext s s' : (∀ fd, is_fid fd → used (fidman s') fd = used (fidman s) fd) →
  (∀ fd, is_fid fd → fid_records s' !! Z.to_nat fd = fid_records s !! Z.to_nat fd) → ∀ fd, opened s' fd = opened s fd.
Proof.
  intros HU HR fd. unfold opened. destruct (Z.ltb_spec 0 fd), (Z.ltb_spec fd MAX_NR_FID_RECORDS); cbn [andb]; [|done..]. by rewrite HU, HR.
Qed.

Lemma rec_at_ok s fd r : 0 ≤ fd → fid_records s !! Z.to_nat fd = Some r → rec_at fd s = Done r s.
Proof. intros Hf Hr. unfold rec_at. erewrite bind_Done by reflexivity. rewrite (proj2 (Z.leb_le _ _) Hf). by rewrite Hr. Qed.

Definition put_rec (fd : Z) (r : fid_record) s : tmpfs := with_records (<[Z.to_nat fd := r]> (fid_records s)) s.

Lemma set_rec_ok s fd r f : 0 ≤ fd → fid_records s !! Z.to_nat fd = Some r → set_rec fd f s = Done tt (put_rec fd (f r) s).
Proof. intros Hf Hr. unfold set_rec. by erewrite bind_Done by (by apply rec_at_ok). Qed.

(** A request that changes the record of an open descriptor. *)
Lemma put_rec_ok s fd r v : fids_ok s → opened s fd = Some r →
  fids_ok (put_rec fd v s) ∧ ∀ j, opened (put_rec fd v s) j = if decide (j = fd) then Some v else opened s j.
Proof.
  intros O (Hf & Hu & Hr)%opened_Some. unfold is_fid in *. assert (length (fid_records (put_rec fd v s)) = length (fid_records s)) as HL by apply length_insert.
  assert (Z.to_nat fd < length (fid_records s))%nat as Lf by (by apply lookup_lt_Some in Hr). split.
  - destruct O as [O1 O2 O3 O4 O5]. split; [done..|by rewrite HL|]. intros j Hj Uj. cbn [put_rec with_records fid_records fidman] in *. unfold is_fid in *.
    rewrite list_lookup_insert_ne; [by apply O5|]. intros E. assert (j = fd) as -> by lia. congruence.
  - intros j. case_decide as D.
    + subst j. rewrite opened_fid by done. cbn [put_rec with_records fid_records fidman]. rewrite Hu. by rewrite list_lookup_insert_eq.
    + unfold opened. cbn [put_rec with_records fid_records fidman]. destruct (Z.ltb_spec 0 j); cbn [andb]; [|done]. by rewrite list_lookup_insert_ne by lia.
Qed.

(** A new descriptor is one that was not open, and the table is full when the server
    ends. *)
Theorem new_fid_ok s ino : fids_ok s →
  (∃ id s', new_fid_record ino s = Done id s' ∧ fids_ok s' ∧ is_fid id ∧ opened s id = None ∧ files s' = files s ∧
     ∀ j, opened s' j = if decide (j = id) then Some (mk_fid ino 0 0) else opened s j) ∨
  (new_fid_record ino s = Halt ∧ ∀ fd, is_fid fd → opened s fd ≠ None).
Proof.
  intros O. pose proof O as [O1 O2 O3 O4 O5]. unfold new_fid_record. destruct (Idman.alloc_id_ok (fidman s) O1) as [(id & m' & E & HA)|(c & E & _ & HF)].
  - left. destruct HA as (Hid & Uid & Mid & Oid & Sid). rewrite O2 in Hid.
    assert (0 < id) by (destruct (decide (id = 0)) as [->|]; [congruence|lia]). assert (is_fid id) as Hf by (unfold is_fid; lia).
    set (s1 := with_fidman m' s). assert (fid_records s1 !! Z.to_nat id = Some null_record) as Hr by (by apply O5).
    exists id, (put_rec id (mk_fid ino 0 0) s1). split.
    { erewrite bind_Done by (unfold on_ids; by apply zoom_Done). rewrite (proj2 (Z.ltb_lt 0 id)) by done. cbn [negb BUG_ON].
      erewrite bind_Done by reflexivity. erewrite bind_Done by (apply set_rec_ok; [lia|exact Hr]). reflexivity. }
    assert (fids_ok s1) as O'.
    { split; [done|by rewrite <- O2|cbn [s1 with_fidman fidman]; rewrite Sid by lia; rewrite O3; apply orb_true_r|done|].
      intros fd Hfd. cbn [s1 with_fidman fidman fid_records]. rewrite Sid by (unfold is_fid in Hfd; lia). intros [_ Ufd]%orb_false_iff. by apply O5. }
    assert (opened s1 id = Some null_record) as Ho by (rewrite opened_fid by done; cbn [s1 with_fidman fidman]; rewrite Sid, Z.eqb_refl by lia; exact Hr).
    destruct (put_rec_ok s1 id null_record (mk_fid ino 0 0) O' Ho) as [O2' HO]. split_and!; [exact O2'|exact Hf|by rewrite opened_fid, Uid|done|].
    intros j. rewrite HO. case_decide as D; [done|]. unfold opened. cbn [s1 with_fidman fidman fid_records]. destruct (Z.ltb_spec 0 j); cbn [andb]; [|done].
    rewrite Sid by lia. by rewrite (proj2 (Z.eqb_neq id j)) by done.
  - right. split.
    + erewrite bind_Done by (unfold on_ids; by apply zoom_Done). reflexivity.
    + intros fd Hfd. rewrite opened_fid by done. rewrite HF by (rewrite O2; unfold is_fid in Hfd; lia).
      destruct (lookup_lt_is_Some_2 (fid_records s) (Z.to_nat fd)) as [r ->]; [rewrite O4; unfold is_fid in Hfd; lia|done].
Qed.

Lemma query_fid s fd : fids_ok s → is_fid fd → on_ids (query_id fd) s = Done (match opened s fd with Some _ => 0 | None => - Idman.ENOENT end) s.
Proof.
  intros O Hf. pose proof O as [O1 O2 O3 O4 O5]. unfold on_ids. erewrite zoom_Done by (apply Idman.query_id_ok; [done|by rewrite O2]).
  rewrite opened_fid by done. destruct (lookup_lt_is_Some_2 (fid_records s) (Z.to_nat fd)) as [r Hr]; [rewrite O4; unfold is_fid in Hf; lia|].
  rewrite Hr. by destruct (used (fidman s) fd), s.
Qed.

Lemma get_fid_ok s fd : fids_ok s → 0 ≤ fd < MAX_NR_FID_RECORDS → get_fid_record fd s = Done ((λ _, fd) <$> opened s fd) s.
Proof.
  intros O Hf. unfold get_fid_record. destruct (Z.eqb_spec fd 0) as [->|N]; [done|]. erewrite bind_Done by (apply query_fid; [done|unfold is_fid; lia]).
  by destruct (opened s fd).
Qed.

(** Closing removes the descriptor, and says when it is not open. *)
Theorem close_ok s fd : fids_ok s → 0 ≤ fd < MAX_NR_FID_RECORDS →
  match opened s fd with
  | Some _ => ∃ s', fs_close fd s = Done 0 s' ∧ fids_ok s' ∧ files s' = files s ∧ ∀ j, opened s' j = if decide (j = fd) then None else opened s j
  | None => fs_close fd s = Done (- EBADF) s
  end.
Proof.
  intros O Hf. unfold fs_close, del_fid_record. destruct (Z.eqb_spec fd 0) as [->|N]; [done|]. assert (is_fid fd) as Hfd by (unfold is_fid; lia).
  erewrite !bind_Done by (by apply query_fid). destruct (opened s fd) as [r|] eqn:Er; [|done]. change (negb (0 =? 0)) with false. cbv iota.
  pose proof (opened_Some s fd r Er) as (_ & Hu & Hr). erewrite bind_Done by (apply set_rec_ok; [lia|exact Hr]).
  destruct (put_rec_ok s fd r null_record O Er) as [O1 HO]. set (s1 := put_rec fd null_record s) in *. pose proof O1 as [P1 P2 P3 P4 P5].
  pose proof (Idman.free_id_ok (fidman s1) fd P1 ltac:(by rewrite P2)) as HF. change (used (fidman s1) fd) with (used (fidman s) fd) in HF. rewrite Hu in HF.
  destruct HF as (m' & E' & Om & Mm & Sm). erewrite bind_Done by (unfold on_ids; by apply zoom_Done). exists (with_fidman m' s1). split; [reflexivity|]. split_and!; [|done|].
  - split; [done|by rewrite <- P2|cbn [with_fidman fidman]; rewrite Sm, P3 by done; by rewrite (proj2 (Z.eqb_neq fd 0))|done|].
    intros j Hj. cbn [with_fidman fidman fid_records]. rewrite Sm by (unfold is_fid in Hj; lia). destruct (Z.eqb_spec fd j) as [<-|Nj]; cbn [negb andb]; [|by apply P5].
    intros _. cbn [s1 put_rec with_records fid_records]. rewrite list_lookup_insert_eq by (by apply lookup_lt_Some in Hr). done.
  - intros j. specialize (HO j). unfold opened at 1. cbn [with_fidman fidman fid_records]. destruct (Z.ltb_spec 0 j) as [L|L]; cbn [andb].
    + rewrite Sm by lia. destruct (Z.eqb_spec fd j) as [<-|Nj]; cbn [negb andb]; [rewrite andb_false_r; by rewrite decide_True|].
      rewrite decide_False in HO by done. rewrite decide_False by done. rewrite <- HO. unfold opened. by rewrite (proj2 (Z.ltb_lt 0 j)).
    + rewrite decide_False by lia. unfold opened. by rewrite (proj2 (Z.ltb_ge 0 j)).
Qed.

(** A new table has no open descriptor. *)
Theorem init_fidman_ok s : fid_records s = replicate (Z.to_nat MAX_NR_FID_RECORDS) null_record →
  ∃ s', init_fidman true s = Done tt s' ∧ fids_ok s' ∧ files s' = files s ∧ ∀ fd, opened s' fd = None.
Proof.
  intros HR. unfold init_fidman. destruct (Idman.init_id_manager_ok MAX_NR_FID_RECORDS (fidman s) ltac:(done)) as (m & E & Om & Mm & Um).
  erewrite bind_Done by (unfold on_ids; by apply zoom_Done). injection E as Em.
  destruct (Idman.alloc_id_ok m Om) as [(id & m' & E' & _ & _ & Mi & Oi & Si)|(c & E' & _ & HF)]; [|specialize (HF 0 ltac:(by rewrite Mm)); by rewrite Um in HF].
  assert (id = 0) as -> by (subst m; vm_compute in E'; by injection E'). erewrite bind_Done by (unfold on_ids; by apply zoom_Done).
  assert (∀ fd, is_fid fd → used m' fd = false) as HU.
  { intros fd Hfd. unfold is_fid in Hfd. rewrite Si, Um by lia. by rewrite (proj2 (Z.eqb_neq 0 fd)) by lia. }
  eexists. split; [reflexivity|]. split_and!; [|done|].
  - split; cbn [with_fidman fidman fid_records]; [done|by rewrite Mi|by rewrite Si, Um by done|by rewrite HR, length_replicate|].
    intros fd Hfd _. rewrite HR. apply lookup_replicate_2. unfold is_fid in Hfd. lia.
  - intros fd. unfold opened. cbn [with_fidman fidman]. destruct (Z.ltb_spec 0 fd), (Z.ltb_spec fd MAX_NR_FID_RECORDS); cbn [andb]; [|done..]. by rewrite HU.
Qed.

(** ** Requests *)

Lemma files_fids s t : fids_ok s → fids_ok (with_files t s) ∧ ∀ j, opened (with_files t s) j = opened s j.
Proof. intros [O1 O2 O3 O4 O5]. done. Qed.

Lemma on_files_ok {X} s (m : M (TmpFile.state H) X) x t : m (files s) = Done x t → on_files m s = Done x (with_files t s).
Proof. apply zoom_Done. Qed.

Lemma on_inode s ino i : inodes (files s) !! ino = Some i → on_files (inode_at ino) s = Done i s.
Proof. intros Hi. erewrite on_files_ok by (by apply inode_at_ok). by destruct s. Qed.

(** The new position is where [whence] says; it is not checked. *)
Theorem lseek_ok s fd r off w p : fids_ok s → opened s fd = Some r → - 2 ^ 63 ≤ p < 2 ^ 63 →
  (w = SEEK_SET ∧ p = off ∨ w = SEEK_CUR ∧ p = f_offset r + off ∨
   w = SEEK_END ∧ ∃ i, inodes (files s) !! f_inode r = Some i ∧ p = size i + off) →
  tmpfs_lseek fd off w s = Done p (put_rec fd (with_f_offset p r) s).
Proof.
  intros O Ho Hp HW. pose proof (opened_Some s fd r Ho) as (Hf & _ & Hr). unfold is_fid in Hf. unfold tmpfs_lseek. erewrite bind_Done by (apply rec_at_ok; [lia|exact Hr]).
  destruct (put_rec_ok s fd r (with_f_offset p r) O Ho) as [_ HO]. specialize (HO fd). rewrite decide_True in HO by done. apply opened_Some in HO as (_ & _ & HR).
  assert (∀ v, v = p → set_rec fd (with_f_offset v) s = Done tt (put_rec fd (with_f_offset p r) s)) as HS by (intros v ->; apply set_rec_ok; [lia|exact Hr]).
  enough ((if w =? SEEK_SET then set_rec fd (with_f_offset off) else if w =? SEEK_CUR then set_rec fd (with_f_offset (s64 (f_offset r + off)))
           else if w =? SEEK_END then i <- on_files (inode_at (f_inode r)) ;; set_rec fd (with_f_offset (s64 (size i + off))) else halt) s
          = Done tt (put_rec fd (with_f_offset p r) s)) as E.
  { erewrite bind_Done by exact E. by erewrite bind_Done by (apply rec_at_ok; [lia|exact HR]). }
  destruct HW as [[-> ->]|[[-> ->]|[-> (i & Hi & ->)]]].
  - by apply HS.
  - apply HS. by apply s64_id.
  - change (SEEK_END =? SEEK_SET) with false. change (SEEK_END =? SEEK_CUR) with false. change (SEEK_END =? SEEK_END) with true. cbv iota.
    erewrite bind_Done by (by apply on_inode). apply HS. by apply s64_id.
Qed.

Theorem fid_read_ok s D fd r i n : fids_ok s → opened s fd = Some r → f_inode r ≠ 0 → fs_ok (files s) D → inodes (files s) !! f_inode r = Some i →
  type i ≠ FS_DIR → 0 ≤ f_offset r < 2 ^ 63 → 0 ≤ n < 2 ^ 31 →
  let l := take (Z.to_nat n) (drop (Z.to_nat (f_offset r)) (content (files s) (f_inode r))) in
  tmpfs_read fd n s = Done (Z.of_nat (length l), l) (put_rec fd (with_f_offset (f_offset r + Z.of_nat (length l)) r) s).
Proof.
  intros O Ho Hn OF Hi Ht Hoff Hb l. pose proof (opened_Some s fd r Ho) as (Hf & _ & Hr). unfold is_fid in Hf.
  pose proof (o_size _ D OF _ i Hi) as Hs. assert (length l ≤ Z.to_nat n)%nat as L1 by (unfold l; rewrite length_take; lia).
  assert (f_offset r + Z.of_nat (length l) < 2 ^ 63) as L2 by (unfold l; rewrite length_take, length_drop, (content_length _ _ i Hi); lia).
  unfold tmpfs_read. erewrite bind_Done by (apply rec_at_ok; [lia|exact Hr]). rewrite (proj2 (Z.eqb_neq _ _) Hn).
  erewrite bind_Done by (apply on_files_ok, (file_read_ok (files s) D (f_inode r) i (f_offset r) n); (done || lia)). fold l. cbn [fst snd]. cbv zeta.
  replace (with_files (files s) s) with s by (by destruct s). rewrite s32_id by lia. erewrite bind_Done by (apply set_rec_ok; [lia|exact Hr]).
  unfold ret. by rewrite s64_id by lia.
Qed.

(** Truncation through a descriptor, on every branch: a negative length, a
    directory and what is not a regular file are refused without a change; a regular
    file is cut or gets zeros at its end, and no other file changes.  The page with
    the new end must not be missing. *)
Theorem ftruncate_ok s D fd r i len : fids_ok s → opened s fd = Some r → fs_ok (files s) D → inodes (files s) !! f_inode r = Some i → len < 2 ^ 63 →
  (len < size i → len mod PAGE_SIZE = 0 ∨ radix_get (data i) (len / PAGE_SIZE) ≠ 0) → room (heap (files s)) 1 →
  let c := content (files s) (f_inode r) in
  let e := if len <? 0 then - EINVAL else if type i =? FS_DIR then - EISDIR else if type i =? FS_REG then 0 else - EINVAL in
  ∃ t D', fs_ftruncate fd len s = Done e (with_files t s) ∧ fs_ok t D' ∧
  content t (f_inode r) = (if e =? 0 then take (Z.to_nat len) c ++ replicate (Z.to_nat len - length c) 0 else c) ∧
  ∀ ino', ino' ≠ f_inode r → inodes t !! ino' = inodes (files s) !! ino' ∧ content t ino' = content (files s) ino'.
Proof.
  intros O Ho OF Hi Hl HG HR c e. pose proof (opened_Some s fd r Ho) as (Hf & _ & Hr). unfold is_fid in Hf.
  assert (s = with_files (files s) s) as Es by (by destruct s).
  unfold fs_ftruncate. erewrite bind_Done by (apply rec_at_ok; [lia|exact Hr]). unfold e. destruct (Z.ltb_spec len 0) as [L|L].
  { exists (files s), D. rewrite <- Es. by split_and!. }
  erewrite bind_Done by (by apply on_inode). destruct (Z.eqb_spec (type i) FS_DIR) as [Ed|Nd]; [exists (files s), D; rewrite <- Es; by split_and!|].
  destruct (Z.eqb_spec (type i) FS_REG) as [Er|Nr]; cbn [negb]; [|exists (files s), D; rewrite <- Es; by split_and!].
  destruct (truncate_ok (files s) D (f_inode r) i len 0 OF Hi Er ltac:(lia) HG HR) as (t & D' & E & O' & _ & _ & HC & HO).
  exists t, D'. split_and!; [by apply on_files_ok|done|exact HC|exact HO].
Qed.

Lemma and_type_ok s c ino i f : inodes (files s) !! ino = Some i → and_type c ino f s = Done (c && f (type i)) s.
Proof. intros Hi. destruct c; cbn [and_type andb]; [|done]. by erewrite bind_Done by (by apply on_inode). Qed.

(** [O_TRUNC] in [fs_open]. *)
Lemma open_trunc_ok s D ino i (b : bool) : fs_ok (files s) D → inodes (files s) !! ino = Some i → type i = FS_REG → room (heap (files s)) 1 →
  ∃ t D' i', (if b then on_files (tfs_truncate ino 0) ;; ret tt else ret tt) s = Done tt (with_files t s) ∧ fs_ok t D' ∧
  inodes t !! ino = Some i' ∧ type i' = FS_REG ∧ content t ino = (if b then [] else content (files s) ino) ∧
  ∀ ino', ino' ≠ ino → content t ino' = content (files s) ino'.
Proof.
  intros OF Hi Ht Hr. destruct b; [|exists (files s), D, i; split_and!; [by destruct s|done..]]. pose proof (o_size _ D OF ino i Hi).
  assert (0 < size i → 0 mod PAGE_SIZE = 0 ∨ radix_get (data i) (0 / PAGE_SIZE) ≠ 0) as HG by (intros; by left).
  destruct (truncate_spec (files s) D ino i 0 0 OF Hi Ht ltac:(lia) HG Hr) as (d' & t & _ & E & _ & _ & _ & I & _).
  destruct (truncate_ok (files s) D ino i 0 0 OF Hi Ht ltac:(lia) HG Hr) as (t' & D' & E' & O' & _ & _ & HC & HO).
  rewrite E' in E. injection E as ->. exists t, D', (mk_inode (refcnt i) (type i) 0 d').
  split_and!; [by erewrite bind_Done by (by apply on_files_ok)|done|by rewrite I, lookup_insert_eq|done|exact HC|intros ino' N; by apply HO].
Qed.

(** Opening a regular file gives a new descriptor at its start or, to append, at its
    end; [O_TRUNC] empties the file. *)
Theorem open_ok s D ino i flags : fids_ok s → fs_ok (files s) D → inodes (files s) !! ino = Some i → type i = FS_REG → room (heap (files s)) 1 →
  has flags O_CREAT && has flags O_EXCL = false → has flags O_DIRECTORY = false →
  negb (has flags (Z.lor O_RDWR O_WRONLY)) && has flags (Z.lor O_TRUNC O_APPEND) = false →
  (∃ fd, is_fid fd ∧ opened s fd = None) →
  ∃ fd s' D', fs_open_found ino flags s = Done (inr fd) s' ∧ fids_ok s' ∧ fs_ok (files s') D' ∧ opened s fd = None ∧
  let c := if has flags O_TRUNC then [] else content (files s) ino in
  content (files s') ino = c ∧ (∀ ino', ino' ≠ ino → content (files s') ino' = content (files s) ino') ∧
  ∀ j, opened s' j = if decide (j = fd) then Some (mk_fid ino (u64 flags) (if has flags O_APPEND then Z.of_nat (length c) else 0)) else opened s j.
Proof.
  intros O OF Hi Ht Hr Hx Hd Hw (fd0 & Hfd0 & Hfree). unfold fs_open_found. cbv zeta. rewrite <- andb_assoc, Hx, andb_false_r. cbv iota.
  erewrite bind_Done by (by apply and_type_ok). rewrite Hd. cbn [andb]. erewrite bind_Done by (by apply and_type_ok).
  rewrite Ht. change (FS_REG =? FS_DIR) with false. rewrite andb_false_r, Hw. cbv iota.
  destruct (new_fid_ok s ino O) as [(fd & s1 & E1 & O1 & Hfd & Hn & F1 & HO1)|[_ HF]]; [|by destruct (HF fd0)].
  erewrite bind_Done by exact E1. assert (opened s1 fd = Some (mk_fid ino 0 0)) as Ho1 by (rewrite HO1; by rewrite decide_True).
  pose proof (opened_Some _ _ _ Ho1) as (_ & _ & R1). unfold is_fid in Hfd. erewrite bind_Done by (apply set_rec_ok; [lia|exact R1]).
  set (r2 := mk_fid ino (u64 flags) 0). destruct (put_rec_ok s1 fd _ r2 O1 Ho1) as [O2 HO2]. set (s2 := put_rec fd r2 s1) in *.
  assert (opened s2 fd = Some r2) as Ho2 by (rewrite HO2; by rewrite decide_True). pose proof (opened_Some _ _ _ Ho2) as (_ & _ & R2).
  erewrite bind_Done by (apply set_rec_ok; [lia|exact R2]). destruct (put_rec_ok s2 fd _ r2 O2 Ho2) as [O3 HO3]. change (with_f_offset 0 r2) with r2.
  set (s3 := put_rec fd r2 s2) in *. assert (files s3 = files s) as F3 by exact F1. rewrite <- F3 in OF, Hi, Hr.
  erewrite bind_Done by (by apply and_type_ok). rewrite Ht. change (FS_REG =? FS_REG) with true. rewrite andb_true_r.
  destruct (open_trunc_ok s3 D ino i (has flags O_TRUNC) OF Hi Ht Hr) as (t & D' & i' & E4 & OF' & Hi' & Ht' & HC & HCo). erewrite bind_Done by exact E4.
  set (s4 := with_files t s3) in *. destruct (files_fids s3 t O3) as [O4 HO4]. fold s4 in O4, HO4.
  erewrite bind_Done by (by apply (and_type_ok s4 _ ino i')). rewrite Ht'. change (FS_REG =? FS_REG) with true. rewrite andb_true_r.
  rewrite F3 in HC, HCo. assert (∀ j, opened s4 j = if decide (j = fd) then Some r2 else opened s j) as HO.
  { intros j. rewrite HO4, HO3, HO2, HO1. by case_decide. }
  destruct (has flags O_APPEND); [|exists fd, s4, D'; by split_and!].
  assert (opened s4 fd = Some r2) as Ho4 by (rewrite HO; by rewrite decide_True). pose proof (opened_Some _ _ _ Ho4) as (_ & _ & R4).
  erewrite bind_Done by (erewrite bind_Done by (by apply (on_inode s4 ino i')); apply set_rec_ok; [lia|exact R4]).
  pose proof (o_size t D' OF' ino i' Hi') as Hs. rewrite <- HC. rewrite (content_length t ino i' Hi'), Z2Nat.id by lia. rewrite s64_id by lia.
  destruct (put_rec_ok s4 fd r2 (with_f_offset (size i') r2) O4 Ho4) as [O5 HO5]. exists fd, (put_rec fd (with_f_offset (size i') r2) s4), D'.
  split_and!; [done..|]. intros j. rewrite HO5, HO. by case_decide.
Qed.

(** [F_SETFL] changes the effective bits only, and [F_GETFL] returns the flags. *)
Theorem fcntl_ok s fd r arg : fids_ok s → opened s fd = Some r → is_u64 (f_flags r) →
  fs_fcntl fd F_GETFL arg s = Done (s32 (f_flags r)) s ∧
  ∃ v s', fs_fcntl fd F_SETFL arg s = Done 0 s' ∧ fids_ok s' ∧ (∀ j, opened s' j = if decide (j = fd) then Some (with_f_flags v r) else opened s j) ∧
  ∀ k, 0 ≤ k < 64 → Z.testbit v k = if Z.testbit effective_bits k then Z.testbit arg k else Z.testbit (f_flags r) k.
Proof.
  intros O Ho Hu. pose proof (opened_Some s fd r Ho) as (Hf & _ & Hr). unfold is_fid in Hf. unfold fs_fcntl. split.
  { erewrite bind_Done by (by apply get_fid_ok; [|lia]). rewrite Ho. cbn [fmap option_fmap option_map]. change (F_GETFL =? F_GETFL) with true. cbv iota.
    by erewrite bind_Done by (apply rec_at_ok; [lia|exact Hr]). }
  eexists _, _. split; [|split].
  - erewrite bind_Done by (by apply get_fid_ok; [|lia]). rewrite Ho. cbn [fmap option_fmap option_map]. change (F_SETFL =? F_GETFL) with false.
    change (F_SETFL =? F_SETFL) with true. cbv iota. by erewrite bind_Done by (apply set_rec_ok; [lia|exact Hr]).
  - by apply (put_rec_ok s fd r).
  - split; [by apply (put_rec_ok s fd r)|]. intros k Hk. unfold u64. rewrite !Z.lor_spec, !Z.land_spec, !Z.mod_pow2_bits_low, Z.land_spec, Z.lnot_spec by lia.
    destruct (Z.testbit arg k), (Z.testbit effective_bits k), (Z.testbit (f_flags r) k); done.
Qed.

End laws.

Section requests.
Context {H : Type} `{!Malloc H} (junk : Z → list Z).
Hypothesis junk_len : ∀ p, length (junk p) = Z.to_nat PAGE_SIZE.

Implicit Types s : tmpfs (H := H).

(** Writing through a descriptor moves it by what is written. *)
Lemma fid_write_ok s D fd r i buf : fids_ok s → opened s fd = Some r → f_inode r ≠ 0 → fs_ok (files s) D → inodes (files s) !! f_inode r = Some i → type i ≠ FS_DIR →
  let n := Z.of_nat (length buf) in let off := f_offset r in let c := content (files s) (f_inode r) in
  n < 2 ^ 31 → 0 ≤ off ≤ size i → off + n < 2 ^ 63 → gap_free i off n → room (heap (files s)) (9 * npages off n) →
  ∃ t D' i', tmpfs_write junk fd buf s = Done n (put_rec fd (with_f_offset (off + n) r) (with_files t s)) ∧ fs_ok t D' ∧
  inodes t !! f_inode r = Some i' ∧ type i' = type i ∧ tfs_file_read (f_inode r) off n t = Done (n, buf) t ∧
  content t (f_inode r) = take (Z.to_nat off) c ++ buf ++ drop (Z.to_nat (off + n)) c ∧ ∀ ino', ino' ≠ f_inode r → content t ino' = content (files s) ino'.
Proof.
  intros O Ho Hn OF Hi Ht n off c Hb Hoff He Hg Hr. pose proof (opened_Some s fd r Ho) as (Hf & _ & HR). unfold is_fid in Hf.
  destruct (file_write_read junk junk_len (files s) D (f_inode r) i off buf OF Hi Ht Hoff He Hg Hr) as (t & D' & E & O' & HC & HRd & _ & HO). fold n in E, HRd.
  rewrite <- (Nat.add_0_r (9 * _)) in Hr.
  destruct (write_spec junk junk_len (files s) D (f_inode r) i off buf 0 OF Hi Ht Hoff He Hg Hr) as (d' & t' & _ & E' & _ & _ & _ & I' & _). fold n in E'.
  rewrite E in E'. injection E' as <-. eexists t, D', _. split_and!; [|done|by rewrite I', lookup_insert_eq|done|exact HRd|exact HC|exact HO].
  unfold tmpfs_write. erewrite bind_Done by (apply rec_at_ok; [lia|exact HR]). rewrite (proj2 (Z.eqb_neq _ _) Hn). erewrite bind_Done by (apply on_files_ok; exact E).
  cbv zeta. rewrite s32_id by lia. erewrite bind_Done by (apply set_rec_ok; [lia|exact HR]). unfold ret. by rewrite s64_id by (unfold off in *; lia).
Qed.

(** A position that is not in the file. *)
Lemma fid_write_out s D fd r i buf : opened s fd = Some r → f_inode r ≠ 0 → fs_ok (files s) D → inodes (files s) !! f_inode r = Some i →
  - 2 ^ 63 ≤ f_offset r < 2 ^ 63 → ¬ (0 ≤ f_offset r ≤ size i) → tmpfs_write junk fd buf s = Halt.
Proof.
  intros Ho Hn OF Hi Hr No. pose proof (opened_Some s fd r Ho) as (Hf & _ & HR). unfold is_fid in Hf. pose proof (o_size _ _ OF _ _ Hi) as Hs.
  unfold tmpfs_write. erewrite bind_Done by (apply rec_at_ok; [lia|exact HR]). rewrite (proj2 (Z.eqb_neq _ _) Hn).
  apply bind_Halt. apply zoom_Halt. unfold tfs_file_write. erewrite bind_Done by (by apply inode_at_ok).
  destruct (type i =? FS_DIR); [done|]. erewrite bind_Done by reflexivity. rewrite (proj2 (Z.ltb_lt _ _)); [done|].
  destruct (decide (f_offset r < 0)) as [L|G].
  - unfold u64. rewrite <- (Z.mod_unique (f_offset r) (2 ^ 64) (-1) (f_offset r + 2 ^ 64)); lia.
  - rewrite u64_id by (unfold is_u64; lia). lia.
Qed.

(** C40: Writing through a descriptor.  When its position is behind the end of the file
    or below 0 the server stops.  Otherwise, if there is memory for the pages and the
    write leaves no byte of a new page undefined ([gap_free]: a page that was missing is
    covered from its start, to its end or to the new end of the file): seeking back to
    where the write began and reading as many bytes gives the bytes written; the
    descriptor ends behind them, the file is the old one with the range replaced, and
    neither another file nor another descriptor changes. *)
Theorem fid_write_read s D fd r i buf : fids_ok s → opened s fd = Some r → f_inode r ≠ 0 → fs_ok (files s) D → inodes (files s) !! f_inode r = Some i → type i ≠ FS_DIR →
  let n := Z.of_nat (length buf) in let off := f_offset r in let c := content (files s) (f_inode r) in
  n < 2 ^ 31 → - 2 ^ 63 ≤ off → off + n < 2 ^ 63 →
  if decide (0 ≤ off ≤ size i) then gap_free i off n → room (heap (files s)) (9 * npages off n) →
  ∃ s1 s2 s3 D', tmpfs_write junk fd buf s = Done n s1 ∧ tmpfs_lseek fd off SEEK_SET s1 = Done off s2 ∧ tmpfs_read fd n s2 = Done (n, buf) s3 ∧
  fids_ok s3 ∧ fs_ok (files s3) D' ∧ content (files s3) (f_inode r) = take (Z.to_nat off) c ++ buf ++ drop (Z.to_nat (off + n)) c ∧
  (∀ ino', ino' ≠ f_inode r → content (files s3) ino' = content (files s) ino') ∧
  ∀ j, opened s3 j = if decide (j = fd) then Some (with_f_offset (off + n) r) else opened s j
  else tmpfs_write junk fd buf s = Halt.
Proof.
  intros O Ho Hn OF Hi Ht n off c Hb Hlo He. destruct (decide _) as [Hoff|Nof]; [intros Hg Hr|apply (fid_write_out s D fd r i buf Ho Hn OF Hi); [fold off; lia|done]].
  destruct (fid_write_ok s D fd r i buf O Ho Hn OF Hi Ht Hb Hoff He Hg Hr) as (t & D' & i' & E1 & OF' & Hi' & Ht' & HR & HC & HO). fold n off c in E1, HR, HC.
  destruct (files_fids s t O) as [Of HOf]. rewrite <- (HOf fd) in Ho. destruct (put_rec_ok (with_files t s) fd r (with_f_offset (off + n) r) Of Ho) as [O1 HO1].
  set (s1 := put_rec fd (with_f_offset (off + n) r) (with_files t s)) in *. assert (opened s1 fd = Some (with_f_offset (off + n) r)) as Ho1 by (rewrite HO1; by rewrite decide_True).
  pose proof (lseek_ok s1 fd _ off SEEK_SET off O1 Ho1 ltac:(lia) ltac:(by left)) as E2. destruct (put_rec_ok s1 fd _ (with_f_offset off r) O1 Ho1) as [O2 HO2].
  change (with_f_offset off (with_f_offset (off + n) r)) with (with_f_offset off r) in E2. set (s2 := put_rec fd (with_f_offset off r) s1) in *.
  assert (opened s2 fd = Some (with_f_offset off r)) as Ho2 by (rewrite HO2; by rewrite decide_True).
  pose proof (fid_read_ok s2 D' fd (with_f_offset off r) i' n O2 Ho2 Hn OF' Hi' ltac:(by rewrite Ht') ltac:(cbn; lia) ltac:(lia)) as E3. cbv zeta in E3. cbn [with_f_offset f_offset f_inode] in E3.
  pose proof (file_read_ok t D' (f_inode r) i' off n OF' Hi' ltac:(by rewrite Ht') ltac:(lia) ltac:(lia)) as E4. cbv zeta in E4. rewrite HR in E4.
  change (files s2) with t in E3. injection E4 as EL EB. rewrite <- EB in E3. fold n in E3. destruct (put_rec_ok s2 fd _ (with_f_offset (off + n) r) O2 Ho2) as [O3 HO3].
  exists s1, s2, (put_rec fd (with_f_offset (off + n) r) s2), D'. split_and!; [done..|]. intros j. rewrite HO3, HO2, HO1, HOf. by case_decide.
Qed.

(** Allocating through a descriptor: the errors, and the plain modes. *)
Theorem fallocate_ok s D fd r i err0 fuel mode off len : fids_ok s → opened s fd = Some r → fs_ok (files s) D → inodes (files s) !! f_inode r = Some i → type i = FS_REG →
  mode = 0 ∨ mode = FALLOC_FL_KEEP_SIZE → off + len < 2 ^ 63 → room (heap (files s)) (9 * npages 0 len) →
  let c := content (files s) (f_inode r) in
  if (off <? 0) || (len <=? 0) then fs_fallocate junk err0 fuel fd mode off len s = Done (- EINVAL) s
  else ∃ t D', fs_fallocate junk err0 fuel fd mode off len s = Done 0 (with_files t s) ∧ fs_ok t D' ∧
  content t (f_inode r) = c ++ (if mode =? FALLOC_FL_KEEP_SIZE then [] else replicate (Z.to_nat (off + len) - length c) 0) ∧
  ∀ ino', ino' ≠ f_inode r → content t ino' = content (files s) ino'.
Proof.
  intros O Ho OF Hi Ht Hm He Hr c. pose proof (opened_Some s fd r Ho) as (Hf & _ & HR). unfold is_fid in Hf. unfold fs_fallocate.
  destruct ((off <? 0) || (len <=? 0)) eqn:Eg; [by erewrite bind_Done by (apply rec_at_ok; [lia|exact HR])|]. apply orb_false_iff in Eg as [Ho0%Z.ltb_ge Hl0%Z.leb_gt].
  rewrite <- (Nat.add_0_r (9 * _)) in Hr.
  destruct (allocate_ok junk junk_len (files s) D (f_inode r) i off len (mode =? FALLOC_FL_KEEP_SIZE) 0 OF Hi Ht Ho0 Hl0 He Hr) as (t & D' & E & O' & _ & _ & HC & HO).
  exists t, D'. split_and!; [|done|exact HC|intros ino' N; by apply HO]. erewrite bind_Done by (apply rec_at_ok; [lia|exact HR]). cbv zeta.
  destruct Hm as [-> | ->]; by apply on_files_ok.
Qed.

End requests.

(** ** Runs *)

Module TmpFidDemo.

Import TmpFileDemo.
#[local] Existing Instance URadix.arena.

(** Descriptor 1 is open on the empty file 1. *)
Definition ids : id_manager := Idman.mk_idman MAX_NR_FID_RECORDS 0 (3 :: replicate 15 0).
Definition one_open : tmpfs (H := Z * Z) :=
  mk_tmpfs (start (2 ^ 30)) ids (null_record :: mk_fid 1 2 0 :: replicate 1022 null_record).

Lemma used_ids fd : 0 ≤ fd → used ids fd = bool_decide (fd < 2).
Proof.
  intros Hfd. unfold used, ids, Idman.BITS_PER_U64. cbn [Idman.bitmap]. pose proof (Z.div_mod fd 64 ltac:(lia)) as E. pose proof (Z.mod_pos_bound fd 64 ltac:(lia)) as B.
  destruct (decide (fd / 64 = 0)) as [E0|N0].
  - rewrite E0. change (default 0 ((3 :: replicate 15 0) !! Z.to_nat 0)) with 3. rewrite E0 in E. replace (fd mod 64) with fd by lia.
    destruct (decide (fd = 0)) as [->|]; [done|]. destruct (decide (fd = 1)) as [->|]; [done|]. rewrite bool_decide_false by lia. apply Z.bits_above_log2; [done|].
    change (Z.log2 3) with 1. lia.
  - pose proof (Z.div_pos fd 64 Hfd ltac:(lia)). rewrite bool_decide_false by lia. destruct (Z.to_nat (fd / 64)) as [|k] eqn:Ek; [lia|]. cbn [lookup list_lookup].
    destruct (replicate 15 0 !! k) as [w|] eqn:El; cbn [default]; [apply lookup_replicate in El as [-> _]|]; apply Z.bits_0.
Qed.

Lemma one_open_ok : fids_ok one_open.
Proof.
  split; [by split|done|done|done|]. intros fd Hfd. unfold is_fid in Hfd. unfold one_open. cbn [fidman fid_records]. rewrite used_ids by lia. intros N%bool_decide_eq_false_1.
  destruct (Z.to_nat fd) as [|[|k]] eqn:E; [lia|lia|]. cbn [lookup list_lookup]. apply lookup_replicate_2. unfold MAX_NR_FID_RECORDS in Hfd. lia.
Qed.

Lemma fid_write_read_witness : ∃ s1 s2 s3, tmpfs_write junk 1 [1; 2; 3] one_open = Done 3 s1 ∧ tmpfs_lseek 1 0 SEEK_SET s1 = Done 0 s2 ∧
  tmpfs_read 1 3 s2 = Done (3, [1; 2; 3]) s3.
Proof.
  destruct (fid_write_read junk junk_length one_open ∅ 1 (mk_fid 1 2 0) empty_file [1; 2; 3]) as (s1 & s2 & s3 & D' & E1 & E2 & E3 & _).
  - apply one_open_ok.
  - reflexivity.
  - done.
  - apply start_ok.
  - reflexivity.
  - done.
  - done.
  - done.
  - done.
  - intros k [H0 H1] _. change (f_offset _ / PAGE_SIZE) with 0 in H0. unfold PAGE_SIZE in *. cbn in *. lia.
  - done.
  - exists s1, s2, s3. split_and!; [exact E1|exact E2|exact E3].
Defined.

Lemma ftruncate_ok_witness : ∃ t D', fs_ftruncate 1 5000 one_open = Done 0 (with_files t one_open) ∧ fs_ok t D' ∧ content t 1 = replicate (Z.to_nat 5000) 0.
Proof.
  destruct (ftruncate_ok one_open ∅ 1 (mk_fid 1 2 0) empty_file 5000) as (t & D' & E & O & C & _).
  - apply one_open_ok.
  - reflexivity.
  - apply start_ok.
  - reflexivity.
  - done.
  - done.
  - done.
  - exists t, D'. split_and!; [exact E|exact O|etransitivity; [exact C|reflexivity]].
Defined.

(** A client can end the server: a position behind the end or below 0 is accepted,
    and the next write stops at [BUG_ON(offset > inode->size)]. *)
Example seek_write_ends : (tmpfs_lseek 1 10 SEEK_SET ;; tmpfs_write junk 1 [1]) one_open = Halt.
Proof. vm_compute. reflexivity. Qed.
Example seek_negative_ends : (tmpfs_lseek 1 (-1) SEEK_SET ;; tmpfs_write junk 1 [1]) one_open = Halt.
Proof. vm_compute. reflexivity. Qed.

(** The number of a descriptor is not checked by [tmpfs_read]; by [fs_fcntl] it is
    checked with an assertion. *)
Example read_bad_fd : tmpfs_read 1024 1 one_open = Fault.
Proof. vm_compute. reflexivity. Qed.
Example fcntl_bad_fd : fs_fcntl 1024 F_GETFL 0 one_open = Halt.
Proof. vm_compute. reflexivity. Qed.

(** [O_CREAT | O_EXCL] fails for a file that the walk has just created as for one
    that was there before. *)
Example open_excl : ∃ s, fs_open_found 1 (Z.lor O_RDWR (Z.lor O_CREAT O_EXCL)) one_open = Done (inl (- EEXIST)) s.
Proof. by eexists. Qed.

(** For a path that ends with a slash the walk gives NULL: the descriptor has no
    inode, and with [O_DIRECTORY] the server reads through NULL. *)
Example open_null : match fs_open_found 0 0 one_open with Done (inr 2) s => bool_decide (f_inode <$> opened s 2 = Some 0) | _ => false end = true.
Proof. vm_compute. reflexivity. Qed.
Example open_null_directory : fs_open_found 0 O_DIRECTORY one_open = Fault.
Proof. vm_compute. reflexivity. Qed.

End TmpFidDemo.

End TmpFid.
